(* ===== verification/_CoqProject ===== *)
-Q . S2P
Prelude.v
Cipher.v
Frame.v
Shaper.v
Decoder.v
Errors.v
Upstream.v
Upload.v
Text.v
Cookie.v
Token.v
Registry.v
Crypto.v
Handlers.v
Handshake.v
Replay.v
Refusal.v
UploadLoop.v
Tunnel.v
Service.v
Lifecycle.v
Download.v
EndToEnd.v
Duplex.v
H3.v
Masque.v
Net.v
Bypass.v
Proxy.v
Connection.v
Session.v
Exchange.v
Dns.v
DnsTransport.v
Pool.v
Warp.v
Outgoing.v
Pin.v
Register.v
MasqueConn.v
WarpUpstream.v
Setup.v
DnsQueries.v
ClientTunnel.v
Programs.v
Config.v
Testing.v
TestsShaper.v
TestsClient.v
TestsServer.v
TestsActors.v
TestsNet.v
