(* ===== verification/Prelude.v ===== *)
(** * httproxy: a verification library

    httproxy is a tunnelling proxy written in Rust. A client program accepts
    local proxy connections and carries each one over ordinary HTTP requests to
    a server program, which connects to the target. The two programs agree on a
    session by a post-quantum handshake; each connection is a stream of that
    session with keys of its own; its data travels as sealed, padded, numbered
    frames, upwards in the bodies of several concurrent POST requests, downwards
    in one long response body or in several consecutive ones. This library
    models both programs from the bytes of a frame to the life of a stream, and
    proves them correct component by component and end to end.

    ** The parts and how they interact

<<
      local socket                                             target
          |                                                       ^
     UploadLoop --Shaper--> bodies --Decoder--> Handlers --> Upload, Upstream
          ^                                                       |
     Download <-- decode -- bodies <--Segment-- Tunnel <--Shaper--+
>>

    Underneath lie the frame format (Frame) and the frame cipher (Cipher);
    beside them the handshake (Handshake, Crypto), the access tokens (Token), the cookies
    (Cookie, Text) and the registry of opened streams (Registry, Replay). In
    front of the client's loops stand the local proxy (Connection, Proxy), the
    bypass rules (Bypass) and the session states (Session); behind the
    server's actors the outgoing connections (Outgoing), resolved by Dns over
    DnsTransport and optionally carried by WARP (Warp, Masque, H3) with a
    registered device and a pinned key (Register, Pin). The shaper's frames
    live in pooled buffers (Pool). Both programs start from what Setup builds.

    ** The files

    - this file: outcomes, machine integers, bytes, big-endian numbers, list
      lemmas with [Z] indices, hints and tactics shared by all others.
    - [Cipher]: [src/crypto/cipher.rs] and the trait [FrameCipher] of
      [src/shaper/mod.rs]. The classes [Aead]/[AeadLaws] are the AES-GCM
      primitive; [FrameCipher]/[FrameCipherLaws] are what the rest relies on;
      [aes_frame_cipher_laws] shows that the one implements the other.
    - [Frame]: the codec of [src/shaper/mod.rs] ([encode_frame],
      [decode_frame], the JSON and the binary form) over the classes
      [Base122]/[Base122Laws].
    - [Shaper]: the configuration and the [TrafficShaper] of
      [src/shaper/mod.rs]: [resolve], [validate], [resolve_padding],
      [seal_into], [poll_fill_and_seal].
    - [Decoder]: the [FrameDecoder] of [src/server/stream.rs], and the
      predicates [frames_from] and [bodies_from], the wire contract by which all
      senders and receivers are joined.
    - [Errors], [Text], [Cookie], [Token], [Crypto]: [src/error/mod.rs], the
      parts of [str] the code uses, [src/server/utils.rs] and
      [src/client/utils.rs], [src/server/token.rs], [src/crypto/handshake.rs] and
      [src/crypto/keys.rs].
    - [Upstream]: [src/server/upstream.rs], vectored writes to a [Socket]; the
      class [FrameSink] is what it promises to the upload actor.
    - [Upload]: [src/server/actor/upload.rs], one record for the actor, one
      function per handler, [run] for the event loop.
    - [Registry], [Handlers], [Handshake]: [src/server/stream_registry.rs],
      [src/server/janitor.rs], [src/server/handlers.rs] and
      [src/client/handshake.rs]; handlers are functions from the state they
      change to an answer and a new state.
    - [Replay]: the handlers and janitors as a step relation over one server,
      under every interleaving. A set-up is several steps there: registration,
      [take_permit], the dial, the request body, [insert_handle], each of which
      can fail or be cancelled while the permit is held; and so is the end of a
      tunnel ([task_move]).
    - [UploadLoop]: [src/client/actor/upload_loop.rs] and the early data of
      [src/client/utils.rs].
    - [Tunnel]: [src/server/actor/tunnel.rs]: segments, the rotation between
      them, and the actor's loop, as a step relation over the bodies given out.
    - [Download]: [src/client/actor/download_loop.rs].
    - [H3], [Masque]: [src/warp/h3.rs] and the stream halves, the response
      head and [open] of [src/warp/masque.rs]: bytes carried in the DATA
      frames of an HTTP/3 CONNECT stream over the class [QuicSend].
    - [Warp], [Pin], [Register]: [src/warp/mod.rs] (direct targets, endpoint,
      dialling over the cached connection, [init]), the certificate check of
      [src/warp/masque.rs], and the device of [src/warp/register.rs].
    - [Net], [Bypass]: addresses of [std::net], and [src/bypass/mod.rs].
    - [Proxy], [Connection]: [src/client/proxy.rs], and
      [src/client/actor/connection.rs] with [src/client/connection.rs]: from
      the first byte of a local connection to the opening of its tunnel or its
      direct relay.
    - [Session]: [src/client/state.rs] and the exchanges of
      [src/client/handshake.rs], any number of connections as a step relation
      over the shared master key and the handshake lock.
    - [Dns], [DnsTransport]: [src/dns/client.rs] and [src/dns/transport.rs].
    - [Outgoing]: [src/server/connection.rs], how the server reaches a target
      by [Dns] and [Warp].
    - [Setup]: [build_state] of [src/client/mod.rs] and [src/server/mod.rs],
      [src/client/redirect.rs], and the commands of [src/bin/server.rs]: from
      configurations to the states the other components start from.
    - [Pool]: [src/shaper/bufpool.rs].
    - [Service]: one stream at the server: its requests ([setup_tunnel_response]
      from the connection on, [dispatch_to_actor]), the bounded channels, the
      replies and timeouts, the actors of [Upload] and [Tunnel] and the
      teardown, as one executable step function [stream_step]; every [await] at
      which another task can run ends a step. [Lifecycle]: its invariants and
      how it ends.
    - [Refusal]: [dispatch] on any request, and what a refused one leaves.
    - [Exchange]: the four requests a client makes ([hello_post] to
      [continue_post]) and the client's prefetch task, carried by a connection
      that may add header fields and cut bodies ([Wire]) to the server's route.
    - [ClientTunnel]: what a tunnel of the client starts with, and how it ends.
    - [MasqueConn]: the QUIC connection to the WARP endpoint and its TLS, over
      the class [QuicConn]. [WarpUpstream]: the two kinds of upstream of
      [src/server/upstream.rs] as one [FrameSink].
    - [Programs]: how the two programs start, and where they log. [Config]: how
      their files are read ([src/config/mod.rs] and the sections of the other
      modules), structure by structure, and the tables of settings
      ([server_schema], [client_schema]) that say which documents are accepted.
    - [DnsQueries]: the queries in flight with their permits and the shared
      transport of [DnsTransport] (the senders that wait for room, the channel
      of 32 messages, the message the actor serves, the connection), one
      executable step function.
    - [EndToEnd], [Duplex]: the components of the two programs put together,
      one direction at a time and both in one run of a stream.
    - [Testing], [TestsShaper], [TestsClient], [TestsServer], [TestsActors],
      [TestsNet]: the repository's own unit tests, a module for each
      [mod tests], as boolean functions of the model; the examples
      [.._tests_pass] evaluate them all to [true]: evidence that the definitions
      behave like the code.

    A definition has the name of the Rust item it models where that is free
    ([UploadActor_new] is [UploadActor::new], a phase or a constructor has a
    prefix where two enums share it), its fields are the fields of the struct in
    their order, and its branches are the branches of the code in their order. A
    slice index, [expect] or [unwrap] that would panic is the outcome [Panic] of
    [Res]; theorems that state an outcome thereby exclude panics. Unsigned
    arithmetic wraps or saturates as written ([as_u16], [as_u64],
    [saturating_sub]). A struct that a method mutates is passed and returned.

    ** What the theorems show

    - End to end ([EndToEnd]): the target is sent, in order, what the local
      socket delivers, whatever the order, interleaving and multiplicity of the
      requests; the local socket is sent what the target delivers, through
      rotating bodies or one body, in any chunks. [Duplex]: the same for a
      whole run of a stream, with requests cut off anywhere, both actors and all
      timers interleaving; an upload that was told it succeeded has been sent.
    - A stream at the server ([Lifecycle]): a request to continue is answered or
      still held by someone who will answer it; permits, handle and registry
      entry agree with the stage the stream is in; once the tunnel's actor stops, a
      few steps take everything down, and only one permit was ever taken.
    - Refusals ([Refusal]): no request makes a handler panic, and one that is
      refused changes nothing but expired sessions and a used-up stream number.
    - Client against server ([Exchange]): a client with a valid token gets a
      session and, with it, its tunnel, under its own key and with every byte of
      its payload either on the way or left for the upload loop; after a server
      has lost its sessions, one rejected request leads to a new session. An
      upload or a request to continue reaches its own stream. [ClientTunnel]:
      the two loops such a tunnel starts carry what the socket sends and what
      the server answers, and a tunnel that ends well has lost nothing.
    - Codec: frames round-trip through both encodings; a proper prefix of a
      frame is never decoded; decoding arbitrary bytes does not panic; a payload
      over the limit is refused; the in-place cipher equals the two-buffer one.
    - Shaper: every poll returns; the frames that leave carry the input in
      order with consecutive numbers; the padding cursor equals the rule of
      the stage that covers the packet; [resolve] sorts the stages correctly.
    - Decoder: its result does not depend on the chunking; its buffer is bounded.
    - Upload actor: what is written is always a prefix of the stream, all of
      it once every frame arrived; an end-of-stream is acknowledged with success
      only after everything before it was written; the reorder limits hold and
      the accounting of buffered bytes is exact.
    - Upload loop: the posted bodies carry the whole input; requests and bytes
      in flight stay within their limits, and waiting is only for requests that
      are in flight.
    - Tunnel and download: bodies follow each other at the limit, without loss
      or repetition; the client decides to continue exactly when the server
      paused.
    - Handshake: both sides derive the same master key under a session the
      server knows, and the client's session cookie opens a stream.
    - Tokens and cookies: issued tokens open until they expire; the cache never
      changes a verdict, each of the four clock readings of a check being its
      own ([validate_token_at]; elsewhere, [validate_token_if_needed] reads one
      time); the in-place cookie scan equals splitting the header;
      what the client builds is what the server finds.
    - Streams over time ([Replay]): a recorded request never opens a stream a
      second time, as the registry outlives the session key; the active streams
      are those being set up or served, and every permit is free or with a
      request that dials or reads its body or a tunnel that runs or closes.
    - Sessions of the client ([Session]): one handshake runs at a time, and
      every ticket in use came from a completed handshake; the steps left are
      bounded, and with answers whose bodies end every connection finishes; a
      ServerHello that stops blocks its connection and all that need the lock,
      as no timeout covers its body.
    - Local side: a tunnel opens only for an authorised request (what that is
      is said by [carries_password], and what a field of the proxy's is by
      [proxy_field], both apart from the code's own comparisons); a plain
      request is forwarded with its line rewritten and the proxy's own header
      fields gone, and nothing else changed; reading a head does not depend on
      the chunks it came in; a target is bypassed exactly when a configured
      suffix or network covers it.
    - DNS: an answer from the cache was resolved for that key and is not older
      than its lifetime and the time for stale answers, and a stale one is being
      refreshed; answers are accepted only from replies that match
      the question, with clamped lifetimes; the race of connections finds an
      address that accepts, if there is one; a query on a shared connection is
      answered with the reply that carries its identifier.
      The resolver contacts only its upstream, over WARP exactly when the rules
      say so, and under the configured name; every lookup ends, as senders go
      through the channel, timeouts run out and permits return, provided that
      the attempts to connect end; while one does not, a sender before the full
      channel is stuck with its permit ([DnsQueries]).
    - WARP: what is written arrives, through any framing and any reads; the
      head's status is the one the server sent; a tunnel that fails over a cached
      connection is tried once more over a new one. A target goes over WARP
      exactly when the rules do not call it direct; the endpoint is accepted
      exactly when it shows the pinned key, and so for every tunnel over a connection
      that was established ([MasqueConn]); the device is registered once. A
      stream over WARP uploads as over a socket, and its tunnel cannot be told
      from a socket by reading ([WarpUpstream]).
    - Set-up: an accepted configuration meets the assumptions under which
      uploading is shown to work; the server's keys and tokens fit the client
      they were made for.
    - Configuration: a file is accepted exactly when it has the settings of its
      table, and each setting, in nested sections too, gets the value it gives
      under its name or its default ([Config]; the records [.._is] say so
      without the readers).
    - Programs: a client that runs has bound what its configuration names,
      each once, and a server that serves has built its state first.
    - Pool: the free list stays within its limits of number, size and bytes.

    ** Parameters

    Code outside the repository is a parameter with its documented behaviour as
    laws, and an executable toy instance for the witnesses: AES-GCM ([Aead]),
    base-122 ([Base122]), base64 ([Base64]), the time-to-live cache
    ([TtlCache]), UUID texts ([UuidText]), HKDF, X25519 and ML-KEM ([PqCrypto]),
    sockets ([Socket]), QUIC streams and connections ([QuicSend],
    [QuicConn], [QuicLimits]), parsed files ([Documents]), TLS ([TlsLibrary], [CryptoProvider]), the transducer ([FstSet]) and
    the network tables ([NetTable], [IpNetworks]), the parsers of heads and URLs
    ([HttpHead], [UriText]), the DNS format and cache ([DnsWire], [DnsCache]),
    the device key and its files ([DeviceKeys], [WarpJson], [Base64Std]). Random draws, clock readings, timers, poll results and
    the outcomes of requests are arguments: a [PollEnv] for one poll of a shaper,
    a list of events for an event loop, a list of chunks for a body.
    Theorems quantify over all of them.

    ** Fuel

    Loops that are not structural carry fuel that is shown to be enough, so
    that running out, like panicking, is excluded by the theorems:
    the shaper's poll ([poll_returns]) by the reads its script still holds, the
    decoder by the events left, [flush] and [write_vectored_all] by the bytes and chunks
    left (each round takes at least one byte), [fill_loop] by the batch limit (each
    frame has a byte), [flush_runs] by the buffered frames, [download_loop] by
    the rotations the environment offers, [recv_loop] by the reads its script
    holds, [key_loop] and [match_loop] by the length of the name, [get_int_loop]
    and [status_loop] by the bytes of the block.

    ** What is not modelled

    The formatting of the log, command lines, the parsers of TOML and JSON,
    HTTP, TLS and QUIC themselves (axum, wreq, quinn, rustls); the integration
    tests, which start both programs, and the unit tests that need a QUIC
    server or look at addresses of buffers.
    Concurrency is at the granularity of awaits: an actor's handler is one step,
    the requests' handlers interleave as events; the admission of a stream, from
    looking up its session to registering it, counts as one step. Buffers drawn
    from the pool are taken as empty. Of the programs, parsing
    command lines, the settings of the HTTP client and the HTTP router;
    a lookup that is abandoned by its caller. In [Service] a channel is
    the list of what was sent and not yet received, with the capacity of the
    code; the request that opens the stream is number 0; the tunnel's command
    channel never loses its last sender while the actor serves, as the handle
    in the server's table holds one. A semaphore with more
    permits than tokio allows panics in [UploadLoopActor_new] alone; the
    theorems about the upload loop are about [new_upload_loop], the actor whose
    semaphores could be made. *)

From Stdlib Require Export ZArith Lia.
From Stdlib Require Import Strings.String Strings.Byte.
From stdpp Require Export base tactics option list list_numbers numbers strings sets gmap.
Export String.StringSyntax.

#[global] Open Scope Z_scope.

(** ** Outcomes of fallible Rust code *)

(** [Ok]/[Err] are [Result]'s variants; [Panic] is the outcome of a slice
    index, a [copy_from_slice] or an [expect] that fails. *)
Inductive Res (E A : Type) : Type :=
| Ok (a : A)
| Err (e : E)
| Panic.
Arguments Ok {E A} a.
Arguments Err {E A} e.
Arguments Panic {E A}.

(** [std::io::ErrorKind], the kinds the sources construct or test. *)
Inductive ErrorKind : Type :=
| InvalidData | InvalidInput | WriteZero | TimedOut | BrokenPipe
| ConnectionReset | ConnectionAborted | Interrupted | WouldBlock
| UnexpectedEof | NotConnected | NotFound | Other.

#[export] Instance ErrorKind_eq_dec : EqDecision ErrorKind.
Proof. solve_decision. Defined.

(** [std::io::Error]: a kind and a message. *)
Record IoError : Type := mkIoError { kind : ErrorKind; msg : string }.

Definition res_bind {E A B} (r : Res E A) (k : A -> Res E B) : Res E B :=
  match r with
  | Ok a => k a
  | Err e => Err e
  | Panic => Panic
  end.

(** [Result::map_err]. *)
Definition map_err {E F A} (f : E -> F) (r : Res E A) : Res F A :=
  match r with
  | Ok a => Ok a
  | Err e => Err (f e)
  | Panic => Panic
  end.

(** [Option::ok_or]. *)
Definition ok_or {E A} (o : option A) (e : E) : Res E A :=
  match o with
  | Some a => Ok a
  | None => Err e
  end.

Definition is_ok {E A} (r : Res E A) : bool :=
  match r with Ok _ => true | _ => false end.

Declare Scope rust_scope.
Delimit Scope rust_scope with rust.
(** [let? p := r in k] is the [?] operator. *)
Notation "'let?' p := r 'in' k" := (res_bind r (fun p => k))
  (at level 10, p pattern, r at level 100, k at level 200)
  : rust_scope.
#[global] Open Scope rust_scope.

Lemma res_bind_Ok {E A B} (r : Res E A) (k : A -> Res E B) b :
  res_bind r k = Ok b -> exists a, r = Ok a /\ k a = Ok b.
Proof. destruct r; simpl; intros; simplify_eq; eauto. Qed.

Lemma ok_or_Ok {E A} (o : option A) (e : E) a : ok_or o e = Ok a <-> o = Some a.
Proof. destruct o; simpl; split; intros; simplify_eq; done. Qed.

(** ** Machine integers *)

Definition u8_max : Z := 2 ^ 8.
Definition u16_max : Z := 2 ^ 16.
Definition u32_max : Z := 2 ^ 32.
Definition u64_max : Z := 2 ^ 64.

(** [x as u16] and friends; release arithmetic wraps the same way. *)
Definition as_u8 (x : Z) : Z := x mod u8_max.
Definition as_u16 (x : Z) : Z := x mod u16_max.
Definition as_u32 (x : Z) : Z := x mod u32_max.
Definition as_u64 (x : Z) : Z := x mod u64_max.

Definition saturating_sub (a b : Z) : Z := Z.max 0 (a - b).
Definition saturating_add64 (a b : Z) : Z := Z.min (u64_max - 1) (a + b).

(** [usize::checked_add] and [u64::checked_add]. *)
Definition checked_add64 (a b : Z) : option Z := if a + b <? u64_max then Some (a + b) else None.

Lemma checked_add64_eq a b c : checked_add64 a b = Some c -> c = a + b.
Proof. unfold checked_add64. destruct (a + b <? u64_max); [|done]. by intros [= <-]. Qed.

Lemma as_u16_small x : 0 <= x < u16_max -> as_u16 x = x.
Proof. apply Z.mod_small. Qed.
Lemma as_u64_small x : 0 <= x < u64_max -> as_u64 x = x.
Proof. apply Z.mod_small. Qed.

(** Bits of a sum without carry. *)
Lemma land_disjoint p a v : 0 <= p -> a mod 2 ^ p = 0 -> 0 <= v < 2 ^ p -> Z.land a v = 0.
Proof.
  intros Hp Ha Hv. rewrite <- (Z.mod_small v (2 ^ p)) by done. rewrite <- Z.land_ones by done.
  rewrite (Z.land_comm v), Z.land_assoc, Z.land_ones, Ha by done. apply Z.land_0_l.
Qed.

Lemma lor_add p a v : 0 <= p -> a mod 2 ^ p = 0 -> 0 <= v < 2 ^ p -> Z.lor a v = a + v.
Proof. intros. symmetry. by apply Z.add_nocarry_lor, (land_disjoint p). Qed.

Lemma land_low p a v : 0 <= p -> a mod 2 ^ p = 0 -> 0 <= v < 2 ^ p -> Z.land (a + v) (2 ^ p - 1) = v.
Proof.
  intros Hp Ha Hv. rewrite Z.sub_1_r, <- Z.ones_equiv.
  rewrite Z.land_ones, <- Z.add_mod_idemp_l, Ha by (try apply Z.pow_nonzero; lia). by apply Z.mod_small.
Qed.

(** ** Bytes *)

Abbreviation byte := Byte.byte.
Abbreviation bytes := (list Byte.byte).

#[export] Instance byte_eq_dec : EqDecision byte := Byte.byte_eq_dec.

(** The value of a byte, and the byte of an integer taken modulo 256. *)
Definition bz (b : byte) : Z := Z.of_N (Byte.to_N b).
Definition zb (z : Z) : byte :=
  match Byte.of_N (Z.to_N (z mod 256)) with
  | Some b => b
  | None => Byte.x00
  end.

Lemma bz_range b : 0 <= bz b < 256.
Proof. unfold bz. pose proof (Byte.to_N_bounded b). lia. Qed.

Lemma zb_bz b : zb (bz b) = b.
Proof.
  unfold zb. rewrite Z.mod_small by apply bz_range.
  unfold bz. rewrite N2Z.id, Byte.of_to_N. done.
Qed.

Lemma bz_zb z : bz (zb z) = z mod 256.
Proof.
  unfold zb, bz. pose proof (Z.mod_pos_bound z 256 ltac:(lia)).
  destruct (Byte.of_N (Z.to_N (z mod 256))) as [b|] eqn:E.
  - apply Byte.to_of_N in E. rewrite E. lia.
  - apply Byte.of_N_None_iff in E. lia.
Qed.

Lemma bz_inj a b : bz a = bz b -> a = b.
Proof. intros H. rewrite <- (zb_bz a), <- (zb_bz b). by rewrite H. Qed.

#[export] Instance byte_countable : Countable Byte.byte := inj_countable' bz zb zb_bz.

(** A Rust byte-string literal. *)
Definition str (s : string) : bytes := String.list_byte_of_string s.
Arguments str s%_string.

(** ** Slices with integer indices *)

Section slices.
Context {A : Type}.
Implicit Types l : list A.

Definition zlen l : Z := Z.of_nat (length l).
Definition ztake (n : Z) l : list A := take (Z.to_nat n) l.
Definition zdrop (n : Z) l : list A := drop (Z.to_nat n) l.
(** [&l[a..b]] for indices in range. *)
Definition slice (a b : Z) l : list A := ztake (b - a) (zdrop a l).
(** [l[i]] for an index in range. *)
Definition znth (l : list A) (i : Z) : option A :=
  if decide (0 <= i) then l !! Z.to_nat i else None.
Definition zrep (n : Z) (x : A) : list A := replicate (Z.to_nat n) x.

Lemma zlen_nonneg l : 0 <= zlen l.
Proof. unfold zlen. lia. Qed.
Lemma zlen_nil : zlen (@nil A) = 0.
Proof. done. Qed.
Lemma zlen_cons x l : zlen (x :: l) = 1 + zlen l.
Proof. unfold zlen. simpl. lia. Qed.
Lemma zlen_app l k : zlen (l ++ k) = zlen l + zlen k.
Proof. unfold zlen. rewrite length_app. lia. Qed.
Lemma zlen_ztake n l : zlen (ztake n l) = Z.min (Z.max 0 n) (zlen l).
Proof. unfold zlen, ztake. rewrite length_take. lia. Qed.
Lemma zlen_zdrop n l : zlen (zdrop n l) = Z.max 0 (zlen l - Z.max 0 n).
Proof. unfold zlen, zdrop. rewrite length_drop. lia. Qed.
Lemma zlen_slice a b l :
  0 <= a -> a <= b -> b <= zlen l -> zlen (slice a b l) = b - a.
Proof. intros. unfold slice. rewrite zlen_ztake, zlen_zdrop. lia. Qed.
Lemma zlen_zrep n x : zlen (zrep n x) = Z.max 0 n.
Proof. unfold zlen, zrep. rewrite length_replicate. lia. Qed.
Lemma zlen_0_nil l : zlen l = 0 -> l = [].
Proof. unfold zlen. intros. apply nil_length_inv. lia. Qed.

Lemma ztake_app_exact n l k : n = zlen l -> ztake n (l ++ k) = l.
Proof. intros ->. unfold ztake, zlen. rewrite Nat2Z.id. by rewrite take_app_length. Qed.
Lemma zdrop_app_exact n l k : n = zlen l -> zdrop n (l ++ k) = k.
Proof. intros ->. unfold zdrop, zlen. rewrite Nat2Z.id. by rewrite drop_app_length. Qed.
Lemma ztake_all n l : zlen l <= n -> ztake n l = l.
Proof. unfold ztake, zlen. intros. apply take_ge. lia. Qed.
Lemma zdrop_all n l : zlen l <= n -> zdrop n l = [].
Proof. unfold zdrop, zlen. intros. apply drop_ge. lia. Qed.
Lemma ztake_zdrop n l : ztake n l ++ zdrop n l = l.
Proof. apply take_drop. Qed.
Lemma zdrop_0 l : zdrop 0 l = l.
Proof. done. Qed.
Lemma ztake_0 l : ztake 0 l = [].
Proof. done. Qed.
Lemma zdrop_zdrop a b l : 0 <= a -> 0 <= b -> zdrop a (zdrop b l) = zdrop (b + a) l.
Proof. intros. unfold zdrop. rewrite drop_drop. f_equal. lia. Qed.
Lemma ztake_app_le n l k : n <= zlen l -> ztake n (l ++ k) = ztake n l.
Proof. unfold ztake, zlen. intros. apply take_app_le. lia. Qed.
Lemma zdrop_app_le n l k : n <= zlen l -> zdrop n (l ++ k) = zdrop n l ++ k.
Proof. unfold zdrop, zlen. intros. apply drop_app_le. lia. Qed.
Lemma ztake_app_ge n l k :
  zlen l <= n -> ztake n (l ++ k) = l ++ ztake (n - zlen l) k.
Proof.
  unfold ztake, zlen. intros. rewrite take_app_ge by lia. do 2 f_equal. lia.
Qed.
Lemma zdrop_app_ge n l k :
  zlen l <= n -> zdrop n (l ++ k) = zdrop (n - zlen l) k.
Proof. unfold zdrop, zlen. intros. rewrite drop_app_ge by lia. f_equal. lia. Qed.
(** The middle of a three-part list, the shape of every parsed frame. *)
Lemma slice_middle a b l m k :
  a = zlen l -> b = zlen l + zlen m -> slice a b (l ++ m ++ k) = m.
Proof.
  intros -> ->. unfold slice. rewrite zdrop_app_exact by done.
  apply ztake_app_exact. lia.
Qed.
Lemma slice_last a b l m : a = zlen l -> b = zlen l + zlen m -> slice a b (l ++ m) = m.
Proof. intros. rewrite <- (app_nil_r m) at 1. by apply slice_middle. Qed.
Lemma ztake_neg n l : n <= 0 -> ztake n l = [].
Proof. intros. unfold ztake. by replace (Z.to_nat n) with O by lia. Qed.
Lemma zdrop_ztake a b l : 0 <= a -> zdrop a (ztake b l) = ztake (b - a) (zdrop a l).
Proof. intros. unfold zdrop, ztake. rewrite skipn_firstn_comm. f_equal. lia. Qed.
Lemma ztake_more a n l : 0 <= a -> 0 <= n -> ztake a l ++ ztake n (zdrop a l) = ztake (a + n) l.
Proof.
  intros. unfold ztake, zdrop. rewrite Z2Nat.inj_add by done. revert l.
  induction (Z.to_nat a) as [|k IH]; intros [|x l]; cbn; try done; [by rewrite take_nil|]. by rewrite IH.
Qed.
Lemma ztake_ztake a b l : a <= b -> ztake a (ztake b l) = ztake a l.
Proof. intros. unfold ztake. rewrite take_take. f_equal. lia. Qed.
End slices.

Create Rewrite HintDb zlen.
#[export] Hint Rewrite @zlen_nil @zlen_cons @zlen_app @zlen_ztake @zlen_zdrop
  @zlen_zrep : zlen.

(** Length arithmetic on slices: push [zlen] inwards, then [lia]. *)
Ltac zl :=
  autorewrite with zlen in *;
  repeat match goal with
  | |- context [zlen ?l] => lazymatch goal with
      | H : 0 <= zlen l |- _ => fail | _ => pose proof (zlen_nonneg l) end
  | _ : context [zlen ?l] |- _ => lazymatch goal with
      | H : 0 <= zlen l |- _ => fail | _ => pose proof (zlen_nonneg l) end
  end; lia.

(** [buf.get(a..b)]. *)
Definition get_slice (a b : Z) (buf : bytes) : option bytes :=
  if (a <=? b) && (b <=? zlen buf) then Some (slice a b buf) else None.

Lemma get_slice_Some a b buf s : get_slice a b buf = Some s -> a <= b <= zlen buf.
Proof. unfold get_slice. destruct (Z.leb_spec a b), (Z.leb_spec b (zlen buf)); cbn; by intros. Qed.

Lemma get_slice_middle a b l m k block :
  block = l ++ m ++ k -> a = zlen l -> b = zlen l + zlen m -> get_slice a b block = Some m.
Proof.
  intros -> -> ->. unfold get_slice. pose proof (zlen_nonneg m). pose proof (zlen_nonneg k).
  destruct (Z.leb_spec (zlen l) (zlen l + zlen m)); [|lia].
  destruct (Z.leb_spec (zlen l + zlen m) (zlen (l ++ m ++ k))); [|rewrite !zlen_app in *; lia]. cbn. f_equal.
  by apply slice_middle.
Qed.

(** Case analysis on the head [if]/[match] of a hypothesis or the goal. *)
Ltac case_hyp H :=
  match type of H with
  | context [match ?x with _ => _ end] => let E := fresh "E" in destruct x eqn:E
  end.

(** Open every existential and conjunction in the context. *)
Ltac deex :=
  repeat match goal with
  | H : exists _, _ |- _ => destruct H
  | H : _ /\ _ |- _ => destruct H
  end.

(** Proof search lemmas of the whole development. *)
Create HintDb httproxy.
#[export] Hint Resolve zlen_nonneg bz_range : httproxy.

(** ** Vectors *)

(** [Vec::swap_remove]: the last element takes the place of the removed one. *)
Definition swap_remove {A} (i : nat) (l : list A) : list A :=
  match last l with
  | Some x => take (length l - 1) (<[i := x]> l)
  | None => l
  end.

Lemma swap_remove_perm {A} i (l : list A) x : l !! i = Some x -> x :: swap_remove i l ≡ₚ l.
Proof.
  intros Hi. unfold swap_remove. destruct (last l) as [y|] eqn:Hy.
  2:{ apply last_None in Hy. by subst. }
  apply last_Some in Hy as [k ->]. rewrite length_app. cbn [length].
  replace (length k + 1 - 1)%nat with (length k) by lia.
  destruct (decide (i < length k)%nat) as [Hlt|Hge].
  - rewrite insert_app_l, take_app_length' by (try rewrite length_insert; done).
    rewrite lookup_app_l in Hi by done.
    rewrite insert_take_drop by done. rewrite <- (take_drop_middle k i x Hi) at 3.
    rewrite <- app_assoc. cbn. solve_Permutation.
  - apply lookup_lt_Some in Hi as Hlt. rewrite length_app in Hlt. cbn in Hlt.
    replace i with (length k) in * by lia. rewrite list_lookup_middle in Hi by done. simplify_eq.
    rewrite insert_app_r_alt, Nat.sub_diag, take_app_length by done. solve_Permutation.
Qed.

(** ** Big-endian integers *)

(** [n] bytes of [z], most significant first: [uN::to_be_bytes]. *)
Fixpoint be_bytes (n : nat) (z : Z) : bytes :=
  match n with
  | O => []
  | S m => zb (z / 256 ^ Z.of_nat m) :: be_bytes m z
  end.

(** [uN::from_be_bytes]. *)
Definition be_val (l : bytes) : Z := foldl (fun acc b => acc * 256 + bz b) 0 l.

Lemma be_bytes_length n z : length (be_bytes n z) = n.
Proof. induction n; simpl; auto. Qed.

Lemma zlen_be_bytes n z : zlen (be_bytes n z) = Z.of_nat n.
Proof. unfold zlen. by rewrite be_bytes_length. Qed.
#[export] Hint Rewrite zlen_be_bytes : zlen.

Lemma be_val_acc l a :
  foldl (fun acc b => acc * 256 + bz b) a l = a * 256 ^ zlen l + be_val l.
Proof.
  revert a. induction l as [|b l IH]; intros a.
  - unfold be_val. simpl. rewrite zlen_nil. lia.
  - unfold be_val. cbn [foldl]. rewrite IH, (IH (0 * 256 + bz b)), zlen_cons.
    rewrite Z.pow_add_r by zl. lia.
Qed.

Lemma be_val_cons b l : be_val (b :: l) = bz b * 256 ^ zlen l + be_val l.
Proof.
  change (be_val (b :: l)) with (foldl (fun acc b => acc * 256 + bz b) (0 * 256 + bz b) l).
  rewrite be_val_acc. lia.
Qed.

Lemma be_val_range l : 0 <= be_val l < 256 ^ zlen l.
Proof.
  induction l as [|b l IH].
  - by vm_compute.
  - rewrite be_val_cons, zlen_cons, Z.pow_add_r by zl.
    pose proof (bz_range b). nia.
Qed.

Lemma be_val_be_bytes n z : be_val (be_bytes n z) = z mod 256 ^ Z.of_nat n.
Proof.
  induction n as [|n IH].
  - change (be_val []) with 0. by rewrite Z.mod_1_r.
  - cbn [be_bytes]. rewrite be_val_cons, IH, zlen_be_bytes, bz_zb.
    rewrite Nat2Z.inj_succ, Z.pow_succ_r by lia.
    rewrite (Z.mul_comm 256), Z.rem_mul_r by lia. lia.
Qed.

Lemma be_val_round n z : 0 <= z < 256 ^ Z.of_nat n -> be_val (be_bytes n z) = z.
Proof. intros. rewrite be_val_be_bytes. by apply Z.mod_small. Qed.

Lemma zb_add_256 z k : zb (z + k * 256) = zb z.
Proof. unfold zb. by rewrite Z_mod_plus_full. Qed.

Lemma be_bytes_add n z k : be_bytes n (z + k * 256 ^ Z.of_nat n) = be_bytes n z.
Proof.
  revert k. induction n as [|n IH]; intros k; [done|]. cbn [be_bytes].
  rewrite Nat2Z.inj_succ, Z.pow_succ_r by lia.
  replace (k * (256 * 256 ^ Z.of_nat n)) with (k * 256 * 256 ^ Z.of_nat n) by lia.
  rewrite IH, Z.div_add, zb_add_256 by lia. done.
Qed.

Lemma be_bytes_mod n z : be_bytes n (z mod 256 ^ Z.of_nat n) = be_bytes n z.
Proof.
  rewrite <- (be_bytes_add n (z mod _) (z / 256 ^ Z.of_nat n)). f_equal.
  pose proof (Z.div_mod z (256 ^ Z.of_nat n)). lia.
Qed.

Lemma be_bytes_be_val l : be_bytes (length l) (be_val l) = l.
Proof.
  induction l as [|b l IH]; [done|]. cbn [length be_bytes]. rewrite be_val_cons.
  pose proof (be_val_range l) as Hr. unfold zlen in *.
  rewrite Z.div_add_l, Z.div_small, Z.add_0_r, zb_bz by lia.
  rewrite Z.add_comm, be_bytes_add, IH. done.
Qed.
