(* ===== verification/Cipher.v ===== *)
(** * The frame cipher

    [FrameCipher] is the trait of [src/shaper/mod.rs], its laws are what the
    frame codec relies on, and [AesFrameCipher] is the implementation of
    [src/crypto/cipher.rs] over an AES-256-GCM primitive, which is a parameter
    (the class [Aead], with its documented behaviour in [AeadLaws]). A random
    draw of the code ([random_nonce]) is an argument of the operation. *)

From S2P Require Import Prelude.

Definition NONCE_LEN : Z := 12.
Definition TAG_LEN : Z := 16.

(** ** The AEAD primitive of [aws_lc_rs] *)

Class Aead := {
  LessSafeKey : Type;
  (** [LessSafeKey::new(UnboundKey::new(&AES_256_GCM, key)?)] *)
  unbound_key : bytes -> option LessSafeKey;
  try_assume_unique_for_key : bytes -> option bytes;
  (** key, nonce, plaintext: ciphertext and tag *)
  seal_in_place_separate_tag : LessSafeKey -> bytes -> bytes -> option (bytes * bytes);
  (** key, nonce, buffer: the buffer afterwards and the plaintext length *)
  open_in_place : LessSafeKey -> bytes -> bytes -> option (bytes * Z)
}.

(** The largest plaintext the laws speak of (GCM allows more). *)
Definition seal_limit : Z := 2 ^ 31.

Class AeadLaws (P : Aead) := {
  unbound_key_32 : forall k, zlen k = 32 -> is_Some (unbound_key k);
  nonce_12 : forall n, zlen n = NONCE_LEN -> try_assume_unique_for_key n = Some n;
  seal_total : forall k n pt, zlen n = NONCE_LEN -> zlen pt <= seal_limit ->
    exists ct tag, seal_in_place_separate_tag k n pt = Some (ct, tag);
  seal_len : forall k n pt ct tag,
    seal_in_place_separate_tag k n pt = Some (ct, tag) ->
    zlen ct = zlen pt /\ zlen tag = TAG_LEN;
  open_seal : forall k n pt ct tag,
    seal_in_place_separate_tag k n pt = Some (ct, tag) ->
    exists rest, open_in_place k n (ct ++ tag) = Some (pt ++ rest, zlen pt);
  open_len : forall k n buf buf' m,
    open_in_place k n buf = Some (buf', m) ->
    zlen buf' = zlen buf /\ 0 <= m /\ m + TAG_LEN = zlen buf
}.

(** ** The trait *)

Class FrameCipher := {
  encrypt : bytes -> bytes -> Res IoError bytes;
  decrypt : bytes -> Res IoError bytes;
  encrypt_into : bytes -> bytes -> bytes -> Res IoError bytes;
  decrypt_into : bytes -> bytes -> Res IoError bytes;
  decrypt_in_place : bytes -> Res IoError (bytes * (Z * Z));
  seal_in_place : bytes -> bytes -> Z -> Z -> Res IoError bytes
}.

(** The trait's provided methods, from [encrypt] and [decrypt]. *)
Section provided.
Context (encrypt : bytes -> bytes -> Res IoError bytes)
        (decrypt : bytes -> Res IoError bytes).

Definition default_encrypt_into (ent data out : bytes) : Res IoError bytes :=
  let? encrypted := encrypt ent data in
  Ok (out ++ encrypted).

Definition default_decrypt_into (data out : bytes) : Res IoError bytes :=
  let? decrypted := decrypt data in
  Ok (out ++ decrypted).

Definition default_decrypt_in_place (buf : bytes) : Res IoError (bytes * (Z * Z)) :=
  let? decrypted := decrypt buf in
  let len := zlen decrypted in
  if zlen buf <? len then Err (mkIoError InvalidData "decrypted frame too large")
  else Ok (decrypted ++ zdrop len buf, (0, len)).

Definition default_seal_in_place (ent out : bytes) (nonce_start ct_start : Z)
    : Res IoError bytes :=
  if zlen out <? ct_start then Panic
  else
    let plain := zdrop ct_start out in
    let out := ztake nonce_start (ztake ct_start out) in
    let? encrypted := encrypt ent plain in
    Ok (out ++ encrypted).
End provided.

(** ** What the codec relies on *)

(** [decrypt_in_place] accepts [ct] and yields [pt]. *)
Definition opens {C : FrameCipher} (ct pt : bytes) : Prop :=
  exists buf s e, decrypt_in_place ct = Ok (buf, (s, e)) /\
    0 <= s /\ s <= e /\ e <= zlen buf /\ slice s e buf = pt.

Definition sealed_len (n : Z) : Z := NONCE_LEN + n + TAG_LEN.

Class FrameCipherLaws (C : FrameCipher) := {
  seal_in_place_ok : forall ent pre gap pt,
    zlen ent = NONCE_LEN -> zlen gap = NONCE_LEN -> zlen pt <= seal_limit ->
    exists ct, seal_in_place ent (pre ++ gap ++ pt) (zlen pre) (zlen pre + NONCE_LEN)
                 = Ok (pre ++ ct) /\
      zlen ct = sealed_len (zlen pt) /\ opens ct pt;
  encrypt_into_ok : forall ent data out,
    zlen ent = NONCE_LEN -> zlen data <= seal_limit ->
    exists ct, encrypt_into ent data out = Ok (out ++ ct) /\
      zlen ct = sealed_len (zlen data) /\ opens ct data;
  decrypt_in_place_wf : forall ct,
    match decrypt_in_place ct with
    | Ok (buf, (s, e)) => 0 <= s /\ s <= e /\ e <= zlen buf /\ zlen buf = zlen ct
    | Err _ => True
    | Panic => False
    end
}.

(** ** AES-256-GCM *)

Section aes.
Context `{P : Aead}.

Definition make_key (key_z : bytes) : Res string LessSafeKey :=
  ok_or (unbound_key key_z) "invalid key length".

Definition encrypt_with_cipher (cipher : LessSafeKey) (nonce_bytes plaintext : bytes)
    : Res string bytes :=
  let out := nonce_bytes ++ plaintext in
  let? (ct, tag) :=
    ok_or (seal_in_place_separate_tag cipher nonce_bytes (zdrop NONCE_LEN out))
          "encryption error" in
  Ok (ztake NONCE_LEN out ++ ct ++ tag).

Definition decrypt_with_cipher (cipher : LessSafeKey) (data : bytes) : Res string bytes :=
  if zlen data <? NONCE_LEN + TAG_LEN then Err "ciphertext too short"
  else
    let? nonce := ok_or (try_assume_unique_for_key (ztake NONCE_LEN data))
                        "invalid nonce length" in
    let plaintext := zdrop NONCE_LEN data in
    let? (plaintext, pt_len) :=
      ok_or (open_in_place cipher nonce plaintext) "decryption error" in
    Ok (ztake pt_len plaintext).

Definition encrypt_bytes (nonce key_z data : bytes) : Res string bytes :=
  let? cipher := make_key key_z in
  encrypt_with_cipher cipher nonce data.

Definition decrypt_bytes (key_z data : bytes) : Res string bytes :=
  let? cipher := make_key key_z in
  decrypt_with_cipher cipher data.

Record AesFrameCipher : Type := mkAes { aes_key : bytes; aes_cipher : LessSafeKey }.

Definition AesFrameCipher_new (key_z : bytes) : Res string AesFrameCipher :=
  match make_key key_z with
  | Ok cipher => Ok {| aes_key := key_z; aes_cipher := cipher |}
  | _ => Panic
  end.

Definition AesFrameCipher_clone (c : AesFrameCipher) : Res string AesFrameCipher :=
  AesFrameCipher_new (aes_key c).

(** [io::Error::other] of an [anyhow] message. *)
Definition other_error (m : string) : IoError := mkIoError Other m.

Definition aes_encrypt (c : AesFrameCipher) (ent data : bytes) : Res IoError bytes :=
  map_err other_error (encrypt_with_cipher (aes_cipher c) ent data).

Definition aes_decrypt (c : AesFrameCipher) (data : bytes) : Res IoError bytes :=
  map_err other_error (decrypt_with_cipher (aes_cipher c) data).

Definition aes_encrypt_into (c : AesFrameCipher) (nonce_bytes data out : bytes)
    : Res IoError bytes :=
  let out := out ++ nonce_bytes in
  let ct_start := zlen out in
  let out := out ++ data in
  let? (ct, tag) :=
    ok_or (seal_in_place_separate_tag (aes_cipher c) nonce_bytes (zdrop ct_start out))
          (other_error "encryption error") in
  Ok (ztake ct_start out ++ ct ++ tag).

Definition aes_decrypt_into (c : AesFrameCipher) (data out : bytes) : Res IoError bytes :=
  if zlen data <? NONCE_LEN + TAG_LEN
  then Err (mkIoError InvalidData "ciphertext too short")
  else
    let? nonce := ok_or (try_assume_unique_for_key (ztake NONCE_LEN data))
                        (mkIoError InvalidData "invalid nonce length") in
    let pt_start := zlen out in
    let out := out ++ zdrop NONCE_LEN data in
    let? (opened, pt_len) :=
      ok_or (open_in_place (aes_cipher c) nonce (zdrop pt_start out))
            (mkIoError InvalidData "decryption error") in
    Ok (ztake (pt_start + pt_len) (ztake pt_start out ++ opened)).

Definition aes_decrypt_in_place (c : AesFrameCipher) (buf : bytes)
    : Res IoError (bytes * (Z * Z)) :=
  if zlen buf <? NONCE_LEN + TAG_LEN
  then Err (mkIoError InvalidData "ciphertext too short")
  else
    let? nonce := ok_or (try_assume_unique_for_key (ztake NONCE_LEN buf))
                        (mkIoError InvalidData "invalid nonce length") in
    let? (opened, pt_len) :=
      ok_or (open_in_place (aes_cipher c) nonce (zdrop NONCE_LEN buf))
            (mkIoError InvalidData "decryption error") in
    Ok (ztake NONCE_LEN buf ++ opened, (NONCE_LEN, NONCE_LEN + pt_len)).

(** [copy_from_slice] panics when the two slices differ in length, the slice
    expressions when an index is out of range. *)
Definition aes_seal_in_place (c : AesFrameCipher) (nonce_bytes out : bytes)
    (nonce_start ct_start : Z) : Res IoError bytes :=
  if (zlen out <? ct_start) || (ct_start <? nonce_start)
     || negb (ct_start - nonce_start =? zlen nonce_bytes)
  then Panic
  else
    let out := ztake nonce_start out ++ nonce_bytes ++ zdrop ct_start out in
    let? (ct, tag) :=
      ok_or (seal_in_place_separate_tag (aes_cipher c) nonce_bytes (zdrop ct_start out))
            (other_error "encryption error") in
    Ok (ztake ct_start out ++ ct ++ tag).

Definition aes_frame_cipher (c : AesFrameCipher) : FrameCipher := {|
  encrypt := aes_encrypt c;
  decrypt := aes_decrypt c;
  encrypt_into := aes_encrypt_into c;
  decrypt_into := aes_decrypt_into c;
  decrypt_in_place := aes_decrypt_in_place c;
  seal_in_place := aes_seal_in_place c
|}.

(** A cipher with only the two required methods. *)
Definition boxed_cipher (c : AesFrameCipher) : FrameCipher := {|
  encrypt := aes_encrypt c;
  decrypt := aes_decrypt c;
  encrypt_into := default_encrypt_into (aes_encrypt c);
  decrypt_into := default_decrypt_into (aes_decrypt c);
  decrypt_in_place := default_decrypt_in_place (aes_decrypt c);
  seal_in_place := default_seal_in_place (aes_encrypt c)
|}.
End aes.

(** ** Theorems *)

Section aes_laws.
Context `{P : Aead} {L : AeadLaws P}.
Implicit Types c : AesFrameCipher.

Lemma aes_decrypt_in_place_sealed c n pt ct tag :
  zlen n = NONCE_LEN ->
  seal_in_place_separate_tag (aes_cipher c) n pt = Some (ct, tag) ->
  exists rest, aes_decrypt_in_place c (n ++ ct ++ tag)
                 = Ok (n ++ pt ++ rest, (NONCE_LEN, NONCE_LEN + zlen pt)).
Proof.
  intros Hn Hseal. destruct (seal_len _ _ _ _ _ Hseal) as [Hct Htag].
  destruct (open_seal _ _ _ _ _ Hseal) as [rest Hopen]. exists rest.
  unfold aes_decrypt_in_place. destruct (Z.ltb_spec (zlen (n ++ ct ++ tag)) (NONCE_LEN + TAG_LEN)).
  { zl. }
  rewrite ztake_app_exact, zdrop_app_exact, nonce_12 by done. cbn [ok_or res_bind].
  by rewrite Hopen.
Qed.

Lemma aes_sealed_opens c n pt ct tag :
  zlen n = NONCE_LEN ->
  seal_in_place_separate_tag (aes_cipher c) n pt = Some (ct, tag) ->
  opens (C := aes_frame_cipher c) (n ++ ct ++ tag) pt.
Proof.
  intros Hn Hseal. destruct (aes_decrypt_in_place_sealed c n pt ct tag Hn Hseal) as [rest H].
  exists (n ++ pt ++ rest), NONCE_LEN, (NONCE_LEN + zlen pt). split; [done|].
  pose proof (zlen_nonneg pt). unfold NONCE_LEN in *.
  repeat split; try zl. apply slice_middle; lia.
Qed.

Lemma aes_decrypt_in_place_ok c buf r :
  aes_decrypt_in_place c buf = Ok r ->
  exists opened m, open_in_place (aes_cipher c) (ztake NONCE_LEN buf) (zdrop NONCE_LEN buf)
      = Some (opened, m) /\
    r = (ztake NONCE_LEN buf ++ opened, (NONCE_LEN, NONCE_LEN + m)) /\
    NONCE_LEN + TAG_LEN <= zlen buf.
Proof.
  unfold aes_decrypt_in_place. destruct (Z.ltb_spec (zlen buf) (NONCE_LEN + TAG_LEN)); [done|].
  rewrite nonce_12 by (unfold NONCE_LEN, TAG_LEN in *; zl). cbn [ok_or res_bind].
  destruct (open_in_place _ _ _) as [[opened m]|] eqn:E; cbn; [|done].
  intros [= <-]. eauto.
Qed.

#[export] Instance aes_frame_cipher_laws c : FrameCipherLaws (aes_frame_cipher c).
Proof.
  split.
  - intros ent pre gap pt Hent Hgap Hpt.
    destruct (seal_total (aes_cipher c) ent pt Hent Hpt) as (ct & tag & Hseal).
    destruct (seal_len _ _ _ _ _ Hseal) as [Hct Htag].
    exists (ent ++ ct ++ tag). cbn. unfold aes_seal_in_place.
    replace (_ || _) with false.
    2:{ symmetry. rewrite !orb_false_iff, negb_false_iff. autorewrite with zlen.
        pose proof (zlen_nonneg pt). unfold NONCE_LEN in *. lia. }
    rewrite ztake_app_exact by done.
    rewrite (app_assoc pre gap pt), (zdrop_app_exact _ (pre ++ gap)) by zl.
    rewrite (app_assoc pre ent pt), (zdrop_app_exact _ (pre ++ ent)) by zl.
    rewrite (ztake_app_exact _ (pre ++ ent)) by zl.
    rewrite Hseal. cbn. rewrite <- app_assoc. split; [done|]. split.
    + unfold sealed_len. zl.
    + by apply aes_sealed_opens.
  - intros ent data out Hent Hdata.
    destruct (seal_total (aes_cipher c) ent data Hent Hdata) as (ct & tag & Hseal).
    destruct (seal_len _ _ _ _ _ Hseal) as [Hct Htag].
    exists (ent ++ ct ++ tag). cbn. unfold aes_encrypt_into.
    rewrite zdrop_app_exact, ztake_app_exact by done. rewrite Hseal. cbn.
    rewrite <- app_assoc. split; [done|]. split.
    + unfold sealed_len. zl.
    + by apply aes_sealed_opens.
  - intros buf. cbn.
    destruct (aes_decrypt_in_place c buf) as [[b [s e]]|err|] eqn:E; [|done|].
    + destruct (aes_decrypt_in_place_ok c buf _ E) as (opened & m & Ho & Hr & Hl).
      apply open_len in Ho. simplify_eq. unfold NONCE_LEN, TAG_LEN in *. zl.
    + unfold aes_decrypt_in_place in E. repeat case_hyp E; try done.
      cbn in E. rewrite nonce_12 in E by (unfold NONCE_LEN, TAG_LEN in *; zl).
      cbn in E. destruct (open_in_place _ _ _) as [[? ?]|]; done.
Qed.

(** The AES methods agree with the trait's provided ones. *)
Lemma aes_encrypt_into_default c ent data out :
  zlen ent = NONCE_LEN ->
  aes_encrypt_into c ent data out = default_encrypt_into (aes_encrypt c) ent data out.
Proof.
  intros Hent. unfold aes_encrypt_into, default_encrypt_into, aes_encrypt, encrypt_with_cipher.
  rewrite !zdrop_app_exact, !ztake_app_exact by done.
  destruct (seal_in_place_separate_tag _ _ _) as [[ct tag]|]; cbn; [|done].
  by rewrite <- app_assoc.
Qed.

Lemma aes_seal_in_place_default c ent pre gap pt :
  zlen ent = NONCE_LEN -> zlen gap = NONCE_LEN ->
  aes_seal_in_place c ent (pre ++ gap ++ pt) (zlen pre) (zlen pre + NONCE_LEN) =
  default_seal_in_place (aes_encrypt c) ent (pre ++ gap ++ pt) (zlen pre) (zlen pre + NONCE_LEN).
Proof.
  intros Hent Hgap. unfold aes_seal_in_place, default_seal_in_place, aes_encrypt, encrypt_with_cipher.
  destruct (Z.ltb_spec (zlen (pre ++ gap ++ pt)) (zlen pre + NONCE_LEN)); [zl|].
  replace (_ || _) with false.
  2:{ symmetry. rewrite !orb_false_iff, negb_false_iff. unfold NONCE_LEN in *. lia. }
  rewrite (ztake_app_exact _ pre) by done.
  rewrite (app_assoc pre gap pt), (zdrop_app_exact _ (pre ++ gap)) by zl.
  rewrite (ztake_app_exact _ (pre ++ gap)), (ztake_app_exact (zlen pre) pre) by zl.
  rewrite (app_assoc pre ent pt), (zdrop_app_exact _ (pre ++ ent)) by zl.
  rewrite (ztake_app_exact _ (pre ++ ent)), zdrop_app_exact, ztake_app_exact by zl.
  destruct (seal_in_place_separate_tag _ _ _) as [[ct tag]|]; cbn; [|done].
  by rewrite <- app_assoc.
Qed.

Lemma aes_decrypt_in_place_decrypt c buf :
  match aes_decrypt_in_place c buf with
  | Ok (b, (s, e)) => aes_decrypt c buf = Ok (slice s e b)
  | _ => is_ok (aes_decrypt c buf) = false
  end.
Proof.
  destruct (aes_decrypt_in_place c buf) as [[b [s e]]|err|] eqn:E.
  - destruct (aes_decrypt_in_place_ok c buf _ E) as (opened & m & Ho & Hr & Hl).
    pose proof (open_len _ _ _ _ _ Ho). simplify_eq. unfold aes_decrypt, decrypt_with_cipher.
    destruct (Z.ltb_spec (zlen buf) (NONCE_LEN + TAG_LEN)); [lia|].
    rewrite nonce_12 by (unfold NONCE_LEN, TAG_LEN in *; zl). cbn. rewrite Ho. cbn.
    unfold slice. rewrite zdrop_app_exact by (unfold NONCE_LEN, TAG_LEN in *; zl).
    do 2 f_equal. unfold NONCE_LEN. lia.
  - unfold aes_decrypt_in_place, aes_decrypt, decrypt_with_cipher in *.
    repeat case_hyp E; try done. cbn in *.
    destruct (try_assume_unique_for_key _); [|done]. cbn in *.
    by destruct (open_in_place _ _ _) as [[? ?]|].
  - unfold aes_decrypt_in_place in E. repeat case_hyp E; try done. cbn in E.
    destruct (try_assume_unique_for_key _); [|done]. cbn in *.
    by destruct (open_in_place _ _ _) as [[? ?]|].
Qed.
End aes_laws.

(** The in-place AES routines of [AesFrameCipher] compute what the trait's
    provided methods compute from [encrypt] and [decrypt]: the sealed bytes
    are equal, and in-place opening yields the plaintext of [decrypt] or fails
    exactly when it fails. *)
Theorem aes_in_place_equiv `{P : Aead} (L : AeadLaws P) (c : AesFrameCipher)
    (ent pre gap pt out buf : bytes) :
  zlen ent = NONCE_LEN -> zlen gap = NONCE_LEN ->
  aes_seal_in_place c ent (pre ++ gap ++ pt) (zlen pre) (zlen pre + NONCE_LEN) =
    default_seal_in_place (aes_encrypt c) ent (pre ++ gap ++ pt) (zlen pre) (zlen pre + NONCE_LEN) /\
  aes_encrypt_into c ent pt out = default_encrypt_into (aes_encrypt c) ent pt out /\
  match aes_decrypt_in_place c buf with
  | Ok (b, (s, e)) => aes_decrypt c buf = Ok (slice s e b)
  | _ => is_ok (aes_decrypt c buf) = false
  end.
Proof.
  intros Hent Hgap. split_and!.
  - by apply aes_seal_in_place_default.
  - by apply aes_encrypt_into_default.
  - apply aes_decrypt_in_place_decrypt.
Qed.

Lemma encrypt_decrypt_ok `{P : Aead} {L : AeadLaws P} (key nonce data : bytes) :
  zlen key = 32 -> zlen nonce = NONCE_LEN -> zlen data <= seal_limit ->
  exists ct, encrypt_bytes nonce key data = Ok ct /\
    decrypt_bytes key ct = Ok data /\ zlen ct = sealed_len (zlen data).
Proof.
  intros Hkey Hn Hd. unfold encrypt_bytes, decrypt_bytes, make_key.
  destruct (unbound_key_32 key Hkey) as [k ->]. cbn [ok_or res_bind].
  destruct (seal_total k nonce data Hn Hd) as (ct & tag & Hseal).
  pose proof (seal_len _ _ _ _ _ Hseal) as [Hct Htag].
  exists (nonce ++ ct ++ tag). split_and!.
  - unfold encrypt_with_cipher. rewrite zdrop_app_exact, ztake_app_exact by done. by rewrite Hseal.
  - destruct (aes_decrypt_in_place_sealed (mkAes key k) nonce data ct tag Hn Hseal) as [rest H].
    pose proof (aes_decrypt_in_place_decrypt (mkAes key k) (nonce ++ ct ++ tag)) as Hd'.
    rewrite H in Hd'. unfold aes_decrypt in Hd'. cbn in Hd'.
    destruct (decrypt_with_cipher k _); cbn in Hd'; simplify_eq.
    f_equal. apply slice_middle; lia.
  - unfold sealed_len. zl.
Qed.

(** Decrypting what the cipher encrypted under the same key gives the
    plaintext back, and the ciphertext is 28 bytes longer. *)
Theorem aes_encrypt_decrypt `{P : Aead} (L : AeadLaws P) (key nonce data : bytes) :
  zlen key = 32 -> zlen nonce = NONCE_LEN -> zlen data <= seal_limit ->
  exists ct, encrypt_bytes nonce key data = Ok ct /\
    decrypt_bytes key ct = Ok data /\ zlen ct = sealed_len (zlen data).
Proof. apply encrypt_decrypt_ok. Qed.

(** ** A concrete primitive, on which the properties are evaluated *)

(** A keyed checksum in place of GCM: the tag is the key's first bytes. *)
Definition toy_tag (k : bytes) : bytes := ztake 16 (k ++ zrep 16 Byte.x00).

#[export] Instance toy_aead : Aead := {|
  LessSafeKey := bytes;
  unbound_key k := if zlen k =? 32 then Some k else None;
  try_assume_unique_for_key n := if zlen n =? 12 then Some n else None;
  seal_in_place_separate_tag k n pt := Some (pt, toy_tag k);
  open_in_place k n buf :=
    let m := zlen buf - 16 in
    if (0 <=? m) && bool_decide (zdrop m buf = toy_tag k) then Some (buf, m) else None
|}.

Lemma toy_tag_len k : zlen (toy_tag k) = 16.
Proof. unfold toy_tag. zl. Qed.

#[export] Instance toy_aead_laws : AeadLaws toy_aead.
Proof.
  split; cbn.
  - intros k ->. by eexists.
  - intros n ->. done.
  - eauto.
  - intros ? ? ? ? ? [= <- <-]. by rewrite toy_tag_len.
  - intros k n pt ct tag [= <- <-]. exists (toy_tag k).
    rewrite zlen_app, toy_tag_len. replace (zlen pt + 16 - 16) with (zlen pt) by lia.
    rewrite zdrop_app_exact, bool_decide_true by done.
    pose proof (zlen_nonneg pt). by destruct (Z.leb_spec 0 (zlen pt)); [|lia].
  - intros k n buf buf' m H. repeat case_hyp H; simplify_eq.
    apply andb_prop in E as [?%Z.leb_le _]. unfold TAG_LEN. lia.
Qed.

Definition toy_key : bytes := zrep 32 Byte.x07.
Definition toy_nonce : bytes := zrep 12 Byte.x01.
Definition toy_aes : AesFrameCipher := mkAes (P := toy_aead) toy_key toy_key.
#[export] Instance toy_cipher : FrameCipher := aes_frame_cipher toy_aes.

Lemma aes_in_place_equiv_witness :
  zlen toy_nonce = NONCE_LEN /\
  aes_seal_in_place toy_aes toy_nonce (str "ab" ++ zrep 12 Byte.x00 ++ str "hi") 2 14 =
    default_seal_in_place (aes_encrypt toy_aes) toy_nonce
      (str "ab" ++ zrep 12 Byte.x00 ++ str "hi") 2 14.
Proof.
  split; [reflexivity|].
  exact (proj1 (aes_in_place_equiv toy_aead_laws toy_aes toy_nonce (str "ab") (zrep 12 Byte.x00)
           (str "hi") [] [] eq_refl eq_refl)).
Defined.

Lemma aes_encrypt_decrypt_witness :
  exists ct, encrypt_bytes toy_nonce toy_key (str "hello") = Ok ct /\
    decrypt_bytes toy_key ct = Ok (str "hello") /\ zlen ct = sealed_len 5.
Proof.
  apply (aes_encrypt_decrypt toy_aead_laws toy_key toy_nonce (str "hello") eq_refl eq_refl).
  vm_compute. discriminate.
Defined.
