(* ===== verification/Frame.v ===== *)
(** * The frame codec

    The wire format of [src/shaper/mod.rs]: one sealed frame per message, a
    sequence number, the payload length, the payload and zero padding, either
    length-prefixed ([Binary]) or as one JSON line ([Json]). The base-122 text
    encoder of the [base122-fast] crate is a parameter (class [Base122]); the
    nonce and the padding length a call draws at random are arguments. *)

From S2P Require Import Prelude Cipher.

(** ** Byte searching and trimming *)

(** [memchr]: the index of the first occurrence. *)
Fixpoint memchr (b : byte) (l : bytes) : option Z :=
  match l with
  | [] => None
  | x :: l => if decide (x = b) then Some 0 else option_map Z.succ (memchr b l)
  end.

Definition is_ascii_whitespace (b : byte) : bool :=
  match b with
  | Byte.x20 | Byte.x09 | Byte.x0a | Byte.x0c | Byte.x0d => true
  | _ => false
  end.

Fixpoint trim_start (b : bytes) : bytes :=
  match b with
  | first :: rest => if is_ascii_whitespace first then trim_start rest else b
  | [] => b
  end.

(** First the leading, then the trailing whitespace is split off. *)
Definition trim_bytes (b : bytes) : bytes := reverse (trim_start (reverse (trim_start b))).

Definition strip_prefix (p l : bytes) : option bytes :=
  if bool_decide (ztake (zlen p) l = p) then Some (zdrop (zlen p) l) else None.

Definition strip_suffix (p l : bytes) : option bytes :=
  let n := zlen l - zlen p in
  if (0 <=? n) && bool_decide (zdrop n l = p) then Some (ztake n l) else None.

(** [memmem::Finder::find]: the first index at which [p] occurs. *)
Fixpoint memmem (p l : bytes) : option Z :=
  match strip_prefix p l with
  | Some _ => Some 0
  | None => match l with
            | [] => None
            | _ :: l => option_map Z.succ (memmem p l)
            end
  end.

(** ** The base-122 encoder *)

(** Both calls take the previous contents of the output buffer; decoding also
    returns the number of bytes written. *)
Class Base122 := {
  encode_into : bytes -> bytes -> bytes;
  decode_into_bytes : bytes -> bytes -> Res string (bytes * Z)
}.

(** The output buffer is overwritten, its text is free of newlines and double
    quotes and carries seven bits a byte; decoding inverts it and never panics. *)
Class Base122Laws (B : Base122) := {
  b122_round : forall d o o', decode_into_bytes (encode_into d o) o' = Ok (d, zlen d);
  b122_clean : forall d o b, b ∈ encode_into d o -> b <> Byte.x0a /\ b <> Byte.x22;
  b122_len : forall d o, zlen (encode_into d o) <= (8 * zlen d + 6) / 7 + 1;
  b122_total : forall t o, decode_into_bytes t o <> Panic
}.

(** ** Constants and data *)

Definition HEADER_LEN : Z := 10.
Definition MAX_RAW_PAYLOAD : Z := 16 * 1024.
Definition JSON_PAYLOAD_CAP : Z := 14320 - HEADER_LEN - NONCE_LEN - TAG_LEN.
Definition DELIMITER : byte := Byte.x0a.
Definition MAX_BINARY_FRAME_LEN : Z := MAX_RAW_PAYLOAD + 38.
Definition MAX_JSON_LINE_LEN : Z := MAX_RAW_PAYLOAD + 2396.

Inductive EncodingType : Type := Json | Binary.

#[export] Instance EncodingType_eq_dec : EqDecision EncodingType.
Proof. solve_decision. Defined.

Definition max_encoded_frame_len (encoding : EncodingType) : Z :=
  match encoding with
  | Binary => MAX_BINARY_FRAME_LEN + 2
  | Json => MAX_JSON_LINE_LEN + 1
  end.

Definition frame_raw_limit (encoding : EncodingType) : Z :=
  match encoding with
  | Json => JSON_PAYLOAD_CAP
  | Binary => MAX_RAW_PAYLOAD
  end.

Inductive DecodedFrame : Type :=
| InJsonScratch (seq start end_ : Z)
| Owned (seq : Z) (data : bytes).

(** The text around the payload of a JSON line (its quotes are the bytes x22). *)
Definition json_open : bytes :=
  [Byte.x7b; Byte.x22] ++ str "data" ++ [Byte.x22; Byte.x3a; Byte.x22].
Definition json_field : bytes :=
  [Byte.x22] ++ str "data" ++ [Byte.x22; Byte.x3a; Byte.x22].
Definition json_close : bytes := [Byte.x22; Byte.x7d].

Definition err_data (m : string) : IoError := mkIoError InvalidData m.

(** ** Decoding *)

Definition read_u64_be (data : bytes) : Res IoError Z :=
  if zlen data <? 8 then Panic else Ok (be_val (ztake 8 data)).

Definition read_u16_be (data : bytes) : Res IoError Z :=
  if zlen data <? 2 then Panic else Ok (be_val (ztake 2 data)).

Definition extract_frame_range (payload : bytes) : Res IoError (Z * Z * Z) :=
  if zlen payload <? HEADER_LEN then Err (err_data "payload too short")
  else
    let? seq := read_u64_be (ztake 8 payload) in
    let? orig_len := read_u16_be (slice 8 10 payload) in
    let total := HEADER_LEN + orig_len in
    if zlen payload <? total
    then Err (err_data "payload shorter than declared original length")
    else Ok (seq, HEADER_LEN, total).

Section decode.
Context `{C : FrameCipher} `{B : Base122}.

Definition parse_json_payload_into (json out : bytes) : Res IoError (bytes * Z) :=
  let json := trim_bytes json in
  match strip_prefix json_open json ≫= strip_suffix json_close with
  | Some payload => map_err err_data (decode_into_bytes payload out)
  | None =>
      let? start := ok_or (memmem json_field json) (err_data "missing 'data' field") in
      let remaining := zdrop (start + zlen json_field) json in
      let? data_end := ok_or (memchr Byte.x22 remaining)
                             (err_data "malformed JSON structure") in
      map_err err_data (decode_into_bytes (ztake data_end remaining) out)
  end.

(** The result with [src] and [json_scratch] as the call leaves them. *)
Definition decode_frame (src json_scratch : bytes) (encoding : EncodingType)
    : Res IoError (option DecodedFrame) * bytes * bytes :=
  match encoding with
  | Binary =>
      if zlen src <? 2 then (Ok None, src, json_scratch)
      else
        match read_u16_be (ztake 2 src) with
        | Ok frame_len =>
            if MAX_BINARY_FRAME_LEN <? frame_len
            then (Err (err_data "binary frame length exceeds limit"), src, json_scratch)
            else if zlen src <? 2 + frame_len then (Ok None, src, json_scratch)
            else
              let src := zdrop 2 src in
              let view := ztake frame_len src in
              let src := zdrop frame_len src in
              (let? (view, (offset, _)) := decrypt_in_place view in
               let? (seq, start, end_) := extract_frame_range (zdrop offset view) in
               Ok (Some (Owned seq (slice (offset + start) (offset + end_) view))),
               src, json_scratch)
        | Err e => (Err e, src, json_scratch)
        | Panic => (Panic, src, json_scratch)
        end
  | Json =>
      match memchr DELIMITER src with
      | Some pos =>
          if MAX_JSON_LINE_LEN <? pos
          then (Err (err_data "JSON line exceeds maximum allowed length"), src, json_scratch)
          else
            let line := ztake pos src in
            let src := zdrop 1 (zdrop pos src) in
            if zlen line =? 0 then (Err (err_data "empty frame line"), src, json_scratch)
            else
              match parse_json_payload_into line json_scratch with
              | Ok (json_scratch, _) =>
                  match decrypt_in_place json_scratch with
                  | Ok (json_scratch, (plain_start, plain_end)) =>
                      (let? (seq, start, end_) :=
                         extract_frame_range (slice plain_start plain_end json_scratch) in
                       Ok (Some (InJsonScratch seq (plain_start + start) (plain_start + end_))),
                       src, json_scratch)
                  | Err e => (Err e, src, json_scratch)
                  | Panic => (Panic, src, json_scratch)
                  end
              | Err e => (Err e, src, json_scratch)
              | Panic => (Panic, src, json_scratch)
              end
      | None =>
          if MAX_JSON_LINE_LEN <? zlen src
          then (Err (err_data "incomplete JSON line is too long"), src, json_scratch)
          else (Ok None, src, json_scratch)
      end
  end.

(** What every caller does with a decoded frame: the sequence number and the
    payload, taken out of the scratch buffer for a JSON frame. *)
Definition frame_data (frame : DecodedFrame) (json_scratch : bytes) : Z * bytes * bytes :=
  match frame with
  | InJsonScratch seq start end_ => (seq, slice start end_ json_scratch, [])
  | Owned seq data => (seq, data, json_scratch)
  end.

Definition decode_from_buffer (src : bytes) (encoding : EncodingType)
    : Res IoError (option (Z * bytes)) * bytes :=
  match decode_frame src [] encoding with
  | (Ok (Some frame), src, json_scratch) =>
      let '(seq, data, _) := frame_data frame json_scratch in (Ok (Some (seq, data)), src)
  | (Ok None, src, _) => (Ok None, src)
  | (Err e, src, _) => (Err e, src)
  | (Panic, src, _) => (Panic, src)
  end.
End decode.

(** ** Encoding *)

(** [rand::rng().random_range(lo..=hi)]: [draw] is the generator's choice; an
    empty range panics. *)
Definition random_range (draw : Z -> Z -> Z) (lo hi : Z) : Res IoError Z :=
  if hi <? lo then Panic else Ok (draw lo hi).

Definition resolve_frame_padding (draw : Z -> Z -> Z)
    (raw_len padding_threshold : Z) (padding_range : Z * Z) (raw_limit : Z)
    : Res IoError Z :=
  if raw_len <? padding_threshold then
    let max_pad := raw_limit - raw_len in
    let? wanted := random_range draw (fst padding_range) (snd padding_range) in
    Ok (Z.min wanted max_pad)
  else Ok 0.

Section encode.
Context `{C : FrameCipher} `{B : Base122}.

Definition encode_frame_into (nonce : bytes) (draw : Z -> Z -> Z)
    (data : bytes) (seq padding_threshold : Z) (padding_range : Z * Z)
    (encoding : EncodingType) (out : bytes) : Res IoError bytes :=
  let raw_len := zlen data in
  let raw_limit := frame_raw_limit encoding in
  if raw_limit <? raw_len
  then Err (mkIoError InvalidInput "frame payload too large")
  else
    let? padding_len :=
      resolve_frame_padding draw raw_len padding_threshold padding_range raw_limit in
    let payload_len := HEADER_LEN + raw_len + padding_len in
    match encoding with
    | Binary =>
        let enc_len := NONCE_LEN + payload_len + TAG_LEN in
        let out := out ++ be_bytes 2 (as_u16 enc_len) in
        let nonce_start := zlen out in
        let out := out ++ zrep NONCE_LEN Byte.x00 in
        let ct_start := zlen out in
        let out := out ++ be_bytes 8 seq in
        let out := out ++ be_bytes 2 (as_u16 raw_len) in
        let out := out ++ data in
        let out := if 0 <? padding_len then out ++ zrep padding_len Byte.x00 else out in
        seal_in_place nonce out nonce_start ct_start
    | Json =>
        let payload := be_bytes 8 seq ++ be_bytes 2 (as_u16 raw_len) ++ data in
        let payload := if 0 <? padding_len
          then payload ++ zrep (payload_len - zlen payload) Byte.x00 else payload in
        let? sealed := encrypt_into nonce payload [] in
        let encoded := encode_into sealed [] in
        Ok (out ++ json_open ++ encoded ++ json_close ++ [Byte.x0a])
    end.

Definition encode_frame (nonce : bytes) (draw : Z -> Z -> Z)
    (data : bytes) (seq padding_threshold : Z) (padding_range : Z * Z)
    (encoding : EncodingType) : Res IoError bytes :=
  encode_frame_into nonce draw data seq padding_threshold padding_range encoding [].
End encode.

(** ** Lemmas: searching and trimming *)

Lemma memchr_app_fresh b l k : b ∉ l -> memchr b (l ++ b :: k) = Some (zlen l).
Proof.
  induction l as [|x l IH]; intros Hn; simpl.
  - by rewrite decide_True.
  - apply not_elem_of_cons in Hn as [Hx Hl]. rewrite decide_False by done.
    rewrite IH by done. simpl. f_equal. rewrite zlen_cons. lia.
Qed.

Lemma memchr_None b l : memchr b l = None <-> b ∉ l.
Proof.
  induction l as [|x l IH]; simpl; [set_solver|].
  case_decide; [set_solver|]. destruct (memchr b l); simpl; rewrite not_elem_of_cons.
  - split; [done|]. intros [_ H']. by apply IH in H'.
  - split; [|done]. intros _. split; [congruence|by apply IH].
Qed.

Lemma memchr_Some b l i : memchr b l = Some i ->
  exists k r, l = k ++ b :: r /\ i = zlen k /\ b ∉ k.
Proof.
  revert i. induction l as [|x l IH]; intros i; simpl; [done|].
  case_decide.
  - intros [= <-]. subst. exists [], l. split; [done|]. split; [done|]. apply not_elem_of_nil.
  - destruct (memchr b l) as [j|] eqn:E; simpl; intros [= <-].
    destruct (IH j eq_refl) as (k & r & -> & -> & Hk).
    exists (x :: k), r. split; [done|]. split; [rewrite zlen_cons; lia|set_solver].
Qed.

Lemma memchr_app_notin b l k :
  b ∉ l -> memchr b (l ++ k) = option_map (Z.add (zlen l)) (memchr b k).
Proof.
  induction l as [|x l IH]; intros Hn; simpl.
  - destruct (memchr b k); done.
  - apply not_elem_of_cons in Hn as [Hx Hl]. rewrite decide_False by done.
    rewrite IH by done. destruct (memchr b k); simpl; [|done]. f_equal.
    rewrite zlen_cons. lia.
Qed.

Lemma strip_prefix_app p l : strip_prefix p (p ++ l) = Some l.
Proof.
  unfold strip_prefix. rewrite ztake_app_exact, zdrop_app_exact by done.
  by rewrite bool_decide_true.
Qed.

Lemma strip_prefix_Some p l k : strip_prefix p l = Some k -> l = p ++ k.
Proof.
  unfold strip_prefix. case_bool_decide as E; [|done].
  intros [= <-]. rewrite <- E at 1. by rewrite ztake_zdrop.
Qed.

Lemma strip_suffix_app p l : strip_suffix p (l ++ p) = Some l.
Proof.
  unfold strip_suffix. rewrite zlen_app. replace (zlen l + zlen p - zlen p) with (zlen l) by lia.
  rewrite ztake_app_exact, zdrop_app_exact, bool_decide_true by done.
  pose proof (zlen_nonneg l). by destruct (Z.leb_spec 0 (zlen l)); [|lia].
Qed.

Lemma trim_start_id x l : is_ascii_whitespace x = false -> trim_start (x :: l) = x :: l.
Proof. simpl. by intros ->. Qed.

Lemma trim_bytes_id x l y :
  is_ascii_whitespace x = false -> is_ascii_whitespace y = false ->
  trim_bytes (x :: l ++ [y]) = x :: l ++ [y].
Proof.
  intros Hx Hy. unfold trim_bytes. rewrite trim_start_id by done.
  rewrite app_comm_cons, reverse_snoc, trim_start_id by done.
  by rewrite reverse_cons, reverse_involutive.
Qed.

(** ** The sealed payload and its two wire forms *)

(** Header, data and [pad] zero bytes: what the cipher seals. *)
Definition frame_payload (seq : Z) (data : bytes) (pad : Z) : bytes :=
  (be_bytes 8 seq ++ be_bytes 2 (as_u16 (zlen data))) ++ data ++ zrep pad Byte.x00.

(** The bytes on the wire around the sealed payload [ct]. *)
Definition wire `{B : Base122} (encoding : EncodingType) (ct : bytes) : bytes :=
  match encoding with
  | Binary => be_bytes 2 (zlen ct) ++ ct
  | Json => json_open ++ encode_into ct [] ++ json_close ++ [Byte.x0a]
  end.

(** [w] is one frame that carries [data] under sequence number [seq]. *)
Definition is_frame `{C : FrameCipher} `{B : Base122} (enc : EncodingType)
    (seq : Z) (data w : bytes) : Prop :=
  exists pad ct, w = wire enc ct /\
    0 <= seq < u64_max /\ 0 <= pad /\ zlen data + pad <= frame_raw_limit enc /\
    zlen ct = sealed_len (HEADER_LEN + zlen data + pad) /\
    opens ct (frame_payload seq data pad).

Definition draw_ok (draw : Z -> Z -> Z) : Prop :=
  forall lo hi, lo <= hi -> lo <= draw lo hi <= hi.

Lemma zlen_frame_payload seq data pad :
  0 <= pad -> zlen (frame_payload seq data pad) = HEADER_LEN + zlen data + pad.
Proof. intros. unfold frame_payload, HEADER_LEN. zl. Qed.

Lemma extract_frame_range_payload seq data pad tail :
  0 <= seq < u64_max -> zlen data < u16_max ->
  extract_frame_range (frame_payload seq data pad ++ tail)
    = Ok (seq, HEADER_LEN, HEADER_LEN + zlen data).
Proof.
  intros Hseq Hlen. pose proof (zlen_nonneg data) as Hd.
  unfold extract_frame_range, frame_payload. rewrite <- !app_assoc.
  set (rest := data ++ _). assert (Hr : zlen data <= zlen rest) by (unfold rest; zl).
  destruct (Z.ltb_spec (zlen (be_bytes 8 seq ++ be_bytes 2 (as_u16 (zlen data)) ++ rest)) HEADER_LEN);
    [unfold HEADER_LEN in *; zl|].
  rewrite ztake_app_exact by zl. unfold read_u64_be at 1.
  rewrite zlen_be_bytes. cbn [Z.ltb Z.compare]. rewrite ztake_all by zl.
  change (Z.of_nat 8 <? 8) with false. cbn [res_bind].
  rewrite be_val_round by (unfold u64_max in *; lia).
  rewrite slice_middle by zl. unfold read_u16_be. rewrite zlen_be_bytes.
  change (Z.of_nat 2 <? 2) with false. cbn [res_bind].
  rewrite ztake_all, as_u16_small, be_val_round by (try zl; unfold u16_max in *; lia).
  destruct (Z.ltb_spec (zlen (be_bytes 8 seq ++ be_bytes 2 (zlen data) ++ rest)) (HEADER_LEN + zlen data));
    [|done]. unfold HEADER_LEN in *. zl.
Qed.

Lemma extract_frame_range_wf p :
  match extract_frame_range p with
  | Ok (seq, s, e) => 0 <= s /\ s <= e /\ e <= zlen p /\ 0 <= seq < u64_max
  | Err _ => True
  | Panic => False
  end.
Proof.
  unfold extract_frame_range, read_u64_be, read_u16_be, HEADER_LEN.
  destruct (Z.ltb_spec (zlen p) 10); [done|].
  assert (H8 : zlen (ztake 8 p) = 8) by zl. rewrite H8. cbn [Z.ltb Z.compare res_bind].
  change (8 <? 8) with false. cbn [res_bind].
  assert (H2 : zlen (slice 8 10 p) = 2) by (rewrite zlen_slice; lia). rewrite H2.
  change (2 <? 2) with false. cbn [res_bind].
  rewrite (ztake_all 8 (ztake 8 p)), (ztake_all 2 (slice 8 10 p)) by lia.
  pose proof (be_val_range (slice 8 10 p)). pose proof (be_val_range (ztake 8 p)) as Hs.
  rewrite H8 in Hs. destruct (Z.ltb_spec (zlen p) (10 + be_val (slice 8 10 p))); [done|].
  unfold u64_max. lia.
Qed.

(** The length field has sixteen bits. *)
Lemma extract_frame_range_short p seq s e :
  extract_frame_range p = Ok (seq, s, e) -> e - s < u16_max.
Proof.
  unfold extract_frame_range, read_u16_be. intros H. destruct (_ <? _); [done|].
  destruct (read_u64_be _); try done. cbn [res_bind] in H. destruct (_ <? 2); [done|]. cbn [res_bind] in H.
  destruct (_ <? _); [done|]. injection H as _ <- <-. pose proof (be_val_range (ztake 2 (slice 8 10 p))) as Hr.
  assert (256 ^ zlen (ztake 2 (slice 8 10 p)) <= 256 ^ 2) by (apply Z.pow_le_mono_r; [lia|zl]).
  unfold u16_max. lia.
Qed.

Lemma slice_short {A} s e (l : list A) n : e - s < n -> 0 < n -> zlen (slice s e l) < n.
Proof. intros. unfold slice. rewrite zlen_ztake. lia. Qed.

Lemma slice_zdrop {A} s e (l : list A) :
  0 <= s -> s <= e -> zdrop s l = slice s e l ++ zdrop e l.
Proof.
  intros. unfold slice. rewrite <- (ztake_zdrop (e - s) (zdrop s l)) at 1.
  rewrite zdrop_zdrop by lia. do 2 f_equal. lia.
Qed.

(** Slicing inside a known sub-slice. *)
Lemma slice_slice {A} s e a b (l : list A) :
  0 <= s -> s <= e -> e <= zlen l -> 0 <= a -> a <= b -> b <= e - s ->
  slice (s + a) (s + b) l = slice a b (slice s e l).
Proof.
  intros. unfold slice, ztake, zdrop. rewrite skipn_firstn_comm, drop_drop, take_take.
  f_equal; [|f_equal]; lia.
Qed.

Lemma frame_payload_data seq data pad :
  slice HEADER_LEN (HEADER_LEN + zlen data) (frame_payload seq data pad) = data.
Proof. apply slice_middle; unfold HEADER_LEN; zl. Qed.

(** ** The codec against the wire form *)

Section codec.
Context `{C : FrameCipher} {L : FrameCipherLaws C} `{B : Base122} {BL : Base122Laws B}.
Implicit Types (ct data src out rest scratch : bytes) (enc : EncodingType).

Lemma resolve_frame_padding_ok draw raw thr range limit :
  draw_ok draw -> 0 <= fst range <= snd range -> raw <= limit ->
  exists pad, resolve_frame_padding draw raw thr range limit = Ok pad /\
    0 <= pad /\ raw + pad <= limit /\ (thr <= raw -> pad = 0) /\ pad <= snd range.
Proof.
  intros Hd Hr Hl. unfold resolve_frame_padding.
  destruct (Z.ltb_spec raw thr).
  - unfold random_range. destruct (Z.ltb_spec (snd range) (fst range)); [lia|].
    specialize (Hd (fst range) (snd range)). cbn. eexists. split; [done|]. lia.
  - exists 0. split; [done|]. lia.
Qed.

Lemma frame_raw_limit_u16 enc : frame_raw_limit enc <= MAX_RAW_PAYLOAD < u16_max.
Proof. destruct enc; vm_compute; split; congruence. Qed.

(** Sealing in place behind a length prefix, shared with the shaper. *)
Lemma seal_frame_binary nonce out seq data pad :
  zlen nonce = NONCE_LEN -> 0 <= pad -> zlen data + pad <= MAX_RAW_PAYLOAD ->
  let enc_len := NONCE_LEN + (HEADER_LEN + zlen data + pad) + TAG_LEN in
  let out1 := out ++ be_bytes 2 (as_u16 enc_len) in
  let out2 := out1 ++ zrep NONCE_LEN Byte.x00 in
  exists ct,
    seal_in_place nonce (out2 ++ frame_payload seq data pad) (zlen out1) (zlen out2)
      = Ok (out ++ wire Binary ct) /\
    zlen ct = sealed_len (HEADER_LEN + zlen data + pad) /\
    opens ct (frame_payload seq data pad).
Proof.
  intros Hn Hp Hl enc_len out1 out2.
  assert (Hgap : zlen (zrep NONCE_LEN Byte.x00) = NONCE_LEN) by done.
  assert (Hpl : zlen (frame_payload seq data pad) <= seal_limit).
  { rewrite zlen_frame_payload by done. unfold HEADER_LEN, MAX_RAW_PAYLOAD, seal_limit in *. lia. }
  destruct (seal_in_place_ok nonce out1 _ _ Hn Hgap Hpl) as (ct & Hs & Hlen & Ho).
  exists ct. rewrite zlen_frame_payload in Hlen by done.
  unfold out2 at 2. rewrite zlen_app, Hgap. unfold out2. rewrite <- app_assoc.
  split; [|done]. rewrite Hs. unfold out1, wire. rewrite <- app_assoc.
  do 3 f_equal. rewrite Hlen. unfold sealed_len, enc_len.
  rewrite as_u16_small by (pose proof (zlen_nonneg data);
    unfold NONCE_LEN, HEADER_LEN, TAG_LEN, MAX_RAW_PAYLOAD, u16_max in *; lia).
  done.
Qed.

Lemma pad_app (l data : bytes) pad :
  0 <= pad ->
  (if 0 <? pad then (l ++ data) ++ zrep pad Byte.x00 else l ++ data)
    = l ++ data ++ zrep pad Byte.x00.
Proof.
  intros Hp. destruct (Z.ltb_spec 0 pad).
  - by rewrite <- app_assoc.
  - replace pad with 0 by lia. change (zrep 0 Byte.x00) with (@nil byte).
    by rewrite app_nil_r.
Qed.

Lemma encode_frame_into_wire nonce draw data seq thr range enc out :
  zlen nonce = NONCE_LEN -> draw_ok draw -> 0 <= fst range <= snd range ->
  zlen data <= frame_raw_limit enc ->
  exists pad ct,
    encode_frame_into nonce draw data seq thr range enc out = Ok (out ++ wire enc ct) /\
    0 <= pad /\ zlen data + pad <= frame_raw_limit enc /\
    (thr <= zlen data -> pad = 0) /\ pad <= snd range /\
    zlen ct = sealed_len (HEADER_LEN + zlen data + pad) /\
    opens ct (frame_payload seq data pad).
Proof.
  intros Hn Hd Hr Hl. unfold encode_frame_into.
  destruct (Z.ltb_spec (frame_raw_limit enc) (zlen data)); [lia|].
  destruct (resolve_frame_padding_ok draw (zlen data) thr range _ Hd Hr Hl)
    as (pad & -> & Hp & Hsum & Hthr & Hmax).
  cbn [res_bind]. exists pad. pose proof (frame_raw_limit_u16 enc) as Hlim.
  destruct enc; cbn [frame_raw_limit] in *.
  - rewrite (app_assoc (be_bytes 8 seq)).
    replace (HEADER_LEN + zlen data + pad - _) with pad by (unfold HEADER_LEN; zl).
    rewrite pad_app by done. fold (frame_payload seq data pad).
    assert (Hpl : zlen (frame_payload seq data pad) <= seal_limit).
    { rewrite zlen_frame_payload by done. unfold HEADER_LEN, MAX_RAW_PAYLOAD, seal_limit in *. lia. }
    destruct (encrypt_into_ok nonce _ [] Hn Hpl) as (ct & -> & Hlen & Ho).
    exists ct. rewrite zlen_frame_payload in Hlen by done. done.
  - rewrite <- (app_assoc _ (be_bytes 8 seq)), pad_app by done.
    rewrite <- app_assoc. fold (frame_payload seq data pad).
    destruct (seal_frame_binary nonce out seq data pad Hn Hp ltac:(lia)) as (ct & Hs & Hlen & Ho).
    exists ct. done.
Qed.

(** Opening a sealed payload finds its header and data, whatever follows. *)
Lemma opened_frame ct seq data pad :
  0 <= seq < u64_max -> zlen data < u16_max -> 0 <= pad ->
  opens ct (frame_payload seq data pad) ->
  exists buf s e, decrypt_in_place ct = Ok (buf, (s, e)) /\
    extract_frame_range (zdrop s buf) = Ok (seq, HEADER_LEN, HEADER_LEN + zlen data) /\
    extract_frame_range (slice s e buf) = Ok (seq, HEADER_LEN, HEADER_LEN + zlen data) /\
    slice (s + HEADER_LEN) (s + (HEADER_LEN + zlen data)) buf = data.
Proof.
  intros Hseq Hd Hp (buf & s & e & Ho & Hs & He & Hb & Hsl).
  exists buf, s, e. split; [done|]. pose proof (zlen_nonneg data).
  rewrite (slice_zdrop s e) by done. rewrite Hsl. split.
  { by apply extract_frame_range_payload. }
  split.
  { rewrite <- (app_nil_r (frame_payload _ _ _)). by apply extract_frame_range_payload. }
  assert (Hlen : e - s = HEADER_LEN + zlen data + pad).
  { rewrite <- zlen_frame_payload with (seq := seq) by done.
    rewrite <- Hsl. by rewrite zlen_slice. }
  rewrite (slice_slice s e) by (unfold HEADER_LEN in *; lia).
  rewrite Hsl. apply frame_payload_data.
Qed.

Lemma json_line_clean ct : Byte.x0a ∉ json_open ++ encode_into ct [] ++ json_close.
Proof.
  rewrite !not_elem_of_app. split_and!.
  - apply (bool_decide_eq_true_1 _). by vm_compute.
  - intros Hin. by destruct (b122_clean _ _ _ Hin).
  - apply (bool_decide_eq_true_1 _). by vm_compute.
Qed.

Lemma parse_json_line ct scratch :
  parse_json_payload_into (json_open ++ encode_into ct [] ++ json_close) scratch
    = Ok (ct, zlen ct).
Proof.
  unfold parse_json_payload_into.
  change (json_open ++ encode_into ct [] ++ json_close) with
    (Byte.x7b :: (drop 1 json_open) ++ encode_into ct [] ++ [Byte.x22] ++ [Byte.x7d]).
  rewrite !app_assoc, trim_bytes_id by done. rewrite <- !app_assoc.
  change (Byte.x7b :: drop 1 json_open ++ ?l) with (json_open ++ l).
  rewrite strip_prefix_app. cbn [mbind option_bind].
  change ([Byte.x22] ++ [Byte.x7d]) with json_close.
  rewrite strip_suffix_app, b122_round. done.
Qed.

Lemma zlen_wire_binary ct : zlen (wire Binary ct) = 2 + zlen ct.
Proof. unfold wire. zl. Qed.

Lemma zlen_wire_json ct :
  zlen (wire Json ct) <= 12 + ((8 * zlen ct + 6) / 7 + 1) /\
  zlen (wire Json ct) = 12 + zlen (encode_into ct []).
Proof.
  unfold wire. autorewrite with zlen. pose proof (b122_len ct []).
  change (zlen json_open) with 9. change (zlen json_close) with 2. lia.
Qed.

Lemma max_encoded_frame_len_pos enc : 0 < max_encoded_frame_len enc.
Proof. by destruct enc. Qed.

Lemma zlen_wire enc ct n :
  n <= frame_raw_limit enc -> zlen ct = sealed_len (HEADER_LEN + n) ->
  zlen (wire enc ct) <= max_encoded_frame_len enc.
Proof.
  intros Hn Hct.
  destruct enc; cbn [frame_raw_limit max_encoded_frame_len] in *;
    unfold sealed_len, MAX_JSON_LINE_LEN, MAX_BINARY_FRAME_LEN, MAX_RAW_PAYLOAD,
      JSON_PAYLOAD_CAP, HEADER_LEN, NONCE_LEN, TAG_LEN in *.
  - destruct (zlen_wire_json ct) as [Hw _].
    assert ((8 * zlen ct + 6) / 7 < 16367) by (apply Z.div_lt_upper_bound; lia). lia.
  - rewrite zlen_wire_binary. lia.
Qed.

(** The central lemma: a wire frame at the head of the input is decoded to
    its sequence number and payload, and exactly its bytes are consumed. *)
Lemma decode_wire enc ct seq data pad rest scratch :
  0 <= seq < u64_max -> 0 <= pad -> zlen data + pad <= frame_raw_limit enc ->
  zlen ct = sealed_len (HEADER_LEN + zlen data + pad) ->
  opens ct (frame_payload seq data pad) ->
  exists frame scratch',
    decode_frame (wire enc ct ++ rest) scratch enc = (Ok (Some frame), rest, scratch') /\
    fst (frame_data frame scratch') = (seq, data).
Proof.
  intros Hseq Hp Hl Hct Ho. pose proof (frame_raw_limit_u16 enc) as Hlim.
  pose proof (zlen_nonneg data) as Hd.
  destruct (opened_frame ct seq data pad Hseq ltac:(lia) Hp Ho)
    as (buf & s & e & Hdec & Hx & Hx' & Hdata).
  unfold sealed_len, NONCE_LEN, TAG_LEN, HEADER_LEN in Hct.
  destruct enc; cbn [frame_raw_limit] in *; unfold decode_frame.
  - set (line := json_open ++ encode_into ct [] ++ json_close).
    replace (wire Json ct ++ rest) with (line ++ DELIMITER :: rest)
      by (unfold line, wire; rewrite <- !app_assoc; done).
    rewrite memchr_app_fresh by apply json_line_clean.
    assert (Hline : zlen line = 11 + zlen (encode_into ct [])).
    { unfold line. autorewrite with zlen. change (zlen json_open) with 9.
      change (zlen json_close) with 2. lia. }
    pose proof (b122_len ct []). pose proof (zlen_nonneg (encode_into ct [])).
    assert (zlen ct <= 14320) by (unfold JSON_PAYLOAD_CAP, HEADER_LEN, NONCE_LEN, TAG_LEN in Hl; lia).
    assert (Hq : (8 * zlen ct + 6) / 7 < 16367) by (apply Z.div_lt_upper_bound; lia).
    destruct (Z.ltb_spec MAX_JSON_LINE_LEN (zlen line));
      [unfold MAX_JSON_LINE_LEN, MAX_RAW_PAYLOAD in *; lia|].
    rewrite ztake_app_exact, zdrop_app_exact by done.
    change (zdrop 1 (DELIMITER :: rest)) with rest.
    destruct (Z.eqb_spec (zlen line) 0); [lia|].
    unfold line. rewrite parse_json_line, Hdec, Hx'. cbn [res_bind].
    eexists _, _. split; [done|]. cbn [frame_data fst]. by rewrite Hdata.
  - unfold wire. rewrite <- app_assoc.
    unfold MAX_RAW_PAYLOAD in *. rewrite !zlen_app, zlen_be_bytes.
    destruct (Z.ltb_spec (Z.of_nat 2 + (zlen ct + zlen rest)) 2); [zl|].
    rewrite ztake_app_exact by zl. unfold read_u16_be. rewrite zlen_be_bytes.
    change (Z.of_nat 2 <? 2) with false.
    rewrite ztake_all, be_val_round by zl.
    destruct (Z.ltb_spec MAX_BINARY_FRAME_LEN (zlen ct));
      [unfold MAX_BINARY_FRAME_LEN, MAX_RAW_PAYLOAD in *; lia|].
    destruct (Z.ltb_spec (Z.of_nat 2 + (zlen ct + zlen rest)) (2 + zlen ct)); [zl|].
    rewrite (zdrop_app_exact 2) by zl. rewrite ztake_app_exact, zdrop_app_exact by done.
    rewrite Hdec. cbn [res_bind]. rewrite Hx. cbn [res_bind].
    eexists _, _. split; [done|]. cbn [frame_data fst]. by rewrite Hdata.
Qed.

(** A strict prefix of a wire frame is recognised as incomplete. *)
Lemma decode_prefix enc ct n p q scratch :
  n <= frame_raw_limit enc -> zlen ct = sealed_len (HEADER_LEN + n) ->
  wire enc ct = p ++ q -> q <> [] ->
  decode_frame p scratch enc = (Ok None, p, scratch).
Proof.
  intros Hn Hct Hw Hq. pose proof (zlen_wire enc ct n Hn Hct) as Hb.
  assert (Hpq : zlen p < zlen (wire enc ct)).
  { rewrite Hw. destruct q; [done|]. zl. }
  destruct enc; unfold decode_frame; cbn [max_encoded_frame_len] in *.
  - assert (Hfresh : Byte.x0a ∉ p).
    { intros Hin. apply (json_line_clean ct). unfold wire in Hw.
      rewrite !app_assoc in Hw. destruct (exists_last Hq) as (q' & z & ->).
      rewrite app_assoc in Hw. apply app_inj_tail in Hw as [Hw _].
      rewrite app_assoc, Hw. set_solver. }
    apply memchr_None in Hfresh. unfold DELIMITER. rewrite Hfresh.
    destruct (Z.ltb_spec MAX_JSON_LINE_LEN (zlen p)); [lia|done].
  - destruct (Z.ltb_spec (zlen p) 2); [done|].
    assert (Hp2 : ztake 2 p = be_bytes 2 (zlen ct)).
    { rewrite <- (ztake_app_le 2 p q), <- Hw by lia. by apply ztake_app_exact. }
    unfold read_u16_be. rewrite Hp2, zlen_be_bytes. change (Z.of_nat 2 <? 2) with false.
    rewrite zlen_wire_binary in Hpq. pose proof (zlen_nonneg ct).
    cbn [frame_raw_limit] in Hn.
    rewrite ztake_all, be_val_round
      by (try zl; unfold sealed_len, MAX_RAW_PAYLOAD, HEADER_LEN, NONCE_LEN, TAG_LEN in *; lia).
    destruct (Z.ltb_spec MAX_BINARY_FRAME_LEN (zlen ct)).
    { unfold sealed_len, MAX_BINARY_FRAME_LEN, MAX_RAW_PAYLOAD, HEADER_LEN, NONCE_LEN, TAG_LEN in *. lia. }
    destruct (Z.ltb_spec (zlen p) (2 + zlen ct)); [done|lia].
Qed.

Lemma parse_json_payload_into_total json out : parse_json_payload_into json out <> Panic.
Proof.
  unfold parse_json_payload_into.
  destruct (strip_prefix _ _ ≫= _) as [p|].
  { pose proof (b122_total p out). by destruct (decode_into_bytes p out). }
  destruct (memmem _ _); cbn [ok_or res_bind]; [|done].
  destruct (memchr _ _); cbn [ok_or res_bind]; [|done].
  match goal with |- context [decode_into_bytes ?t out] =>
    pose proof (b122_total t out); by destruct (decode_into_bytes t out) end.
Qed.

(** What one decoding step does to the input, on any bytes whatever. *)
Definition step_wf src (r : Res IoError (option DecodedFrame) * bytes * bytes) : Prop :=
  let '(res, src', scratch') := r in
  (exists eaten : bytes, src = eaten ++ src' /\
    (res = Ok None -> eaten = []) /\ (forall f, res = Ok (Some f) -> eaten <> [])) /\
  match res with
  | Ok (Some (InJsonScratch seq s e)) =>
      0 <= seq < u64_max /\ 0 <= s /\ s <= e /\ e <= zlen scratch'
  | Ok (Some (Owned seq _)) => 0 <= seq < u64_max
  | Panic => False
  | _ => True
  end.

Lemma decode_binary_wf src scratch : step_wf src (decode_frame src scratch Binary).
Proof.
  unfold decode_frame.
  assert (Hstay : forall r, (forall f, r <> Ok (Some f)) -> r <> Panic ->
    step_wf src (r, src, scratch)).
  { intros r H1 H2. split; [exists []; split; [done|]; split; [done|]; intros f Hf; by apply H1 in Hf|].
    destruct r as [[[]|]| |]; try done; by edestruct H1. }
  destruct (Z.ltb_spec (zlen src) 2); [by apply Hstay|].
  unfold read_u16_be. assert (H2 : zlen (ztake 2 src) = 2) by zl.
  rewrite H2. change (2 <? 2) with false. cbv iota.
  set (n := be_val _). assert (0 <= n) by apply be_val_range.
  destruct (Z.ltb_spec MAX_BINARY_FRAME_LEN n); [by apply Hstay|].
  destruct (Z.ltb_spec (zlen src) (2 + n)); [by apply Hstay|].
  set (view := ztake n (zdrop 2 src)). split.
  { exists (ztake 2 src ++ view). unfold view. rewrite <- app_assoc, !ztake_zdrop.
    split; [done|]. split.
    - pose proof (decrypt_in_place_wf (ztake n (zdrop 2 src))) as Hdec.
      destruct (decrypt_in_place _) as [[b [s e]]| |]; cbn [res_bind]; try done.
      by destruct (extract_frame_range _) as [[[? ?] ?]| |].
    - intros _ _ Hnil. apply app_eq_nil in Hnil as [Hnil _]. by rewrite Hnil in H2. }
  pose proof (decrypt_in_place_wf view) as Hdec.
  destruct (decrypt_in_place view) as [[b [s e]]| |]; cbn [res_bind]; try done.
  pose proof (extract_frame_range_wf (zdrop s b)) as Hx.
  destruct (extract_frame_range _) as [[[sq st] en]| |]; cbn [res_bind]; try done. lia.
Qed.

Lemma decode_json_wf src scratch : step_wf src (decode_frame src scratch Json).
Proof.
  unfold decode_frame. destruct (memchr DELIMITER src) as [pos|] eqn:Hpos.
  2:{ destruct (_ <? _); (split; [by exists []|done]). }
  destruct (memchr_Some _ _ _ Hpos) as (line & rest & -> & -> & _).
  destruct (_ <? _); [by split; [exists []|]|].
  rewrite zdrop_app_exact, ztake_app_exact by done.
  change (zdrop 1 (DELIMITER :: rest)) with rest.
  assert (Hcut : forall r scr, r <> Ok None ->
    match r with
    | Ok (Some (InJsonScratch seq s e)) => 0 <= seq < u64_max /\ 0 <= s /\ s <= e /\ e <= zlen scr
    | Ok (Some (Owned seq _)) => 0 <= seq < u64_max
    | Panic => False
    | _ => True
    end -> step_wf (line ++ DELIMITER :: rest) (r, rest, scr)).
  { intros r scr Hr Hm. split; [|done]. exists (line ++ [DELIMITER]).
    rewrite <- app_assoc. split; [done|]. split; [done|].
    intros _ _ Hnil. by apply app_eq_nil in Hnil as []. }
  destruct (_ =? _); [by apply Hcut|].
  pose proof (parse_json_payload_into_total line scratch) as Hparse.
  destruct (parse_json_payload_into line scratch) as [[scr n]| |]; [|by apply Hcut|done].
  pose proof (decrypt_in_place_wf scr) as Hdec.
  destruct (decrypt_in_place scr) as [[b [s e]]| |]; [|by apply Hcut|done].
  pose proof (extract_frame_range_wf (slice s e b)) as Hx.
  destruct (extract_frame_range _) as [[[sq st] en]| |]; cbn [res_bind]; apply Hcut; try done.
  destruct Hdec as (? & ? & ? & ?). rewrite zlen_slice in Hx by lia. lia.
Qed.

(** The three facts the components above the codec use. *)
Lemma is_frame_decode enc seq data w rest scratch :
  is_frame enc seq data w ->
  exists frame scratch',
    decode_frame (w ++ rest) scratch enc = (Ok (Some frame), rest, scratch') /\
    fst (frame_data frame scratch') = (seq, data).
Proof. intros (pad & ct & -> & ? & ? & ? & ? & ?). by eapply decode_wire. Qed.

Lemma is_frame_prefix enc seq data w p q scratch :
  is_frame enc seq data w -> w = p ++ q -> q <> [] ->
  decode_frame p scratch enc = (Ok None, p, scratch).
Proof.
  intros (pad & ct & -> & ? & ? & Hl & Hct & ?) Hw Hq.
  eapply decode_prefix; [exact Hl| |exact Hw|exact Hq]. rewrite Hct. f_equal. lia.
Qed.

Lemma is_frame_len enc seq data w :
  is_frame enc seq data w -> 0 < zlen w <= max_encoded_frame_len enc.
Proof.
  intros (pad & ct & -> & ? & ? & Hl & Hct & ?). split.
  - destruct enc; unfold wire; [change json_open with (Byte.x7b :: drop 1 json_open)|];
      autorewrite with zlen; zl.
  - eapply zlen_wire; [exact Hl|]. rewrite Hct. f_equal. lia.
Qed.

Lemma decode_from_buffer_frame enc seq data w rest :
  is_frame enc seq data w -> decode_from_buffer (w ++ rest) enc = (Ok (Some (seq, data)), rest).
Proof.
  intros Hw. destruct (is_frame_decode enc seq data w rest [] Hw) as (frame & scr & Hd & Hdata).
  unfold decode_from_buffer. rewrite Hd. destruct (frame_data frame scr) as [[q d] o].
  cbn in Hdata. by simplify_eq.
Qed.

Lemma decode_from_buffer_prefix enc seq data w p q :
  is_frame enc seq data w -> w = p ++ q -> q <> [] -> decode_from_buffer p enc = (Ok None, p).
Proof.
  intros Hw Hpq Hq. unfold decode_from_buffer. by erewrite is_frame_prefix by done.
Qed.

Lemma encode_frame_is_frame nonce draw data seq thr range enc :
  zlen nonce = NONCE_LEN -> draw_ok draw -> 0 <= fst range <= snd range ->
  0 <= seq < u64_max -> zlen data <= frame_raw_limit enc ->
  exists w, encode_frame nonce draw data seq thr range enc = Ok w /\ is_frame enc seq data w.
Proof.
  intros Hn Hd Hr Hseq Hl.
  destruct (encode_frame_into_wire nonce draw data seq thr range enc [] Hn Hd Hr Hl)
    as (pad & ct & He & Hp & Hsum & _ & _ & Hct & Ho).
  exists (wire enc ct). split; [done|]. by exists pad, ct.
Qed.
End codec.

(** The data of a decoded frame, whatever the input. *)
Lemma decode_frame_short `{C : FrameCipher} `{B : Base122} src scratch enc frame src' scratch' :
  decode_frame src scratch enc = (Ok (Some frame), src', scratch') ->
  zlen (snd (fst (frame_data frame scratch'))) < u16_max.
Proof.
  destruct enc; cbn [decode_frame]; intros H.
  - destruct (memchr _ _); [|by destruct (_ <? _)]. destruct (_ <? _); [done|]. destruct (_ =? 0); [done|].
    destruct (parse_json_payload_into _ _) as [[scr n]|e|]; [|done..].
    destruct (decrypt_in_place scr) as [[scr' [a b]]|e|]; [|done..].
    destruct (extract_frame_range _) as [[[sq s] e]|e|] eqn:E; cbn in H; [|done..]. injection H as <- _ <-.
    apply extract_frame_range_short in E. cbn. apply slice_short; [lia|done].
  - destruct (_ <? _); [done|]. destruct (read_u16_be _); [|done..]. destruct (_ <? _); [done|]. destruct (_ <? _); [done|].
    injection H as H _ _. destruct (decrypt_in_place _) as [[view [off x]]|e|]; cbn [res_bind] in H; [|done..].
    destruct (extract_frame_range _) as [[[sq s] e]|e|] eqn:E; cbn in H; [|done..]. injection H as <-.
    apply extract_frame_range_short in E. cbn. apply slice_short; [lia|done].
Qed.

(** ** Properties of the codec *)

(** C37: in both encodings, decoding an encoded frame at the head of the input
    gives its sequence number and its data back (whatever padding was drawn),
    consumes exactly the frame's bytes and leaves what follows; the frame is no
    longer than the receiver's buffer bound [max_encoded_frame_len]. *)
Theorem frame_roundtrip `{C : FrameCipher} (L : FrameCipherLaws C)
    `{B : Base122} (BL : Base122Laws B) nonce draw data seq thr range enc rest :
  zlen nonce = NONCE_LEN -> draw_ok draw -> 0 <= fst range <= snd range ->
  0 <= seq < u64_max -> zlen data <= frame_raw_limit enc ->
  exists frame, encode_frame nonce draw data seq thr range enc = Ok frame /\
    decode_from_buffer (frame ++ rest) enc = (Ok (Some (seq, data)), rest) /\
    zlen frame <= max_encoded_frame_len enc.
Proof.
  intros Hn Hd Hr Hseq Hl.
  destruct (encode_frame_is_frame nonce draw data seq thr range enc Hn Hd Hr Hseq Hl) as (w & He & Hw).
  exists w. split; [done|]. split; [by apply decode_from_buffer_frame|]. by apply is_frame_len in Hw as [_ ?].
Qed.

(** A strict prefix of an encoded frame, of any length and in both
    encodings, is reported as incomplete and left in the buffer, so no frame is
    lost or misread when the transport cuts it. *)
Theorem frame_prefix_incomplete `{C : FrameCipher} (L : FrameCipherLaws C)
    `{B : Base122} (BL : Base122Laws B) nonce draw data seq thr range enc frame p q :
  zlen nonce = NONCE_LEN -> draw_ok draw -> 0 <= fst range <= snd range ->
  encode_frame nonce draw data seq thr range enc = Ok frame ->
  frame = p ++ q -> q <> [] ->
  decode_from_buffer p enc = (Ok None, p).
Proof.
  intros Hn Hd Hr Henc Hpq Hq. unfold encode_frame in Henc.
  destruct (decide (zlen data <= frame_raw_limit enc)) as [Hl|Hl].
  - destruct (encode_frame_into_wire nonce draw data seq thr range enc [] Hn Hd Hr Hl)
      as (pad & ct & He & Hp & Hsum & _ & _ & Hct & Ho).
    rewrite He in Henc. simplify_eq. unfold decode_from_buffer.
    rewrite (decode_prefix enc ct (zlen data + pad) p q [] Hsum) by (done || by rewrite Hct; f_equal; lia).
    done.
  - unfold encode_frame_into in Henc. destruct (Z.ltb_spec (frame_raw_limit enc) (zlen data)); [done|lia].
Qed.

(** Data above the encoding's limit is refused with [InvalidInput] and
    nothing is written, whatever the padding rule. *)
Theorem frame_oversize `{C : FrameCipher} `{B : Base122}
    nonce draw data seq thr range enc out :
  frame_raw_limit enc < zlen data ->
  encode_frame_into nonce draw data seq thr range enc out
    = Err (mkIoError InvalidInput "frame payload too large").
Proof.
  intros Hl. unfold encode_frame_into. by destruct (Z.ltb_spec (frame_raw_limit enc) (zlen data)); [|lia].
Qed.

(** C39: decoding is total on hostile input: whatever bytes and scratch contents
    it is given it does not panic; it only removes a prefix of the input; it
    removes nothing when it asks for more bytes and at least one byte when it
    yields a frame; and a frame's range lies inside the scratch buffer, with a
    64-bit sequence number. *)
Theorem decode_frame_total `{C : FrameCipher} (L : FrameCipherLaws C)
    `{B : Base122} (BL : Base122Laws B) src scratch enc :
  let '(res, src', scratch') := decode_frame src scratch enc in
  (exists eaten : bytes, src = eaten ++ src' /\
    (res = Ok None -> eaten = []) /\ (forall f, res = Ok (Some f) -> eaten <> [])) /\
  match res with
  | Ok (Some (InJsonScratch seq s e)) => 0 <= seq < u64_max /\ 0 <= s /\ s <= e /\ e <= zlen scratch'
  | Ok (Some (Owned seq _)) => 0 <= seq < u64_max
  | Panic => False
  | _ => True
  end.
Proof.
  pose proof (match enc return step_wf src (decode_frame src scratch enc) with
    | Json => decode_json_wf src scratch | Binary => decode_binary_wf src scratch end) as H.
  by destruct (decode_frame src scratch enc) as [[r s'] scr].
Qed.

(** ** A concrete text encoder *)

(** Seven bytes become eight: a byte with their top bits, then the seven with
    the top bit set. *)
Module Toy122.
Definition hi (b : byte) : bool := 128 <=? bz b.
Definition lo (b : byte) : byte := zb (128 + bz b mod 128).
Definition join (h : bool) (l : byte) : byte := if h then l else zb (bz l - 128).
Definition hdr (bs : list bool) : byte :=
  zb (128 + foldr (fun (b : bool) acc => (if b then 1 else 0) + 2 * acc) 0 bs).
Definition bits (h : byte) : list bool :=
  map (Z.testbit (bz h)) [0; 1; 2; 3; 4; 5; 6].

Fixpoint enc (fuel : nat) (l : bytes) : bytes :=
  match fuel, l with
  | S fuel, _ :: _ =>
      (hdr (map hi (take 7 l)) :: map lo (take 7 l)) ++ enc fuel (drop 7 l)
  | _, _ => []
  end.

Fixpoint dec (fuel : nat) (l : bytes) : bytes :=
  match fuel, l with
  | S fuel, h :: r => zip_with join (bits h) (take 7 r) ++ dec fuel (drop 7 r)
  | _, _ => []
  end.

Lemma join_lo b : join (hi b) (lo b) = b.
Proof. by destruct b. Qed.

Lemma lo_clean b : lo b <> Byte.x0a /\ lo b <> Byte.x22.
Proof. by destruct b. Qed.

Lemma hdr_clean bs : (length bs <= 7)%nat -> hdr bs <> Byte.x0a /\ hdr bs <> Byte.x22.
Proof.
  intros Hl. do 8 (destruct bs as [|[] bs]; [by vm_compute| |]; try (simpl in Hl; lia)).
Qed.

Lemma bits_hdr bs : (length bs <= 7)%nat -> exists r, bits (hdr bs) = bs ++ r.
Proof.
  intros Hl. exists (drop (length bs) (bits (hdr bs))).
  do 8 (destruct bs as [|[] bs]; [by vm_compute| |]; try (simpl in Hl; lia)).
Qed.

Lemma zip_join l r : zip_with join (map hi l ++ r) (map lo l) = l.
Proof. induction l; simpl; [by destruct r|]. by rewrite IHl, join_lo. Qed.

Lemma length_take7 (l : bytes) : (length (map hi (take 7 l)) <= 7)%nat.
Proof. rewrite length_map, length_take. lia. Qed.

Lemma enc_clean fuel l b : b ∈ enc fuel l -> b <> Byte.x0a /\ b <> Byte.x22.
Proof.
  revert l. induction fuel as [|fuel IH]; intros l; [by intros ?%elem_of_nil|].
  destruct l as [|x l]; [by intros ?%elem_of_nil|]. cbn [enc]. set (k := x :: l).
  cbn [app]. rewrite elem_of_cons, elem_of_app. intros [->|[Hin|Hin]].
  - apply hdr_clean, length_take7.
  - apply list_elem_of_fmap in Hin as (y & -> & _). apply lo_clean.
  - by apply (IH _ Hin).
Qed.

Lemma enc_len fuel l : zlen (enc fuel l) <= (8 * zlen l + 6) / 7.
Proof.
  revert l. induction fuel as [|fuel IH]; intros l.
  { apply Z.div_pos; simpl; zl. }
  destruct l as [|x l]; [by vm_compute|]. cbn [enc]. set (k := x :: l). cbn [app].
  specialize (IH (drop 7 k)). apply Z.div_le_lower_bound; [lia|].
  pose proof (Z.mul_div_le (8 * zlen (drop 7 k) + 6) 7 ltac:(lia)).
  assert (0 < zlen k) by (subst k; zl).
  rewrite zlen_cons, zlen_app. unfold zlen in *.
  rewrite length_map, length_take. rewrite length_drop in *. lia.
Qed.

Lemma dec_enc f l f' : (length l <= f)%nat -> (length l <= f')%nat -> dec f' (enc f l) = l.
Proof.
  revert l f'. induction f as [|f IH]; intros l f' Hf Hf'.
  - by destruct l; [destruct f'|simpl in Hf; lia].
  - destruct l as [|x l]; [by destruct f'|]. destruct f' as [|f']; [simpl in Hf'; lia|].
    cbn [enc]. set (k := x :: l) in *. cbn [app dec].
    destruct (bits_hdr _ (length_take7 k)) as [r ->].
    assert (Hk : (length (drop 7 k) < length k)%nat) by (rewrite length_drop; subst k; simpl; lia).
    destruct (decide (7 <= length k)%nat) as [H7|H7].
    + assert (Hl : length (map lo (take 7 k)) = 7%nat) by (rewrite length_map, length_take; lia).
      rewrite take_app_length', drop_app_length' by done.
      rewrite zip_join, IH by lia. apply take_drop.
    + rewrite (drop_ge k) in * by lia. replace (enc f []) with (@nil byte) by (by destruct f).
      rewrite app_nil_r, (take_ge k), take_ge, drop_ge by (try rewrite length_map; lia).
      rewrite zip_join. replace (dec f' []) with (@nil byte) by (by destruct f').
      apply app_nil_r.
Qed.

Lemma enc_grows f l : (length l <= f)%nat -> (length l <= length (enc f l))%nat.
Proof.
  revert l. induction f as [|f IH]; intros l Hf; [simpl; lia|].
  destruct l as [|x l]; [simpl; lia|]. cbn [enc]. set (k := x :: l) in *.
  assert (Hk : (length (drop 7 k) <= f)%nat) by (rewrite length_drop; subst k; simpl in *; lia).
  specialize (IH _ Hk). cbn [app length]. rewrite length_app, length_map, length_take.
  rewrite length_drop in *. lia.
Qed.
End Toy122.

#[export] Instance toy_base122 : Base122 := {|
  encode_into d _ := Toy122.enc (length d) d;
  decode_into_bytes t _ := let d := Toy122.dec (length t) t in Ok (d, zlen d)
|}.

#[export] Instance toy_base122_laws : Base122Laws toy_base122.
Proof.
  split; cbn; try done.
  - intros d _ _. rewrite Toy122.dec_enc; [done..|].
    by apply Toy122.enc_grows.
  - intros d _ b. apply Toy122.enc_clean.
  - intros d _. pose proof (Toy122.enc_len (length d) d). lia.
Qed.

Definition toy_draw (lo hi : Z) : Z := hi.

Lemma toy_draw_ok : draw_ok toy_draw.
Proof. unfold draw_ok, toy_draw. lia. Qed.

Lemma frame_roundtrip_witness :
  exists frame, encode_frame toy_nonce toy_draw (str "hello") 7 100 (3, 9) Json = Ok frame /\
    decode_from_buffer (frame ++ str "next") Json = (Ok (Some (7, str "hello")), str "next") /\
    zlen frame <= max_encoded_frame_len Json.
Proof.
  apply (frame_roundtrip (aes_frame_cipher_laws toy_aes) toy_base122_laws toy_nonce toy_draw
    (str "hello") 7 100 (3, 9) Json (str "next")); try (vm_compute; intuition congruence).
  apply toy_draw_ok.
Defined.

Lemma frame_prefix_incomplete_witness :
  decode_from_buffer [Byte.x00] Binary = (Ok None, [Byte.x00]).
Proof.
  apply (frame_prefix_incomplete (aes_frame_cipher_laws toy_aes) toy_base122_laws toy_nonce toy_draw
    (str "hi") 0 0 (0, 0) Binary
    (from_option id [] (match encode_frame toy_nonce toy_draw (str "hi") 0 0 (0, 0) Binary with
      | Ok f => Some f | _ => None end))
    [Byte.x00]
    (zdrop 1 (from_option id [] (match encode_frame toy_nonce toy_draw (str "hi") 0 0 (0, 0) Binary with
      | Ok f => Some f | _ => None end)))); try (vm_compute; intuition congruence).
  apply toy_draw_ok.
Defined.

Lemma frame_oversize_witness :
  encode_frame_into toy_nonce toy_draw (zrep 16385 Byte.x41) 0 0 (0, 0) Binary []
    = Err (mkIoError InvalidInput "frame payload too large").
Proof. apply (frame_oversize toy_nonce toy_draw). vm_compute. reflexivity. Defined.

(** A frame whose payload is padded with zeros, and hostile input. *)
Example decode_garbage_json : fst (fst (decode_frame (str "{}" ++ [Byte.x0a]) [] Json))
  = Err (err_data "missing 'data' field").
Proof. reflexivity. Qed.

Example decode_frame_total_witness :
  let '(res, src', scratch') := decode_frame (str "ab") [] Binary in
  exists eaten : bytes, str "ab" = eaten ++ src'.
Proof.
  pose proof (decode_frame_total (aes_frame_cipher_laws toy_aes) toy_base122_laws (str "ab") [] Binary) as H.
  destruct (decode_frame (str "ab") [] Binary) as [[r s] sc].
  destruct H as [[eaten [H _]] _]. exists eaten. exact H.
Defined.
