(* ===== verification/Shaper.v ===== *)
(** * The traffic shaper

    [TrafficShaper] of [src/shaper/mod.rs]: it reads a byte stream, cuts it
    into frames of at most [seal_threshold] bytes, flushes a short remainder
    after a jittered delay, pads by the configured stage and seals each frame
    under the next sequence number. The reader is a script of poll results;
    the nonce, the padding draw, the clock and the timer of one poll are its
    [PollEnv]. *)

From Stdlib Require Import Sorting.Sorted.
From S2P Require Import Prelude Cipher Frame.

Definition READ_HIGH_WATER : Z := 32 * 1024.
Definition TABLE_SIZE : Z := 8192.
Definition TABLE_MASK : Z := TABLE_SIZE - 1.

(** ** Configuration *)

Record PaddingConfig : Type := mkPadding {
  padding_threshold : Z;
  padding_range : Z * Z
}.

Record StageConfig : Type := mkStageConfig {
  count : option Z;
  count_range : option (Z * Z);
  stage_padding_threshold : Z;
  stage_padding_range : Z * Z
}.

Record TrafficConfig : Type := mkTraffic {
  global : PaddingConfig;
  stage_configs : list StageConfig;
  encoding_type : EncodingType;
  max_download_bytes : option Z
}.

(** The error names the section and, for a stage, its index. *)
Inductive ConfigError : Type :=
| GlobalRange (low high : Z)
| StageRange (i low high : Z).

Fixpoint validate_stages (i : Z) (stages : list StageConfig) : Res ConfigError unit :=
  match stages with
  | [] => Ok tt
  | stage :: stages =>
      let '(lo, hi) := stage_padding_range stage in
      if hi <? lo then Err (StageRange i lo hi) else validate_stages (i + 1) stages
  end.

Definition validate (config : TrafficConfig) : Res ConfigError unit :=
  let '(lo, hi) := padding_range (global config) in
  if hi <? lo then Err (GlobalRange lo hi) else validate_stages 0 (stage_configs config).

Record ResolvedStage : Type := mkStage {
  end_count : Z;
  rs_threshold : Z;
  rs_range : Z * Z
}.

Record ResolvedShaperConfig : Type := mkResolved {
  cfg_stages : list ResolvedStage;
  cfg_global_threshold : Z;
  cfg_global_range : Z * Z;
  cfg_encoding : EncodingType
}.

Fixpoint insert_by_key (s : ResolvedStage) (l : list ResolvedStage) : list ResolvedStage :=
  match l with
  | [] => [s]
  | t :: l => if end_count s <=? end_count t then s :: t :: l else t :: insert_by_key s l
  end.

(** [sort_unstable_by_key]; the model keeps equal keys in order, about which
    the code promises nothing. *)
Definition sort_by_end_count (l : list ResolvedStage) : list ResolvedStage :=
  foldr insert_by_key [] l.

Definition resolve_stage (s : StageConfig) : ResolvedStage := {|
  end_count := default 0 (match count s with
                          | Some n => Some n
                          | None => option_map snd (count_range s)
                          end);
  rs_threshold := stage_padding_threshold s;
  rs_range := stage_padding_range s
|}.

Definition resolve (config : TrafficConfig) : ResolvedShaperConfig := {|
  cfg_stages := sort_by_end_count (map resolve_stage (stage_configs config));
  cfg_global_threshold := padding_threshold (global config);
  cfg_global_range := padding_range (global config);
  cfg_encoding := encoding_type config
|}.

(** ** The reader and one poll's surroundings *)

Inductive Poll (A : Type) : Type := Ready (a : A) | Pending.
Arguments Ready {A} a.
Arguments Pending {A}.

(** What the reader answers to successive [poll_read] calls; [RdData []] is
    the end of the stream, an exhausted script is pending for ever. *)
Inductive ReadEvent : Type :=
| RdData (d : bytes)
| RdPending
| RdError (e : IoError).

(** [poll_read] into [limit] bytes; what does not fit stays with the reader. *)
Definition poll_read (limit : Z) (reader : list ReadEvent)
    : Poll (Res IoError bytes) * list ReadEvent :=
  match reader with
  | RdData d :: rest =>
      if zlen d <=? limit then (Ready (Ok d), match d with [] => reader | _ => rest end)
      else (Ready (Ok (ztake limit d)), RdData (zdrop limit d) :: rest)
  | RdPending :: rest => (Pending, rest)
  | RdError e :: rest => (Ready (Err e), rest)
  | [] => (Pending, [])
  end.

Record PollEnv : Type := mkEnv {
  env_nonce : bytes;
  env_draw : Z -> Z -> Z;
  env_now : Z;
  env_elapsed : Z -> bool  (* whether a timer set to this deadline is ready *)
}.

(** ** State *)

Record TrafficShaper : Type := mkShaper {
  reader : list ReadEvent;
  raw_buf : bytes;
  flush_timer : Z;
  timer_armed : bool;
  cursor : Z;
  stages : list ResolvedStage;
  global_threshold : Z;
  global_range : Z * Z;
  packet_count : Z;
  stage_idx : Z;
  encoding : EncodingType;
  seal_threshold : Z;
  frame_capacity : Z;
  seq : Z
}.

Definition seal_threshold_of (enc : EncodingType) : Z :=
  match enc with
  | Binary => MAX_RAW_PAYLOAD - (NONCE_LEN + TAG_LEN + HEADER_LEN + 2)
  | Json => JSON_PAYLOAD_CAP
  end.

(** [rng_word] is the random word that places the jitter cursor. *)
Definition with_seq (rd : list ReadEvent) (config : ResolvedShaperConfig)
    (start_seq now rng_word : Z) : TrafficShaper := {|
  reader := rd;
  raw_buf := [];
  flush_timer := now;
  timer_armed := false;
  cursor := Z.land rng_word TABLE_MASK;
  stages := cfg_stages config;
  global_threshold := cfg_global_threshold config;
  global_range := cfg_global_range config;
  packet_count := 0;
  stage_idx := 0;
  encoding := cfg_encoding config;
  seal_threshold := seal_threshold_of (cfg_encoding config);
  frame_capacity := max_encoded_frame_len (cfg_encoding config);
  seq := start_seq
|}.

Definition set_io (this : TrafficShaper) (rd : list ReadEvent) (raw : bytes) : TrafficShaper :=
  mkShaper rd raw (flush_timer this) (timer_armed this) (cursor this) (stages this)
    (global_threshold this) (global_range this) (packet_count this) (stage_idx this)
    (encoding this) (seal_threshold this) (frame_capacity this) (seq this).

Definition set_timer (this : TrafficShaper) (deadline : Z) (armed : bool) (cur : Z) : TrafficShaper :=
  mkShaper (reader this) (raw_buf this) deadline armed cur (stages this)
    (global_threshold this) (global_range this) (packet_count this) (stage_idx this)
    (encoding this) (seal_threshold this) (frame_capacity this) (seq this).

Definition set_counts (this : TrafficShaper) (pc si : Z) : TrafficShaper :=
  mkShaper (reader this) (raw_buf this) (flush_timer this) (timer_armed this) (cursor this)
    (stages this) (global_threshold this) (global_range this) pc si
    (encoding this) (seal_threshold this) (frame_capacity this) (seq this).

Definition set_seq (this : TrafficShaper) (sq : Z) : TrafficShaper :=
  mkShaper (reader this) (raw_buf this) (flush_timer this) (timer_armed this) (cursor this)
    (stages this) (global_threshold this) (global_range this) (packet_count this) (stage_idx this)
    (encoding this) (seal_threshold this) (frame_capacity this) sq.

(** ** Operations *)

(** The [while] loop over the stages from index [si]; [rest] is [stages[si..]]. *)
Fixpoint advance_stage (rest : list ResolvedStage) (si pc : Z) : Z :=
  match rest with
  | s :: rest => if end_count s <? pc then advance_stage rest (si + 1) pc else si
  | [] => si
  end.

Definition resolve_padding (draw : Z -> Z -> Z) (this : TrafficShaper) (raw_len : Z)
    : Res IoError (Z * Z) * TrafficShaper :=
  let pc := as_u64 (packet_count this + 1) in
  let si := advance_stage (zdrop (stage_idx this) (stages this)) (stage_idx this) pc in
  let this := set_counts this pc si in
  let '(threshold, range) :=
    match znth (stages this) si with
    | Some s => (rs_threshold s, rs_range s)
    | None => (global_threshold this, global_range this)
    end in
  ((let? padding_len :=
      if raw_len <? threshold then
        let max_pad := seal_threshold this - raw_len in
        let? wanted := random_range draw (fst range) (snd range) in
        Ok (Z.min wanted max_pad)
      else Ok 0 in
    Ok (HEADER_LEN + raw_len + padding_len, padding_len)), this).

Section shaper.
Context `{C : FrameCipher} `{B : Base122}.
Context (jitter_table : Z -> Z).

(** The sequence number and [out] on success; on an error the callers drop
    [out]. *)
Definition seal_into (env : PollEnv) (this : TrafficShaper) (out : bytes)
    : Res IoError (Z * bytes) * TrafficShaper :=
  let raw_len := Z.min (zlen (raw_buf this)) (seal_threshold this) in
  let this := set_timer this (flush_timer this) false (cursor this) in
  let sq := seq this in
  let this := set_seq this (as_u64 (sq + 1)) in
  let '(padded, this) := resolve_padding (env_draw env) this raw_len in
  let sealed :=
    let? (payload_len, padding_len) := padded in
    let chunk := ztake raw_len (raw_buf this) in
    match encoding this with
    | Binary =>
        let enc_len := NONCE_LEN + payload_len + TAG_LEN in
        let out := out ++ be_bytes 2 (as_u16 enc_len) in
        let nonce_start := zlen out in
        let out := out ++ zrep NONCE_LEN Byte.x00 in
        let ct_start := zlen out in
        let out := out ++ be_bytes 8 sq in
        let out := out ++ be_bytes 2 (as_u16 raw_len) in
        let out := out ++ chunk in
        let out := if 0 <? padding_len then out ++ zrep padding_len Byte.x00 else out in
        seal_in_place (env_nonce env) out nonce_start ct_start
    | Json =>
        let enc_buf := zrep NONCE_LEN Byte.x00 in
        let enc_buf := enc_buf ++ be_bytes 8 sq in
        let enc_buf := enc_buf ++ be_bytes 2 (as_u16 raw_len) in
        let enc_buf := enc_buf ++ chunk in
        let enc_buf := if 0 <? padding_len then enc_buf ++ zrep padding_len Byte.x00 else enc_buf in
        let? enc_buf := seal_in_place (env_nonce env) enc_buf 0 NONCE_LEN in
        let json_buf := encode_into enc_buf [] in
        Ok (out ++ json_open ++ json_buf ++ json_close ++ [Byte.x0a])
    end in
  match sealed with
  | Ok out => (Ok (sq, out), set_io this (reader this) (zdrop raw_len (raw_buf this)))
  | Err e => (Err e, this)
  | Panic => (Panic, this)
  end.

(** A finished poll: [Some (seq, out)] for a frame, [None] at the end. *)
Definition sealed_poll (r : Res IoError (Z * bytes) * TrafficShaper)
    : Poll (Res IoError (option (Z * bytes))) * TrafficShaper :=
  (Ready (let? x := fst r in Ok (Some x)), snd r).

(** [None] only when [fuel] runs out. *)
Fixpoint fill_and_seal_loop (fuel : nat) (env : PollEnv) (this : TrafficShaper) (out : bytes)
    : option (Poll (Res IoError (option (Z * bytes))) * TrafficShaper) :=
  match fuel with
  | O => None
  | S fuel =>
      if seal_threshold this <=? zlen (raw_buf this)
      then Some (sealed_poll (seal_into env this out))
      else
        let remaining := READ_HIGH_WATER - zlen (raw_buf this) in
        match poll_read remaining (reader this) with
        | (Ready (Ok d), rd) =>
            if zlen d =? 0 then
              let this := set_io this rd (raw_buf this) in
              if zlen (raw_buf this) =? 0 then Some (Ready (Ok None), this)
              else Some (sealed_poll (seal_into env this out))
            else fill_and_seal_loop fuel env (set_io this rd (raw_buf this ++ d)) out
        | (Pending, rd) =>
            let this := set_io this rd (raw_buf this) in
            let raw_len := zlen (raw_buf this) in
            if raw_len =? 0 then Some (Pending, this)
            else if seal_threshold this <=? raw_len
            then Some (sealed_poll (seal_into env this out))
            else
              let this :=
                if negb (timer_armed this) then
                  let idx := cursor this in
                  set_timer this (env_now env + jitter_table idx) true
                    (Z.land (idx + 1) TABLE_MASK)
                else this in
              if env_elapsed env (flush_timer this)
              then Some (sealed_poll (seal_into env this out))
              else Some (Pending, this)
        | (Ready (Err e), rd) => Some (Ready (Err e), set_io this rd (raw_buf this))
        | (Ready Panic, rd) => Some (Ready Panic, set_io this rd (raw_buf this))
        end
  end.

(** Every round but the last reads at least one byte. *)
Definition poll_fuel : nat := S (Z.to_nat MAX_RAW_PAYLOAD).

Definition poll_fill_and_seal (env : PollEnv) (this : TrafficShaper) (out : bytes)
    : option (Poll (Res IoError (option (Z * bytes))) * TrafficShaper) :=
  fill_and_seal_loop poll_fuel env this out.

(** [poll_next]: the same with a fresh buffer per frame. *)
Definition poll_next (env : PollEnv) (this : TrafficShaper)
    : option (Poll (Res IoError (option (Z * bytes))) * TrafficShaper) :=
  poll_fill_and_seal env this [].

(** Polling once per environment, as long as the stream neither ends nor
    fails; the frames' sequence numbers and the concatenated output. *)
Fixpoint run_shaper (envs : list PollEnv) (this : TrafficShaper) (out : bytes)
    : option (list Z * bytes * bool * TrafficShaper) :=
  match envs with
  | [] => Some ([], out, false, this)
  | env :: envs =>
      match poll_fill_and_seal env this out with
      | Some (Ready (Ok (Some (sq, out))), this) =>
          match run_shaper envs this out with
          | Some (sqs, out, ended, this) => Some (sq :: sqs, out, ended, this)
          | None => None
          end
      | Some (Ready (Ok None), this) => Some ([], out, true, this)
      | Some (Pending, this) => run_shaper envs this out
      | Some (Ready _, this) => Some ([], out, false, this)
      | None => None
      end
  end.
End shaper.

(** ** Specification *)

(** The padding rule of the [n]-th packet: the first stage that reaches it,
    else the global one. *)
Definition stage_rule (sts : list ResolvedStage) (glob : Z * (Z * Z)) (n : Z) : Z * (Z * Z) :=
  match list_find (fun s => n <= end_count s) sts with
  | Some (_, s) => (rs_threshold s, rs_range s)
  | None => glob
  end.

Definition reference_padding (rule : Z * (Z * Z)) (limit : Z) (draw : Z -> Z -> Z) (raw_len : Z)
    : Res IoError (Z * Z) :=
  let? pad := resolve_frame_padding draw raw_len (fst rule) (snd rule) limit in
  Ok (HEADER_LEN + raw_len + pad, pad).

(** Successive calls of [resolve_padding]. *)
Fixpoint run_padding (this : TrafficShaper) (calls : list ((Z -> Z -> Z) * Z))
    : list (Res IoError (Z * Z)) :=
  match calls with
  | [] => []
  | (draw, raw_len) :: calls =>
      let '(r, this) := resolve_padding draw this raw_len in r :: run_padding this calls
  end.

(** What the reader still has to deliver before its end of stream. *)
Fixpoint input (rd : list ReadEvent) : bytes :=
  match rd with
  | RdData [] :: _ => []
  | RdData d :: rd => d ++ input rd
  | _ :: rd => input rd
  | [] => []
  end.

Definition range_ok (r : Z * Z) : Prop := 0 <= fst r <= snd r.

Record shaper_wf (this : TrafficShaper) : Prop := {
  wf_raw : zlen (raw_buf this) <= READ_HIGH_WATER;
  wf_threshold : seal_threshold this = seal_threshold_of (encoding this);
  wf_stages : Forall (fun s => range_ok (rs_range s)) (stages this);
  wf_global : range_ok (global_range this);
  wf_seq : 0 <= seq this < u64_max
}.

Definition env_ok (env : PollEnv) : Prop :=
  zlen (env_nonce env) = NONCE_LEN /\ draw_ok (env_draw env).

(** The fields a poll never changes. *)
Definition same_config (a b : TrafficShaper) : Prop :=
  stages a = stages b /\ global_threshold a = global_threshold b /\
  global_range a = global_range b /\ encoding a = encoding b /\
  seal_threshold a = seal_threshold b /\ frame_capacity a = frame_capacity b.

(** The bytes a shaper holds or can still read. *)
Definition backlog (this : TrafficShaper) : bytes := raw_buf this ++ input (reader this).

(** ** Lemmas *)

Lemma poll_read_input limit rd :
  0 < limit ->
  match poll_read limit rd with
  | (Ready (Ok d), rd') => zlen d <= limit /\ input rd = d ++ input rd' /\ (d = [] -> input rd = [])
  | (Ready Panic, _) => False
  | (_, rd') => input rd' = input rd
  end.
Proof.
  intros Hl. destruct rd as [|[d| |e] rd]; simpl; try done.
  destruct (Z.leb_spec (zlen d) limit) as [Hd|Hd].
  - by destruct d.
  - split; [zl|]. assert (Hz : zdrop limit d <> []).
    { intros Hz. apply (f_equal zlen) in Hz. zl. }
    destruct d as [|x d]; [simpl in *; zl|]. cbn [input].
    destruct (zdrop limit (x :: d)) as [|y k] eqn:E; [done|]. cbn [input].
    rewrite app_assoc, <- E, ztake_zdrop. split; [done|].
    intros Hn. apply (f_equal zlen) in Hn. zl.
Qed.

Lemma same_config_refl a : same_config a a.
Proof. done. Qed.

Lemma seal_threshold_limit enc : 0 < seal_threshold_of enc <= frame_raw_limit enc.
Proof. destruct enc; vm_compute; split; congruence. Qed.

Lemma advance_stage_ge rest si pc : si <= advance_stage rest si pc <= si + zlen rest.
Proof.
  revert si. induction rest as [|s rest IH]; intros si; simpl; [zl|].
  specialize (IH (si + 1)). rewrite zlen_cons. pose proof (zlen_nonneg rest).
  destruct (_ <? _); lia.
Qed.

(** The cursor scan from any index is the search for the first stage there. *)
Lemma advance_stage_find pre rest pc glob :
  match znth (pre ++ rest) (advance_stage rest (zlen pre) pc) with
  | Some s => (rs_threshold s, rs_range s)
  | None => glob
  end = stage_rule rest glob pc.
Proof.
  revert pre. induction rest as [|s rest IH]; intros pre; unfold stage_rule; cbn [advance_stage list_find].
  - unfold znth. rewrite decide_True by apply zlen_nonneg.
    rewrite lookup_ge_None_2; [done|]. rewrite app_nil_r. unfold zlen. lia.
  - destruct (Z.ltb_spec (end_count s) pc).
    + rewrite decide_False by lia. specialize (IH (pre ++ [s])).
      rewrite <- app_assoc, zlen_app in IH. cbn [app] in IH. change (zlen [s]) with 1 in IH.
      rewrite IH. unfold stage_rule. by destruct (list_find _ rest) as [[? ?]|].
    + rewrite decide_True by lia. unfold znth. rewrite decide_True by apply zlen_nonneg.
      unfold zlen. by rewrite Nat2Z.id, list_lookup_middle.
Qed.

Lemma advance_stage_skipped pre rest pc :
  Forall (fun s => end_count s < pc) pre ->
  exists pre' rest', pre ++ rest = pre' ++ rest' /\
    advance_stage rest (zlen pre) pc = zlen pre' /\ Forall (fun s => end_count s < pc) pre'.
Proof.
  revert pre. induction rest as [|s rest IH]; intros pre Hpre; simpl.
  - by exists pre, [].
  - destruct (Z.ltb_spec (end_count s) pc); [|by exists pre, (s :: rest)].
    destruct (IH (pre ++ [s])) as (pre' & rest' & He & Ha & Hf).
    { apply Forall_app. split; [done|by constructor]. }
    exists pre', rest'. rewrite <- He, <- Ha, <- app_assoc, zlen_app. done.
Qed.

Lemma stage_rule_skip pre rest glob pc :
  Forall (fun s => end_count s < pc) pre -> stage_rule (pre ++ rest) glob pc = stage_rule rest glob pc.
Proof.
  induction 1 as [|s pre Hs _ IH]; [done|]. unfold stage_rule in *. cbn [app list_find].
  rewrite decide_False by lia. rewrite <- IH. by destruct (list_find _ (pre ++ rest)) as [[? ?]|].
Qed.

(** The stage cursor: every stage before it ended at or before the last packet. *)
Definition stage_inv (this : TrafficShaper) : Prop :=
  0 <= packet_count this /\
  exists pre rest, stages this = pre ++ rest /\ stage_idx this = zlen pre /\
    Forall (fun s => end_count s < packet_count this) pre.

Lemma resolve_padding_step draw this raw_len :
  stage_inv this -> packet_count this + 1 < u64_max ->
  exists si, let this' := set_counts this (packet_count this + 1) si in
    resolve_padding draw this raw_len =
      (reference_padding (stage_rule (stages this) (global_threshold this, global_range this)
                            (packet_count this + 1)) (seal_threshold this) draw raw_len, this') /\
    stage_inv this'.
Proof.
  intros (Hpc & pre & rest & Hst & Hsi & Hpre) Hmax.
  unfold resolve_padding. rewrite as_u64_small by lia.
  rewrite Hst, Hsi, zdrop_app_exact by done.
  assert (Hpre' : Forall (fun s => end_count s < packet_count this + 1) pre).
  { eapply Forall_impl; [exact Hpre|]. simpl. lia. }
  set (pc := packet_count this + 1) in *.
  exists (advance_stage rest (zlen pre) pc). split.
  - cbn [set_counts stages global_threshold global_range seal_threshold].
    rewrite Hst, advance_stage_find, stage_rule_skip by done.
    destruct (stage_rule rest _ pc) as [thr range]. unfold reference_padding, resolve_frame_padding.
    done.
  - split; [cbn; lia|]. destruct (advance_stage_skipped pre rest pc Hpre') as (pre' & rest' & He & Ha & Hf).
    exists pre', rest'. cbn. by rewrite Hst, He.
Qed.

Lemma resolve_padding_ok draw this raw_len :
  draw_ok draw -> shaper_wf this -> 0 <= raw_len <= seal_threshold this ->
  exists pad pc si,
    resolve_padding draw this raw_len = (Ok (HEADER_LEN + raw_len + pad, pad), set_counts this pc si) /\
    0 <= pad /\ raw_len + pad <= seal_threshold this.
Proof.
  intros Hd Hwf Hl. unfold resolve_padding.
  set (pc := as_u64 _). set (si := advance_stage _ _ _).
  set (rule := match znth _ si with Some s => _ | None => _ end).
  assert (Hr : range_ok (snd rule)).
  { unfold rule, znth. cbn. destruct (decide (0 <= si)); [|apply (wf_global _ Hwf)].
    destruct (stages this !! Z.to_nat si) eqn:E; [|apply (wf_global _ Hwf)].
    apply (Forall_lookup_1 _ _ _ _ (wf_stages _ Hwf) E). }
  destruct rule as [thr range]. cbn in Hr.
  destruct (resolve_frame_padding_ok draw raw_len thr range (seal_threshold this) Hd Hr ltac:(lia))
    as (pad & Hpad & Hp & Hsum & _).
  unfold resolve_frame_padding in Hpad. cbn [set_counts seal_threshold].
  exists pad, pc, si. by rewrite Hpad.
Qed.

(** Rewrite the sealing call of the goal with [Hs], up to conversion. *)
Ltac use_sealed Hs :=
  match goal with |- context [seal_in_place ?a ?b ?c ?d] =>
    let H := fresh in
    eassert (H : seal_in_place a b c d = _) by exact Hs; rewrite H; clear H; done
  end.

Section shaper_proofs.
Context `{C : FrameCipher} {L : FrameCipherLaws C} `{B : Base122} {BL : Base122Laws B}.
Context (jitter_table : Z -> Z).

(** The payload of a JSON frame, sealed in a buffer of its own. *)
Lemma seal_frame_json nonce sq data pad :
  zlen nonce = NONCE_LEN -> 0 <= pad -> zlen data + pad <= MAX_RAW_PAYLOAD ->
  exists ct, seal_in_place nonce (zrep NONCE_LEN Byte.x00 ++ frame_payload sq data pad) 0 NONCE_LEN = Ok ct /\
    zlen ct = sealed_len (HEADER_LEN + zlen data + pad) /\ opens ct (frame_payload sq data pad).
Proof.
  intros Hn Hp Hl. assert (Hpl : zlen (frame_payload sq data pad) <= seal_limit).
  { rewrite zlen_frame_payload by done. unfold HEADER_LEN, MAX_RAW_PAYLOAD, seal_limit in *. lia. }
  destruct (seal_in_place_ok nonce [] (zrep NONCE_LEN Byte.x00) _ Hn eq_refl Hpl) as (ct & Hs & Hct & Ho).
  rewrite zlen_frame_payload in Hct by done. by exists ct.
Qed.

(** What is left of the shaper after a chunk was taken off its buffer. *)
Lemma taken_off_ok this pc si raw_len :
  shaper_wf this -> 0 < raw_len <= zlen (raw_buf this) -> raw_len <= seal_threshold this ->
  let this1 := set_seq (set_timer this (flush_timer this) false (cursor this)) (as_u64 (seq this + 1)) in
  let this2 := set_io (set_counts this1 pc si) (reader this) (zdrop raw_len (raw_buf this)) in
  let chunk := ztake raw_len (raw_buf this) in
  chunk <> [] /\ zlen chunk <= seal_threshold this /\ raw_buf this = chunk ++ raw_buf this2 /\
  reader this2 = reader this /\ seq this2 = as_u64 (seq this + 1) /\ timer_armed this2 = false /\
  shaper_wf this2 /\ same_config this2 this.
Proof.
  intros Hwf Hl Ht this1 this2 chunk. assert (Hchunk : zlen chunk = raw_len) by (unfold chunk; zl).
  split_and!; try done.
  - intros Hnil. rewrite Hnil in Hchunk. change (0 = raw_len) in Hchunk. lia.
  - lia.
  - unfold chunk, this2. cbn [set_io raw_buf]. by rewrite ztake_zdrop.
  - destruct Hwf as [H1 ? ? ? ?]. split; try done; [|apply Z.mod_pos_bound; by vm_compute]. cbn in H1 |- *. zl.
Qed.

Lemma seal_into_ok env this out :
  env_ok env -> shaper_wf this -> raw_buf this <> [] ->
  exists data w this',
    seal_into env this out = (Ok (seq this, out ++ w), this') /\
    is_frame (encoding this) (seq this) data w /\
    data <> [] /\ zlen data <= seal_threshold this /\
    raw_buf this = data ++ raw_buf this' /\ reader this' = reader this /\
    seq this' = as_u64 (seq this + 1) /\ timer_armed this' = false /\
    shaper_wf this' /\ same_config this' this.
Proof.
  intros [Hn Hd] Hwf Hne. unfold seal_into.
  set (raw_len := Z.min _ _). set (this1 := set_seq _ _).
  pose proof (seal_threshold_limit (encoding this)) as Hlim.
  rewrite <- (wf_threshold _ Hwf) in Hlim.
  assert (Hpos : 0 < zlen (raw_buf this)).
  { destruct (raw_buf this); [done|]. zl. }
  assert (Hwf1 : shaper_wf this1).
  { destruct Hwf. split; try done. apply Z.mod_pos_bound. by vm_compute. }
  destruct (resolve_padding_ok (env_draw env) this1 raw_len Hd Hwf1) as (pad & pc & si & -> & Hp & Hsum).
  { unfold raw_len. cbn. lia. }
  cbn [res_bind]. set (chunk := ztake raw_len (raw_buf this)).
  assert (Hchunk : zlen chunk = raw_len) by (unfold chunk, raw_len; zl).
  change (raw_buf (set_counts this1 pc si)) with (raw_buf this). fold chunk.
  change (seq (set_timer _ _ _ _)) with (seq this).
  change (encoding (set_counts this1 pc si)) with (encoding this).
  change (seal_threshold this1) with (seal_threshold this) in Hsum.
  pose proof (frame_raw_limit_u16 (encoding this)) as Hu.
  assert (Hsealed : forall ct, zlen ct = sealed_len (HEADER_LEN + zlen chunk + pad) ->
    opens ct (frame_payload (seq this) chunk pad) ->
    is_frame (encoding this) (seq this) chunk (wire (encoding this) ct)).
  { intros ct Hct Ho. exists pad, ct. rewrite Hchunk in *. pose proof (wf_seq _ Hwf).
    split_and!; try done; lia. }
  pose proof (taken_off_ok this pc si raw_len Hwf) as Hend. cbv zeta in Hend. fold this1 chunk in Hend.
  specialize (Hend ltac:(unfold raw_len; lia) ltac:(unfold raw_len; lia)). set (this2 := set_io _ _ _) in *. exists chunk.
  rewrite <- Hchunk. destruct (encoding this) eqn:Henc.
  - rewrite pad_app, <- !(app_assoc (zrep NONCE_LEN Byte.x00)) by done.
    fold (frame_payload (seq this) chunk pad).
    destruct (seal_frame_json (env_nonce env) (seq this) chunk pad Hn Hp) as (ct & Hs & Hct & Ho); [lia|].
    exists (wire Json ct), this2.
    split; [|by split; [apply Hsealed|]].
    use_sealed Hs.
  - rewrite <- (app_assoc _ (be_bytes 8 _)), pad_app, <- app_assoc by done.
    destruct (seal_frame_binary (env_nonce env) out (seq this) chunk pad Hn Hp)
      as (ct & Hs & Hct & Ho); [lia|].
    exists (wire Binary ct), this2.
    split; [|by split; [apply Hsealed|]].
    use_sealed Hs.
Qed.

(** What one poll achieves, by outcome. *)
Definition poll_post (env : PollEnv) (this : TrafficShaper) (out : bytes)
    (r : Poll (Res IoError (option (Z * bytes)))) (this' : TrafficShaper) : Prop :=
  shaper_wf this' /\ same_config this' this /\
  match r with
  | Ready (Ok (Some (sq, out'))) =>
      exists data w, sq = seq this /\ out' = out ++ w /\
        is_frame (encoding this) sq data w /\ data <> [] /\
        zlen data <= seal_threshold this /\
        backlog this = data ++ backlog this' /\ seq this' = as_u64 (seq this + 1)
  | Ready (Ok None) => backlog this = [] /\ backlog this' = [] /\ seq this' = seq this
  | Ready (Err _) => backlog this' = backlog this /\ seq this' = seq this
  | Ready Panic => False
  | Pending =>
      backlog this' = backlog this /\ seq this' = seq this /\
      zlen (raw_buf this') < seal_threshold this' /\
      (raw_buf this' = [] \/
       timer_armed this' = true /\ env_elapsed env (flush_timer this') = false)
  end.

Lemma sealed_poll_post env this this0 out :
  env_ok env -> shaper_wf this -> raw_buf this <> [] ->
  same_config this this0 -> backlog this = backlog this0 -> seq this = seq this0 ->
  exists r this', sealed_poll (seal_into env this out) = (r, this') /\
    poll_post env this0 out r this'.
Proof.
  intros He Hwf Hne Hcfg Hb Hseq.
  destruct (seal_into_ok env this out He Hwf Hne)
    as (data & w & this' & Hs & Hf & Hd & Hl & Hraw & Hrd & Hsq & _ & Hwf' & Hc).
  eexists _, this'. unfold sealed_poll. rewrite Hs. split; [done|].
  destruct Hcfg as (? & ? & ? & He' & Ht & ?). destruct Hc as (? & ? & ? & ? & ? & ?).
  split; [done|]. split; [split_and!; congruence|].
  exists data, w. rewrite <- He', <- Ht, <- Hseq, <- Hb.
  split_and!; try done. unfold backlog. by rewrite Hrd, app_assoc, <- Hraw.
Qed.

Lemma set_io_wf this rd raw :
  shaper_wf this -> zlen raw <= READ_HIGH_WATER -> shaper_wf (set_io this rd raw).
Proof. intros []. by split. Qed.

Lemma raw_nonempty this : 0 < zlen (raw_buf this) -> raw_buf this <> [].
Proof. intros H Hn. rewrite Hn in H. change (0 < 0) in H. lia. Qed.

(** The flush timer is armed without touching anything else. *)
Lemma arm_timer_ok env this this0 rd :
  shaper_wf this -> same_config this this0 -> backlog this = backlog this0 -> seq this = seq this0 ->
  input (reader this) = input rd ->
  let this1 := set_io this rd (raw_buf this) in
  let t := if negb (timer_armed this1) then set_timer this1 (env_now env + jitter_table (cursor this1)) true (Z.land (cursor this1 + 1) TABLE_MASK) else this1 in
  shaper_wf t /\ same_config t this0 /\ backlog t = backlog this0 /\ seq t = seq this0 /\
  raw_buf t = raw_buf this /\ seal_threshold t = seal_threshold this /\ timer_armed t = true.
Proof.
  intros Hwf Hcfg Hb Hseq Hi this1 t. pose proof (wf_raw _ Hwf) as Hraw.
  assert (Hkeep : backlog this1 = backlog this0) by (rewrite <- Hb; unfold backlog; cbn; by rewrite Hi).
  destruct (set_io_wf this rd (raw_buf this) Hwf Hraw) as [H1 H2 H3 H4 H5].
  unfold t. destruct (timer_armed this1) eqn:Ha; cbn [negb]; split_and!; try done; by split.
Qed.

(** Without more to read, the timer decides whether what is there leaves. *)
Lemma fill_pending_ok env this this0 rd out :
  env_ok env -> shaper_wf this -> same_config this this0 -> backlog this = backlog this0 -> seq this = seq this0 ->
  input (reader this) = input rd -> raw_buf this <> [] -> zlen (raw_buf this) < seal_threshold this ->
  let this1 := set_io this rd (raw_buf this) in
  let t := if negb (timer_armed this1) then set_timer this1 (env_now env + jitter_table (cursor this1)) true (Z.land (cursor this1 + 1) TABLE_MASK) else this1 in
  exists r this', (if env_elapsed env (flush_timer t) then Some (sealed_poll (seal_into env t out)) else Some (Pending, t)) = Some (r, this') /\
    poll_post env this0 out r this'.
Proof.
  intros He Hwf Hcfg Hb Hseq Hi Hne Hl this1 t.
  destruct (arm_timer_ok env this this0 rd Hwf Hcfg Hb Hseq Hi) as (Htw & Htc & Htb & Hts & Htr & Htt & Hta).
  fold this1 in Htw, Htc, Htb, Hts, Htr, Htt, Hta. fold t in Htw, Htc, Htb, Hts, Htr, Htt, Hta.
  destruct (env_elapsed env (flush_timer t)) eqn:Hel.
  - destruct (sealed_poll_post env t this0 out) as (r & t' & -> & ?); try done; [by rewrite Htr|eauto].
  - eexists _, _. split; [done|]. split; [done|]. split; [done|]. split; [done|]. split; [done|].
    rewrite Htr, Htt. split; [done|]. by right.
Qed.

Lemma fill_and_seal_loop_ok fuel env this this0 out :
  env_ok env -> shaper_wf this -> same_config this this0 ->
  backlog this = backlog this0 -> seq this = seq this0 ->
  seal_threshold this - zlen (raw_buf this) < Z.of_nat fuel -> (0 < fuel)%nat ->
  exists r this', fill_and_seal_loop jitter_table fuel env this out = Some (r, this') /\
    poll_post env this0 out r this'.
Proof.
  intros He. revert this. induction fuel as [|fuel IH]; intros this Hwf Hcfg Hb Hseq Hfuel H0; [lia|].
  cbn [fill_and_seal_loop].
  pose proof (seal_threshold_limit (encoding this)) as Hlim. rewrite <- (wf_threshold _ Hwf) in Hlim.
  pose proof (frame_raw_limit_u16 (encoding this)) as Hu.
  assert (Hseal : forall t, shaper_wf t -> raw_buf t <> [] -> same_config t this0 ->
    backlog t = backlog this0 -> seq t = seq this0 ->
    exists r this', Some (sealed_poll (seal_into env t out)) = Some (r, this') /\
      poll_post env this0 out r this').
  { intros t ? ? ? ? ?. destruct (sealed_poll_post env t this0 out) as (r & t' & -> & ?); eauto. }
  destruct (Z.leb_spec (seal_threshold this) (zlen (raw_buf this))).
  { apply Hseal; try done. apply raw_nonempty. lia. }
  assert (Hrem : 0 < READ_HIGH_WATER - zlen (raw_buf this)).
  { unfold MAX_RAW_PAYLOAD, READ_HIGH_WATER, u16_max in *. lia. }
  pose proof (poll_read_input _ (reader this) Hrem) as Hread.
  assert (Hkeep : forall rd, input (reader this) = input rd ->
    backlog (set_io this rd (raw_buf this)) = backlog this0).
  { intros rd Hi. rewrite <- Hb. unfold backlog. cbn. by rewrite Hi. }
  assert (Hsame : forall rd raw, same_config (set_io this rd raw) this0) by done.
  pose proof (wf_raw _ Hwf) as Hraw.
  destruct (poll_read _ (reader this)) as [[[d|e|]|] rd]; [..|].
  - destruct Hread as (Hdl & Hin & Heof). destruct (Z.eqb_spec (zlen d) 0) as [Hz|Hz].
    + apply zlen_0_nil in Hz as ->. cbn [app] in Hin. cbv zeta. cbn [set_io raw_buf].
      destruct (Z.eqb_spec (zlen (raw_buf this)) 0) as [Hr|Hr].
      * eexists _, _. split; [done|]. split; [by apply set_io_wf|]. split; [done|].
        apply zlen_0_nil in Hr. specialize (Heof eq_refl).
        rewrite <- Hb, <- Hseq. unfold backlog. cbn. rewrite <- Hin, Hr, Heof. done.
      * apply Hseal; [by apply set_io_wf| |done|by apply Hkeep|done].
        apply raw_nonempty. cbn. pose proof (zlen_nonneg (raw_buf this)). lia.
    + apply IH; [| done | | done | | ].
      * apply set_io_wf; [done|]. rewrite zlen_app. lia.
      * rewrite <- Hb. unfold backlog. cbn. by rewrite <- app_assoc, Hin.
      * cbn. rewrite zlen_app. pose proof (zlen_nonneg d). lia.
      * pose proof (zlen_nonneg d). destruct fuel; [|lia]. zl.
  - eexists _, _. split; [done|]. split; [by apply set_io_wf|]. split; [done|]. split; [|done].
    by apply Hkeep.
  - done.
  - cbv zeta. cbn [set_io raw_buf seal_threshold].
    destruct (Z.eqb_spec (zlen (raw_buf this)) 0) as [Hr|Hr].
    + eexists _, _. split; [done|]. split; [by apply set_io_wf|]. split; [done|].
      split; [by apply Hkeep|]. split; [done|]. cbn. split; [lia|]. left. by apply zlen_0_nil.
    + destruct (Z.leb_spec (seal_threshold this) (zlen (raw_buf this))); [lia|].
      apply fill_pending_ok; try done. apply raw_nonempty. pose proof (zlen_nonneg (raw_buf this)). lia.
Qed.

Lemma poll_fill_and_seal_ok env this out :
  env_ok env -> shaper_wf this ->
  exists r this', poll_fill_and_seal jitter_table env this out = Some (r, this') /\
    poll_post env this out r this'.
Proof.
  intros He Hwf. apply fill_and_seal_loop_ok; try done.
  - rewrite (wf_threshold _ Hwf). pose proof (zlen_nonneg (raw_buf this)).
    assert (seal_threshold_of (encoding this) < Z.of_nat poll_fuel); [|lia].
    unfold poll_fuel. rewrite Nat2Z.inj_succ, Z2Nat.id by (by vm_compute).
    destruct (encoding this); by vm_compute.
  - unfold poll_fuel. lia.
Qed.

(** Frames carrying the successive [datas] under numbers from [sq]. *)
Fixpoint frames_from (enc : EncodingType) (sq : Z) (datas : list bytes) (out : bytes) : Prop :=
  match datas with
  | [] => out = []
  | data :: datas => exists w out', out = w ++ out' /\ is_frame enc sq data w /\
      frames_from enc (sq + 1) datas out'
  end.

Lemma run_shaper_ok envs this out :
  Forall env_ok envs -> shaper_wf this -> seq this + zlen envs < u64_max ->
  exists datas stream ended this',
    run_shaper jitter_table envs this out =
      Some (seqZ (seq this) (zlen datas), out ++ stream, ended, this') /\
    frames_from (encoding this) (seq this) datas stream /\
    Forall (fun d => d <> [] /\ zlen d <= seal_threshold this) datas /\
    backlog this = concat datas ++ backlog this' /\
    (ended = true -> backlog this' = []).
Proof.
  intros He. revert this out. induction He as [|env envs Henv _ IH]; intros this out Hwf Hmax.
  { exists [], [], false, this. rewrite app_nil_r. done. }
  cbn [run_shaper]. rewrite zlen_cons in Hmax. pose proof (zlen_nonneg envs).
  destruct (poll_fill_and_seal_ok env this out Henv Hwf) as (r & this' & -> & Hwf' & Hc & Hpost).
  destruct Hc as (? & ? & ? & Henc & Hthr & ?). pose proof (wf_seq _ Hwf).
  destruct r as [[[[sq out']|]|e|]|]; try done.
  - destruct Hpost as (data & w & -> & -> & Hf & Hne & Hl & Hb & Hsq).
    rewrite as_u64_small in Hsq by lia.
    destruct (IH this' (out ++ w) Hwf' ltac:(lia)) as (datas & stream & ended & t & -> & Hfs & Hall & Hb' & Hend).
    exists (data :: datas), (w ++ stream), ended, t.
    rewrite zlen_cons, (seqZ_cons (seq this)) by (pose proof (zlen_nonneg datas); lia).
    rewrite Hsq, Henc in *. split.
    { rewrite <- app_assoc. replace (Z.pred (1 + zlen datas)) with (zlen datas) by lia. done. }
    split; [by exists w, stream|]. split; [constructor; [done|by rewrite <- Hthr]|].
    split; [|done]. cbn. by rewrite Hb, Hb', app_assoc.
  - destruct Hpost as (Hb & Hb' & _). exists [], [], true, this'. rewrite app_nil_r, Hb, Hb'. done.
  - destruct Hpost as (Hb & _). exists [], [], false, this'. rewrite app_nil_r, Hb. done.
  - destruct Hpost as (Hb & Hsq & _).
    destruct (IH this' out Hwf' ltac:(lia)) as (datas & stream & ended & t & Hr & Hfs & Hall & Hb' & Hend).
    exists datas, stream, ended, t. rewrite Hsq, Henc, Hthr, Hb in *. done.
Qed.

(** One frame for each poll at most. *)
Lemma run_shaper_length envs this out sqs stream ended this' :
  run_shaper jitter_table envs this out = Some (sqs, stream, ended, this') -> (length sqs <= length envs)%nat.
Proof.
  revert this out sqs stream ended this'. induction envs as [|env envs IH]; intros this out sqs stream ended this' H;
    cbn [run_shaper] in H; [by injection H as <- _ _ _|].
  destruct (poll_fill_and_seal _ _ _ _) as [[[[[[sq out']|]|e|]|] t]|]; cbn [length]; try (injection H as <- _ _ _; cbn; lia).
  - destruct (run_shaper jitter_table envs t out') as [[[[sqs' o'] e'] t']|] eqn:E; [|done].
    injection H as <- _ _ _. apply IH in E. cbn. lia.
  - apply IH in H. lia.
  - done.
Qed.
End shaper_proofs.

(** ** Configurations *)

(** The unsigned fields of a configuration. *)
Definition config_unsigned (config : TrafficConfig) : Prop :=
  0 <= fst (padding_range (global config)) /\
  Forall (fun s => 0 <= fst (stage_padding_range s)) (stage_configs config).

Lemma validate_stages_ok i l :
  validate_stages i l = Ok tt <->
  Forall (fun s => fst (stage_padding_range s) <= snd (stage_padding_range s)) l.
Proof.
  revert i. induction l as [|s l IH]; intros i; simpl; [by split|].
  destruct (stage_padding_range s) as [lo hi] eqn:E. rewrite Forall_cons, E. cbn.
  destruct (Z.ltb_spec hi lo); [split; [done|lia]|]. rewrite IH. intuition lia.
Qed.

Lemma insert_by_key_perm s l : insert_by_key s l ≡ₚ s :: l.
Proof.
  induction l as [|t l IH]; simpl; [done|]. destruct (_ <=? _); [done|].
  rewrite IH. apply Permutation_swap.
Qed.

Lemma sort_by_end_count_perm l : sort_by_end_count l ≡ₚ l.
Proof. induction l as [|s l IH]; simpl; [done|]. by rewrite insert_by_key_perm, IH. Qed.

Definition by_end_count (s t : ResolvedStage) : Prop := end_count s <= end_count t.

Lemma insert_by_key_sorted s l :
  StronglySorted by_end_count l -> StronglySorted by_end_count (insert_by_key s l).
Proof.
  induction 1 as [|t l Hl IH Ht]; simpl; [by repeat constructor|].
  destruct (Z.leb_spec (end_count s) (end_count t)).
  - constructor; [by constructor|]. constructor; [done|].
    eapply Forall_impl; [exact Ht|]. unfold by_end_count. simpl. lia.
  - constructor; [done|]. rewrite insert_by_key_perm. constructor; [|done]. unfold by_end_count. lia.
Qed.

Lemma sort_by_end_count_sorted l : StronglySorted by_end_count (sort_by_end_count l).
Proof. induction l; simpl; [constructor|]. by apply insert_by_key_sorted. Qed.

Lemma sorted_lookup_lt l i j s t :
  StronglySorted by_end_count l -> (i < j)%nat -> l !! i = Some s -> l !! j = Some t ->
  end_count s <= end_count t.
Proof.
  intros Hl. revert i j. induction Hl as [|x l _ IH Hx]; intros i j Hij Hi Hj; [done|].
  destruct j as [|j]; [lia|]. destruct i as [|i]; cbn in *.
  - simplify_eq. apply (Forall_lookup_1 _ _ _ _ Hx Hj).
  - apply (IH i j); [lia|done..].
Qed.

Lemma with_seq_wf config rd start now word :
  validate config = Ok tt -> config_unsigned config -> 0 <= start < u64_max ->
  shaper_wf (with_seq rd (resolve config) start now word).
Proof.
  intros Hv [Hg Hs] Hstart. unfold validate in Hv.
  destruct (padding_range (global config)) as [lo hi] eqn:E.
  destruct (Z.ltb_spec hi lo); [done|]. apply validate_stages_ok in Hv.
  split; try done.
  - cbn. rewrite sort_by_end_count_perm, Forall_map. rewrite Forall_forall in *.
    intros s Hin. split; cbn; [by apply Hs|by apply Hv].
  - cbn. rewrite E. done.
Qed.

Lemma with_seq_stage_inv config rd start now word : stage_inv (with_seq rd config start now word).
Proof. split; [done|]. by exists [], (cfg_stages config). Qed.

Lemma run_padding_reference this calls :
  stage_inv this -> packet_count this + zlen calls < u64_max ->
  run_padding this calls =
    imap (fun i call => reference_padding
            (stage_rule (stages this) (global_threshold this, global_range this)
               (packet_count this + 1 + Z.of_nat i))
            (seal_threshold this) (fst call) (snd call)) calls.
Proof.
  revert this. induction calls as [|[draw raw_len] calls IH]; intros this Hinv Hmax; [done|].
  rewrite zlen_cons in Hmax. pose proof (zlen_nonneg calls).
  destruct (resolve_padding_step draw this raw_len Hinv ltac:(lia)) as (si & Hr & Hinv').
  cbn [run_padding imap]. rewrite Hr. rewrite IH; [|done|cbn; lia].
  f_equal; [by rewrite Z.add_0_r|]. apply imap_ext. intros i [d r] _. cbn.
  do 2 f_equal. lia.
Qed.

(** ** Properties of the shaper *)

(** For every validated configuration, every behaviour of the reader and
    every timing of the polls, the frames a shaper emits carry non-empty
    chunks of at most [seal_threshold] bytes under consecutive sequence numbers
    from the start number; their concatenation is a prefix of the input, the
    rest being still buffered or unread; and when the stream reports its end
    nothing is left. *)
Theorem shaper_stream `{C : FrameCipher} (L : FrameCipherLaws C) `{B : Base122}
    (BL : Base122Laws B) jitter_table config rd start now word envs :
  validate config = Ok tt -> config_unsigned config ->
  0 <= start -> start + zlen envs < u64_max -> Forall env_ok envs ->
  exists datas stream ended this',
    run_shaper jitter_table envs (with_seq rd (resolve config) start now word) [] =
      Some (seqZ start (zlen datas), stream, ended, this') /\
    frames_from (encoding_type config) start datas stream /\
    Forall (fun d => d <> [] /\ zlen d <= seal_threshold_of (encoding_type config)) datas /\
    input rd = concat datas ++ backlog this' /\
    (ended = true -> input rd = concat datas).
Proof.
  intros Hv Hu H0 Hmax He. pose proof (zlen_nonneg envs).
  pose proof (with_seq_wf config rd start now word Hv Hu ltac:(lia)) as Hwf.
  destruct (run_shaper_ok jitter_table envs _ [] He Hwf Hmax)
    as (datas & stream & ended & this' & Hr & Hf & Hd & Hb & Hend).
  exists datas, stream, ended, this'. split; [exact Hr|]. split; [exact Hf|]. split; [exact Hd|].
  split; [exact Hb|]. intros E. change (backlog _) with (input rd) in Hb at 1.
  by rewrite Hb, (Hend E), app_nil_r.
Qed.

(** C40: one poll always returns (its loop ends) and never panics; it leaves
    the shaper well-formed, and when it returns pending, either nothing is
    buffered or the flush timer is armed and has not expired: a partial frame
    never waits without a timer. *)
Theorem poll_returns `{C : FrameCipher} (L : FrameCipherLaws C) `{B : Base122}
    (BL : Base122Laws B) jitter_table env this out :
  env_ok env -> shaper_wf this ->
  exists r this', poll_fill_and_seal jitter_table env this out = Some (r, this') /\
    r <> Ready Panic /\ shaper_wf this' /\
    (r = Pending -> raw_buf this' = [] \/
      timer_armed this' = true /\ env_elapsed env (flush_timer this') = false).
Proof.
  intros He Hwf. destruct (poll_fill_and_seal_ok jitter_table env this out He Hwf)
    as (r & this' & Hr & Hwf' & _ & Hpost).
  exists r, this'. split; [done|]. split; [by intros ->|]. split; [done|].
  intros ->. by destruct Hpost as (_ & _ & _ & ?).
Qed.

(** The remembered stage cursor computes the reference rule: over any
    sequence of packets, the [n]-th one is padded by the first stage whose
    [end_count] reaches [n], or by the global rule when there is none. *)
Theorem padding_cursor_equiv config rd start now word calls :
  zlen calls < u64_max ->
  run_padding (with_seq rd config start now word) calls =
    imap (fun i call => reference_padding
            (stage_rule (cfg_stages config) (cfg_global_threshold config, cfg_global_range config)
               (1 + Z.of_nat i))
            (seal_threshold_of (cfg_encoding config)) (fst call) (snd call)) calls.
Proof.
  intros Hmax. rewrite run_padding_reference; [done| |cbn; lia].
  apply with_seq_stage_inv.
Qed.

(** In a resolved configuration the stage that applies to packet [n] is a
    configured stage that reaches [n], and no other configured stage that
    reaches [n] ends earlier; without such a stage the global rule applies. *)
Theorem stage_rule_resolved config n :
  let sts := map resolve_stage (stage_configs config) in
  let glob := (padding_threshold (global config), padding_range (global config)) in
  (exists s, s ∈ sts /\ n <= end_count s /\
     (forall t, t ∈ sts -> n <= end_count t -> end_count s <= end_count t) /\
     stage_rule (cfg_stages (resolve config)) glob n = (rs_threshold s, rs_range s)) \/
  ((forall t, t ∈ sts -> end_count t < n) /\
   stage_rule (cfg_stages (resolve config)) glob n = glob).
Proof.
  intros sts glob. unfold stage_rule. cbn [resolve cfg_stages]. fold sts.
  pose proof (sort_by_end_count_perm sts) as Hp.
  pose proof (sort_by_end_count_sorted sts) as Hs.
  destruct (list_find _ (sort_by_end_count sts)) as [[i s]|] eqn:E.
  - left. apply list_find_Some in E as (Hi & Hn & Hfirst). exists s.
    split; [rewrite <- Hp; by apply list_elem_of_lookup_2 with i|]. split; [done|]. split; [|done].
    intros t Ht Hnt. rewrite <- Hp in Ht. apply list_elem_of_lookup_1 in Ht as [j Hj].
    destruct (decide (j < i)%nat) as [Hji|Hji]; [exfalso; by apply (Hfirst j t Hj Hji)|].
    destruct (decide (i = j)) as [->|Hne]; [simplify_eq; lia|].
    apply (sorted_lookup_lt _ i j s t Hs); [lia|done..].
  - right. split; [|done]. intros t Ht. rewrite <- Hp in Ht.
    apply list_find_None in E. rewrite Forall_forall in E. specialize (E t Ht). cbn in E. lia.
Qed.

(** ** Witnesses *)

Definition toy_env (elapsed : bool) : PollEnv := mkEnv toy_nonce toy_draw 100 (fun _ => elapsed).

Definition toy_config : TrafficConfig :=
  mkTraffic (mkPadding 50 (0, 4)) [mkStageConfig (Some 2) None 20 (1, 3)] Json None.

Lemma toy_env_ok elapsed : env_ok (toy_env elapsed).
Proof. split; [reflexivity|apply toy_draw_ok]. Qed.

Lemma shaper_stream_witness :
  exists datas stream ended this',
    run_shaper (fun _ => 5) [toy_env false; toy_env true; toy_env true]
      (with_seq [RdData (str "abc"); RdPending; RdData (str "de"); RdData []]
         (resolve toy_config) 3 0 77) [] = Some (seqZ 3 (zlen datas), stream, ended, this') /\
    str "abcde" = concat datas ++ backlog this'.
Proof.
  destruct (shaper_stream (aes_frame_cipher_laws toy_aes) toy_base122_laws (fun _ => 5) toy_config
    [RdData (str "abc"); RdPending; RdData (str "de"); RdData []] 3 0 77
    [toy_env false; toy_env true; toy_env true]) as (datas & stream & ended & this' & Hr & _ & _ & Hb & _).
  - reflexivity.
  - split; [vm_compute; congruence|]. repeat constructor; vm_compute; congruence.
  - lia.
  - reflexivity.
  - do 3 (constructor; [apply toy_env_ok|]). constructor.
  - exists datas, stream, ended, this'. split; [exact Hr|exact Hb].
Defined.

Lemma poll_returns_witness :
  exists r this', poll_fill_and_seal (fun _ => 5) (toy_env false)
    (with_seq [RdData (str "abc"); RdPending] (resolve toy_config) 0 0 0) [] = Some (r, this') /\
    r <> Ready Panic.
Proof.
  destruct (poll_returns (aes_frame_cipher_laws toy_aes) toy_base122_laws (fun _ => 5) (toy_env false)
    (with_seq [RdData (str "abc"); RdPending] (resolve toy_config) 0 0 0) [])
    as (r & this' & H & Hp & _).
  - apply toy_env_ok.
  - apply with_seq_wf; [reflexivity| |vm_compute; intuition congruence].
    split; [vm_compute; congruence|]. repeat constructor; vm_compute; congruence.
  - exists r, this'. split; [exact H|exact Hp].
Defined.

(** The third packet is past the stage of two and follows the global rule. *)
Lemma padding_cursor_equiv_witness :
  run_padding (with_seq [] (resolve toy_config) 0 0 0)
    [(toy_draw, 1); (toy_draw, 30); (toy_draw, 30)] =
  [Ok (HEADER_LEN + 1 + 3, 3); Ok (HEADER_LEN + 30 + 0, 0); Ok (HEADER_LEN + 30 + 4, 4)].
Proof.
  rewrite (padding_cursor_equiv (resolve toy_config) [] 0 0 0); reflexivity.
Defined.
