(* ===== verification/Decoder.v ===== *)
(** * The frame decoder

    [FrameDecoder] of [src/server/stream.rs]: the stream adapter that cuts a
    body, received in arbitrary chunks, into frames. Its contract is stated
    against the shaper's output ([frames_from]): whatever the chunking, exactly
    the frames sent come out. *)

From S2P Require Import Prelude Cipher Frame Shaper.

Definition MAX_FRAME_BUF_SIZE : Z := 18781.

(** What the body stream yields to successive polls; an exhausted script is
    the end of the body. *)
Inductive BodyEvent : Type :=
| Chunk (b : bytes)
| BodyPending
| BodyError (e : IoError).

Definition poll_body (inner : list BodyEvent)
    : Poll (option (Res IoError bytes)) * list BodyEvent :=
  match inner with
  | Chunk b :: rest => (Ready (Some (Ok b)), rest)
  | BodyPending :: rest => (Pending, rest)
  | BodyError e :: rest => (Ready (Some (Err e)), rest)
  | [] => (Ready None, [])
  end.

Record FrameDecoder : Type := mkDecoder {
  inner : list BodyEvent;
  buf : bytes;
  json_scratch : bytes;
  dec_encoding : EncodingType;
  max_buf_size : Z;
  eos : bool
}.

Definition FrameDecoder_new (inner : list BodyEvent) (enc : EncodingType) (max_buf_size : Z)
    : FrameDecoder := mkDecoder inner [] [] enc max_buf_size false.

Section decoder.
Context `{C : FrameCipher} `{B : Base122}.

(** The body of [poll_next]'s loop; [None] only when [fuel] runs out. *)
Fixpoint decoder_loop (fuel : nat) (this : FrameDecoder)
    : option (Poll (option (Res IoError (Z * bytes))) * FrameDecoder) :=
  match fuel with
  | O => None
  | S fuel =>
      let '(res, b, scr) := decode_frame (buf this) (json_scratch this) (dec_encoding this) in
      let this := mkDecoder (inner this) b scr (dec_encoding this) (max_buf_size this) (eos this) in
      match res with
      | Ok (Some frame) =>
          let '(sq, data, scr) := frame_data frame scr in
          Some (Ready (Some (Ok (sq, data))),
                mkDecoder (inner this) b scr (dec_encoding this) (max_buf_size this) (eos this))
      | Err e => Some (Ready (Some (Err e)), this)
      | Panic => Some (Ready (Some Panic), this)
      | Ok None =>
          if eos this then
            if zlen b =? 0 then Some (Ready None, this)
            else Some (Ready (Some (Err (err_data "trailing data after last frame"))), this)
          else if max_buf_size this <? zlen b
          then Some (Ready (Some (Err (err_data "frame buffer exceeded maximum size"))), this)
          else
            let set rest b e := mkDecoder rest b scr (dec_encoding this) (max_buf_size this) e in
            match poll_body (inner this) with
            | (Ready (Some (Ok chunk)), rest) =>
                decoder_loop fuel (set rest (if zlen b =? 0 then chunk else b ++ chunk) false)
            | (Ready (Some (Err e)), rest) => Some (Ready (Some (Err e)), set rest b false)
            | (Ready (Some Panic), rest) => Some (Ready (Some Panic), set rest b false)
            | (Ready None, rest) => decoder_loop fuel (set rest b true)
            | (Pending, rest) => Some (Pending, set rest b false)
            end
      end
  end.

(** Every round but the last two takes an event from the body. *)
Definition decoder_fuel (this : FrameDecoder) : nat := 2 + length (inner this).

Definition decoder_poll_next (this : FrameDecoder)
    : option (Poll (option (Res IoError (Z * bytes))) * FrameDecoder) :=
  decoder_loop (decoder_fuel this) this.

(** How a consumer's loop over the stream ends. *)
Inductive Outcome : Type := Finished | Failed (e : IoError) | Panicked | Unfinished.

(** The items of at most [polls] polls, until the stream ends or fails. *)
Fixpoint collect (polls : nat) (this : FrameDecoder) : list (Z * bytes) * Outcome :=
  match polls with
  | O => ([], Unfinished)
  | S polls =>
      match decoder_poll_next this with
      | Some (Ready (Some (Ok item)), this) =>
          let '(items, o) := collect polls this in (item :: items, o)
      | Some (Ready (Some (Err e)), _) => ([], Failed e)
      | Some (Ready None, _) => ([], Finished)
      | Some (Pending, this) => collect polls this
      | _ => ([], Panicked)
      end
  end.

(** What an item carries is never longer than a frame's length field allows. *)
Lemma decoder_loop_short fuel this sq data this' :
  decoder_loop fuel this = Some (Ready (Some (Ok (sq, data))), this') -> zlen data < u16_max.
Proof.
  revert this. induction fuel as [|fuel IH]; intros this H; [done|]. cbn [decoder_loop] in H.
  destruct (decode_frame _ _ _) as [[res b] scr] eqn:Hd. destruct res as [[frame|]|e|]; [| |done..].
  - apply decode_frame_short in Hd. destruct (frame_data frame scr) as [[sq' data'] scr']. by injection H as -> -> _.
  - destruct (eos this); [by destruct (_ =? 0)|]. destruct (_ <? _); [done|].
    destruct (poll_body _) as [[[[chunk|e|]|]|] rest]; try done; by apply IH in H.
Qed.

Lemma collect_short polls this it : it ∈ fst (collect polls this) -> zlen (snd it) < u16_max.
Proof.
  revert this. induction polls as [|polls IH]; intros this; cbn [collect]; [by intros ?%elem_of_nil|].
  destruct (decoder_poll_next this) as [[[[[[sq data]|e|]|]|] this']|] eqn:Hp; try (by intros ?%elem_of_nil); [|apply IH].
  specialize (IH this'). destruct (collect polls this') as [items o]. intros [->|Hin]%elem_of_cons; [|by apply IH].
  by apply decoder_loop_short in Hp.
Qed.
End decoder.

(** ** Specification *)

Fixpoint body_bytes (evs : list BodyEvent) : bytes :=
  match evs with
  | Chunk b :: evs => b ++ body_bytes evs
  | _ :: evs => body_bytes evs
  | [] => []
  end.

Definition no_body_error (evs : list BodyEvent) : Prop :=
  Forall (fun ev => match ev with BodyError _ => False | _ => True end) evs.

Section decoder_proofs.
Context `{C : FrameCipher} {L : FrameCipherLaws C} `{B : Base122} {BL : Base122Laws B}.

(** An incomplete last frame: nothing, or a strict prefix of some frame. *)
Definition cut_tail (enc : EncodingType) (tail : bytes) : Prop :=
  tail = [] \/ exists seq data w q, is_frame enc seq data w /\ w = tail ++ q /\ q <> [].

Definition trailing_error : IoError := err_data "trailing data after last frame".

(** The decoder still owes the frames [datas] from number [sq], then [tail]. *)
Definition owes (this : FrameDecoder) (sq : Z) (datas : list bytes) (tail : bytes) : Prop :=
  max_encoded_frame_len (dec_encoding this) <= max_buf_size this /\
  no_body_error (inner this) /\
  (eos this = true -> inner this = []) /\
  exists s, frames_from (dec_encoding this) sq datas s /\ cut_tail (dec_encoding this) tail /\
    buf this ++ body_bytes (inner this) = s ++ tail.

Lemma decode_empty enc scr : decode_frame [] scr enc = (Ok None, [], scr).
Proof. destruct enc; done. Qed.

Lemma app_split (a b c d : bytes) :
  a ++ b = c ++ d ->
  (exists k, a = c ++ k /\ d = k ++ b) \/ (exists k, k <> [] /\ c = a ++ k /\ b = k ++ d).
Proof.
  intros H. apply app_eq_inv in H as [(k & -> & ->)|(k & -> & ->)].
  - left. by exists k.
  - destruct k as [|x k]; [left; exists []; by rewrite !app_nil_r|]. right. by exists (x :: k).
Qed.

(** One call of the codec on a decoder that owes frames. *)
Lemma owes_decode this sq datas tail :
  owes this sq datas tail ->
  (exists data datas' frame b scr, datas = data :: datas' /\
     decode_frame (buf this) (json_scratch this) (dec_encoding this) = (Ok (Some frame), b, scr) /\
     fst (frame_data frame scr) = (sq, data) /\
     forall scr', owes (mkDecoder (inner this) b scr' (dec_encoding this) (max_buf_size this) (eos this))
       (sq + 1) datas' tail) \/
  (decode_frame (buf this) (json_scratch this) (dec_encoding this)
     = (Ok None, buf this, json_scratch this) /\
   zlen (buf this) <= max_buf_size this /\
   (inner this = [] -> datas = [] /\ buf this = tail)).
Proof.
  intros (Hmax & Herr & Heos & s & Hf & Ht & Hbuf).
  destruct datas as [|data datas].
  - cbn in Hf. subst s. cbn [app] in Hbuf. right.
    assert (Hdec : decode_frame (buf this) (json_scratch this) (dec_encoding this)
      = (Ok None, buf this, json_scratch this) /\ zlen (buf this) <= max_buf_size this).
    { destruct Ht as [->|(seq & data & w & q & Hw & -> & Hq)].
      - apply app_nil in Hbuf as [-> _]. split; [apply decode_empty|].
        pose proof (max_encoded_frame_len_pos (dec_encoding this)). change (0 <= max_buf_size this). lia.
      - rewrite <- Hbuf, <- app_assoc in Hw. split.
        + eapply is_frame_prefix; [exact Hw|done|]. intros Hn. by apply app_nil in Hn as [_ ?].
        + apply is_frame_len in Hw. rewrite !zlen_app in Hw.
          pose proof (zlen_nonneg (body_bytes (inner this))). pose proof (zlen_nonneg q). lia. }
    destruct Hdec as [Hd Hl]. split; [done|]. split; [done|]. intros Hi. split; [done|].
    rewrite Hi in Hbuf. by rewrite app_nil_r in Hbuf.
  - destruct Hf as (w & s' & -> & Hw & Hf). rewrite <- app_assoc in Hbuf.
    apply app_split in Hbuf as [(k & Hb & Hrest)|(k & Hk & Hb & Hrest)].
    + left. destruct (is_frame_decode _ _ _ _ k (json_scratch this) Hw) as (frame & scr & Hd & Hdata).
      exists data, datas, frame, k, scr. rewrite Hb. split; [done|]. split; [done|]. split; [done|].
      intros scr'. split; [done|]. split; [done|]. split; [done|]. by exists s'.
    + right. split; [by eapply is_frame_prefix|]. apply is_frame_len in Hw as Hl.
      rewrite Hb, zlen_app in Hl. pose proof (zlen_nonneg k). split; [lia|].
      intros Hi. rewrite Hi in Hrest. symmetry in Hrest. by apply app_nil in Hrest as [? _].
Qed.

(** What one poll of a decoder that owes frames yields. *)
Definition owed_post (this : FrameDecoder) (sq : Z) (datas : list bytes) (tail : bytes)
    (r : Poll (option (Res IoError (Z * bytes)))) (this' : FrameDecoder) : Prop :=
  match r with
  | Ready (Some (Ok item)) => exists data datas', datas = data :: datas' /\ item = (sq, data) /\
      owes this' (sq + 1) datas' tail /\ (length (inner this') <= length (inner this))%nat
  | Pending => owes this' sq datas tail /\ (length (inner this') < length (inner this))%nat
  | Ready None => datas = [] /\ tail = []
  | Ready (Some (Err e)) => datas = [] /\ tail <> [] /\ e = trailing_error
  | Ready (Some Panic) => False
  end.

Lemma owed_post_weaken this this0 sq datas tail r this' :
  (length (inner this) <= length (inner this0))%nat ->
  owed_post this sq datas tail r this' -> owed_post this0 sq datas tail r this'.
Proof.
  intros Hl. destruct r as [[[item|e|]|]|]; simpl; try done.
  - intros (data & datas' & ? & ? & ? & ?). exists data, datas'. split_and!; try done. lia.
  - intros [? ?]. split; [done|lia].
Qed.

Lemma buffered_chunk (b chunk : bytes) : (if zlen b =? 0 then chunk else b ++ chunk) = b ++ chunk.
Proof. destruct (Z.eqb_spec (zlen b) 0) as [H|H]; [|done]. by apply zlen_0_nil in H as ->. Qed.

Lemma decoder_loop_owed fuel this sq datas tail :
  owes this sq datas tail ->
  ((if eos this then 0 else 1) + length (inner this) < fuel)%nat ->
  exists r this', decoder_loop fuel this = Some (r, this') /\ owed_post this sq datas tail r this'.
Proof.
  revert this. induction fuel as [|fuel IH]; intros this Ho Hfuel; [lia|]. cbn [decoder_loop].
  destruct (owes_decode this sq datas tail Ho)
    as [(data & datas' & frame & b & scr & -> & -> & Hdata & Ho')|(-> & Hl & Hend)].
  { destruct (frame_data frame scr) as [[sq' data'] scr']. cbn in Hdata. simplify_eq.
    eexists _, _. split; [done|]. exists data, datas'. split; [done|]. split; [done|].
    split; [apply Ho'|]. done. }
  destruct Ho as (Hmax & Herr & Heos & s & Hf & Ht & Hbuf). cbn [eos inner dec_encoding max_buf_size].
  destruct (eos this) eqn:He.
  { destruct (Hend (Heos eq_refl)) as [-> Hb]. destruct (Z.eqb_spec (zlen (buf this)) 0) as [Hz|Hz].
    - eexists _, _. split; [done|]. apply zlen_0_nil in Hz. split; [done|]. by rewrite <- Hb, Hz.
    - eexists _, _. split; [done|]. split; [done|]. split; [|done]. intros Hn. by rewrite Hb, Hn in Hz. }
  destruct (Z.ltb_spec (max_buf_size this) (zlen (buf this))); [lia|].
  destruct (inner this) as [|[chunk| |e] rest] eqn:Hi; cbn [poll_body]; cbn [length] in Hfuel.
  - destruct (IH (mkDecoder [] (buf this) (json_scratch this) (dec_encoding this)
      (max_buf_size this) true)) as (r & this' & -> & Hp); [|cbn in *; lia|].
    + split; [done|]. split; [done|]. split; [done|]. by exists s.
    + eexists _, _. split; [done|]. eapply owed_post_weaken; [|exact Hp]. by rewrite Hi.
  - rewrite buffered_chunk.
    destruct (IH (mkDecoder rest (buf this ++ chunk) (json_scratch this) (dec_encoding this)
      (max_buf_size this) false)) as (r & this' & -> & Hp); [|cbn in *; lia|].
    + split; [done|]. split; [by apply Forall_cons_1 in Herr as [_ ?]|]. split; [done|].
      exists s. split; [done|]. split; [done|]. cbn. by rewrite <- app_assoc.
    + eexists _, _. split; [done|]. eapply owed_post_weaken; [|exact Hp]. rewrite Hi. cbn. lia.
  - eexists _, _. split; [done|]. split; [|rewrite Hi; cbn; lia]. split; [done|].
    split; [by apply Forall_cons_1 in Herr as [_ ?]|]. split; [done|]. by exists s.
  - by apply Forall_cons_1 in Herr as [? _].
Qed.

Lemma collect_owed polls this sq datas tail :
  owes this sq datas tail -> (length (inner this) + length datas < polls)%nat ->
  collect polls this = (zip (seqZ sq (zlen datas)) datas,
                        if decide (tail = []) then Finished else Failed trailing_error).
Proof.
  revert this sq datas. induction polls as [|polls IH]; intros this sq datas Ho Hp; [lia|].
  cbn [collect]. unfold decoder_poll_next.
  destruct (decoder_loop_owed (decoder_fuel this) this sq datas tail Ho) as (r & this' & -> & Hpost).
  { unfold decoder_fuel. destruct (eos this); lia. }
  destruct r as [[[item|e|]|]|]; cbn [owed_post] in Hpost; try done.
  - destruct Hpost as (data & datas' & -> & -> & Ho' & Hl).
    rewrite (IH this' (sq + 1) datas' Ho') by (cbn in Hp; lia).
    rewrite zlen_cons, (seqZ_cons sq) by (pose proof (zlen_nonneg datas'); lia).
    replace (Z.pred (1 + zlen datas')) with (zlen datas') by lia. done.
  - destruct Hpost as (-> & Hne & ->). by rewrite decide_False.
  - destruct Hpost as [-> ->]. by rewrite decide_True.
  - destruct Hpost as [Ho' Hl]. apply IH; [done|lia].
Qed.

(** On arbitrary input: the loop's fuel is enough and the buffer is bounded. *)
Lemma decoder_loop_bounded m fuel this :
  0 <= m -> Forall (fun ev => match ev with Chunk b => zlen b <= m | _ => True end) (inner this) ->
  zlen (buf this) <= Z.max 0 (max_buf_size this) + m ->
  ((if eos this then 0 else 1) + length (inner this) < fuel)%nat ->
  (eos this = true -> inner this = []) ->
  exists r this', decoder_loop fuel this = Some (r, this') /\ r <> Ready (Some Panic) /\
    zlen (buf this') <= Z.max 0 (max_buf_size this) + m.
Proof.
  intros Hm. revert this. induction fuel as [|fuel IH]; intros this Hev Hb Hfuel Heos; [lia|].
  cbn [decoder_loop].
  pose proof (match dec_encoding this as enc return
      step_wf (buf this) (decode_frame (buf this) (json_scratch this) enc) with
    | Json => decode_json_wf _ _ | Binary => decode_binary_wf _ _ end) as Hwf.
  destruct (decode_frame _ _ _) as [[res b] scr]. destruct Hwf as [(eaten & Heat & _) Hres].
  assert (Hb' : zlen b <= Z.max 0 (max_buf_size this) + m).
  { rewrite Heat, zlen_app in Hb. pose proof (zlen_nonneg eaten). lia. }
  destruct res as [[frame|]|e|]; [..|done].
  - destruct (frame_data frame scr) as [[sq data] scr']. by eexists _, _.
  - cbn [eos inner max_buf_size dec_encoding]. destruct (eos this) eqn:He.
    { destruct (_ =? _); by eexists _, _. }
    destruct (Z.ltb_spec (max_buf_size this) (zlen b)); [by eexists _, _|].
    destruct (inner this) as [|[chunk| |e] rest] eqn:Hi; cbn [poll_body]; try (by eexists _, _).
    + apply (IH (mkDecoder [] b scr (dec_encoding this) (max_buf_size this) true));
        cbn in *; try done; lia.
    + rewrite buffered_chunk. apply Forall_cons_1 in Hev as [? ?].
      apply (IH (mkDecoder rest (b ++ chunk) scr (dec_encoding this) (max_buf_size this) false));
        cbn in *; try done; [|lia]. rewrite zlen_app. lia.
  - by eexists _, _.
Qed.
(** One poll on any body whatever: it returns, it does not panic, and the end of
    the body is only recorded once the body has ended. *)
Lemma decoder_loop_eos fuel this r this' :
  (eos this = true -> inner this = []) -> decoder_loop fuel this = Some (r, this') ->
  eos this' = true -> inner this' = [].
Proof.
  revert this. induction fuel as [|fuel IH]; intros this He; [done|]. cbn [decoder_loop].
  destruct (decode_frame _ _ _) as [[[[frame|]|e|] b] scr]; try (by intros [= <- <-]).
  - destruct (frame_data frame scr) as [[sq data] scr']. by intros [= <- <-].
  - cbn [eos inner]. destruct (eos this) eqn:Hes; [destruct (_ =? _); by intros [= <- <-]|].
    destruct (_ <? _); [by intros [= <- <-]|].
    destruct (inner this) as [|[chunk| |e] rest]; cbn [poll_body];
      [by apply IH|by apply IH|by intros [= <- <-]..].
Qed.

Lemma decoder_poll_total this :
  (eos this = true -> inner this = []) ->
  exists r this', decoder_poll_next this = Some (r, this') /\ r <> Ready (Some Panic) /\
    (eos this' = true -> inner this' = []).
Proof.
  intros He.
  assert (Hm : exists m, 0 <= m /\ Forall (fun ev => match ev with Chunk b => zlen b <= m | _ => True end) (inner this) /\
    zlen (buf this) <= Z.max 0 (max_buf_size this) + m).
  { clear He. induction (inner this) as [|ev evs (m & H0 & Hf & Hb)].
    - exists (zlen (buf this)). pose proof (zlen_nonneg (buf this)). split_and!; [done|constructor|lia].
    - exists (Z.max m match ev with Chunk b => zlen b | _ => 0 end). split_and!; [lia| |lia].
      constructor; [destruct ev; lia|]. eapply Forall_impl; [exact Hf|]. intros []; lia. }
  destruct Hm as (m & H0 & Hf & Hb).
  destruct (decoder_loop_bounded m (decoder_fuel this) this H0 Hf Hb) as (r & this' & Hl & Hp & _); [|done|].
  { unfold decoder_fuel. destruct (eos this); lia. }
  exists r, this'. split; [done|]. split; [done|]. by eapply decoder_loop_eos.
Qed.

Lemma collect_not_panicked polls this : (eos this = true -> inner this = []) -> snd (collect polls this) <> Panicked.
Proof.
  revert this. induction polls as [|polls IH]; intros this He; [done|]. cbn [collect].
  destruct (decoder_poll_total this He) as (r & this' & -> & Hp & He').
  destruct r as [[[item|e|]|]|]; try done; [|by apply IH].
  specialize (IH this' He'). by destruct (collect polls this').
Qed.
End decoder_proofs.

(** ** Streams over several bodies *)

(** Bodies of whole frames, numbered on from [sq]. *)
Fixpoint bodies_from `{C : FrameCipher} `{B : Base122} (enc : EncodingType) (sq : Z)
    (groups : list (list bytes)) (bodies : list bytes) : Prop :=
  match groups, bodies with
  | [], [] => True
  | g :: groups, b :: bodies => frames_from enc sq g b /\ bodies_from enc (sq + zlen g) groups bodies
  | _, _ => False
  end.

Lemma zlen_concat_ge (datas : list bytes) : Forall (fun d => d <> []) datas -> zlen datas <= zlen (concat datas).
Proof.
  induction 1 as [|d datas Hd _ IH]; [done|]. cbn [concat]. rewrite zlen_cons, zlen_app.
  destruct d; [done|]. rewrite zlen_cons. pose proof (zlen_nonneg d). lia.
Qed.

Section several_bodies.
Context `{C : FrameCipher} {L : FrameCipherLaws C} `{B : Base122} {BL : Base122Laws B}.
Context (jitter_table : Z -> Z).
Variables (enc : EncodingType) (start : Z) (total : bytes).

Lemma frames_from_app sq d1 o1 d2 o2 :
  frames_from enc sq d1 o1 -> frames_from enc (sq + zlen d1) d2 o2 -> frames_from enc sq (d1 ++ d2) (o1 ++ o2).
Proof.
  revert sq o1. induction d1 as [|d d1 IH]; intros sq o1 H1 H2; cbn [frames_from app] in *.
  - subst o1. change (zlen []) with 0 in H2. by rewrite Z.add_0_r in H2.
  - destruct H1 as (w & out & -> & Hw & H1). exists w, (out ++ o2). split; [by rewrite app_assoc|].
    split; [done|]. apply IH; [done|]. rewrite zlen_cons in H2. by rewrite <- Z.add_assoc.
Qed.

Lemma frames_from_one sq d w : is_frame enc sq d w -> frames_from enc sq [d] w.
Proof. intros H. exists w, []. rewrite app_nil_r. done. Qed.

Lemma frames_from_nil sq datas : frames_from enc sq datas [] -> datas = [].
Proof.
  destruct datas as [|d datas]; [done|]. intros (w & out & Hw & Hfw & _).
  symmetry in Hw. apply app_nil in Hw as [-> _]. apply is_frame_len in Hfw as [Hw _]. by change (0 < 0) in Hw.
Qed.

Lemma bodies_from_snoc sq groups bodies g b :
  bodies_from enc sq groups bodies -> frames_from enc (sq + zlen (concat groups)) g b ->
  bodies_from enc sq (groups ++ [g]) (bodies ++ [b]).
Proof.
  revert sq bodies. induction groups as [|g0 groups IH]; intros sq [|b0 bodies] H1 H2; cbn [bodies_from app] in *; try done.
  - change (zlen (concat [])) with 0 in H2. rewrite Z.add_0_r in H2. done.
  - destruct H1 as [Hg H1]. split; [done|]. apply IH; [done|]. cbn [concat] in H2. rewrite zlen_app in H2.
    by rewrite <- Z.add_assoc.
Qed.

(** A shaper that has given out the chunks [datas] of [total]. *)
Definition carried (datas : list bytes) (s : TrafficShaper) : Prop :=
  shaper_wf s /\ encoding s = enc /\ Forall (fun d => d <> []) datas /\
  total = concat datas ++ backlog s /\ seq s = start + zlen datas.

Lemma carried_poll env out datas s :
  start + zlen total < u64_max -> env_ok env -> carried datas s ->
  exists r s', poll_fill_and_seal jitter_table env s out = Some (r, s') /\
    match r with
    | Ready (Ok (Some (_, out'))) => exists data w, out' = out ++ w /\
        is_frame enc (start + zlen datas) data w /\ carried (datas ++ [data]) s'
    | Ready (Ok None) => carried datas s' /\ backlog s' = []
    | Ready Panic => False
    | _ => carried datas s'
    end.
Proof.
  intros Hmax He (Hwf & Henc & Hne & Ht & Hs).
  destruct (poll_fill_and_seal_ok jitter_table env s out He Hwf) as (r & s' & Hp & Hwf' & Hc & Hpost).
  exists r, s'. split; [exact Hp|]. destruct Hc as (_ & _ & _ & Henc' & _ & _). rewrite Henc in Henc'.
  assert (Hquiet : backlog s' = backlog s -> seq s' = seq s -> carried datas s').
  { intros Hbl Hsq. unfold carried. by rewrite Hbl, Hsq. }
  destruct r as [[[[sq out']|]|e|]|].
  - destruct Hpost as (data & w & -> & -> & Hw & Hd & _ & Hbl & Hsq). rewrite Henc, Hs in Hw.
    assert (Hroom : seq s + 1 < u64_max).
    { rewrite Hs. pose proof (zlen_concat_ge _ Hne). rewrite Hbl in Ht. apply (f_equal zlen) in Ht.
      rewrite !zlen_app in Ht. destruct data; [done|]. rewrite zlen_cons in Ht.
      pose proof (zlen_nonneg data). pose proof (zlen_nonneg (backlog s')). lia. }
    rewrite as_u64_small in Hsq by (pose proof (wf_seq _ Hwf); lia).
    exists data, w. split; [done|]. split; [done|]. split; [done|]. split; [done|]. split; [|split].
    + apply Forall_app. split; [done|by repeat constructor].
    + rewrite concat_app, <- app_assoc. cbn [concat]. rewrite app_nil_r. by rewrite Ht, Hbl.
    + rewrite zlen_app. change (zlen [data]) with 1. lia.
  - destruct Hpost as (Hbl & Hbl' & Hsq). split; [|done]. apply Hquiet; [congruence|done].
  - destruct Hpost. by apply Hquiet.
  - done.
  - destruct Hpost as (Hbl & Hsq & _). by apply Hquiet.
Qed.
End several_bodies.

(** ** Properties *)

(** Whatever chunks the transport cuts a shaper's stream into (empty
    chunks and pauses included), the decoder yields exactly the frames sent,
    with their numbers and in order, and then ends; if the body stops inside a
    frame, it reports the trailing bytes instead of ending cleanly. *)
Theorem decoder_chunking `{C : FrameCipher} (L : FrameCipherLaws C) `{B : Base122}
    (BL : Base122Laws B) enc start datas stream tail evs max_buf polls :
  max_encoded_frame_len enc <= max_buf ->
  frames_from enc start datas stream -> cut_tail enc tail ->
  no_body_error evs -> body_bytes evs = stream ++ tail ->
  (length evs + length datas < polls)%nat ->
  collect polls (FrameDecoder_new evs enc max_buf) =
    (zip (seqZ start (zlen datas)) datas,
     if decide (tail = []) then Finished else Failed trailing_error).
Proof.
  intros Hmax Hf Ht Herr Hb Hp. apply collect_owed; [|done].
  split; [done|]. split; [done|]. split; [done|]. by exists stream.
Qed.

(** On any body whatever (hostile bytes, any chunking) a poll of the
    decoder returns within its fuel, does not panic, and keeps its buffer
    within the limit plus one chunk. *)
Theorem decoder_bounded `{C : FrameCipher} (L : FrameCipherLaws C) `{B : Base122}
    (BL : Base122Laws B) m this :
  0 <= m -> Forall (fun ev => match ev with Chunk b => zlen b <= m | _ => True end) (inner this) ->
  (eos this = true -> inner this = []) ->
  zlen (buf this) <= Z.max 0 (max_buf_size this) + m ->
  exists r this', decoder_poll_next this = Some (r, this') /\ r <> Ready (Some Panic) /\
    zlen (buf this') <= Z.max 0 (max_buf_size this) + m.
Proof.
  intros Hm Hev Heos Hb. apply decoder_loop_bounded; try done.
  unfold decoder_fuel. destruct (eos this); lia.
Qed.

(** End to end, from the reader of the sending shaper to the items of the
    receiving decoder: when the sender's stream ended, the data delivered is
    exactly the sender's input, under consecutive numbers, for every chunking
    of the bytes in between and the server's buffer limit. *)
Theorem shaper_decoder_transparent `{C : FrameCipher} (L : FrameCipherLaws C) `{B : Base122}
    (BL : Base122Laws B) jitter_table config rd start now word envs sqs stream this' evs :
  validate config = Ok tt -> config_unsigned config ->
  0 <= start -> start + zlen envs < u64_max -> Forall env_ok envs ->
  run_shaper jitter_table envs (with_seq rd (resolve config) start now word) [] =
    Some (sqs, stream, true, this') ->
  no_body_error evs -> body_bytes evs = stream ->
  exists polls items,
    collect polls (FrameDecoder_new evs (encoding_type config) MAX_FRAME_BUF_SIZE) = (items, Finished) /\
    map fst items = sqs /\ concat (map snd items) = input rd.
Proof.
  intros Hv Hu H0 Hmax He Hrun Herr Hb. pose proof (zlen_nonneg envs).
  pose proof (with_seq_wf config rd start now word Hv Hu ltac:(lia)) as Hwf.
  destruct (run_shaper_ok jitter_table envs _ [] He Hwf Hmax)
    as (datas & stream' & ended & t & Hr & Hf & _ & Hin & Hend).
  rewrite Hrun in Hr. injection Hr as -> Hs <- ->. specialize (Hend eq_refl).
  exists (S (length evs + length datas)), (zip (seqZ start (zlen datas)) datas). split.
  - rewrite (collect_owed _ _ start datas []); [done| |cbn; lia].
    split; [destruct (encoding_type config); vm_compute; congruence|]. split; [done|]. split; [done|].
    exists stream'. split; [done|]. split; [by left|]. cbn in *. by rewrite app_nil_r, Hb.
  - assert (Hlen : length (seqZ start (zlen datas)) = length datas).
    { rewrite length_seqZ. unfold zlen. lia. }
    rewrite fst_zip, snd_zip by lia. split; [done|].
    change (backlog _) with (input rd) in Hin at 1. by rewrite Hin, Hend, app_nil_r.
Qed.

(** ** Witnesses *)

(** Two frames of the toy cipher, and the second one's first half. *)
Definition toy_frame (sq : Z) (data : bytes) : bytes :=
  match encode_frame toy_nonce toy_draw data sq 0 (0, 0) Binary with Ok f => f | _ => [] end.

Lemma toy_is_frame sq data :
  0 <= sq < u64_max -> zlen data <= MAX_RAW_PAYLOAD -> is_frame Binary sq data (toy_frame sq data).
Proof.
  intros Hsq Hd. unfold toy_frame, encode_frame.
  destruct (encode_frame_into_wire (C := toy_cipher) (L := aes_frame_cipher_laws toy_aes)
    toy_nonce toy_draw data sq 0 (0, 0) Binary [] eq_refl toy_draw_ok) as (pad & ct & He & ? & ? & _ & _ & ? & ?).
  - by vm_compute.
  - done.
  - rewrite He. by exists pad, ct.
Qed.

Lemma decoder_chunking_witness :
  collect 6 (FrameDecoder_new
      [Chunk (ztake 5 (toy_frame 4 (str "one"))); BodyPending; Chunk [];
       Chunk (zdrop 5 (toy_frame 4 (str "one")) ++ ztake 1 (toy_frame 5 (str "two")))]
      Binary MAX_FRAME_BUF_SIZE)
    = ([(4, str "one")], Failed trailing_error).
Proof.
  rewrite (decoder_chunking (aes_frame_cipher_laws toy_aes) toy_base122_laws Binary 4 [str "one"]
    (toy_frame 4 (str "one")) (ztake 1 (toy_frame 5 (str "two")))).
  - reflexivity.
  - vm_compute. congruence.
  - exists (toy_frame 4 (str "one")), []. split; [reflexivity|]. split; [|reflexivity].
    apply toy_is_frame; vm_compute; intuition congruence.
  - right. exists 5, (str "two"), (toy_frame 5 (str "two")), (zdrop 1 (toy_frame 5 (str "two"))).
    split; [apply toy_is_frame; vm_compute; intuition congruence|]. split; [reflexivity|discriminate].
  - repeat constructor.
  - reflexivity.
  - cbn. lia.
Defined.

Lemma decoder_bounded_witness :
  exists r this', decoder_poll_next (FrameDecoder_new [Chunk (str "xyz")] Json 100) = Some (r, this') /\
    r <> Ready (Some Panic).
Proof.
  destruct (decoder_bounded (aes_frame_cipher_laws toy_aes) toy_base122_laws 3
    (FrameDecoder_new [Chunk (str "xyz")] Json 100)) as (r & this' & H & Hp & _).
  - lia.
  - repeat constructor. vm_compute. congruence.
  - discriminate.
  - vm_compute. congruence.
  - exists r, this'. split; [exact H|exact Hp].
Defined.

Definition toy_run : list Z * bytes * bool * TrafficShaper :=
  default ([], [], false, with_seq [] (resolve toy_config) 0 0 0)
    (run_shaper (fun _ => 5) [toy_env true; toy_env true; toy_env true]
      (with_seq [RdData (str "abc"); RdPending; RdData (str "de"); RdData []]
         (resolve toy_config) 3 0 77) []).

Lemma shaper_decoder_transparent_witness :
  exists polls items,
    collect polls (FrameDecoder_new [Chunk (ztake 9 (snd (fst (fst toy_run)))); BodyPending;
       Chunk (zdrop 9 (snd (fst (fst toy_run))))] Json MAX_FRAME_BUF_SIZE) = (items, Finished) /\
    map fst items = fst (fst (fst toy_run)) /\ concat (map snd items) = str "abcde".
Proof.
  apply (shaper_decoder_transparent (aes_frame_cipher_laws toy_aes) toy_base122_laws (fun _ => 5) toy_config
    [RdData (str "abc"); RdPending; RdData (str "de"); RdData []] 3 0 77
    [toy_env true; toy_env true; toy_env true] _ (snd (fst (fst toy_run))) (snd toy_run)).
  - reflexivity.
  - split; [vm_compute; congruence|]. repeat constructor; vm_compute; congruence.
  - lia.
  - reflexivity.
  - do 3 (constructor; [apply toy_env_ok|]). constructor.
  - vm_compute. reflexivity.
  - repeat constructor.
  - vm_compute. reflexivity.
Defined.
