(* ===== verification/Errors.v ===== *)
(** * Errors

    The two error types of [src/error/mod.rs]: the server's HTTP answer and the
    client's error with its printed form. *)

From S2P Require Import Prelude.

(** A status code and a message. *)
Record ServerError : Type := mkServerError { status : Z; message : string }.

#[export] Instance ServerError_eq_dec : EqDecision ServerError.
Proof. solve_decision. Defined.

Definition bad_request (m : string) : ServerError := mkServerError 400 m.
Definition bad_gateway (m : string) : ServerError := mkServerError 502 m.
Definition gateway_timeout (m : string) : ServerError := mkServerError 504 m.
Definition request_timeout (m : string) : ServerError := mkServerError 408 m.
Definition unauthorized (m : string) : ServerError := mkServerError 401 m.
Definition not_found (m : string) : ServerError := mkServerError 404 m.
Definition internal (m : string) : ServerError := mkServerError 500 m.
Definition payload_too_large (m : string) : ServerError := mkServerError 413 m.
Definition precondition_required (m : string) : ServerError := mkServerError 428 m.
Definition service_unavailable (m : string) : ServerError := mkServerError 503 m.

(** An I/O error becomes an internal server error with its text. *)
Definition server_error_of_io (e : IoError) : ServerError := internal (msg e).

Inductive HttpProxyError : Type :=
| EAnyhow (m : string)
| EIo (e : IoError)
| EProtocol (m : string)
| EConfig (m : string)
| EAuth (m : string)
| EDns (m : string)
| ETimeout (m : string)
| ENotFound (m : string)
| EPrecondition (m : string)
| EPayloadTooLarge (m : string).

(** [Display]. *)
Definition display (e : HttpProxyError) : string :=
  match e with
  | EAnyhow m => m
  | EIo e => String.append "I/O error: " (msg e)
  | EProtocol m => String.append "protocol error: " m
  | EConfig m => String.append "config error: " m
  | EAuth m => String.append "auth error: " m
  | EDns m => String.append "dns error: " m
  | ETimeout m => String.append "timeout: " m
  | ENotFound m => String.append "not found: " m
  | EPrecondition m => String.append "precondition: " m
  | EPayloadTooLarge m => String.append "payload too large: " m
  end.

(** [From<ServerError>]. *)
Definition of_server_error (e : ServerError) : HttpProxyError := EProtocol (message e).
