(* ===== verification/Upstream.v ===== *)
(** * Writing frames to the upstream

    [src/server/upstream.rs]: how a run of reassembled frames is written to a
    TCP socket with vectored writes. The socket is a parameter, the class
    [Socket] (tokio's [write_vectored], [write_all], [shutdown]); what the
    upload actor relies on is the class [FrameSink], which [tcp_sink] meets. *)

From S2P Require Import Prelude.

Definition MAX_WRITE_IOV : Z := 64.

(** ** The socket *)

(** [None] is an operation that does not complete: the caller's timeout then
    cancels it. [sent] is what the peer has been sent so far. *)
Class Socket := {
  socket : Type;
  sent : socket -> bytes;
  write_vectored : list bytes -> socket -> option (Res IoError Z) * socket;
  write_all : bytes -> socket -> option (Res IoError unit) * socket;
  sock_shutdown : socket -> option (Res IoError unit) * socket
}.

(** [a] was extended by the first [k] bytes of [b]. *)
Definition sent_prefix (before b after : bytes) : Prop :=
  exists k, after = before ++ ztake k b.

(** A vectored write sends a prefix of the slices and returns its length; an
    incomplete or failed one sends nothing. *)
Class SocketLaws (S : Socket) := {
  write_vectored_ok : forall slices s n s', write_vectored slices s = (Some (Ok n), s') ->
    0 <= n /\ n <= zlen (concat slices) /\ sent s' = sent s ++ ztake n (concat slices);
  write_vectored_fail : forall slices s r s', write_vectored slices s = (r, s') ->
    (forall n, r <> Some (Ok n)) -> r <> Some Panic /\ sent s' = sent s;
  write_all_ok : forall b s s', write_all b s = (Some (Ok tt), s') -> sent s' = sent s ++ b;
  write_all_any : forall b s r s', write_all b s = (r, s') ->
    r <> Some Panic /\ sent_prefix (sent s) b (sent s');
  sock_shutdown_sent : forall s r s', sock_shutdown s = (r, s') ->
    r <> Some Panic /\ sent s' = sent s
}.

(** ** Operations *)

Section tcp.
Context `{S : Socket}.

(** The slices of one vectored write: from frame [first], its first [skip]
    bytes left out. *)
Definition io_slices (rest : list bytes) (skip : Z) : list bytes :=
  match ztake MAX_WRITE_IOV rest with
  | f :: fs => zdrop skip f :: fs
  | [] => []
  end.

(** The inner [while left > 0] loop; [rest] is [frames[first..]]. *)
Fixpoint advance (rest : list bytes) (first skip left : Z) : Z * Z :=
  match rest with
  | f :: rest =>
      if 0 <? left then
        let remain := zlen f - skip in
        if remain <=? left then advance rest (first + 1) 0 (left - remain)
        else (first, skip + left)
      else (first, skip)
  | [] => (first, skip)
  end.

(** The outer loop; the outer [option] is [None] only when [fuel] runs out. *)
Fixpoint write_vectored_loop (fuel : nat) (frames : list bytes) (first skip : Z) (s : socket)
    : option (option (Res IoError unit) * socket) :=
  match fuel with
  | O => None
  | Datatypes.S fuel =>
      if first <? zlen frames then
        match write_vectored (io_slices (zdrop first frames) skip) s with
        | (Some (Ok written), s) =>
            if written =? 0 then Some (Some (Err (mkIoError WriteZero "write zero")), s)
            else
              let '(first, skip) := advance (zdrop first frames) first skip written in
              write_vectored_loop fuel frames first skip s
        | (Some (Err e), s) => Some (Some (Err e), s)
        | (Some Panic, s) => Some (Some Panic, s)
        | (None, s) => Some (None, s)
        end
      else Some (Some (Ok tt), s)
  end.

(** Every round but the last sends at least one byte. *)
Definition write_fuel (frames : list bytes) : nat := 2 + length (concat frames).

Definition write_vectored_all (frames : list bytes) (s : socket)
    : option (Res IoError unit) * socket :=
  default (None, s) (write_vectored_loop (write_fuel frames) frames 0 0 s).

Definition write_tcp_frames (frames : list bytes) (s : socket)
    : option (Res IoError unit) * socket :=
  match frames with
  | [f] => write_all f s
  | _ => write_vectored_all frames s
  end.
End tcp.

(** ** What the upload actor relies on *)

(** A frame whose length an HTTP/3 frame can announce. *)
Definition announceable (f : bytes) : Prop := zlen f < 2 ^ 62.

(** [intact] is whether the sink can be written to: an HTTP/3 stream on which
    a write failed inside a frame cannot. *)
Class FrameSink := {
  sink : Type;
  delivered : sink -> bytes;
  intact : sink -> Prop;
  write_frames : list bytes -> sink -> option (Res IoError unit) * sink;
  shutdown : sink -> option (Res IoError unit) * sink
}.

Class FrameSinkLaws (W : FrameSink) := {
  write_frames_ok : forall fs w w', intact w -> Forall announceable fs -> write_frames fs w = (Some (Ok tt), w') ->
    delivered w' = delivered w ++ concat fs /\ intact w';
  write_frames_any : forall fs w r w', intact w -> Forall announceable fs -> write_frames fs w = (r, w') ->
    r <> Some Panic /\ sent_prefix (delivered w) (concat fs) (delivered w');
  shutdown_delivered : forall w r w', shutdown w = (r, w') ->
    r <> Some Panic /\ delivered w' = delivered w
}.

(** [UpstreamWrite::Direct]. *)
Definition tcp_sink `(S : Socket) : FrameSink := {|
  sink := socket;
  delivered := sent;
  intact _ := True;
  write_frames := write_tcp_frames;
  shutdown := sock_shutdown
|}.

(** ** Lemmas *)

Lemma short_announceable f : zlen f < u16_max -> announceable f.
Proof. unfold announceable, u16_max. lia. Qed.

Lemma sent_prefix_all a b c : c = a ++ b -> sent_prefix a b c.
Proof. intros ->. exists (zlen b). by rewrite ztake_all. Qed.

Lemma sent_prefix_app a b c d : sent_prefix (a ++ b) c d -> sent_prefix a (b ++ c) d.
Proof.
  intros [k ->]. exists (zlen b + Z.max 0 k). rewrite <- app_assoc. f_equal.
  rewrite ztake_app_ge by zl. f_equal. unfold ztake. f_equal. lia.
Qed.

Lemma sent_prefix_weaken before b c after :
  sent_prefix before b after -> (exists tail, c = b ++ tail) -> sent_prefix before c after.
Proof.
  intros [k ->] [tail ->]. exists (Z.min k (zlen b)). f_equal. rewrite ztake_app_le by lia.
  unfold ztake. pose proof (zlen_nonneg b). destruct (decide (k <= zlen b)); [f_equal; lia|].
  rewrite !firstn_all2; [done|unfold zlen in *; lia..].
Qed.

(** A prefix that is not shorter is all. *)
Lemma sent_prefix_whole before b after tail : sent_prefix before b after -> after = before ++ b ++ tail -> after = before ++ b.
Proof.
  intros [k ->] H. apply app_inv_head in H. f_equal. pose proof (f_equal zlen H) as Hl. rewrite zlen_app in Hl.
  assert (zlen (ztake k b) <= zlen b).
  { unfold ztake, zlen. rewrite length_take. lia. }
  pose proof (zlen_nonneg tail). assert (Ht : tail = []) by (destruct tail; [done|]; rewrite zlen_cons in *; pose proof (zlen_nonneg tail); lia).
  by rewrite H, Ht, app_nil_r.
Qed.

Lemma sent_prefix_none a b : sent_prefix a b a.
Proof. exists 0. by rewrite ztake_0, app_nil_r. Qed.

(** What is left to send from frame [first] (the head of [rest]) on. *)
Definition unsent (rest : list bytes) (skip : Z) : bytes :=
  match rest with
  | f :: fs => zdrop skip f ++ concat fs
  | [] => []
  end.

(** The bytes skipped in the head frame are less than all of it. *)
Definition head_skip (rest : list bytes) (skip : Z) : Prop :=
  match rest with f :: _ => skip = 0 \/ skip < zlen f | [] => True end.

Lemma io_slices_unsent rest skip :
  exists tail, unsent rest skip = concat (io_slices rest skip) ++ tail.
Proof.
  unfold io_slices, unsent. destruct rest as [|f fs]; [by exists []|].
  change (ztake MAX_WRITE_IOV (f :: fs)) with (f :: take 63 fs).
  exists (concat (drop 63 fs)). cbn [concat]. rewrite <- app_assoc, <- concat_app.
  by rewrite take_drop.
Qed.

Lemma advance_unsent rest first skip left first' skip' :
  0 <= skip -> 0 <= left -> left <= zlen (unsent rest skip) ->
  head_skip rest skip ->
  advance rest first skip left = (first', skip') ->
  exists k, 0 <= k /\ first' = first + k /\ k <= zlen rest /\ 0 <= skip' /\
    head_skip (zdrop k rest) skip' /\
    unsent (zdrop k rest) skip' = zdrop left (unsent rest skip).
Proof.
  revert first skip left. induction rest as [|f fs IH]; intros first skip left Hs Hl Hle Hf Ha; cbn in Ha.
  - simplify_eq. exists 0. rewrite zdrop_0. split_and!; try done; [lia|]. unfold unsent, zdrop. by rewrite drop_nil.
  - assert (Hstay : forall s', 0 <= s' -> head_skip (f :: fs) s' ->
      zdrop s' f ++ concat fs = zdrop left (unsent (f :: fs) skip) ->
      exists k, 0 <= k /\ first = first + k /\ k <= zlen (f :: fs) /\ 0 <= s' /\
        head_skip (zdrop k (f :: fs)) s' /\
        unsent (zdrop k (f :: fs)) s' = zdrop left (unsent (f :: fs) skip)).
    { intros s' ? ? Hu. exists 0. rewrite zdrop_0. split_and!; try done; zl. }
    assert (skip <= zlen f) by (destruct Hf; pose proof (zlen_nonneg f); lia).
    cbn [unsent] in *. destruct (Z.ltb_spec 0 left).
    + destruct (Z.leb_spec (zlen f - skip) left) as [Hr|Hr].
      * destruct (IH (first + 1) 0 (left - (zlen f - skip))) as (k & Hk & -> & Hkl & Hs' & Hh & Hu);
          [lia|lia| | |done|].
        { rewrite zlen_app, zlen_zdrop in Hle. destruct fs; cbn [unsent concat] in *; [cbn; zl|].
          rewrite zdrop_0. lia. }
        { destruct fs; [done|by left]. }
        exists (k + 1). rewrite zlen_cons.
        assert (Hd : zdrop (k + 1) (f :: fs) = zdrop k fs).
        { unfold zdrop. replace (Z.to_nat (k + 1)) with (Datatypes.S (Z.to_nat k)) by lia. done. }
        rewrite Hd. split_and!; try done; [lia..|]. rewrite Hu.
        rewrite (zdrop_app_ge left) by zl. rewrite zlen_zdrop.
        replace (left - Z.max 0 (zlen f - Z.max 0 skip)) with (left - (zlen f - skip)) by lia.
        f_equal. by destruct fs.
      * injection Ha as <- <-. apply Hstay; [lia|right; lia|].
        rewrite zdrop_app_le by zl. by rewrite zdrop_zdrop.
    + injection Ha as <- <-. apply Hstay; [lia|done|]. replace left with 0 by lia. done.
Qed.

(** The inner loop runs past the end only over a non-empty last frame. *)
Lemma advance_end rest first skip left skip' :
  0 <= skip -> head_skip rest skip -> 0 < left -> left <= zlen (unsent rest skip) ->
  advance rest first skip left = (first + zlen rest, skip') ->
  exists f, last rest = Some f /\ f <> [].
Proof.
  revert first skip left. induction rest as [|f fs IH]; intros first skip left Hs Hh Hl Hle Ha.
  { cbn [unsent] in Hle. zl. }
  cbn [unsent advance] in *. rewrite zlen_cons in Ha. pose proof (zlen_nonneg fs).
  destruct (Z.ltb_spec 0 left); [|lia].
  destruct (Z.leb_spec (zlen f - skip) left); [|injection Ha as Ha _; lia].
  destruct fs as [|g fs].
  - exists f. split; [done|]. intros ->. cbn [concat] in Hle. rewrite app_nil_r in Hle. zl.
  - cbn [last]. destruct (decide (left = zlen f - skip)) as [He|Hne].
    + rewrite He, Z.sub_diag in Ha. cbn [advance] in Ha. change (0 <? 0) with false in Ha. cbv iota in Ha. rewrite zlen_cons in Ha.
      pose proof (zlen_nonneg fs). injection Ha as Ha _. lia.
    + pose proof (zlen_nonneg f). cbn [head_skip] in Hh.
      apply (IH (first + 1) 0 (left - (zlen f - skip))); [lia|by left|lia| |].
      * cbn [unsent]. rewrite zdrop_0. cbn [concat] in Hle. zl.
      * rewrite Ha. f_equal. lia.
Qed.

Section tcp_proofs.
Context `{S : Socket} {SL : SocketLaws S}.

Lemma write_vectored_loop_ok fuel frames first skip s :
  0 <= first -> 0 <= skip ->
  head_skip (zdrop first frames) skip ->
  (length (unsent (zdrop first frames) skip) + 2 <= fuel)%nat ->
  exists r s', write_vectored_loop fuel frames first skip s = Some (r, s') /\
    r <> Some Panic /\
    sent_prefix (sent s) (unsent (zdrop first frames) skip) (sent s') /\
    (r = Some (Ok tt) -> sent s' = sent s ++ unsent (zdrop first frames) skip).
Proof.
  revert first skip s. induction fuel as [|fuel IH]; intros first skip s Hf Hs Hh Hfuel; [lia|].
  cbn [write_vectored_loop]. set (rest := zdrop first frames) in *.
  destruct (Z.ltb_spec first (zlen frames)) as [Hlt|Hge].
  2:{ exists (Some (Ok tt)), s. split; [done|]. split; [done|].
      assert (rest = []) as -> by (apply zdrop_all; lia). cbn. rewrite app_nil_r.
      split; [|done]. exists 0. by rewrite ztake_0, app_nil_r. }
  destruct (write_vectored (io_slices rest skip) s) as [r s1] eqn:Hw.
  assert (Hfail : (forall n, r <> Some (Ok n)) ->
    r <> Some Panic /\ sent_prefix (sent s) (unsent rest skip) (sent s1)).
  { intros Hn. destruct (write_vectored_fail _ _ _ _ Hw Hn) as [? ->].
    split; [done|]. exists 0. by rewrite ztake_0, app_nil_r. }
  destruct r as [[n|e|]|].
  - destruct (write_vectored_ok _ _ _ _ Hw) as (Hn & Hle & Hsent).
    destruct (io_slices_unsent rest skip) as [tail Htail].
    assert (Hpre : ztake n (concat (io_slices rest skip)) = ztake n (unsent rest skip)).
    { rewrite Htail. by rewrite ztake_app_le. }
    destruct (Z.eqb_spec n 0) as [->|Hn0].
    { eexists _, _. split; [done|]. split; [done|]. split; [|done].
      exists 0. by rewrite Hsent, Hpre. }
    destruct (advance rest first skip n) as [first' skip'] eqn:Ha.
    assert (Hnu : n <= zlen (unsent rest skip)) by (rewrite Htail; zl).
    destruct (advance_unsent rest first skip n first' skip' Hs Hn Hnu Hh Ha)
      as (k & Hk & -> & Hkl & Hs' & Hh' & Hu).
    assert (Hrest : zdrop k rest = zdrop (first + k) frames) by (unfold rest; by rewrite zdrop_zdrop).
    rewrite Hrest in *.
    destruct (IH (first + k) skip' s1) as (r & s' & -> & Hp & Hpref & Hok); try done; [lia| |].
    { rewrite Hu. unfold zdrop. rewrite length_drop. unfold zlen in *. lia. }
    eexists _, _. split; [done|]. split; [done|]. rewrite Hu, Hsent, Hpre in *. split.
    + destruct Hpref as [j ->]. exists (n + Z.max 0 j). rewrite <- app_assoc. f_equal.
      rewrite <- (ztake_zdrop n (unsent rest skip)) at 3.
      rewrite ztake_app_ge by zl. f_equal. rewrite zlen_ztake.
      unfold ztake. f_equal. lia.
    + intros Hr. by rewrite (Hok Hr), <- app_assoc, ztake_zdrop.
  - destruct Hfail as [? ?]; [done|]. by eexists _, _.
  - by destruct Hfail as [? ?].
  - destruct Hfail as [? ?]; [done|]. by eexists _, _.
Qed.

Lemma unsent_0 frames : unsent frames 0 = concat frames.
Proof. by destruct frames. Qed.

Lemma write_vectored_all_ok frames s :
  exists r s', write_vectored_loop (write_fuel frames) frames 0 0 s = Some (r, s') /\
    write_vectored_all frames s = (r, s') /\ r <> Some Panic /\
    sent_prefix (sent s) (concat frames) (sent s') /\
    (r = Some (Ok tt) -> sent s' = sent s ++ concat frames).
Proof.
  destruct (write_vectored_loop_ok (write_fuel frames) frames 0 0 s) as (r & s' & Hr & Hp & Hpre & Hok).
  - done.
  - done.
  - rewrite zdrop_0. destruct frames; [done|by left].
  - rewrite zdrop_0, unsent_0. unfold write_fuel. lia.
  - rewrite zdrop_0, unsent_0 in *. exists r, s'. unfold write_vectored_all. by rewrite Hr.
Qed.

Lemma write_tcp_frames_ok frames s s' :
  write_tcp_frames frames s = (Some (Ok tt), s') -> sent s' = sent s ++ concat frames.
Proof.
  intros Hw. unfold write_tcp_frames in Hw.
  destruct frames as [|f [|g fs]]; try (apply write_all_ok in Hw; cbn; by rewrite app_nil_r).
  all: edestruct write_vectored_all_ok as (r & s1 & _ & Ha & _ & _ & Hok); rewrite Ha in Hw;
    injection Hw as -> ->; by apply Hok.
Qed.

Lemma write_tcp_frames_any frames s r s' :
  write_tcp_frames frames s = (r, s') -> r <> Some Panic /\ sent_prefix (sent s) (concat frames) (sent s').
Proof.
  intros Hw. unfold write_tcp_frames in Hw.
  destruct frames as [|f [|g fs]].
  2:{ apply write_all_any in Hw. cbn. by rewrite app_nil_r. }
  all: edestruct write_vectored_all_ok as (r1 & s1 & _ & Ha & ? & ? & _); rewrite Ha in Hw;
    injection Hw as -> ->; done.
Qed.

#[export] Instance tcp_sink_laws : FrameSinkLaws (tcp_sink S).
Proof.
  split; cbn.
  - intros fs w w' _ _ Hw. split; [by apply write_tcp_frames_ok|done].
  - intros fs w r w' _ _. apply write_tcp_frames_any.
  - intros w r w' Hw. by apply sock_shutdown_sent in Hw.
Qed.

(** A socket on which every write of something sends something. *)
Definition progressing : Prop := forall slices s, exists n s',
  write_vectored slices s = (Some (Ok n), s') /\ (concat slices <> [] -> 0 < n).

Lemma io_slices_nonempty rest skip :
  unsent rest skip <> [] -> head_skip rest skip -> 0 <= skip ->
  zlen rest <= MAX_WRITE_IOV -> concat (io_slices rest skip) <> [].
Proof.
  intros Hu Hh Hs Hr. unfold io_slices. destruct rest as [|f fs]; [done|].
  rewrite ztake_all by done. done.
Qed.

(** Nothing left to send from a frame on: the last one is empty. *)
Lemma unsent_nil_last l sk f :
  head_skip l sk -> 0 <= sk -> unsent l sk = [] -> last l = Some f -> f = [].
Proof.
  revert sk. induction l as [|g l IHl]; intros sk Hh Hsk Hu Hl; [done|].
  cbn [unsent] in Hu. apply app_nil in Hu as [Hg Hc]. destruct l as [|h l].
  - cbn in Hl. simplify_eq. apply (f_equal zlen) in Hg. rewrite zlen_zdrop in Hg.
    change (zlen []) with 0 in Hg. apply zlen_0_nil. destruct Hh; [zl|lia].
  - apply (IHl 0); [by left|lia|exact Hc|done].
Qed.

Lemma last_zdrop {A} n (l : list A) x : 0 <= n < zlen l -> last l = Some x -> last (zdrop n l) = Some x.
Proof.
  intros Hn Hl. rewrite <- (ztake_zdrop n l) in Hl. rewrite last_app in Hl.
  destruct (last (zdrop n l)) eqn:E; [done|]. apply last_None in E.
  apply (f_equal zlen) in E. rewrite zlen_zdrop in E. change (zlen []) with 0 in E.
  pose proof (zlen_nonneg l). lia.
Qed.

(** The result of the loop on a progressing socket. *)
Lemma write_vectored_loop_result fuel frames first skip s f :
  progressing -> zlen frames <= MAX_WRITE_IOV ->
  0 <= first -> first < zlen frames -> 0 <= skip -> head_skip (zdrop first frames) skip ->
  last frames = Some f ->
  (length (unsent (zdrop first frames) skip) + 2 <= fuel)%nat ->
  exists s', write_vectored_loop fuel frames first skip s =
      Some (Some (if decide (f = []) then Err (mkIoError WriteZero "write zero") else Ok tt), s') /\
    sent s' = sent s ++ unsent (zdrop first frames) skip.
Proof.
  intros Hprog Hiov. revert first skip s. induction fuel as [|fuel IH]; intros first skip s Hf Hlt Hs Hh Hlast Hfuel; [lia|].
  cbn [write_vectored_loop]. destruct (Z.ltb_spec first (zlen frames)); [|lia].
  set (rest := zdrop first frames) in *.
  assert (Hlr : last rest = Some f) by (apply last_zdrop; [lia|done]).
  destruct (Hprog (io_slices rest skip) s) as (n & s1 & Hw & Hpos). rewrite Hw.
  destruct (write_vectored_ok _ _ _ _ Hw) as (Hn & Hle & Hsent).
  destruct (io_slices_unsent rest skip) as [tail Htail].
  assert (Hpre : ztake n (concat (io_slices rest skip)) = ztake n (unsent rest skip)).
  { rewrite Htail. by rewrite ztake_app_le. }
  destruct (decide (unsent rest skip = [])) as [Hu|Hu].
  - rewrite Hu in *. assert (concat (io_slices rest skip) = []) as Hc.
    { symmetry in Htail. by apply app_nil in Htail as [? _]. }
    rewrite Hc in *. change (zlen []) with 0 in Hle. replace n with 0 in * by lia. cbn [Z.eqb].
    exists s1. rewrite Hsent. split; [|done]. rewrite decide_True; [done|].
    by apply (unsent_nil_last rest skip).
  - assert (Hpn : 0 < n).
    { apply Hpos, io_slices_nonempty; try done. unfold rest. rewrite zlen_zdrop.
      pose proof (zlen_nonneg frames). lia. }
    destruct (Z.eqb_spec n 0); [lia|].
    destruct (advance rest first skip n) as [first' skip'] eqn:Ha.
    assert (Hnu : n <= zlen (unsent rest skip)) by (rewrite Htail; zl).
    destruct (advance_unsent rest first skip n first' skip' Hs Hn Hnu Hh Ha)
      as (k & Hk & -> & Hkl & Hs' & Hh' & Hu').
    assert (Hrest : zdrop k rest = zdrop (first + k) frames) by (unfold rest; by rewrite zdrop_zdrop).
    assert (Hrl : zlen rest = zlen frames - first) by (unfold rest; rewrite zlen_zdrop; lia).
    destruct (decide (first + k < zlen frames)) as [Hlt'|Hge].
    + rewrite Hrest in *. destruct (IH (first + k) skip' s1) as (s' & -> & Hd); try done; [lia| |].
      { rewrite Hu'. unfold zdrop. rewrite length_drop. unfold zlen in *. lia. }
      exists s'. split; [done|]. by rewrite Hd, Hsent, Hpre, Hu', <- app_assoc, ztake_zdrop.
    + replace k with (zlen rest) in * by lia.
      destruct (advance_end rest first skip n skip' Hs Hh Hpn Hnu Ha) as (f' & Hl' & Hne).
      rewrite Hlr in Hl'. simplify_eq. rewrite decide_False by done.
      destruct fuel as [|fuel]; [lia|]. cbn [write_vectored_loop].
      destruct (Z.ltb_spec (first + zlen rest) (zlen frames)); [lia|].
      exists s1. split; [done|]. rewrite Hsent, Hpre. f_equal.
      rewrite zdrop_all in Hu' by lia. cbn [unsent] in Hu'.
      rewrite <- (ztake_zdrop n (unsent rest skip)) at 2. by rewrite <- Hu', app_nil_r.
Qed.
End tcp_proofs.

(** ** Properties *)

(** Writing a run of frames always comes to an end; whatever the socket
    does (partial writes, errors, stalls), what the peer has been sent grows by
    a prefix of the frames' concatenation, and by all of it when the call
    returns [Ok]. *)
Theorem write_tcp_frames_delivery `(S : Socket) (SL : SocketLaws S) frames s :
  exists r s', write_tcp_frames frames s = (r, s') /\ r <> Some Panic /\
    is_Some (write_vectored_loop (write_fuel frames) frames 0 0 s) /\
    sent_prefix (sent s) (concat frames) (sent s') /\
    (r = Some (Ok tt) -> sent s' = sent s ++ concat frames).
Proof.
  destruct (write_vectored_all_ok frames s) as (rv & sv & Hl & _).
  destruct (write_tcp_frames frames s) as [r s'] eqn:Hw. exists r, s'.
  destruct (write_tcp_frames_any frames s r s' Hw) as [Hp Hpre].
  split; [done|]. split; [done|]. split; [by rewrite Hl|]. split; [done|].
  intros ->. exact (write_tcp_frames_ok frames s s' Hw).
Qed.

(** On a socket that makes progress, a run of at most 64 frames is
    delivered completely; the call reports it, except that after an empty last
    frame it returns [WriteZero] although every byte was sent. *)
Theorem write_vectored_all_result `(S : Socket) (SL : SocketLaws S) frames f s :
  progressing -> zlen (frames ++ [f]) <= MAX_WRITE_IOV ->
  exists s', write_vectored_all (frames ++ [f]) s =
      (Some (if decide (f = []) then Err (mkIoError WriteZero "write zero") else Ok tt), s') /\
    sent s' = sent s ++ concat frames ++ f.
Proof.
  intros Hp Hl. pose proof (zlen_nonneg frames).
  destruct (write_vectored_loop_result (write_fuel (frames ++ [f])) (frames ++ [f]) 0 0 s f Hp Hl)
    as (s' & Hr & Hs).
  - done.
  - zl.
  - done.
  - rewrite zdrop_0. destruct frames; by left.
  - by rewrite last_snoc.
  - rewrite zdrop_0, unsent_0. unfold write_fuel. lia.
  - rewrite zdrop_0, unsent_0, concat_app in Hs. cbn in Hs. rewrite app_nil_r in Hs.
    exists s'. unfold write_vectored_all. by rewrite Hr.
Qed.

(** ** A scripted socket *)

(** Each write takes the next answer: how many bytes it accepts, a stall or an
    error; without an answer it accepts everything. *)
Inductive WriteEvent : Type := Accept (n : Z) | Stall | WriteFails (e : IoError).

Definition toy_write (b : bytes) (s : bytes * list WriteEvent)
    : option (Res IoError Z) * (bytes * list WriteEvent) :=
  match snd s with
  | Accept n :: evs => (Some (Ok (zlen (ztake n b))), (fst s ++ ztake n b, evs))
  | Stall :: evs => (None, (fst s, evs))
  | WriteFails e :: evs => (Some (Err e), (fst s, evs))
  | [] => (Some (Ok (zlen b)), (fst s ++ b, []))
  end.

#[export] Instance toy_socket : Socket := {|
  socket := bytes * list WriteEvent;
  sent := fst;
  write_vectored slices s := toy_write (concat slices) s;
  write_all b s :=
    match toy_write b s with
    | (Some (Ok n), s) => (if n <? zlen b then Some (Err (mkIoError WriteZero "")) else Some (Ok tt), s)
    | (Some (Err e), s) => (Some (Err e), s)
    | (Some Panic, s) => (Some Panic, s)
    | (None, s) => (None, s)
    end;
  sock_shutdown s := (Some (Ok tt), s)
|}.

#[export] Instance toy_socket_laws : SocketLaws toy_socket.
Proof.
  assert (Hempty : forall a b : bytes, sent_prefix a b a).
  { intros a b. exists 0. by rewrite ztake_0, app_nil_r. }
  assert (Hfull : forall (b : bytes) n, zlen (ztake n b) = zlen b -> ztake n b = b).
  { intros b n Hn. rewrite zlen_ztake in Hn. destruct b; [by unfold ztake; rewrite take_nil|].
    rewrite zlen_cons in Hn. apply ztake_all. zl. }
  split.
  - intros slices [a [|[n| |e] evs]] k s'; cbn; intros [= <- <-]; cbn.
    + pose proof (zlen_nonneg (concat slices)). by rewrite ztake_all by done.
    + split; [apply zlen_nonneg|]. split; [zl|]. f_equal.
      rewrite zlen_ztake. unfold ztake. pose proof (zlen_nonneg (concat slices)).
      destruct (Z.le_ge_cases n (zlen (concat slices))); [f_equal; lia|].
      rewrite !firstn_all2; [done|unfold zlen in *; lia..].
  - intros slices [a [|[n| |e] evs]] r s'; cbn; intros [= <- <-] Hn; try done.
    all: by edestruct Hn.
  - intros b [a [|[n| |e] evs]] s'; cbn.
    + by rewrite Z.ltb_irrefl; intros [= <-].
    + destruct (Z.ltb_spec (zlen (ztake n b)) (zlen b)); intros [= <-]. cbn.
      f_equal. apply Hfull. zl.
    + done.
    + done.
  - intros b [a [|[n| |e] evs]] r s'; cbn.
    + rewrite Z.ltb_irrefl. intros [= <- <-]. split; [done|]. exists (zlen b). by rewrite ztake_all.
    + intros [= <- <-]. split; [by destruct (_ <? _)|]. by exists n.
    + intros [= <- <-]. split; [done|]. apply Hempty.
    + intros [= <- <-]. split; [done|]. apply Hempty.
  - intros s r s'. cbn. intros [= <- <-]. done.
Qed.

Lemma write_tcp_frames_delivery_witness :
  exists r s', write_tcp_frames [str "abc"; str "de"] (str "x", [Accept 2; Stall]) = (r, s') /\
    sent_prefix (str "x") (str "abcde") (sent s').
Proof.
  destruct (write_tcp_frames_delivery toy_socket toy_socket_laws [str "abc"; str "de"]
    (str "x", [Accept 2; Stall])) as (r & s' & H & _ & _ & Hp & _).
  exists r, s'. split; [exact H|exact Hp].
Defined.

(** A socket that accepts everything at once. *)
Definition eager_socket : Socket := {|
  socket := bytes;
  sent := id;
  write_vectored slices s := (Some (Ok (zlen (concat slices))), s ++ concat slices);
  write_all b s := (Some (Ok tt), s ++ b);
  sock_shutdown s := (Some (Ok tt), s)
|}.

Lemma eager_socket_laws : SocketLaws eager_socket.
Proof.
  split; cbn.
  - intros slices s n s' [= <- <-]. pose proof (zlen_nonneg (concat slices)).
    by rewrite ztake_all by done.
  - intros slices s r s' [= <- <-] Hn. by edestruct Hn.
  - by intros b s s' [= <-].
  - intros b s r s' [= <- <-]. split; [done|]. exists (zlen b). by rewrite ztake_all.
  - by intros s r s' [= <- <-].
Qed.

Lemma write_vectored_all_result_witness :
  exists s', write_vectored_all (S := eager_socket) ([str "ab"] ++ [[]]) (str "x") =
      (Some (Err (mkIoError WriteZero "write zero")), s') /\
    sent s' = str "xab".
Proof.
  destruct (write_vectored_all_result eager_socket eager_socket_laws [str "ab"] [] (str "x"))
    as (s' & H & Hs).
  - intros slices s. exists (zlen (concat slices)), (s ++ concat slices). split; [reflexivity|].
    intros Hne. destruct (concat slices); [by destruct Hne|]. reflexivity.
  - vm_compute. congruence.
  - exists s'. split; [exact H|exact Hs].
Defined.
