(* ===== verification/Upload.v ===== *)
(** * The upload actor

    [UploadActor] of [src/server/actor/upload.rs]: it puts the frames of one
    tunnel, which arrive over several requests in any order, back in sequence
    and writes them to the upstream, and answers the requests that ask for the
    end of the stream. The upstream is any [FrameSink]; an acknowledgement
    channel is the number [ack], the answers sent are logged in [answered]. *)

From S2P Require Import Prelude Errors Upstream.

Definition MAX_PENDING_BYTES : Z := 2 * 1024 * 1024.
Definition MAX_PENDING_FRAMES : Z := 8 * 1024.
Definition MAX_EOS_WAITERS : Z := 256.
Definition MAX_REORDER_SECS : Z := 10.

Inductive UploadCmd : Type :=
| CmdFrame (seq : Z) (data : bytes)
| CmdEos (max_seq ack : Z)
| CmdShutdown.

Inductive UploadPhase : Type :=
| Reordering (next_seq : Z) (pending : gmap Z bytes) (pending_bytes : Z)
    (eos_waiters : list (Z * Z))
| Draining (eos_waiters : list Z)
| Closed.

(** The loop over the waiters: those whose number was passed leave. *)
Fixpoint settle (fuel : nat) (i : nat) (ws : list (Z * Z)) (next_seq : Z) : list Z * list (Z * Z) :=
  match fuel with
  | O => ([], ws)
  | S fuel =>
      match ws !! i with
      | None => ([], ws)
      | Some (max_seq, ack) =>
          if max_seq <? next_seq then
            let '(acked, ws) := settle fuel i (swap_remove i ws) next_seq in (ack :: acked, ws)
          else settle fuel (S i) ws next_seq
      end
  end.

Section upload.
Context `{W : FrameSink}.

(** [upstream_open] is whether the code's [Option] still holds the upstream. *)
Record UploadActor : Type := mkUpload {
  phase : UploadPhase;
  upstream : sink;
  upstream_open : bool;
  last_activity : Z;
  answered : list (Z * Res ServerError unit)
}.

Definition UploadActor_new (up : sink) (initial_seq now : Z) : UploadActor :=
  mkUpload (Reordering initial_seq ∅ 0 []) up true now [].

(** [timeout(WRITE_TIMEOUT, write_frames)]: a write that does not complete
    times out. *)
Definition write_run (up : sink) (is_open : bool) (frames : list bytes) : bool * sink :=
  if is_open then
    match write_frames frames up with
    | (Some (Ok tt), up) => (true, up)
    | (_, up) => (false, up)
    end
  else (false, up).

(** The inner [while]: [slots] is the room left in [run_buf]. *)
Fixpoint gather (slots : nat) (next_seq : Z) (pending : gmap Z bytes) (pending_bytes : Z)
    (run_buf : list bytes) : list bytes * Z * gmap Z bytes * Z :=
  match slots with
  | O => (run_buf, next_seq, pending, pending_bytes)
  | S slots =>
      match pending !! next_seq with
      | None => (run_buf, next_seq, pending, pending_bytes)
      | Some next_data =>
          gather slots (as_u64 (next_seq + 1)) (delete next_seq pending)
            (pending_bytes - zlen next_data) (run_buf ++ [next_data])
      end
  end.

(** The outer [loop]; the first component tells whether every write succeeded.
    [None] only when [fuel] runs out. *)
Fixpoint flush_runs (fuel : nat) (head : bytes) (next_seq : Z) (pending : gmap Z bytes)
    (pending_bytes : Z) (up : sink) (is_open : bool)
    : option (bool * Z * gmap Z bytes * Z * sink) :=
  match fuel with
  | O => None
  | S fuel =>
      let next_seq := as_u64 (next_seq + 1) in
      let '(run_buf, next_seq, pending, pending_bytes) :=
        gather (Z.to_nat MAX_WRITE_IOV - 1) next_seq pending pending_bytes [head] in
      let '(written, up) := write_run up is_open run_buf in
      if negb written then Some (false, next_seq, pending, pending_bytes, up)
      else
        match pending !! next_seq with
        | Some next_data =>
            flush_runs fuel next_data next_seq (delete next_seq pending)
              (pending_bytes - zlen next_data) up is_open
        | None => Some (true, next_seq, pending, pending_bytes, up)
        end
  end.

Definition set_phase (this : UploadActor) (p : UploadPhase) : UploadActor :=
  mkUpload p (upstream this) (upstream_open this) (last_activity this) (answered this).

Definition send_acks (this : UploadActor) (acks : list Z) (r : Res ServerError unit) : UploadActor :=
  mkUpload (phase this) (upstream this) (upstream_open this) (last_activity this)
    (answered this ++ map (fun a => (a, r)) acks).

Definition shutdown_and_drain (this : UploadActor) : UploadActor :=
  let up := if upstream_open this then snd (shutdown (upstream this)) else upstream this in
  let p := match phase this with
           | Reordering _ _ _ ws => Draining (map snd ws)
           | Draining ws => Draining ws
           | Closed => Closed
           end in
  mkUpload p up false (last_activity this) (answered this).

(** The result tells whether the actor stops. *)
Definition handle_frame (seq : Z) (data : bytes) (this : UploadActor) : bool * UploadActor :=
  match phase this with
  | Reordering next_seq pending pending_bytes eos_waiters =>
      if seq <? next_seq then (false, this)
      else if seq =? next_seq then
        match flush_runs (S (size pending)) data next_seq pending pending_bytes
                (upstream this) (upstream_open this) with
        | Some (true, next_seq, pending, pending_bytes, up) =>
            let '(acked, eos_waiters) := settle (S (length eos_waiters)) 0 eos_waiters next_seq in
            (false, send_acks
               (mkUpload (Reordering next_seq pending pending_bytes eos_waiters) up
                  (upstream_open this) (last_activity this) (answered this))
               acked (Ok tt))
        | Some (false, next_seq, pending, pending_bytes, up) =>
            (true, shutdown_and_drain
               (mkUpload (Reordering next_seq pending pending_bytes eos_waiters) up
                  (upstream_open this) (last_activity this) (answered this)))
        | None => (true, this)
        end
      else if bool_decide (is_Some (pending !! seq)) then (false, this)
      else
        let len := zlen data in
        if (MAX_PENDING_FRAMES <=? Z.of_nat (size pending))
           || (MAX_PENDING_BYTES <? pending_bytes + len)
        then (true, shutdown_and_drain this)
        else (false, set_phase this
                (Reordering next_seq (<[seq := data]> pending) (pending_bytes + len) eos_waiters))
  | Draining _ | Closed => (false, this)
  end.

Definition handle_eos (max_seq ack : Z) (this : UploadActor) : bool * UploadActor :=
  match phase this with
  | Reordering next_seq pending pending_bytes eos_waiters =>
      if max_seq <? next_seq then (false, send_acks this [ack] (Ok tt))
      else if MAX_EOS_WAITERS <=? zlen eos_waiters
      then (true, send_acks this [ack] (Err (bad_gateway "upload EOS waiters overflow")))
      else (false, set_phase this
              (Reordering next_seq pending pending_bytes (eos_waiters ++ [(max_seq, ack)])))
  | Draining ws => (false, set_phase this (Draining (ws ++ [ack])))
  | Closed => (true, send_acks this [ack] (Err (bad_gateway "upload actor closed")))
  end.

Definition dispatch (now : Z) (cmd : UploadCmd) (this : UploadActor) : bool * UploadActor :=
  let this := mkUpload (phase this) (upstream this) (upstream_open this) now (answered this) in
  match cmd with
  | CmdShutdown => (true, shutdown_and_drain this)
  | CmdFrame seq data => handle_frame seq data this
  | CmdEos max_seq ack => handle_eos max_seq ack this
  end.

Definition ack_all_waiters (this : UploadActor) : UploadActor :=
  let err := gateway_timeout "upload drain timeout" in
  let acks := match phase this with
              | Reordering _ _ _ ws => map snd ws
              | Draining ws => ws
              | Closed => []
              end in
  send_acks (set_phase this Closed) acks (Err err).

(** What [run]'s [select!] wakes up to; the timer only when something waits. *)
Inductive UploadEvent : Type :=
| EvCmd (now : Z) (cmd : UploadCmd)
| EvChannelClosed
| EvTimer (now : Z).

Definition has_pending (this : UploadActor) : bool :=
  match phase this with
  | Reordering _ pending _ eos_waiters =>
      negb (bool_decide (pending = ∅)) || negb (bool_decide (eos_waiters = []))
  | _ => false
  end.

Definition run_step (ev : UploadEvent) (this : UploadActor) : bool * UploadActor :=
  match ev with
  | EvCmd now cmd => dispatch now cmd this
  | EvChannelClosed => (true, shutdown_and_drain this)
  | EvTimer now =>
      if has_pending this && (last_activity this + MAX_REORDER_SECS <=? now)
      then (true, shutdown_and_drain this)
      else (false, this)
  end.

(** [run]: until the loop breaks, and then the waiters are answered. The flag
    tells whether the actor has stopped. *)
Fixpoint run (evs : list UploadEvent) (this : UploadActor) : bool * UploadActor :=
  match evs with
  | [] => (false, this)
  | ev :: evs =>
      let '(stop, this) := run_step ev this in
      if stop then (true, ack_all_waiters this) else run evs this
  end.
End upload.

(** ** Lemmas: waiters *)

Lemma take_swap_remove {A} i (l : list A) : (i < length l)%nat -> take i (swap_remove i l) = take i l.
Proof.
  intros Hi. unfold swap_remove. destruct (last l); [|done].
  rewrite take_take, Nat.min_l by lia. apply take_insert_ge. lia.
Qed.

(** The waiters that leave are exactly those whose number was passed. *)
Lemma settle_spec fuel i ws next_seq acked ws' :
  Forall (fun w => next_seq <= fst w) (take i ws) -> (length ws - i < fuel)%nat ->
  settle fuel i ws next_seq = (acked, ws') ->
  exists gone, gone ++ ws' ≡ₚ ws /\ acked = map snd gone /\
    Forall (fun w => fst w < next_seq) gone /\ Forall (fun w => next_seq <= fst w) ws'.
Proof.
  revert i ws acked. induction fuel as [|fuel IH]; intros i ws acked Hpre Hfuel Hs; [lia|].
  cbn [settle] in Hs. destruct (ws !! i) as [[m a]|] eqn:Hi.
  - apply lookup_lt_Some in Hi as Hlt.
    destruct (Z.ltb_spec m next_seq) as [Hm|Hm].
    + destruct (settle fuel i (swap_remove i ws) next_seq) as [acked1 ws1] eqn:Hrec. simplify_eq.
      pose proof (swap_remove_perm i ws _ Hi) as Hp.
      destruct (IH i (swap_remove i ws) acked1) as (gone & Hg & -> & Hl & Hw); [| |done|].
      { by rewrite take_swap_remove. }
      { apply Permutation_length in Hp. cbn in Hp. lia. }
      exists ((m, a) :: gone). cbn. rewrite Hg. split; [done|]. split; [done|]. by split; [constructor|].
    + apply (IH (S i) ws); try done; [|lia]. rewrite (take_S_r _ _ _ Hi), Forall_app. by repeat constructor.
  - simplify_eq. exists []. apply lookup_ge_None in Hi. rewrite take_ge in Hpre by done. done.
Qed.

(** ** Lemmas: the reorder buffer *)

(** The bytes a reorder buffer holds. *)
Definition held (pending : gmap Z bytes) : Z := map_fold (fun _ d acc => zlen d + acc) 0 pending.

Lemma held_insert k d pending : pending !! k = None -> held (<[k:=d]> pending) = zlen d + held pending.
Proof. intros H. unfold held. rewrite map_fold_insert_L; [done| |done]. intros. lia. Qed.

Lemma held_delete k d pending : pending !! k = Some d -> held (delete k pending) = held pending - zlen d.
Proof.
  intros H. unfold held. rewrite (map_fold_delete_L _ _ k d pending); [lia| |done]. intros. lia.
Qed.

Lemma held_nonneg pending : 0 <= held pending.
Proof.
  unfold held. induction pending as [|k d pending Hk IH] using map_ind.
  - by rewrite map_fold_empty.
  - fold (held (<[k:=d]> pending)) in *. rewrite held_insert by done. unfold held. zl.
Qed.

(** A smaller buffer holds fewer bytes. *)
Lemma held_mono p q : p ⊆ q -> held p <= held q.
Proof.
  revert q. induction p as [|k d p Hk IH] using map_ind; intros q Hq.
  - unfold held at 1. rewrite map_fold_empty. apply held_nonneg.
  - rewrite held_insert by done.
    assert (Hqk : q !! k = Some d) by (eapply lookup_weaken; [|exact Hq]; apply lookup_insert_eq).
    pose proof (held_delete _ _ _ Hqk) as Hd.
    enough (held p <= held (delete k q)) by lia. apply IH.
    apply map_subseteq_spec. intros j x Hj. rewrite lookup_delete_ne.
    + eapply lookup_weaken; [|exact Hq]. rewrite lookup_insert_ne; [done|]. congruence.
    + congruence.
Qed.

Section delivery.
Context `{W : FrameSink} {WL : FrameSinkLaws W}.
(** The frames of the sender by number, the first number, what the upstream
    had been sent before, and the number an acknowledgement waits for. *)
Context (f : Z -> bytes) (init : Z) (s0 : bytes) (wants : Z -> Z).

(** Frames [a], ..., [b - 1] in order. *)
Definition chunk (a b : Z) : bytes := concat (map f (seqZ a (b - a))).

Definition seq_max : Z := u64_max - 1.

Lemma chunk_nil a : chunk a a = [].
Proof. unfold chunk. by rewrite Z.sub_diag. Qed.

Lemma chunk_app a b c : a <= b -> b <= c -> chunk a b ++ chunk b c = chunk a c.
Proof.
  intros. unfold chunk. rewrite <- concat_app, <- map_app.
  replace (c - a) with ((b - a) + (c - b)) by lia. rewrite seqZ_app by lia.
  do 4 f_equal. lia.
Qed.

Lemma chunk_cons a b : a < b -> chunk a b = f a ++ chunk (a + 1) b.
Proof.
  intros. rewrite <- (chunk_app a (a + 1) b) by lia. f_equal.
  unfold chunk. replace (a + 1 - a) with 1 by lia. rewrite (seqZ_cons a), seqZ_nil by lia. apply app_nil_r.
Qed.

(** The buffer holds frames of the sender, numbered from [next] on. *)
Definition buffer_ok (next : Z) (pending : gmap Z bytes) (pending_bytes : Z) : Prop :=
  pending_bytes = held pending /\
  forall k d, pending !! k = Some d -> next <= k < seq_max /\ d = f k /\ announceable (f k).

Lemma buffer_ok_delete next pending pending_bytes d :
  buffer_ok next pending pending_bytes -> pending !! next = Some d ->
  d = f next /\ announceable (f next) /\ next < seq_max /\
  buffer_ok (next + 1) (delete next pending) (pending_bytes - zlen d).
Proof.
  intros [-> Hk] Hd. destruct (Hk _ _ Hd) as (? & -> & ?). split; [done|]. split; [done|]. split; [lia|]. split.
  - by rewrite (held_delete _ _ _ Hd).
  - intros k d Hl. apply lookup_delete_Some in Hl as [Hne Hl]. destruct (Hk _ _ Hl). split; [lia|done].
Qed.

Lemma seq_succ n : 0 <= n < seq_max -> as_u64 (n + 1) = n + 1.
Proof. intros. apply as_u64_small. unfold seq_max in *. lia. Qed.

(** [next'] was reached from [next] by taking the frames in between out. *)
Definition taken (next next' : Z) (pending pending' : gmap Z bytes) : Prop :=
  (forall k, next <= k < next' -> is_Some (pending !! k)) /\
  (forall k, next' <= k -> pending' !! k = pending !! k) /\
  (size pending' <= size pending)%nat.

Lemma taken_refl n pending : taken n n pending pending.
Proof. split; [lia|]. done. Qed.

Lemma taken_step n n' pending pending' d :
  pending !! n = Some d -> n + 1 <= n' -> taken (n + 1) n' (delete n pending) pending' ->
  taken n n' pending pending' /\ (size pending' < size pending)%nat.
Proof.
  intros Hd Hn (Ht1 & Ht2 & Ht3).
  pose proof (map_size_delete_Some n pending (mk_is_Some _ _ Hd)).
  assert (size pending <> 0)%nat.
  { intros Hz. apply map_size_empty_inv in Hz as ->. done. }
  split; [split; [|split]|]; [| |lia|lia].
  - intros k Hk. destruct (decide (k = n)) as [->|]; [done|].
    destruct (Ht1 k ltac:(lia)) as [x Hx]. apply lookup_delete_Some in Hx as [_ Hx]. done.
  - intros k Hk. rewrite Ht2 by lia. apply lookup_delete_ne. lia.
Qed.

Lemma gather_spec slots next pending pending_bytes run_buf :
  0 <= next -> buffer_ok next pending pending_bytes ->
  exists next' pending' pending_bytes',
    gather slots next pending pending_bytes run_buf =
      (run_buf ++ map f (seqZ next (next' - next)), next', pending', pending_bytes') /\
    Forall announceable (map f (seqZ next (next' - next))) /\
    next <= next' /\ (next < next' -> next' <= seq_max) /\
    buffer_ok next' pending' pending_bytes' /\ taken next next' pending pending'.
Proof.
  revert next pending pending_bytes run_buf.
  induction slots as [|slots IH]; intros next pending pending_bytes run_buf H0 Hb; cbn [gather].
  { exists next, pending, pending_bytes. rewrite Z.sub_diag. cbn. rewrite app_nil_r.
    split; [done|]. split; [constructor|]. split; [lia|]. split; [lia|]. split; [done|apply taken_refl]. }
  destruct (pending !! next) as [d|] eqn:Hd.
  - destruct (buffer_ok_delete _ _ _ _ Hb Hd) as (-> & Hfit & Hlt & Hb').
    rewrite seq_succ by lia.
    destruct (IH (next + 1) _ _ (run_buf ++ [f next]) ltac:(lia) Hb')
      as (next' & pending' & pb' & -> & Hfits & Hle & Hmax & Hb'' & Ht).
    exists next', pending', pb'. destruct (taken_step _ _ _ _ _ Hd Hle Ht) as [Ht' _].
    rewrite <- app_assoc, (seqZ_cons next) by lia. change (Z.succ next) with (next + 1).
    replace (Z.pred (next' - next)) with (next' - (next + 1)) by lia.
    split; [done|]. split; [by constructor|]. split_and!; try done; lia.
  - exists next, pending, pending_bytes. rewrite Z.sub_diag. cbn. rewrite app_nil_r.
    split; [done|]. split; [constructor|]. split; [lia|]. split; [lia|]. split; [done|apply taken_refl].
Qed.

Lemma write_run_spec up frames ok up' :
  intact up -> Forall announceable frames -> write_run up true frames = (ok, up') ->
  sent_prefix (delivered up) (concat frames) (delivered up') /\
  (ok = true -> delivered up' = delivered up ++ concat frames /\ intact up').
Proof.
  intros Hi Hf. unfold write_run. destruct (write_frames frames up) as [r w] eqn:Hw.
  destruct (write_frames_any _ _ _ _ Hi Hf Hw) as [_ Hp].
  destruct r as [[[]|e|]|]; intros [= <- <-]; split; try done.
  intros _. by apply write_frames_ok in Hw.
Qed.

(** An upstream on which every write succeeds. *)
Definition reliable : Prop := forall fs w, intact w -> Forall announceable fs ->
  exists w', write_frames fs w = (Some (Ok tt), w').

Lemma flush_runs_spec fuel next pending pending_bytes up :
  intact up -> announceable (f next) ->
  0 <= next < seq_max -> buffer_ok (next + 1) pending pending_bytes -> (size pending < fuel)%nat ->
  exists ok next' pending' pending_bytes' up',
    flush_runs fuel (f next) next pending pending_bytes up true
      = Some (ok, next', pending', pending_bytes', up') /\
    next < next' <= seq_max /\ buffer_ok next' pending' pending_bytes' /\
    taken (next + 1) next' pending pending' /\
    sent_prefix (delivered up) (chunk next next') (delivered up') /\
    (ok = true -> pending' !! next' = None /\ delivered up' = delivered up ++ chunk next next' /\ intact up') /\
    (reliable -> ok = true).
Proof.
  revert next pending pending_bytes up.
  induction fuel as [|fuel IH]; intros next pending pending_bytes up Hup Hfn Hn Hb Hfuel; [lia|].
  cbn [flush_runs]. rewrite seq_succ by done.
  destruct (gather_spec (Z.to_nat MAX_WRITE_IOV - 1) (next + 1) pending pending_bytes [f next] ltac:(lia) Hb)
    as (n1 & p1 & pb1 & -> & Hfits & Hle & Hmax & Hb1 & Ht).
  assert (Hall : Forall announceable ([f next] ++ map f (seqZ (next + 1) (n1 - (next + 1))))) by (by constructor).
  assert (Hrun : concat ([f next] ++ map f (seqZ (next + 1) (n1 - (next + 1)))) = chunk next n1).
  { rewrite chunk_cons by lia. done. }
  assert (Hn1 : next < n1 <= seq_max) by (destruct (decide (next + 1 < n1)); lia).
  destruct (write_run up true _) as [ok up1] eqn:Hw.
  destruct (write_run_spec _ _ _ _ Hup Hall Hw) as [Hp Hok]. rewrite Hrun in *.
  destruct ok; cbn [negb].
  2:{ exists false, n1, p1, pb1, up1. split_and!; try done; try lia.
      intros Hrel. unfold write_run in Hw. destruct (Hrel _ _ Hup Hall) as [w' Hw'].
      by rewrite Hw' in Hw. }
  destruct (Hok eq_refl) as [Hsent Hup1]. clear Hok. destruct (p1 !! n1) as [d|] eqn:Hd.
  - destruct (buffer_ok_delete _ _ _ _ Hb1 Hd) as (-> & Hfit & Hlt & Hb2).
    pose proof (map_size_delete_Some n1 p1 (mk_is_Some _ _ Hd)).
    assert (size p1 <> 0)%nat by (intros Hz; apply map_size_empty_inv in Hz as ->; done).
    destruct Ht as (Ht1 & Ht2 & Ht3).
    destruct (IH n1 (delete n1 p1) _ up1 Hup1 Hfit ltac:(lia) Hb2 ltac:(lia))
      as (ok & n2 & p2 & pb2 & up2 & -> & Hn2 & Hb3 & Ht' & Hp2 & Hok2 & Hrel).
    destruct (taken_step n1 n2 p1 p2 _ Hd ltac:(lia) Ht') as [(Hu1 & Hu2 & Hu3) _].
    rewrite Hsent in *. exists ok, n2, p2, pb2, up2. split; [done|]. split; [lia|]. split; [done|].
    rewrite <- (chunk_app next n1 n2) by lia. split; [|split; [|split; [|done]]].
    + split; [|split]; [| |lia].
      * intros k Hk. destruct (decide (k < n1)); [apply Ht1; lia|].
        rewrite <- Ht2 by lia. apply Hu1. lia.
      * intros k Hk. rewrite Hu2 by lia. apply Ht2. lia.
    + by apply sent_prefix_app.
    + intros Ho. destruct (Hok2 Ho) as (? & -> & ?). by rewrite app_assoc.
  - exists true, n1, p1, pb1, up1. split_and!; try done; lia.
Qed.

Lemma chunk_prefix m next : init <= next -> m < next -> exists tail, chunk init next = chunk init (m + 1) ++ tail.
Proof.
  intros Hi Hm. destruct (decide (init <= m + 1)).
  - exists (chunk (m + 1) next). by rewrite chunk_app by lia.
  - exists (chunk init next). unfold chunk at 2. by rewrite seqZ_nil by lia.
Qed.

(** ** The invariant *)

(** While reordering, the upstream was sent exactly the frames below
    [next_seq]; [seen] are the numbers received so far. *)
Record reorder_inv (this : UploadActor) (next_seq : Z) (pending : gmap Z bytes)
    (pending_bytes : Z) (ws : list (Z * Z)) (seen : list Z) : Prop := {
  ri_open : upstream_open this = true;
  ri_intact : intact (upstream this);
  ri_next : init <= next_seq <= seq_max;
  ri_buffer : buffer_ok (next_seq + 1) pending pending_bytes;
  ri_sent : delivered (upstream this) = s0 ++ chunk init next_seq;
  ri_frames : Z.of_nat (size pending) <= MAX_PENDING_FRAMES;
  ri_bytes : pending_bytes <= MAX_PENDING_BYTES;
  ri_seen : forall k, k ∈ seen -> k < next_seq \/ is_Some (pending !! k);
  ri_waiters : Forall (fun w => next_seq <= fst w) ws /\ zlen ws <= MAX_EOS_WAITERS /\
               Forall (fun w => wants (snd w) = fst w) ws
}.

(** Everything up to the number [ack] waits for was sent. *)
Definition covers (up : sink) (ack : Z) : Prop :=
  exists tail, delivered up = s0 ++ chunk init (wants ack + 1) ++ tail.

Record up_inv (this : UploadActor) (seen : list Z) : Prop := {
  inv_phase : match phase this with
              | Reordering n p pb ws => reorder_inv this n p pb ws seen
              | _ => True
              end;
  inv_prefix : exists n, sent_prefix s0 (chunk init n) (delivered (upstream this));
  inv_acks : forall a, (a, Ok tt) ∈ answered this -> covers (upstream this) a
}.

Definition cmd_ok (cmd : UploadCmd) : Prop :=
  match cmd with
  | CmdFrame seq data => 0 <= seq < seq_max /\ data = f seq /\ announceable data
  | CmdEos max_seq ack => wants ack = max_seq
  | CmdShutdown => True
  end.

Definition cmd_seqs (cmd : UploadCmd) : list Z :=
  match cmd with CmdFrame seq _ => [seq] | _ => [] end.

Definition cmd_acks (cmd : UploadCmd) : list Z :=
  match cmd with CmdEos _ ack => [ack] | _ => [] end.

Lemma covers_grows up up' b a :
  covers up a -> sent_prefix (delivered up) b (delivered up') -> covers up' a.
Proof. intros [t Ht] [k Hk]. exists (t ++ ztake k b). by rewrite Hk, Ht, <- !app_assoc. Qed.

Lemma covers_below up next a :
  init <= next -> wants a < next -> delivered up = s0 ++ chunk init next -> covers up a.
Proof.
  intros Hi Ha Hd. destruct (chunk_prefix (wants a) next Hi Ha) as [t Ht]. exists t. by rewrite Hd, Ht.
Qed.

Lemma inv_drain this up seen' :
  upstream this = up ->
  (exists n, sent_prefix s0 (chunk init n) (delivered up)) ->
  (forall a, (a, Ok tt) ∈ answered this -> covers up a) ->
  up_inv (shutdown_and_drain this) seen'.
Proof.
  intros <- Hpre Hacks.
  assert (Hd : delivered (upstream (shutdown_and_drain this)) = delivered (upstream this)).
  { cbn. destruct (upstream_open this); [|done]. destruct (shutdown (upstream this)) as [r w] eqn:E.
    by apply shutdown_delivered in E as [_ ?]. }
  split.
  - by destruct this as [[]].
  - by rewrite Hd.
  - intros a Ha. destruct (Hacks a Ha) as [t Ht]. exists t. by rewrite Hd.
Qed.

Lemma inv_shutdown this seen seen' : up_inv this seen -> up_inv (shutdown_and_drain this) seen'.
Proof. intros [_ ? ?]. by eapply inv_drain. Qed.

Lemma inv_send_err this seen acks e : up_inv this seen -> up_inv (send_acks this acks (Err e)) seen.
Proof.
  intros [Hph Hpre Hacks]. split; [|done|].
  - destruct this as [[] ? ? ? ?]; [|done..]. by destruct Hph.
  - cbn. intros a [Ha|Ha]%elem_of_app; [by apply Hacks|].
    by apply list_elem_of_fmap in Ha as (? & [=] & _).
Qed.

Lemma inv_send_ok this seen acks :
  up_inv this seen -> Forall (covers (upstream this)) acks -> up_inv (send_acks this acks (Ok tt)) seen.
Proof.
  intros [Hph Hpre Hacks] Hc. split; [|done|].
  - destruct this as [[] ? ? ? ?]; [|done..]. by destruct Hph.
  - cbn. intros a [Ha|Ha]%elem_of_app; [by apply Hacks|].
    apply list_elem_of_fmap in Ha as (a' & [= ->] & Ha). rewrite Forall_forall in Hc. by apply Hc.
Qed.

(** The head frame and all that follow it directly. *)
Lemma inv_flush this seen next pending pb ws :
  announceable (f next) -> up_inv this seen -> phase this = Reordering next pending pb ws -> 0 <= next < seq_max ->
  let '(stop, this') := handle_frame next (f next) this in up_inv this' (next :: seen).
Proof.
  intros Hfit [Hph Hpre Hacks] Hp Hn. rewrite Hp in Hph. destruct Hph as [Ho Hint Hnext Hb Hs Hf Hby Hse (Hw1 & Hw2 & Hw3)].
  unfold handle_frame. rewrite Hp, Z.ltb_irrefl, Z.eqb_refl, Ho.
  destruct (flush_runs_spec (S (size pending)) next pending pb (upstream this) Hint Hfit Hn Hb ltac:(lia))
    as (ok & n' & p' & pb' & up' & -> & Hn' & [Hb' Hk'] & (Ht1 & Ht2 & Ht3) & Hpre' & Hok & _).
  assert (Hpre2 : sent_prefix s0 (chunk init n') (delivered up')).
  { rewrite <- (chunk_app init next n') by lia. rewrite Hs in Hpre'. by apply sent_prefix_app. }
  destruct ok.
  - destruct (Hok eq_refl) as (Hnone & Hdel & Hint').
    assert (Hdel' : delivered up' = s0 ++ chunk init n').
    { by rewrite Hdel, Hs, <- app_assoc, chunk_app by lia. }
    destruct (settle _ 0 ws n') as [acked ws'] eqn:Hset.
    apply settle_spec in Hset as (gone & Hperm & -> & Hgone & Hws'); [|done|lia].
    apply Permutation_length in Hperm as Hlen. rewrite length_app in Hlen.
    rewrite <- Hperm, Forall_app in Hw3. destruct Hw3 as [Hw3 Hw4].
    apply inv_send_ok.
    + split; [|by exists n'|intros a Ha; by apply (covers_grows (upstream this) up' _ a (Hacks a Ha) Hpre')].
      cbn. split; cbn; try done; [lia| |lia| | |].
      * split; [done|]. intros k d Hkd. destruct (Hk' k d Hkd) as (? & ? & ?). split; [|done].
        destruct (decide (k = n')) as [->|]; [congruence|lia].
      * enough (held p' <= held pending) by (destruct Hb; lia). apply held_mono, map_subseteq_spec.
        intros k d Hkd. destruct (Hk' k d Hkd) as (? & ? & ?). by rewrite <- Ht2 by lia.
      * intros k [->|Hin]%elem_of_cons; [left; lia|]. destruct (Hse k Hin) as [?|[d Hd]]; [left; lia|].
        destruct (decide (k < n')); [by left|]. right. rewrite Ht2 by lia. by exists d.
      * split; [done|]. split; [unfold zlen in *; lia|done].
    + cbn. rewrite Forall_map. rewrite Forall_forall in *. intros [m a] Hin.
      apply (covers_below _ n'); [lia| |done]. specialize (Hw3 _ Hin). specialize (Hgone _ Hin). cbn in *. lia.
  - apply (inv_drain _ up'); cbn; [done|by exists n'|].
    intros a Ha. apply (covers_grows (upstream this) up' _ a (Hacks a Ha) Hpre').
Qed.

Lemma inv_weaken this seen k :
  up_inv this seen ->
  (forall n p pb ws, phase this = Reordering n p pb ws -> k < n \/ is_Some (p !! k)) ->
  up_inv this (k :: seen).
Proof.
  intros [Hph Hpre Hacks] Hk. split; [|done|done]. destruct (phase this); [|done..].
  destruct Hph. split; try done. intros j [->|Hj]%elem_of_cons; [|auto]. by eapply Hk.
Qed.

(** Setting a later frame aside. *)
Lemma inv_store this seen next pending pb ws k :
  announceable (f k) -> up_inv this seen -> phase this = Reordering next pending pb ws ->
  next < k < seq_max -> pending !! k = None ->
  Z.of_nat (size pending) < MAX_PENDING_FRAMES -> pb + zlen (f k) <= MAX_PENDING_BYTES ->
  up_inv (set_phase this (Reordering next (<[k:=f k]> pending) (pb + zlen (f k)) ws)) (k :: seen).
Proof.
  intros Hfit [Hph Hpre Hacks] Hp Hk Hnone Hsz Hby. rewrite Hp in Hph.
  destruct Hph as [Ho Hint Hn [-> Hb] Hs _ _ Hse Hw]. split; [|done|done]. cbn. split; cbn; try done.
  - split; [rewrite held_insert by done; lia|].
    intros j d Hj. destruct (decide (j = k)) as [->|Hne].
    + rewrite lookup_insert_eq in Hj. simplify_eq. split; [lia|done].
    + rewrite lookup_insert_ne in Hj by done. by apply Hb.
  - rewrite map_size_insert_None by done. lia.
  - intros j [->|Hj]%elem_of_cons.
    + right. rewrite lookup_insert_eq. done.
    + destruct (Hse j Hj) as [?|Hj']; [by left|]. right.
      destruct (decide (j = k)) as [->|Hne]; [rewrite lookup_insert_eq; done|].
      by rewrite lookup_insert_ne.
Qed.

Lemma handle_frame_inv this seen k :
  announceable (f k) -> up_inv this seen -> 0 <= k < seq_max -> 0 <= init ->
  let '(stop, this') := handle_frame k (f k) this in up_inv this' (k :: seen).
Proof.
  intros Hfit Hinv Hk Hinit. destruct (phase this) as [next pending pb ws|ws|] eqn:Hp.
  2,3: unfold handle_frame; rewrite Hp; apply inv_weaken; [done|intros; congruence].
  pose proof (inv_flush this seen next pending pb ws) as Hflush.
  pose proof (inv_phase _ _ Hinv) as Hph. rewrite Hp in Hph.
  assert (Hskip : k < next \/ is_Some (pending !! k) -> up_inv this (k :: seen)).
  { intros Hor. apply inv_weaken; [done|]. intros ? ? ? ? Hp'. rewrite Hp in Hp'. by simplify_eq. }
  unfold handle_frame in *. rewrite Hp in *.
  destruct (Z.ltb_spec k next); [apply Hskip; by left|].
  destruct (Z.eqb_spec k next) as [->|Hne].
  { rewrite Z.ltb_irrefl, Z.eqb_refl in Hflush. by apply Hflush. }
  clear Hflush. case_bool_decide as Hin; [apply Hskip; by right|].
  destruct (_ || _) eqn:Hfull; [by apply inv_shutdown with seen|].
  apply orb_false_iff in Hfull as [H1%Z.leb_gt H2%Z.ltb_ge].
  apply inv_store; try done; [lia|]. by apply eq_None_not_Some.
Qed.

Lemma handle_eos_inv this seen ack :
  up_inv this seen ->
  let '(stop, this') := handle_eos (wants ack) ack this in up_inv this' seen.
Proof.
  intros Hinv. pose proof (inv_phase _ _ Hinv) as Hph. unfold handle_eos.
  destruct (phase this) as [next pending pb ws|ws|] eqn:Hp.
  - destruct Hph as [Ho Hint Hn Hb Hs Hf Hby Hse (Hw1 & Hw2 & Hw3)]. destruct (Z.ltb_spec (wants ack) next).
    + apply inv_send_ok; [done|]. constructor; [|done]. by apply (covers_below _ next); [lia|..].
    + destruct (Z.leb_spec MAX_EOS_WAITERS (zlen ws)); [by apply inv_send_err|].
      destruct Hinv as [_ Hpre Hacks]. split; [|done|done]. cbn. split; try done.
      rewrite !Forall_app. split; [by split; repeat constructor|]. split; [zl|].
      split; [done|by repeat constructor].
  - destruct Hinv as [_ Hpre Hacks]. by split.
  - by apply inv_send_err.
Qed.

Lemma dispatch_inv now cmd this seen :
  up_inv this seen -> cmd_ok cmd -> 0 <= init ->
  let '(stop, this') := dispatch now cmd this in up_inv this' (cmd_seqs cmd ++ seen).
Proof.
  intros Hinv Hcmd Hinit. unfold dispatch. set (t := mkUpload _ _ _ _ _).
  assert (Ht : up_inv t seen).
  { destruct Hinv as [Hph ? ?]. split; [|done|done]. cbn. destruct (phase this); [|done..].
    by destruct Hph. }
  destruct cmd as [k d|m a|]; cbn in Hcmd |- *.
  - destruct Hcmd as (? & -> & ?). by apply handle_frame_inv.
  - rewrite <- Hcmd. by apply handle_eos_inv.
  - by apply inv_shutdown with seen.
Qed.

Definition ev_seqs (evs : list UploadEvent) : list Z :=
  evs ≫= (fun ev => match ev with EvCmd _ cmd => cmd_seqs cmd | _ => [] end).

Definition ev_ok (ev : UploadEvent) : Prop :=
  match ev with EvCmd _ cmd => cmd_ok cmd | _ => True end.

Lemma inv_close this seen : up_inv this seen -> up_inv (ack_all_waiters this) seen.
Proof. intros [_ ? ?]. unfold ack_all_waiters. apply inv_send_err. by split. Qed.

Lemma run_inv evs this seen :
  up_inv this seen -> Forall ev_ok evs -> 0 <= init ->
  let '(stopped, this') := run evs this in
  exists seen', up_inv this' seen' /\
    (stopped = false -> forall k, k ∈ seen' <-> k ∈ ev_seqs evs ++ seen).
Proof.
  intros Hinv Hok Hinit. revert this seen Hinv.
  induction Hok as [|ev evs Hev _ IH]; intros this seen Hinv; cbn [run].
  { exists seen. by split. }
  assert (Hstep : let '(stop, this') := run_step ev this in
    up_inv this' ((match ev with EvCmd _ cmd => cmd_seqs cmd | _ => [] end) ++ seen)).
  { destruct ev as [now cmd| |now]; cbn in Hev |- *.
    - by apply dispatch_inv.
    - by apply inv_shutdown with seen.
    - destruct (_ && _); [by apply inv_shutdown with seen|done]. }
  destruct (run_step ev this) as [stop this1]. destruct stop.
  - eexists. split; [by eapply inv_close|done].
  - specialize (IH this1 _ Hstep). destruct (run evs this1) as [stopped this'].
    destruct IH as (seen' & Hinv' & Hseen). exists seen'. split; [done|]. intros Hs k.
    rewrite (Hseen Hs). unfold ev_seqs. cbn. rewrite !elem_of_app. tauto.
Qed.

Lemma inv_new up now :
  intact up -> delivered up = s0 -> 0 <= init <= seq_max -> up_inv (UploadActor_new up init now) [].
Proof.
  intros Hint Hd Hi. split; cbn.
  - split; cbn.
    + done.
    + done.
    + lia.
    + split; [done|]. intros k d Hk. by rewrite lookup_empty in Hk.
    + by rewrite chunk_nil, app_nil_r.
    + rewrite map_size_empty. unfold MAX_PENDING_FRAMES. lia.
    + unfold MAX_PENDING_BYTES. lia.
    + by intros k ?%elem_of_nil.
    + split; [constructor|]. split; [unfold MAX_EOS_WAITERS; zl|constructor].
  - exists init. rewrite chunk_nil, Hd. exists 0. by rewrite ztake_0, app_nil_r.
  - by intros a ?%elem_of_nil.
Qed.

(** ** Delivery in any order *)

Lemma held_le a b pending :
  a <= b -> (forall k d, pending !! k = Some d -> a <= k < b /\ d = f k) ->
  held pending <= zlen (chunk a b) /\ Z.of_nat (size pending) <= b - a.
Proof.
  intros Hab. remember (Z.to_nat (b - a)) as n eqn:Hn.
  revert a pending Hab Hn. induction n as [|n IH]; intros a pending Hab Hn Hk.
  - assert (pending = ∅) as ->.
    { apply map_empty. intros k. apply eq_None_not_Some. intros [d Hd]. apply Hk in Hd. lia. }
    unfold held. rewrite map_fold_empty, map_size_empty. split; [apply zlen_nonneg|lia].
  - destruct (IH (a + 1) (delete a pending)) as [Hh Hs]; [lia|lia| |].
    { intros k d [Hne Hd]%lookup_delete_Some. destruct (Hk k d Hd). split; [lia|done]. }
    rewrite chunk_cons, zlen_app by lia. pose proof (zlen_nonneg (f a)).
    destruct (pending !! a) as [d|] eqn:Ha.
    + destruct (Hk a d Ha) as [_ ->]. rewrite (held_delete _ _ _ Ha) in Hh.
      pose proof (map_size_delete_Some a pending (mk_is_Some _ _ Ha)). split; [lia|].
      destruct (size pending); lia.
    + rewrite delete_id in Hh, Hs by done. split; lia.
Qed.

(** Still reordering, below [hi], with no request waiting. *)
Definition on_course (hi : Z) (this : UploadActor) : Prop :=
  exists next p pb, phase this = Reordering next p pb [] /\ next <= hi /\
    forall k d, p !! k = Some d -> k < hi.

Lemma handle_frame_on_course hi this seen k :
  announceable (f k) ->
  reliable -> up_inv this seen -> on_course hi this -> init <= k < hi -> 0 <= init -> hi <= seq_max ->
  hi - init <= MAX_PENDING_FRAMES -> zlen (chunk init hi) <= MAX_PENDING_BYTES ->
  let '(stop, this') := handle_frame k (f k) this in stop = false /\ on_course hi this'.
Proof.
  intros Hfit Hrel Hinv (next & p & pb & Hp & Hn & Hhi) Hk Hinit Hmax Hf Hby.
  pose proof (inv_phase _ _ Hinv) as Hph. rewrite Hp in Hph. destruct Hph as [Ho Hint Hnx [-> Hb] _ _ _ _ _].
  unfold handle_frame. rewrite Hp.
  assert (Hoc : on_course hi this) by (by exists next, p, (held p)).
  destruct (Z.ltb_spec k next); [done|]. destruct (Z.eqb_spec k next) as [->|Hne].
  - rewrite Ho. destruct (flush_runs_spec (S (size p)) next p (held p) (upstream this))
      as (ok & n' & p' & pb' & up' & -> & Hn' & [Hb' Hk'] & (Ht1 & Ht2 & _) & _ & _ & Hok);
      [done..|lia|by split|lia|].
    rewrite (Hok Hrel). destruct (settle _ 0 [] n') as [acked ws'] eqn:Hs. cbn in Hs.
    injection Hs as <- <-. cbn. split; [done|]. exists n', p', pb'. split; [done|]. split.
    + destruct (decide (n' = next + 1)); [lia|]. destruct (Ht1 (n' - 1) ltac:(lia)) as [d Hd].
      apply Hhi in Hd. lia.
    + intros k d Hd. destruct (Hk' k d Hd) as (? & ? & ?). apply (Hhi k d). by rewrite <- Ht2 by lia.
  - case_bool_decide as Hin; [done|]. apply eq_None_not_Some in Hin.
    destruct (held_le (next + 1) hi (<[k:=f k]> p)) as [Hh Hs]; [lia| |].
    { intros j d [[<- <-]|[Hj Hd]]%lookup_insert_Some; [split; [lia|done]|].
      specialize (Hhi _ _ Hd). destruct (Hb _ _ Hd) as (? & ? & ?). split; [lia|done]. }
    rewrite held_insert, map_size_insert_None in * by done.
    assert (zlen (chunk (next + 1) hi) <= zlen (chunk init hi)).
    { rewrite <- (chunk_app init (next + 1) hi), zlen_app by lia. pose proof (zlen_nonneg (chunk init (next + 1))). lia. }
    replace (_ || _) with false.
    2:{ symmetry. apply orb_false_iff. split; [apply Z.leb_gt; lia|apply Z.ltb_ge; lia]. }
    split; [done|]. eexists _, _, _. cbn. split; [done|]. split; [done|].
    intros j d [[<- <-]|[Hj Hd]]%lookup_insert_Some; [lia|by eapply Hhi].
Qed.

(** A frame of a range of bounded length. *)
Lemma announceable_in hi k : init <= k < hi -> zlen (chunk init hi) <= MAX_PENDING_BYTES -> announceable (f k).
Proof.
  intros Hk Hby. unfold announceable. assert (zlen (f k) <= zlen (chunk init hi)); [|unfold MAX_PENDING_BYTES in *; lia].
  rewrite <- (chunk_app init k hi), (chunk_cons k) by lia. zl.
Qed.

(** The arrival of frame [k] at some time. *)
Definition arrival (a : Z * Z) : UploadEvent := EvCmd (fst a) (CmdFrame (snd a) (f (snd a))).

Lemma run_on_course hi arrivals this seen :
  reliable -> up_inv this seen -> on_course hi this -> 0 <= init -> hi <= seq_max ->
  hi - init <= MAX_PENDING_FRAMES -> zlen (chunk init hi) <= MAX_PENDING_BYTES ->
  Forall (fun a => init <= snd a < hi) arrivals ->
  let '(stopped, this') := run (map arrival arrivals) this in stopped = false /\ on_course hi this'.
Proof.
  intros Hrel Hinv Hoc Hinit Hmax Hf Hby Harr. revert this seen Hinv Hoc.
  induction Harr as [|[now k] arrivals Hk _ IH]; intros this seen Hinv Hoc; [done|].
  cbn [map run run_step arrival fst snd]. cbn in Hk. pose proof (announceable_in hi k Hk Hby) as Hfit.
  pose proof (dispatch_inv now (CmdFrame k (f k)) this seen Hinv) as Hinv'.
  unfold dispatch in *. set (t := mkUpload _ _ _ _ _) in *.
  assert (Ht : up_inv t seen).
  { destruct Hinv as [Hph ? ?]. split; [|done|done]. cbn. destruct (phase this); [|done..].
    by destruct Hph. }
  pose proof (handle_frame_on_course hi t seen k Hfit Hrel Ht Hoc Hk Hinit Hmax Hf Hby) as Hgo.
  destruct (handle_frame k (f k) t) as [stop this1]. destruct Hgo as [-> Hoc'].
  assert (Hcmd : cmd_ok (CmdFrame k (f k))) by (split; [lia|done]).
  exact (IH this1 _ (Hinv' Hcmd Hinit) Hoc').
Qed.
End delivery.

(** ** Lemmas: what the actor does to its upstream *)

Section sinks.
Context `{W : FrameSink} (P : sink -> Prop).
Hypotheses (write_keeps : forall fs w, P w -> P (snd (write_frames fs w)))
  (shutdown_keeps : forall w, P w -> P (snd (shutdown w))).

Lemma write_run_keeps up is_open frames : P up -> P (snd (write_run up is_open frames)).
Proof.
  intros H. unfold write_run. destruct is_open; [|done]. specialize (write_keeps frames up H).
  by destruct (write_frames frames up) as [[[[]|e|]|] w].
Qed.

Lemma flush_runs_keeps fuel head next pending pb up is_open ok n p b up' :
  P up -> flush_runs fuel head next pending pb up is_open = Some (ok, n, p, b, up') -> P up'.
Proof.
  revert head next pending pb up. induction fuel as [|fuel IH]; intros head next pending pb up H; [done|]. cbn [flush_runs].
  destruct (gather _ _ _ _ _) as [[[run_buf n1] p1] b1]. pose proof (write_run_keeps up is_open run_buf H) as Hw.
  destruct (write_run up is_open run_buf) as [[] up1]; cbn [negb]; [|by intros [= _ _ _ _ <-]].
  destruct (p1 !! n1); [by apply IH|by intros [= _ _ _ _ <-]].
Qed.

Lemma shutdown_and_drain_keeps this : P (upstream this) -> P (upstream (shutdown_and_drain this)).
Proof. intros H. cbn. destruct (upstream_open this); [by apply shutdown_keeps|done]. Qed.

Lemma dispatch_keeps now cmd this : P (upstream this) -> P (upstream (snd (dispatch now cmd this))).
Proof.
  intros H. unfold dispatch. set (t := mkUpload _ _ _ _ _). assert (Ht : P (upstream t)) by done. clearbody t.
  destruct cmd as [k d|m a|].
  - unfold handle_frame. destruct (phase t) as [next p pb ws|ws|]; [|done..]. destruct (k <? next); [done|]. destruct (k =? next).
    + destruct (flush_runs _ _ _ _ _ _ _) as [[[[[ok n] p'] b] up']|] eqn:E; [|done].
      apply flush_runs_keeps in E; [|done]. destruct ok; [by destruct (settle _ _ _ _)|by apply shutdown_and_drain_keeps].
    + case_bool_decide; [done|]. destruct (_ || _); [by apply shutdown_and_drain_keeps|done].
  - unfold handle_eos. destruct (phase t); [|done..]. destruct (_ <? _); [done|]. by destruct (_ <=? _).
  - by apply shutdown_and_drain_keeps.
Qed.

Lemma run_keeps evs this : P (upstream this) -> P (upstream (snd (run evs this))).
Proof.
  revert this. induction evs as [|ev evs IH]; intros this H; cbn [run]; [done|].
  assert (Hs : P (upstream (snd (run_step ev this)))).
  { destruct ev as [now cmd| |now]; cbn [run_step]; [by apply dispatch_keeps|by apply shutdown_and_drain_keeps|].
    destruct (_ && _); [by apply shutdown_and_drain_keeps|done]. }
  destruct (run_step ev this) as [[] this1]; [done|by apply IH].
Qed.
End sinks.

(** ** Lemmas: every request is answered once *)

Section answers.
Context `{W : FrameSink}.

Definition waiting (p : UploadPhase) : list Z :=
  match p with Reordering _ _ _ ws => map snd ws | Draining ws => ws | Closed => [] end.

Definition accounted (this : UploadActor) : list Z := map fst (answered this) ++ waiting (phase this).

Lemma accounted_send this acks r : accounted (send_acks this acks r) ≡ₚ acks ++ accounted this.
Proof.
  unfold accounted. cbn. rewrite map_app, map_map. cbn. rewrite map_id. solve_Permutation.
Qed.

Lemma accounted_shutdown this : accounted (shutdown_and_drain this) = accounted this.
Proof. unfold accounted. cbn. by destruct (phase this). Qed.

Lemma dispatch_accounted now cmd this :
  let '(stop, this') := dispatch now cmd this in accounted this' ≡ₚ cmd_acks cmd ++ accounted this.
Proof.
  unfold dispatch. set (t := mkUpload _ _ _ _ _). change (accounted this) with (accounted t).
  clearbody t. destruct cmd as [k d|m a|]; cbn [cmd_acks].
  - unfold handle_frame. destruct (phase t) as [next pending pb ws|ws|] eqn:Hp; [|done..].
    destruct (k <? next); [done|]. destruct (k =? next).
    + destruct (flush_runs _ _ _ _ _ _ _) as [[[[[[] n'] p'] pb'] up']|]; [| |done].
      * destruct (settle _ 0 ws n') as [acked ws'] eqn:Hs.
        apply settle_spec in Hs as (gone & Hperm & -> & _ & _); [|done|lia].
        rewrite accounted_send. unfold accounted. rewrite Hp. cbn. rewrite <- Hperm.
        rewrite map_app. solve_Permutation.
      * rewrite accounted_shutdown. unfold accounted. by rewrite Hp.
    + case_bool_decide; [done|]. destruct (_ || _).
      * by rewrite accounted_shutdown.
      * unfold accounted. by rewrite Hp.
  - unfold handle_eos. destruct (phase t) as [next pending pb ws|ws|] eqn:Hp.
    + destruct (m <? next); [by apply accounted_send|]. destruct (_ <=? _); [by apply accounted_send|].
      unfold accounted. rewrite Hp. cbn. rewrite map_app. cbn. solve_Permutation.
    + unfold accounted. rewrite Hp. cbn. solve_Permutation.
    + by apply accounted_send.
  - by rewrite accounted_shutdown.
Qed.

Definition ev_acks (evs : list UploadEvent) : list Z :=
  evs ≫= (fun ev => match ev with EvCmd _ cmd => cmd_acks cmd | _ => [] end).

Lemma run_step_accounted ev this :
  let '(stop, this') := run_step ev this in accounted this' ≡ₚ ev_acks [ev] ++ accounted this.
Proof.
  destruct ev as [now cmd| |now]; cbn [run_step].
  - unfold ev_acks. cbn. rewrite app_nil_r. apply dispatch_accounted.
  - by rewrite accounted_shutdown.
  - destruct (_ && _); [by rewrite accounted_shutdown|done].
Qed.

Lemma ack_all_accounted this : accounted (ack_all_waiters this) ≡ₚ accounted this.
Proof.
  unfold ack_all_waiters. rewrite accounted_send. unfold accounted. cbn. rewrite app_nil_r.
  destruct (phase this); solve_Permutation.
Qed.

Lemma run_accounted evs this :
  let '(stopped, this') := run evs this in
  exists evs1 evs2, evs = evs1 ++ evs2 /\ accounted this' ≡ₚ ev_acks evs1 ++ accounted this /\
    (stopped = true -> phase this' = Closed) /\ (stopped = false -> evs2 = []).
Proof.
  revert this. induction evs as [|ev evs IH]; intros this; cbn [run]; [by exists [], []|].
  pose proof (run_step_accounted ev this) as Hstep.
  destruct (run_step ev this) as [stop this1]. destruct stop.
  - exists [ev], evs. split; [done|]. split; [|done]. by rewrite ack_all_accounted.
  - specialize (IH this1). destruct (run evs this1) as [stopped this'].
    destruct IH as (evs1 & evs2 & -> & Hacc & H1 & H2). exists (ev :: evs1), evs2.
    split; [done|]. split; [|done]. rewrite Hacc, Hstep. unfold ev_acks. cbn. rewrite app_nil_r.
    solve_Permutation.
Qed.
End answers.

(** All the frames of a range, in any order. *)
Lemma run_all_arrived `{W : FrameSink} {WL : FrameSinkLaws W} f init hi up now arrivals :
  intact up -> reliable -> 0 <= init -> init <= hi -> hi <= seq_max ->
  hi - init <= MAX_PENDING_FRAMES -> zlen (chunk f init hi) <= MAX_PENDING_BYTES ->
  Forall (fun a => init <= snd a < hi) arrivals ->
  (forall k, init <= k < hi -> k ∈ map snd arrivals) ->
  let '(stopped, this') := run (map (arrival f) arrivals) (UploadActor_new up init now) in
  stopped = false /\ phase this' = Reordering hi ∅ 0 [] /\
  delivered (upstream this') = delivered up ++ chunk f init hi.
Proof.
  intros Hup Hrel H0 Hle Hmax Hf Hby Harr Hall.
  pose proof (inv_new f init (delivered up) (fun _ => 0) up now Hup eq_refl ltac:(lia)) as Hnew.
  pose proof (run_on_course f init (delivered up) (fun _ => 0) hi arrivals _ [] Hrel Hnew) as Hgo.
  pose proof (run_inv f init (delivered up) (fun _ => 0) (map (arrival f) arrivals) _ [] Hnew) as Hinv.
  destruct (run _ _) as [stopped this'].
  destruct Hgo as [-> (next & p & pb & Hp & Hn & Hhi)]; try done; [by exists init, ∅, 0|].
  destruct Hinv as (seen & [Hph _ _] & Hseen); [|done|].
  { rewrite Forall_map. eapply Forall_impl; [exact Harr|]. intros [t k] Hk. cbn in *. split; [lia|]. split; [done|].
    by eapply announceable_in. }
  rewrite Hp in Hph. destruct Hph as [_ _ Hnx [-> Hb] Hs _ _ Hse _].
  assert (next = hi) as ->.
  { destruct (decide (next = hi)) as [|Hne]; [done|]. destruct (Hse next) as [?|[d Hd]]; [|lia|].
    - apply (Hseen eq_refl), elem_of_app. left. pose proof (Hall next ltac:(lia)) as Hin.
      apply list_elem_of_fmap in Hin as ([t k] & -> & Hin). unfold ev_seqs.
      apply list_elem_of_bind. exists (arrival f (t, k)). split; [cbn; by left|].
      by apply list_elem_of_fmap_2.
    - destruct (Hb _ _ Hd) as (? & ? & ?). lia. }
  assert (p = ∅) as ->.
  { apply map_empty. intros k. apply eq_None_not_Some. intros [d Hd].
    specialize (Hhi _ _ Hd). destruct (Hb _ _ Hd) as (? & ? & ?). lia. }
  unfold held in Hp. rewrite map_fold_empty in Hp. done.
Qed.

(** ** Properties *)

(** Whatever frames, end requests, shutdowns and timer ticks an upload
    actor receives, in any order and with any duplicates, and whatever the
    upstream does, the upstream is sent a prefix of the sender's frames in
    sequence: nothing is reordered, repeated or skipped. *)
Theorem upload_in_order `{W : FrameSink} (WL : FrameSinkLaws W) f wants init up now evs :
  intact up -> 0 <= init <= seq_max -> Forall (ev_ok f wants) evs ->
  let '(stopped, this') := run evs (UploadActor_new up init now) in
  exists n, sent_prefix (delivered up) (chunk f init n) (delivered (upstream this')).
Proof.
  intros Hup Hi Hok.
  pose proof (run_inv f init (delivered up) wants evs _ []
    (inv_new f init (delivered up) wants up now Hup eq_refl Hi) Hok ltac:(lia)) as H.
  destruct (run evs _) as [stopped this']. destruct H as (seen & [_ Hpre _] & _). exact Hpre.
Qed.

(** When all the frames of a range have arrived, in any order, with any
    duplicates and at any times, the upstream has been sent exactly their
    concatenation in sequence and the buffer is empty (for a range within the
    reorder limits and an upstream that accepts the writes). *)
Theorem upload_any_order `{W : FrameSink} (WL : FrameSinkLaws W) f init hi up now arrivals :
  intact up -> reliable -> 0 <= init -> init <= hi -> hi <= seq_max ->
  hi - init <= MAX_PENDING_FRAMES -> zlen (chunk f init hi) <= MAX_PENDING_BYTES ->
  Forall (fun a => init <= snd a < hi) arrivals ->
  (forall k, init <= k < hi -> k ∈ map snd arrivals) ->
  let '(stopped, this') := run (map (arrival f) arrivals) (UploadActor_new up init now) in
  stopped = false /\ phase this' = Reordering hi ∅ 0 [] /\
  delivered (upstream this') = delivered up ++ chunk f init hi.
Proof. apply run_all_arrived. Qed.

(** A request for the end of the stream is answered [Ok] only once every
    frame up to its number has been sent upstream; no request is answered
    twice, none is lost, and when the actor stops every request it took has
    been answered. *)
Theorem upload_eos `{W : FrameSink} (WL : FrameSinkLaws W) f wants init up now evs :
  intact up -> 0 <= init <= seq_max -> Forall (ev_ok f wants) evs ->
  let '(stopped, this') := run evs (UploadActor_new up init now) in
  (forall ack, (ack, Ok tt) ∈ answered this' -> exists tail,
     delivered (upstream this') = delivered up ++ chunk f init (wants ack + 1) ++ tail) /\
  exists evs1 evs2, evs = evs1 ++ evs2 /\
    map fst (answered this') ++ waiting (phase this') ≡ₚ ev_acks evs1 /\
    (stopped = true -> waiting (phase this') = []) /\ (stopped = false -> evs2 = []).
Proof.
  intros Hup Hi Hok.
  pose proof (run_inv f init (delivered up) wants evs _ []
    (inv_new f init (delivered up) wants up now Hup eq_refl Hi) Hok ltac:(lia)) as H.
  pose proof (run_accounted evs (UploadActor_new up init now)) as Ha.
  destruct (run evs _) as [stopped this']. destruct H as (seen & [_ _ Hacks] & _).
  split; [exact Hacks|]. destruct Ha as (evs1 & evs2 & -> & Hacc & Hc & Hn).
  exists evs1, evs2. split; [done|]. split; [|split; [|done]].
  - unfold accounted in Hacc. cbn in Hacc. rewrite app_nil_r in Hacc. exact Hacc.
  - intros Hs. by rewrite (Hc Hs).
Qed.

(** The reorder buffer never holds more than 8192 frames or 2 MiB, its
    byte count is exact, it holds only numbers above the next one, and at most
    256 requests wait. *)
Theorem upload_limits `{W : FrameSink} (WL : FrameSinkLaws W) f wants init up now evs :
  intact up -> 0 <= init <= seq_max -> Forall (ev_ok f wants) evs ->
  let '(stopped, this') := run evs (UploadActor_new up init now) in
  match phase this' with
  | Reordering next_seq pending pending_bytes eos_waiters =>
      Z.of_nat (size pending) <= MAX_PENDING_FRAMES /\
      pending_bytes = held pending /\ pending_bytes <= MAX_PENDING_BYTES /\
      (forall k, is_Some (pending !! k) -> next_seq < k) /\ zlen eos_waiters <= MAX_EOS_WAITERS
  | _ => True
  end.
Proof.
  intros Hup Hi Hok.
  pose proof (run_inv f init (delivered up) wants evs _ []
    (inv_new f init (delivered up) wants up now Hup eq_refl Hi) Hok ltac:(lia)) as H.
  destruct (run evs _) as [stopped this']. destruct H as (seen & [Hph _ _] & _).
  destruct (phase this'); [|done..]. destruct Hph as [_ _ _ [Hh Hb] _ ? ? _ (_ & ? & _)].
  split_and!; try done. intros k [d Hd]. destruct (Hb _ _ Hd) as (? & ? & ?). lia.
Qed.

(** ** Witnesses *)

(** An upstream in memory. *)
Definition mem_sink : FrameSink := {|
  sink := bytes;
  delivered := id;
  intact _ := True;
  write_frames fs w := (Some (Ok tt), w ++ concat fs);
  shutdown w := (Some (Ok tt), w)
|}.

Lemma mem_sink_laws : FrameSinkLaws mem_sink.
Proof.
  split; cbn.
  - by intros fs w w' _ _ [= <-].
  - intros fs w r w' _ _ [= <- <-]. split; [done|]. by apply sent_prefix_all.
  - by intros w r w' [= <- <-].
Qed.

Definition toy_frames (k : Z) : bytes := be_bytes 2 k.

Lemma upload_in_order_witness :
  let '(stopped, this') := run (W := tcp_sink toy_socket)
    [EvCmd 0 (CmdFrame 6 (toy_frames 6)); EvCmd 1 (CmdEos 6 77); EvCmd 2 (CmdFrame 5 (toy_frames 5))]
    (UploadActor_new (W := tcp_sink toy_socket) ([], [Accept 3]) 5 0) in
  exists n, sent_prefix [] (chunk toy_frames 5 n) (delivered (FrameSink := tcp_sink toy_socket) (upstream this')).
Proof.
  refine (upload_in_order (tcp_sink_laws (SL := toy_socket_laws)) toy_frames (fun _ => 6) 5 ([], [Accept 3]) 0
    [EvCmd 0 (CmdFrame 6 (toy_frames 6)); EvCmd 1 (CmdEos 6 77); EvCmd 2 (CmdFrame 5 (toy_frames 5))] I _ _).
  - vm_compute. split; congruence.
  - constructor; [split; [vm_compute; split; congruence|split; reflexivity]|].
    constructor; [reflexivity|].
    constructor; [split; [vm_compute; split; congruence|split; reflexivity]|constructor].
Defined.

Lemma upload_any_order_witness :
  let '(stopped, this') := run (W := mem_sink) (map (arrival toy_frames) [(0, 9); (1, 7); (2, 8); (3, 7)])
    (UploadActor_new (W := mem_sink) (str "x") 7 0) in
  stopped = false /\ phase this' = Reordering 10 ∅ 0 [] /\
  upstream this' = str "x" ++ chunk toy_frames 7 10.
Proof.
  refine (upload_any_order mem_sink_laws toy_frames 7 10 (str "x") 0 [(0, 9); (1, 7); (2, 8); (3, 7)]
    I _ _ _ _ _ _ _ _).
  - intros fs w _ _. exists (w ++ concat fs). reflexivity.
  - lia.
  - lia.
  - vm_compute. congruence.
  - vm_compute. congruence.
  - vm_compute. congruence.
  - repeat constructor; vm_compute; congruence.
  - intros k Hk. assert (k = 7 \/ k = 8 \/ k = 9) as [->|[->| ->]] by lia; cbn; set_solver.
Defined.

Lemma upload_eos_witness :
  let '(stopped, this') := run (W := mem_sink) [EvCmd 0 (CmdFrame 0 (toy_frames 0)); EvCmd 1 (CmdEos 0 5)]
    (UploadActor_new (W := mem_sink) [] 0 0) in
  (forall ack, (ack, Ok tt) ∈ answered this' -> exists tail,
     upstream this' = chunk toy_frames 0 (0 + 1) ++ tail).
Proof.
  refine (proj1 (upload_eos mem_sink_laws toy_frames (fun _ => 0) 0 []
    0 [EvCmd 0 (CmdFrame 0 (toy_frames 0)); EvCmd 1 (CmdEos 0 5)] I _ _)).
  - vm_compute. split; congruence.
  - constructor; [split; [vm_compute; split; congruence|split; reflexivity]|].
    constructor; [reflexivity|constructor].
Defined.

Lemma upload_limits_witness :
  let '(stopped, this') := run (W := mem_sink) [EvCmd 0 (CmdFrame 3 (toy_frames 3))]
    (UploadActor_new (W := mem_sink) [] 0 0) in
  match phase this' with
  | Reordering next_seq pending pending_bytes eos_waiters =>
      Z.of_nat (size pending) <= MAX_PENDING_FRAMES /\
      pending_bytes = held pending /\ pending_bytes <= MAX_PENDING_BYTES /\
      (forall k, is_Some (pending !! k) -> next_seq < k) /\ zlen eos_waiters <= MAX_EOS_WAITERS
  | _ => True
  end.
Proof.
  refine (upload_limits mem_sink_laws toy_frames (fun _ => 0) 0 [] 0 [EvCmd 0 (CmdFrame 3 (toy_frames 3))] I _ _).
  - vm_compute. split; congruence.
  - constructor; [split; [vm_compute; split; congruence|split; reflexivity]|constructor].
Defined.
