(* ===== verification/Text.v ===== *)
(** * Text

    The parts of Rust's [str] and integer parsing the sources use, on the
    bytes of a string: UTF-8 validity, trimming, splitting, ASCII case and
    decimal numbers. *)

From S2P Require Import Prelude Frame.

(** ** UTF-8 *)

Definition in_range (lo hi : Z) (b : byte) : bool := (lo <=? bz b) && (bz b <=? hi).

Definition cont_byte (b : byte) : bool := in_range 128 191 b.

(** [str::from_utf8] succeeds: no overlong form, surrogate or value above
    10FFFF. *)
Fixpoint utf8_valid (l : bytes) : bool :=
  match l with
  | [] => true
  | a :: l1 =>
      if in_range 0 127 a then utf8_valid l1
      else
        match l1 with
        | [] => false
        | b :: l2 =>
            if in_range 194 223 a then cont_byte b && utf8_valid l2
            else
              match l2 with
              | [] => false
              | c :: l3 =>
                  if in_range 224 239 a then
                    (if bz a =? 224 then in_range 160 191 b
                     else if bz a =? 237 then in_range 128 159 b else cont_byte b)
                    && cont_byte c && utf8_valid l3
                  else
                    match l3 with
                    | [] => false
                    | d :: l4 =>
                        in_range 240 244 a
                        && (if bz a =? 240 then in_range 144 191 b
                            else if bz a =? 244 then in_range 128 143 b else cont_byte b)
                        && cont_byte c && cont_byte d && utf8_valid l4
                    end
              end
        end
  end.

(** ** Trimming *)

(** The UTF-8 forms of the characters with the White_Space property. *)
Definition unicode_ws : list bytes :=
  map (fun b => [b]) [Byte.x09; Byte.x0a; Byte.x0b; Byte.x0c; Byte.x0d; Byte.x20] ++
  [[Byte.xc2; Byte.x85]; [Byte.xc2; Byte.xa0]; [Byte.xe1; Byte.x9a; Byte.x80]] ++
  map (fun b => [Byte.xe2; Byte.x80; b])
    [Byte.x80; Byte.x81; Byte.x82; Byte.x83; Byte.x84; Byte.x85; Byte.x86; Byte.x87;
     Byte.x88; Byte.x89; Byte.x8a; Byte.xa8; Byte.xa9; Byte.xaf] ++
  [[Byte.xe2; Byte.x81; Byte.x9f]; [Byte.xe3; Byte.x80; Byte.x80]].

(** The rest of [l] after the first of [ps] it starts with. *)
Fixpoint strip_any (ps : list bytes) (l : bytes) : option bytes :=
  match ps with
  | [] => None
  | p :: ps => match strip_prefix p l with Some r => Some r | None => strip_any ps l end
  end.

Fixpoint strip_all (ps : list bytes) (fuel : nat) (l : bytes) : bytes :=
  match fuel with
  | O => l
  | S fuel => match strip_any ps l with Some r => strip_all ps fuel r | None => l end
  end.

(** [str::trim_start], [str::trim_end] and [str::trim]. *)
Definition str_trim_start (l : bytes) : bytes := strip_all unicode_ws (length l) l.
Definition str_trim_end (l : bytes) : bytes :=
  reverse (strip_all (map reverse unicode_ws) (length l) (reverse l)).
Definition str_trim (l : bytes) : bytes := str_trim_end (str_trim_start l).

(** ** Splitting *)

(** [split_once(c)], [rsplit_once(c)] and [split(c)] for an ASCII [c]. *)
Definition split_once (c : byte) (l : bytes) : option (bytes * bytes) :=
  match memchr c l with
  | Some i => Some (ztake i l, zdrop (i + 1) l)
  | None => None
  end.

Definition rsplit_once (c : byte) (l : bytes) : option (bytes * bytes) :=
  match memchr c (reverse l) with
  | Some i => Some (ztake (zlen l - 1 - i) l, zdrop (zlen l - i) l)
  | None => None
  end.

Fixpoint split_on (c : byte) (l : bytes) : list bytes :=
  match l with
  | [] => [[]]
  | x :: l =>
      if decide (x = c) then [] :: split_on c l
      else match split_on c l with
           | s :: ss => (x :: s) :: ss
           | [] => [[x]]
           end
  end.

(** ** ASCII case *)

Definition to_ascii_lowercase1 (b : byte) : byte := if in_range 65 90 b then zb (bz b + 32) else b.
Definition to_ascii_lowercase (l : bytes) : bytes := map to_ascii_lowercase1 l.
Definition eq_ignore_ascii_case (a b : bytes) : bool :=
  bool_decide (to_ascii_lowercase a = to_ascii_lowercase b).

(** ** Decimal numbers *)

Definition is_digit (b : byte) : bool := in_range 48 57 b.

Fixpoint parse_digits (max acc : Z) (l : bytes) : option Z :=
  match l with
  | [] => Some acc
  | b :: l =>
      if is_digit b then
        let acc := acc * 10 + (bz b - 48) in
        if max <=? acc then None else parse_digits max acc l
      else None
  end.

(** [str::parse] for an unsigned type with [max] values: an optional plus
    sign, at least one digit, no overflow. *)
Definition parse_uint (max : Z) (l : bytes) : option Z :=
  match l with
  | [] => None
  | b :: r =>
      if decide (b = Byte.x2b) then match r with [] => None | _ => parse_digits max 0 r end
      else parse_digits max 0 l
  end.

Definition parse_u16 : bytes -> option Z := parse_uint u16_max.

(** The decimal digits of a number. *)
Fixpoint dec_digits (fuel : nat) (n : Z) : bytes :=
  match fuel with
  | O => []
  | S fuel =>
      if n <? 10 then [zb (48 + n)] else dec_digits fuel (n / 10) ++ [zb (48 + n mod 10)]
  end.

Definition dec_text (n : Z) : bytes := dec_digits 20 n.

(** ** Lemmas *)

(** The bytes that are printed and not white space. *)
Definition visible_byte (b : byte) : bool := in_range 33 126 b.

Lemma ws_nonempty : Forall (fun p : bytes => p <> []) unicode_ws.
Proof. apply (bool_decide_eq_true_1 _). reflexivity. Qed.

Lemma visible_no_ws b : visible_byte b = true -> Forall (fun p => last p <> Some b /\ head p <> Some b) unicode_ws.
Proof. intros H. apply (bool_decide_eq_true_1 _). destruct b; (discriminate || reflexivity). Qed.

Lemma strip_any_head ps b l : Forall (fun p => p <> [] /\ head p <> Some b) ps -> strip_any ps (b :: l) = None.
Proof.
  induction 1 as [|p ps [Hne Hp] _ IH]; [done|]. cbn [strip_any]. rewrite IH.
  destruct (strip_prefix p (b :: l)) eqn:E; [|done]. apply strip_prefix_Some in E.
  destruct p; [done|]. injection E as -> _. done.
Qed.

Lemma strip_all_head ps fuel b l : Forall (fun p => p <> [] /\ head p <> Some b) ps -> strip_all ps fuel (b :: l) = b :: l.
Proof. intros H. destruct fuel; [done|]. cbn [strip_all]. by rewrite strip_any_head. Qed.

Lemma str_trim_start_visible b l : visible_byte b = true -> str_trim_start (b :: l) = b :: l.
Proof.
  intros Hb. apply strip_all_head. pose proof (visible_no_ws b Hb) as Hw. pose proof ws_nonempty as Hn.
  rewrite Forall_forall in *. intros p Hp. split; [by apply Hn|by apply Hw].
Qed.

Lemma strip_all_reversed fuel b l : visible_byte b = true -> strip_all (map reverse unicode_ws) fuel (b :: l) = b :: l.
Proof.
  intros Hb. apply strip_all_head. rewrite Forall_map. pose proof (visible_no_ws b Hb) as Hw. pose proof ws_nonempty as Hn.
  rewrite Forall_forall in *. intros p Hp. destruct (Hw p Hp) as [Hl _]. split.
  - intros Hr. apply (Hn p Hp). rewrite <- (reverse_involutive p). by rewrite Hr.
  - by rewrite <- last_reverse, reverse_involutive.
Qed.

Lemma str_trim_end_visible l e : last l = Some e -> visible_byte e = true ->
  str_trim_end l = l /\ str_trim_end (l ++ [Byte.x0a]) = l.
Proof.
  intros [k ->]%last_Some He. unfold str_trim_end. split.
  - rewrite reverse_snoc, strip_all_reversed by done. by rewrite reverse_cons, reverse_involutive.
  - rewrite length_app, Nat.add_1_r, reverse_snoc, reverse_snoc. cbn [strip_all].
    change (strip_any (map reverse unicode_ws) (Byte.x0a :: e :: reverse k)) with (Some (e :: reverse k)). cbv iota.
    rewrite strip_all_reversed by done. by rewrite reverse_cons, reverse_involutive.
Qed.

(** What begins and ends visibly is not trimmed, a newline after it is. *)
Lemma str_trim_ends l b e : head l = Some b -> last l = Some e -> visible_byte b = true -> visible_byte e = true -> str_trim l = l.
Proof.
  intros Hb He Hvb Hve. unfold str_trim. destruct l as [|x l]; [done|]. injection Hb as ->.
  rewrite str_trim_start_visible by done. by eapply str_trim_end_visible.
Qed.

Lemma str_trim_newline l b e : head l = Some b -> last l = Some e -> visible_byte b = true -> visible_byte e = true ->
  str_trim (l ++ [Byte.x0a]) = l.
Proof.
  intros Hb He Hvb Hve. unfold str_trim. destruct l as [|x l]; [done|]. injection Hb as ->.
  rewrite <- app_comm_cons, str_trim_start_visible, app_comm_cons by done. by eapply str_trim_end_visible.
Qed.

Lemma split_once_app c a b : c ∉ a -> split_once c (a ++ c :: b) = Some (a, b).
Proof.
  intros H. unfold split_once. rewrite memchr_app_fresh, ztake_app_exact by done.
  change (c :: b) with ([c] ++ b). rewrite app_assoc, zdrop_app_exact by zl. done.
Qed.

Lemma split_once_None c l : split_once c l = None <-> c ∉ l.
Proof. unfold split_once. rewrite <- memchr_None. by destruct (memchr c l). Qed.

Lemma rsplit_once_app c a b : c ∉ b -> rsplit_once c (a ++ c :: b) = Some (a, b).
Proof.
  intros H. unfold rsplit_once.
  replace (reverse (a ++ c :: b)) with (reverse b ++ c :: reverse a).
  2:{ rewrite reverse_app, reverse_cons, <- app_assoc. done. }
  rewrite memchr_app_fresh by (by rewrite elem_of_reverse).
  assert (Hr : zlen (reverse b) = zlen b) by (unfold zlen; by rewrite length_reverse).
  rewrite Hr, zlen_app, zlen_cons.
  rewrite ztake_app_exact by lia. change (c :: b) with ([c] ++ b).
  rewrite app_assoc, zdrop_app_exact by zl. done.
Qed.

Lemma rsplit_once_None c l : rsplit_once c l = None <-> c ∉ l.
Proof.
  unfold rsplit_once. rewrite <- (elem_of_reverse c l), <- memchr_None.
  by destruct (memchr c (reverse l)).
Qed.

Lemma split_on_fresh c l : c ∉ l -> split_on c l = [l].
Proof.
  induction l as [|x l IH]; intros H; [done|]. apply not_elem_of_cons in H as [Hx Hl].
  cbn [split_on]. rewrite decide_False by done. by rewrite IH.
Qed.

Lemma split_on_app c a b : c ∉ a -> split_on c (a ++ c :: b) = a :: split_on c b.
Proof.
  induction a as [|x a IH]; intros H; cbn [app split_on]; [by rewrite decide_True|].
  apply not_elem_of_cons in H as [Hx Hl]. rewrite decide_False by done. by rewrite IH.
Qed.

Lemma parse_digits_range max acc l n : 0 <= acc < max -> parse_digits max acc l = Some n -> 0 <= n < max.
Proof.
  revert acc. induction l as [|b l IH]; intros acc Ha H; cbn in H; [by simplify_eq|].
  destruct (is_digit b) eqn:Hd; [|done]. destruct (Z.leb_spec max (acc * 10 + (bz b - 48))); [done|].
  apply IH in H; [done|]. unfold is_digit, in_range in Hd. lia.
Qed.

Lemma parse_uint_range max l n : 0 < max -> parse_uint max l = Some n -> 0 <= n < max.
Proof.
  intros Hm H. unfold parse_uint in H. destruct l as [|b r]; [done|].
  case_decide; [destruct r; [done|]|]; by apply parse_digits_range in H.
Qed.

Lemma dec_digits_digit fuel n : 0 <= n -> forall b, b ∈ dec_digits fuel n -> is_digit b = true.
Proof.
  revert n. induction fuel as [|fuel IH]; intros n Hn b; cbn; [by intros ?%elem_of_nil|].
  assert (Hd : forall k, 0 <= k < 10 -> is_digit (zb (48 + k)) = true).
  { intros k Hk. unfold is_digit, in_range. rewrite bz_zb, Z.mod_small by lia. lia. }
  destruct (Z.ltb_spec n 10).
  - intros ->%list_elem_of_singleton. apply Hd. lia.
  - rewrite elem_of_app. intros [Hin| ->%list_elem_of_singleton].
    + apply (IH (n / 10)); [by apply Z.div_pos|done].
    + apply Hd. by apply Z.mod_pos_bound.
Qed.

Lemma parse_digits_app max acc a b :
  parse_digits max acc (a ++ b) =
    match parse_digits max acc a with Some n => parse_digits max n b | None => None end.
Proof.
  revert acc. induction a as [|x a IH]; intros acc; [done|]. cbn.
  destruct (is_digit x); [|done]. by destruct (_ <=? _).
Qed.

Lemma parse_dec_digits max fuel n :
  0 <= n < 10 ^ Z.of_nat fuel -> n < max -> parse_digits max 0 (dec_digits fuel n) = Some n.
Proof.
  revert n. induction fuel as [|fuel IH]; intros n Hn Hm.
  - cbn in Hn. assert (n = 0) as -> by lia. done.
  - assert (Hone : forall acc k, 0 <= k < 10 -> acc * 10 + k < max ->
      parse_digits max acc [zb (48 + k)] = Some (acc * 10 + k)).
    { intros acc k Hk Hlt. cbn. unfold is_digit, in_range. rewrite bz_zb, Z.mod_small by lia.
      replace (_ && _) with true by lia. destruct (Z.leb_spec max (acc * 10 + (48 + k - 48))); [lia|].
      f_equal. lia. }
    cbn [dec_digits]. destruct (Z.ltb_spec n 10); [apply (Hone 0); lia|].
    pose proof (Z.div_mod n 10 ltac:(lia)). pose proof (Z.mod_pos_bound n 10 ltac:(lia)).
    rewrite Nat2Z.inj_succ, Z.pow_succ_r in Hn by lia.
    rewrite parse_digits_app, IH.
    + rewrite Hone by lia. f_equal. lia.
    + split; [by apply Z.div_pos; lia|]. apply Z.div_lt_upper_bound; lia.
    + lia.
Qed.

Lemma dec_text_nonempty n : dec_text n <> [].
Proof. unfold dec_text. cbn [dec_digits]. destruct (_ <? _); [done|]. intros H. by apply app_nil in H as [_ ?]. Qed.

(** A port number survives printing and parsing. *)
Lemma parse_u16_dec n : 0 <= n < u16_max -> parse_u16 (dec_text n) = Some n.
Proof.
  intros Hn. unfold parse_u16, parse_uint. pose proof (dec_text_nonempty n) as Hne.
  assert (Hp : parse_digits u16_max 0 (dec_text n) = Some n).
  { apply parse_dec_digits; [|lia]. unfold u16_max in Hn. cbn. lia. }
  destruct (dec_text n) as [|b r] eqn:E; [done|].
  rewrite decide_False; [done|]. intros ->.
  assert (Hd : is_digit Byte.x2b = true); [|by vm_compute in Hd].
  apply (dec_digits_digit 20 n); [lia|]. fold (dec_text n). rewrite E. by left.
Qed.
