(* ===== verification/Cookie.v ===== *)
(** * Cookies

    The server's cookie lookup and padding ([src/server/utils.rs]) and the
    client's cookie builder ([src/client/utils.rs]). Requests carry the
    session, the stream and the handshake key in cookies; the lookup scans the
    header in place and is shown equal to splitting it at the semicolons. *)

From S2P Require Import Prelude Frame Text Errors.

(** The fields of a request, in order. *)
Definition HeaderMap : Type := list (bytes * bytes).

(** [HeaderMap::get]: the first field of that name, whatever its case. *)
Definition header_get (name : bytes) (headers : HeaderMap) : option bytes :=
  option_map snd (head (filter (fun h => eq_ignore_ascii_case (fst h) name = true) headers)).

(** ** Server: lookup *)

Definition is_sep (b : byte) : bool := bool_decide (b = Byte.x20) || bool_decide (b = Byte.x3b).

Fixpoint skip_seps (h : bytes) : bytes :=
  match h with
  | b :: r => if is_sep b then skip_seps r else h
  | [] => []
  end.

(** The outer loop on [haystack[pos..]]; every round ends past a semicolon. *)
Fixpoint cookie_loop (fuel : nat) (key h : bytes) : option bytes :=
  match fuel with
  | O => None
  | S fuel =>
      let h := skip_seps h in
      if zlen h =? 0 then None
      else if (zlen key <? zlen h) && bool_decide (ztake (zlen key) h = key)
              && bool_decide (znth h (zlen key) = Some Byte.x3d)
      then
        let rest := zdrop (zlen key + 1) h in
        let val := match memchr Byte.x3b rest with Some i => ztake i rest | None => rest end in
        Some (str_trim val)
      else
        match memchr Byte.x3b h with
        | Some i => cookie_loop fuel key (zdrop (i + 1) h)
        | None => None
        end
  end.

Definition extract_cookie_value (headers : HeaderMap) (key : bytes) : option bytes :=
  match header_get (str "Cookie") headers with
  | Some cookie_header =>
      if utf8_valid cookie_header
      then cookie_loop (S (length cookie_header)) key cookie_header
      else None
  | None => None
  end.

(** ** Padding *)

Definition PADDING_POOL : bytes :=
  str "padding=XXXXXXXXXXXXXXXXXXXXXXXXXXXXXXXXXXXXXXXXXXXXXXXXXXXXXXXX".

Definition random_padding (draw : Z -> Z -> Z) : bytes :=
  let padding_len := draw 30 (zlen PADDING_POOL) in
  ztake padding_len PADDING_POOL.

Definition CLIENT_PADDING_POOL : bytes := str "padding=XXXXXXXXXXXXXXXXXXXXXXXXXX".
Definition MIN_PADDING : Z := 16.

(** ** Client: building *)

(** The buffer is cleared first; the range of the draw excludes its end. *)
Definition build_cookie_into (draw : Z -> Z -> Z) (buf name value : bytes) : bytes :=
  let buf := name in
  let buf := buf ++ [Byte.x3d] in
  let buf := buf ++ value in
  let buf := buf ++ str "; " in
  let padding_len := draw MIN_PADDING (zlen CLIENT_PADDING_POOL - 1) in
  buf ++ ztake padding_len CLIENT_PADDING_POOL.

Definition build_tunnel_cookie (draw : Z -> Z -> Z) (buf session_val : bytes) : bytes :=
  build_cookie_into draw buf (str "session") session_val.

(** [stream_id] in its hyphenated form. *)
Definition build_stream_cookie (draw : Z -> Z -> Z) (buf stream_id : bytes) : bytes :=
  build_cookie_into draw buf (str "stream") stream_id.

(** ** Specification *)

Fixpoint drop_spaces (h : bytes) : bytes :=
  match h with
  | b :: r => if bool_decide (b = Byte.x20) then drop_spaces r else h
  | [] => []
  end.

(** The value of a [key=value] segment. *)
Definition segment_value (key seg : bytes) : option bytes :=
  option_map str_trim (strip_prefix (key ++ [Byte.x3d]) (drop_spaces seg)).

(** The first segment between semicolons that has the key. *)
Fixpoint first_value (key : bytes) (segs : list bytes) : option bytes :=
  match segs with
  | [] => None
  | seg :: segs => match segment_value key seg with
                   | Some v => Some v
                   | None => first_value key segs
                   end
  end.

Definition cookie_spec (key h : bytes) : option bytes := first_value key (split_on Byte.x3b h).

(** ** Lemmas *)

Lemma list_lookup_split {A} (l : list A) i x :
  l !! i = Some x -> exists l1 l2, l = l1 ++ x :: l2 /\ length l1 = i.
Proof.
  intros H. exists (take i l), (drop (S i) l). split; [by rewrite take_drop_middle|].
  apply lookup_lt_Some in H. rewrite length_take. lia.
Qed.

Lemma key_at_prefix (key h : bytes) :
  ((zlen key <? zlen h) && bool_decide (ztake (zlen key) h = key)
     && bool_decide (znth h (zlen key) = Some Byte.x3d))
  = bool_decide (is_Some (strip_prefix (key ++ [Byte.x3d]) h)).
Proof.
  pose proof (zlen_nonneg key) as Hk.
  destruct (strip_prefix (key ++ [Byte.x3d]) h) as [r|] eqn:Hs.
  - rewrite (bool_decide_true (is_Some _)) by done.
    apply strip_prefix_Some in Hs as ->. rewrite <- app_assoc.
    rewrite ztake_app_exact, bool_decide_true by done.
    rewrite bool_decide_true.
    + destruct (Z.ltb_spec (zlen key) (zlen (key ++ [Byte.x3d] ++ r))); [done|zl].
    + unfold znth, zlen. rewrite decide_True, Nat2Z.id by lia. apply list_lookup_middle. done.
  - rewrite (bool_decide_false (is_Some _)) by (by intros [? ?]).
    destruct (Z.ltb_spec (zlen key) (zlen h)); [|done]. case_bool_decide as Ht; [|done].
    case_bool_decide as Hn; [|done]. exfalso.
    unfold znth in Hn. rewrite decide_True in Hn by lia.
    destruct (list_lookup_split _ _ _ Hn) as (l1 & l2 & -> & Hl).
    assert (l1 = key) as ->.
    { rewrite <- Ht. rewrite ztake_app_le by (unfold zlen in *; lia). symmetry. apply ztake_all. unfold zlen in *. lia. }
    change (Byte.x3d :: l2) with ([Byte.x3d] ++ l2) in Hs. by rewrite app_assoc, strip_prefix_app in Hs.
Qed.

(** Leading separators contribute only segments without a value. *)
Lemma segment_value_blank key seg : drop_spaces seg = [] -> segment_value key seg = None.
Proof.
  intros H. unfold segment_value. rewrite H. unfold strip_prefix. case_bool_decide as E; [|done].
  unfold ztake in E. rewrite take_nil in E. by destruct key.
Qed.

Lemma split_on_cons c x l : exists s ss, split_on c (x :: l) = s :: ss.
Proof. cbn. case_decide; [by eexists _, _|]. destruct (split_on c l); by eexists _, _. Qed.

Lemma cookie_spec_skip key h : cookie_spec key (skip_seps h) = cookie_spec key h.
Proof.
  induction h as [|b h IH]; [done|]. cbn [skip_seps]. unfold is_sep.
  case_bool_decide as H1; cbn [orb].
  - subst b. rewrite IH. unfold cookie_spec. cbn [split_on]. rewrite decide_False by done.
    destruct h as [|x h].
    { cbn [split_on first_value]. by rewrite !segment_value_blank. }
    destruct (split_on_cons Byte.x3b x h) as (s & ss & ->). cbn [first_value].
    unfold segment_value. cbn [drop_spaces]. by rewrite bool_decide_true.
  - case_bool_decide as H2; [|done]. subst b. rewrite IH. unfold cookie_spec. cbn [split_on].
    rewrite decide_True by done. cbn [first_value]. by rewrite segment_value_blank.
Qed.

Lemma strip_prefix_before c p k r :
  c ∉ p -> strip_prefix p (k ++ c :: r) = option_map (fun t => t ++ c :: r) (strip_prefix p k).
Proof.
  intros Hp. destruct (strip_prefix p k) as [t|] eqn:Hk; cbn.
  - apply strip_prefix_Some in Hk as ->. by rewrite <- app_assoc, strip_prefix_app.
  - destruct (strip_prefix p (k ++ c :: r)) as [t|] eqn:Ht; [|done].
    apply strip_prefix_Some in Ht. apply app_eq_inv in Ht as [(j & -> & Hj)|(j & -> & Hj)].
    + by rewrite strip_prefix_app in Hk.
    + destruct j as [|x j]; cbn in Hj.
      * pose proof (strip_prefix_app k []) as H. rewrite app_nil_r in *. congruence.
      * injection Hj as <- _. set_solver.
Qed.

Lemma skip_seps_head h : match skip_seps h with b :: _ => is_sep b = false | [] => True end.
Proof. induction h as [|b h IH]; [done|]. cbn. destruct (is_sep b) eqn:E; done. Qed.

Lemma length_skip_seps h : (length (skip_seps h) <= length h)%nat.
Proof. induction h as [|b h IH]; cbn; [done|]. destruct (is_sep b); cbn; lia. Qed.

Lemma drop_spaces_id b r : is_sep b = false -> drop_spaces (b :: r) = b :: r.
Proof.
  intros H. apply orb_false_iff in H as [H _]. cbn. by rewrite H.
Qed.

Lemma cookie_loop_spec fuel key h :
  Byte.x3b ∉ key -> (length h < fuel)%nat -> cookie_loop fuel key h = cookie_spec key h.
Proof.
  intros Hkey. revert h. induction fuel as [|fuel IH]; intros h Hfuel; [lia|]. cbn [cookie_loop].
  rewrite <- (cookie_spec_skip key h). pose proof (skip_seps_head h) as Hhead.
  pose proof (length_skip_seps h) as Hlen. revert Hhead Hlen. generalize (skip_seps h) as g.
  intros g Hhead Hlen. destruct (Z.eqb_spec (zlen g) 0) as [Hz|Hz].
  { apply zlen_0_nil in Hz as ->. unfold cookie_spec. cbn. by rewrite segment_value_blank. }
  rewrite key_at_prefix.
  assert (Hp : Byte.x3b ∉ key ++ [Byte.x3d]) by (rewrite not_elem_of_app; split; [done|]; by intros ?%list_elem_of_singleton).
  unfold cookie_spec. destruct (memchr Byte.x3b g) as [i|] eqn:Hm.
  - destruct (memchr_Some _ _ _ Hm) as (k & r & -> & -> & Hk). rewrite split_on_app by done.
    assert (Hdrop : drop_spaces k = k).
    { destruct k as [|b k]; [done|]. by apply drop_spaces_id. }
    rewrite strip_prefix_before by done. cbn [first_value]. unfold segment_value. rewrite Hdrop.
    destruct (strip_prefix (key ++ [Byte.x3d]) k) as [t|] eqn:Ht; cbn [option_map].
    + rewrite bool_decide_true by done. apply strip_prefix_Some in Ht as ->.
      rewrite <- (app_assoc _ t), zdrop_app_exact by zl.
      rewrite memchr_app_fresh, ztake_app_exact by set_solver. done.
    + rewrite bool_decide_false by (by intros [? ?]).
      change (Byte.x3b :: r) with ([Byte.x3b] ++ r). rewrite app_assoc, zdrop_app_exact by zl.
      apply IH. rewrite length_app in Hlen. cbn in Hlen. lia.
  - apply memchr_None in Hm as Hn. rewrite split_on_fresh by done. cbn [first_value].
    unfold segment_value. assert (Hdrop : drop_spaces g = g).
    { destruct g as [|b g]; [done|]. by apply drop_spaces_id. }
    rewrite Hdrop. destruct (strip_prefix (key ++ [Byte.x3d]) g) as [t|] eqn:Ht; cbn [option_map].
    + rewrite bool_decide_true by done. apply strip_prefix_Some in Ht as ->.
      rewrite zdrop_app_exact by zl. assert (Hmt : memchr Byte.x3b t = None).
      { apply memchr_None. set_solver. }
      by rewrite Hmt.
    + by rewrite bool_decide_false by (by intros [? ?]).
Qed.

Lemma extract_cookie_value_eq headers key :
  Byte.x3b ∉ key ->
  extract_cookie_value headers key =
    (h ← header_get (str "Cookie") headers;
     if utf8_valid h then cookie_spec key h else None).
Proof.
  intros Hkey. unfold extract_cookie_value.
  destruct (header_get _ headers) as [h|]; [|done]. change (mbind ?f (Some h)) with (f h).
  cbv beta. destruct (utf8_valid h); [|done]. apply cookie_loop_spec; [done|lia].
Qed.

Lemma build_cookie_split draw buf name value :
  Byte.x3b ∉ name ++ value ->
  exists pad, build_cookie_into draw buf name value = (name ++ [Byte.x3d] ++ value) ++ Byte.x3b :: Byte.x20 :: pad /\
    pad = ztake (draw MIN_PADDING (zlen CLIENT_PADDING_POOL - 1)) CLIENT_PADDING_POOL.
Proof.
  intros Hn. eexists. split; [|done]. unfold build_cookie_into.
  change (str "; ") with [Byte.x3b; Byte.x20]. by rewrite <- !app_assoc.
Qed.

(** The bytes a cookie value of the client consists of. *)
Definition cookie_octet (b : byte) : bool := in_range 33 126 b && negb (bool_decide (b = Byte.x3b)).
Definition cookie_text (v : bytes) : Prop := Forall (fun b => cookie_octet b = true) v.

Lemma cookie_octet_spec b :
  cookie_octet b = true ->
  in_range 0 127 b = true /\ b <> Byte.x3b /\ strip_any unicode_ws [b] = None /\
  Forall (fun p => last p <> Some b /\ head p <> Some b) unicode_ws.
Proof.
  intros H. split_and!.
  - unfold cookie_octet, in_range in *. lia.
  - intros ->. done.
  - destruct b; (discriminate || reflexivity).
  - apply (bool_decide_eq_true_1 _). destruct b; (discriminate || reflexivity).
Qed.

Lemma str_trim_text v : cookie_text v -> str_trim v = v.
Proof.
  intros Hv. assert (Hvis : Forall (fun b => visible_byte b = true) v).
  { eapply Forall_impl; [exact Hv|]. cbn. intros b Hb. apply andb_true_iff in Hb. tauto. }
  destruct v as [|b v]; [done|]. destruct (last (b :: v)) as [e|] eqn:He; [|by apply last_None in He].
  apply (str_trim_ends _ b e); [done|done|by apply Forall_cons_1 in Hvis as [Hb _]|].
  rewrite Forall_forall in Hvis. apply Hvis. by apply last_Some_elem_of.
Qed.

Lemma utf8_valid_ascii a b : Forall (fun x => in_range 0 127 x = true) a -> utf8_valid (a ++ b) = utf8_valid b.
Proof. induction 1 as [|x a Hx _ IH]; [done|]. cbn [app utf8_valid]. by rewrite Hx. Qed.

Lemma client_pool_ascii n : Forall (fun x => in_range 0 127 x = true) (ztake n CLIENT_PADDING_POOL).
Proof.
  unfold ztake. apply Forall_take. apply (bool_decide_eq_true_1 _). reflexivity.
Qed.

Lemma strip_key key name v :
  Byte.x3d ∉ key -> Byte.x3d ∉ name ->
  strip_prefix (key ++ [Byte.x3d]) (name ++ [Byte.x3d] ++ v) = if decide (key = name) then Some v else None.
Proof.
  intros Hk Hn. case_decide as E.
  - subst. by rewrite app_assoc, strip_prefix_app.
  - destruct (strip_prefix _ _) as [t|] eqn:Hs; [|done]. apply strip_prefix_Some in Hs.
    rewrite <- app_assoc in Hs. apply (f_equal (split_once Byte.x3d)) in Hs. cbn [app] in Hs.
    rewrite !split_once_app in Hs by done. congruence.
Qed.

Lemma drop_spaces_text v r : cookie_text v -> v <> [] -> drop_spaces (v ++ r) = v ++ r.
Proof.
  intros Hv Hne. destruct v as [|b v]; [done|]. apply Forall_cons_1 in Hv as [Hb _].
  apply drop_spaces_id. by destruct b.
Qed.

(** A cut of the padding pool carries no key but its own. *)
Lemma padding_no_key key n :
  Byte.x3d ∉ key -> key <> str "padding" -> strip_prefix (key ++ [Byte.x3d]) (ztake n CLIENT_PADDING_POOL) = None.
Proof.
  intros Hk Hne. destruct (strip_prefix _ _) as [t|] eqn:Hs; [|done]. apply strip_prefix_Some in Hs.
  pose proof (ztake_zdrop n CLIENT_PADDING_POOL) as Hp. rewrite Hs, <- !app_assoc in Hp.
  apply (f_equal (split_once Byte.x3d)) in Hp. cbn [app] in Hp. rewrite split_once_app in Hp by done.
  injection Hp as Hp _. done.
Qed.

(** ** Properties *)

(** The in-place scan of the Cookie header finds exactly what splitting
    the header at its semicolons finds: the trimmed value of the first segment
    that starts, after spaces, with the key and an equals sign. *)
Theorem extract_cookie_value_spec headers key :
  Byte.x3b ∉ key ->
  extract_cookie_value headers key =
    (h ← header_get (str "Cookie") headers;
     if utf8_valid h then cookie_spec key h else None).
Proof. apply extract_cookie_value_eq. Qed.

Lemma cookie_lookup draw buf name value other headers :
  cookie_text name -> name <> [] -> cookie_text value -> Byte.x3d ∉ name ->
  Byte.x3b ∉ other -> other <> name -> Byte.x3d ∉ other -> other <> str "padding" ->
  header_get (str "Cookie") headers = Some (build_cookie_into draw buf name value) ->
  extract_cookie_value headers name = Some value /\ extract_cookie_value headers other = None.
Proof.
  intros Hname Hnil Hval Heq Hother Hne Hoeq Hpad Hh.
  assert (Hno : forall v, cookie_text v -> Byte.x3b ∉ v).
  { intros v Hv Hin. unfold cookie_text in Hv. rewrite Forall_forall in Hv. by apply Hv in Hin. }
  assert (Hasc : forall v, cookie_text v -> Forall (fun x => in_range 0 127 x = true) v).
  { intros v Hv. eapply Forall_impl; [exact Hv|]. intros b Hb. by apply cookie_octet_spec in Hb as [? _]. }
  destruct (build_cookie_split draw buf name value) as (pad & Hb & Hp).
  { rewrite not_elem_of_app. split; by apply Hno. }
  set (n := draw _ _) in Hp. rewrite Hb in Hh.
  assert (Hutf : utf8_valid ((name ++ [Byte.x3d] ++ value) ++ Byte.x3b :: Byte.x20 :: pad) = true).
  { rewrite utf8_valid_ascii.
    - cbn [utf8_valid]. rewrite <- (app_nil_r pad), Hp. by rewrite utf8_valid_ascii by apply client_pool_ascii.
    - rewrite !Forall_app. split; [by apply Hasc|]. split; [by repeat constructor|by apply Hasc]. }
  assert (Hspec : forall key, Byte.x3b ∉ key -> extract_cookie_value headers key =
    first_value key [name ++ [Byte.x3d] ++ value; Byte.x20 :: pad]).
  { intros key Hk. rewrite extract_cookie_value_eq by done. rewrite Hh.
    change (mbind ?f (Some ?h)) with (f h). cbv beta. rewrite Hutf. unfold cookie_spec.
    rewrite split_on_app.
    - rewrite split_on_fresh; [done|]. apply not_elem_of_cons. split; [done|]. rewrite Hp.
      intros Hin. assert (Hin' : Byte.x3b ∈ CLIENT_PADDING_POOL).
      { rewrite <- (ztake_zdrop n CLIENT_PADDING_POOL), elem_of_app. by left. }
      revert Hin'.
      apply (bool_decide_eq_true_1 _). reflexivity.
    - rewrite !not_elem_of_app. split; [by apply Hno|]. split; [by intros ?%list_elem_of_singleton|by apply Hno]. }
  rewrite (Hspec name), (Hspec other) by (done || by apply Hno). cbn [first_value]. unfold segment_value.
  rewrite drop_spaces_text by done. rewrite !strip_key by done. split.
  - rewrite decide_True by done. cbn. by rewrite str_trim_text.
  - rewrite decide_False by done. cbn [option_map drop_spaces]. rewrite bool_decide_true by done.
    assert (Hd : drop_spaces pad = pad).
    { rewrite Hp. unfold ztake. by destruct (Z.to_nat n). }
    rewrite Hd, Hp, padding_no_key by done. done.
Qed.

(** The server reads back what the client put into its cookie: the value
    under the cookie's own name, and nothing under another name, for every
    padding drawn. *)
Theorem cookie_roundtrip draw buf name value other headers :
  cookie_text name -> name <> [] -> cookie_text value -> Byte.x3d ∉ name ->
  Byte.x3b ∉ other -> other <> name -> Byte.x3d ∉ other -> other <> str "padding" ->
  header_get (str "Cookie") headers = Some (build_cookie_into draw buf name value) ->
  extract_cookie_value headers name = Some value /\ extract_cookie_value headers other = None.
Proof. apply cookie_lookup. Qed.

Definition toy_cookie_headers : HeaderMap :=
  [(str "host", str "a"); (str "cookie", build_cookie_into (fun lo _ => lo) [] (str "session") (str "s:t:u"))].

Lemma extract_cookie_value_spec_witness :
  extract_cookie_value toy_cookie_headers (str "session") = Some (str "s:t:u").
Proof.
  rewrite extract_cookie_value_spec.
  - reflexivity.
  - apply (bool_decide_eq_true_1 _). reflexivity.
Defined.

Lemma cookie_roundtrip_witness :
  extract_cookie_value toy_cookie_headers (str "session") = Some (str "s:t:u") /\
  extract_cookie_value toy_cookie_headers (str "stream") = None.
Proof.
  apply (cookie_roundtrip (fun lo _ => lo) [] (str "session") (str "s:t:u") (str "stream"));
    try (apply (bool_decide_eq_true_1 _); reflexivity); reflexivity.
Defined.
