(* ===== verification/Token.v ===== *)
(** * Access tokens

    Issuing and opening tokens ([src/server/token.rs]) and the cached check of
    the Authorization header ([validate_token_if_needed] of
    [src/server/handlers.rs]). The AEAD is the one of [Cipher], the URL-safe
    base64 coding, HKDF and the time-to-live cache are parameters; the clock
    and the random nonce are arguments. *)

From S2P Require Import Prelude Cipher Frame Text Cookie Errors.

(** ** The base64 coding *)

Class Base64 := {
  b64_encode : bytes -> bytes;
  b64_decode : bytes -> option bytes
}.

(** Unpadded: four characters for three bytes, all of them graphic. *)
Class Base64Laws (B : Base64) := {
  b64_round : forall d, b64_decode (b64_encode d) = Some d;
  b64_len : forall d, zlen (b64_encode d) = (4 * zlen d + 2) / 3;
  b64_text : forall d, Forall (fun b => is_digit b = true \/ in_range 65 90 b = true \/
    in_range 97 122 b = true \/ b = Byte.x2d \/ b = Byte.x5f) (b64_encode d)
}.

(** ** Constants and claims *)

Definition VERSION : byte := Byte.x01.
Definition BODY_LEN : Z := 1 + 8 + 2.
Definition KEY_INFO : bytes := str "httproxy-token-v1".
Definition MAX_TOKEN_LEN : Z := 1024.
Definition TOKEN_CACHE_TTL : Z := 60.

Record Claims : Type := mkClaims { sub : bytes; exp : Z }.

Section token.
Context `{P : Aead} `{B : Base64}.

(** [hkdf secret info] is 32 bytes of HKDF-SHA256 output. *)
Definition key_from_secret (hkdf : bytes -> bytes -> bytes) (secret : bytes) : Res string LessSafeKey :=
  match unbound_key (hkdf secret KEY_INFO) with
  | Some k => Ok k
  | None => Panic
  end.

Definition issue (key : LessSafeKey) (nonce : bytes) (claims : Claims) : Res string bytes :=
  let raw := nonce in
  let raw := raw ++ [VERSION] in
  let raw := raw ++ be_bytes 8 (exp claims) in
  let raw := raw ++ be_bytes 2 (as_u16 (zlen (sub claims))) in
  let raw := raw ++ sub claims in
  match seal_in_place_separate_tag key nonce (zdrop NONCE_LEN raw) with
  | Some (ct, tag) => Ok (b64_encode (ztake NONCE_LEN raw ++ ct ++ tag))
  | None => Panic
  end.

Definition open (key : LessSafeKey) (now : Z) (token : bytes) : Res string Claims :=
  if MAX_TOKEN_LEN <? zlen token then Err "token too long"
  else
    let? raw := ok_or (b64_decode token) "invalid encoding" in
    let len := zlen raw in
    if len <? NONCE_LEN + BODY_LEN + TAG_LEN then Err "token too short"
    else
      let? nonce := ok_or (try_assume_unique_for_key (ztake NONCE_LEN raw)) "invalid nonce" in
      let? (opened, body_len) := ok_or (open_in_place key nonce (zdrop NONCE_LEN raw)) "bad tag" in
      let body := ztake body_len opened in
      match body with
      | [] => Panic
      | version :: _ =>
          if negb (bool_decide (version = VERSION)) then Err "unsupported version"
          else if zlen body <? 11 then Panic
          else
            let exp := be_val (slice 1 9 body) in
            let sub_len := be_val (slice 9 11 body) in
            if negb (zlen body =? BODY_LEN + sub_len) then Err "bad payload length"
            else
              let sub := zdrop BODY_LEN body in
              if negb (utf8_valid sub) then Err "bad subject"
              else if exp <=? now then Err "expired"
              else Ok (mkClaims sub exp)
      end.
End token.

(** ** The cache *)

(** [moka]'s cache with a time to live: [entry] is what was last inserted
    under a key and when; a lookup finds nothing else and nothing stale, an
    insertion replaces the key's entry and may evict others. *)
Class TtlCache := {
  cache : Type;
  entry : cache -> bytes -> option (bytes * Z);
  cache_get : Z -> bytes -> cache -> option bytes;
  cache_insert : Z -> bytes -> bytes -> cache -> cache
}.

Class TtlCacheLaws (K : TtlCache) (ttl : Z) := {
  get_entry : forall now k c v, cache_get now k c = Some v ->
    exists t, entry c k = Some (v, t) /\ now < t + ttl;
  insert_entry : forall now k v c k' e, entry (cache_insert now k v c) k' = Some e ->
    (k' = k /\ e = (v, now)) \/ entry c k' = Some e
}.

Section validate.
Context `{P : Aead} `{B : Base64} `{K : TtlCache}.

(** [HeaderValue::to_str]: visible ASCII, spaces and tabs only. *)
Definition to_str (v : bytes) : option bytes :=
  if forallb (fun b => in_range 32 126 b || bool_decide (b = Byte.x09)) v then Some v else None.

(** The times one check reads: the cache's when it looks the token up,
    [open]'s, the one before the token is cached, and the cache's when it is. *)
Record CheckTimes : Type := mkTimes { at_lookup : Z; at_open : Z; at_check : Z; at_insert : Z }.

Definition validate_token_at (headers : HeaderMap) (key : LessSafeKey) (times : CheckTimes) (c : cache)
    : Res ServerError bytes * cache :=
  match header_get (str "Authorization") headers ≫= to_str with
  | None => (Err (unauthorized "invalid header"), c)
  | Some auth_header =>
      match strip_prefix (str "Bearer ") auth_header with
      | None => (Err (unauthorized "invalid header"), c)
      | Some token =>
          match cache_get (at_lookup times) token c with
          | Some user => (Ok user, c)
          | None =>
              match open key (at_open times) token with
              | Ok claims =>
                  let user := sub claims in
                  (Ok user,
                   if saturating_add64 (at_check times) TOKEN_CACHE_TTL <? exp claims
                   then cache_insert (at_insert times) token user c else c)
              | Err _ => (Err (unauthorized "invalid token"), c)
              | Panic => (Panic, c)
              end
          end
      end
  end.

(** A check during which no clock moves. *)
Definition validate_token_if_needed (headers : HeaderMap) (key : LessSafeKey) (now : Z) (c : cache)
    : Res ServerError bytes * cache :=
  validate_token_at headers key (mkTimes now now now now) c.

(** The check without a cache. *)
Definition validate_uncached (headers : HeaderMap) (key : LessSafeKey) (now : Z) : Res ServerError bytes :=
  match header_get (str "Authorization") headers ≫= to_str with
  | None => Err (unauthorized "invalid header")
  | Some auth_header =>
      match strip_prefix (str "Bearer ") auth_header with
      | None => Err (unauthorized "invalid header")
      | Some token =>
          match open key now token with
          | Ok claims => Ok (sub claims)
          | Err _ => Err (unauthorized "invalid token")
          | Panic => Panic
          end
      end
  end.

(** A run of checks, each with its headers and times. *)
Fixpoint validate_run (key : LessSafeKey) (reqs : list (HeaderMap * CheckTimes)) (c : cache)
    : list (Res ServerError bytes) :=
  match reqs with
  | [] => []
  | (headers, times) :: reqs =>
      let '(r, c) := validate_token_at headers key times c in r :: validate_run key reqs c
  end.
End validate.

(** ** Lemmas *)

Section token_proofs.
Context `{P : Aead} {L : AeadLaws P} `{B : Base64}.

(** Opening depends on the time only through the expiry. *)
Lemma open_later key now now' token c :
  open key now token = Ok c -> now' < exp c -> open key now' token = Ok c.
Proof.
  unfold open. intros H Hlt. destruct (_ <? _); [done|].
  destruct (b64_decode token) as [raw|]; cbn [ok_or res_bind] in *; [|done].
  destruct (_ <? _); [done|].
  destruct (try_assume_unique_for_key _); cbn [ok_or res_bind] in *; [|done].
  destruct (open_in_place _ _ _) as [[opened m]|]; cbn [ok_or res_bind] in *; [|done].
  destruct (ztake m opened) as [|v body]; [done|].
  destruct (negb _); [done|]. destruct (_ <? 11); [done|]. destruct (negb _); [done|].
  destruct (negb _); [done|]. destruct (Z.leb_spec (be_val (slice 1 9 (v :: body))) now); [done|].
  injection H as <-. cbn in Hlt. destruct (Z.leb_spec (be_val (slice 1 9 (v :: body))) now'); [lia|done].
Qed.

Lemma open_wf key now token :
  match open key now token with
  | Ok c => now < exp c /\ 0 <= exp c < u64_max /\ utf8_valid (sub c) = true
  | Err _ => True
  | Panic => False
  end.
Proof.
  unfold open. destruct (_ <? _); [done|].
  destruct (b64_decode token) as [raw|]; cbn [ok_or res_bind]; [|done].
  destruct (Z.ltb_spec (zlen raw) (NONCE_LEN + BODY_LEN + TAG_LEN)); [done|].
  rewrite nonce_12 by (unfold NONCE_LEN, BODY_LEN, TAG_LEN in *; zl). cbn [ok_or res_bind].
  destruct (open_in_place _ _ _) as [[opened m]|] eqn:Ho; cbn [ok_or res_bind]; [|done].
  apply open_len in Ho as (Hl & Hm & Hlen).
  assert (Hb : zlen (ztake m opened) = m /\ 11 <= m).
  { rewrite zlen_zdrop in *. unfold NONCE_LEN, BODY_LEN, TAG_LEN in *. zl. }
  destruct Hb as [Hb Hm11]. set (body := ztake m opened) in *.
  destruct body as [|v body'] eqn:Eb; [change (0 = m) in Hb; lia|]. rewrite <- Eb in *.
  destruct (negb _); [done|]. destruct (Z.ltb_spec (zlen body) 11); [rewrite Eb in *; lia|].
  destruct (negb _); [done|]. destruct (utf8_valid _) eqn:Hu; cbn [negb]; [|done].
  destruct (Z.leb_spec (be_val (slice 1 9 body)) now); [done|]. cbn.
  pose proof (be_val_range (slice 1 9 body)) as Hr.
  rewrite zlen_slice in Hr by lia. unfold u64_max. cbn in Hr. split; [lia|]. split; [lia|done].
Qed.
End token_proofs.

Section cache_proofs.
Context `{P : Aead} {L : AeadLaws P} `{B : Base64} `{K : TtlCache} {KL : TtlCacheLaws K TOKEN_CACHE_TTL}.

(** Every cached user is the subject of its token, good until [d] before the
    entry goes. *)
Definition cache_good (d : Z) (key : LessSafeKey) (c : cache) : Prop :=
  forall token user t, entry c token = Some (user, t) ->
    exists claims t0, open key t0 token = Ok claims /\ sub claims = user /\ t + TOKEN_CACHE_TTL < exp claims + d.

Definition cache_ok (key : LessSafeKey) (c : cache) : Prop := cache_good 0 key c.

Lemma check_step d headers key times c :
  cache_good d key c -> at_insert times <= at_check times + d ->
  let '(r, c') := validate_token_at headers key times c in
  (r = validate_uncached headers key (at_open times) \/ r = validate_uncached headers key (at_lookup times - d)) /\ cache_good d key c'.
Proof.
  intros Hc Hd. unfold validate_token_at, validate_uncached.
  destruct (header_get _ headers ≫= to_str) as [auth|]; [|by split; [left|]].
  destruct (strip_prefix _ auth) as [token|]; [|by split; [left|]].
  destruct (cache_get (at_lookup times) token c) as [user|] eqn:Hget.
  - destruct (get_entry _ _ _ _ Hget) as (t & He & Ht).
    destruct (Hc _ _ _ He) as (claims & t0 & Ho & <- & Hexp). split; [|done]. right.
    by rewrite (open_later key t0 (at_lookup times - d) token claims Ho) by lia.
  - pose proof (open_wf key (at_open times) token) as Hwf. destruct (open key (at_open times) token) as [claims|e|] eqn:Ho; [|by split; [left|]..].
    split; [by left|]. destruct Hwf as (Hn & He & _).
    destruct (Z.ltb_spec (saturating_add64 (at_check times) TOKEN_CACHE_TTL) (exp claims)) as [Hs|]; [|done].
    intros token' user t Hent. apply insert_entry in Hent as [[-> [= -> ->]]|Hent]; [|by apply Hc].
    exists claims, (at_open times). split; [done|]. split; [done|]. unfold saturating_add64, u64_max in *. lia.
Qed.

Lemma validate_step headers key now c :
  cache_ok key c ->
  let '(r, c') := validate_token_if_needed headers key now c in
  r = validate_uncached headers key now /\ cache_ok key c'.
Proof.
  intros Hc. pose proof (check_step 0 headers key (mkTimes now now now now) c Hc) as Hs. unfold validate_token_if_needed.
  destruct (validate_token_at headers key _ c) as [r c']. cbn in Hs. destruct Hs as [Hr Hok]; [lia|]. split; [|done].
  rewrite Z.sub_0_r in Hr. by destruct Hr.
Qed.
End cache_proofs.

(** ** Properties *)

(** A token opens to the claims it was issued for as long as it has not
    expired, for every subject that fits a token (729 bytes). *)
Theorem token_roundtrip `{P : Aead} (L : AeadLaws P) `{B : Base64} (BL : Base64Laws B)
    key nonce claims now :
  zlen nonce = NONCE_LEN -> 0 <= exp claims < u64_max -> now < exp claims ->
  zlen (sub claims) <= 729 -> utf8_valid (sub claims) = true ->
  exists token, issue key nonce claims = Ok token /\ open key now token = Ok claims.
Proof.
  intros Hn He Hnow Hsub Hu. pose proof (zlen_nonneg (sub claims)).
  set (pt := [VERSION] ++ be_bytes 8 (exp claims) ++ be_bytes 2 (as_u16 (zlen (sub claims))) ++ sub claims).
  assert (Hpt : zlen pt = 11 + zlen (sub claims)) by (unfold pt; zl).
  destruct (seal_total key nonce pt Hn) as (ct & tag & Hs); [unfold seal_limit; lia|].
  destruct (seal_len _ _ _ _ _ Hs) as [Hct Htag]. destruct (open_seal _ _ _ _ _ Hs) as [rest Ho].
  exists (b64_encode (nonce ++ ct ++ tag)). split.
  { unfold issue. rewrite <- !app_assoc, zdrop_app_exact, ztake_app_exact by done.
    change (seal_in_place_separate_tag key nonce _) with (seal_in_place_separate_tag key nonce pt). by rewrite Hs. }
  unfold open. rewrite b64_len, b64_round. cbn [ok_or res_bind].
  assert (Hlen : zlen (nonce ++ ct ++ tag) = 39 + zlen (sub claims)).
  { rewrite !zlen_app, Hn, Hct, Htag, Hpt. unfold NONCE_LEN, TAG_LEN. lia. }
  assert ((4 * zlen (nonce ++ ct ++ tag) + 2) / 3 < 1025) by (apply Z.div_lt_upper_bound; lia).
  destruct (Z.ltb_spec MAX_TOKEN_LEN ((4 * zlen (nonce ++ ct ++ tag) + 2) / 3)); [unfold MAX_TOKEN_LEN in *; lia|].
  destruct (Z.ltb_spec (zlen (nonce ++ ct ++ tag)) (NONCE_LEN + BODY_LEN + TAG_LEN));
    [unfold NONCE_LEN, BODY_LEN, TAG_LEN in *; lia|].
  rewrite ztake_app_exact, zdrop_app_exact, nonce_12 by done. cbn [ok_or res_bind]. rewrite Ho.
  cbn [ok_or res_bind]. rewrite ztake_app_exact by done.
  assert (Hpd : pt = VERSION :: drop 1 pt) by done. rewrite Hpd. cbv iota. rewrite <- Hpd.
  rewrite bool_decide_true by done. cbn [negb].
  destruct (Z.ltb_spec (zlen pt) 11); [lia|].
  assert (E1 : slice 1 9 pt = be_bytes 8 (exp claims)) by (apply slice_middle; zl).
  assert (E2 : slice 9 11 pt = be_bytes 2 (as_u16 (zlen (sub claims)))).
  { unfold pt. rewrite app_assoc. apply slice_middle; zl. }
  rewrite E1, E2, as_u16_small, !be_val_round by (unfold u64_max, u16_max in *; lia).
  assert (E3 : zdrop BODY_LEN pt = sub claims).
  { unfold pt. rewrite !app_assoc. apply zdrop_app_exact. unfold BODY_LEN. zl. }
  rewrite E3, Hu, Hpt. unfold BODY_LEN. rewrite Z.eqb_refl. cbn [negb].
  destruct (Z.leb_spec (exp claims) now); [lia|]. by destruct claims.
Qed.

(** C36: the token cache changes no answer: over any run of requests, every
    check returns exactly what opening the presented token returns, at the time
    [open] reads or, from the cache, at the time of the lookup, so a user is
    accepted only while the token is unexpired. That is so to the second if no
    more than [d = 0] seconds pass between the reading before a token is cached and
    the moment it is; if up to [d] pass, a cached user is accepted as if the
    lookup were [d] seconds earlier. *)
Theorem token_cache_transparent `{P : Aead} (L : AeadLaws P) `{B : Base64} `{K : TtlCache}
    (KL : TtlCacheLaws K TOKEN_CACHE_TTL) key d reqs c :
  (forall token, entry c token = None) -> Forall (fun req => at_insert (snd req) <= at_check (snd req) + d) reqs ->
  Forall2 (fun req r => r = validate_uncached (fst req) key (at_open (snd req)) \/
                        r = validate_uncached (fst req) key (at_lookup (snd req) - d)) reqs (validate_run key reqs c).
Proof.
  intros Hc. assert (Hok : cache_good d key c) by (intros token user t H; by rewrite Hc in H).
  clear Hc. revert c Hok. induction reqs as [|[headers times] reqs IH]; intros c Hok Hd; [constructor|].
  apply Forall_cons in Hd as [Hd Hreqs]. cbn [validate_run]. pose proof (check_step d headers key times c Hok Hd) as Hs.
  destruct (validate_token_at headers key times c) as [r c']. destruct Hs as [Hr Hok']. constructor; [done|by apply IH].
Qed.

(** Opening any byte string as a token never panics, and what it accepts
    is unexpired and has a valid subject. *)
Theorem token_open_total `{P : Aead} (L : AeadLaws P) `{B : Base64} key now token :
  match open key now token with
  | Ok c => now < exp c /\ 0 <= exp c < u64_max /\ utf8_valid (sub c) = true
  | Err _ => True
  | Panic => False
  end.
Proof. apply open_wf. Qed.

(** ** Instances for the witnesses *)

(** A text coding of the right length: two letters for each byte would be too
    long, so three bytes share four letters, six bits each. *)
Module Toy64.
Definition alphabet (n : Z) : byte :=
  if n <? 26 then zb (65 + n) else if n <? 52 then zb (71 + n) else if n <? 62 then zb (n - 4)
  else if n =? 62 then Byte.x2d else Byte.x5f.

Definition value (b : byte) : Z :=
  let n := bz b in
  if in_range 65 90 b then n - 65 else if in_range 97 122 b then n - 71
  else if in_range 48 57 b then n + 4 else if bool_decide (b = Byte.x2d) then 62 else 63.

Fixpoint enc (fuel : nat) (l : bytes) : bytes :=
  match fuel, l with
  | S fuel, a :: b :: c :: r =>
      alphabet (bz a / 4) :: alphabet (bz a mod 4 * 16 + bz b / 16)
      :: alphabet (bz b mod 16 * 4 + bz c / 64) :: alphabet (bz c mod 64) :: enc fuel r
  | S _, [a; b] =>
      [alphabet (bz a / 4); alphabet (bz a mod 4 * 16 + bz b / 16); alphabet (bz b mod 16 * 4)]
  | S _, [a] => [alphabet (bz a / 4); alphabet (bz a mod 4 * 16)]
  | _, _ => []
  end.

Fixpoint dec (fuel : nat) (l : bytes) : bytes :=
  match fuel, l with
  | S fuel, w :: x :: y :: z :: r =>
      zb (value w * 4 + value x / 16) :: zb (value x mod 16 * 16 + value y / 4)
      :: zb (value y mod 4 * 64 + value z) :: dec fuel r
  | S _, [w; x; y] => [zb (value w * 4 + value x / 16); zb (value x mod 16 * 16 + value y / 4)]
  | S _, [w; x] => [zb (value w * 4 + value x / 16)]
  | _, _ => []
  end.

Lemma value_alphabet n : 0 <= n < 64 -> value (alphabet n) = n.
Proof.
  intros Hn. assert (Hin : n ∈ seqZ 0 64) by (apply elem_of_seqZ; lia). clear Hn. revert n Hin.
  apply Forall_forall. apply (bool_decide_eq_true_1 _). reflexivity.
Qed.

Lemma alphabet_text n :
  0 <= n < 64 -> is_digit (alphabet n) = true \/ in_range 65 90 (alphabet n) = true \/
    in_range 97 122 (alphabet n) = true \/ alphabet n = Byte.x2d \/ alphabet n = Byte.x5f.
Proof.
  intros Hn. assert (Hin : n ∈ seqZ 0 64) by (apply elem_of_seqZ; lia). clear Hn. revert n Hin.
  apply Forall_forall. apply (bool_decide_eq_true_1 _). reflexivity.
Qed.

(** The six-bit groups of three bytes. *)
Lemma groups a b c :
  (0 <= bz a / 4 < 64) /\ (0 <= bz a mod 4 * 16 + bz b / 16 < 64) /\
  (0 <= bz b mod 16 * 4 + bz c / 64 < 64) /\ (0 <= bz c mod 64 < 64) /\
  (0 <= bz a mod 4 * 16 < 64) /\ (0 <= bz b mod 16 * 4 < 64).
Proof.
  pose proof (bz_range a). pose proof (bz_range b). pose proof (bz_range c).
  pose proof (Z.mod_pos_bound (bz a) 4). pose proof (Z.mod_pos_bound (bz b) 16).
  pose proof (Z.mod_pos_bound (bz c) 64).
  assert (0 <= bz a / 4 < 64) by (split; [apply Z.div_pos|apply Z.div_lt_upper_bound]; lia).
  assert (0 <= bz b / 16 < 16) by (split; [apply Z.div_pos|apply Z.div_lt_upper_bound]; lia).
  assert (0 <= bz c / 64 < 4) by (split; [apply Z.div_pos|apply Z.div_lt_upper_bound]; lia).
  lia.
Qed.

Lemma join_split m q r : 0 <= r < m -> (q * m + r) / m = q /\ (q * m + r) mod m = r.
Proof.
  intros Hr. split.
  - rewrite Z.div_add_l, Z.div_small by lia. lia.
  - rewrite Z.add_comm, Z_mod_plus_full. by apply Z.mod_small.
Qed.

Lemma recombine a b c :
  zb (bz a / 4 * 4 + (bz a mod 4 * 16 + bz b / 16) / 16) = a /\
  zb ((bz a mod 4 * 16 + bz b / 16) mod 16 * 16 + (bz b mod 16 * 4 + bz c / 64) / 4) = b /\
  zb ((bz b mod 16 * 4 + bz c / 64) mod 4 * 64 + bz c mod 64) = c /\
  zb (bz a / 4 * 4 + bz a mod 4 * 16 / 16) = a /\
  zb ((bz a mod 4 * 16 + bz b / 16) mod 16 * 16 + bz b mod 16 * 4 / 4) = b.
Proof.
  pose proof (bz_range b). pose proof (bz_range c).
  assert (Hb : 0 <= bz b / 16 < 16) by (split; [apply Z.div_pos|apply Z.div_lt_upper_bound]; lia).
  assert (Hc : 0 <= bz c / 64 < 4) by (split; [apply Z.div_pos|apply Z.div_lt_upper_bound]; lia).
  destruct (join_split 16 (bz a mod 4) _ Hb) as [-> ->].
  destruct (join_split 4 (bz b mod 16) _ Hc) as [-> ->].
  rewrite !Z.div_mul by lia.
  assert (Hj : forall x m, 0 < m -> zb (bz x / m * m + bz x mod m) = x).
  { intros x m Hm. rewrite (Z.mul_comm _ m), <- Z.div_mod by lia. apply zb_bz. }
  split_and!; apply Hj; lia.
Qed.

Lemma dec_enc64 f l f' : (length l <= f)%nat -> (length (enc f l) <= f')%nat -> dec f' (enc f l) = l.
Proof.
  revert l f'. induction f as [|f IH]; intros l f' Hf Hf'; [by destruct l; [destruct f'|simpl in Hf; lia]|].
  destruct l as [|a [|b [|c r]]]; [by destruct f'|..]; (destruct f' as [|f']; [simpl in Hf'; lia|]); cbn [enc dec].
  - destruct (groups a a a) as (? & _ & _ & _ & ? & _). rewrite !value_alphabet by done.
    by destruct (recombine a a a) as (_ & _ & _ & -> & _).
  - destruct (groups a b b) as (? & ? & _ & _ & _ & ?). rewrite !value_alphabet by done.
    destruct (recombine a b b) as (-> & _ & _ & _ & ->). done.
  - destruct (groups a b c) as (? & ? & ? & ? & _). rewrite !value_alphabet by done.
    destruct (recombine a b c) as (-> & -> & -> & _). rewrite IH; [done| |];
      cbn [enc length] in *; lia.
Qed.

Lemma enc64_len f l : (length l <= f)%nat -> zlen (enc f l) = (4 * zlen l + 2) / 3.
Proof.
  revert l. induction f as [|f IH]; intros l Hf; [by destruct l; [|simpl in Hf; lia]|].
  destruct l as [|a [|b [|c r]]]; [done..|]. cbn [enc]. rewrite !zlen_cons, IH by (cbn in Hf; lia).
  replace (4 * (1 + (1 + (1 + zlen r))) + 2) with (4 * 3 + (4 * zlen r + 2)) by lia.
  rewrite Z.div_add_l by lia. lia.
Qed.

Definition text64 (b : byte) : Prop := is_digit b = true \/ in_range 65 90 b = true \/
  in_range 97 122 b = true \/ b = Byte.x2d \/ b = Byte.x5f.

Lemma enc64_text f l : Forall text64 (enc f l).
Proof.
  revert l. induction f as [|f IH]; intros l; [by destruct l|].
  destruct l as [|a [|b [|c r]]]; cbn [enc]; [constructor|..].
  - destruct (groups a a a) as (? & _ & _ & _ & ? & _).
    do 2 (constructor; [by apply alphabet_text|]). constructor.
  - destruct (groups a b b) as (? & ? & _ & _ & _ & ?).
    do 3 (constructor; [by apply alphabet_text|]). constructor.
  - destruct (groups a b c) as (? & ? & ? & ? & _). do 4 (constructor; [by apply alphabet_text|]). apply IH.
Qed.
End Toy64.

#[export] Instance toy_base64 : Base64 := {|
  b64_encode d := Toy64.enc (length d) d;
  b64_decode t := Some (Toy64.dec (length t) t)
|}.

#[export] Instance toy_base64_laws : Base64Laws toy_base64.
Proof.
  split; cbn.
  - intros d. by rewrite Toy64.dec_enc64.
  - intros d. by apply Toy64.enc64_len.
  - intros d. apply Toy64.enc64_text.
Qed.

(** A cache that forgets by age only. *)
#[export] Instance toy_cache : TtlCache := {|
  cache := gmap bytes (bytes * Z);
  entry c k := c !! k;
  cache_get now k c :=
    match c !! k with Some (v, t) => if now <? t + TOKEN_CACHE_TTL then Some v else None | None => None end;
  cache_insert now k v c := <[k := (v, now)]> c
|}.

#[export] Instance toy_cache_laws : TtlCacheLaws toy_cache TOKEN_CACHE_TTL.
Proof.
  split; cbn.
  - intros now k c v H. destruct (c !! k) as [[v' t]|]; [|done].
    destruct (Z.ltb_spec now (t + TOKEN_CACHE_TTL)); [|done]. simplify_eq. eauto.
  - intros now k v c k' e [[<- <-]|[_ H]]%lookup_insert_Some; [by left|by right].
Qed.

Definition toy_claims : Claims := mkClaims (str "alice") 2000.

Definition toy_token : bytes :=
  match issue (P := toy_aead) toy_key toy_nonce toy_claims with Ok t => t | _ => [] end.

Definition toy_auth : HeaderMap := [(str "authorization", str "Bearer " ++ toy_token)].

Lemma token_roundtrip_witness :
  exists token, issue (P := toy_aead) toy_key toy_nonce toy_claims = Ok token /\
    open (P := toy_aead) toy_key 1999 token = Ok toy_claims.
Proof.
  apply (token_roundtrip toy_aead_laws toy_base64_laws toy_key toy_nonce toy_claims 1999); try reflexivity.
  - vm_compute. split; congruence.
  - vm_compute. congruence.
Defined.

(** Cached at 1901, a second after it was opened, and refused from 2000 on. *)
Definition toy_checks : list (HeaderMap * CheckTimes) :=
  [(toy_auth, mkTimes 1900 1900 1901 1901); (toy_auth, mkTimes 1950 1950 1950 1950); (toy_auth, mkTimes 2000 2001 2001 2001)].

Lemma token_cache_transparent_witness :
  validate_run (P := toy_aead) toy_key toy_checks ∅ = [Ok (str "alice"); Ok (str "alice"); Err (unauthorized "invalid token")] /\
  Forall2 (fun req r => r = validate_uncached (P := toy_aead) (fst req) toy_key (at_open (snd req)) \/
                        r = validate_uncached (P := toy_aead) (fst req) toy_key (at_lookup (snd req) - 0)) toy_checks
    (validate_run (P := toy_aead) toy_key toy_checks ∅).
Proof.
  split; [vm_compute; reflexivity|].
  apply (token_cache_transparent toy_aead_laws toy_cache_laws toy_key 0 toy_checks).
  - intros token. exact (lookup_empty (M := gmap bytes) (A := bytes * Z) token).
  - repeat constructor; vm_compute; discriminate.
Defined.

Lemma token_open_total_witness :
  (exists c, open (P := toy_aead) toy_key 1900 toy_token = Ok c) /\
  (forall e, open (P := toy_aead) toy_key 0 (str "garbage") = Err e -> e = "token too short") /\
  match open (P := toy_aead) toy_key 1900 toy_token with
  | Ok c => 1900 < exp c /\ 0 <= exp c < u64_max /\ utf8_valid (sub c) = true
  | Err _ => True
  | Panic => False
  end.
Proof.
  split; [by exists toy_claims|]. split; [by intros e [= <-]|].
  apply (token_open_total toy_aead_laws toy_key 1900 toy_token).
Defined.

