(* ===== verification/Registry.v ===== *)
(** * The stream registry and the janitor

    [StreamRegistry] ([src/server/stream_registry.rs]) remembers which tunnel
    streams were opened, so that a recorded request cannot open one again; the
    janitor ([src/server/janitor.rs]) forgets consumed streams and expired
    session keys. The concurrent maps are finite maps, whose operations the
    code applies one at a time; clocks are arguments, in seconds. *)

From S2P Require Import Prelude.

Definition MASTER_EXPIRY : Z := 1200.

(** ** The registry *)

Inductive StreamState : Type := SActive | SConsumed.

#[export] Instance StreamState_eq_dec : EqDecision StreamState.
Proof. solve_decision. Defined.

Inductive StreamQueryResult : Type := QFresh | QActive | QConsumed.

(** Stream identifiers with their state and registration time. *)
Abbreviation StreamRegistry := (gmap bytes (StreamState * Z)).

Definition StreamRegistry_new : StreamRegistry := ∅.

Definition register (stream_id : bytes) (now_secs : Z) (streams : StreamRegistry)
    : bool * StreamRegistry :=
  match streams !! stream_id with
  | Some _ => (false, streams)
  | None => (true, <[stream_id := (SActive, now_secs)]> streams)
  end.

Definition mark_consumed (stream_id : bytes) (streams : StreamRegistry) : StreamRegistry :=
  match streams !! stream_id with
  | Some (_, ts) => <[stream_id := (SConsumed, ts)]> streams
  | None => streams
  end.

Definition check (stream_id : bytes) (streams : StreamRegistry) : StreamQueryResult :=
  match streams !! stream_id with
  | None => QFresh
  | Some (SActive, _) => QActive
  | Some (SConsumed, _) => QConsumed
  end.

Definition keep_stream (cutoff_secs : Z) (e : StreamState * Z) : bool :=
  bool_decide (fst e = SActive) || (cutoff_secs <=? snd e).

(** The number removed and what stays. *)
Definition remove_consumed_before (cutoff_secs : Z) (streams : StreamRegistry)
    : Z * StreamRegistry :=
  let kept := filter (fun e => keep_stream cutoff_secs (snd e) = true) streams in
  (Z.of_nat (size streams) - Z.of_nat (size kept), kept).

(** ** The janitor *)

(** A user, the session's master key and the time it was made. *)
Abbreviation MasterStoreEntry := (bytes * bytes * Z)%type.
Abbreviation MasterStore := (gmap bytes MasterStoreEntry).

Definition keep_master (now : Z) (e : MasterStoreEntry) : bool :=
  negb (MASTER_EXPIRY <=? saturating_sub now (snd e)).

Definition prune_expired_masters (now : Z) (master_store : MasterStore) : Z * MasterStore :=
  let kept := filter (fun e => keep_master now (snd e) = true) master_store in
  (Z.of_nat (size master_store) - Z.of_nat (size kept), kept).

(** One tick of [master_and_stream_janitor]. *)
Definition janitor_tick (now : Z) (master_store : MasterStore) (streams : StreamRegistry)
    : MasterStore * StreamRegistry :=
  let '(_, master_store) := prune_expired_masters now master_store in
  let cutoff := saturating_sub now MASTER_EXPIRY in
  let '(_, streams) := remove_consumed_before cutoff streams in
  (master_store, streams).

(** Handles whose command channel is closed leave the actor map. *)
Definition prune_dead_actors {H} (is_closed : H -> bool) (actors : gmap bytes H) : Z * gmap bytes H :=
  let kept := filter (fun e => is_closed (snd e) = false) actors in
  (Z.of_nat (size actors) - Z.of_nat (size kept), kept).

(** ** Lemmas *)

Lemma register_fresh id now streams :
  streams !! id = None -> register id now streams = (true, <[id := (SActive, now)]> streams).
Proof. unfold register. by intros ->. Qed.

Lemma register_taken id now streams e :
  streams !! id = Some e -> register id now streams = (false, streams).
Proof. unfold register. by intros ->. Qed.

Lemma register_lookup id now streams b streams' :
  register id now streams = (b, streams') ->
  (b = true <-> streams !! id = None) /\ is_Some (streams' !! id) /\
  (forall k, k <> id -> streams' !! k = streams !! k) /\
  (forall e, streams !! id = Some e -> streams' !! id = Some e).
Proof.
  unfold register. destruct (streams !! id) eqn:E; intros [= <- <-].
  - rewrite E. split; [done|]. split; [done|]. by split.
  - split; [done|]. split; [by rewrite lookup_insert_eq|]. split; [|done].
    intros k Hk. by rewrite lookup_insert_ne.
Qed.

(** Marking changes no registration time. *)
Lemma mark_consumed_lookup id streams k :
  option_map snd (mark_consumed id streams !! k) = option_map snd (streams !! k).
Proof.
  unfold mark_consumed. destruct (streams !! id) as [[s ts]|] eqn:E; [|done].
  destruct (decide (k = id)) as [->|Hk]; [by rewrite lookup_insert_eq, E|by rewrite lookup_insert_ne].
Qed.

Lemma remove_consumed_lookup cutoff streams k :
  snd (remove_consumed_before cutoff streams) !! k =
    (e ← streams !! k; if keep_stream cutoff e then Some e else None).
Proof.
  cbn. destruct (streams !! k) as [e|] eqn:E.
  - change (mbind ?f (Some e)) with (f e). cbv beta. destruct (keep_stream cutoff e) eqn:K.
    + apply map_lookup_filter_Some. by split.
    + apply map_lookup_filter_None. right. intros x Hx. cbn. congruence.
  - apply map_lookup_filter_None. by left.
Qed.

Lemma prune_masters_lookup now store k :
  snd (prune_expired_masters now store) !! k =
    (e ← store !! k; if keep_master now e then Some e else None).
Proof.
  cbn. destruct (store !! k) as [e|] eqn:E.
  - change (mbind ?f (Some e)) with (f e). cbv beta. destruct (keep_master now e) eqn:K.
    + apply map_lookup_filter_Some. by split.
    + apply map_lookup_filter_None. right. intros x Hx. cbn. congruence.
  - apply map_lookup_filter_None. by left.
Qed.
