(* ===== verification/Crypto.v ===== *)
(** * Key derivation

    The key schedule of [src/crypto/handshake.rs] and the key exchange wrappers
    of [src/crypto/keys.rs]. HKDF, X25519 and ML-KEM-768 are parameters with
    their documented behaviour: output lengths, and that both sides of an
    exchange compute the same secret. Keys are their byte strings. *)

From S2P Require Import Prelude Cipher Frame Text Token.

Class PqCrypto := {
  (** salt, input keying material, info, length *)
  hkdf_expand : option bytes -> bytes -> bytes -> Z -> bytes;
  x25519_public : bytes -> bytes;
  x25519 : bytes -> bytes -> bytes;
  (** from a random seed: the decapsulation and the encapsulation key *)
  mlkem_generate : bytes -> option (bytes * bytes);
  mlkem_import : bytes -> option bytes;
  (** key, random seed: ciphertext and shared secret *)
  mlkem_encaps : bytes -> bytes -> option (bytes * bytes);
  mlkem_decaps : bytes -> bytes -> option bytes
}.

Class PqCryptoLaws (X : PqCrypto) := {
  hkdf_len : forall salt ikm info n, 0 <= n <= 255 * 32 -> zlen (hkdf_expand salt ikm info n) = n;
  x25519_public_len : forall sk, zlen (x25519_public sk) = 32;
  x25519_agree : forall a b, x25519 a (x25519_public b) = x25519 b (x25519_public a);
  mlkem_total : forall seed, exists sk pk, mlkem_generate seed = Some (sk, pk);
  mlkem_pk : forall seed sk pk, mlkem_generate seed = Some (sk, pk) ->
    zlen pk = 1184 /\ mlkem_import pk = Some pk;
  mlkem_agree : forall seed sk pk r, mlkem_generate seed = Some (sk, pk) ->
    exists ct ss, mlkem_encaps pk r = Some (ct, ss) /\ zlen ct = 1088 /\ mlkem_decaps sk ct = Some ss
}.

Definition X25519_KEY_LEN : Z := 32.

Section keys.
Context `{X : PqCrypto} `{B : Base64}.

Definition derive_handshake_key (shared : bytes) : bytes :=
  hkdf_expand None shared (str "mlkem_handshake_key") 32.

Definition derive_initial_master (mlkem_ss x25519_ss : bytes) : bytes :=
  let ikm := mlkem_ss ++ x25519_ss in
  hkdf_expand (Some (str "initial_master_salt")) ikm [] 32.

Definition derive_cookie_stream_key (master : bytes) : bytes :=
  hkdf_expand None master (str "cookie_stream_key") 32.

(** The upload, download and target keys. *)
Definition derive_connection_keys (master stream_id : bytes) : bytes * bytes * bytes :=
  let info := stream_id ++ str "connection_keys" in
  let buf := hkdf_expand None master info 96 in
  (ztake 32 buf, slice 32 64 buf, zdrop 64 buf).

Definition diffie_hellman (our_sk their_pk : bytes) : bytes := x25519 our_sk their_pk.

(** A random secret and its public key. *)
Definition generate_keypair (random : bytes) : bytes * bytes := (random, x25519_public random).

Definition decode_fixed_32 (s : bytes) : Res string bytes :=
  let? decoded := ok_or (b64_decode s) "invalid base64" in
  if negb (zlen decoded =? X25519_KEY_LEN) then Err "invalid key length" else Ok decoded.

Definition public_key_to_b64 (pk : bytes) : bytes := b64_encode pk.
Definition private_key_to_b64 (sk : bytes) : bytes := b64_encode sk.
Definition b64_to_public_key (s : bytes) : Res string bytes := decode_fixed_32 s.
Definition b64_to_private_key (s : bytes) : Res string bytes := decode_fixed_32 s.

Definition generate_mlkem_keypair (seed : bytes) : Res string (bytes * bytes) :=
  ok_or (mlkem_generate seed) "ML-KEM key generation failed".
Definition bytes_to_encapsulation_key (b : bytes) : Res string bytes :=
  ok_or (mlkem_import b) "invalid encapsulation key".
Definition mlkem_encapsulate (pk random : bytes) : Res string (bytes * bytes) :=
  ok_or (mlkem_encaps pk random) "ML-KEM encapsulation failed".
Definition mlkem_decapsulate (sk ct : bytes) : Res string bytes :=
  ok_or (mlkem_decaps sk ct) "ML-KEM decapsulation failed".
End keys.

Section key_lengths.
Context `{X : PqCrypto} {XL : PqCryptoLaws X}.

Lemma derive_handshake_key_len s : zlen (derive_handshake_key s) = 32.
Proof. by apply hkdf_len. Qed.
Lemma derive_cookie_stream_key_len m : zlen (derive_cookie_stream_key m) = 32.
Proof. by apply hkdf_len. Qed.
Lemma derive_initial_master_len a b : zlen (derive_initial_master a b) = 32.
Proof. by apply hkdf_len. Qed.
Lemma derive_connection_keys_len m s :
  let '(u, d, t) := derive_connection_keys m s in zlen u = 32 /\ zlen d = 32 /\ zlen t = 32.
Proof.
  unfold derive_connection_keys.
  pose proof (hkdf_len None m (s ++ str "connection_keys") 96 ltac:(lia)) as H.
  set (buf := hkdf_expand _ _ _ _) in *. clearbody buf.
  rewrite zlen_ztake, zlen_zdrop, zlen_slice by lia. lia.
Qed.
End key_lengths.

(** ** A toy instance *)

Definition pad_to (n : Z) (l : bytes) : bytes := ztake n (l ++ zrep n Byte.x00).

Lemma zlen_pad_to n l : 0 <= n -> zlen (pad_to n l) = n.
Proof. intros. unfold pad_to. zl. Qed.

(** The secrets are sums of the parties' numbers, the ciphertext carries the
    shared secret. *)
#[export] Instance toy_crypto : PqCrypto := {|
  hkdf_expand salt ikm info n := pad_to n (ikm ++ info);
  x25519_public sk := be_bytes 32 (be_val sk);
  x25519 sk pk := be_bytes 32 (be_val sk + be_val pk);
  mlkem_generate seed := Some (seed, pad_to 1184 (str "pk"));
  mlkem_import pk := if zlen pk =? 1184 then Some pk else None;
  mlkem_encaps pk r := Some (pad_to 1088 r, pad_to 32 r);
  mlkem_decaps sk ct := Some (pad_to 32 (ztake 32 ct))
|}.

Lemma ztake_pad_to m n l : 0 <= m -> m <= n -> ztake m (pad_to n l) = pad_to m l.
Proof.
  intros Hm Hn. unfold pad_to. rewrite ztake_ztake by done. unfold ztake, zrep.
  apply list_eq. intros i. destruct (decide (i < Z.to_nat m)%nat).
  - rewrite !lookup_take_lt by done. destruct (decide (i < length l)%nat).
    + by rewrite !lookup_app_l.
    + rewrite !lookup_app_r, !lookup_replicate_2 by lia. done.
  - by rewrite !lookup_take_ge by lia.
Qed.

Lemma toy_agree a b :
  be_bytes 32 (be_val a + be_val (be_bytes 32 (be_val b))) =
  be_bytes 32 (be_val b + be_val (be_bytes 32 (be_val a))).
Proof.
  rewrite !be_val_be_bytes, <- be_bytes_mod, <- (be_bytes_mod _ (be_val b + _)).
  rewrite !Z.add_mod_idemp_r by lia. do 2 f_equal. lia.
Qed.

Lemma toy_decaps r : pad_to 32 (ztake 32 (pad_to 1088 r)) = pad_to 32 r.
Proof.
  rewrite ztake_pad_to by lia. unfold pad_to at 1.
  rewrite ztake_app_exact; [done|]. by rewrite zlen_pad_to.
Qed.

Lemma toy_import n l : 0 <= n -> (if zlen (pad_to n l) =? n then Some (pad_to n l) else None) = Some (pad_to n l).
Proof. intros. by rewrite zlen_pad_to, Z.eqb_refl. Qed.

#[export] Instance toy_crypto_laws : PqCryptoLaws toy_crypto.
Proof.
  split.
  - intros salt ikm info n Hn. apply (zlen_pad_to n). lia.
  - intros sk. apply zlen_be_bytes.
  - intros a b. apply toy_agree.
  - intros seed. by eexists _, _.
  - intros seed sk pk [= <- <-]. split; [apply zlen_pad_to; lia|]. exact (toy_import 1184 (str "pk") ltac:(lia)).
  - intros seed sk pk r [= <- <-]. exists (pad_to 1088 r), (pad_to 32 r).
    split; [reflexivity|]. split; [apply zlen_pad_to; lia|]. apply (f_equal Some), toy_decaps.
Qed.
