(* ===== verification/Handlers.v ===== *)
(** * The server's request handlers

    [src/server/handlers.rs]: the one POST route and what its cookies select:
    a key-exchange handshake, the opening of a tunnel, or the upload of frames
    to a tunnel. The state is the part of [AppState] the handlers change; the
    replies of the actors, the result of connecting to the target and the clock
    readings are arguments. The UUID syntax is a parameter. *)

From S2P Require Import Prelude Cipher Frame Shaper Decoder Text Cookie Errors Token Registry Crypto Upload.

Class UuidText := {
  uuid_parse : bytes -> option bytes;
  uuid_hyphenated : bytes -> bytes
}.

(** The hyphenated form of sixteen bytes: hexadecimal digits and hyphens. *)
Class UuidLaws (U : UuidText) := {
  uuid_round : forall u, zlen u = 16 -> uuid_parse (uuid_hyphenated u) = Some u;
  uuid_chars : forall u b, b ∈ uuid_hyphenated u -> is_digit b = true \/ in_range 97 102 b = true \/ b = Byte.x2d;
  uuid_len : forall u, zlen u = 16 -> zlen (uuid_hyphenated u) = 36
}.

(** ** State *)

Record SessionHandle : Type := mkHandle { upload_key : bytes; handle_encoding : EncodingType }.

Record AppState : Type := mkState {
  master_store : MasterStore;
  stream_registry : StreamRegistry;
  actors : gmap bytes SessionHandle;
  tunnel_permits : Z
}.

Definition set_registry (st : AppState) (r : StreamRegistry) : AppState :=
  mkState (master_store st) r (actors st) (tunnel_permits st).

Definition set_permits (st : AppState) (n : Z) : AppState :=
  mkState (master_store st) (stream_registry st) (actors st) n.

(** What the handlers only read. *)
Record ServerConfig : Type := mkServerConfig {
  srv_private_key : bytes;
  srv_traffic : TrafficConfig
}.

(** A response: status, header fields and body. *)
Record Response : Type := mkResponse {
  resp_status : Z;
  resp_headers : list (bytes * bytes);
  resp_body : bytes
}.

(** Every response forbids caching and carries random padding. *)
Definition respond (draw : Z -> Z -> Z) (status : Z) (body : bytes) : Response :=
  mkResponse status
    [(str "Cache-Control", str "no-store"); (str "Set-Cookie", random_padding draw)] body.

(** ** Opening a tunnel *)

(** What the session cookie of an admitted request determines. *)
Record TunnelRequest : Type := mkTunnelRequest {
  tr_stream_id : bytes;
  tr_upload_key : bytes;
  tr_download_key : bytes;
  tr_host : bytes;
  tr_port : Z
}.

Section handlers.
Context `{P : Aead} `{B64 : Base64} `{U : UuidText} `{X : PqCrypto}.

Definition precondition {A} (m : string) : Res ServerError A := Err (precondition_required m).

Definition or_428 {A} (m : string) (o : option A) : Res ServerError A := ok_or o (precondition_required m).

(** [session:target:stream], the last two encrypted. *)
Definition split_session_cookie (v : bytes) : option (bytes * bytes * bytes) :=
  '(session_id, rest) ← split_once Byte.x3a v;
  '(enc_target, enc_stream_id) ← split_once Byte.x3a rest;
  Some (session_id, enc_target, enc_stream_id).

(** A master key may open streams up to and including its 1200th second. *)
Definition master_expired (now created : Z) : bool := MASTER_EXPIRY <? saturating_sub now created.

(** The lookup of the session; an expired master is removed. *)
Definition lookup_master (now : Z) (session_id : bytes) (st : AppState)
    : Res ServerError (bytes * bytes) * AppState :=
  match master_store st !! session_id with
  | None => (precondition "session not found", st)
  | Some (username, master, created) =>
      if master_expired now created
      then (precondition "master key expired",
            mkState (delete session_id (master_store st)) (stream_registry st) (actors st)
              (tunnel_permits st))
      else (Ok (username, master), st)
  end.

Definition decrypt_stream_id (master enc_stream_id_b64 : bytes) : Res ServerError bytes :=
  let cookie_stream_key := derive_cookie_stream_key master in
  let? enc_stream_id := or_428 "invalid cookie encoding" (b64_decode enc_stream_id_b64) in
  let? stream_id :=
    map_err (fun _ => precondition_required "failed to decrypt stream ID")
      (decrypt_bytes cookie_stream_key enc_stream_id) in
  if zlen stream_id =? 16 then Ok stream_id else precondition "invalid stream ID length".

Definition decrypt_target (target_key enc_target_b64 : bytes) : Res ServerError (bytes * Z) :=
  let? enc_target := or_428 "invalid cookie encoding" (b64_decode enc_target_b64) in
  let? target :=
    map_err (fun _ => precondition_required "failed to decrypt target")
      (decrypt_bytes target_key enc_target) in
  if negb (utf8_valid target) then precondition "invalid target utf8"
  else
    let? (host, port_str) :=
      ok_or (rsplit_once Byte.x3a target) (bad_request "target must be host:port") in
    let? port := ok_or (parse_u16 port_str) (bad_request "invalid port") in
    Ok (host, port).

(** The part of [spawn_encrypted_tunnel] up to the registration; [now1] and
    [now2] are its two readings of the clock. *)
Definition admit_stream (now1 now2 : Z) (session_cookie_val : bytes) (st : AppState)
    : Res ServerError (bytes * bytes * bytes) * AppState :=
  match split_session_cookie session_cookie_val with
  | None => (precondition "invalid session cookie format", st)
  | Some (session_id, enc_target, enc_stream_id) =>
      match uuid_parse session_id with
      | None => (Err (bad_request "invalid UUID format"), st)
      | Some _ =>
          match lookup_master now1 session_id st with
          | (Ok (username, master), st) =>
              match decrypt_stream_id master enc_stream_id with
              | Ok stream_id =>
                  let '(fresh, registry) := register stream_id now2 (stream_registry st) in
                  if fresh then (Ok (master, stream_id, enc_target), set_registry st registry)
                  else (precondition "stream already active", st)
              | Err e => (Err e, st)
              | Panic => (Panic, st)
              end
          | (Err e, st) => (Err e, st)
          | (Panic, st) => (Panic, st)
          end
      end
  end.

(** ** The environment of a tunnel's set-up *)

Inductive ConnectOutcome : Type := Connected | ConnectTimeout | ConnectFailed (m : string).

Record SetupEnv : Type := mkSetupEnv {
  se_connect : bytes -> Z -> ConnectOutcome;
  se_body : list BodyEvent;        (* the request body *)
  se_polls : nat;                  (* polls of the body before its deadline *)
  se_upload_open : nat -> bool;    (* whether the upload actor takes the n-th frame *)
  se_draw : Z -> Z -> Z            (* the padding drawn *)
}.

Context `{B122 : Base122}.

(** The loop over the decoded frames: each is sent to the upload actor. *)
Definition forward_frames (closed_error : ServerError) (decode_error : string) (is_open : nat -> bool)
    (decoded : list (Z * bytes) * Outcome) : Res ServerError (list UploadCmd) * list UploadCmd :=
  let cmds := map (fun it => CmdFrame (fst it) (snd it)) (fst decoded) in
  let refused := list_find (fun n => is_open n = false) (List.seq 0 (length cmds)) in
  match refused with
  | Some (n, _) => (Err closed_error, take n cmds)
  | None =>
      match snd decoded with
      | Finished => (Ok cmds, cmds)
      | Failed e => (Err (bad_request (String.append decode_error (msg e))), cmds)
      | Unfinished => (Err (request_timeout "request body read timed out"), cmds)
      | Panicked => (Panic, cmds)
      end
  end.

(** The stages of [setup_tunnel_response]. It holds a permit from its first
    line on, over the waits for the target and for the request body; the
    permit then moves into the task of the tunnel's actor, and every way out
    before that drops it. *)
Definition take_permit (st : AppState) : option AppState :=
  if tunnel_permits st <=? 0 then None else Some (set_permits st (tunnel_permits st - 1)).

Definition return_permit (st : AppState) : AppState := set_permits st (tunnel_permits st + 1).

Definition connect_tunnel (env : SetupEnv) (tr : TunnelRequest) : Res ServerError unit :=
  match se_connect env (tr_host tr) (tr_port tr) with
  | ConnectTimeout => Err (gateway_timeout "connect timeout")
  | ConnectFailed m => Err (bad_gateway m)
  | Connected => Ok tt
  end.

(** The commands sent to the new upload actor are returned too. *)
Definition forward_early (cfg : ServerConfig) (env : SetupEnv) (tr : TunnelRequest)
    : Res ServerError (list UploadCmd) * list UploadCmd :=
  match AesFrameCipher_new (tr_upload_key tr) with
  | Ok upload_cipher =>
      forward_frames (bad_gateway "upload actor closed during initial stream") "decode error: " (se_upload_open env)
        (collect (C := aes_frame_cipher upload_cipher) (se_polls env)
           (FrameDecoder_new (se_body env) (encoding_type (srv_traffic cfg)) MAX_FRAME_BUF_SIZE))
  | _ => (Panic, [])
  end.

Definition insert_handle (cfg : ServerConfig) (tr : TunnelRequest) (st : AppState) : AppState :=
  mkState (master_store st) (stream_registry st)
    (<[tr_stream_id tr := mkHandle (tr_upload_key tr) (encoding_type (srv_traffic cfg))]> (actors st)) (tunnel_permits st).

(** [setup_tunnel_response] when nothing else happens in between; [Replay]
    runs its stages one at a time. *)
Definition setup_tunnel_response (cfg : ServerConfig) (env : SetupEnv) (tr : TunnelRequest)
    (st : AppState) : Res ServerError Response * list UploadCmd * AppState :=
  match take_permit st with
  | None => (Err (service_unavailable "too many concurrent tunnels"), [], st)
  | Some st =>
      match connect_tunnel env tr with
      | Ok _ =>
          match forward_early cfg env tr with
          | (Ok _, sent) => (Ok (respond (se_draw env) 200 []), sent, insert_handle cfg tr st)
          | (Err e, sent) => (Err e, sent, return_permit st)
          | (Panic, sent) => (Panic, sent, return_permit st)
          end
      | Err e => (Err e, [], return_permit st)
      | Panic => (Panic, [], return_permit st)
      end
  end.

(** Dropping an armed [StreamGuard]. *)
Definition drop_stream_guard (stream_id : bytes) (st : AppState) : AppState :=
  set_registry st (mark_consumed stream_id (stream_registry st)).

(** The rest of [spawn_encrypted_tunnel], under the guard, which only success
    disarms. *)
Definition open_stream (cfg : ServerConfig) (env : SetupEnv) (master stream_id enc_target : bytes)
    (st : AppState) : Res ServerError Response * list UploadCmd * AppState :=
  let '(ukey, dkey, tkey) := derive_connection_keys master stream_id in
  match decrypt_target tkey enc_target with
  | Ok (host, port) =>
      match setup_tunnel_response cfg env (mkTunnelRequest stream_id ukey dkey host port) st with
      | (Ok response, sent, st) => (Ok response, sent, st)
      | (Err e, sent, st) => (Err e, sent, drop_stream_guard stream_id st)
      | (Panic, sent, st) => (Panic, sent, drop_stream_guard stream_id st)
      end
  | Err e => (Err e, [], drop_stream_guard stream_id st)
  | Panic => (Panic, [], drop_stream_guard stream_id st)
  end.

Definition spawn_encrypted_tunnel (cfg : ServerConfig) (env : SetupEnv) (now1 now2 : Z)
    (session_cookie_val : bytes) (st : AppState)
    : Res ServerError Response * list UploadCmd * AppState :=
  match admit_stream now1 now2 session_cookie_val st with
  | (Ok (master, stream_id, enc_target), st) => open_stream cfg env master stream_id enc_target st
  | (Err e, st) => (Err e, [], st)
  | (Panic, st) => (Panic, [], st)
  end.

(** The end of a tunnel: its actor marks the stream consumed, when it cleans up
    and again when it is dropped, then the guards of its task remove the handle
    and return the permit. *)
Definition consume_stream (stream_id : bytes) (st : AppState) : AppState :=
  set_registry st (mark_consumed stream_id (stream_registry st)).

Definition drop_actor_guard (stream_id : bytes) (st : AppState) : AppState :=
  mkState (master_store st) (stream_registry st) (delete stream_id (actors st)) (tunnel_permits st).

(** What follows the wait for the upload actor. *)
Definition end_tunnel (stream_id : bytes) (st : AppState) : AppState :=
  return_permit (drop_actor_guard stream_id (consume_stream stream_id st)).

(** ** Uploading to a tunnel *)

Inductive ContinueReply : Type := ContSegment (body : bytes) | ContNone | ContDropped | ContTimeout | ContClosed.
Inductive EosReply : Type := EosOk | EosErr (e : ServerError) | EosDropped | EosTimeout | EosClosed.

Record UploadEnv : Type := mkUploadEnv {
  ue_body : list BodyEvent;
  ue_polls : nat;
  ue_upload_open : nat -> bool;
  ue_continue : ContinueReply;
  ue_eos : EosReply;
  ue_ack : Z;                     (* the acknowledgement channel *)
  ue_draw : Z -> Z -> Z
}.

(** The response and the commands sent to the upload actor. *)
Definition dispatch_to_actor (handle : SessionHandle) (env : UploadEnv)
    : Res ServerError Response * list UploadCmd :=
  match AesFrameCipher_new (upload_key handle) with
  | Ok upload_cipher =>
      let decoded := collect (C := aes_frame_cipher upload_cipher) (ue_polls env)
                       (FrameDecoder_new (ue_body env) (handle_encoding handle) MAX_FRAME_BUF_SIZE) in
      match forward_frames (bad_gateway "upload actor closed") "frame decode error: "
              (ue_upload_open env) decoded with
      | (Ok _, sent) =>
          let max_seq := foldl (fun m it => Z.max m (fst it)) 0 (fst decoded) in
          let frame_count := zlen (fst decoded) in
          if frame_count =? 0 then
            (match ue_continue env with
             | ContSegment body => Ok (respond (ue_draw env) 200 body)
             | ContNone | ContDropped => Ok (respond (ue_draw env) 204 [])
             | ContTimeout => Err (gateway_timeout "continue timed out")
             | ContClosed => Err (bad_gateway "actor closed")
             end, sent)
          else
            match ue_eos env with
            | EosClosed => (Err (bad_gateway "upload actor closed"), sent)
            | reply =>
                (match reply with
                 | EosOk => Ok (respond (ue_draw env) 204 [])
                 | EosErr e => Err e
                 | EosDropped => Err (bad_gateway "actor closed before upload ack")
                 | _ => Err (gateway_timeout "upload drain timeout")
                 end, sent ++ [CmdEos max_seq (ue_ack env)])
            end
      | (Err e, sent) => (Err e, sent)
      | (Panic, sent) => (Panic, sent)
      end
  | _ => (Panic, [])
  end.

Definition handle_stream_not_found (stream_id : bytes) (st : AppState) : Res ServerError Response :=
  match check stream_id (stream_registry st) with
  | QConsumed => precondition "stream already consumed"
  | QActive => precondition "stream setup incomplete"
  | QFresh => precondition "stream not found"
  end.
End handlers.

(** ** A concrete UUID syntax *)

Module ToyUuid.
Definition hex_digit (n : Z) : byte := zb (if n <? 10 then 48 + n else 87 + n).
Definition hex_value (b : byte) : Z := if is_digit b then bz b - 48 else bz b - 87.
Definition hex (u : bytes) : bytes := u ≫= (fun b => [hex_digit (bz b / 16); hex_digit (bz b mod 16)]).

Fixpoint unhex (t : bytes) : bytes :=
  match t with
  | a :: b :: t => zb (hex_value a * 16 + hex_value b) :: unhex t
  | _ => []
  end.

Definition hyphen : bytes := [Byte.x2d].

Definition text (u : bytes) : bytes :=
  hex (slice 0 4 u) ++ hyphen ++ hex (slice 4 6 u) ++ hyphen ++ hex (slice 6 8 u) ++ hyphen ++
  hex (slice 8 10 u) ++ hyphen ++ hex (zdrop 10 u).

Definition is_hex (b : byte) : bool := is_digit b || in_range 97 102 b.

Definition parse (t : bytes) : option bytes :=
  let t := filter (fun b => is_hex b = true) t in
  if zlen t =? 32 then Some (unhex t) else None.

Lemma hex_digit_ok n : 0 <= n < 16 -> is_hex (hex_digit n) = true /\ hex_value (hex_digit n) = n.
Proof.
  intros Hn. assert (Hin : n ∈ seqZ 0 16) by (apply elem_of_seqZ; lia). clear Hn. revert n Hin.
  apply Forall_forall. apply (bool_decide_eq_true_1 _). reflexivity.
Qed.

Lemma nibbles b : 0 <= bz b / 16 < 16 /\ 0 <= bz b mod 16 < 16 /\ zb (bz b / 16 * 16 + bz b mod 16) = b.
Proof.
  pose proof (bz_range b). split_and!; try (apply Z.mod_pos_bound; lia).
  - by apply Z.div_pos; lia.
  - apply Z.div_lt_upper_bound; lia.
  - rewrite (Z.mul_comm _ 16), <- Z.div_mod by lia. apply zb_bz.
Qed.

Lemma hex_all u : Forall (fun b => is_hex b = true) (hex u).
Proof.
  induction u as [|b u IH]; [constructor|]. destruct (nibbles b) as (H1 & H2 & _).
  cbn. constructor; [by apply hex_digit_ok|]. constructor; [by apply hex_digit_ok|]. exact IH.
Qed.

Lemma unhex_hex u : unhex (hex u) = u.
Proof.
  induction u as [|b u IH]; [done|]. destruct (nibbles b) as (H1 & H2 & H3). cbn.
  destruct (hex_digit_ok _ H1) as [_ ->]. destruct (hex_digit_ok _ H2) as [_ ->].
  rewrite H3. f_equal. exact IH.
Qed.

Lemma length_hex u : length (hex u) = (2 * length u)%nat.
Proof. induction u as [|b u IH]; [done|]. cbn. change (mbind _ u) with (hex u). rewrite IH. lia. Qed.

Lemma filter_hex u : filter (fun b => is_hex b = true) (hex u) = hex u.
Proof.
  pose proof (hex_all u) as H. induction H as [|b l Hb _ IH]; [done|].
  rewrite filter_cons_True by done. by rewrite IH.
Qed.

Lemma split16 (u : bytes) : slice 0 4 u ++ slice 4 6 u ++ slice 6 8 u ++ slice 8 10 u ++ zdrop 10 u = u.
Proof.
  rewrite <- (slice_zdrop 8 10), <- (slice_zdrop 6 8), <- (slice_zdrop 4 6), <- (slice_zdrop 0 4) by lia.
  apply zdrop_0.
Qed.

Lemma parse_text u : zlen u = 16 -> parse (text u) = Some u.
Proof.
  intros Hu. unfold parse, text. rewrite !filter_app, !filter_hex.
  change (filter (fun b => is_hex b = true) hyphen) with (@nil byte). cbn [app].
  unfold hex. rewrite <- !bind_app, split16. fold (hex u).
  rewrite unhex_hex. unfold zlen in *. rewrite length_hex.
  replace (Z.of_nat (2 * length u)) with 32 by lia. done.
Qed.
End ToyUuid.

#[export] Instance toy_uuid : UuidText := {| uuid_parse := ToyUuid.parse; uuid_hyphenated := ToyUuid.text |}.

#[export] Instance toy_uuid_laws : UuidLaws toy_uuid.
Proof.
  split; cbn.
  - apply ToyUuid.parse_text.
  - intros u b Hb. unfold ToyUuid.text in Hb. rewrite !elem_of_app in Hb.
    assert (Hh : forall v, b ∈ ToyUuid.hex v -> is_digit b = true \/ in_range 97 102 b = true \/ b = Byte.x2d).
    { intros v Hv. pose proof (ToyUuid.hex_all v) as Ha. rewrite Forall_forall in Ha.
      specialize (Ha b Hv). unfold ToyUuid.is_hex in Ha. apply orb_prop in Ha. tauto. }
    unfold ToyUuid.hyphen in Hb. rewrite !list_elem_of_singleton in Hb.
    destruct_or!; try (subst b; by right; right);
      (destruct (Hh _ Hb) as [?|[?|?]]; [by left|by right; left|by right; right]).
  - intros u Hu. unfold ToyUuid.text, zlen. rewrite !length_app, !ToyUuid.length_hex.
    rewrite <- (ToyUuid.split16 u) in Hu. unfold zlen in Hu. rewrite !length_app in Hu. cbn. lia.
Qed.
