(* ===== verification/Handshake.v ===== *)
(** * The post-quantum handshake

    The client's [perform_pq_handshake] ([src/client/handshake.rs]) and the
    server's [handle_fresh_handshake] and [dispatch] ([src/server/handlers.rs])
    over the exchange of [Crypto] and the frames of [Frame]: both derive the
    same master key, under a session the server then knows. *)

From S2P Require Import Prelude Cipher Frame Shaper Decoder Text Cookie Errors Token Registry Crypto Upload Handlers.

Definition MLKEM_CT_LEN : Z := 1088.

(** A cipher under a 32-byte key. *)
Definition cipher_of `{P : Aead} (key : bytes) : Res string FrameCipher :=
  let? c := AesFrameCipher_new key in Ok (aes_frame_cipher c).

(** [AesFrameCipher::new] in a server handler: a key of the wrong length
    panics. *)
Definition as_server {E A} (r : Res E A) (f : E -> ServerError) : Res ServerError A := map_err f r.

Section server.
Context `{P : Aead} `{B64 : Base64} `{U : UuidText} `{X : PqCrypto} `{B122 : Base122} `{K : TtlCache}.

(** What [axum::body::to_bytes] made of the request body. *)
Inductive BodyRead : Type := BodyBytes (b : bytes) | BodyTooBig (m : string) | BodyTimeout.

(** The server's random draws of one handshake. *)
Record ServerDraws : Type := mkServerDraws {
  sd_kem : bytes;       (* the encapsulation's randomness *)
  sd_x25519 : bytes;    (* the ephemeral secret *)
  sd_session : bytes;   (* sixteen bytes of a fresh UUID *)
  sd_nonce : bytes;
  sd_draw : Z -> Z -> Z
}.

(** The two length-prefixed keys of a ClientHello. *)
Definition parse_client_hello (data : bytes) : Res ServerError (bytes * bytes) :=
  if zlen data <? 2 then Err (bad_request "ClientHello too short")
  else
    let len_kem := be_val (slice 0 2 data) in
    let kem_end := 2 + len_kem in
    if zlen data <? kem_end then Err (bad_request "ClientHello truncated (KEM part)")
    else
      let kem_pk_bytes := slice 2 kem_end data in
      let? kem_pk := map_err (fun e => bad_request (String.append "invalid mlkem public key: " e))
                       (bytes_to_encapsulation_key kem_pk_bytes) in
      if zlen data <? kem_end + 2 then Err (bad_request "ClientHello truncated (no X25519 part)")
      else
        let len_x25519 := be_val (slice kem_end (kem_end + 2) data) in
        let x25519_end := kem_end + 2 + len_x25519 in
        if zlen data <? x25519_end then Err (bad_request "ClientHello truncated (X25519 part)")
        else
          let eph_pk_b_bytes := slice (kem_end + 2) x25519_end data in
          if zlen eph_pk_b_bytes =? 32 then Ok (kem_pk, eph_pk_b_bytes)
          else Err (bad_request "invalid client x25519 pk length").

Definition read_eph_pk_a (headers : HeaderMap) : Res ServerError bytes :=
  let? eph_pk_a_b64 := ok_or (extract_cookie_value headers (str "eph_pk_a"))
                         (bad_request "missing eph_pk_a cookie") in
  let? eph_pk_a := ok_or (b64_decode eph_pk_a_b64) (bad_request "invalid eph_pk_a base64") in
  if negb (zlen eph_pk_a =? 32) then Err (bad_request "eph_pk_a must be 32 bytes") else Ok eph_pk_a.

(** An I/O error of the codec becomes an internal error. *)
Definition io_error (e : IoError) : ServerError := server_error_of_io e.

Definition handle_fresh_handshake (cfg : ServerConfig) (token_key : LessSafeKey) (headers : HeaderMap)
    (body : BodyRead) (unix_now now : Z) (draws : ServerDraws) (st : AppState) (c : cache)
    : Res ServerError Response * AppState * cache :=
  let '(user, c) := validate_token_if_needed headers token_key unix_now c in
  let enc := encoding_type (srv_traffic cfg) in
  let pad := global (srv_traffic cfg) in
  let made :=
    let? user := user in
    let? eph_pk_a := read_eph_pk_a headers in
    let shared_a := diffie_hellman (srv_private_key cfg) eph_pk_a in
    let handshake_key := derive_handshake_key shared_a in
    let? handshake_cipher := as_server (AesFrameCipher_new handshake_key) internal in
    let? body_bytes := match body with
                       | BodyBytes b => Ok b
                       | BodyTooBig m => Err (payload_too_large (String.append "request body error: " m))
                       | BodyTimeout => Err (request_timeout "request body read timed out")
                       end in
    let? frame := map_err io_error
      (fst (decode_from_buffer (C := aes_frame_cipher handshake_cipher) body_bytes enc)) in
    let? (_, client_hello_data) := ok_or frame (bad_request "invalid ClientHello frame") in
    let? (kem_pk, client_eph_pk_b) := parse_client_hello client_hello_data in
    let? (ct, ss_mlkem) :=
      map_err (fun e => internal (String.append "ML-KEM encapsulation failed: " e))
        (mlkem_encapsulate kem_pk (sd_kem draws)) in
    let '(server_eph_sk, server_eph_pk) := generate_keypair (sd_x25519 draws) in
    let ss_x25519 := diffie_hellman server_eph_sk client_eph_pk_b in
    let master := derive_initial_master ss_mlkem ss_x25519 in
    let session_id := uuid_hyphenated (sd_session draws) in
    let server_hello :=
      be_bytes 2 (as_u16 (zlen session_id)) ++ session_id ++ ct ++ server_eph_pk in
    let encoded := encode_frame (C := aes_frame_cipher handshake_cipher) (sd_nonce draws) (sd_draw draws)
      server_hello 0 (padding_threshold pad) (padding_range pad) enc in
    Ok (session_id, (user, master, now),
        map_err (fun e => internal (String.append "encode ServerHello: " (msg e))) encoded) in
  match made with
  | Ok (session_id, entry, encoded) =>
      let st := mkState (<[session_id := entry]> (master_store st)) (stream_registry st) (actors st)
                  (tunnel_permits st) in
      (let? server_hello_frame := encoded in
       Ok (respond (sd_draw draws) 200 server_hello_frame), st, c)
  | Err e => (Err e, st, c)
  | Panic => (Panic, st, c)
  end.

(** The one route: the cookies decide. *)
Definition dispatch_request (cfg : ServerConfig) (token_key : LessSafeKey) (headers : HeaderMap)
    (body : BodyRead) (setup : SetupEnv) (upload : UploadEnv) (unix_now now1 now2 : Z)
    (draws : ServerDraws) (st : AppState) (c : cache)
    : Res ServerError Response * list UploadCmd * AppState * cache :=
  match extract_cookie_value headers (str "stream") with
  | Some stream_cookie_val =>
      match uuid_parse stream_cookie_val with
      | None => (precondition "invalid stream id", [], st, c)
      | Some stream_id =>
          match actors st !! stream_id with
          | Some handle =>
              let '(r, sent) := dispatch_to_actor handle upload in (r, sent, st, c)
          | None => (handle_stream_not_found stream_id st, [], st, c)
          end
      end
  | None =>
      match extract_cookie_value headers (str "session") with
      | Some session_val =>
          if negb (bool_decide (Byte.x3a ∈ session_val))
          then (precondition "invalid session cookie: encrypted session required", [], st, c)
          else
            let '(r, sent, st) := spawn_encrypted_tunnel cfg setup now1 now2 session_val st in
            (r, sent, st, c)
      | None =>
          match extract_cookie_value headers (str "eph_pk_a") with
          | Some _ =>
              let '(r, st, c) := handle_fresh_handshake cfg token_key headers body unix_now now1 draws st c in
              (r, [], st, c)
          | None => (Err (bad_request "missing required cookies"), [], st, c)
          end
      end
  end.
End server.

(** ** The client *)

Section client.
Context `{P : Aead} `{B64 : Base64} `{X : PqCrypto} `{B122 : Base122}.

Record ClientDraws : Type := mkClientDraws {
  cd_eph_a : bytes;
  cd_kem : bytes;
  cd_eph_b : bytes;
  cd_nonce : bytes;
  cd_draw : Z -> Z -> Z
}.

Record PqSessionTicket : Type := mkTicket { ticket_master : bytes; ticket_session : bytes }.

(** The secrets the client keeps while it waits. *)
Record ClientSecrets : Type := mkSecrets {
  cs_cipher : AesFrameCipher;
  cs_kem_sk : bytes;
  cs_eph_sk_b : bytes
}.

Definition client_hello_of (kem_pk_bytes eph_pk_b_bytes : bytes) : bytes :=
  be_bytes 2 (as_u16 (zlen kem_pk_bytes)) ++ kem_pk_bytes ++
  be_bytes 2 (as_u16 (zlen eph_pk_b_bytes)) ++ eph_pk_b_bytes.

(** The first half of [perform_pq_handshake]: the request's Cookie header and
    body, and the secrets. *)
Definition make_client_hello (traffic : TrafficConfig) (server_pk : bytes) (draws : ClientDraws)
    : Res string (bytes * bytes * ClientSecrets) :=
  let '(eph_sk_a, eph_pk_a) := generate_keypair (cd_eph_a draws) in
  let x25519_shared_a := diffie_hellman eph_sk_a server_pk in
  let handshake_key := derive_handshake_key x25519_shared_a in
  let? handshake_cipher := AesFrameCipher_new handshake_key in
  let? (kem_sk, kem_pk) := generate_mlkem_keypair (cd_kem draws) in
  let '(eph_sk_b, eph_pk_b) := generate_keypair (cd_eph_b draws) in
  let client_hello := client_hello_of kem_pk eph_pk_b in
  let? client_hello_frame := map_err msg
    (encode_frame (C := aes_frame_cipher handshake_cipher) (cd_nonce draws) (cd_draw draws) client_hello 0
       (padding_threshold (global traffic)) (padding_range (global traffic)) (encoding_type traffic)) in
  let handshake_cookie := build_cookie_into (cd_draw draws) [] (str "eph_pk_a") (b64_encode eph_pk_a) in
  Ok (handshake_cookie, client_hello_frame, mkSecrets handshake_cipher kem_sk eph_sk_b).

(** The response's chunks are gathered until a frame is complete. *)
Fixpoint await_server_hello (c : AesFrameCipher) (enc : EncodingType) (chunks : list bytes)
    (body_buf : bytes) : Res string bytes :=
  match chunks with
  | [] => Err "ServerHello not received"
  | chunk :: chunks =>
      let body_buf := body_buf ++ chunk in
      match decode_from_buffer (C := aes_frame_cipher c) body_buf enc with
      | (Ok (Some (_, data)), _) => Ok data
      | (Ok None, body_buf) => await_server_hello c enc chunks body_buf
      | (Err e, _) => Err (msg e)
      | (Panic, _) => Panic
      end
  end.

Definition parse_server_hello (data : bytes) : Res string (bytes * bytes * bytes) :=
  if zlen data <? 2 then Err "ServerHello too short"
  else
    let sid_len := be_val (slice 0 2 data) in
    let ct_start := 2 + sid_len in
    let ct_end := ct_start + MLKEM_CT_LEN in
    if zlen data <? ct_end + 32 then Err "ServerHello truncated"
    else
      let session_id := slice 2 (2 + sid_len) data in
      if negb (utf8_valid session_id) then Err "invalid session_id"
      else Ok (session_id, slice ct_start ct_end data, slice ct_end (ct_end + 32) data).

(** The second half: the master key from the ServerHello. *)
Definition finish_handshake (traffic : TrafficConfig) (secrets : ClientSecrets) (chunks : list bytes)
    : Res string PqSessionTicket :=
  let? data := await_server_hello (cs_cipher secrets) (encoding_type traffic) chunks [] in
  let? (session_id, ct_bytes, server_eph_pk) := parse_server_hello data in
  let? ss_mlkem := mlkem_decapsulate (cs_kem_sk secrets) ct_bytes in
  let ss_x25519 := diffie_hellman (cs_eph_sk_b secrets) server_eph_pk in
  Ok (mkTicket (derive_initial_master ss_mlkem ss_x25519) session_id).

(** The session cookie of [try_pq_connect]: session, target and stream. *)
Definition session_cookie (ticket : PqSessionTicket) (target_host stream_id nonce1 nonce2 : bytes)
    : Res string bytes :=
  let '(upload_key, download_key, target_key) :=
    derive_connection_keys (ticket_master ticket) stream_id in
  let? enc_target := encrypt_bytes nonce1 target_key target_host in
  let cookie_stream_key := derive_cookie_stream_key (ticket_master ticket) in
  let? enc_stream_id := encrypt_bytes nonce2 cookie_stream_key stream_id in
  Ok (ticket_session ticket ++ [Byte.x3a] ++ b64_encode enc_target ++ [Byte.x3a]
        ++ b64_encode enc_stream_id).
End client.

(** ** Lemmas *)

Section exchange.
Context `{P : Aead} {L : AeadLaws P} `{B64 : Base64} {BL : Base64Laws B64} `{U : UuidText} {UL : UuidLaws U}.
Context `{X : PqCrypto} {XL : PqCryptoLaws X} `{B122 : Base122} {B122L : Base122Laws B122}.

Lemma AesFrameCipher_new_ok key : zlen key = 32 -> exists c, AesFrameCipher_new key = Ok c.
Proof.
  intros Hk. unfold AesFrameCipher_new, make_key. destruct (unbound_key_32 key Hk) as [k ->]. by eexists.
Qed.

(** A ClientHello is parsed to its two keys. *)
Lemma parse_client_hello_of pk eph :
  zlen pk = 1184 -> mlkem_import pk = Some pk -> zlen eph = 32 ->
  parse_client_hello (client_hello_of pk eph) = Ok (pk, eph).
Proof.
  intros Hpk Himp Heph. unfold parse_client_hello, client_hello_of.
  rewrite !as_u16_small by (rewrite ?Hpk, ?Heph; unfold u16_max; lia).
  assert (Hlen : zlen (be_bytes 2 (zlen pk) ++ pk ++ be_bytes 2 (zlen eph) ++ eph) = 1220).
  { rewrite !zlen_app, !zlen_be_bytes, Hpk, Heph. done. }
  assert (S1 : slice 0 2 (be_bytes 2 (zlen pk) ++ pk ++ be_bytes 2 (zlen eph) ++ eph) = be_bytes 2 (zlen pk)).
  { by apply (slice_middle 0 2 []). }
  assert (S2 : slice 2 1186 (be_bytes 2 (zlen pk) ++ pk ++ be_bytes 2 (zlen eph) ++ eph) = pk).
  { apply slice_middle; [by rewrite zlen_be_bytes|]. rewrite zlen_be_bytes, Hpk. done. }
  assert (S3 : slice 1186 1188 (be_bytes 2 (zlen pk) ++ pk ++ be_bytes 2 (zlen eph) ++ eph) = be_bytes 2 (zlen eph)).
  { rewrite (app_assoc _ pk). apply slice_middle; rewrite zlen_app, !zlen_be_bytes, Hpk; done. }
  assert (S4 : slice 1188 1220 (be_bytes 2 (zlen pk) ++ pk ++ be_bytes 2 (zlen eph) ++ eph) = eph).
  { rewrite (app_assoc _ pk), (app_assoc _ (be_bytes 2 (zlen eph))).
    apply slice_last; rewrite !zlen_app, !zlen_be_bytes, Hpk, ?Heph; done. }
  assert (B1 : be_val (be_bytes 2 (zlen pk)) = 1184) by (rewrite Hpk; by apply be_val_round).
  assert (B2 : be_val (be_bytes 2 (zlen eph)) = 32) by (rewrite Heph; by apply be_val_round).
  set (data := _ ++ _) in *. rewrite Hlen. change (1220 <? 2) with false. cbv iota.
  rewrite S1, B1. change (2 + 1184) with 1186. change (1220 <? 1186) with false. cbv iota zeta.
  rewrite S2. unfold bytes_to_encapsulation_key. rewrite Himp. cbn [ok_or map_err res_bind].
  change (1186 + 2) with 1188. change (1220 <? 1188) with false. cbv iota.
  rewrite S3, B2. change (1188 + 32) with 1220. change (1220 <? 1220) with false. cbv iota.
  rewrite S4, Heph. done.
Qed.

(** A ServerHello is parsed to its three fields. *)
Lemma parse_server_hello_of sid ct pk :
  zlen sid = 36 -> utf8_valid sid = true -> zlen ct = 1088 -> zlen pk = 32 ->
  parse_server_hello (be_bytes 2 (as_u16 (zlen sid)) ++ sid ++ ct ++ pk) = Ok (sid, ct, pk).
Proof.
  intros Hsid Hu Hct Hpk. unfold parse_server_hello.
  rewrite as_u16_small by (rewrite Hsid; unfold u16_max; lia).
  assert (Hlen : zlen (be_bytes 2 (zlen sid) ++ sid ++ ct ++ pk) = 1158).
  { rewrite !zlen_app, zlen_be_bytes, Hsid, Hct, Hpk. done. }
  assert (S1 : slice 0 2 (be_bytes 2 (zlen sid) ++ sid ++ ct ++ pk) = be_bytes 2 (zlen sid)).
  { by apply (slice_middle 0 2 []). }
  assert (S2 : slice 2 38 (be_bytes 2 (zlen sid) ++ sid ++ ct ++ pk) = sid).
  { apply slice_middle; rewrite zlen_be_bytes, ?Hsid; done. }
  assert (S3 : slice 38 1126 (be_bytes 2 (zlen sid) ++ sid ++ ct ++ pk) = ct).
  { rewrite (app_assoc _ sid). apply slice_middle; rewrite zlen_app, zlen_be_bytes, Hsid, ?Hct; done. }
  assert (S4 : slice 1126 1158 (be_bytes 2 (zlen sid) ++ sid ++ ct ++ pk) = pk).
  { rewrite (app_assoc _ sid), (app_assoc _ ct).
    apply slice_last; rewrite !zlen_app, zlen_be_bytes, Hsid, Hct, ?Hpk; done. }
  assert (B1 : be_val (be_bytes 2 (zlen sid)) = 36) by (rewrite Hsid; by apply be_val_round).
  set (data := _ ++ _) in *. rewrite Hlen. change (1158 <? 2) with false. cbv iota.
  rewrite S1, B1. change (1158 <? 2 + 36 + MLKEM_CT_LEN + 32) with false. cbv iota.
  change (2 + 36) with 38. change (38 + MLKEM_CT_LEN) with 1126. change (1126 + 32) with 1158.
  rewrite S2, Hu, S3, S4. done.
Qed.

(** The hello is found whatever chunks it arrives in. *)
Lemma await_server_hello_frame c enc chunks buf w data :
  is_frame (C := aes_frame_cipher c) enc 0 data w -> buf ++ concat chunks = w -> buf <> w ->
  await_server_hello c enc chunks buf = Ok data.
Proof.
  intros Hw. revert buf. induction chunks as [|chunk chunks IH]; intros buf Hc Hne; cbn [concat] in Hc.
  { rewrite app_nil_r in Hc. done. }
  cbn [await_server_hello]. rewrite app_assoc in Hc.
  destruct (concat chunks) as [|x r] eqn:Er.
  - rewrite app_nil_r in Hc. rewrite <- (app_nil_r (buf ++ chunk)), Hc.
    by rewrite (decode_from_buffer_frame (C := aes_frame_cipher c) enc 0 data w [] Hw).
  - rewrite (decode_from_buffer_prefix (C := aes_frame_cipher c) enc 0 data w (buf ++ chunk) (x :: r) Hw) by done.
    apply IH; [done|]. intros Hn. apply (f_equal zlen) in Hc. rewrite Hn, zlen_app in Hc.
    rewrite zlen_cons in Hc. pose proof (zlen_nonneg r). lia.
Qed.

Lemma uuid_utf8 u : zlen u = 16 -> utf8_valid (uuid_hyphenated u) = true.
Proof.
  intros Hu. rewrite <- (app_nil_r (uuid_hyphenated u)), utf8_valid_ascii; [done|].
  apply Forall_forall. intros b Hb. apply uuid_chars in Hb. unfold is_digit, in_range in *.
  destruct Hb as [?|[?| ->]]; [lia|lia|done].
Qed.

Lemma b64_cookie_text d : cookie_text (b64_encode d).
Proof.
  unfold cookie_text. eapply Forall_impl; [apply b64_text|]. intros b Hb. destruct b; vm_compute in Hb |- *; intuition congruence.
Qed.

Lemma b64_no_colon d : Byte.x3a ∉ b64_encode d.
Proof.
  intros Hin. pose proof (b64_text d) as Ht. rewrite Forall_forall in Ht. specialize (Ht _ Hin).
  vm_compute in Ht. intuition congruence.
Qed.

Lemma uuid_no_colon u : Byte.x3a ∉ uuid_hyphenated u.
Proof. intros Hin. apply uuid_chars in Hin. vm_compute in Hin. intuition congruence. Qed.

Lemma encrypt_decrypt key nonce data :
  zlen key = 32 -> zlen nonce = NONCE_LEN -> zlen data <= seal_limit ->
  exists ct, encrypt_bytes nonce key data = Ok ct /\ decrypt_bytes key ct = Ok data.
Proof.
  intros Hk Hn Hd. destruct (encrypt_decrypt_ok key nonce data Hk Hn Hd) as (ct & ? & ? & _). by exists ct.
Qed.

Lemma read_eph_pk_a_cookie draw headers pk :
  zlen pk = 32 ->
  header_get (str "Cookie") headers = Some (build_cookie_into draw [] (str "eph_pk_a") (b64_encode pk)) ->
  read_eph_pk_a headers = Ok pk.
Proof.
  intros Hpk Hh. unfold read_eph_pk_a.
  destruct (cookie_lookup draw [] (str "eph_pk_a") (b64_encode pk) (str "stream") headers) as [-> _];
    try (apply (bool_decide_eq_true_1 _); reflexivity); try done.
  { apply b64_cookie_text. }
  cbn [ok_or res_bind]. rewrite b64_round. cbn [ok_or res_bind]. by rewrite Hpk.
Qed.

(** The limits leave room for both hellos. *)
Lemma hello_fits enc n : n <= 1220 -> n <= frame_raw_limit enc.
Proof. intros. destruct enc; unfold frame_raw_limit, JSON_PAYLOAD_CAP, MAX_RAW_PAYLOAD, HEADER_LEN, NONCE_LEN, TAG_LEN; lia. Qed.

(** The client's half: its cipher, and a ClientHello frame under it. *)
Lemma make_client_hello_ok traffic server_pk cd :
  zlen (cd_nonce cd) = NONCE_LEN -> draw_ok (cd_draw cd) -> range_ok (padding_range (global traffic)) ->
  exists c sk pk hello,
    AesFrameCipher_new (derive_handshake_key (x25519 (cd_eph_a cd) server_pk)) = Ok c /\
    mlkem_generate (cd_kem cd) = Some (sk, pk) /\
    make_client_hello traffic server_pk cd =
      Ok (build_cookie_into (cd_draw cd) [] (str "eph_pk_a") (b64_encode (x25519_public (cd_eph_a cd))),
          hello, mkSecrets c sk (cd_eph_b cd)) /\
    is_frame (C := aes_frame_cipher c) (encoding_type traffic) 0
      (client_hello_of pk (x25519_public (cd_eph_b cd))) hello.
Proof.
  intros Hn Hd Hr. unfold make_client_hello, diffie_hellman, generate_keypair.
  destruct (AesFrameCipher_new_ok (derive_handshake_key (x25519 (cd_eph_a cd) server_pk))) as [c Hc];
    [apply derive_handshake_key_len|].
  destruct (mlkem_total (cd_kem cd)) as (sk & pk & Hkem). destruct (mlkem_pk _ _ _ Hkem) as [Hpk _].
  assert (Hlen : zlen (client_hello_of pk (x25519_public (cd_eph_b cd))) = 1220).
  { unfold client_hello_of. rewrite !zlen_app, !zlen_be_bytes, Hpk, x25519_public_len. done. }
  destruct (encode_frame_is_frame (C := aes_frame_cipher c) (cd_nonce cd) (cd_draw cd)
    (client_hello_of pk (x25519_public (cd_eph_b cd))) 0 (padding_threshold (global traffic))
    (padding_range (global traffic)) (encoding_type traffic)) as (w & Hw & Hf); try done.
  { apply hello_fits. lia. }
  exists c, sk, pk, w. split; [done|]. split; [done|]. split; [|done].
  rewrite Hc. cbn [res_bind]. unfold generate_mlkem_keypair. rewrite Hkem. cbn [ok_or res_bind].
  rewrite Hw. done.
Qed.

(** The client's second half undoes the server's ServerHello. *)
Lemma finish_handshake_ok traffic c sk ct ss eph_b srv_eph sid w chunks :
  mlkem_decaps sk ct = Some ss -> zlen ct = 1088 -> zlen sid = 16 ->
  is_frame (C := aes_frame_cipher c) (encoding_type traffic) 0
    (be_bytes 2 (as_u16 (zlen (uuid_hyphenated sid))) ++ uuid_hyphenated sid ++ ct ++ x25519_public srv_eph) w ->
  concat chunks = w ->
  finish_handshake traffic (mkSecrets c sk eph_b) chunks =
    Ok (mkTicket (derive_initial_master ss (x25519 srv_eph (x25519_public eph_b))) (uuid_hyphenated sid)).
Proof.
  intros Hdec Hct Hsid Hf Hch. unfold finish_handshake. cbn [cs_cipher cs_kem_sk cs_eph_sk_b].
  erewrite await_server_hello_frame; [|exact Hf|exact Hch|].
  2:{ intros <-. apply is_frame_len in Hf. change (0 < 0 <= max_encoded_frame_len (encoding_type traffic)) in Hf. lia. }
  cbn [res_bind]. rewrite parse_server_hello_of by (by rewrite ?uuid_len, ?uuid_utf8, ?x25519_public_len).
  cbn [res_bind]. unfold mlkem_decapsulate. rewrite Hdec. cbn [ok_or res_bind].
  unfold diffie_hellman. by rewrite x25519_agree.
Qed.

(** The server's half, on the request the client made. *)
Lemma handle_fresh_handshake_ok `{K : TtlCache} cfg token_key headers user unix_now now sd st cc cc' draw eph_a c
    sk pk seed eph_b hello :
  zlen (sd_nonce sd) = NONCE_LEN -> draw_ok (sd_draw sd) -> range_ok (padding_range (global (srv_traffic cfg))) ->
  zlen (sd_session sd) = 16 ->
  AesFrameCipher_new (derive_handshake_key (x25519 eph_a (x25519_public (srv_private_key cfg)))) = Ok c ->
  mlkem_generate seed = Some (sk, pk) ->
  is_frame (C := aes_frame_cipher c) (encoding_type (srv_traffic cfg)) 0
    (client_hello_of pk (x25519_public eph_b)) hello ->
  header_get (str "Cookie") headers =
    Some (build_cookie_into draw [] (str "eph_pk_a") (b64_encode (x25519_public eph_a))) ->
  validate_token_if_needed headers token_key unix_now cc = (Ok user, cc') ->
  exists ct ss w,
    mlkem_encaps pk (sd_kem sd) = Some (ct, ss) /\ zlen ct = 1088 /\ mlkem_decaps sk ct = Some ss /\
    is_frame (C := aes_frame_cipher c) (encoding_type (srv_traffic cfg)) 0
      (be_bytes 2 (as_u16 (zlen (uuid_hyphenated (sd_session sd)))) ++ uuid_hyphenated (sd_session sd)
         ++ ct ++ x25519_public (sd_x25519 sd)) w /\
    handle_fresh_handshake cfg token_key headers (BodyBytes hello) unix_now now sd st cc =
      (Ok (respond (sd_draw sd) 200 w),
       mkState (<[uuid_hyphenated (sd_session sd) :=
                  (user, derive_initial_master ss (x25519 (sd_x25519 sd) (x25519_public eph_b)), now)]>
                  (master_store st)) (stream_registry st) (actors st) (tunnel_permits st), cc').
Proof.
  intros Hn Hd Hr Hsid Hc Hkem Hhello Hcookie Hvalid.
  destruct (mlkem_pk _ _ _ Hkem) as [Hpk Himp].
  destruct (mlkem_agree _ _ _ (sd_kem sd) Hkem) as (ct & ss & Henc & Hct & Hdec).
  set (sid := uuid_hyphenated (sd_session sd)).
  set (data := be_bytes 2 (as_u16 (zlen sid)) ++ sid ++ ct ++ x25519_public (sd_x25519 sd)).
  assert (Hlen : zlen data = 1158).
  { unfold data. rewrite !zlen_app, !zlen_be_bytes, Hct, x25519_public_len. unfold sid. by rewrite uuid_len. }
  destruct (encode_frame_is_frame (C := aes_frame_cipher c) (sd_nonce sd) (sd_draw sd) data 0
    (padding_threshold (global (srv_traffic cfg))) (padding_range (global (srv_traffic cfg)))
    (encoding_type (srv_traffic cfg))) as (w & Hw & Hf); try done.
  { apply hello_fits. lia. }
  exists ct, ss, w. do 4 (split; [done|]).
  unfold handle_fresh_handshake. rewrite Hvalid. cbn [res_bind].
  rewrite (read_eph_pk_a_cookie draw headers (x25519_public eph_a)) by (done || apply x25519_public_len).
  cbn [res_bind]. unfold diffie_hellman, as_server. rewrite x25519_agree, Hc. cbn [map_err res_bind].
  rewrite <- (app_nil_r hello), (decode_from_buffer_frame (C := aes_frame_cipher c) _ _ _ _ [] Hhello).
  cbn [fst map_err ok_or res_bind]. rewrite parse_client_hello_of by (done || apply x25519_public_len).
  cbn [res_bind]. unfold mlkem_encapsulate. rewrite Henc. cbn [ok_or map_err res_bind generate_keypair].
  fold sid. fold data. rewrite Hw. done.
Qed.
End exchange.

Section tunnel_cookie.
Context `{P : Aead} {L : AeadLaws P} `{B64 : Base64} {BL : Base64Laws B64} `{U : UuidText}.
Context `{X : PqCrypto} {XL : PqCryptoLaws X} `{B122 : Base122}.

Lemma dec_text_no_colon n : 0 <= n -> Byte.x3a ∉ dec_text n.
Proof. intros Hn Hin. by apply (dec_digits_digit 20 n Hn) in Hin. Qed.

Lemma session_cookie_ok ticket target stream_id n1 n2 :
  zlen n1 = NONCE_LEN -> zlen n2 = NONCE_LEN -> zlen target <= seal_limit -> zlen stream_id = 16 ->
  exists et es, session_cookie ticket target stream_id n1 n2 =
      Ok (ticket_session ticket ++ [Byte.x3a] ++ b64_encode et ++ [Byte.x3a] ++ b64_encode es) /\
    decrypt_bytes (snd (derive_connection_keys (ticket_master ticket) stream_id)) et = Ok target /\
    decrypt_bytes (derive_cookie_stream_key (ticket_master ticket)) es = Ok stream_id.
Proof.
  intros Hn1 Hn2 Ht Hs. unfold session_cookie.
  pose proof (derive_connection_keys_len (ticket_master ticket) stream_id) as Hk.
  destruct (derive_connection_keys _ _) as [[uk dk] tk]. destruct Hk as (_ & _ & Htk). cbn [snd].
  destruct (encrypt_decrypt_ok tk n1 target Htk Hn1 Ht) as (et & -> & Het & _).
  destruct (encrypt_decrypt_ok (derive_cookie_stream_key (ticket_master ticket)) n2 stream_id) as (es & He & Hes & _);
    [apply derive_cookie_stream_key_len|done|unfold seal_limit; lia|].
  cbn [res_bind]. rewrite He. exists et, es. done.
Qed.

Lemma split_session_cookie_of sid a b :
  Byte.x3a ∉ sid -> split_session_cookie (sid ++ [Byte.x3a] ++ b64_encode a ++ [Byte.x3a] ++ b64_encode b)
    = Some (sid, b64_encode a, b64_encode b).
Proof.
  intros Hs. unfold split_session_cookie. cbn [app]. rewrite split_once_app by done. cbn.
  rewrite split_once_app by apply b64_no_colon. done.
Qed.

Lemma admit_cookie now1 now2 st sid user master created u stream_id et es :
  Byte.x3a ∉ sid -> uuid_parse sid = Some u -> zlen stream_id = 16 ->
  master_store st !! sid = Some (user, master, created) -> master_expired now1 created = false ->
  stream_registry st !! stream_id = None ->
  decrypt_bytes (derive_cookie_stream_key master) es = Ok stream_id ->
  admit_stream now1 now2 (sid ++ [Byte.x3a] ++ b64_encode et ++ [Byte.x3a] ++ b64_encode es) st =
    (Ok (master, stream_id, b64_encode et),
     set_registry st (<[stream_id := (SActive, now2)]> (stream_registry st))).
Proof.
  intros Hsid Hu Hlen Hst Hexp Hfresh Hes. unfold admit_stream.
  rewrite split_session_cookie_of, Hu by done. unfold lookup_master. rewrite Hst, Hexp.
  unfold decrypt_stream_id, or_428. rewrite b64_round. cbn [ok_or res_bind]. rewrite Hes.
  cbn [map_err res_bind]. rewrite Hlen. cbn [Z.eqb Pos.eqb]. by rewrite register_fresh.
Qed.

Lemma decrypt_target_of tk et host port :
  decrypt_bytes tk et = Ok (host ++ [Byte.x3a] ++ dec_text port) ->
  utf8_valid (host ++ [Byte.x3a] ++ dec_text port) = true -> 0 <= port < u16_max ->
  decrypt_target tk (b64_encode et) = Ok (host, port).
Proof.
  intros Ht Hu Hp. unfold decrypt_target, or_428. rewrite b64_round. cbn [ok_or res_bind]. rewrite Ht.
  cbn [map_err res_bind]. rewrite Hu. cbn [negb app].
  rewrite rsplit_once_app by (apply dec_text_no_colon; lia). cbn [ok_or res_bind].
  rewrite parse_u16_dec by done. done.
Qed.
End tunnel_cookie.

(** ** Properties *)

(** C8: a handshake between a client that knows the server's public key and
    a valid token agrees: the server accepts the client's request, and from
    its response, cut into any chunks, the client derives the same master key
    that the server stored, with the user and the time, under the session the
    client was told. *)
Theorem handshake_agreement `{P : Aead} (L : AeadLaws P) `{B64 : Base64} (BL : Base64Laws B64)
    `{U : UuidText} (UL : UuidLaws U) `{X : PqCrypto} (XL : PqCryptoLaws X)
    `{B122 : Base122} (B122L : Base122Laws B122) `{K : TtlCache}
    cfg token_key unix_now now cd sd st cc :
  zlen (cd_nonce cd) = NONCE_LEN -> draw_ok (cd_draw cd) ->
  zlen (sd_nonce sd) = NONCE_LEN -> draw_ok (sd_draw sd) -> zlen (sd_session sd) = 16 ->
  range_ok (padding_range (global (srv_traffic cfg))) ->
  exists cookie hello secrets,
    make_client_hello (srv_traffic cfg) (x25519_public (srv_private_key cfg)) cd = Ok (cookie, hello, secrets) /\
    forall headers user cc',
      header_get (str "Cookie") headers = Some cookie ->
      validate_token_if_needed headers token_key unix_now cc = (Ok user, cc') ->
      exists resp st',
        handle_fresh_handshake cfg token_key headers (BodyBytes hello) unix_now now sd st cc
          = (Ok resp, st', cc') /\
        forall chunks, concat chunks = resp_body resp ->
          exists ticket, finish_handshake (srv_traffic cfg) secrets chunks = Ok ticket /\
            master_store st' !! ticket_session ticket = Some (user, ticket_master ticket, now).
Proof.
  intros Hcn Hcd Hsn Hsd Hsid Hr.
  destruct (make_client_hello_ok (srv_traffic cfg) (x25519_public (srv_private_key cfg)) cd Hcn Hcd Hr)
    as (c & sk & pk & hello & Hc & Hkem & Hmake & Hf).
  eexists _, hello, _. split; [exact Hmake|]. intros headers user cc' Hh Hv.
  destruct (handle_fresh_handshake_ok cfg token_key headers user unix_now now sd st cc cc' (cd_draw cd)
    (cd_eph_a cd) c sk pk (cd_kem cd) (cd_eph_b cd) hello) as (ct & ss & w & Henc & Hct & Hdec & Hw & Hs); try done.
  eexists _, _. split; [exact Hs|]. intros chunks Hch.
  eexists. split.
  - apply (finish_handshake_ok _ c sk ct ss _ (sd_x25519 sd) (sd_session sd) w); try done.
  - cbn. apply lookup_insert_eq.
Qed.

(** The session cookie a client makes opens the tunnel it asked for: with
    a live session and an unused stream number, the server recovers the
    client's stream number, host and port, registers the stream, and sets the
    tunnel up under exactly the keys the client derived. *)
Theorem session_cookie_opens `{P : Aead} (L : AeadLaws P) `{B64 : Base64} (BL : Base64Laws B64)
    `{U : UuidText} `{X : PqCrypto} (XL : PqCryptoLaws X) `{B122 : Base122}
    ticket user created u stream_id host port n1 n2 now1 now2 cfg env st :
  master_store st !! ticket_session ticket = Some (user, ticket_master ticket, created) ->
  master_expired now1 created = false ->
  uuid_parse (ticket_session ticket) = Some u -> Byte.x3a ∉ ticket_session ticket ->
  zlen stream_id = 16 -> stream_registry st !! stream_id = None ->
  zlen n1 = NONCE_LEN -> zlen n2 = NONCE_LEN -> 0 <= port < u16_max ->
  let target := host ++ [Byte.x3a] ++ dec_text port in
  utf8_valid target = true -> zlen target <= seal_limit ->
  exists v, session_cookie ticket target stream_id n1 n2 = Ok v /\
    let '(ukey, dkey, _) := derive_connection_keys (ticket_master ticket) stream_id in
    let st1 := set_registry st (<[stream_id := (SActive, now2)]> (stream_registry st)) in
    spawn_encrypted_tunnel cfg env now1 now2 v st =
      match setup_tunnel_response cfg env (mkTunnelRequest stream_id ukey dkey host port) st1 with
      | (Ok response, sent, st2) => (Ok response, sent, st2)
      | (r, sent, st2) => (r, sent, drop_stream_guard stream_id st2)
      end.
Proof.
  intros Hst Hexp Hu Hcol Hlen Hfresh Hn1 Hn2 Hport target Hutf Hsize.
  destruct (session_cookie_ok ticket target stream_id n1 n2 Hn1 Hn2 Hsize Hlen) as (et & es & Hv & Het & Hes).
  eexists. split; [exact Hv|]. unfold spawn_encrypted_tunnel.
  rewrite (admit_cookie now1 now2 st _ user (ticket_master ticket) created u stream_id et es) by done.
  unfold open_stream.
  destruct (derive_connection_keys (ticket_master ticket) stream_id) as [[uk dk] tk]. cbn [snd] in Het.
  rewrite (decrypt_target_of tk et host port) by done.
  by destruct (setup_tunnel_response _ _ _ _) as [[[r|e|] sent] st2].
Qed.

(** ** Witnesses *)

Definition toy_server : ServerConfig := mkServerConfig (zrep 32 Byte.x21) toy_config.

Definition toy_client_draws : ClientDraws :=
  mkClientDraws (zrep 32 Byte.x31) (str "kem") (zrep 32 Byte.x32) toy_nonce (fun lo _ => lo).
Definition toy_server_draws : ServerDraws :=
  mkServerDraws (str "ss") (zrep 32 Byte.x33) (zrep 16 Byte.xab) toy_nonce (fun lo _ => lo).
Definition toy_empty : cache (TtlCache := toy_cache) := ∅ : gmap bytes (bytes * Z).
Definition toy_state : AppState := mkState ∅ ∅ ∅ 4.

Lemma low_draw_ok : draw_ok (fun lo _ => lo).
Proof. unfold draw_ok. lia. Qed.

Lemma handshake_agreement_witness :
  exists cookie hello secrets,
    make_client_hello toy_config (x25519_public (srv_private_key toy_server)) toy_client_draws
      = Ok (cookie, hello, secrets) /\
    forall headers user cc',
      header_get (str "Cookie") headers = Some cookie ->
      validate_token_if_needed (P := toy_aead) (K := toy_cache) headers toy_key 0 toy_empty = (Ok user, cc') ->
      exists resp st',
        handle_fresh_handshake (P := toy_aead) (K := toy_cache) toy_server toy_key headers (BodyBytes hello)
          0 10 toy_server_draws toy_state toy_empty = (Ok resp, st', cc') /\
        forall chunks, concat chunks = resp_body resp ->
          exists ticket, finish_handshake toy_config secrets chunks = Ok ticket /\
            master_store st' !! ticket_session ticket = Some (user, ticket_master ticket, 10).
Proof.
  apply (handshake_agreement toy_aead_laws toy_base64_laws toy_uuid_laws toy_crypto_laws toy_base122_laws
    toy_server toy_key 0 10 toy_client_draws toy_server_draws toy_state).
  - reflexivity.
  - apply low_draw_ok.
  - reflexivity.
  - apply low_draw_ok.
  - reflexivity.
  - vm_compute. split; congruence.
Defined.

Definition toy_ticket : PqSessionTicket := mkTicket (zrep 32 Byte.x44) (uuid_hyphenated (zrep 16 Byte.xab)).
Definition toy_live_state : AppState :=
  mkState {[ ticket_session toy_ticket := (str "alice", ticket_master toy_ticket, 100) ]} ∅ ∅ 4.

Lemma session_cookie_opens_witness :
  exists v, session_cookie (P := toy_aead) toy_ticket (str "example.org:443") (zrep 16 Byte.x55) toy_nonce toy_nonce = Ok v /\
    let '(ukey, dkey, _) := derive_connection_keys (ticket_master toy_ticket) (zrep 16 Byte.x55) in
    spawn_encrypted_tunnel (P := toy_aead) toy_server
      (mkSetupEnv (fun _ _ => ConnectTimeout) [] 0 (fun _ => true) toy_draw) 1300 1300 v toy_live_state =
      (Err (gateway_timeout "connect timeout"), [],
       drop_stream_guard (zrep 16 Byte.x55)
         (set_registry toy_live_state (<[zrep 16 Byte.x55 := (SActive, 1300)]> ∅))).
Proof.
  apply (session_cookie_opens toy_aead_laws toy_base64_laws toy_crypto_laws toy_ticket (str "alice") 100
    (zrep 16 Byte.xab) (zrep 16 Byte.x55) (str "example.org") 443 toy_nonce toy_nonce 1300 1300 toy_server
    (mkSetupEnv (fun _ _ => ConnectTimeout) [] 0 (fun _ => true) toy_draw) toy_live_state);
    try (vm_compute; intuition congruence); try reflexivity.
  apply (bool_decide_eq_true_1 _). reflexivity.
Defined.
