(* ===== verification/Replay.v ===== *)
(** * Tunnels over time

    The handlers of [Handlers] and [Handshake] and the janitors of [Registry]
    ([src/server/handlers.rs], [src/server/janitor.rs]) as a step relation over
    one server: every interleaving of admissions, set-ups, cancelled requests,
    ends of tunnels and ticks. A request's admission, from the lookup of its
    session to the registration of its stream, is one step; after it, each
    point where the handler or the tunnel's task can be suspended or overtaken
    starts a new step: the permit is taken before the target is dialled and
    held over the dial and the request body, and the end of a tunnel is four
    steps. *)

From S2P Require Import Prelude Cipher Frame Shaper Decoder Text Cookie Errors Token Registry Crypto Upload Handlers Handshake.

(** How far a request that was admitted, or its tunnel, has come: registered;
    dialling its target, with a permit; forwarding the request body; on its way
    out, the permit returned and the stream's guard not yet dropped; running;
    cleaning up; its actor dropped; its handle removed, with the permit still
    to return. *)
Inductive Phase : Type :=
| Registered (master enc_target : bytes)
| Connecting (tr : TunnelRequest)
| Forwarding (tr : TunnelRequest)
| Unwinding
| Running
| Closing
| ActorDropped
| Unlisted.

(** The server, its clock, the time each session identifier was issued, and
    the admitted requests and tunnels, each with its stream, numbered. *)
Record World : Type := mkWorld {
  clock : Z;
  app : AppState;
  issued : gmap bytes Z;
  tasks : gmap nat (bytes * Phase)
}.

Inductive Label : Type := LAdmit (session_id stream_id : bytes) | LOther.

(** The session and stream of each admission of a run. *)
Definition admissions (ls : list Label) : list (bytes * bytes) :=
  omap (fun l => match l with LAdmit s t => Some (s, t) | LOther => None end) ls.

Definition with_app (w : World) (now : Z) (st : AppState) : World := mkWorld now st (issued w) (tasks w).

(** Task [n], of the stream [id], moves on to a phase or is over. *)
Definition set_task (n : nat) (id : bytes) (next : option Phase) (ts : gmap nat (bytes * Phase))
    : gmap nat (bytes * Phase) :=
  match next with Some ph => <[n := (id, ph)]> ts | None => delete n ts end.

(** The phases whose task owns a permit, those of a set-up or a tunnel in
    operation, and those whose handle is in the actor map. *)
Definition holds_permit (ph : Phase) : bool :=
  match ph with Registered _ _ | Unwinding => false | _ => true end.

Definition in_operation (ph : Phase) : bool :=
  match ph with Closing | ActorDropped | Unlisted => false | _ => true end.

Definition is_listed (ph : Phase) : bool :=
  match ph with Running | Closing | ActorDropped => true | _ => false end.

(** The actor that receives a running tunnel's commands still exists. *)
Definition receiving (ph : Phase) : bool := match ph with Running | Closing => true | _ => false end.

Section replay.
Context `{P : Aead} `{B64 : Base64} `{U : UuidText} `{X : PqCrypto} `{B122 : Base122} `{K : TtlCache}.
Variables (cfg : ServerConfig) (token_key : LessSafeKey).

(** The keys and the target of an admitted request. *)
Definition tunnel_request (master stream_id enc_target : bytes) : Res ServerError TunnelRequest :=
  let '(ukey, dkey, tkey) := derive_connection_keys master stream_id in
  let? (host, port) := decrypt_target tkey enc_target in
  Ok (mkTunnelRequest stream_id ukey dkey host port).

(** One move of the task of the stream [id]. The target's outcome and the body
    are those of any environment; a request can be cancelled where its handler
    waits; of a failed or cancelled set-up the permit is dropped first and the
    stream's guard, which the caller holds, after it. *)
Inductive task_move (st : AppState) (id : bytes) : Phase -> option Phase -> AppState -> Prop :=
| tm_bad_target master enc_target :
    is_ok (tunnel_request master id enc_target) = false ->
    task_move st id (Registered master enc_target) (Some Unwinding) st
| tm_no_permit master enc_target :
    take_permit st = None ->
    task_move st id (Registered master enc_target) (Some Unwinding) st
| tm_take_permit master enc_target tr st' :
    tunnel_request master id enc_target = Ok tr -> take_permit st = Some st' ->
    task_move st id (Registered master enc_target) (Some (Connecting tr)) st'
| tm_connected env tr :
    connect_tunnel env tr = Ok tt ->
    task_move st id (Connecting tr) (Some (Forwarding tr)) st
| tm_not_connected env tr :
    is_ok (connect_tunnel env tr) = false ->
    task_move st id (Connecting tr) (Some Unwinding) (return_permit st)
| tm_spawned env tr cmds sent :
    forward_early cfg env tr = (Ok cmds, sent) ->
    task_move st id (Forwarding tr) (Some Running) (insert_handle cfg tr st)
| tm_not_forwarded env tr r sent :
    forward_early cfg env tr = (r, sent) -> is_ok r = false ->
    task_move st id (Forwarding tr) (Some Unwinding) (return_permit st)
| tm_cancelled ph tr :
    ph = Connecting tr \/ ph = Forwarding tr ->
    task_move st id ph (Some Unwinding) (return_permit st)
| tm_unwound : task_move st id Unwinding None (drop_stream_guard id st)
| tm_cleanup : task_move st id Running (Some Closing) (consume_stream id st)
| tm_actor_dropped : task_move st id Closing (Some ActorDropped) (consume_stream id st)
| tm_unlisted : task_move st id ActorDropped (Some Unlisted) (drop_actor_guard id st)
| tm_released : task_move st id Unlisted None (return_permit st).

Inductive step : World -> Label -> World -> Prop :=
| step_time w now :
    clock w <= now -> step w LOther (with_app w now (app w))
| step_handshake w headers body unix_now now draws c r st c' :
    clock w <= now ->
    issued w !! uuid_hyphenated (sd_session draws) = None ->
    handle_fresh_handshake cfg token_key headers body unix_now now draws (app w) c = (r, st, c') ->
    step w LOther (mkWorld now st (<[uuid_hyphenated (sd_session draws) := now]> (issued w)) (tasks w))
| step_admit w n now1 now2 v session_id t s master stream_id enc_target st :
    clock w <= now1 -> now1 <= now2 ->
    split_session_cookie v = Some (session_id, t, s) ->
    admit_stream now1 now2 v (app w) = (Ok (master, stream_id, enc_target), st) ->
    tasks w !! n = None ->
    step w (LAdmit session_id stream_id)
      (mkWorld now2 st (issued w) (set_task n stream_id (Some (Registered master enc_target)) (tasks w)))
| step_refuse w now1 now2 v r st :
    clock w <= now1 -> now1 <= now2 ->
    admit_stream now1 now2 v (app w) = (r, st) -> is_ok r = false ->
    step w LOther (with_app w now2 st)
| step_task w n id ph next st :
    tasks w !! n = Some (id, ph) -> task_move (app w) id ph next st ->
    step w LOther (mkWorld (clock w) st (issued w) (set_task n id next (tasks w)))
| step_janitor w store streams :
    janitor_tick (clock w) (master_store (app w)) (stream_registry (app w)) = (store, streams) ->
    step w LOther (with_app w (clock w) (mkState store streams (actors (app w)) (tunnel_permits (app w))))
| step_prune w is_closed :
    (forall n id ph h, tasks w !! n = Some (id, ph) -> receiving ph = true -> actors (app w) !! id = Some h ->
      is_closed h = false) ->
    step w LOther (with_app w (clock w) (mkState (master_store (app w)) (stream_registry (app w))
      (snd (prune_dead_actors is_closed (actors (app w)))) (tunnel_permits (app w)))).

Inductive run : World -> list Label -> World -> Prop :=
| run_nil w : run w [] w
| run_snoc w ls w1 l w2 : run w ls w1 -> step w1 l w2 -> run w (ls ++ [l]) w2.

(** ** What one operation does to the state *)

Lemma lookup_master_ok now sid st user master st' :
  lookup_master now sid st = (Ok (user, master), st') ->
  st' = st /\ exists created, master_store st !! sid = Some (user, master, created) /\
    master_expired now created = false.
Proof.
  unfold lookup_master. destruct (master_store st !! sid) as [[[u m] created]|] eqn:E; [|done].
  destruct (master_expired now created) eqn:X'; [done|]. intros [= <- <- <-]. eauto.
Qed.

(** Only the session store can lose an entry. *)
Definition forgets (st st' : AppState) : Prop :=
  exists store, store ⊆ master_store st /\
    st' = mkState store (stream_registry st) (actors st) (tunnel_permits st).

Lemma forgets_refl st : forgets st st.
Proof. exists (master_store st). by destruct st. Qed.
Hint Resolve forgets_refl : core.

Lemma lookup_master_forgets now sid st r st' : lookup_master now sid st = (r, st') -> forgets st st'.
Proof.
  unfold lookup_master. repeat case_match; intros [= <- <-]; auto.
  eexists. split; [apply delete_subseteq|done].
Qed.

Lemma admit_stream_ok now1 now2 v st master id enc st' :
  admit_stream now1 now2 v st = (Ok (master, id, enc), st') ->
  exists sid s user created, split_session_cookie v = Some (sid, enc, s) /\
    master_store st !! sid = Some (user, master, created) /\ master_expired now1 created = false /\
    stream_registry st !! id = None /\
    st' = set_registry st (<[id := (SActive, now2)]> (stream_registry st)).
Proof.
  unfold admit_stream. destruct (split_session_cookie v) as [[[sid t] s]|] eqn:Hv; [|done].
  destruct (uuid_parse sid); [|done].
  destruct (lookup_master now1 sid st) as [[[user m]| |] st1] eqn:Hl; try done.
  apply lookup_master_ok in Hl as (-> & created & Hst & Hexp).
  destruct (decrypt_stream_id m s) as [i| |]; try done.
  destruct (register i now2 (stream_registry st)) as [fresh reg] eqn:Hr.
  destruct fresh; [|done]. intros [= <- <- <- <-].
  unfold register in Hr. destruct (stream_registry st !! i) eqn:Hi; [done|]. injection Hr as <-.
  by exists sid, s, user, created.
Qed.

Lemma admit_stream_refused now1 now2 v st r st' :
  admit_stream now1 now2 v st = (r, st') -> is_ok r = false -> forgets st st'.
Proof.
  unfold admit_stream. intros H Hr. destruct (split_session_cookie v) as [[[sid t] s]|]; [|by injection H as <- <-].
  destruct (uuid_parse sid); [|by injection H as <- <-].
  destruct (lookup_master now1 sid st) as [[[user m]| |] st1] eqn:Hl;
    apply lookup_master_forgets in Hl; [|by injection H as <- <-|by injection H as <- <-].
  destruct (decrypt_stream_id m s) as [i| |]; [|by injection H as <- <-|by injection H as <- <-].
  destruct (register i now2 (stream_registry st1)) as [[] reg]; by injection H as <- <-.
Qed.

Lemma take_permit_ok st st1 :
  take_permit st = Some st1 -> 0 < tunnel_permits st /\ st1 = set_permits st (tunnel_permits st - 1).
Proof. unfold take_permit. destruct (Z.leb_spec (tunnel_permits st) 0); [done|]. by intros [= <-]. Qed.

Lemma return_taken st st1 : take_permit st = Some st1 -> return_permit st1 = st.
Proof.
  intros [_ ->]%take_permit_ok. destruct st. unfold return_permit, set_permits. cbn. f_equal. lia.
Qed.

Lemma setup_tunnel_ok env tr st r sent st' :
  setup_tunnel_response cfg env tr st = (r, sent, st') ->
  if is_ok r then exists st1, take_permit st = Some st1 /\ st' = insert_handle cfg tr st1 else st' = st.
Proof.
  unfold setup_tunnel_response. destruct (take_permit st) as [st1|] eqn:Ht; [|by intros [= <- <- <-]].
  pose proof (return_taken _ _ Ht) as Hr.
  destruct (connect_tunnel env tr); [|by intros [= <- <- <-]..].
  destruct (forward_early cfg env tr) as [[] ?]; intros [= <- <- <-]; [|done..]. by exists st1.
Qed.

Lemma open_stream_ok env master id enc st r sent st' :
  open_stream cfg env master id enc st = (r, sent, st') ->
  if is_ok r then exists tr st1, tr_stream_id tr = id /\ take_permit st = Some st1 /\ st' = insert_handle cfg tr st1
  else st' = drop_stream_guard id st.
Proof.
  unfold open_stream. destruct (derive_connection_keys master id) as [[uk dk] tk].
  destruct (decrypt_target tk enc) as [[host port]| |]; [|by intros [= <- <- <-]..].
  destruct (setup_tunnel_response _ _ _ _) as [[r1 sent1] st1] eqn:Hs. apply setup_tunnel_ok in Hs.
  destruct r1; cbn [is_ok] in Hs; [|subst st1; by intros [= <- <- <-]..].
  destruct Hs as (st2 & Ht & ->). intros [= <- <- <-].
  by exists (mkTunnelRequest id uk dk host port), st2.
Qed.

Lemma handshake_state headers body unix_now now draws st c r st' c' :
  handle_fresh_handshake cfg token_key headers body unix_now now draws st c = (r, st', c') ->
  st' = st \/ exists user master, st' = mkState
    (<[uuid_hyphenated (sd_session draws) := (user, master, now)]> (master_store st))
    (stream_registry st) (actors st) (tunnel_permits st).
Proof.
  unfold handle_fresh_handshake. destruct (validate_token_if_needed _ _ _ _) as [[user| |] c1]; cbn [res_bind];
    [|intros [= <- <- <-]; by left..].
  destruct (read_eph_pk_a _); cbn [res_bind]; [|intros [= <- <- <-]; by left..].
  destruct (as_server _ _) as [cc| |]; cbn [res_bind]; [|intros [= <- <- <-]; by left..].
  destruct (match body with BodyBytes b => Ok b | BodyTooBig m => _ | BodyTimeout => _ end) as [b| |];
    cbn [res_bind]; [|intros [= <- <- <-]; by left..].
  destruct (map_err _ (fst _)) as [f| |]; cbn [res_bind]; [|intros [= <- <- <-]; by left..].
  destruct (ok_or f _) as [[q data]| |]; cbn [res_bind]; [|intros [= <- <- <-]; by left..].
  destruct (parse_client_hello _) as [[pk eph]| |]; cbn [res_bind]; [|intros [= <- <- <-]; by left..].
  destruct (map_err _ (mlkem_encapsulate _ _)) as [[ct ss]| |]; cbn [res_bind]; [|intros [= <- <- <-]; by left..].
  destruct (generate_keypair _) as [esk epk]. intros [= <- <- <-]. right. by eexists _, _.
Qed.

(** ** No replay *)

(** Every live session was issued when its key says, and an opened stream is
    remembered for as long as its session could open it again. *)
Definition born (now : Z) (store : MasterStore) (iss : gmap bytes Z) : Prop :=
  forall sid user master c, store !! sid = Some (user, master, c) -> iss !! sid = Some c /\ 0 <= c <= now.

Definition remembered (now : Z) (iss : gmap bytes Z) (streams : StreamRegistry) (o : bytes * bytes) : Prop :=
  exists c, iss !! fst o = Some c /\ 0 <= c /\
    ((exists s ts, streams !! snd o = Some (s, ts) /\ c <= ts) \/ c + MASTER_EXPIRY < now).

Definition replay_inv (w : World) (ls : list Label) : Prop :=
  0 <= clock w /\ born (clock w) (master_store (app w)) (issued w) /\
  Forall (remembered (clock w) (issued w) (stream_registry (app w))) (admissions ls) /\
  NoDup (admissions ls).

(** A later registry forgets only streams old enough. *)
Definition recalls (now : Z) (streams streams' : StreamRegistry) : Prop :=
  forall k s ts, 0 <= ts -> streams !! k = Some (s, ts) ->
    (exists s', streams' !! k = Some (s', ts)) \/ ts + MASTER_EXPIRY < now.

Lemma recalls_refl now streams : recalls now streams streams.
Proof. intros k s ts _ H. left. eauto. Qed.
Hint Resolve recalls_refl : core.

Lemma recalls_mark now id streams : recalls now streams (mark_consumed id streams).
Proof.
  intros k s ts _ H. left. pose proof (mark_consumed_lookup id streams k) as E. rewrite H in E.
  destruct (mark_consumed id streams !! k) as [[s' ts']|]; [|done]. injection E as ->. eauto.
Qed.
Hint Resolve recalls_mark : core.

Lemma recalls_register now id e streams :
  streams !! id = None -> recalls now streams (<[id := e]> streams).
Proof. intros Hid k s ts _ H. left. exists s. rewrite lookup_insert_ne; [done|]. intros <-. congruence. Qed.

Lemma recalls_janitor now streams :
  recalls now streams (snd (remove_consumed_before (saturating_sub now MASTER_EXPIRY) streams)).
Proof.
  intros k s ts Hts H. rewrite remove_consumed_lookup, H.
  change (mbind ?f (Some (s, ts))) with (f (s, ts)). cbv beta. unfold keep_stream. cbn [fst snd].
  destruct (bool_decide (s = SActive)); cbn [orb]; [left; eauto|].
  destruct (Z.leb_spec (saturating_sub now MASTER_EXPIRY) ts); [left; eauto|right].
  unfold saturating_sub in *. lia.
Qed.

Lemma remembered_mono now now' iss iss' streams streams' o :
  now <= now' -> iss ⊆ iss' -> recalls now' streams streams' ->
  remembered now iss streams o -> remembered now' iss' streams' o.
Proof.
  intros Hn Hi Hr (c & Hc & H0 & H). exists c. split; [by eapply lookup_weaken|]. split; [done|].
  destruct H as [(s & ts & Hs & Hle)|]; [|right; lia].
  destruct (Hr (snd o) s ts) as [[s' Hs']|]; [lia|done|left; eauto|right; lia].
Qed.

Lemma born_mono now now' store store' iss :
  now <= now' -> store' ⊆ store -> born now store iss -> born now' store' iss.
Proof.
  intros Hn Hs H sid user master c Hc. eapply lookup_weaken in Hc; [|exact Hs].
  apply H in Hc as [? ?]. split; [done|lia].
Qed.

(** Any step that admits nothing, forgets no stream too early and makes no
    key keeps the invariant. *)
Lemma replay_quiet w ls now store streams act permits tsk :
  replay_inv w ls -> clock w <= now -> store ⊆ master_store (app w) ->
  recalls now (stream_registry (app w)) streams ->
  replay_inv (mkWorld now (mkState store streams act permits) (issued w) tsk) (ls ++ [LOther]).
Proof.
  intros (H0 & Hb & Hl & Hd) Hn Hs Hr.
  assert (E : admissions (ls ++ [LOther]) = admissions ls) by (unfold admissions; by rewrite omap_app, app_nil_r).
  unfold replay_inv. rewrite E. cbn [clock app issued master_store stream_registry].
  split; [lia|]. split; [by eapply born_mono|]. split; [|done].
  eapply Forall_impl; [exact Hl|]. intros o. by apply remembered_mono.
Qed.

Lemma replay_admit w ls now1 now2 sid t s v user master created id tsk :
  replay_inv w ls -> clock w <= now1 <= now2 ->
  split_session_cookie v = Some (sid, t, s) ->
  master_store (app w) !! sid = Some (user, master, created) -> master_expired now1 created = false ->
  stream_registry (app w) !! id = None ->
  replay_inv (mkWorld now2 (set_registry (app w) (<[id := (SActive, now2)]> (stream_registry (app w))))
    (issued w) tsk) (ls ++ [LAdmit sid id]).
Proof.
  intros (H0 & Hb & Hl & Hd) Hn Hv Hst Hexp Hid.
  assert (E : admissions (ls ++ [LAdmit sid id]) = admissions ls ++ [(sid, id)])
    by (unfold admissions; by rewrite omap_app).
  apply Hb in Hst as [Hiss Hc]. unfold master_expired, saturating_sub in Hexp.
  unfold replay_inv. rewrite E. cbn [clock app issued master_store stream_registry set_registry].
  split; [lia|]. split; [eapply born_mono; [|reflexivity|exact Hb]; lia|]. split.
  - apply Forall_app. split.
    + eapply Forall_impl; [exact Hl|]. intros o. apply remembered_mono; [lia|done|by apply recalls_register].
    + repeat constructor. exists created. split; [done|]. split; [lia|]. left. exists SActive, now2.
      cbn. rewrite lookup_insert_eq. split; [done|lia].
  - apply NoDup_app. split; [done|]. split; [|apply NoDup_singleton].
    intros o Ho. rewrite list_elem_of_singleton. intros ->. rewrite Forall_forall in Hl.
    destruct (Hl _ Ho) as (c & Hc' & _ & H). cbn in *. rewrite Hiss in Hc'. injection Hc' as <-.
    destruct H as [(st & ts & Hts & _)|]; [congruence|lia].
Qed.

(** A handshake stores the key of a new session. *)
Lemma replay_handshake w ls now sid user master store tsk :
  replay_inv w ls -> clock w <= now -> issued w !! sid = None ->
  store = master_store (app w) \/ store = <[sid := (user, master, now)]> (master_store (app w)) ->
  replay_inv (mkWorld now (mkState store (stream_registry (app w)) (actors (app w)) (tunnel_permits (app w)))
    (<[sid := now]> (issued w)) tsk) (ls ++ [LOther]).
Proof.
  intros (H0 & Hb & Hl & Hd) Hn Hfresh Hstore. unfold replay_inv, admissions in *.
  rewrite omap_app, app_nil_r. cbn. split; [lia|]. split; [|split; [|done]].
  - intros sid' u m c0 Hc. destruct (decide (sid' = sid)) as [->|Hne].
    + destruct Hstore as [->| ->]; [apply Hb in Hc as [Hc _]; congruence|].
      rewrite lookup_insert_eq in Hc. injection Hc as -> -> ->. rewrite lookup_insert_eq. split; [done|lia].
    + rewrite lookup_insert_ne by done.
      assert (Hc' : master_store (app w) !! sid' = Some (u, m, c0))
        by (destruct Hstore as [->| ->]; [|rewrite lookup_insert_ne in Hc by done]; done).
      apply Hb in Hc' as [? ?]. split; [done|lia].
  - eapply Forall_impl; [exact Hl|]. intros o. apply remembered_mono; auto. by apply insert_subseteq.
Qed.

(** A task touches the registry only to mark its stream. *)
Lemma task_move_state st id ph next st' :
  task_move st id ph next st' -> master_store st' = master_store st /\
    (stream_registry st' = stream_registry st \/ stream_registry st' = mark_consumed id (stream_registry st)).
Proof.
  intros Hm. destruct Hm as [| |? ? ? ? _ Ht| | | | | | | | | |]; cbn; auto.
  apply take_permit_ok in Ht as [_ ->]. cbn. auto.
Qed.

Lemma replay_step w ls l w' : replay_inv w ls -> step w l w' -> replay_inv w' (ls ++ [l]).
Proof.
  intros Hi Hs. destruct Hs as [w now Hn|w headers body un now draws c r st c' Hn Hfresh Hh
    |w n now1 now2 v sid t s master id enc st H1 H2 Hv Ha Hn|w now1 now2 v r st H1 H2 Ha Hr
    |w n id ph next st Hph Hm|w store streams Hj|w closed _].
  - unfold with_app. destruct (app w) eqn:E. apply replay_quiet; rewrite ?E; auto.
  - apply handshake_state in Hh as [->|(user & master & ->)].
    + apply (replay_handshake _ _ now (uuid_hyphenated (sd_session draws)) [] [] (master_store (app w)) (tasks w)) in Hi;
        [|done..|by left]. by destruct (app w).
    + eapply replay_handshake; [done..|by right].
  - apply admit_stream_ok in Ha as (sid' & s' & user & created & Hv' & Hst & Hexp & Hid & ->).
    rewrite Hv in Hv'. injection Hv' as <- <- <-. eapply replay_admit; eauto.
  - apply admit_stream_refused in Ha as (store & Hst & ->); [|done]. apply replay_quiet; auto. lia.
  - apply task_move_state in Hm as [Hms Hreg]. destruct st as [store streams act permits]. cbn in *. subst store.
    apply replay_quiet; auto; [lia|]. destruct Hreg as [->| ->]; auto.
  - unfold janitor_tick in Hj. cbn in Hj. injection Hj as <- <-.
    apply replay_quiet; auto; [lia|apply map_filter_subseteq|apply recalls_janitor].
  - by apply replay_quiet.
Qed.

Lemma replay_run w ls w' : replay_inv w [] -> run w ls w' -> replay_inv w' ls.
Proof. intros Hi Hr. induction Hr; [done|]. eapply replay_step; eauto. Qed.

(** ** The life of a stream *)

Definition active (streams : StreamRegistry) (id : bytes) : Prop := exists ts, streams !! id = Some (SActive, ts).

(** How many tasks own a permit. *)
Definition held (ts : gmap nat (bytes * Phase)) : Z :=
  Z.of_nat (size (filter (fun e => holds_permit (snd (snd e)) = true) ts)).

Definition owed (ph : option Phase) : Z :=
  match ph with Some ph => if holds_permit ph then 1 else 0 | None => 0 end.

(** Task [n] of the stream [id] is in a phase of the kind [p]. *)
Definition some_task (p : Phase -> bool) (ts : gmap nat (bytes * Phase)) (id : bytes) : Prop :=
  exists n ph, ts !! n = Some (id, ph) /\ p ph = true.

Definition phase_wf (id : bytes) (ph : Phase) : Prop :=
  match ph with Connecting tr | Forwarding tr => tr_stream_id tr = id | _ => True end.

(** When no stream identifier is used twice, each stream has one task, is
    active while that task is in operation, and has its handle while it runs. *)
Record owned (w : World) : Prop := {
  ow_unique : forall n m id ph ph', tasks w !! n = Some (id, ph) -> tasks w !! m = Some (id, ph') -> n = m;
  ow_active : forall id, active (stream_registry (app w)) id <-> some_task in_operation (tasks w) id;
  ow_listed : forall id, some_task receiving (tasks w) id -> is_Some (actors (app w) !! id)
}.

Record life_inv (max : Z) (w : World) (ls : list Label) : Prop := {
  li_wf : forall n id ph, tasks w !! n = Some (id, ph) -> phase_wf id ph /\ id ∈ (admissions ls).*2;
  li_permits : 0 <= tunnel_permits (app w) /\ tunnel_permits (app w) + held (tasks w) = max;
  li_handles : forall id, is_Some (actors (app w) !! id) -> some_task is_listed (tasks w) id;
  li_owned : NoDup (admissions ls).*2 -> owned w
}.

Lemma active_register now id streams k :
  streams !! id = None -> active (<[id := (SActive, now)]> streams) k <-> k = id \/ active streams k.
Proof.
  intros Hid. unfold active. destruct (decide (k = id)) as [->|Hk].
  - rewrite lookup_insert_eq. split; [by left|]. intros _. by exists now.
  - rewrite lookup_insert_ne by done. split; [by right|by intros [|]].
Qed.

Lemma active_mark id streams k : active (mark_consumed id streams) k <-> k <> id /\ active streams k.
Proof.
  unfold active, mark_consumed. destruct (streams !! id) as [[s ts]|] eqn:E.
  - destruct (decide (k = id)) as [->|Hk].
    + rewrite lookup_insert_eq. naive_solver.
    + rewrite lookup_insert_ne by done. naive_solver.
  - split; [|naive_solver]. intros [ts Hts]. split; [congruence|eauto].
Qed.

Lemma active_janitor cutoff streams k :
  active (snd (remove_consumed_before cutoff streams)) k <-> active streams k.
Proof.
  unfold active. rewrite remove_consumed_lookup. destruct (streams !! k) as [[s ts]|]; [|naive_solver].
  change (mbind ?f (Some (s, ts))) with (f (s, ts)). cbv beta. unfold keep_stream. cbn [fst snd].
  destruct (bool_decide_reflect (s = SActive)) as [->|Hs]; cbn [orb]; [done|].
  destruct (cutoff <=? ts); naive_solver.
Qed.

Lemma is_Some_delete {A} (m : gmap bytes A) id k : is_Some (delete id m !! k) <-> k <> id /\ is_Some (m !! k).
Proof.
  destruct (decide (k = id)) as [->|Hk].
  - rewrite lookup_delete_eq. split; [by intros [? ?]|by intros []].
  - rewrite lookup_delete_ne by done. naive_solver.
Qed.

Lemma is_Some_insert {A} (m : gmap bytes A) id v k : is_Some (<[id := v]> m !! k) <-> k = id \/ is_Some (m !! k).
Proof.
  destruct (decide (k = id)) as [->|Hk].
  - rewrite lookup_insert_eq. split; [by left|]. intros _. by eexists.
  - rewrite lookup_insert_ne by done. naive_solver.
Qed.

Lemma admissions_other ls : admissions (ls ++ [LOther]) = admissions ls.
Proof. unfold admissions. by rewrite omap_app, app_nil_r. Qed.

Lemma held_gone n ts : held (delete n ts) = held ts - owed (snd <$> ts !! n).
Proof.
  unfold held. rewrite map_filter_delete. destruct (ts !! n) as [[id ph]|] eqn:E; cbn.
  - destruct (holds_permit ph) eqn:Hp.
    + assert (Hin : filter (fun e => holds_permit (snd (snd e)) = true) ts !! n = Some (id, ph))
        by by apply map_lookup_filter_Some.
      rewrite map_size_delete_Some by (by eexists).
      assert (size (filter (fun e => holds_permit (snd (snd e)) = true) ts) <> 0)%nat
        by (intros H0; apply map_size_empty_inv in H0; rewrite H0, lookup_empty in Hin; done). lia.
    + rewrite delete_id; [lia|]. apply map_lookup_filter_None. right. intros [? ?]. rewrite E. intros [= <- <-]. cbn. congruence.
  - rewrite delete_id; [lia|]. apply map_lookup_filter_None. by left.
Qed.

Lemma held_set n id next ts :
  held (set_task n id next ts) = held ts - owed (snd <$> ts !! n) + owed next.
Proof.
  destruct next as [ph|]; cbn [set_task]; [|rewrite held_gone; cbn; lia].
  rewrite <- insert_delete_eq, <- held_gone. unfold held. cbn [owed].
  assert (Hn : filter (fun e : nat * (bytes * Phase) => holds_permit (snd (snd e)) = true) (delete n ts) !! n = None)
    by (apply map_lookup_filter_None; left; apply lookup_delete_eq).
  destruct (holds_permit ph) eqn:Hp.
  - rewrite map_filter_insert_True by done. rewrite map_size_insert_None by done. lia.
  - rewrite map_filter_insert_False by (cbn; congruence). rewrite delete_delete_eq. lia.
Qed.

Lemma lookup_set_task n id next ts m :
  set_task n id next ts !! m = if decide (m = n) then (fun ph => (id, ph)) <$> next else ts !! m.
Proof.
  destruct (decide (m = n)) as [->|Hm]; destruct next; cbn; by rewrite ?lookup_insert_eq, ?lookup_delete_eq, ?lookup_insert_ne, ?lookup_delete_ne.
Qed.

Lemma some_task_set p n id next ts k :
  some_task p (set_task n id next ts) k <->
  (k = id /\ exists ph, next = Some ph /\ p ph = true) \/ exists m ph, m <> n /\ ts !! m = Some (k, ph) /\ p ph = true.
Proof.
  unfold some_task. split.
  - intros (m & ph & Hm & Hp). rewrite lookup_set_task in Hm. destruct (decide (m = n)); [left|right; eauto].
    destruct next; [|done]. injection Hm as -> ->. eauto.
  - intros [(-> & ph & -> & Hp)|(m & ph & Hm & Ht & Hp)]; [exists n, ph|exists m, ph]; rewrite lookup_set_task.
    + by rewrite decide_True.
    + by rewrite decide_False.
Qed.

(** What one move of a task does. *)
Lemma task_move_permits st id ph next st' :
  task_move st id ph next st' -> 0 <= tunnel_permits st ->
  0 <= tunnel_permits st' /\ tunnel_permits st' + owed next = tunnel_permits st + owed (Some ph).
Proof.
  intros Hm Hp. destruct Hm as [| |? ? ? ? _ Ht| | | | |? ? [->| ->]| | | | |]; cbn; try lia.
  apply take_permit_ok in Ht as [? ->]. cbn. lia.
Qed.

Lemma task_move_wf st id ph next st' ph' :
  task_move st id ph next st' -> phase_wf id ph -> next = Some ph' -> phase_wf id ph'.
Proof.
  intros Hm Hw. destruct Hm as [| |master enc tr ? Htr _| | | | | | | | | |]; intros [= <-]; try done.
  unfold tunnel_request in Htr. destruct (derive_connection_keys master id) as [[uk dk] tk].
  destruct (decrypt_target tk enc) as [[host port]| |]; [|done..]. by injection Htr as <-.
Qed.

Lemma task_move_handles st id ph next st' k :
  task_move st id ph next st' -> phase_wf id ph -> is_Some (actors st' !! k) ->
  (k = id /\ exists ph', next = Some ph' /\ is_listed ph' = true) \/
  (is_Some (actors st !! k) /\ (k = id -> is_listed ph = false)).
Proof.
  intros Hm Hw Hk. destruct Hm as [| |? ? ? ? _ Ht|? tr|? tr|? tr| |? ? [->| ->]| | | | |]; cbn in Hk; try (right; by split);
    try (destruct (decide (k = id)); [left; split; [done|]; by eexists|by right]).
  - apply take_permit_ok in Ht as [_ ->]. by right.
  - cbn in Hw. rewrite Hw in Hk. apply is_Some_insert in Hk as [->|?]; [left; split; [done|]; by eexists|right; done].
  - apply is_Some_delete in Hk as [Hne Hk]. right. split; [done|]. intros ->. by destruct Hne.
Qed.

(** Under one owner per stream, the handle of another stream stays, and a
    receiving task has its own. *)
Lemma task_move_listed st id ph next st' k :
  task_move st id ph next st' -> phase_wf id ph -> k <> id -> is_Some (actors st !! k) -> is_Some (actors st' !! k).
Proof.
  intros Hm Hw Hk Ha. destruct Hm as [| |? ? ? ? _ Ht|? tr|? tr|? tr| |? ? [->| ->]| | | | |]; cbn; try done.
  - by apply take_permit_ok in Ht as [_ ->].
  - cbn in Hw. rewrite Hw. apply is_Some_insert. by right.
  - by apply is_Some_delete.
Qed.

Lemma task_move_receiving st id ph ph' st' :
  task_move st id ph (Some ph') st' -> phase_wf id ph -> receiving ph' = true ->
  (receiving ph = true -> is_Some (actors st !! id)) -> is_Some (actors st' !! id).
Proof.
  intros Hm Hw Hr Ha. inversion Hm; subst; try done; cbn; [|by apply Ha].
  cbn in Hw. rewrite Hw. apply is_Some_insert. by left.
Qed.

Lemma task_move_active st id ph next st' k :
  task_move st id ph next st' ->
  active (stream_registry st') k <->
  active (stream_registry st) k /\ (k = id -> in_operation ph = true -> exists ph', next = Some ph' /\ in_operation ph' = true) /\
    (k = id -> ph <> Closing).
Proof.
  intros Hm. destruct Hm as [| |? ? ? ? _ Ht| | | | |? ? [->| ->]| | | | |]; cbn; rewrite ?active_mark; try (by naive_solver).
  apply take_permit_ok in Ht as [_ ->]. cbn. naive_solver.
Qed.

Lemma task_move_operation st id ph ph' st' :
  task_move st id ph (Some ph') st' -> in_operation ph' = true -> in_operation ph = true.
Proof. intros Hm. remember (Some ph') as next eqn:E. by destruct Hm as [| | | | | | |? ? [->| ->]| | | | |]; simplify_eq. Qed.

(** A step that leaves the tasks alone. *)
Lemma life_quiet max w ls now st iss :
  life_inv max w ls -> tunnel_permits st = tunnel_permits (app w) ->
  (forall k, active (stream_registry st) k <-> active (stream_registry (app w)) k) ->
  (forall k, is_Some (actors st !! k) -> is_Some (actors (app w) !! k)) ->
  (forall k, some_task receiving (tasks w) k -> is_Some (actors (app w) !! k) -> is_Some (actors st !! k)) ->
  life_inv max (mkWorld now st iss (tasks w)) (ls ++ [LOther]).
Proof.
  intros [Hwf Hp Hh Ho] Ep Ea Eh Ek. split; rewrite ?admissions_other; cbn; auto.
  - by rewrite Ep.
  - intros Hu. destruct (Ho Hu) as [Hq Ha Hl]. split; cbn; [done|by intros id; rewrite Ea|by auto].
Qed.

Lemma life_forgets max w ls now st iss :
  life_inv max w ls -> forgets (app w) st -> life_inv max (mkWorld now st iss (tasks w)) (ls ++ [LOther]).
Proof. intros Hi (store & _ & ->). by apply life_quiet. Qed.

Lemma life_admit max w ls now n sid id master enc :
  life_inv max w ls -> stream_registry (app w) !! id = None -> tasks w !! n = None ->
  life_inv max (mkWorld now (set_registry (app w) (<[id := (SActive, now)]> (stream_registry (app w)))) (issued w)
    (set_task n id (Some (Registered master enc)) (tasks w))) (ls ++ [LAdmit sid id]).
Proof.
  intros [Hwf Hp Hh Ho] Hid Hn.
  assert (E : (admissions (ls ++ [LAdmit sid id])).*2 = (admissions ls).*2 ++ [id])
    by (unfold admissions; by rewrite omap_app, fmap_app).
  split; rewrite ?E; cbn [app tasks].
  - intros m k ph. rewrite lookup_set_task. destruct (decide (m = n)) as [->|]; [intros [= <- <-]|intros Hm; apply Hwf in Hm].
    + split; [done|]. apply elem_of_app. right. by left.
    + destruct Hm. split; [done|]. apply elem_of_app. by left.
  - rewrite held_set, Hn. cbn. destruct Hp. split; [done|lia].
  - intros k Hk. apply Hh in Hk as (m & ph & Hm & Hl). apply some_task_set. right. exists m, ph. split; [congruence|done].
  - intros Hu. apply NoDup_app in Hu as (Hu & Hnew & _). destruct (Ho Hu) as [Hq Ha Hl].
    assert (Hfresh : forall m ph, tasks w !! m <> Some (id, ph)).
    { intros m ph Hm. apply Hwf in Hm as [_ Hin]. apply (Hnew _ Hin). by left. }
    split; cbn [app tasks].
    + intros m m' k ph ph'. rewrite !lookup_set_task. destruct (decide (m = n)) as [->|], (decide (m' = n)) as [->|]; cbn; try done.
      * intros [= <- _] H. by apply Hfresh in H.
      * intros H [= <- _]. by apply Hfresh in H.
      * apply Hq.
    + intros k. cbn [stream_registry set_registry]. rewrite active_register, Ha, some_task_set by done. unfold some_task. split.
      * intros [->|(m & ph & Hm & Hi)]; [left; eauto|right]. exists m, ph. split; [congruence|done].
      * intros [[-> _]|(m & ph & _ & Hm)]; [by left|right; eauto].
    + intros k. rewrite some_task_set. intros [(_ & ph & [= <-] & [=])|(m & ph & _ & Hm)]. apply Hl. exists m, ph. exact Hm.
Qed.

Lemma owned_task w n id ph next st :
  owned w -> tasks w !! n = Some (id, ph) -> phase_wf id ph -> task_move (app w) id ph next st ->
  owned (mkWorld (clock w) st (issued w) (set_task n id next (tasks w))).
Proof.
  intros [Hq Ha Hl] Hn Hwf Hm.
  assert (Hother : forall m k p, m <> n -> tasks w !! m = Some (k, p) -> k <> id).
  { intros m k p Hne Hk ->. apply Hne. by eapply Hq. }
  assert (Hactive : in_operation ph = true -> active (stream_registry (app w)) id) by (intros Hi; apply Ha; by exists n, ph).
  split; cbn [app tasks].
  - intros m m' k p p'. rewrite !lookup_set_task. destruct (decide (m = n)) as [->|], (decide (m' = n)) as [->|]; cbn; try done.
    + intros H1 H2. destruct next; [|done]. injection H1 as <- _. by eapply Hother in H2.
    + intros H1 H2. destruct next; [|done]. injection H2 as <- _. by eapply Hother in H1.
    + apply Hq.
  - intros k. rewrite (task_move_active _ _ _ _ _ k Hm), some_task_set, Ha. split.
    + intros ((m & p & Hp & Hi) & Hnext & Hclosing). destruct (decide (m = n)) as [->|Hne].
      * rewrite Hn in Hp. injection Hp as <- <-. left. split; [done|]. by apply Hnext.
      * right. by exists m, p.
    + intros [(-> & p & -> & Hi)|(m & p & Hne & Hp & Hi)].
      * assert (Hi' : in_operation ph = true) by by eapply task_move_operation.
        split; [by apply Ha, Hactive|]. split; [eauto|]. intros _ ->. done.
      * assert (k <> id) by by eapply Hother. split; [by exists m, p|]. naive_solver.
  - intros k. rewrite some_task_set. intros [(-> & p & -> & Hr)|(m & p & Hne & Hp & Hr)].
    + eapply task_move_receiving; [exact Hm|done|done|]. intros Hr'. apply Hl. by exists n, ph.
    + eapply task_move_listed; [exact Hm|done|by eapply Hother|]. apply Hl. by exists m, p.
Qed.

Lemma life_task max w ls n id ph next st :
  life_inv max w ls -> tasks w !! n = Some (id, ph) -> task_move (app w) id ph next st ->
  life_inv max (mkWorld (clock w) st (issued w) (set_task n id next (tasks w))) (ls ++ [LOther]).
Proof.
  intros [Hwf [Hp Hm] Hh Ho] Hn Hmv. destruct (Hwf _ _ _ Hn) as [Hphase Hin].
  split; rewrite ?admissions_other; cbn [app tasks].
  - intros m k p. rewrite lookup_set_task. destruct (decide (m = n)) as [->|]; [|apply Hwf].
    destruct next; [|done]. intros [= <- <-]. split; [by eapply task_move_wf|done].
  - destruct (task_move_permits _ _ _ _ _ Hmv Hp) as [Hp' E]. split; [done|]. rewrite held_set, Hn. cbn [fmap option_fmap option_map snd]. lia.
  - intros k Hk. apply some_task_set. destruct (task_move_handles _ _ _ _ _ _ Hmv Hphase Hk) as [Hl|[Hk' Hl]]; [by left|].
    apply Hh in Hk' as (m & p & Hmp & Hpl). right. exists m, p. split; [|done]. intros ->.
    rewrite Hn in Hmp. injection Hmp as -> ->. rewrite Hl in Hpl; done.
  - intros Hu. eapply owned_task; eauto.
Qed.

Lemma life_step max w ls l w' : life_inv max w ls -> step w l w' -> life_inv max w' (ls ++ [l]).
Proof.
  intros Hi Hs. destruct Hs as [w now Hn|w headers body un now draws c r st c' Hn Hfresh Hh
    |w n now1 now2 v sid t s master id enc st H1 H2 Hv Ha Hn|w now1 now2 v r st H1 H2 Ha Hr
    |w n id ph next st Hph Hm|w store streams Hj|w closed Hc].
  - by apply life_quiet.
  - apply handshake_state in Hh as [->|(user & master & ->)]; by apply life_quiet.
  - apply admit_stream_ok in Ha as (sid' & s' & user & created & Hv' & Hst & Hexp & Hid & ->).
    by apply life_admit.
  - apply admit_stream_refused in Ha; [|done]. by apply life_forgets.
  - by eapply life_task.
  - cbn in Hj. injection Hj as <- <-. apply life_quiet; try done.
    intros k. apply (active_janitor (saturating_sub (clock w) MASTER_EXPIRY)).
  - apply life_quiet; cbn; try done.
    + intros k [h Hk]. apply map_lookup_filter_Some in Hk as [Hk _]. by eexists.
    + intros k (n & ph & Hn & Hr) [h Hk]. exists h. apply map_lookup_filter_Some. split; [done|]. by eapply Hc.
Qed.

Lemma life_run max w ls w' : life_inv max w [] -> run w ls w' -> life_inv max w' ls.
Proof. intros Hi Hr. induction Hr as [|w ls w1 l w2 _ IH Hst]; [done|]. eapply life_step; [by apply IH|done]. Qed.

(** ** One request on its own *)

(** Left alone, the task of an admitted request does what [open_stream] says,
    in all it does to the server. *)
Lemma set_task_set n id next ph ts : set_task n id next (set_task n id (Some ph) ts) = set_task n id next ts.
Proof. destruct next; cbn; [apply insert_insert_eq|apply delete_insert_eq]. Qed.

Lemma run_move w ls c st iss n id ph ts next st' :
  run w ls (mkWorld c st iss (set_task n id (Some ph) ts)) -> task_move st id ph next st' ->
  run w (ls ++ [LOther]) (mkWorld c st' iss (set_task n id next ts)).
Proof.
  intros Hr Hm. eapply run_snoc; [exact Hr|]. rewrite <- (set_task_set n id next ph ts).
  eapply (step_task (mkWorld c st iss (set_task n id (Some ph) ts))); [apply lookup_insert_eq|exact Hm].
Qed.

Lemma open_stream_runs env w n id master enc r sent st :
  tasks w !! n = Some (id, Registered master enc) ->
  open_stream cfg env master id enc (app w) = (r, sent, st) ->
  exists ls, admissions ls = [] /\
    run w ls (mkWorld (clock w) st (issued w) (set_task n id (if is_ok r then Some Running else None) (tasks w))).
Proof.
  intros Hn Ho.
  assert (R : run w [] (mkWorld (clock w) (app w) (issued w) (set_task n id (Some (Registered master enc)) (tasks w)))).
  { cbn. rewrite insert_id by done. destruct w. apply run_nil. }
  unfold open_stream in Ho. pose proof (tm_bad_target (app w) id master enc) as Mb.
  pose proof (fun tr st' => tm_take_permit (app w) id master enc tr st') as Mt. unfold tunnel_request in Mb, Mt.
  destruct (derive_connection_keys master id) as [[uk dk] tk].
  destruct (decrypt_target tk enc) as [[host port]| |]; cbn [res_bind is_ok] in Mb, Mt.
  2, 3: injection Ho as <- <- <-; eapply run_move in R; [|by apply Mb]; eapply run_move in R; [|apply tm_unwound];
    by eexists; split; [|exact R].
  unfold setup_tunnel_response in Ho. set (tr := mkTunnelRequest id uk dk host port) in *.
  destruct (take_permit (app w)) as [st1|] eqn:Ht.
  2: { injection Ho as <- <- <-. eapply run_move in R; [|by apply tm_no_permit]. eapply run_move in R; [|apply tm_unwound].
       by eexists; split; [|exact R]. }
  eapply run_move in R; [|by apply Mt].
  destruct (connect_tunnel env tr) as [[]| |] eqn:Hc.
  2, 3: injection Ho as <- <- <-; eapply run_move in R; [|eapply (tm_not_connected _ _ env); by rewrite Hc];
    eapply run_move in R; [|apply tm_unwound]; by eexists; split; [|exact R].
  eapply run_move in R; [|by eapply tm_connected].
  destruct (forward_early cfg env tr) as [[cmds|e|] sent'] eqn:Hf; injection Ho as <- <- <-.
  - eapply run_move in R; [|by eapply tm_spawned]. by eexists; split; [|exact R].
  - eapply run_move in R; [|by eapply tm_not_forwarded]. eapply run_move in R; [|apply tm_unwound]. by eexists; split; [|exact R].
  - eapply run_move in R; [|by eapply tm_not_forwarded]. eapply run_move in R; [|apply tm_unwound]. by eexists; split; [|exact R].
Qed.
End replay.

(** A server that holds sessions but no streams. *)
Definition start_ok (w : World) : Prop :=
  0 <= clock w /\ born (clock w) (master_store (app w)) (issued w) /\
  stream_registry (app w) = ∅ /\ tasks w = ∅ /\ actors (app w) = ∅.

Lemma start_replay_inv w : start_ok w -> replay_inv w [].
Proof. intros (? & ? & _). split; [done|]. split; [done|]. split; [done|]. apply NoDup_nil_2. Qed.

Lemma start_life_inv w : start_ok w -> 0 <= tunnel_permits (app w) -> life_inv (tunnel_permits (app w)) w [].
Proof.
  intros (_ & _ & Hr & Ht & Ha) Hp.
  assert (E : forall p id, ~ some_task p (tasks w) id)
    by (intros p id (n & ph & H & _); rewrite Ht, lookup_empty in H; done).
  split.
  - intros n id ph H. by rewrite Ht, lookup_empty in H.
  - split; [done|]. rewrite Ht. unfold held. rewrite map_filter_empty, map_size_empty. lia.
  - intros id [h H]. by rewrite Ha, lookup_empty in H.
  - intros _. split.
    + intros n m id ph ph' H. by rewrite Ht, lookup_empty in H.
    + intros id. split; [|intros H; by apply E in H]. intros [ts H]. by rewrite Hr, lookup_empty in H.
    + intros id H. by apply E in H.
Qed.

(** ** Properties *)

(** C7: no request opens a tunnel twice. In every run of the server, whatever
    requests arrive in whatever order and whenever the janitor forgets old
    streams and sessions, each pair of a session and a stream is admitted at
    most once: a stream is only forgotten once its session has expired. *)
Theorem no_replay `{P : Aead} `{B64 : Base64} `{U : UuidText} `{X : PqCrypto} `{B122 : Base122} `{K : TtlCache}
    cfg token_key w ls w' :
  start_ok w -> run cfg token_key w ls w' -> NoDup (admissions ls).
Proof. intros Hs Hr. eapply replay_run in Hr as (_ & _ & _ & H); [done|]. by apply start_replay_inv. Qed.

(** C13: nothing a tunnel takes is lost. In every run, with set-ups, failures,
    cancelled requests and ends of tunnels interleaved in any way: the free
    permits and those owned by the tasks that dial their target, forward their
    request body, run or are being closed add up to the configured limit; a
    handle in the actor map is that of a tunnel that runs or is being closed;
    and if no stream identifier is admitted twice, no two tasks have the same
    stream, a stream is active in the registry exactly from its admission until
    its set-up is unwound or its tunnel cleans up, and every running tunnel has
    its handle. *)
Theorem stream_life `{P : Aead} `{B64 : Base64} `{U : UuidText} `{X : PqCrypto} `{B122 : Base122} `{K : TtlCache}
    cfg token_key w ls w' :
  start_ok w -> 0 <= tunnel_permits (app w) -> run cfg token_key w ls w' ->
  0 <= tunnel_permits (app w') /\
  tunnel_permits (app w') + held (tasks w') = tunnel_permits (app w) /\
  (forall id, is_Some (actors (app w') !! id) -> some_task is_listed (tasks w') id) /\
  (NoDup (admissions ls).*2 ->
    (forall n m id ph ph', tasks w' !! n = Some (id, ph) -> tasks w' !! m = Some (id, ph') -> n = m) /\
    (forall id, check id (stream_registry (app w')) = QActive <-> some_task in_operation (tasks w') id) /\
    (forall n id, tasks w' !! n = Some (id, Running) -> is_Some (actors (app w') !! id))).
Proof.
  intros Hs Hp Hr. eapply life_run in Hr as [_ [H0 Hm] Hh Ho]; [|by apply start_life_inv].
  split; [done|]. split; [done|]. split; [done|]. intros Hu. destruct (Ho Hu) as [Hq Ha Hl]. split; [exact Hq|]. split.
  - intros id. rewrite <- Ha. unfold check, active. destruct (stream_registry (app w') !! id) as [[[] ts]|]; naive_solver.
  - intros n id Hn. apply Hl. by exists n, Running.
Qed.

(** ** Witnesses *)

(** A session of the toy server, its cookie, and a run that admits it, refuses
    it again, opens the tunnel and begins to end it. *)
Definition toy_stream : bytes := zrep 16 Byte.x55.
Definition toy_session_cookie : bytes :=
  match session_cookie (P := toy_aead) toy_ticket (str "example.org:443") toy_stream toy_nonce toy_nonce with
  | Ok v => v
  | _ => []
  end.
Definition toy_open_env : SetupEnv := mkSetupEnv (fun _ _ => Connected) [] 1 (fun _ => true) toy_draw.

Definition world0 : World := mkWorld 1000 toy_live_state {[ ticket_session toy_ticket := 100 ]} ∅.
Definition toy_admitted := admit_stream (P := toy_aead) 1000 1001 toy_session_cookie toy_live_state.
Definition toy_enc_target : bytes := match fst toy_admitted with Ok (_, _, enc) => enc | _ => [] end.
Definition toy_request : TunnelRequest :=
  match tunnel_request (P := toy_aead) (ticket_master toy_ticket) toy_stream toy_enc_target with
  | Ok tr => tr
  | _ => mkTunnelRequest [] [] [] [] 0
  end.
Definition toy_dialling : AppState := set_permits (snd toy_admitted) 3.
Definition toy_running : AppState := insert_handle toy_server toy_request toy_dialling.

(** The world when the task is in a phase. *)
Definition toy_world (st : AppState) (ph : Phase) : World :=
  mkWorld 1001 st (issued world0) (set_task 0 toy_stream (Some ph) ∅).

(** The tunnel's actor is gone and its permit is still owed. *)
Definition toy_closed : World := toy_world (consume_stream toy_stream (consume_stream toy_stream toy_running)) ActorDropped.

Definition toy_labels : list Label := LAdmit (ticket_session toy_ticket) toy_stream :: repeat LOther 6.

Lemma toy_run :
  run (P := toy_aead) (K := toy_cache) toy_server toy_key world0 toy_labels toy_closed.
Proof.
  pose proof (run_nil (P := toy_aead) (K := toy_cache) toy_server toy_key world0) as R.
  eapply run_snoc in R; [|apply (step_admit (P := toy_aead) toy_server toy_key world0 0 1000 1001 toy_session_cookie
    (ticket_session toy_ticket) toy_enc_target (zdrop (zlen (ticket_session toy_ticket ++ toy_enc_target) + 2) toy_session_cookie)
    (ticket_master toy_ticket) toy_stream toy_enc_target (snd toy_admitted)); vm_compute; first [reflexivity|congruence]].
  eapply run_snoc in R; [|apply (step_refuse (P := toy_aead) toy_server toy_key
    (toy_world (snd toy_admitted) (Registered (ticket_master toy_ticket) toy_enc_target)) 1001 1001 toy_session_cookie
    (precondition "stream already active") (snd toy_admitted)); vm_compute; first [reflexivity|congruence]].
  apply (run_move _ _ _ _ 1001 (snd toy_admitted) (issued world0) 0 toy_stream _ ∅ (Some (Connecting toy_request)) toy_dialling) in R;
    [|apply tm_take_permit; vm_compute; reflexivity].
  eapply run_move in R; [|apply (tm_connected _ _ _ toy_open_env); vm_compute; reflexivity].
  eapply run_move in R; [|apply (tm_spawned _ _ _ toy_open_env _ [] []); vm_compute; reflexivity].
  eapply run_move in R; [|apply tm_cleanup].
  eapply run_move in R; [|apply tm_actor_dropped]. exact R.
Qed.

Lemma world0_ok : start_ok world0.
Proof.
  split; [by vm_compute|]. split; [|done].
  intros sid user master c H. cbn in H. apply lookup_singleton_Some in H as [<- [= <- <- <-]].
  split; [apply lookup_singleton_eq|cbn; lia].
Qed.

Lemma no_replay_witness : start_ok world0 /\ NoDup (admissions toy_labels).
Proof.
  split; [exact world0_ok|].
  exact (no_replay (P := toy_aead) toy_server toy_key world0 toy_labels toy_closed world0_ok toy_run).
Defined.

Lemma stream_life_witness :
  tunnel_permits (app toy_closed) = 3 /\ tunnel_permits (app toy_closed) + held (tasks toy_closed) = 4 /\
  (check toy_stream (stream_registry (app toy_closed)) = QActive <-> some_task in_operation (tasks toy_closed) toy_stream).
Proof.
  assert (H := stream_life (P := toy_aead) toy_server toy_key world0 toy_labels toy_closed world0_ok).
  specialize (H ltac:(vm_compute; congruence) toy_run). destruct H as (_ & Hm & _ & Hu).
  split; [reflexivity|]. split; [exact Hm|]. apply Hu. apply NoDup_singleton.
Defined.
