(* ===== verification/Refusal.v ===== *)
(** * Requests that are refused

    The one route of the server, [dispatch] of [src/server/handlers.rs], on any
    request whatever: it never panics, and a request that is refused leaves no
    trace but the expired session it named and the stream number it used up. *)

From S2P Require Import Prelude Cipher Frame Shaper Decoder Text Cookie Errors Token Registry Crypto Upload Handlers Handshake Replay.

(** The keys of the handles are cipher keys. *)
Definition handles_ok (st : AppState) : Prop := map_Forall (fun _ h => zlen (upload_key h) = 32) (actors st).

(** What a store has lost had expired. *)
Definition only_expired (now : Z) (store store' : MasterStore) : Prop :=
  store' ⊆ store /\
  forall sid user master created, store !! sid = Some (user, master, created) -> store' !! sid = None ->
    master_expired now created = true.

Section refusal.
Context `{P : Aead} {L : AeadLaws P} `{B64 : Base64} `{U : UuidText} {UL : UuidLaws U} `{X : PqCrypto} {XL : PqCryptoLaws X}.
Context `{B122 : Base122} {B122L : Base122Laws B122} `{K : TtlCache}.
Context (cfg : ServerConfig) (token_key : LessSafeKey).

Lemma only_expired_refl now store : only_expired now store store.
Proof. split; [done|]. congruence. Qed.

Lemma map_err_no_panic {E F A} (f : E -> F) (r : Res E A) : r <> Panic -> map_err f r <> Panic.
Proof. by destruct r. Qed.

Lemma decrypt_bytes_no_panic key data : decrypt_bytes key data <> Panic.
Proof.
  unfold decrypt_bytes, make_key, decrypt_with_cipher. destruct (unbound_key key); cbn; [|done].
  destruct (_ <? _); [done|]. destruct (try_assume_unique_for_key _); cbn; [|done]. by destruct (open_in_place _ _ _) as [[]|].
Qed.

Lemma decode_from_buffer_no_panic `{C : FrameCipher} {CL : FrameCipherLaws C} b enc : fst (decode_from_buffer b enc) <> Panic.
Proof.
  unfold decode_from_buffer.
  pose proof (match enc return step_wf b (decode_frame b [] enc) with
    | Json => decode_json_wf b [] | Binary => decode_binary_wf b [] end) as H.
  destruct (decode_frame b [] enc) as [[[[frame|]|e|] src] scr]; try done; [|by destruct H].
  by destruct (frame_data frame scr) as [[? ?] ?].
Qed.

Lemma forward_no_panic ce de is_open decoded :
  snd decoded <> Panicked -> fst (forward_frames ce de is_open decoded) <> Panic.
Proof. unfold forward_frames. destruct (list_find _ _) as [[? ?]|]; [done|]. by destruct (snd decoded). Qed.

Lemma dispatch_to_actor_no_panic h env : zlen (upload_key h) = 32 -> fst (dispatch_to_actor h env) <> Panic.
Proof.
  intros Hk. unfold dispatch_to_actor. destruct (AesFrameCipher_new_ok _ Hk) as [c ->].
  set (decoded := collect _ _).
  assert (Hd : snd decoded <> Panicked) by by apply collect_not_panicked.
  pose proof (forward_no_panic (bad_gateway "upload actor closed") "frame decode error: " (ue_upload_open env) decoded Hd) as Hf.
  destruct (forward_frames _ _ _ decoded) as [[cmds|e|] sent]; try done.
  destruct (_ =? _); [by destruct (ue_continue env)|]. by destruct (ue_eos env).
Qed.

Lemma lookup_master_expired now sid st r st' :
  lookup_master now sid st = (r, st') ->
  r <> Panic /\ only_expired now (master_store st) (master_store st') /\
  st' = mkState (master_store st') (stream_registry st) (actors st) (tunnel_permits st) /\ (is_ok r = true -> st' = st).
Proof.
  unfold lookup_master. pose proof (only_expired_refl now (master_store st)) as Href.
  destruct (master_store st !! sid) as [[[u m] created]|] eqn:Hs; [|intros [= <- <-]; by destruct st].
  destruct (master_expired now created) eqn:He; intros [= <- <-]; [|by destruct st]. split_and!; try done.
  split; [apply delete_subseteq|]. intros k user master created' Hk Hn. cbn in Hn.
  apply lookup_delete_None in Hn as [->|Hn]; congruence.
Qed.

Lemma admit_stream_cases now1 now2 v st r st' :
  admit_stream now1 now2 v st = (r, st') ->
  r <> Panic /\ only_expired now1 (master_store st) (master_store st') /\
  actors st' = actors st /\ tunnel_permits st' = tunnel_permits st /\
  match r with
  | Ok (master, id, _) =>
      stream_registry st !! id = None /\ stream_registry st' = <[id := (SActive, now2)]> (stream_registry st)
  | _ => stream_registry st' = stream_registry st
  end.
Proof.
  unfold admit_stream. pose proof (only_expired_refl now1 (master_store st)) as Href.
  destruct (split_session_cookie v) as [[[sid t] s]|]; [|by intros [= <- <-]].
  destruct (uuid_parse sid); [|by intros [= <- <-]].
  destruct (lookup_master now1 sid st) as [rl st1] eqn:Hl.
  apply lookup_master_expired in Hl as (Hp & He & Hst & Hok).
  destruct rl as [[user m]|e|]; [rewrite (Hok eq_refl)|rewrite Hst; by intros [= <- <-]|done].
  assert (Hd : decrypt_stream_id m s <> Panic).
  { unfold decrypt_stream_id, or_428. destruct (b64_decode s) as [b|]; cbn; [|done].
    pose proof (decrypt_bytes_no_panic (derive_cookie_stream_key m) b) as Hn.
    destruct (decrypt_bytes _ _); cbn; try done. by destruct (_ =? _). }
  destruct (decrypt_stream_id m s) as [id| |]; [|by intros [= <- <-]|done].
  unfold register. destruct (stream_registry st !! id) as [e|] eqn:Hi; intros [= <- <-]; by split_and!.
Qed.

Lemma forward_early_no_panic env tr : zlen (tr_upload_key tr) = 32 -> fst (forward_early cfg env tr) <> Panic.
Proof.
  intros Hu. unfold forward_early. destruct (AesFrameCipher_new_ok _ Hu) as [c ->].
  by apply forward_no_panic, collect_not_panicked.
Qed.

Lemma open_stream_cases env master id t st :
  handles_ok st ->
  let '(r, _, st') := open_stream cfg env master id t st in r <> Panic /\ handles_ok st'.
Proof.
  intros Hh. unfold open_stream. pose proof (derive_connection_keys_len master id) as Hk.
  destruct (derive_connection_keys master id) as [[uk dk] tk]. destruct Hk as (Hu & _ & _).
  assert (Hd : decrypt_target tk t <> Panic).
  { unfold decrypt_target, or_428. destruct (b64_decode t) as [b|]; cbn; [|done].
    pose proof (decrypt_bytes_no_panic tk b) as Hn. destruct (decrypt_bytes _ _); cbn; try done.
    destruct (negb _); [done|]. destruct (rsplit_once _ _) as [[? ?]|]; cbn; [|done]. by destruct (parse_u16 _). }
  destruct (decrypt_target tk t) as [[host port]| |]; [|done..].
  unfold setup_tunnel_response. destruct (take_permit st) as [st1|] eqn:Ht; [|done].
  apply take_permit_ok in Ht as [_ ->]. unfold connect_tunnel. destruct (se_connect _ _ _); try done.
  pose proof (forward_early_no_panic env (mkTunnelRequest id uk dk host port) Hu) as Hf.
  destruct (forward_early _ _ _) as [[cmds|e|] sent]; [|done..].
  split; [done|]. by apply map_Forall_insert_2.
Qed.

Lemma validate_no_panic headers now c : fst (validate_token_if_needed headers token_key now c) <> Panic.
Proof.
  unfold validate_token_if_needed, validate_token_at. cbn [at_lookup at_open at_check at_insert]. destruct (header_get _ headers ≫= to_str) as [auth|]; [|done].
  destruct (strip_prefix _ auth) as [token|]; [|done]. destruct (cache_get now token c); [done|].
  pose proof (open_wf token_key now token) as H. by destruct (open token_key now token).
Qed.

Lemma parse_client_hello_no_panic data : parse_client_hello data <> Panic.
Proof.
  unfold parse_client_hello, bytes_to_encapsulation_key. destruct (_ <? _); [done|]. destruct (_ <? _); [done|].
  destruct (mlkem_import _); cbn; [|done]. destruct (_ <? _); [done|]. destruct (_ <? _); [done|]. by destruct (_ =? _).
Qed.

(** A handshake that is refused stores no session: everything that can fail
    comes before, as the reply always fits a frame. *)
Lemma handshake_cases headers body unix_now now draws st c r st' c' :
  (forall pk rnd ct ss, mlkem_encaps pk rnd = Some (ct, ss) -> zlen ct = MLKEM_CT_LEN) ->
  zlen (sd_nonce draws) = NONCE_LEN -> draw_ok (sd_draw draws) -> zlen (sd_session draws) = 16 ->
  range_ok (padding_range (global (srv_traffic cfg))) ->
  handle_fresh_handshake cfg token_key headers body unix_now now draws st c = (r, st', c') ->
  r <> Panic /\ actors st' = actors st /\ (is_ok r = false -> st' = st).
Proof.
  intros Hct Hn Hd Hsid Hr. unfold handle_fresh_handshake.
  pose proof (validate_no_panic headers unix_now c) as Hv.
  destruct (validate_token_if_needed _ _ _ _) as [[user|e|] c1]; cbn [res_bind]; [|by intros [= <- <- <-]|done].
  assert (He : read_eph_pk_a headers <> Panic).
  { unfold read_eph_pk_a. destruct (extract_cookie_value _ _); cbn; [|done]. destruct (b64_decode _); cbn; [|done]. by destruct (negb _). }
  destruct (read_eph_pk_a headers) as [pk_a|e|]; cbn [res_bind]; [|by intros [= <- <- <-]|done].
  destruct (AesFrameCipher_new_ok _ (derive_handshake_key_len (diffie_hellman (srv_private_key cfg) pk_a))) as [hc ->].
  cbn [as_server map_err res_bind].
  destruct body as [b|m|]; cbn [res_bind]; [|by intros [= <- <- <-]..].
  pose proof (decode_from_buffer_no_panic (C := aes_frame_cipher hc) (CL := aes_frame_cipher_laws hc) b
    (encoding_type (srv_traffic cfg))) as Hf.
  destruct (fst (decode_from_buffer b _)) as [f|e|]; cbn [map_err res_bind]; [|by intros [= <- <- <-]|done].
  destruct f as [[q data]|]; cbn [ok_or res_bind]; [|by intros [= <- <- <-]].
  pose proof (parse_client_hello_no_panic data) as Hp.
  destruct (parse_client_hello data) as [[pk eph]|e|]; cbn [res_bind]; [|by intros [= <- <- <-]|done].
  unfold mlkem_encapsulate. destruct (mlkem_encaps pk (sd_kem draws)) as [[ct ss]|] eqn:Henc;
    cbn [ok_or map_err res_bind generate_keypair]; [|by intros [= <- <- <-]].
  apply Hct in Henc. set (hello := be_bytes 2 _ ++ _).
  destruct (encode_frame_is_frame (C := aes_frame_cipher hc) (sd_nonce draws) (sd_draw draws) hello 0
    (padding_threshold (global (srv_traffic cfg))) (padding_range (global (srv_traffic cfg)))
    (encoding_type (srv_traffic cfg))) as (w & -> & _); try done; [|by intros [= <- <- <-]].
  apply hello_fits. unfold hello. rewrite !zlen_app, zlen_be_bytes, Henc, x25519_public_len, uuid_len by done.
  vm_compute. congruence.
Qed.
End refusal.

(** C14: a request that is refused leaves no trace. On any request, at any time
    and in any state, the server's one route does not panic; when it answers
    with an error, no tunnel was added and no permit taken, the sessions are as
    before but for expired ones, and at most one stream number changed: one
    that was fresh and is now used up, so that it cannot be tried again. *)
Theorem refused_leaves_no_trace `{P : Aead} (L : AeadLaws P) `{B64 : Base64} `{U : UuidText} (UL : UuidLaws U)
    `{X : PqCrypto} (XL : PqCryptoLaws X) `{B122 : Base122} (B122L : Base122Laws B122) `{K : TtlCache}
    cfg token_key headers body setup upload unix_now now1 now2 draws st c r sent st' c' :
  (forall pk rnd ct ss, mlkem_encaps pk rnd = Some (ct, ss) -> zlen ct = MLKEM_CT_LEN) ->
  zlen (sd_nonce draws) = NONCE_LEN -> draw_ok (sd_draw draws) -> zlen (sd_session draws) = 16 ->
  range_ok (padding_range (global (srv_traffic cfg))) -> handles_ok st ->
  dispatch_request cfg token_key headers body setup upload unix_now now1 now2 draws st c = (r, sent, st', c') ->
  r <> Panic /\ handles_ok st' /\
  (is_ok r = false ->
   actors st' = actors st /\ tunnel_permits st' = tunnel_permits st /\
   only_expired now1 (master_store st) (master_store st') /\
   (stream_registry st' = stream_registry st \/
    exists id, stream_registry st !! id = None /\
      stream_registry st' = <[id := (SConsumed, now2)]> (stream_registry st))).
Proof.
  intros Hct Hn Hd Hsid Hr Hh. unfold dispatch_request. pose proof (only_expired_refl now1 (master_store st)) as Href.
  destruct (extract_cookie_value headers (str "stream")) as [v|].
  { destruct (uuid_parse v) as [id|]; [|intros [= <- <- <- <-]; by eauto 10].
    destruct (actors st !! id) as [h|] eqn:Hid.
    - pose proof (dispatch_to_actor_no_panic h upload (Hh _ _ Hid)) as Hp.
      destruct (dispatch_to_actor h upload) as [ra sa]. intros [= <- <- <- <-]. by eauto 10.
    - intros [= <- <- <- <-]. split; [|by eauto 10]. unfold handle_stream_not_found. by destruct (check _ _). }
  destruct (extract_cookie_value headers (str "session")) as [v|].
  { destruct (negb _); [intros [= <- <- <- <-]; by eauto 10|]. unfold spawn_encrypted_tunnel.
    destruct (admit_stream now1 now2 v st) as [ra st1] eqn:Ha.
    apply admit_stream_cases in Ha as (Hp & He & Hac & Hpe & Hreg).
    assert (Hh1 : handles_ok st1) by (unfold handles_ok; by rewrite Hac).
    destruct ra as [[[master id] t]|e|]; [|intros [= <- <- <- <-]; by eauto 10|done].
    destruct Hreg as [Hfresh Hreg]. pose proof (open_stream_cases cfg setup master id t st1 Hh1) as Hcase.
    destruct (open_stream cfg setup master id t st1) as [[ro so] st2] eqn:Ho.
    destruct Hcase as [Hpo Hh2]. intros [= <- <- <- <-]. split; [done|]. split; [done|]. intros Hbad.
    apply open_stream_ok in Ho. rewrite Hbad in Ho. subst st2. unfold drop_stream_guard, set_registry. cbn.
    split; [done|]. split; [done|]. split; [done|]. right. exists id. split; [done|].
    unfold mark_consumed. by rewrite Hreg, lookup_insert_eq, insert_insert_eq. }
  destruct (extract_cookie_value headers (str "eph_pk_a")); [|intros [= <- <- <- <-]; by eauto 10].
  destruct (handle_fresh_handshake _ _ _ _ _ _ _ _ _) as [[rh sth] ch] eqn:Hf. intros [= <- <- <- <-].
  apply handshake_cases in Hf as (Hp & Hac & Hst); try done. split; [done|]. split; [unfold handles_ok; by rewrite Hac|].
  intros Hbad. rewrite (Hst Hbad). by eauto 10.
Qed.

(** ** Witness *)

(** A request of the toy client whose target does not answer. *)
Definition refused_headers : HeaderMap := [(str "Cookie", str "session=" ++ toy_session_cookie)].
Definition refused_upload : UploadEnv := mkUploadEnv [] 0 (fun _ => true) ContNone EosOk 0 toy_draw.
Definition refused :=
  dispatch_request (P := toy_aead) (K := toy_cache) toy_server toy_key refused_headers (BodyBytes [])
    (mkSetupEnv (fun _ _ => ConnectTimeout) [] 1 (fun _ => true) toy_draw) refused_upload 0 1000 1001 toy_server_draws
    toy_live_state toy_empty.

Lemma refused_leaves_no_trace_witness :
  fst (fst (fst refused)) = Err (gateway_timeout "connect timeout") /\
  actors (snd (fst refused)) = ∅ /\ tunnel_permits (snd (fst refused)) = 4 /\
  check toy_stream (stream_registry (snd (fst refused))) = QConsumed.
Proof.
  split; [vm_compute; reflexivity|].
  destruct (refused_leaves_no_trace (P := toy_aead) toy_aead_laws toy_uuid_laws toy_crypto_laws toy_base122_laws (K := toy_cache)
    toy_server toy_key refused_headers (BodyBytes []) (mkSetupEnv (fun _ _ => ConnectTimeout) [] 1 (fun _ => true) toy_draw)
    refused_upload 0 1000 1001 toy_server_draws toy_live_state toy_empty (fst (fst (fst refused))) (snd (fst (fst refused)))
    (snd (fst refused)) (snd refused)) as (_ & _ & H).
  - intros pk rnd ct ss [= <- _]. by apply zlen_pad_to.
  - reflexivity.
  - apply low_draw_ok.
  - reflexivity.
  - vm_compute. split; congruence.
  - apply map_Forall_empty.
  - unfold refused. by destruct (dispatch_request _ _ _ _ _ _ _ _ _ _ _ _) as [[[? ?] ?] ?].
  - destruct H as (Ha & Hp & _); [vm_compute; reflexivity|]. split; [exact Ha|]. split; [exact Hp|vm_compute; reflexivity].
Defined.
