(* ===== verification/UploadLoop.v ===== *)
(** * The client's upload loop

    The early data of a tunnel ([encode_initial_payload] of
    [src/client/utils.rs]) and [UploadLoopActor]
    ([src/client/actor/upload_loop.rs]), which batches the shaper's frames into
    POST requests under two semaphores. The completions of the requests and the
    surroundings of each poll are scripts. *)

From S2P Require Import Prelude Cipher Frame Shaper Decoder.

Definition MAX_BATCH_BYTES : Z := 1024 * 1024.
Definition MIN_IN_FLIGHT_BYTES : Z := 20 * 1024.

(** ** The early data *)

Section payload.
Context `{C : FrameCipher} `{B : Base122}.

(** The [while offset < data_to_send.len()] loop; [nonces] by frame number.
    [None] only when [fuel] runs out. *)
Fixpoint initial_loop (fuel : nat) (nonces : Z -> bytes) (draw : Z -> Z -> Z) (config : TrafficConfig)
    (data : bytes) (offset seq : Z) (body : bytes) : option (Res IoError (bytes * Z)) :=
  match fuel with
  | O => None
  | S fuel =>
      if offset <? zlen data then
        let chunk_end := Z.min (offset + frame_raw_limit (encoding_type config)) (zlen data) in
        let chunk := slice offset chunk_end data in
        match encode_frame_into (nonces seq) draw chunk seq (padding_threshold (global config))
                (padding_range (global config)) (encoding_type config) body with
        | Ok body => initial_loop fuel nonces draw config data chunk_end (seq + 1) body
        | Err e => Some (Err e)
        | Panic => Some Panic
        end
      else Some (Ok (body, seq))
  end.

(** The encoded frames, what is left of the payload, and the frames' number. *)
Definition encode_initial_payload (nonces : Z -> bytes) (draw : Z -> Z -> Z) (initial_payload : bytes)
    (max_bytes : Z) (config : TrafficConfig) : option (Res IoError (bytes * bytes * Z)) :=
  let take_len := Z.min (zlen initial_payload) max_bytes in
  let data_to_send := ztake take_len initial_payload in
  let remaining := if take_len <? zlen initial_payload then zdrop take_len initial_payload else [] in
  r ← initial_loop (S (length data_to_send)) nonces draw config data_to_send 0 0 [];
  Some (let? (body, seq) := r in Ok (body, remaining, seq)).
End payload.

(** ** The actor *)

Inductive JoinResult : Type := JoinOk | JoinErr | JoinPanic.

(** A request in flight: the byte permits it holds and its body. *)
Definition UploadTask : Type := Z * bytes.

(** [posted] lists the bodies of all requests so far. *)
Record UploadLoop : Type := mkLoop {
  shaped : TrafficShaper;
  request_permits : Z;
  bytes_permits : Z;
  max_batch_bytes : Z;
  max_in_flight_bytes : Z;
  in_flight : list UploadTask;
  finished : list JoinResult;
  posted : list bytes
}.

Inductive UploadLoopPhase : Type := UBatching (batch_buf : bytes) | UDraining (inflight : Z) | UDone.

(** [AsyncReadExt::chain] of a cursor over [initial] and a reader. *)
Definition chain_reader (initial : bytes) (rd : list ReadEvent) : list ReadEvent :=
  match initial with [] => rd | _ => RdData initial :: rd end.

(** [Semaphore::new] panics above [Semaphore::MAX_PERMITS], [usize::MAX >> 3]. *)
Definition MAX_PERMITS : Z := 2 ^ 61 - 1.
Definition semaphore_new (permits : Z) : Res string Z := if permits <=? MAX_PERMITS then Ok permits else Panic.

(** The actor, when its semaphores can be made. *)
Definition new_upload_loop (upload_concurrency max_in_flight : Z) (config : ResolvedShaperConfig)
    (initial_payload : bytes) (rd : list ReadEvent) (start_seq now word : Z) : UploadLoop :=
  let frame_headroom := max_encoded_frame_len (cfg_encoding config) in
  mkLoop (with_seq (chain_reader initial_payload rd) config start_seq now word)
    upload_concurrency max_in_flight
    (Z.max 1 (Z.min MAX_BATCH_BYTES (saturating_sub max_in_flight frame_headroom)))
    max_in_flight [] [] [].

Definition UploadLoopActor_new (upload_concurrency max_in_flight : Z) (config : ResolvedShaperConfig)
    (initial_payload : bytes) (rd : list ReadEvent) (start_seq now word : Z) : Res string UploadLoop :=
  let? _ := semaphore_new upload_concurrency in
  let? _ := semaphore_new max_in_flight in
  Ok (new_upload_loop upload_concurrency max_in_flight config initial_payload rd start_seq now word).

Definition set_shaped (this : UploadLoop) (s : TrafficShaper) : UploadLoop :=
  mkLoop s (request_permits this) (bytes_permits this) (max_batch_bytes this) (max_in_flight_bytes this)
    (in_flight this) (finished this) (posted this).

Definition set_finished (this : UploadLoop) (f : list JoinResult) : UploadLoop :=
  mkLoop (shaped this) (request_permits this) (bytes_permits this) (max_batch_bytes this)
    (max_in_flight_bytes this) (in_flight this) f (posted this).

(** The [k]-th request in flight ends: its guards return both permits. *)
Definition finish_task (k : nat) (r : JoinResult) (this : UploadLoop) : UploadLoop :=
  match in_flight this !! k with
  | Some (permits, _) =>
      mkLoop (shaped this) (request_permits this + 1) (bytes_permits this + permits) (max_batch_bytes this)
        (max_in_flight_bytes this) (delete k (in_flight this)) (finished this ++ [r]) (posted this)
  | None => this
  end.

(** What happens while the actor waits in [select!]. *)
Inductive SelectEvent : Type :=
| SelSeal (env : PollEnv)
| SelJoin
| SelFinish (k : nat) (r : JoinResult).

Inductive Selected : Type :=
| Sealed (batch_buf : bytes)
| StreamEnd
| SealFailed (e : IoError)
| SealPanicked
| Joined (r : JoinResult).

Record BatchEnv : Type := mkBatchEnv {
  be_select : list SelectEvent;
  be_fill : nat -> PollEnv;
  be_request : list (nat * JoinResult);
  be_bytes : list (nat * JoinResult);
  be_after : list (nat * JoinResult)
}.

(** At the end of its script the actor may still wait: [UIdle] for data or a
    request, [UBlocked] for a permit, [UWaiting] for the last requests. *)
Inductive BatchStep : Type :=
| UNext (p : UploadLoopPhase) | UFailed (m : string) | UPanicked | UIdle | UBlocked | UWaiting.

Definition join_error (r : JoinResult) : option string :=
  match r with
  | JoinOk => None
  | JoinErr => Some "upload POST failed"
  | JoinPanic => Some "upload task panicked"
  end.

(** Requests end until the permits suffice. *)
Fixpoint wait_until (enough : UploadLoop -> bool) (evs : list (nat * JoinResult)) (this : UploadLoop)
    : bool * UploadLoop :=
  if enough this then (true, this)
  else match evs with
       | [] => (false, this)
       | (k, r) :: evs => wait_until enough evs (finish_task k r this)
       end.

Definition apply_finishes (evs : list (nat * JoinResult)) (this : UploadLoop) : UploadLoop :=
  foldl (fun t e => finish_task (fst e) (snd e) t) this evs.

(** The [try_join_next] loop: the first error, if any, and what is left. *)
Fixpoint try_join_all (fs : list JoinResult) : option string * list JoinResult :=
  match fs with
  | [] => (None, [])
  | r :: fs => match join_error r with None => try_join_all fs | Some m => (Some m, fs) end
  end.

Section upload_loop.
Context `{C : FrameCipher} `{B : Base122}.
Context (jitter_table : Z -> Z).

(** The [select!] of the sealing of a first frame and the next ended request. *)
Fixpoint select_seal (evs : list SelectEvent) (this : UploadLoop) : option Selected * UploadLoop :=
  match evs with
  | [] => (None, this)
  | SelFinish k r :: evs => select_seal evs (finish_task k r this)
  | SelJoin :: evs =>
      match finished this with
      | r :: rest => (Some (Joined r), set_finished this rest)
      | [] => select_seal evs this
      end
  | SelSeal env :: evs =>
      match poll_fill_and_seal jitter_table env (shaped this) [] with
      | Some (Ready (Ok (Some (_, out))), s) => (Some (Sealed out), set_shaped this s)
      | Some (Ready (Ok None), s) => (Some StreamEnd, set_shaped this s)
      | Some (Ready (Err e), s) => (Some (SealFailed e), set_shaped this s)
      | Some (Pending, s) => select_seal evs (set_shaped this s)
      | _ => (Some SealPanicked, this)
      end
  end.

(** The loop that fills the batch without waiting: whether the stream ended,
    and the batch. [None] only when [fuel] runs out. *)
Fixpoint fill_loop (fuel : nat) (envs : nat -> PollEnv) (batch_buf : bytes) (this : UploadLoop)
    : option (Res IoError (bool * bytes) * UploadLoop) :=
  match fuel with
  | O => None
  | S fuel =>
      if zlen batch_buf <? max_batch_bytes this then
        match poll_fill_and_seal jitter_table (envs fuel) (shaped this) batch_buf with
        | Some (Ready (Ok (Some (_, out))), s) => fill_loop fuel envs out (set_shaped this s)
        | Some (Ready (Ok None), s) => Some (Ok (true, batch_buf), set_shaped this s)
        | Some (Ready (Err e), s) => Some (Err e, set_shaped this s)
        | Some (Pending, s) => Some (Ok (false, batch_buf), set_shaped this s)
        | _ => Some (Panic, this)
        end
      else Some (Ok (false, batch_buf), this)
  end.

(** Every round but the last adds a byte to the batch. *)
Definition fill_fuel (this : UploadLoop) : nat := S (Z.to_nat (max_batch_bytes this)).

(** The POST of a non-empty batch and the collection of ended requests. *)
Definition post_batch (env : BatchEnv) (stream_ended : bool) (batch_buf : bytes) (this : UploadLoop)
    : BatchStep * UploadLoop :=
  match wait_until (fun t => 0 <? request_permits t) (be_request env) this with
  | (false, this) => (UBlocked, this)
  | (true, this) =>
      let permit_bytes := as_u32 (Z.max 1 (Z.min (zlen batch_buf) (max_in_flight_bytes this))) in
      let took := mkLoop (shaped this) (request_permits this - 1) (bytes_permits this) (max_batch_bytes this)
                    (max_in_flight_bytes this) (in_flight this) (finished this) (posted this) in
      match wait_until (fun t => permit_bytes <=? bytes_permits t) (be_bytes env) took with
      | (false, this) => (UBlocked, this)
      | (true, this) =>
          let this := mkLoop (shaped this) (request_permits this) (bytes_permits this - permit_bytes)
                        (max_batch_bytes this) (max_in_flight_bytes this)
                        (in_flight this ++ [(permit_bytes, batch_buf)]) (finished this)
                        (posted this ++ [batch_buf]) in
          let this := apply_finishes (be_after env) this in
          let '(failed, rest) := try_join_all (finished this) in
          let this := set_finished this rest in
          match failed with
          | Some m => (UFailed m, this)
          | None =>
              (UNext (if stream_ended
                      then UDraining (zlen (in_flight this) + zlen (finished this))
                      else UBatching []), this)
          end
      end
  end.

(** After the first frame: filling, then the POST. *)
Definition fill_and_post (env : BatchEnv) (batch_buf : bytes) (stream_ended : bool) (this : UploadLoop)
    : BatchStep * UploadLoop :=
  match (if stream_ended then Some (Ok (true, batch_buf), this)
         else fill_loop (fill_fuel this) (be_fill env) batch_buf this) with
  | Some (Ok (stream_ended, batch_buf), this) =>
      match batch_buf with
      | [] =>
          (UNext (if stream_ended
                  then UDraining (zlen (in_flight this) + zlen (finished this))
                  else UBatching []), this)
      | _ => post_batch env stream_ended batch_buf this
      end
  | Some (Err e, this) => (UFailed (msg e), this)
  | _ => (UPanicked, this)
  end.

Definition do_batching (env : BatchEnv) (batch_buf : bytes) (this : UploadLoop) : BatchStep * UploadLoop :=
  match batch_buf with
  | [] =>
      match select_seal (be_select env) this with
      | (None, this) => (UIdle, this)
      | (Some (Sealed out), this) => fill_and_post env out false this
      | (Some StreamEnd, this) => fill_and_post env [] true this
      | (Some (SealFailed e), this) => (UFailed (msg e), this)
      | (Some SealPanicked, this) => (UPanicked, this)
      | (Some (Joined r), this) =>
          match join_error r with
          | None => fill_and_post env [] false this
          | Some m => (UFailed m, this)
          end
      end
  | _ => fill_and_post env batch_buf false this
  end.

(** [do_drain], once no more requests end. *)
Fixpoint do_drain (inflight : nat) (this : UploadLoop) : BatchStep * UploadLoop :=
  match inflight with
  | O => (UNext UDone, this)
  | S inflight =>
      match finished this, in_flight this with
      | r :: rest, _ =>
          let this := set_finished this rest in
          match join_error r with
          | None => do_drain inflight this
          | Some m => (UFailed m, this)
          end
      | [], [] => (UNext UDone, this)
      | [], _ => (UWaiting, this)
      end
  end.

(** [run]: a script of batching rounds, then the requests that end while it
    drains. *)
Fixpoint upload_loop_run (envs : list BatchEnv) (drain : list (nat * JoinResult)) (phase : UploadLoopPhase)
    (this : UploadLoop) : BatchStep * UploadLoop :=
  match phase with
  | UBatching batch_buf =>
      match envs with
      | [] => (UIdle, this)
      | env :: envs =>
          match do_batching env batch_buf this with
          | (UNext phase, this) => upload_loop_run envs drain phase this
          | r => r
          end
      end
  | UDraining inflight => do_drain (Z.to_nat inflight) (apply_finishes drain this)
  | UDone => (UNext UDone, this)
  end.
End upload_loop.

(** ** Lemmas: the early data *)

Section payload_proofs.
Context `{C : FrameCipher} {L : FrameCipherLaws C} `{B : Base122} {BL : Base122Laws B}.

Lemma initial_loop_ok fuel nonces draw config data offset seq body :
  (forall q, zlen (nonces q) = NONCE_LEN) -> draw_ok draw -> range_ok (padding_range (global config)) ->
  0 <= offset <= zlen data -> 0 <= seq -> seq + (zlen data - offset) < u64_max ->
  zlen data - offset < Z.of_nat fuel ->
  exists datas stream,
    initial_loop fuel nonces draw config data offset seq body = Some (Ok (body ++ stream, seq + zlen datas)) /\
    frames_from (encoding_type config) seq datas stream /\ concat datas = zdrop offset data /\
    Forall (fun d => d <> []) datas.
Proof.
  intros Hn Hd Hr. revert offset seq body. induction fuel as [|fuel IH]; intros offset seq body Ho Hs Hmax Hf; [lia|].
  cbn [initial_loop]. destruct (Z.ltb_spec offset (zlen data)) as [Hlt|Hge].
  2:{ exists [], []. rewrite app_nil_r, Z.add_0_r. split; [done|]. split; [done|]. split; [|done].
      by rewrite zdrop_all by lia. }
  set (lim := frame_raw_limit (encoding_type config)).
  assert (Hlim : 0 < lim) by (pose proof (seal_threshold_limit (encoding_type config)); unfold lim; lia).
  set (e := Z.min (offset + lim) (zlen data)). set (chunk := slice offset e data).
  assert (Hchunk : zlen chunk = e - offset) by (unfold chunk, e; rewrite zlen_slice; lia).
  destruct (encode_frame_into_wire (nonces seq) draw chunk seq (padding_threshold (global config))
    (padding_range (global config)) (encoding_type config) body (Hn seq) Hd Hr) as (pad & ct & -> & Hp & Hsum & _ & _ & Hct & Hop);
    [fold lim; unfold e in *; lia|].
  destruct (IH e (seq + 1) (body ++ wire (encoding_type config) ct)) as (datas & stream & -> & Hfr & Hcat & Hne);
    [unfold e in *; lia..|].
  exists (chunk :: datas), (wire (encoding_type config) ct ++ stream). rewrite zlen_cons, <- app_assoc.
  split; [do 3 f_equal; lia|]. split.
  - exists (wire (encoding_type config) ct), stream. split; [done|]. split; [|done].
    exists pad, ct. split_and!; try done; lia.
  - split; [|constructor; [|done]].
    + cbn [concat]. rewrite Hcat. unfold chunk. rewrite (slice_zdrop offset e) by (unfold e; lia). done.
    + intros Hnil. rewrite Hnil in Hchunk. change (0 = e - offset) in Hchunk. unfold e in *. lia.
Qed.

Lemma encode_initial_payload_ok nonces draw payload max_bytes config :
  (forall q, zlen (nonces q) = NONCE_LEN) -> draw_ok draw -> range_ok (padding_range (global config)) ->
  0 <= max_bytes -> zlen payload < u64_max ->
  exists datas stream,
    encode_initial_payload nonces draw payload max_bytes config =
      Some (Ok (stream, zdrop (Z.min (zlen payload) max_bytes) payload, zlen datas)) /\
    frames_from (encoding_type config) 0 datas stream /\
    concat datas = ztake (Z.min (zlen payload) max_bytes) payload /\ Forall (fun d => d <> []) datas.
Proof.
  intros Hn Hd Hr Hm Hu. unfold encode_initial_payload. set (k := Z.min _ _). pose proof (zlen_nonneg payload).
  assert (Hk : zlen (ztake k payload) = k) by (rewrite zlen_ztake; lia).
  destruct (initial_loop_ok (S (length (ztake k payload))) nonces draw config (ztake k payload) 0 0 [])
    as (datas & stream & -> & Hf & Hcat & Hne); try done; [lia..|unfold zlen in *; lia|].
  exists datas, stream. rewrite zdrop_0 in Hcat. split; [|done].
  change (mbind ?f (Some ?x)) with (f x). cbn [res_bind app]. do 3 f_equal. f_equal.
  destruct (Z.ltb_spec k (zlen payload)); [done|]. by rewrite zdrop_all by lia.
Qed.
End payload_proofs.

(** ** Lemmas: what the loop posts *)

Section stream_proofs.
Context `{C : FrameCipher} {L : FrameCipherLaws C} `{B : Base122} {BL : Base122Laws B}.
Context (jitter_table : Z -> Z).
Variables (enc : EncodingType) (start : Z) (total : bytes).

(** The bodies posted and the batch at hand carry what the shaper gave out. *)
Definition carries (batch : bytes) (this : UploadLoop) : Prop :=
  exists groups cur, bodies_from enc start groups (posted this) /\
    frames_from enc (start + zlen (concat groups)) cur batch /\
    carried enc start total (concat groups ++ cur) (shaped this).

Lemma carries_ext batch t this :
  shaped t = shaped this -> posted t = posted this -> carries batch this -> carries batch t.
Proof. unfold carries. by intros -> ->. Qed.

Lemma finish_task_same k r this :
  shaped (finish_task k r this) = shaped this /\ posted (finish_task k r this) = posted this.
Proof. unfold finish_task. by destruct (in_flight this !! k) as [[? ?]|]. Qed.

Lemma carries_finish batch k r this : carries batch this -> carries batch (finish_task k r this).
Proof. destruct (finish_task_same k r this). by apply carries_ext. Qed.

(** One poll of the shaper with the batch as its output. *)
Lemma carries_poll env batch this :
  start + zlen total < u64_max -> env_ok env -> carries batch this ->
  exists r s, poll_fill_and_seal jitter_table env (shaped this) batch = Some (r, s) /\
    match r with
    | Ready (Ok (Some (_, out))) => carries out (set_shaped this s) /\
        zlen batch < zlen out <= zlen batch + max_encoded_frame_len enc
    | Ready (Ok None) => carries batch (set_shaped this s) /\ backlog s = []
    | Ready Panic => False
    | _ => carries batch (set_shaped this s)
    end.
Proof.
  intros Hmax He (groups & cur & Hb & Hf & Hc).
  destruct (carried_poll jitter_table enc start total env batch _ _ Hmax He Hc) as (r & s & Hp & Hr).
  exists r, s. split; [exact Hp|]. destruct r as [[[[sq out]|]|e|]|].
  - destruct Hr as (data & w & -> & Hw & Hc'). split.
    + exists groups, (cur ++ [data]). split; [done|]. rewrite (app_assoc (concat groups)). split; [|done].
      apply frames_from_app; [done|]. apply frames_from_one. rewrite zlen_app in Hw. by rewrite Z.add_assoc in Hw.
    + apply is_frame_len in Hw. rewrite zlen_app. lia.
  - destruct Hr. split; [|done]. by exists groups, cur.
  - by exists groups, cur.
  - done.
  - by exists groups, cur.
Qed.

(** *** The permits *)

Variables (conc maxif : Z).

Definition permits_out (l : list UploadTask) : Z := foldr (fun t acc => fst t + acc) 0 l.
Definition bytes_out (l : list UploadTask) : Z := foldr (fun t acc => zlen (snd t) + acc) 0 l.

(** A batch small enough to be covered by its permits. *)
Definition batch_limit : Z := Z.max 1 (Z.min MAX_BATCH_BYTES (saturating_sub maxif (max_encoded_frame_len enc))).
Definition batch_fits (batch : bytes) : Prop := zlen batch < batch_limit + max_encoded_frame_len enc.

(** The permits free and taken; [held] is 1 while a request permit is held for
    the next request. *)
Definition budget (held : Z) (this : UploadLoop) : Prop :=
  0 <= request_permits this /\ request_permits this + zlen (in_flight this) + held = conc /\
  0 <= bytes_permits this /\ bytes_permits this + permits_out (in_flight this) = maxif /\
  Forall (fun t => 1 <= fst t /\ (max_encoded_frame_len enc < maxif -> fst t = zlen (snd t))) (in_flight this) /\
  max_in_flight_bytes this = maxif /\
  max_batch_bytes this = batch_limit.

Lemma permits_out_app a b : permits_out (a ++ b) = permits_out a + permits_out b.
Proof. unfold permits_out. induction a as [|t a IH]; cbn [app foldr]; lia. Qed.

Lemma budget_finish held k r this : budget held this -> budget held (finish_task k r this).
Proof.
  intros (H1 & H2 & H3 & H4 & H5 & H6 & H7). unfold finish_task.
  destruct (in_flight this !! k) as [[p b]|] eqn:E; [|done].
  apply list_elem_of_split_length in E as (l1 & l2 & E & ->). unfold budget. cbn. rewrite E in *.
  rewrite delete_middle. rewrite zlen_app, zlen_cons in H2. rewrite permits_out_app in H4.
  change (permits_out ((p, b) :: l2)) with (p + permits_out l2) in H4.
  rewrite Forall_app, Forall_cons in H5. destruct H5 as (Ha & [Hp _] & Hb). cbn in Hp.
  rewrite zlen_app, permits_out_app, Forall_app. split_and!; try done; lia.
Qed.

Lemma wait_until_kept (Q : UploadLoop -> Prop) enough evs this b t :
  (forall k r u, Q u -> Q (finish_task k r u)) ->
  wait_until enough evs this = (b, t) -> Q this -> Q t /\ enough t = b.
Proof.
  intros HQ. revert this. induction evs as [|[k r] evs IH]; intros this; cbn [wait_until];
    destruct (enough this) eqn:E; try (intros [= <- <-]; auto; done).
  intros Hw Hq. apply (IH _ Hw). by apply HQ.
Qed.

Lemma apply_finishes_kept (Q : UploadLoop -> Prop) evs this :
  (forall k r u, Q u -> Q (finish_task k r u)) -> Q this -> Q (apply_finishes evs this).
Proof. intros HQ. revert this. induction evs as [|e evs IH]; intros this H; cbn; [done|]. apply IH. by apply HQ. Qed.

Lemma permits_out_pos l : 0 < permits_out l -> l <> [].
Proof. by intros H ->. Qed.

(** What holds between the rounds of the loop. *)
Definition loop_ok (held : Z) (batch : bytes) (this : UploadLoop) : Prop := carries batch this /\ budget held this.

Lemma loop_ok_finish held batch k r this : loop_ok held batch this -> loop_ok held batch (finish_task k r this).
Proof. intros [? ?]. split; [by apply carries_finish|by apply budget_finish]. Qed.

Lemma loop_ok_finished held batch f this : loop_ok held batch this -> loop_ok held batch (set_finished this f).
Proof. intros [? ?]. split; [by eapply carries_ext|done]. Qed.

(** The state after a round: what the script left it waiting for has a reason. *)
Definition round_ok (r : BatchStep) (this : UploadLoop) : Prop :=
  (exists held batch, 0 <= held <= 1 /\ loop_ok held batch this) /\
  match r with
  | UNext (UBatching batch) => batch = [] /\ loop_ok 0 [] this
  | UNext (UDraining _) | UNext UDone => loop_ok 0 [] this /\ backlog (shaped this) = []
  | UBlocked => in_flight this <> []
  | UPanicked => False
  | _ => True
  end.

Hypothesis (Hmax : start + zlen total < u64_max) (Hconc : 1 <= conc) (Hmaxif : 1 <= maxif).

Lemma loop_ok_shaped held batch batch' this s :
  carries batch' (set_shaped this s) -> loop_ok held batch this -> loop_ok held batch' (set_shaped this s).
Proof. intros Hc [_ Hb]. by split. Qed.

Definition sel_ok (e : SelectEvent) : Prop := match e with SelSeal env => env_ok env | _ => True end.

Lemma select_seal_ok evs this :
  Forall sel_ok evs -> loop_ok 0 [] this ->
  let '(r, t) := select_seal jitter_table evs this in
  match r with
  | Some (Sealed out) => loop_ok 0 out t /\ batch_fits out
  | Some StreamEnd => loop_ok 0 [] t /\ backlog (shaped t) = []
  | Some SealPanicked => False
  | _ => loop_ok 0 [] t
  end.
Proof.
  intros He. revert this. induction He as [|ev evs Hev _ IH]; intros this Hok; cbn [select_seal]; [done|].
  destruct ev as [env| |k r].
  - destruct (carries_poll env [] this Hmax Hev (proj1 Hok)) as (r & s & -> & Hr).
    destruct r as [[[[sq out]|]|e|]|].
    + destruct Hr as [Hc Hl]. split; [by eapply loop_ok_shaped|]. unfold batch_fits, batch_limit.
      change (zlen []) with 0 in Hl. lia.
    + destruct Hr as [Hc Hl]. split; [by eapply loop_ok_shaped|done].
    + by eapply loop_ok_shaped.
    + done.
    + apply IH. by eapply loop_ok_shaped.
  - destruct (finished this); [by apply IH|]. by apply loop_ok_finished.
  - apply IH. by apply loop_ok_finish.
Qed.

Lemma fill_loop_ok fuel envs batch this :
  (forall n, env_ok (envs n)) -> loop_ok 0 batch this -> batch_fits batch ->
  batch_limit - zlen batch < Z.of_nat fuel -> (0 < fuel)%nat ->
  exists r t, fill_loop jitter_table fuel envs batch this = Some (r, t) /\
    match r with
    | Ok (ended, b) => loop_ok 0 b t /\ batch_fits b /\ (ended = true -> backlog (shaped t) = [])
    | Err _ => exists b, loop_ok 0 b t
    | Panic => False
    end.
Proof.
  intros He. revert batch this. induction fuel as [|fuel IH]; intros batch this Hok Hfit Hf H0; [lia|].
  cbn [fill_loop]. assert (Hb : max_batch_bytes this = batch_limit) by apply Hok. rewrite Hb.
  destruct (Z.ltb_spec (zlen batch) batch_limit); [|by eexists _, _].
  destruct (carries_poll (envs fuel) batch this Hmax (He fuel) (proj1 Hok)) as (r & s & -> & Hr).
  destruct r as [[[[sq out]|]|e|]|].
  - destruct Hr as [Hc Hl]. apply IH; [by eapply loop_ok_shaped|unfold batch_fits; lia|lia|].
    destruct fuel; [|lia]. lia.
  - destruct Hr as [Hc Hl]. eexists _, _. split; [done|]. split; [by eapply loop_ok_shaped|done].
  - eexists _, _. split; [done|]. exists batch. by eapply loop_ok_shaped.
  - done.
  - eexists _, _. split; [done|]. split; [by eapply loop_ok_shaped|done].
Qed.

Lemma carries_post batch this t :
  shaped t = shaped this -> posted t = posted this ++ [batch] -> carries batch this -> carries [] t.
Proof.
  unfold carries. intros -> -> (groups & cur & Hb & Hf & Hc). exists (groups ++ [cur]), [].
  rewrite concat_app. cbn [concat]. rewrite !app_nil_r. split; [by apply bodies_from_snoc|]. by split.
Qed.

Lemma posted_permits batch :
  batch <> [] -> batch_fits batch ->
  let p := as_u32 (Z.max 1 (Z.min (zlen batch) maxif)) in
  1 <= p <= maxif /\ (max_encoded_frame_len enc < maxif -> p = zlen batch).
Proof.
  intros Hne Hf p. assert (Hp : p = Z.max 1 (Z.min (zlen batch) maxif)).
  { unfold p, as_u32. apply Z.mod_small. unfold batch_fits, batch_limit, MAX_BATCH_BYTES in Hf. unfold u32_max.
    assert (max_encoded_frame_len enc < 2 ^ 31) by (by destruct enc). lia. }
  clearbody p. subst p. split; [lia|]. intros Hm.
  assert (0 < zlen batch) by (destruct batch; [done|]; rewrite zlen_cons; pose proof (zlen_nonneg batch); lia).
  unfold batch_fits, batch_limit, saturating_sub in Hf. lia.
Qed.

Definition took_request (this : UploadLoop) : UploadLoop :=
  mkLoop (shaped this) (request_permits this - 1) (bytes_permits this) (max_batch_bytes this)
    (max_in_flight_bytes this) (in_flight this) (finished this) (posted this).

Definition started (permit_bytes : Z) (batch : bytes) (this : UploadLoop) : UploadLoop :=
  mkLoop (shaped this) (request_permits this) (bytes_permits this - permit_bytes) (max_batch_bytes this)
    (max_in_flight_bytes this) (in_flight this ++ [(permit_bytes, batch)]) (finished this) (posted this ++ [batch]).

Lemma loop_ok_took batch this : loop_ok 0 batch this -> 0 < request_permits this -> loop_ok 1 batch (took_request this).
Proof.
  intros [Hc (H1 & H2 & H3)] Hp. split; [by eapply carries_ext|]. split; [cbn; lia|]. split; [cbn; lia|exact H3].
Qed.

Lemma loop_ok_started permit_bytes batch this :
  loop_ok 1 batch this -> 1 <= permit_bytes <= bytes_permits this ->
  (max_encoded_frame_len enc < maxif -> permit_bytes = zlen batch) ->
  loop_ok 0 [] (started permit_bytes batch this).
Proof.
  intros [Hc (H1 & H2 & H3 & H4 & H5 & H6 & H7)] Hp Hz. split; [exact (carries_post batch this (started permit_bytes batch this) eq_refl eq_refl Hc)|].
  unfold budget. cbn. rewrite zlen_app, permits_out_app, Forall_app.
  change (zlen [(permit_bytes, batch)]) with 1. change (permits_out [(permit_bytes, batch)]) with (permit_bytes + 0).
  split_and!; try done; try lia. repeat constructor; cbn; [lia|done].
Qed.

Lemma post_batch_ok env ended batch this :
  loop_ok 0 batch this -> batch <> [] -> batch_fits batch -> (ended = true -> backlog (shaped this) = []) ->
  let '(r, t) := post_batch env ended batch this in round_ok r t.
Proof.
  intros Hok Hne Hfit Hend. unfold post_batch. destruct (posted_permits batch Hne Hfit) as [Hp Hz].
  assert (Hkeep : forall held k r u, loop_ok held batch u /\ shaped u = shaped this ->
    loop_ok held batch (finish_task k r u) /\ shaped (finish_task k r u) = shaped this).
  { intros held k r u [? <-]. split; [by apply loop_ok_finish|apply finish_task_same]. }
  destruct (wait_until _ (be_request env) this) as [b1 t1] eqn:E1.
  apply (wait_until_kept (fun u => loop_ok 0 batch u /\ shaped u = shaped this)) in E1 as [[Hok1 Hs1] Hb1];
    [|apply Hkeep|done].
  destruct b1.
  2:{ split; [exists 0, batch; split; [lia|done]|]. destruct Hok1 as [_ (? & H2 & _)].
      intros Hn. rewrite Hn in H2. change (zlen []) with 0 in H2. lia. }
  assert (Hm1 : max_in_flight_bytes t1 = maxif) by apply Hok1.
  set (pb := as_u32 (Z.max 1 (Z.min (zlen batch) maxif))) in *.
  assert (Hpb : as_u32 (Z.max 1 (Z.min (zlen batch) (max_in_flight_bytes t1))) = pb) by (by rewrite Hm1).
  cbv zeta. rewrite Hpb. fold (took_request t1).
  destruct (wait_until _ (be_bytes env) _) as [b2 t2] eqn:E2.
  apply (wait_until_kept (fun u => loop_ok 1 batch u /\ shaped u = shaped this)) in E2 as [[Hok2 Hs2] Hb2];
    [|apply Hkeep|split; [apply loop_ok_took; [done|lia]|done]].
  destruct b2.
  2:{ split; [exists 1, batch; split; [lia|done]|]. destruct Hok2 as [_ (_ & _ & ? & H4 & _)].
      apply permits_out_pos. lia. }
  fold (started pb batch t2).
  assert (Hok3 : loop_ok 0 [] (started pb batch t2)) by (apply loop_ok_started; [done|lia|done]).
  pose proof (apply_finishes_kept (fun u => loop_ok 0 [] u /\ shaped u = shaped this) (be_after env) (started pb batch t2))
    as Hok4. destruct Hok4 as [Hok4 Hs4].
  { intros k r u [? <-]. split; [by apply loop_ok_finish|apply finish_task_same]. }
  { by split. }
  destruct (try_join_all _) as [failed rest].
  assert (Hok5 := loop_ok_finished _ _ rest _ Hok4).
  destruct failed; (split; [exists 0, []; split; [lia|exact Hok5]|]); [done|].
  destruct ended; [|by split]. split; [done|]. cbn [set_finished shaped]. rewrite Hs4. by apply Hend.
Qed.

Lemma fill_and_post_ok env ended batch this :
  (forall n, env_ok (be_fill env n)) -> loop_ok 0 batch this -> batch_fits batch ->
  (ended = true -> batch = [] /\ backlog (shaped this) = []) ->
  let '(r, t) := fill_and_post jitter_table env batch ended this in round_ok r t.
Proof.
  intros He Hok Hfit Hend. unfold fill_and_post.
  assert (Hgo : exists r t, (if ended then Some (Ok (true, batch), this)
      else fill_loop jitter_table (fill_fuel this) (be_fill env) batch this) = Some (r, t) /\
    match r with
    | Ok (e, b) => loop_ok 0 b t /\ batch_fits b /\ (e = true -> backlog (shaped t) = [])
    | Err _ => exists b, loop_ok 0 b t
    | Panic => False
    end).
  { destruct ended.
    - eexists _, _. split; [done|]. split; [done|]. split; [done|]. intros _. by apply Hend.
    - assert (Hm : max_batch_bytes this = batch_limit) by apply Hok.
      apply fill_loop_ok; try done; unfold fill_fuel; rewrite ?Hm; pose proof (zlen_nonneg batch);
        unfold batch_limit; lia. }
  destruct Hgo as (r & t & -> & Hr). destruct r as [[e b]|e|]; [|by split; [destruct Hr as [b Hb]; exists 0, b|]|done].
  destruct Hr as (Hok' & Hfit' & He'). destruct b as [|x b]; [|apply post_batch_ok; done].
  split; [exists 0, []; split; [lia|done]|]. destruct e; [|done]. split; [done|by apply He'].
Qed.

Definition batch_env_ok (env : BatchEnv) : Prop :=
  Forall sel_ok (be_select env) /\ forall n, env_ok (be_fill env n).

Lemma batch_fits_nil : batch_fits [].
Proof. unfold batch_fits, batch_limit. change (zlen []) with 0. pose proof (max_encoded_frame_len_pos enc). lia. Qed.

Lemma do_batching_ok env this :
  batch_env_ok env -> loop_ok 0 [] this ->
  let '(r, t) := do_batching jitter_table env [] this in round_ok r t.
Proof.
  intros [Hs He] Hok. unfold do_batching. pose proof (select_seal_ok (be_select env) this Hs Hok) as Hsel.
  destruct (select_seal _ _ _) as [sel t].
  assert (Hback : loop_ok 0 [] t -> exists held batch, 0 <= held <= 1 /\ loop_ok held batch t)
    by (intros ?; exists 0, []; split; [lia|done]).
  destruct sel as [[out| |e| |r]|]; try done; try (by split; [apply Hback|]).
  - destruct Hsel as [Hok' Hfit]. by apply fill_and_post_ok.
  - destruct Hsel as [Hok' Hb]. apply fill_and_post_ok; [done|done|apply batch_fits_nil|done].
  - destruct (join_error r); [by split; [apply Hback|]|]. apply fill_and_post_ok; [done|done|apply batch_fits_nil|done].
Qed.

Lemma do_drain_ok n this :
  loop_ok 0 [] this -> backlog (shaped this) = [] ->
  let '(r, t) := do_drain n this in round_ok r t.
Proof.
  revert this. induction n as [|n IH]; intros this Hok Hb; cbn [do_drain];
    (assert (Hr : exists held batch, 0 <= held <= 1 /\ loop_ok held batch this) by (exists 0, []; split; [lia|done])).
  { split; [done|by split]. }
  destruct (finished this) as [|r rest]; [destruct (in_flight this); by split|].
  pose proof (loop_ok_finished _ _ rest _ Hok) as Hok'. destruct (join_error r); [|by apply IH].
  split; [|done]. exists 0, []. split; [lia|done].
Qed.

Lemma upload_loop_run_ok envs drain phase this :
  Forall batch_env_ok envs -> loop_ok 0 [] this ->
  match phase with UBatching batch => batch = [] | _ => backlog (shaped this) = [] end ->
  let '(r, t) := upload_loop_run jitter_table envs drain phase this in round_ok r t.
Proof.
  intros He. revert phase this. induction He as [|env envs Henv _ IH]; intros phase this Hok Hph.
  all: assert (Hr : exists held batch, 0 <= held <= 1 /\ loop_ok held batch this) by (exists 0, []; split; [lia|done]).
  all: assert (Hdrain : backlog (shaped this) = [] -> forall n,
    let '(r, t) := do_drain n (apply_finishes drain this) in round_ok r t).
  1,3: intros Hb n; destruct (apply_finishes_kept (fun u => loop_ok 0 [] u /\ shaped u = shaped this) drain this)
    as [Hok' Hs']; [intros k r u [? <-]; split; [by apply loop_ok_finish|apply finish_task_same]|done|];
    apply do_drain_ok; [done|by rewrite Hs'].
  - destruct phase; cbn [upload_loop_run]; [by split|by apply Hdrain|by split].
  - destruct phase as [batch|n|]; cbn [upload_loop_run]; [|by apply Hdrain|by split]. subst batch.
    pose proof (do_batching_ok env this Henv Hok) as Hstep.
    destruct (do_batching jitter_table env [] this) as [r t]. destruct r as [p|m| | | |]; try exact Hstep.
    destruct Hstep as [_ Hp]. destruct p as [b|n|]; apply IH; try apply Hp.
Qed.
End stream_proofs.

(** ** Properties *)

Lemma input_chain initial rd : input (chain_reader initial rd) = initial ++ input rd.
Proof. by destruct initial. Qed.

Lemma new_loop_ok `{C : FrameCipher} `{B : Base122} config conc maxif initial rd start now word :
  validate config = Ok tt -> config_unsigned config -> 0 <= start < u64_max -> 1 <= conc -> 1 <= maxif ->
  loop_ok (encoding_type config) start (initial ++ input rd) conc maxif 0 []
    (new_upload_loop conc maxif (resolve config) initial rd start now word).
Proof.
  intros Hv Hu Hs Hc Hm. split.
  - exists [], []. split; [done|]. split; [done|]. split; [by apply with_seq_wf|]. split; [done|]. split; [done|].
    unfold backlog. cbn -[input]. rewrite input_chain. split; [done|]. change (zlen []) with 0. lia.
  - unfold budget. cbn. change (zlen []) with 0. split_and!; try done; lia.
Qed.

(** The frames of a whole upload. *)
Lemma upload_loop_frames `{C : FrameCipher} {L : FrameCipherLaws C} `{B : Base122} {BL : Base122Laws B}
    jitter_table config nonces draw payload max_bytes conc maxif rd now word envs drain :
  validate config = Ok tt -> config_unsigned config ->
  (forall q, zlen (nonces q) = NONCE_LEN) -> draw_ok draw -> 0 <= max_bytes ->
  zlen (payload ++ input rd) < u64_max -> 1 <= conc -> 1 <= maxif -> Forall batch_env_ok envs ->
  exists early remaining n datas,
    encode_initial_payload nonces draw payload max_bytes config = Some (Ok (early, remaining, n)) /\
    frames_from (encoding_type config) 0 datas early /\ n = zlen datas /\
    let '(r, this') := upload_loop_run jitter_table envs drain (UBatching [])
      (new_upload_loop conc maxif (resolve config) remaining rd n now word) in
    r <> UPanicked /\ exists groups rest,
      Forall (fun d => d <> []) (datas ++ concat groups) /\
      bodies_from (encoding_type config) n groups (posted this') /\
      payload ++ input rd = concat datas ++ concat (concat groups) ++ rest /\
      (r = UNext UDone -> rest = []).
Proof.
  intros Hv Hu Hn Hd Hm Hmax Hconc Hmaxif Henv. rewrite zlen_app in Hmax. pose proof (zlen_nonneg (input rd)).
  assert (Hr : range_ok (padding_range (global config))).
  { exact (wf_global _ (with_seq_wf config [] 0 0 0 Hv Hu ltac:(unfold u64_max; lia))). }
  destruct (encode_initial_payload_ok nonces draw payload max_bytes config Hn Hd Hr Hm ltac:(lia))
    as (datas & stream & He & Hf & Hcat & Hne).
  set (k := Z.min (zlen payload) max_bytes) in *. pose proof (zlen_nonneg payload).
  eexists _, _, _, datas. split; [exact He|]. split; [done|]. split; [done|].
  assert (Hlen : zlen datas + zlen (zdrop k payload) <= zlen payload).
  { pose proof (zlen_concat_ge datas Hne) as Hz. rewrite Hcat, zlen_ztake in Hz. rewrite zlen_zdrop. lia. }
  pose proof (zlen_nonneg datas). pose proof (zlen_nonneg (zdrop k payload)).
  pose proof (upload_loop_run_ok jitter_table (encoding_type config) (zlen datas) (zdrop k payload ++ input rd)
    conc maxif) as Hrun. rewrite zlen_app in Hrun.
  specialize (Hrun ltac:(lia) Hconc Hmaxif envs drain (UBatching [])
    (new_upload_loop conc maxif (resolve config) (zdrop k payload) rd (zlen datas) now word) Henv).
  specialize (Hrun ltac:(apply new_loop_ok; try done; lia) eq_refl).
  destruct (upload_loop_run _ _ _ _ _) as [r t]. destruct Hrun as [(held & batch & _ & [Hc _]) Hres].
  split; [by intros ->|].
  assert (Hdone : r = UNext UDone -> loop_ok (encoding_type config) (zlen datas) (zdrop k payload ++ input rd) conc maxif 0 [] t
    /\ backlog (shaped t) = []) by (by intros ->).
  assert (Hsplit : payload ++ input rd = concat datas ++ zdrop k payload ++ input rd).
  { by rewrite Hcat, app_assoc, ztake_zdrop. }
  assert (Hcase : r = UNext UDone \/ r <> UNext UDone) by (destruct r as [[]| | | | |]; (by left) || (by right)).
  destruct Hcase as [Hr1|Hr1].
  - destruct (Hdone Hr1) as [[(groups & cur & Hb & Hcur & _ & _ & Hn2 & Ht & _) _] Hbl].
    exists groups, []. apply Forall_app in Hn2 as [Hn2 _]. split; [by apply Forall_app|]. split; [done|]. split; [|done]. rewrite Hsplit, Ht, Hbl, !app_nil_r, concat_app.
    apply frames_from_nil in Hcur as ->. by rewrite app_nil_r.
  - destruct Hc as (groups & cur & Hb & _ & _ & _ & Hn2 & Ht & _).
    exists groups, (concat cur ++ backlog (shaped t)). apply Forall_app in Hn2 as [Hn2 _]. split; [by apply Forall_app|]. split; [done|]. split; [|done].
    by rewrite Hsplit, Ht, concat_app, <- !app_assoc.
Qed.

(** The upload side of a tunnel loses nothing. The early data and the
    bodies the loop posts each consist of whole frames, numbered on from zero
    through all of them, and carry a prefix of the initial payload followed by
    what the local socket sends; when the loop finishes, they carry all of it.
    It never panics, for any readers, timings and results of the requests. *)
Theorem upload_loop_complete `{C : FrameCipher} (L : FrameCipherLaws C) `{B : Base122} (BL : Base122Laws B)
    jitter_table config nonces draw payload max_bytes conc maxif rd now word envs drain :
  validate config = Ok tt -> config_unsigned config ->
  (forall q, zlen (nonces q) = NONCE_LEN) -> draw_ok draw -> 0 <= max_bytes ->
  zlen (payload ++ input rd) < u64_max -> 1 <= conc -> 1 <= maxif -> Forall batch_env_ok envs ->
  exists early remaining n datas,
    encode_initial_payload nonces draw payload max_bytes config = Some (Ok (early, remaining, n)) /\
    frames_from (encoding_type config) 0 datas early /\ n = zlen datas /\
    let '(r, this') := upload_loop_run jitter_table envs drain (UBatching [])
      (new_upload_loop conc maxif (resolve config) remaining rd n now word) in
    r <> UPanicked /\ exists groups rest,
      bodies_from (encoding_type config) n groups (posted this') /\
      payload ++ input rd = concat datas ++ concat (concat groups) ++ rest /\
      (r = UNext UDone -> rest = []).
Proof.
  intros Hv Hu Hn Hd Hm Hmax Hconc Hmaxif Henv.
  destruct (upload_loop_frames jitter_table config nonces draw payload max_bytes conc maxif rd now word envs drain
    Hv Hu Hn Hd Hm Hmax Hconc Hmaxif Henv) as (early & remaining & n & datas & He & Hf & Hz & Hrun).
  exists early, remaining, n, datas. split; [done|]. split; [done|]. split; [done|].
  destruct (upload_loop_run _ _ _ _ _) as [r t]. destruct Hrun as (Hp & groups & rest & _ & H).
  split; [done|]. by exists groups, rest.
Qed.

(** C38: at every point the loop stops or waits, no more requests are in
    flight than configured, and with the least limit the configuration accepts
    the bodies in flight hold at most the configured number of bytes; the loop
    waits for a permit only while some request is in flight. *)
Theorem upload_in_flight_bounds `{C : FrameCipher} (L : FrameCipherLaws C) `{B : Base122} (BL : Base122Laws B)
    jitter_table config initial conc maxif rd start now word envs drain :
  validate config = Ok tt -> config_unsigned config ->
  0 <= start -> start + zlen (initial ++ input rd) < u64_max ->
  1 <= conc -> MIN_IN_FLIGHT_BYTES <= maxif -> Forall batch_env_ok envs ->
  let '(r, this') := upload_loop_run jitter_table envs drain (UBatching [])
    (new_upload_loop conc maxif (resolve config) initial rd start now word) in
  zlen (in_flight this') <= conc /\ bytes_out (in_flight this') <= maxif /\
  (r = UBlocked -> in_flight this' <> []).
Proof.
  intros Hv Hu Hs Hmax Hconc Hmaxif Henv. pose proof (zlen_nonneg (initial ++ input rd)).
  assert (Hhead : max_encoded_frame_len (encoding_type config) < MIN_IN_FLIGHT_BYTES)
    by (destruct (encoding_type config); by vm_compute).
  assert (1 <= maxif) by (unfold MIN_IN_FLIGHT_BYTES in Hmaxif; lia).
  pose proof (upload_loop_run_ok jitter_table (encoding_type config) start (initial ++ input rd) conc maxif Hmax
    Hconc ltac:(done) envs drain (UBatching [])
    (new_upload_loop conc maxif (resolve config) initial rd start now word) Henv
    ltac:(apply new_loop_ok; try done; lia) eq_refl) as Hrun.
  destruct (upload_loop_run _ _ _ _ _) as [r t].
  destruct Hrun as [(held & batch & Hh & [_ (H1 & H2 & H3 & H4 & H5 & _)]) Hres].
  split; [lia|]. split; [|by intros ->].
  assert (Hb : bytes_out (in_flight t) = permits_out (in_flight t)); [|lia].
  clear H2 H4 Hres. unfold bytes_out, permits_out. induction H5 as [|[p b] l [_ Hp] _ IH]; [done|].
  cbn [foldr fst snd]. cbn in Hp. rewrite Hp by lia. by rewrite IH.
Qed.

(** ** Witnesses *)

Definition toy_reader : list ReadEvent := [RdData (str "abc"); RdData []].
Definition toy_batch : BatchEnv := mkBatchEnv [SelSeal (toy_env true)] (fun _ => toy_env true) [] [] [].
Definition toy_loop_run (initial : bytes) (start : Z) : BatchStep * UploadLoop :=
  upload_loop_run (C := aes_frame_cipher toy_aes) (fun _ => 5) [toy_batch] [(O, JoinOk)] (UBatching [])
    (new_upload_loop 2 MIN_IN_FLIGHT_BYTES (resolve toy_config) initial toy_reader start 0 7).

Lemma toy_config_ok : validate toy_config = Ok tt /\ config_unsigned toy_config.
Proof.
  split; [reflexivity|]. split; [vm_compute; congruence|]. repeat constructor; vm_compute; congruence.
Qed.

Lemma toy_batch_ok : Forall batch_env_ok [toy_batch].
Proof.
  constructor; [|done]. split; [constructor; [apply toy_env_ok|constructor]|]. intros n. apply toy_env_ok.
Qed.

(** The run finishes, and posts all that the early data leaves. *)
Lemma toy_loop_finishes :
  fst (toy_loop_run (str "lo") 1) = UNext UDone /\ length (posted (snd (toy_loop_run (str "lo") 1))) = 1%nat.
Proof. split; vm_compute; reflexivity. Qed.

Lemma upload_loop_complete_witness :
  fst (toy_loop_run (str "lo") 1) = UNext UDone /\
  exists early remaining n datas,
    encode_initial_payload (C := aes_frame_cipher toy_aes) (fun _ => toy_nonce) toy_draw (str "hello") 3 toy_config
      = Some (Ok (early, remaining, n)) /\
    frames_from (C := aes_frame_cipher toy_aes) Json 0 datas early /\ n = zlen datas /\
    let '(r, this') := toy_loop_run remaining n in
    r <> UPanicked /\ exists groups rest,
      bodies_from (C := aes_frame_cipher toy_aes) Json n groups (posted this') /\
      str "helloabc" = concat datas ++ concat (concat groups) ++ rest /\ (r = UNext UDone -> rest = []).
Proof.
  split; [apply toy_loop_finishes|]. unfold toy_loop_run.
  apply (upload_loop_complete (aes_frame_cipher_laws toy_aes) toy_base122_laws (fun _ => 5) toy_config
    (fun _ => toy_nonce) toy_draw (str "hello") 3 2 MIN_IN_FLIGHT_BYTES toy_reader 0 7 [toy_batch] [(O, JoinOk)]).
  - apply toy_config_ok.
  - apply toy_config_ok.
  - reflexivity.
  - apply toy_draw_ok.
  - lia.
  - reflexivity.
  - lia.
  - vm_compute. congruence.
  - apply toy_batch_ok.
Defined.

Lemma upload_in_flight_bounds_witness :
  let '(r, this') := toy_loop_run (str "lo") 1 in
  zlen (in_flight this') <= 2 /\ bytes_out (in_flight this') <= MIN_IN_FLIGHT_BYTES /\
  (r = UBlocked -> in_flight this' <> []).
Proof.
  unfold toy_loop_run.
  apply (upload_in_flight_bounds (aes_frame_cipher_laws toy_aes) toy_base122_laws (fun _ => 5) toy_config
    (str "lo") 2 MIN_IN_FLIGHT_BYTES toy_reader 1 0 7 [toy_batch] [(O, JoinOk)]);
    [apply toy_config_ok|apply toy_config_ok|lia|reflexivity|lia|lia|apply toy_batch_ok].
Defined.
