(* ===== verification/Tunnel.v ===== *)
(** * The tunnel actor and the download segments

    [src/server/actor/tunnel.rs]: in segmented mode the upstream's data leaves
    in response bodies of about [max_download_bytes] each. One shaper serves
    all of them: a [Segment] takes it out of the shared slot, and a segment that
    reached its limit puts it back when dropped; the actor hands out the next
    segment when the client asks to continue. *)

From S2P Require Import Prelude Cipher Frame Shaper Decoder.

Definition SEGMENT_DONE_CHANNEL_CAPACITY : Z := 2.
Definition STREAM_IDLE_TIMEOUT_SECS : Z := 120.

Inductive TunnelPhase : Type := TConnecting | TActive | TRotating | TDraining | TClosed.

#[export] Instance TunnelPhase_eq_dec : EqDecision TunnelPhase.
Proof. solve_decision. Defined.

(** ** A segment *)

Record Segment : Type := mkSegment {
  seg_shaper : option TrafficShaper;
  seg_sent : Z;
  seg_max_bytes : option Z;
  pause_on_drop : bool;
  seg_ended : bool
}.

Definition Segment_new (shaper : TrafficShaper) (max_bytes : option Z) : Segment :=
  mkSegment (Some shaper) 0 max_bytes false false.

Definition seg_end (this : Segment) : Segment :=
  mkSegment (seg_shaper this) (seg_sent this) (seg_max_bytes this) (pause_on_drop this) true.

(** The actor. [shaper_slot] is [None] without a slot and [Some None] for an
    empty one; [done_signals] counts what is queued in the segments' channel. *)
Record TunnelActor : Type := mkTunnel {
  t_phase : TunnelPhase;
  shaper_slot : option (option TrafficShaper);
  segment_active : bool;
  pending_continue : list Z;
  cancelled : bool;
  t_max_download_bytes : option Z;
  t_last_activity : Z;
  done_signals : Z
}.

Definition TunnelActor_new (max_download_bytes : option Z) (now : Z) : TunnelActor :=
  mkTunnel TConnecting None false [] false max_download_bytes now 0.

Definition set_tphase (this : TunnelActor) (p : TunnelPhase) : TunnelActor :=
  mkTunnel p (shaper_slot this) (segment_active this) (pending_continue this) (cancelled this)
    (t_max_download_bytes this) (t_last_activity this) (done_signals this).

Definition set_slot (this : TunnelActor) (s : option (option TrafficShaper)) : TunnelActor :=
  mkTunnel (t_phase this) s (segment_active this) (pending_continue this) (cancelled this)
    (t_max_download_bytes this) (t_last_activity this) (done_signals this).

Definition set_pending (this : TunnelActor) (active : bool) (p : list Z) : TunnelActor :=
  mkTunnel (t_phase this) (shaper_slot this) active p (cancelled this)
    (t_max_download_bytes this) (t_last_activity this) (done_signals this).

Definition touch (this : TunnelActor) (now : Z) : TunnelActor :=
  mkTunnel (t_phase this) (shaper_slot this) (segment_active this) (pending_continue this) (cancelled this)
    (t_max_download_bytes this) now (done_signals this).

Definition set_signals (this : TunnelActor) (n : Z) : TunnelActor :=
  mkTunnel (t_phase this) (shaper_slot this) (segment_active this) (pending_continue this) (cancelled this)
    (t_max_download_bytes this) (t_last_activity this) n.

Section segment.
Context `{C : FrameCipher} `{B : Base122}.
Context (jitter_table : Z -> Z).

(** [poll_next]; the actor's [cancelled] and activity clock are shared. *)
Definition segment_poll (env : PollEnv) (now : Z) (this : Segment) (actor : TunnelActor)
    : Poll (option (Res IoError bytes)) * Segment * TunnelActor :=
  if seg_ended this then (Ready None, this, actor)
  else if cancelled actor then (Ready None, seg_end this, actor)
  else
    match seg_shaper this with
    | None => (Ready None, seg_end this, actor)
    | Some shaper =>
        match poll_next jitter_table env shaper with
        | Some (Ready (Ok (Some (_, data))), shaper) =>
            let sent := seg_sent this + zlen data in
            let full := match seg_max_bytes this with Some m => m <=? sent | None => false end in
            (Ready (Some (Ok data)),
             mkSegment (Some shaper) sent (seg_max_bytes this) (full || pause_on_drop this)
               (full || seg_ended this),
             touch actor now)
        | Some (Ready (Err e), shaper) =>
            (Ready (Some (Err e)),
             mkSegment (Some shaper) (seg_sent this) (seg_max_bytes this) (pause_on_drop this) true, actor)
        | Some (Ready (Ok None), shaper) =>
            (Ready None,
             mkSegment (Some shaper) (seg_sent this) (seg_max_bytes this) (pause_on_drop this) true, actor)
        | Some (Pending, shaper) =>
            (Pending,
             mkSegment (Some shaper) (seg_sent this) (seg_max_bytes this) (pause_on_drop this)
               (seg_ended this), actor)
        | _ => (Ready (Some Panic), this, actor)
        end
    end.
End segment.

(** [drop]: [release], then the signal if the channel has room. A slot the
    actor gave up is not its any more. *)
Definition segment_drop (this : Segment) (actor : TunnelActor) : TunnelActor :=
  let actor :=
    match seg_shaper this with
    | Some shaper =>
        if pause_on_drop this then
          match shaper_slot actor with
          | Some _ => set_slot actor (Some (Some shaper))
          | None => actor
          end
        else actor
    | None => actor
    end in
  if done_signals actor <? SEGMENT_DONE_CHANNEL_CAPACITY
  then set_signals actor (done_signals actor + 1) else actor.

(** ** The actor's operations *)

(** The upload actor was given before, so there is no write half. *)
Definition on_upstream_connected (rd : list ReadEvent) (config : ResolvedShaperConfig)
    (initial_seq now word : Z) (this : TunnelActor) : TunnelActor :=
  set_tphase (set_slot this (Some (Some (with_seq rd config initial_seq now word)))) TActive.

Definition take_segment (this : TunnelActor) : option Segment * TunnelActor :=
  match shaper_slot this with
  | Some (Some shaper) =>
      (Some (Segment_new shaper (t_max_download_bytes this)),
       set_pending (set_slot this (Some None)) true (pending_continue this))
  | _ => (None, this)
  end.

Definition shaper_alive (this : TunnelActor) : bool :=
  match shaper_slot this with Some (Some _) => true | _ => false end.

(** A reply to a request to continue. *)
Definition Reply : Type := Z * option Segment.

(** The loop of [serve_pending_continue]; [is_closed] tells which requesters
    are gone. *)
Fixpoint serve_loop (is_closed : Z -> bool) (alive : bool) (pending : list Z) (this : TunnelActor)
    : list Reply * TunnelActor :=
  match pending with
  | [] => ([], this)
  | reply :: pending =>
      if negb alive then
        let '(rs, this) := serve_loop is_closed alive pending this in ((reply, None) :: rs, this)
      else if is_closed reply then serve_loop is_closed alive pending this
      else
        match take_segment this with
        | (Some segment, this) =>
            let '(rs, this) := serve_loop is_closed alive pending (set_tphase this TActive) in
            ((reply, Some segment) :: rs, this)
        | (None, this) =>
            let '(rs, this) := serve_loop is_closed alive pending (set_tphase this TDraining) in
            ((reply, None) :: rs, this)
        end
  end.

Definition serve_pending_continue (is_closed : Z -> bool) (alive : bool) (this : TunnelActor)
    : list Reply * TunnelActor :=
  serve_loop is_closed alive (pending_continue this) (set_pending this (segment_active this) []).

(** [dispatch_cmd] of a [Continue]. *)
Definition dispatch_cmd (is_closed : Z -> bool) (reply : Z) (this : TunnelActor)
    : list Reply * TunnelActor :=
  match t_phase this with
  | TRotating =>
      let this := set_tphase this TActive in
      if is_closed reply then ([], this)
      else
        match take_segment this with
        | (Some segment, this) => ([(reply, Some segment)], this)
        | (None, this) => ([(reply, None)], set_tphase this TDraining)
        end
  | TActive =>
      if segment_active this
      then ([], set_pending this (segment_active this) (pending_continue this ++ [reply]))
      else ([(reply, None)], this)
  | _ => ([(reply, None)], this)
  end.

(** What wakes the actor's [select!]. *)
Inductive TunnelEvent : Type :=
| EvSegmentDone
| EvContinue (now reply : Z)
| EvShutdownCmd (now : Z)
| EvRotationStale
| EvShutdownSignal
| EvIdleTimer (now : Z).

(** [true] to leave the loop, the replies sent, and the state. An event whose
    branch is disabled or not ready does not happen. *)
Definition tunnel_event (is_closed : Z -> bool) (ev : TunnelEvent) (this : TunnelActor)
    : option (bool * list Reply * TunnelActor) :=
  match ev with
  | EvSegmentDone =>
      match shaper_slot this with
      | None => None
      | Some _ =>
          if done_signals this <=? 0 then None
          else
            let this := set_pending (set_signals this (done_signals this - 1)) false (pending_continue this) in
            let alive := shaper_alive this in
            let this := set_tphase this (if alive then TRotating else TDraining) in
            let '(rs, this) := serve_pending_continue is_closed alive this in
            Some (false, rs, this)
      end
  | EvContinue now reply =>
      let '(rs, this) := dispatch_cmd is_closed reply (touch this now) in Some (false, rs, this)
  | EvShutdownCmd now => Some (true, [], touch this now)
  | EvRotationStale => if bool_decide (t_phase this = TRotating) then Some (true, [], this) else None
  | EvShutdownSignal => Some (true, [], this)
  | EvIdleTimer now =>
      let idle_secs := saturating_sub now (t_last_activity this) in
      Some (STREAM_IDLE_TIMEOUT_SECS <=? idle_secs, [], this)
  end.

(** What [cleanup] does to this state; the rest of the requests are dropped. *)
Definition cleanup (this : TunnelActor) : TunnelActor :=
  mkTunnel TClosed None (segment_active this) [] true (t_max_download_bytes this)
    (t_last_activity this) (done_signals this).

(** One round of [run]: the event, then the test of the phase. *)
Definition tunnel_round (is_closed : Z -> bool) (ev : TunnelEvent) (this : TunnelActor)
    : option (list Reply * TunnelActor) :=
  '(stop, rs, this) ← tunnel_event is_closed ev this;
  let over := stop || bool_decide (t_phase this = TClosed) || bool_decide (t_phase this = TDraining) in
  Some (rs, if over then cleanup this else this).

(** ** The tunnel and its response bodies *)

(** The actor, the body being sent with what it has given out, and the bodies
    that ended, each with whether it stopped at the limit. *)
Record TunnelWorld : Type := mkTW {
  actor : TunnelActor;
  live : option (Segment * bytes);
  bodies : list (bytes * bool)
}.

Definition next_live (rs : list Reply) (l : option (Segment * bytes)) : option (Segment * bytes) :=
  match omap snd rs with
  | seg :: _ => Some (seg, [])
  | [] => l
  end.

Definition given (r : Poll (option (Res IoError bytes))) : bytes :=
  match r with Ready (Some (Ok d)) => d | _ => [] end.

Section tunnel_steps.
Context `{C : FrameCipher} `{B : Base122}.
Context (jitter_table : Z -> Z).

(** The transport polls or drops the body; the actor, until it is closed,
    takes events. *)
Inductive tstep : TunnelWorld -> TunnelWorld -> Prop :=
| ts_poll w env now seg out r seg' actor' :
    env_ok env -> live w = Some (seg, out) ->
    segment_poll jitter_table env now seg (actor w) = (r, seg', actor') ->
    tstep w (mkTW actor' (Some (seg', out ++ given r)) (bodies w))
| ts_drop w seg out :
    live w = Some (seg, out) ->
    tstep w (mkTW (segment_drop seg (actor w)) None (bodies w ++ [(out, pause_on_drop seg)]))
| ts_round w is_closed ev rs actor' :
    t_phase (actor w) <> TClosed ->
    tunnel_round is_closed ev (actor w) = Some (rs, actor') ->
    tstep w (mkTW actor' (next_live rs (live w)) (bodies w)).

Inductive tsteps : TunnelWorld -> TunnelWorld -> Prop :=
| tsteps_refl w : tsteps w w
| tsteps_snoc w w1 w2 : tsteps w w1 -> tstep w1 w2 -> tsteps w w2.
End tunnel_steps.

(** The set-up of a segmented tunnel: the first segment is the response. *)
Definition start_tunnel (m : Z) (rd : list ReadEvent) (config : ResolvedShaperConfig) (now word : Z) : TunnelWorld :=
  let '(seg, a) := take_segment (on_upstream_connected rd config 0 now word (TunnelActor_new (Some m) now)) in
  mkTW a (option_map (fun s => (s, [])) seg) [].

(** ** Lemmas *)

(** At most one of the replies carries a segment, made of what was in the
    slot. *)
Definition hands_out (this : TunnelActor) (rs : list Reply) (this' : TunnelActor) : Prop :=
  t_max_download_bytes this' = t_max_download_bytes this /\
  ((omap snd rs = [] /\ shaper_slot this' = shaper_slot this) \/
   (exists s, shaper_slot this = Some (Some s) /\ shaper_slot this' = Some None /\
      omap snd rs = [Segment_new s (t_max_download_bytes this)])).

Lemma take_segment_cases this :
  (exists s, shaper_slot this = Some (Some s) /\ take_segment this =
     (Some (Segment_new s (t_max_download_bytes this)),
      set_pending (set_slot this (Some None)) true (pending_continue this))) \/
  ((forall s, shaper_slot this <> Some (Some s)) /\ take_segment this = (None, this)).
Proof. unfold take_segment. destruct (shaper_slot this) as [[s|]|]; [left; eauto|by right..]. Qed.

Lemma serve_loop_hands is_closed alive pending this :
  let '(rs, this') := serve_loop is_closed alive pending this in hands_out this rs this'.
Proof.
  revert this. induction pending as [|reply pending IH]; intros this; cbn [serve_loop]; [by split; [|left]|].
  destruct alive; cbn [negb].
  - destruct (is_closed reply); [apply IH|].
    destruct (take_segment_cases this) as [(s & Hs & ->)|[Hs ->]].
    + match goal with |- context [serve_loop _ _ _ ?t] => specialize (IH t); destruct (serve_loop _ _ _ t) as [rs this'] end.
      destruct IH as [Hm [[Hn Hsl]|(s' & Hsl & _)]]; [|done]. split; [done|]. right. exists s.
      split; [done|]. split; [done|]. cbn. by rewrite Hn.
    + match goal with |- context [serve_loop _ _ _ ?t] => specialize (IH t); destruct (serve_loop _ _ _ t) as [rs this'] end.
      destruct IH as [Hm [[Hn Hsl]|(s' & Hsl & _)]]; [|by destruct (Hs s')]. split; [done|]. by left.
  - specialize (IH this). destruct (serve_loop _ _ _ _) as [rs this']. exact IH.
Qed.

Lemma dispatch_cmd_hands is_closed reply this :
  let '(rs, this') := dispatch_cmd is_closed reply this in hands_out this rs this'.
Proof.
  unfold dispatch_cmd. destruct (t_phase this); try (by split; [|left]).
  - destruct (segment_active this); by split; [|left].
  - destruct (is_closed reply); [by split; [|left]|].
    destruct (take_segment_cases (set_tphase this TActive)) as [(s & Hs & ->)|[Hs ->]].
    + split; [done|]. right. by exists s.
    + by split; [|left].
Qed.

Lemma tunnel_round_hands is_closed ev this rs this' :
  tunnel_round is_closed ev this = Some (rs, this') ->
  exists this1, hands_out this rs this1 /\ (this' = this1 \/ this' = cleanup this1).
Proof.
  unfold tunnel_round. destruct (tunnel_event is_closed ev this) as [[[stop rs1] this1]|] eqn:E; [|done].
  change (mbind ?f (Some ?x)) with (f x). cbv beta iota zeta. intros [= <- <-]. exists this1.
  split; [|destruct (_ || _ || _); [by right|by left]].
  destruct ev as [|now reply|now| | |now]; cbn [tunnel_event] in E.
  - destruct (shaper_slot this) eqn:Hs; [|done]. destruct (_ <=? 0); [done|].
    unfold serve_pending_continue in E.
    match type of E with context [serve_loop ?a ?b ?c ?d] =>
      pose proof (serve_loop_hands a b c d) as Hh; destruct (serve_loop a b c d) as [rs2 this2] end.
    injection E as _ <- <-. unfold hands_out in *. cbn in Hh |- *. rewrite Hs in *. exact Hh.
  - pose proof (dispatch_cmd_hands is_closed reply (touch this now)) as Hh.
    destruct (dispatch_cmd _ _ _). by injection E as _ <- <-.
  - injection E as _ <- <-. by split; [|left].
  - destruct (bool_decide _); [|done]. injection E as _ <- <-. by split; [|left].
  - injection E as _ <- <-. by split; [|left].
  - injection E as _ <- <-. by split; [|left].
Qed.

(** What a poll does to the actor. *)
Lemma segment_poll_actor `{C : FrameCipher} `{B : Base122} jitter_table env now seg act r seg' act' :
  segment_poll jitter_table env now seg act = (r, seg', act') -> act' = act \/ act' = touch act now.
Proof.
  unfold segment_poll. destruct (seg_ended seg); [intros [= _ _ <-]; by left|]. destruct (cancelled act); [intros [= _ _ <-]; by left|].
  destruct (seg_shaper seg) as [s|]; [|intros [= _ _ <-]; by left].
  destruct (poll_next _ _ _) as [[[[[[k d]|]|e|]|] s']|]; intros [= _ _ <-]; auto.
Qed.

(** Every request to continue is answered, found closed, or kept. *)
Lemma serve_loop_answers is_closed alive pending this n :
  let '(rs, this') := serve_loop is_closed alive pending this in
  n ∈ pending -> is_closed n = true \/ n ∈ map fst rs.
Proof.
  revert this. induction pending as [|reply pending IH]; intros this; cbn [serve_loop]; [by intros ?%elem_of_nil|].
  assert (Hcons : forall (rs : list Reply) s, (n ∈ pending -> is_closed n = true \/ n ∈ map fst rs) ->
    n ∈ reply :: pending -> is_closed n = true \/ n ∈ map fst ((reply, s) :: rs)).
  { intros rs s H Hin. cbn. apply elem_of_cons in Hin as [->|Hin]; [right; by left|]. destruct (H Hin); [by left|right; by right]. }
  destruct alive; cbn [negb].
  - destruct (is_closed reply) eqn:Hc.
    + specialize (IH this). destruct (serve_loop _ _ _ _) as [rs this']. intros [->|Hin]%elem_of_cons; [by left|by apply IH].
    + destruct (take_segment this) as [[seg|] t].
      * specialize (IH (set_tphase t TActive)). destruct (serve_loop _ _ _ _) as [rs this']. by apply Hcons.
      * specialize (IH (set_tphase t TDraining)). destruct (serve_loop _ _ _ _) as [rs this']. by apply Hcons.
  - specialize (IH this). destruct (serve_loop _ _ _ _) as [rs this']. by apply Hcons.
Qed.

(** The books of one round that is not the last: who waits, and whether a
    segment is out. *)
Definition round_books (this : TunnelActor) (ev : TunnelEvent) (is_closed : Z -> bool) (rs : list Reply) (this' : TunnelActor) : Prop :=
  (forall n, n ∈ pending_continue this \/ (exists now, ev = EvContinue now n) ->
     is_closed n = true \/ n ∈ map fst rs \/ n ∈ pending_continue this') /\
  (segment_active this' = true -> omap snd rs <> [] \/
     segment_active this = true /\ done_signals this' = done_signals this) /\
  ((pending_continue this <> [] -> segment_active this = true) -> pending_continue this' <> [] -> segment_active this' = true) /\
  (0 <= done_signals this -> 0 <= done_signals this').

Lemma serve_loop_books is_closed alive pending this :
  let '(rs, this') := serve_loop is_closed alive pending this in
  pending_continue this' = pending_continue this /\ done_signals this' = done_signals this /\
  (segment_active this' = true -> omap snd rs <> [] \/ segment_active this = true).
Proof.
  revert this. induction pending as [|reply pending IH]; intros this; cbn [serve_loop]; [by split; [|split; [|right]]|].
  destruct alive; cbn [negb].
  - destruct (is_closed reply); [apply IH|].
    destruct (take_segment_cases this) as [(s & Hs & ->)|[Hs ->]].
    + match goal with |- context [serve_loop _ _ _ ?t] => specialize (IH t); destruct (serve_loop _ _ _ t) as [rs this'] end.
      destruct IH as (-> & -> & _). split; [done|]. split; [done|]. by left.
    + match goal with |- context [serve_loop _ _ _ ?t] => specialize (IH t); destruct (serve_loop _ _ _ t) as [rs this'] end.
      destruct IH as (-> & -> & IH). by split.
  - specialize (IH this). destruct (serve_loop _ _ _ _) as [rs this']. done.
Qed.

Lemma dispatch_cmd_books is_closed now reply this :
  let '(rs, this') := dispatch_cmd is_closed reply (touch this now) in
  round_books this (EvContinue now reply) is_closed rs this'.
Proof.
  assert (Hn : forall n, (exists now', EvContinue now reply = EvContinue now' n) -> n = reply) by (intros n [? [= ? ->]]; done).
  assert (Hone : forall s (p : list Z) n, n ∈ p \/ (exists now', EvContinue now reply = EvContinue now' n) ->
    is_closed n = true \/ n ∈ map fst [(reply, s) : Reply] \/ n ∈ p).
  { intros s p n [H|H]; right; [by right|left]. apply Hn in H as ->. by left. }
  unfold dispatch_cmd. change (t_phase (touch this now)) with (t_phase this).
  change (segment_active (touch this now)) with (segment_active this).
  destruct (t_phase this) eqn:Hp.
  1, 4, 5: split_and!; [exact (Hone None (pending_continue this))|by right|done|done].
  - destruct (segment_active this) eqn:Hact; split_and!; cbn; rewrite ?Hact; try done; [|by right|exact (Hone None (pending_continue this))].
    intros n [H|H]; right; right; apply elem_of_app; [by left|right]. apply Hn in H as ->. by left.
  - destruct (is_closed reply) eqn:Hc.
    + split_and!; cbn; [|by right|done|done]. intros n [H|H]; [auto|apply Hn in H as ->; auto].
    + destruct (take_segment_cases (set_tphase (touch this now) TActive)) as [(s & Hs & ->)|[Hs ->]]; split_and!; cbn; try done;
        [exact (Hone None (pending_continue this))|by left|exact (Hone None (pending_continue this))|by right].
Qed.

Lemma tunnel_round_books is_closed ev this rs this' :
  tunnel_round is_closed ev this = Some (rs, this') -> t_phase this' = TClosed \/ round_books this ev is_closed rs this'.
Proof.
  unfold tunnel_round. destruct (tunnel_event is_closed ev this) as [[[stop rs1] this1]|] eqn:E; [|done].
  change (mbind ?f (Some ?x)) with (f x). cbv beta iota zeta. intros [= <- <-].
  destruct (stop || _ || _) eqn:Hover; [by left|]. right. apply orb_false_iff in Hover as [[Hstop _]%orb_false_iff _]. subst stop.
  destruct ev as [|now reply|now| | |now]; cbn [tunnel_event] in E.
  - destruct (shaper_slot this); [|done]. destruct (Z.leb_spec (done_signals this) 0); [done|]. unfold serve_pending_continue in E.
    match type of E with context [serve_loop ?a ?b ?c ?d] =>
      pose proof (serve_loop_answers a b c d) as Ha; pose proof (serve_loop_books a b c d) as Hb;
      destruct (serve_loop a b c d) as [rs2 this2] end.
    injection E as <- <-. cbn in Ha, Hb. destruct Hb as (Hp & Hd & Hs). split_and!.
    + intros n [Hn|[now Hev]]; [|done]. destruct (Ha n Hn); [by left|right; by left].
    + intros Hact. destruct (Hs Hact) as [?|?]; [by left|done].
    + intros _. by rewrite Hp.
    + rewrite Hd. lia.
  - pose proof (dispatch_cmd_books is_closed now reply this) as Hb. destruct (dispatch_cmd _ _ _) as [rs2 this2].
    by injection E as <- <-.
  - done.
  - by destruct (bool_decide _).
  - done.
  - injection E as H <- <-. split_and!; [|by right|done|done]. intros n [H'|[? H']]; [auto|done].
Qed.

Section tunnel_proofs.
Context `{C : FrameCipher} {L : FrameCipherLaws C} `{B : Base122} {BL : Base122Laws B}.
Context (jitter_table : Z -> Z).
Variables (enc : EncodingType) (total : bytes) (m : Z).
Hypothesis Hmax : zlen total < u64_max.

(** Where the shaper is: in the body being sent, in the slot, or gone. *)
Definition holder (w : TunnelWorld) : option TrafficShaper :=
  match live w with
  | Some (seg, _) => seg_shaper seg
  | None => match shaper_slot (actor w) with Some (Some s) => Some s | _ => None end
  end.

Definition live_out (w : TunnelWorld) : bytes := match live w with Some (_, out) => out | None => [] end.

(** A body that stopped at the limit is that long. *)
Definition full_body (b : bytes * bool) : Prop := snd b = true -> m <= zlen (fst b) /\ fst b <> [].
(** One that ended otherwise is shorter. *)
Definition short_body (b : bytes * bool) : Prop := snd b = false -> fst b = [] \/ zlen (fst b) < m.

Definition live_ok (w : TunnelWorld) : Prop :=
  match live w with
  | Some (seg, out) =>
      seg_max_bytes seg = Some m /\ seg_sent seg = zlen out /\
      full_body (out, pause_on_drop seg) /\ short_body (out, pause_on_drop seg) /\
      (pause_on_drop seg = true -> seg_ended seg = true) /\ is_Some (seg_shaper seg) /\
      (forall s, shaper_slot (actor w) <> Some (Some s))
  | None => True
  end.

Definition tunnel_inv (w : TunnelWorld) : Prop :=
  t_max_download_bytes (actor w) = Some m /\ live_ok w /\
  Forall full_body (bodies w) /\ Forall short_body (bodies w) /\
  (exists paused rest, bodies w = paused ++ rest /\ Forall (fun b => snd b = true) paused /\
     (length rest <= 1)%nat /\ (holder w <> None -> rest = [])) /\
  exists groups cur, bodies_from enc 0 groups (map fst (bodies w)) /\
    frames_from enc (zlen (concat groups)) cur (live_out w) /\
    match holder w with
    | Some s => carried enc 0 total (concat groups ++ cur) s
    | None => Forall (fun d => d <> []) (concat groups ++ cur) /\ exists rest, total = concat (concat groups ++ cur) ++ rest
    end.

Lemma given_frame (a b d w : bytes) : (a ++ b) ++ w = a ++ (b ++ w).
Proof. by rewrite app_assoc. Qed.

(** A poll of the body: nothing moves, or a frame goes out. *)
Lemma segment_poll_cases env now seg act s r seg' act' :
  env_ok env -> seg_shaper seg = Some s -> segment_poll jitter_table env now seg act = (r, seg', act') ->
  forall datas, carried enc 0 total datas s ->
  t_max_download_bytes act' = t_max_download_bytes act /\ shaper_slot act' = shaper_slot act /\
  exists s', seg_shaper seg' = Some s' /\ seg_max_bytes seg' = seg_max_bytes seg /\
    seg_sent seg' = seg_sent seg + zlen (given r) /\ r <> Ready (Some Panic) /\
    ((given r = [] /\ carried enc 0 total datas s' /\ pause_on_drop seg' = pause_on_drop seg /\
      (pause_on_drop seg = true -> seg_ended seg = true -> seg_ended seg' = true) /\
      (r = Ready None -> seg_ended seg = false -> cancelled act = false -> backlog s' = [])) \/
     (exists data w, given r = w /\ is_frame enc (zlen datas) data w /\ carried enc 0 total (datas ++ [data]) s' /\
      seg_ended seg = false /\
      let full := match seg_max_bytes seg with Some m => m <=? seg_sent seg + zlen w | None => false end in
      pause_on_drop seg' = full || pause_on_drop seg /\ seg_ended seg' = full)).
Proof.
  intros He Hs Hp datas Hc. unfold segment_poll in Hp.
  destruct (seg_ended seg) eqn:Hend.
  { injection Hp as <- <- <-. split; [done|]. split; [done|]. exists s. split; [done|]. split; [done|].
    split; [cbn; change (zlen []) with 0; lia|]. split; [done|]. left. split; [done|]. split; [done|].
    split; [done|]. split; [by intros|]. congruence. }
  destruct (cancelled act) eqn:Hcan.
  { injection Hp as <- <- <-. split; [done|]. split; [done|]. exists s. split; [done|]. split; [done|].
    split; [cbn; change (zlen []) with 0; lia|]. split; [done|]. left. split; [done|]. split; [done|].
    split; [done|]. split; [by intros|]. congruence. }
  rewrite Hs in Hp. unfold poll_next in Hp.
  destruct (carried_poll jitter_table enc 0 total env [] datas s Hmax He Hc) as (pr & s' & Hpoll & Hpr).
  rewrite Hpoll in Hp. destruct pr as [[[[sq out]|]|e|]|]; [..|done|]; try done.
  - destruct Hpr as (data & w & -> & Hw & Hc'). injection Hp as <- <- <-.
    split; [done|]. split; [done|]. exists s'. split; [done|]. split; [done|]. split; [done|]. split; [done|].
    right. exists data, w. rewrite Z.add_0_l in Hw. split; [done|]. split; [done|]. split; [done|]. split; [done|].
    cbn. by rewrite orb_false_r.
  - destruct Hpr as [Hc' Hbl]. injection Hp as <- <- <-. split; [done|]. split; [done|]. exists s'.
    split; [done|]. split; [done|]. split; [cbn; change (zlen []) with 0; lia|]. split; [done|]. by left.
  - injection Hp as <- <- <-. split; [done|]. split; [done|]. exists s'.
    split; [done|]. split; [done|]. split; [cbn; change (zlen []) with 0; lia|]. split; [done|]. by left.
  - injection Hp as <- <- <-. split; [done|]. split; [done|]. exists s'.
    split; [done|]. split; [done|]. split; [cbn; change (zlen []) with 0; lia|]. split; [done|]. left.
    split; [done|]. split; [done|]. split; [done|]. split; [by intros|done].
Qed.

Lemma tunnel_inv_poll w env now seg out r seg' act' :
  env_ok env -> live w = Some (seg, out) ->
  segment_poll jitter_table env now seg (actor w) = (r, seg', act') ->
  tunnel_inv w -> tunnel_inv (mkTW act' (Some (seg', out ++ given r)) (bodies w)).
Proof.
  intros He Hl Hp (Hm & Hlive & Hfull & Hshort & Hrest & groups & cur & Hb & Hf & Hhold).
  unfold live_ok, holder, live_out in *. rewrite Hl in *. destruct Hlive as (Hsm & Hsent & Hfb & Hsb & Hpe & [s Hs] & Hslot).
  rewrite Hs in Hhold, Hrest.
  destruct (segment_poll_cases env now seg (actor w) s r seg' act' He Hs Hp _ Hhold)
    as (Hm' & Hslot' & s' & Hs' & Hsm' & Hsent' & _ & Hcase).
  unfold tunnel_inv, live_ok, holder, live_out. cbn [live actor bodies]. rewrite Hm', Hslot', Hs', Hsm', Hsent', zlen_app.
  split; [done|]. pose proof (zlen_nonneg out).
  assert (Hlen : seg_sent seg + zlen (given r) = zlen out + zlen (given r)) by lia.
  destruct Hcase as [(Hg & Hc & Hpd & Hse & _)|(data & f & Hg & Hw & Hc & Hne & Hpd & Hse)].
  - rewrite Hg, Hpd, app_nil_r in *. split; [split_and!; try done; intros Hq; apply Hse; [done|by apply Hpe]|].
    split; [done|]. split; [done|]. split; [destruct Hrest as (pa & re & ? & ? & ? & Hre); exists pa, re; split_and!; try done; intros _; by apply Hre|].
    exists groups, cur. done.
  - assert (Hpos : 0 < zlen f) by (apply is_frame_len in Hw; lia).
    rewrite Hsm in Hpd, Hse. rewrite Hg in *. cbv zeta in Hpd, Hse.
    assert (Hpf : pause_on_drop seg = false).
    { destruct (pause_on_drop seg); [|done]. specialize (Hpe eq_refl). congruence. }
    rewrite Hpf, orb_false_r in Hpd. rewrite Hsent in Hpd, Hse.
    split; [|split; [done|split; [done|split]]].
    + split; [done|]. split; [done|]. unfold full_body, short_body. cbn [fst snd]. rewrite zlen_app, Hpd, Hse.
      split_and!; try done.
      * intros Hle. split; [lia|]. intros Hn. apply (f_equal zlen) in Hn. rewrite zlen_app in Hn. change (zlen []) with 0 in Hn. lia.
      * intros Hle. right. lia.
    + destruct Hrest as (pa & re & ? & ? & ? & Hre). exists pa, re. split_and!; try done. intros _. by apply Hre.
    + exists groups, (cur ++ [data]). split; [done|]. rewrite (app_assoc (concat groups)). split; [|done].
      apply frames_from_app; [done|]. apply frames_from_one. rewrite zlen_app in Hw. done.
Qed.

Lemma tunnel_inv_drop w seg out :
  live w = Some (seg, out) -> tunnel_inv w ->
  tunnel_inv (mkTW (segment_drop seg (actor w)) None (bodies w ++ [(out, pause_on_drop seg)])).
Proof.
  intros Hl (Hm & Hlive & Hfull & Hshort & (paused & rest & Hbo & Hpa & Hlr & Hre) & groups & cur & Hb & Hf & Hhold).
  unfold live_ok, live_out in *. unfold holder in Hre, Hhold. rewrite Hl in *.
  destruct Hlive as (Hsm & Hsent & Hfb & Hsb & Hpe & [s Hs] & Hslot).
  rewrite Hs in Hhold, Hre. rewrite (Hre ltac:(done)), app_nil_r in Hbo.
  set (act := segment_drop seg (actor w)).
  assert (Hact : t_max_download_bytes act = t_max_download_bytes (actor w) /\
    shaper_slot act = if pause_on_drop seg then
      match shaper_slot (actor w) with Some _ => Some (Some s) | None => None end else shaper_slot (actor w)).
  { unfold act, segment_drop. rewrite Hs. destruct (pause_on_drop seg); destruct (shaper_slot (actor w)) eqn:Hq;
      destruct (_ <? _); cbn; rewrite ?Hq; done. }
  destruct Hact as [Hm' Hslot'].
  unfold tunnel_inv, live_ok, live_out, holder. cbn [live actor bodies]. rewrite Hm', Hslot'.
  split; [done|]. split; [done|]. rewrite !Forall_app.
  split; [by split; [|constructor]|]. split; [by split; [|constructor]|]. split.
  - destruct (pause_on_drop seg) eqn:Hq.
    + exists (paused ++ [(out, true)]), []. rewrite app_nil_r, Hbo. split; [done|].
      split; [apply Forall_app; split; [done|by constructor]|]. split; [cbn; lia|done].
    + exists paused, [(out, false)]. rewrite Hbo. split; [done|]. split; [done|]. split; [done|].
      destruct (shaper_slot (actor w)) as [[s1|]|] eqn:Hq2; [|done..]. by destruct (Hslot s1).
  - exists (groups ++ [cur]), []. rewrite map_app, concat_app. cbn [map concat fst]. rewrite !app_nil_r.
    split; [by apply bodies_from_snoc|]. split; [done|].
    assert (Hlost : Forall (fun d => d <> []) (concat groups ++ cur) /\
      exists rest0, total = concat (concat groups ++ cur) ++ rest0).
    { destruct Hhold as (_ & _ & Hn & Ht & _). split; [done|]. by exists (backlog s). }
    destruct (pause_on_drop seg); destruct (shaper_slot (actor w)) as [[s1|]|] eqn:Hq; try done. by destruct (Hslot s1).
Qed.

Lemma tunnel_inv_round w is_closed ev rs act' :
  tunnel_round is_closed ev (actor w) = Some (rs, act') -> tunnel_inv w ->
  tunnel_inv (mkTW act' (next_live rs (live w)) (bodies w)).
Proof.
  intros Hr Hi. apply tunnel_round_hands in Hr as (a1 & [Hm1 Hh] & Hcl).
  assert (Hact : t_max_download_bytes act' = t_max_download_bytes (actor w) /\
    (shaper_slot act' = shaper_slot a1 \/ shaper_slot act' = None)) by (destruct Hcl as [->| ->]; auto).
  destruct Hact as [Hm' Hslot']. clear Hcl.
  destruct Hi as (Hm & Hlive & Hfull & Hshort & Hrest & groups & cur & Hb & Hf & Hhold).
  unfold tunnel_inv, live_ok, holder, live_out, next_live in *. cbn [live actor bodies]. rewrite Hm'.
  split; [done|]. destruct Hh as [[-> Hsl]|(s & Hs & Hsl & ->)].
  - rewrite Hsl in Hslot'. clear Hsl Hm1.
    destruct (live w) as [[seg out]|].
    + split; [|split; [done|split; [done|split; [done|by exists groups, cur]]]]. destruct Hlive as (? & ? & ? & ? & ? & ? & Hno). split_and!; try done.
      intros s1. destruct Hslot' as [->| ->]; [apply Hno|done].
    + split; [done|]. split; [done|]. split; [done|]. destruct Hslot' as [->| ->]; [by split; [|exists groups, cur]|].
      split.
      * destruct Hrest as (pa & re & ? & ? & ? & Hre). exists pa, re. split_and!; try done.
      * exists groups, cur. split; [done|]. split; [done|].
        destruct (shaper_slot (actor w)) as [[s|]|]; [|done..]. destruct Hhold as (_ & _ & Hn & Ht & _).
        split; [done|]. by exists (backlog s).
  - assert (Hnone : live w = None).
    { destruct (live w) as [[seg out]|]; [|done]. by destruct Hlive as (_ & _ & _ & _ & _ & _ & Hno); destruct (Hno s). }
    rewrite Hnone, Hs in *. cbn [Segment_new seg_max_bytes seg_sent pause_on_drop seg_ended seg_shaper].
    split.
    + do 3 (split; [done|]). split; [by left|]. split; [done|]. split; [by eexists|]. intros s1. rewrite Hsl in Hslot'. destruct Hslot' as [->| ->]; done.
    + split; [done|]. split; [done|]. split; [done|]. by exists groups, cur.
Qed.

Lemma tunnel_inv_steps w w' : tunnel_inv w -> tsteps jitter_table w w' -> tunnel_inv w'.
Proof.
  intros Hi Hs. induction Hs as [|w w1 w2 _ IH Hstep]; [done|]. specialize (IH Hi).
  destruct Hstep; [by eapply tunnel_inv_poll|by apply tunnel_inv_drop|by eapply tunnel_inv_round].
Qed.
End tunnel_proofs.

(** ** Properties *)

Lemma start_tunnel_inv `{C : FrameCipher} `{B : Base122} config m rd now word :
  validate config = Ok tt -> config_unsigned config ->
  tunnel_inv (encoding_type config) (input rd) m (start_tunnel m rd (resolve config) now word).
Proof.
  intros Hv Hu. unfold tunnel_inv, live_ok, holder, live_out, start_tunnel. cbn -[input].
  split; [done|]. split; [split_and!; first [done|by left|by eexists]|]. split; [constructor|]. split; [constructor|].
  split; [exists [], []; split_and!; first [done|cbn; lia]|]. exists [], []. split; [done|]. split; [done|].
  split; [by apply with_seq_wf|]. split; [done|]. split; [done|]. split; done.
Qed.

(** What the bodies given out so far carry, and why each of them ended. *)
Definition bodies_carry `{C : FrameCipher} `{B : Base122} (jitter_table : Z -> Z) (enc : EncodingType)
    (total : bytes) (m : Z) (w : TunnelWorld) (groups : list (list bytes)) (cur : list bytes) (rest : bytes) : Prop :=
  bodies_from enc 0 groups (map fst (bodies w)) /\
  frames_from enc (zlen (concat groups)) cur (live_out w) /\
  total = concat (concat groups ++ cur) ++ rest /\
  Forall (fun d => d <> []) (concat groups ++ cur) /\
  (forall before b after, bodies w = before ++ b :: after -> after <> [] \/ live w <> None ->
     snd b = true /\ m <= zlen (fst b) /\ fst b <> []) /\
  Forall (fun b => snd b = false -> fst b = [] \/ zlen (fst b) < m) (bodies w) /\
  (forall seg out, live w = Some (seg, out) -> seg_ended seg = false -> out = [] \/ zlen out < m) /\
  (forall env now seg out seg' act', env_ok env -> live w = Some (seg, out) ->
     seg_ended seg = false -> cancelled (actor w) = false ->
     segment_poll jitter_table env now seg (actor w) = (Ready None, seg', act') -> rest = []).

Lemma tunnel_bodies_carry `{C : FrameCipher} {L : FrameCipherLaws C} `{B : Base122} {BL : Base122Laws B}
    jitter_table config m rd now word w :
  validate config = Ok tt -> config_unsigned config -> zlen (input rd) < u64_max ->
  tsteps jitter_table (start_tunnel m rd (resolve config) now word) w ->
  exists groups cur rest, bodies_carry jitter_table (encoding_type config) (input rd) m w groups cur rest.
Proof.
  intros Hv Hu Hmax Hs.
  pose proof (tunnel_inv_steps jitter_table (encoding_type config) (input rd) m Hmax _ _
    (start_tunnel_inv config m rd now word Hv Hu) Hs)
    as (_ & Hlive & Hfull & Hshort & (paused & last & Hbo & Hpa & Hlast & Hre) & groups & cur & Hb & Hf & Hhold).
  assert (Hrest : Forall (fun d => d <> []) (concat groups ++ cur) /\
    exists rest, input rd = concat (concat groups ++ cur) ++ rest /\ forall s, holder w = Some s -> rest = backlog s).
  { destruct (holder w) as [s|]; [|destruct Hhold as [Hn [rest ?]]; split; [done|]; by exists rest].
    destruct Hhold as (_ & _ & Hn & Ht & _). split; [done|]. exists (backlog s). split; [done|]. by intros s' [= ->]. }
  destruct Hrest as (Hn & rest & Ht & Hback). exists groups, cur, rest. do 4 (split; [done|]).
  split; [|split; [done|split]].
  - intros before b after Hsp Hor. assert (Hpb : snd b = true).
    { assert (Hin : b ∈ paused); [|by rewrite Forall_forall in Hpa; apply Hpa].
      destruct after as [|a after] using rev_ind.
      - destruct Hor as [?|Hl]; [done|]. rewrite Hre, app_nil_r in Hbo.
        + rewrite <- Hbo, Hsp. apply elem_of_app. right. by left.
        + unfold holder, live_ok in *. destruct (live w) as [[seg out]|]; [|done].
          destruct Hlive as (_ & _ & _ & _ & _ & [s ->] & _). done.
      - clear IHafter. destruct last as [|x [|y last]]; [..|cbn in Hlast; lia].
        + rewrite app_nil_r in Hbo. rewrite <- Hbo, Hsp. apply elem_of_app. right. by left.
        + rewrite Hsp, app_comm_cons, app_assoc in Hbo. apply app_inj_tail in Hbo as [<- _].
          apply elem_of_app. right. by left. }
    split; [done|]. rewrite Forall_forall in Hfull. apply Hfull; [|done]. rewrite Hsp. apply elem_of_app. right. by left.
  - intros seg out Hl Hend. unfold live_ok in Hlive. rewrite Hl in Hlive.
    destruct Hlive as (_ & _ & _ & Hsb & Hpe & _). apply Hsb. cbn. destruct (pause_on_drop seg); [|done].
    rewrite Hpe in Hend; done.
  - intros env now' seg out seg' act' He Hl Hend Hcan Hp. unfold live_ok, holder in *. rewrite Hl in *.
    destruct Hlive as (_ & _ & _ & _ & _ & [s Hs'] & _). rewrite Hs' in *.
    destruct (segment_poll_cases jitter_table (encoding_type config) (input rd) Hmax env now' seg (actor w) s _ _ _
      He Hs' Hp _ Hhold) as (_ & _ & s' & _ & _ & _ & _ & [(_ & Hc & _ & _ & Hbl)|(data & f & Hg & Hw & _)]).
    + destruct Hc as (_ & _ & _ & Ht' & _). rewrite Hbl in Ht' by done. rewrite Ht in Ht'. by apply app_inv_head in Ht'.
    + cbn in Hg. subst f. apply is_frame_len in Hw as [Hw _]. by change (0 < 0) in Hw.
Qed.

(** C12: however the bodies of a segmented tunnel are polled and dropped, and
    whatever commands, timers and cancellations the actor sees, the bodies
    given out carry, one after the other, whole frames numbered on from zero,
    whose data is a prefix of what the upstream sends. Every body that another
    one follows was cut at the limit: it is at least that long, while a body
    that ended otherwise is shorter; and a body that runs to the end of the
    stream completes the data. *)
Theorem segments_carry_stream `{C : FrameCipher} (L : FrameCipherLaws C) `{B : Base122} (BL : Base122Laws B)
    jitter_table config m rd now word w :
  validate config = Ok tt -> config_unsigned config -> zlen (input rd) < u64_max ->
  tsteps jitter_table (start_tunnel m rd (resolve config) now word) w ->
  exists groups cur rest,
    bodies_from (encoding_type config) 0 groups (map fst (bodies w)) /\
    frames_from (encoding_type config) (zlen (concat groups)) cur (live_out w) /\
    input rd = concat (concat groups ++ cur) ++ rest /\
    (forall before b after, bodies w = before ++ b :: after -> after <> [] \/ live w <> None ->
       snd b = true /\ m <= zlen (fst b) /\ fst b <> []) /\
    Forall (fun b => snd b = false -> fst b = [] \/ zlen (fst b) < m) (bodies w) /\
    (forall env now' seg out seg' act', env_ok env -> live w = Some (seg, out) ->
       seg_ended seg = false -> cancelled (actor w) = false ->
       segment_poll jitter_table env now' seg (actor w) = (Ready None, seg', act') -> rest = []).
Proof.
  intros Hv Hu Hmax Hs. destruct (tunnel_bodies_carry jitter_table config m rd now word w Hv Hu Hmax Hs)
    as (groups & cur & rest & Hb & Hf & Ht & _ & Hcut & Hshort & _ & Hend).
  exists groups, cur, rest. split_and!; try done.
Qed.

(** A request to continue that is abandoned just after the rotation began
    stops the tunnel: the slot still holds the shaper, but the actor leaves
    the rotating phase, in which alone it would time out or serve, and every
    later request to continue is answered with nothing. *)
Lemma abandoned_continue_stalls is_closed1 reply1 now1 rs1 this this1 is_closed2 reply2 now2 :
  t_phase this = TRotating -> segment_active this = false -> shaper_alive this = true ->
  is_closed1 reply1 = true ->
  tunnel_round is_closed1 (EvContinue now1 reply1) this = Some (rs1, this1) ->
  rs1 = [] /\ shaper_alive this1 = true /\
  tunnel_round is_closed2 EvRotationStale this1 = None /\
  exists this2, tunnel_round is_closed2 (EvContinue now2 reply2) this1 = Some ([(reply2, None)], this2) /\
    shaper_alive this2 = true.
Proof.
  intros Hp Ha Hs Hc Hr. unfold tunnel_round, tunnel_event, dispatch_cmd in Hr.
  change (t_phase (touch this now1)) with (t_phase this) in Hr. rewrite Hp, Hc in Hr. cbn in Hr. injection Hr as <- <-.
  split; [done|]. split; [done|]. split; [done|].
  unfold tunnel_round, tunnel_event, dispatch_cmd. cbn. rewrite Ha. cbn. eexists. split; [done|]. exact Hs.
Qed.

(** ** Witnesses *)

(** A tunnel that sends one frame, over its limit of ten bytes, and rotates. *)
Definition tw0 : TunnelWorld := start_tunnel 10 [RdData (str "hello"); RdPending] (resolve toy_config) 0 7.

Definition poll_world (w : TunnelWorld) : TunnelWorld :=
  match live w with
  | Some (seg, out) =>
      let '(r, seg', act') :=
        segment_poll (C := aes_frame_cipher toy_aes) (fun _ => 5) (toy_env true) 3 seg (actor w) in
      mkTW act' (Some (seg', out ++ given r)) (bodies w)
  | None => w
  end.
Definition drop_world (w : TunnelWorld) : TunnelWorld :=
  match live w with
  | Some (seg, out) => mkTW (segment_drop seg (actor w)) None (bodies w ++ [(out, pause_on_drop seg)])
  | None => w
  end.
Definition round_world (ev : TunnelEvent) (w : TunnelWorld) : TunnelWorld :=
  match tunnel_round (fun _ => false) ev (actor w) with
  | Some (rs, act') => mkTW act' (next_live rs (live w)) (bodies w)
  | None => w
  end.

Lemma poll_world_step w : live w <> None -> tstep (C := aes_frame_cipher toy_aes) (fun _ => 5) w (poll_world w).
Proof.
  intros Hl. unfold poll_world. destruct (live w) as [[seg out]|] eqn:E; [|done].
  destruct (segment_poll _ _ _ _ _) as [[r seg'] act'] eqn:E2.
  apply (ts_poll _ w (toy_env true) 3 seg out r); [apply toy_env_ok|done..].
Qed.

Lemma drop_world_step w : live w <> None -> tstep (C := aes_frame_cipher toy_aes) (fun _ => 5) w (drop_world w).
Proof. intros Hl. unfold drop_world. destruct (live w) as [[seg out]|] eqn:E; [|done]. by apply ts_drop. Qed.

Lemma round_world_step ev w :
  t_phase (actor w) <> TClosed -> tunnel_round (fun _ => false) ev (actor w) <> None ->
  tstep (C := aes_frame_cipher toy_aes) (fun _ => 5) w (round_world ev w).
Proof.
  intros Hp Hl. unfold round_world. destruct (tunnel_round _ _ _) as [[rs act']|] eqn:E; [|done].
  by eapply ts_round.
Qed.

Definition tw4 : TunnelWorld :=
  poll_world (round_world (EvContinue 4 77) (round_world EvSegmentDone (drop_world (poll_world tw0)))).

Lemma toy_tunnel_steps : tsteps (C := aes_frame_cipher toy_aes) (fun _ => 5) tw0 tw4.
Proof.
  do 5 (eapply tsteps_snoc; [|first [apply poll_world_step|apply drop_world_step|apply round_world_step];
    vm_compute; discriminate]). apply tsteps_refl.
Qed.

Lemma segments_carry_stream_witness :
  length (bodies tw4) = 1%nat /\
  exists groups cur rest,
    bodies_from (C := aes_frame_cipher toy_aes) Json 0 groups (map fst (bodies tw4)) /\
    frames_from (C := aes_frame_cipher toy_aes) Json (zlen (concat groups)) cur (live_out tw4) /\
    str "hello" = concat (concat groups ++ cur) ++ rest.
Proof.
  split; [vm_compute; reflexivity|].
  destruct (segments_carry_stream (aes_frame_cipher_laws toy_aes) toy_base122_laws (fun _ => 5) toy_config 10
    [RdData (str "hello"); RdPending] 0 7 tw4) as (groups & cur & rest & H1 & H2 & H3 & _).
  - reflexivity.
  - split; [vm_compute; congruence|]. repeat constructor; vm_compute; congruence.
  - reflexivity.
  - exact toy_tunnel_steps.
  - exists groups, cur, rest. split; [exact H1|]. split; [exact H2|]. exact H3.
Defined.
