(* ===== verification/Service.v ===== *)
(** * One stream at the server

    The requests of one stream and its two actors, put together the way
    [src/server/handlers.rs] and [src/server/actor/tunnel.rs] wire them: the
    request that opens the stream, the requests that upload to it or ask it to
    continue, the bounded channels to the actors, their replies, and the order
    in which everything is taken down. Each [await] at which another task can
    run ends a step. *)

From S2P Require Import Prelude Cipher Frame Shaper Decoder Errors Text Cookie Token Registry Crypto Upstream Upload Handlers Tunnel.

Definition TUNNEL_CMD_CHANNEL_CAPACITY : Z := 32.
Definition UPLOAD_CMD_CHANNEL_CAPACITY : Z := 8.

(** A command with the request whose reply channel it carries. *)
Inductive TunnelCmd : Type := TcContinue (reply : Z) | TcShutdown.

(** ** Requests *)

(** [setup_tunnel_response] or [dispatch_to_actor]. *)
Inductive RequestKind : Type := KOpen | KUpload.

(** How a request is answered: with the tunnel's first body, with the next
    body, with no further body, after the upstream took its frames, or with an
    error. *)
Inductive RequestAnswer : Type :=
| AnsOpened
| AnsSegment
| AnsNoSegment
| AnsUploaded
| AnsError (e : ServerError)
| AnsPanic.

(** Where a request waits; [RqGone] is one whose client went away. *)
Inductive RequestPhase : Type :=
| RqReading
| RqSendFrame (seq : Z) (data : bytes)
| RqOpening
| RqSendContinue
| RqAwaitSegment
| RqSendEos
| RqAwaitAck
| RqDone (a : RequestAnswer)
| RqGone.

Record Request : Type := mkRequest {
  rq_kind : RequestKind;
  rq_body : list BodyEvent;
  rq_decoder : FrameDecoder;
  rq_max_seq : Z;
  rq_frame_count : Z;
  rq_phase : RequestPhase
}.

Definition set_rq_phase (rq : Request) (p : RequestPhase) : Request :=
  mkRequest (rq_kind rq) (rq_body rq) (rq_decoder rq) (rq_max_seq rq) (rq_frame_count rq) p.

(** What a decoder error and a closed upload channel are called. *)
Definition decode_error_text (k : RequestKind) : string :=
  match k with KOpen => "decode error: " | KUpload => "frame decode error: " end.
Definition closed_error (k : RequestKind) : ServerError :=
  match k with
  | KOpen => bad_gateway "upload actor closed during initial stream"
  | KUpload => bad_gateway "upload actor closed"
  end.

(** ** The stream *)

(** Opening and serving; then [cleanup], which first sends the upload actor its
    shutdown and then waits for it; over; or a set-up that failed. *)
Inductive Stage : Type := StOpening | StServing | StCleanup | StJoining | StOver | StFailed.

#[export] Instance Stage_eq_dec : EqDecision Stage.
Proof. solve_decision. Defined.

(** The single body of a tunnel without a limit. *)
Record DirectBody : Type := mkDirect { db_shaper : TrafficShaper; db_out : bytes; db_ended : bool }.

Section service.
Context `{W : FrameSink} `{B : Base122}.

Record StreamWorld : Type := mkStream {
  sw_app : AppState;
  sw_queue : list UploadCmd;
  sw_upload : UploadActor;
  sw_upload_stopped : bool;
  sw_commands : list TunnelCmd;
  sw_tunnel : option TunnelWorld;
  sw_direct : option DirectBody;
  sw_stage : Stage;
  sw_requests : gmap Z Request
}.

Definition set_app (w : StreamWorld) (a : AppState) : StreamWorld :=
  mkStream a (sw_queue w) (sw_upload w) (sw_upload_stopped w) (sw_commands w) (sw_tunnel w) (sw_direct w)
    (sw_stage w) (sw_requests w).
Definition set_queue (w : StreamWorld) (q : list UploadCmd) : StreamWorld :=
  mkStream (sw_app w) q (sw_upload w) (sw_upload_stopped w) (sw_commands w) (sw_tunnel w) (sw_direct w)
    (sw_stage w) (sw_requests w).
Definition set_upload (w : StreamWorld) (u : UploadActor) (stopped : bool) : StreamWorld :=
  mkStream (sw_app w) (sw_queue w) u stopped (sw_commands w) (sw_tunnel w) (sw_direct w)
    (sw_stage w) (sw_requests w).
Definition set_commands (w : StreamWorld) (c : list TunnelCmd) : StreamWorld :=
  mkStream (sw_app w) (sw_queue w) (sw_upload w) (sw_upload_stopped w) c (sw_tunnel w) (sw_direct w)
    (sw_stage w) (sw_requests w).
Definition set_tunnel (w : StreamWorld) (t : option TunnelWorld) : StreamWorld :=
  mkStream (sw_app w) (sw_queue w) (sw_upload w) (sw_upload_stopped w) (sw_commands w) t (sw_direct w)
    (sw_stage w) (sw_requests w).
Definition set_direct (w : StreamWorld) (d : option DirectBody) : StreamWorld :=
  mkStream (sw_app w) (sw_queue w) (sw_upload w) (sw_upload_stopped w) (sw_commands w) (sw_tunnel w) d
    (sw_stage w) (sw_requests w).
Definition set_stage (w : StreamWorld) (s : Stage) : StreamWorld :=
  mkStream (sw_app w) (sw_queue w) (sw_upload w) (sw_upload_stopped w) (sw_commands w) (sw_tunnel w) (sw_direct w)
    s (sw_requests w).
Definition set_requests (w : StreamWorld) (r : gmap Z Request) : StreamWorld :=
  mkStream (sw_app w) (sw_queue w) (sw_upload w) (sw_upload_stopped w) (sw_commands w) (sw_tunnel w) (sw_direct w)
    (sw_stage w) r.
Definition set_request (w : StreamWorld) (n : Z) (rq : Request) : StreamWorld :=
  set_requests w (<[n := rq]> (sw_requests w)).

Definition awaits_segment (w : StreamWorld) (n : Z) : bool :=
  match sw_requests w !! n with
  | Some rq => match rq_phase rq with RqAwaitSegment => true | _ => false end
  | None => false
  end.

Context (Cu Cd : FrameCipher) (jitter_table : Z -> Z).
Context (cfg : ServerConfig) (ukey stream_id : bytes) (upstream_read : list ReadEvent).

Abbreviation enc := (encoding_type (srv_traffic cfg)).

(** After the connection to the target: the permit is taken, the upload actor
    runs, and the opening request, number 0, reads its body. *)
Definition stream_start (app : AppState) (up : sink) (body : list BodyEvent) (now : Z) : StreamWorld :=
  mkStream (mkState (master_store app) (stream_registry app) (actors app) (tunnel_permits app - 1)) []
    (UploadActor_new up 0 now) false [] None None StOpening
    {[ 0 := mkRequest KOpen body (FrameDecoder_new body enc MAX_FRAME_BUF_SIZE) 0 0 RqReading ]}.

(** A request ends. If it was to open the stream and did not, its stream guard
    and its permit are dropped. *)
Definition finish (w : StreamWorld) (n : Z) (rq : Request) (p : RequestPhase) : StreamWorld :=
  let w := set_request w n (set_rq_phase rq p) in
  match rq_kind rq with
  | KUpload => w
  | KOpen =>
      let app := drop_stream_guard stream_id (sw_app w) in
      set_stage (set_app w (mkState (master_store app) (stream_registry app) (actors app) (tunnel_permits app + 1)))
        StFailed
  end.

Definition fail (w : StreamWorld) (n : Z) (rq : Request) (e : ServerError) : StreamWorld :=
  finish w n rq (RqDone (AnsError e)).

(** One poll of the body's decoder. Only uploads use the greatest number. *)
Definition read_step (n : Z) (rq : Request) (w : StreamWorld) : option StreamWorld :=
  '(res, decoder) ← decoder_poll_next (C := Cu) (rq_decoder rq);
  let next max_seq p := mkRequest (rq_kind rq) (rq_body rq) decoder max_seq (rq_frame_count rq) p in
  Some
    match res with
    | Pending => set_request w n (next (rq_max_seq rq) RqReading)
    | Ready (Some (Ok (seq, data))) => set_request w n (next (Z.max (rq_max_seq rq) seq) (RqSendFrame seq data))
    | Ready (Some (Err e)) =>
        fail w n rq (bad_request (String.append (decode_error_text (rq_kind rq)) (msg e)))
    | Ready (Some Panic) => finish w n rq (RqDone AnsPanic)
    | Ready None =>
        set_request w n (next (rq_max_seq rq)
          match rq_kind rq with
          | KOpen => RqOpening
          | KUpload => if rq_frame_count rq =? 0 then RqSendContinue else RqSendEos
          end)
    end.

(** [upload_tx.send]: it waits while the channel is full and fails when the
    actor is gone. *)
Definition send_step (n : Z) (rq : Request) (w : StreamWorld) : option StreamWorld :=
  match rq_phase rq with
  | RqSendFrame seq data =>
      if sw_upload_stopped w then Some (fail w n rq (closed_error (rq_kind rq)))
      else if zlen (sw_queue w) <? UPLOAD_CMD_CHANNEL_CAPACITY then
        Some (set_request (set_queue w (sw_queue w ++ [CmdFrame seq data])) n
          (mkRequest (rq_kind rq) (rq_body rq) (rq_decoder rq) (rq_max_seq rq) (rq_frame_count rq + 1) RqReading))
      else None
  | RqSendEos =>
      if sw_upload_stopped w then Some (fail w n rq (closed_error (rq_kind rq)))
      else if zlen (sw_queue w) <? UPLOAD_CMD_CHANNEL_CAPACITY then
        Some (set_request (set_queue w (sw_queue w ++ [CmdEos (rq_max_seq rq) n])) n (set_rq_phase rq RqAwaitAck))
      else None
  | RqSendContinue =>
      if decide (sw_stage w = StOver) then Some (fail w n rq (bad_gateway "actor closed"))
      else if zlen (sw_commands w) <? TUNNEL_CMD_CHANNEL_CAPACITY then
        Some (set_request (set_commands w (sw_commands w ++ [TcContinue n])) n (set_rq_phase rq RqAwaitSegment))
      else None
  | _ => None
  end.

(** The end of [setup_tunnel_response]: the tunnel, its first body and its
    handle. *)
Definition open_step (n : Z) (rq : Request) (now word : Z) (w : StreamWorld) : StreamWorld :=
  let config := resolve (srv_traffic cfg) in
  let '(tunnel, direct) :=
    match max_download_bytes (srv_traffic cfg) with
    | None =>
        (mkTW (TunnelActor_new None now) None [],
         Some (mkDirect (with_seq upstream_read config 0 now word) [] false))
    | Some m => (start_tunnel m upstream_read config now word, None)
    end in
  let app := sw_app w in
  let app := mkState (master_store app) (stream_registry app) (<[stream_id := mkHandle ukey enc]> (actors app)) (tunnel_permits app) in
  set_request (set_stage (set_direct (set_tunnel (set_app w app) (Some tunnel)) direct) StServing) n
    (set_rq_phase rq (RqDone AnsOpened)).

(** The reply of an actor, once it is there, or its dropped channel. *)
Definition reply_step (n : Z) (rq : Request) (w : StreamWorld) : option StreamWorld :=
  match rq_phase rq with
  | RqAwaitAck =>
      match list_find (fun a => fst a = n) (answered (sw_upload w)) with
      | Some (_, (_, Ok tt)) => Some (finish w n rq (RqDone AnsUploaded))
      | Some (_, (_, Err e)) => Some (fail w n rq e)
      | Some (_, (_, Panic)) => Some (finish w n rq (RqDone AnsPanic))
      | None =>
          if sw_upload_stopped w then Some (fail w n rq (bad_gateway "actor closed before upload ack")) else None
      end
  | RqAwaitSegment =>
      if decide (sw_stage w = StOver) then Some (finish w n rq (RqDone AnsNoSegment)) else None
  | _ => None
  end.

(** The timeouts around reading a body and around the two replies. *)
Definition timeout_step (n : Z) (rq : Request) (w : StreamWorld) : option StreamWorld :=
  match rq_phase rq with
  | RqReading => Some (fail w n rq (request_timeout "request body read timed out"))
  | RqAwaitSegment => Some (fail w n rq (gateway_timeout "continue timed out"))
  | RqAwaitAck => Some (fail w n rq (gateway_timeout "upload drain timeout"))
  | _ => None
  end.

(** A client can go away wherever its request waits. *)
Definition is_waiting (p : RequestPhase) : bool :=
  match p with RqDone _ | RqGone | RqOpening => false | _ => true end.

(** ** The actors *)

(** One event of the upload actor; once it stops, its channel is gone with
    all that is in it. *)
Definition upload_step (ev : UploadEvent) (queue : list UploadCmd) (w : StreamWorld) : StreamWorld :=
  let '(stop, upload) := run_step ev (sw_upload w) in
  if stop then set_upload (set_queue w []) (ack_all_waiters upload) true
  else set_upload (set_queue w queue) upload false.

(** The segment among the replies goes to its request; if that is gone, it is
    dropped at once. *)
Definition answer_request (w : StreamWorld) (r : Reply) : StreamWorld :=
  let '(n, segment) := r in
  match sw_requests w !! n with
  | Some rq =>
      if awaits_segment w n
      then set_request w n (set_rq_phase rq (RqDone match segment with Some _ => AnsSegment | None => AnsNoSegment end))
      else w
  | None => w
  end.

Definition claimed (w : StreamWorld) (rs : list Reply) : bool :=
  forallb (fun r => match snd r with Some _ => awaits_segment w (fst r) | None => true end) rs.

Definition drop_live (t : TunnelWorld) : TunnelWorld :=
  match live t with
  | Some (seg, out) => mkTW (segment_drop seg (actor t)) None (bodies t ++ [(out, pause_on_drop seg)])
  | None => t
  end.

(** One round of the tunnel actor; [seen] are the requests whose absence it
    notices. After the last round, [cleanup] marks the stream consumed. *)
Definition tunnel_step (seen : Z -> bool) (ev : TunnelEvent) (w : StreamWorld) : option StreamWorld :=
  t ← sw_tunnel w;
  '(rs, a) ← tunnel_round (fun n => negb (awaits_segment w n) && seen n) ev (actor t);
  let t := mkTW a (next_live rs (live t)) (bodies t) in
  let t := if claimed w rs then t else drop_live t in
  let w := foldl answer_request (set_tunnel w (Some t)) rs in
  Some (if decide (t_phase a = TClosed)
        then set_stage (set_app w (set_registry (sw_app w) (mark_consumed stream_id (stream_registry (sw_app w))))) StCleanup
        else w).

(** ** Steps *)

Inductive StreamEvent : Type :=
| SvRequest (n : Z) (body : list BodyEvent)
| SvRead (n : Z)
| SvSend (n : Z)
| SvOpened (n now word : Z)
| SvReply (n : Z)
| SvTimeout (n : Z)
| SvCancel (n : Z)
| SvUpload (now : Z)
| SvUploadClosed
| SvUploadTimer (now : Z)
| SvCommand (now : Z) (seen : Z -> bool)
| SvTunnel (ev : TunnelEvent) (seen : Z -> bool)
| SvShutdownSent
| SvJoined
| SvBodyPoll (env : PollEnv) (now : Z)
| SvBodyDrop
| SvDirectPoll (env : PollEnv) (now : Z)
| SvDirectDrop.

Definition with_request (n : Z) (w : StreamWorld) (f : Request -> option StreamWorld) : option StreamWorld :=
  rq ← sw_requests w !! n; f rq.

(** A command of the channel as an event of the tunnel actor. *)
Definition command_event (now : Z) (cmd : TunnelCmd) : TunnelEvent :=
  match cmd with TcContinue reply => EvContinue now reply | TcShutdown => EvShutdownCmd now end.

(** One step; [None] when the event cannot happen. *)
Definition stream_step (ev : StreamEvent) (w : StreamWorld) : option StreamWorld :=
  match ev with
  | SvRequest n body =>
      match actors (sw_app w) !! stream_id, sw_requests w !! n with
      | Some h, None =>
          Some (set_request w n (mkRequest KUpload body (FrameDecoder_new body (handle_encoding h) MAX_FRAME_BUF_SIZE) 0 0 RqReading))
      | _, _ => None
      end
  | SvRead n => with_request n w (fun rq => match rq_phase rq with RqReading => read_step n rq w | _ => None end)
  | SvSend n => with_request n w (fun rq => send_step n rq w)
  | SvOpened n now word =>
      with_request n w (fun rq => match rq_phase rq with RqOpening => Some (open_step n rq now word w) | _ => None end)
  | SvReply n => with_request n w (fun rq => reply_step n rq w)
  | SvTimeout n => with_request n w (fun rq => timeout_step n rq w)
  | SvCancel n =>
      with_request n w (fun rq => if is_waiting (rq_phase rq) then Some (finish w n rq RqGone) else None)
  | SvUpload now =>
      match sw_queue w with
      | cmd :: queue => if sw_upload_stopped w then None else Some (upload_step (EvCmd now cmd) queue w)
      | [] => None
      end
  | SvUploadClosed =>
      match sw_queue w, sw_stage w with
      | [], StFailed => if sw_upload_stopped w then None else Some (upload_step EvChannelClosed [] w)
      | _, _ => None
      end
  | SvUploadTimer now => if sw_upload_stopped w then None else Some (upload_step (EvTimer now) (sw_queue w) w)
  | SvCommand now seen =>
      match sw_stage w, sw_commands w with
      | StServing, cmd :: commands => tunnel_step seen (command_event now cmd) (set_commands w commands)
      | _, _ => None
      end
  | SvTunnel ev seen =>
      match sw_stage w, ev with
      | _, EvContinue _ _ | _, EvShutdownCmd _ => None
      | StServing, _ => tunnel_step seen ev w
      | _, _ => None
      end
  | SvShutdownSent =>
      match sw_stage w with
      | StCleanup =>
          if sw_upload_stopped w then Some (set_stage w StJoining)
          else if zlen (sw_queue w) <? UPLOAD_CMD_CHANNEL_CAPACITY
          then Some (set_stage (set_queue w (sw_queue w ++ [CmdShutdown])) StJoining)
          else None
      | _ => None
      end
  | SvJoined =>
      match sw_stage w with
      | StJoining =>
          if sw_upload_stopped w then Some (set_stage (set_app w (end_tunnel stream_id (sw_app w))) StOver) else None
      | _ => None
      end
  | SvBodyPoll env now =>
      t ← sw_tunnel w;
      '(seg, out) ← live t;
      let '(r, seg, a) := segment_poll (C := Cd) jitter_table env now seg (actor t) in
      Some (set_tunnel w (Some (mkTW a (Some (seg, out ++ given r)) (bodies t))))
  | SvBodyDrop => t ← sw_tunnel w; _ ← live t; Some (set_tunnel w (Some (drop_live t)))
  | SvDirectPoll env now =>
      t ← sw_tunnel w;
      d ← sw_direct w;
      if db_ended d then None
      else
        match poll_next (C := Cd) jitter_table env (db_shaper d) with
        | Some (Ready (Ok (Some (_, data))), shaper) =>
            Some (set_direct (set_tunnel w (Some (mkTW (touch (actor t) now) (live t) (bodies t))))
              (Some (mkDirect shaper (db_out d ++ data) false)))
        | Some (Pending, shaper) => Some (set_direct w (Some (mkDirect shaper (db_out d) false)))
        | Some (Ready _, shaper) => Some (set_direct w (Some (mkDirect shaper (db_out d) true)))
        | None => None
        end
  | SvDirectDrop => _ ← sw_direct w; Some (set_direct w None)
  end.

Inductive stream_steps : StreamWorld -> list StreamEvent -> StreamWorld -> Prop :=
| sv_nil w : stream_steps w [] w
| sv_snoc w evs w1 ev w2 : stream_steps w evs w1 -> stream_step ev w1 = Some w2 -> stream_steps w (evs ++ [ev]) w2.
End service.

(** ** Lemmas *)

Section effects.
Context `{W : FrameSink} `{B : Base122}.
Context (Cu Cd : FrameCipher) (jitter_table : Z -> Z).
Context (cfg : ServerConfig) (ukey stream_id : bytes) (upstream_read : list ReadEvent).

Abbreviation enc := (encoding_type (srv_traffic cfg)).
Abbreviation stream_step := (stream_step Cu Cd jitter_table cfg ukey stream_id upstream_read).
Abbreviation finish := (finish stream_id).
Abbreviation fail := (fail stream_id).

(** What the end of a request leaves alone. *)
Lemma finish_same w n rq p :
  sw_queue (finish w n rq p) = sw_queue w /\ sw_upload (finish w n rq p) = sw_upload w /\
  sw_upload_stopped (finish w n rq p) = sw_upload_stopped w /\ sw_commands (finish w n rq p) = sw_commands w /\
  sw_tunnel (finish w n rq p) = sw_tunnel w /\ sw_direct (finish w n rq p) = sw_direct w /\
  sw_requests (finish w n rq p) = <[n := set_rq_phase rq p]> (sw_requests w).
Proof. unfold Service.finish. by destruct (rq_kind rq). Qed.

Lemma answers_same rs w :
  sw_app (foldl answer_request w rs) = sw_app w /\ sw_queue (foldl answer_request w rs) = sw_queue w /\
  sw_upload (foldl answer_request w rs) = sw_upload w /\
  sw_upload_stopped (foldl answer_request w rs) = sw_upload_stopped w /\
  sw_commands (foldl answer_request w rs) = sw_commands w /\ sw_tunnel (foldl answer_request w rs) = sw_tunnel w /\
  sw_direct (foldl answer_request w rs) = sw_direct w /\ sw_stage (foldl answer_request w rs) = sw_stage w.
Proof.
  revert w. induction rs as [|[n seg] rs IH]; intros w; [done|]. cbn [foldl].
  destruct (IH (answer_request w (n, seg))) as (-> & -> & -> & -> & -> & -> & -> & ->).
  unfold answer_request. destruct (sw_requests w !! n); [|done]. by destruct (awaits_segment w n).
Qed.

(** What it does to the requests: those that wait for a segment and have a
    reply are answered. *)
Lemma answers_requests rs w n :
  sw_requests (foldl answer_request w rs) !! n = sw_requests w !! n \/
  exists rq a, sw_requests w !! n = Some rq /\ rq_phase rq = RqAwaitSegment /\ n ∈ map fst rs /\
    (a = AnsSegment \/ a = AnsNoSegment) /\
    sw_requests (foldl answer_request w rs) !! n = Some (set_rq_phase rq (RqDone a)).
Proof.
  revert w. induction rs as [|[k seg] rs IH]; intros w; [by left|]. cbn [foldl map fst].
  destruct (IH (answer_request w (k, seg))) as [H|(rq & a & Hn & Hp & Hin & Ha & H)]; unfold answer_request, awaits_segment in *.
  - rewrite H. destruct (sw_requests w !! k) as [rq|] eqn:Hk; [|by left]. destruct (rq_phase rq) eqn:Hp; try by left.
    cbn. destruct (decide (n = k)) as [->|Hne]; [|left; by rewrite lookup_insert_ne].
    right. exists rq, match seg with Some _ => AnsSegment | None => AnsNoSegment end. rewrite lookup_insert_eq.
    split_and!; [done|done|by left|destruct seg; by eauto|done].
  - right. destruct (sw_requests w !! k) as [rq0|] eqn:Hk.
    2: { exists rq, a. split_and!; try done. by right. }
    assert (Hw : sw_requests w !! n = Some rq).
    { destruct (rq_phase rq0); try done. cbn in Hn. destruct (decide (n = k)) as [->|Hne].
      - rewrite lookup_insert_eq in Hn. injection Hn as <-. done.
      - by rewrite lookup_insert_ne in Hn. }
    exists rq, a. split_and!; try done. by right.
Qed.

(** The steps of one request. *)
Inductive request_step (w w' : StreamWorld) (n : Z) (rq : Request) : Request -> Prop :=
| rs_read res decoder p m :
    rq_phase rq = RqReading -> decoder_poll_next (C := Cu) (rq_decoder rq) = Some (res, decoder) ->
    match res with
    | Pending => p = RqReading /\ m = rq_max_seq rq
    | Ready (Some (Ok (seq, data))) => p = RqSendFrame seq data /\ m = Z.max (rq_max_seq rq) seq
    | Ready None => m = rq_max_seq rq /\
        p = match rq_kind rq with
            | KOpen => RqOpening
            | KUpload => if rq_frame_count rq =? 0 then RqSendContinue else RqSendEos
            end
    | _ => False
    end ->
    request_step w w' n rq (mkRequest (rq_kind rq) (rq_body rq) decoder m (rq_frame_count rq) p)
| rs_frame_sent seq data :
    rq_phase rq = RqSendFrame seq data ->
    request_step w w' n rq
      (mkRequest (rq_kind rq) (rq_body rq) (rq_decoder rq) (rq_max_seq rq) (rq_frame_count rq + 1) RqReading)
| rs_eos_sent :
    rq_phase rq = RqSendEos -> sw_queue w' = sw_queue w ++ [CmdEos (rq_max_seq rq) n] ->
    request_step w w' n rq (set_rq_phase rq RqAwaitAck)
| rs_continue_sent :
    rq_phase rq = RqSendContinue -> sw_commands w' = sw_commands w ++ [TcContinue n] ->
    request_step w w' n rq (set_rq_phase rq RqAwaitSegment)
| rs_opened : rq_phase rq = RqOpening -> request_step w w' n rq (set_rq_phase rq (RqDone AnsOpened))
| rs_uploaded :
    rq_phase rq = RqAwaitAck -> (n, Ok tt) ∈ answered (sw_upload w) ->
    request_step w w' n rq (set_rq_phase rq (RqDone AnsUploaded))
| rs_segment a :
    rq_phase rq = RqAwaitSegment -> a = AnsSegment \/ a = AnsNoSegment ->
    request_step w w' n rq (set_rq_phase rq (RqDone a))
| rs_ended p :
    p = RqGone \/ p = RqDone AnsPanic \/ (exists e, p = RqDone (AnsError e)) ->
    request_step w w' n rq (set_rq_phase rq p).

Definition requests_move (ev : StreamEvent) (w w' : StreamWorld) : Prop :=
  (forall n, is_Some (sw_requests w !! n) -> is_Some (sw_requests w' !! n)) /\
  forall n rq', sw_requests w' !! n = Some rq' ->
    sw_requests w !! n = Some rq' \/
    (exists rq, sw_requests w !! n = Some rq /\ request_step w w' n rq rq') \/
    (exists body h, ev = SvRequest n body /\ sw_requests w !! n = None /\ actors (sw_app w) !! stream_id = Some h /\
       rq' = mkRequest KUpload body (FrameDecoder_new body (handle_encoding h) MAX_FRAME_BUF_SIZE) 0 0 RqReading).

Lemma move_one ev w w' n rq rq1 :
  sw_requests w !! n = Some rq -> sw_requests w' = <[n := rq1]> (sw_requests w) ->
  request_step w w' n rq rq1 -> requests_move ev w w'.
Proof.
  intros Hn Hw Hs. split; [intros k Hk; rewrite Hw; by apply lookup_insert_is_Some'; right|].
  intros k rq' Hk. rewrite Hw in Hk. destruct (decide (k = n)) as [->|Hne].
  - rewrite lookup_insert_eq in Hk. injection Hk as <-. right. left. eauto.
  - rewrite lookup_insert_ne in Hk by done. by left.
Qed.

Lemma move_none ev w w' : sw_requests w' = sw_requests w -> requests_move ev w w'.
Proof. intros H. split; intros n; rewrite H; [done|]. by left. Qed.

Lemma move_finish ev w n rq p :
  sw_requests w !! n = Some rq -> request_step w (finish w n rq p) n rq (set_rq_phase rq p) ->
  requests_move ev w (finish w n rq p).
Proof. intros Hn Hs. eapply move_one; [exact Hn|apply finish_same|exact Hs]. Qed.

Lemma tunnel_step_effect seen tev w w' :
  tunnel_step stream_id seen tev w = Some w' ->
  exists t rs a, sw_tunnel w = Some t /\
    tunnel_round (fun n => negb (awaits_segment w n) && seen n) tev (actor t) = Some (rs, a) /\
    sw_tunnel w' = Some (let t := mkTW a (next_live rs (live t)) (bodies t) in if claimed w rs then t else drop_live t) /\
    sw_requests w' = sw_requests (foldl answer_request w rs) /\
    sw_queue w' = sw_queue w /\ sw_upload w' = sw_upload w /\ sw_upload_stopped w' = sw_upload_stopped w /\
    sw_commands w' = sw_commands w /\ sw_direct w' = sw_direct w /\
    sw_stage w' = (if decide (t_phase a = TClosed) then StCleanup else sw_stage w) /\
    sw_app w' = (if decide (t_phase a = TClosed)
                 then set_registry (sw_app w) (mark_consumed stream_id (stream_registry (sw_app w))) else sw_app w).
Proof.
  unfold tunnel_step. destruct (sw_tunnel w) as [t|]; [|done]. change (mbind ?f (Some t)) with (f t). cbv beta.
  destruct (tunnel_round _ _ _) as [[rs a]|] eqn:Hr; [|done]. change (mbind ?f (Some ?x)) with (f x). cbv beta iota zeta.
  set (t' := if claimed w rs then _ else _). intros [= <-]. exists t, rs, a. split; [done|]. split; [done|].
  destruct (answers_same rs (set_tunnel w (Some t'))) as (H1 & H2 & H3 & H4 & H5 & H6 & H7 & H8).
  assert (Hreq : forall u, sw_requests u = sw_requests w ->
    sw_requests (foldl answer_request u rs) = sw_requests (foldl answer_request w rs)).
  { clear. revert w. induction rs as [|[n seg] rs IH]; intros w u Hu; [done|]. cbn [foldl]. apply IH.
    unfold answer_request, awaits_segment. rewrite Hu. destruct (sw_requests w !! n) as [rq|]; [|done].
    destruct (rq_phase rq); try done. cbn. by rewrite Hu. }
  specialize (Hreq (set_tunnel w (Some t')) eq_refl).
  destruct (decide (t_phase a = TClosed)); cbn [set_stage set_app sw_app sw_queue sw_upload sw_upload_stopped
    sw_commands sw_tunnel sw_direct sw_stage sw_requests]; rewrite ?H1, ?H2, ?H3, ?H4, ?H5, ?H6, ?H7, ?H8, ?Hreq; done.
Qed.

(** The events that only a request takes part in. *)
Definition request_event (ev : StreamEvent) : option Z :=
  match ev with
  | SvRead n | SvSend n | SvOpened n _ _ | SvReply n | SvTimeout n | SvCancel n => Some n
  | _ => None
  end.

Lemma read_moves ev n rq w w' :
  sw_requests w !! n = Some rq -> rq_phase rq = RqReading -> read_step Cu stream_id n rq w = Some w' ->
  requests_move ev w w'.
Proof.
  intros Hn Hp H. unfold read_step in H. apply bind_Some in H as ([res dec] & Hd & [= <-]).
  destruct res as [[[[seq data]|e|]|]|]; try (apply move_finish; [done|]; apply rs_ended; by eauto);
    (eapply move_one; [exact Hn|reflexivity|]); by eapply rs_read.
Qed.

Lemma send_moves ev n rq w w' :
  sw_requests w !! n = Some rq -> send_step stream_id n rq w = Some w' -> requests_move ev w w'.
Proof.
  intros Hn H. unfold send_step in H.
  assert (Hfail : forall e, Service.fail stream_id w n rq e = w' -> requests_move ev w w').
  { intros e <-. apply move_finish; [done|]. apply rs_ended. eauto. }
  destruct (rq_phase rq) eqn:Hp; try done.
  - destruct (sw_upload_stopped w); [injection H as H; by eapply Hfail|]. destruct (_ <? _); [|done]. injection H as <-.
    eapply move_one; [exact Hn|reflexivity|]. by eapply rs_frame_sent.
  - destruct (decide _); [injection H as H; by eapply Hfail|]. destruct (_ <? _); [|done]. injection H as <-.
    eapply move_one; [exact Hn|reflexivity|]. by apply rs_continue_sent.
  - destruct (sw_upload_stopped w); [injection H as H; by eapply Hfail|]. destruct (_ <? _); [|done]. injection H as <-.
    eapply move_one; [exact Hn|reflexivity|]. by apply rs_eos_sent.
Qed.

Lemma reply_moves ev n rq w w' :
  sw_requests w !! n = Some rq -> reply_step stream_id n rq w = Some w' -> requests_move ev w w'.
Proof.
  intros Hn H. unfold reply_step in H.
  assert (Hfail : forall e, Service.fail stream_id w n rq e = w' -> requests_move ev w w').
  { intros e <-. apply move_finish; [done|]. apply rs_ended. eauto. }
  destruct (rq_phase rq) eqn:Hp; try done.
  - destruct (decide _); [|done]. injection H as <-. apply move_finish; [done|]. apply rs_segment; eauto.
  - destruct (list_find _ _) as [[i [k [[]|e|]]]|] eqn:Hf; [..|destruct (sw_upload_stopped w); [|done]]; try done;
      injection H as H; try by eapply Hfail.
    + apply list_find_Some in Hf as (Hf & Hk & _). cbn in Hk. subst k w'. apply move_finish; [done|].
      apply rs_uploaded; [done|]. by eapply list_elem_of_lookup_2.
    + subst w'. apply move_finish; [done|]. apply rs_ended. eauto.
Qed.

Lemma request_moves ev n w w' :
  request_event ev = Some n -> stream_step ev w = Some w' -> requests_move ev w w'.
Proof.
  intros He H. destruct ev; try done; injection He as ->; apply bind_Some in H as (rq & Hn & H).
  - destruct (rq_phase rq) eqn:Hp; try done. by eapply read_moves.
  - by eapply send_moves.
  - destruct (rq_phase rq) eqn:Hp; try done. injection H as <-. unfold open_step.
    destruct (match max_download_bytes _ with None => _ | Some _ => _ end).
    eapply move_one; [exact Hn|reflexivity|]. by apply rs_opened.
  - by eapply reply_moves.
  - unfold timeout_step in H. destruct (rq_phase rq); try done; injection H as <-;
      apply move_finish; try done; apply rs_ended; eauto.
  - destruct (is_waiting _); [|done]. injection H as <-. apply move_finish; [done|]. apply rs_ended. eauto.
Qed.

Lemma tunnel_moves ev seen tev cs w w' :
  tunnel_step stream_id seen tev (set_commands w cs) = Some w' -> requests_move ev w w'.
Proof.
  intros Ht. apply tunnel_step_effect in Ht as (t & rs & a & _ & _ & _ & Hr & _).
  pose proof (answers_requests rs (set_commands w cs)) as Hans. cbn [set_commands sw_requests] in Hans. split; intros n.
  { intros [rq Hn]. rewrite Hr. destruct (Hans n) as [->|(? & ? & _ & _ & _ & _ & ->)]; by eexists. }
  intros rq' Hn. rewrite Hr in Hn. destruct (Hans n) as [Hs|(rq & b & Hs & Hp & _ & Hb & Hs')].
  - left. by rewrite <- Hs.
  - right. left. exists rq. split; [done|]. rewrite Hs' in Hn. injection Hn as <-. by apply rs_segment.
Qed.

(** The actors' own events: the upload actor, the tunnel actor with a command
    taken, its last messages, or a body. *)
Inductive actor_move (ev : StreamEvent) (w w' : StreamWorld) : Prop :=
| am_upload uev q :
    sw_upload_stopped w = false -> w' = upload_step uev q w ->
    match uev with EvCmd _ cmd => sw_queue w = cmd :: q | EvChannelClosed => sw_queue w = q /\ sw_stage w = StFailed | EvTimer _ => sw_queue w = q end ->
    actor_move ev w w'
| am_tunnel seen tev cs :
    sw_stage w = StServing -> tunnel_step stream_id seen tev (set_commands w cs) = Some w' ->
    match tev with
    | EvContinue _ n => sw_commands w = TcContinue n :: cs
    | EvShutdownCmd _ => sw_commands w = TcShutdown :: cs
    | _ => sw_commands w = cs
    end -> actor_move ev w w'
| am_shutdown q :
    sw_stage w = StCleanup -> w' = set_stage (set_queue w q) StJoining ->
    (sw_upload_stopped w = true /\ q = sw_queue w) \/ (sw_upload_stopped w = false /\ q = sw_queue w ++ [CmdShutdown]) ->
    actor_move ev w w'
| am_joined :
    sw_stage w = StJoining -> sw_upload_stopped w = true ->
    w' = set_stage (set_app w (end_tunnel stream_id (sw_app w))) StOver -> actor_move ev w w'
| am_poll t seg out env now r seg' a :
    ev = SvBodyPoll env now ->
    sw_tunnel w = Some t -> live t = Some (seg, out) ->
    segment_poll (C := Cd) jitter_table env now seg (actor t) = (r, seg', a) ->
    w' = set_tunnel w (Some (mkTW a (Some (seg', out ++ given r)) (bodies t))) -> actor_move ev w w'
| am_drop t :
    sw_tunnel w = Some t -> live t <> None -> w' = set_tunnel w (Some (drop_live t)) -> actor_move ev w w'
| am_direct d d' tw :
    sw_direct w = Some d -> w' = set_direct (set_tunnel w tw) d' ->
    tw = sw_tunnel w \/ (exists t now, sw_tunnel w = Some t /\ tw = Some (mkTW (touch (actor t) now) (live t) (bodies t))) ->
    actor_move ev w w'.

Lemma set_queue_id w : set_queue w (sw_queue w) = w.
Proof. by destruct w. Qed.
Lemma set_commands_id w : set_commands w (sw_commands w) = w.
Proof. by destruct w. Qed.
Lemma set_tunnel_id w : set_tunnel w (sw_tunnel w) = w.
Proof. by destruct w. Qed.

Lemma actor_moves ev w w' :
  request_event ev = None -> stream_step ev w = Some w' ->
  actor_move ev w w' \/ exists n body h, ev = SvRequest n body /\ sw_requests w !! n = None /\
    actors (sw_app w) !! stream_id = Some h /\
    w' = set_request w n (mkRequest KUpload body (FrameDecoder_new body (handle_encoding h) MAX_FRAME_BUF_SIZE) 0 0 RqReading).
Proof.
  intros He H. destruct ev as [n body|n|n|n now word|n|n|n|now| |now|now seen|tev seen| | |env now| |env now|]; try done;
    cbn [Service.stream_step] in H; [right|left..].
  - destruct (actors _ !! _) as [h|] eqn:Hh; [|done]. destruct (sw_requests w !! n) eqn:Hn; [done|]. injection H as <-.
    by exists n, body, h.
  - destruct (sw_queue w) as [|cmd q] eqn:Hq; [done|]. destruct (sw_upload_stopped w) eqn:Hs; [done|]. injection H as <-.
    by apply (am_upload _ _ _ (EvCmd now cmd) q).
  - destruct (sw_queue w) eqn:Hq; [|done]. destruct (sw_stage w) eqn:Hg; try done. destruct (sw_upload_stopped w) eqn:Hs; [done|].
    injection H as <-. by apply (am_upload _ _ _ EvChannelClosed []).
  - destruct (sw_upload_stopped w) eqn:Hs; [done|]. injection H as <-. by apply (am_upload _ _ _ (EvTimer now) (sw_queue w)).
  - destruct (sw_stage w) eqn:Hg; try done. destruct (sw_commands w) as [|cmd cs] eqn:Hc; [done|].
    eapply am_tunnel; [done|exact H|]. by destruct cmd.
  - assert (Hev : sw_stage w = StServing /\ tunnel_step stream_id seen tev w = Some w' /\
      match tev with EvContinue _ _ | EvShutdownCmd _ => False | _ => True end).
    { destruct (sw_stage w); destruct tev; done. }
    destruct Hev as (Hg & Ht & Hev). eapply (am_tunnel _ _ _ seen tev (sw_commands w)); [done|by rewrite set_commands_id|by destruct tev].
  - destruct (sw_stage w) eqn:Hg; try done. destruct (sw_upload_stopped w) eqn:Hs.
    + injection H as <-. apply (am_shutdown _ _ _ (sw_queue w)); [done|by rewrite set_queue_id|by left].
    + destruct (_ <? _); [|done]. injection H as <-. eapply am_shutdown; [done..|by right].
  - destruct (sw_stage w) eqn:Hg; try done. destruct (sw_upload_stopped w) eqn:Hs; [|done]. injection H as <-. by apply am_joined.
  - apply bind_Some in H as (t & Ht & H). apply bind_Some in H as ([seg out] & Hl & H).
    destruct (segment_poll _ _ _ _ _) as [[r seg'] a] eqn:Hp. injection H as <-. by eapply am_poll.
  - apply bind_Some in H as (t & Ht & H). apply bind_Some in H as (sg & Hl & [= <-]). eapply am_drop; [done| |done]. by rewrite Hl.
  - apply bind_Some in H as (t & Ht & H). apply bind_Some in H as (d & Hd & H). destruct (db_ended d); [done|].
    destruct (poll_next _ _ _) as [[[[[[k data]|]| |]|] shaper]|]; [..|done]; injection H as <-;
      first [eapply am_direct; [exact Hd|reflexivity|right; by exists t, now]
            |eapply (am_direct _ _ _ d _ (sw_tunnel w)); [exact Hd|by rewrite set_tunnel_id|by left]].
  - apply bind_Some in H as (d & Hd & [= <-]).
    eapply (am_direct _ _ _ d _ (sw_tunnel w)); [exact Hd|by rewrite set_tunnel_id|by left].
Qed.

(** What an event of a request does to the rest. *)
Record request_effect (n : Z) (rq : Request) (w w' : StreamWorld) : Prop := {
  re_upload : sw_upload w' = sw_upload w /\ sw_upload_stopped w' = sw_upload_stopped w;
  re_queue : sw_queue w' = sw_queue w \/
    sw_upload_stopped w = false /\
    ((exists seq data, rq_phase rq = RqSendFrame seq data /\ sw_queue w' = sw_queue w ++ [CmdFrame seq data]) \/
     (rq_phase rq = RqSendEos /\ sw_queue w' = sw_queue w ++ [CmdEos (rq_max_seq rq) n] /\
      sw_requests w' !! n = Some (set_rq_phase rq RqAwaitAck)));
  re_commands : sw_commands w' = sw_commands w \/ sw_commands w' = sw_commands w ++ [TcContinue n];
  re_stage :
    (sw_tunnel w' = sw_tunnel w /\ sw_direct w' = sw_direct w /\ sw_stage w' = sw_stage w /\ sw_app w' = sw_app w) \/
    (sw_tunnel w' = sw_tunnel w /\ sw_direct w' = sw_direct w /\ rq_kind rq = KOpen /\ is_waiting (rq_phase rq) = true /\
     sw_stage w' = StFailed /\
     (exists p, sw_requests w' !! n = Some (set_rq_phase rq p) /\ is_waiting p = false /\ p <> RqOpening) /\
     let app := drop_stream_guard stream_id (sw_app w) in
     sw_app w' = mkState (master_store app) (stream_registry app) (actors app) (tunnel_permits app + 1)) \/
    (rq_phase rq = RqOpening /\ exists now word, w' = open_step cfg ukey stream_id upstream_read n rq now word w)
}.

Lemma finish_effect w n rq p :
  is_waiting (rq_phase rq) = true -> is_waiting p = false -> p <> RqOpening -> request_effect n rq w (finish w n rq p).
Proof.
  intros Hw Hp1 Hp2. destruct (finish_same w n rq p) as (Hq & Hu & Hs & Hc & Ht & Hd & Hr).
  split; [done|by left|by left|]. unfold Service.finish in *. destruct (rq_kind rq) eqn:Hk; [right; left|by left].
  split_and!; try done. exists p. by rewrite Hr, lookup_insert_eq.
Qed.

Lemma set_request_effect w n rq rq' : request_effect n rq w (set_request w n rq').
Proof. split; [done|by left|by left|by left]. Qed.

Lemma request_effects ev n w w' :
  request_event ev = Some n -> stream_step ev w = Some w' ->
  exists rq, sw_requests w !! n = Some rq /\ request_effect n rq w w'.
Proof.
  intros He H. destruct ev; try done; injection He as ->; apply bind_Some in H as (rq & Hn & H); exists rq; (split; [done|]).
  - destruct (rq_phase rq) eqn:Hp; try done. unfold read_step, Service.fail in H. apply bind_Some in H as ([res dec] & _ & [= <-]).
    destruct res as [[[[seq data]|e|]|]|]; first [apply set_request_effect|apply finish_effect; [by rewrite Hp|done..]].
  - unfold send_step, Service.fail in H. destruct (rq_phase rq) eqn:Hp; try done.
    + destruct (sw_upload_stopped w) eqn:Hs; [injection H as <-; apply finish_effect; [by rewrite Hp|done..]|].
      destruct (_ <? _); [|done]. injection H as <-. split; [done|right; split; [done|left; by eexists _, _]|by left|by left].
    + destruct (decide _); [injection H as <-; apply finish_effect; [by rewrite Hp|done..]|].
      destruct (_ <? _); [|done]. injection H as <-. split; [done|by left|by right|by left].
    + destruct (sw_upload_stopped w) eqn:Hs; [injection H as <-; apply finish_effect; [by rewrite Hp|done..]|].
      destruct (_ <? _); [|done]. injection H as <-. split; [done|right; split; [done|right; cbn; by rewrite lookup_insert_eq]|by left|by left].
  - destruct (rq_phase rq) eqn:Hp; try done. injection H as <-. split; [..|right; right; split; [done|by eexists _, _]];
      unfold open_step; destruct (match max_download_bytes _ with None => _ | Some _ => _ end); [done|by left|by left].
  - unfold reply_step, Service.fail in H. destruct (rq_phase rq) eqn:Hp; try done.
    + destruct (decide _); [|done]. injection H as <-. by apply finish_effect; [rewrite Hp|..].
    + destruct (list_find _ _) as [[i [k [[]|e|]]]|]; [..|destruct (sw_upload_stopped w); [|done]]; try done; injection H as <-;
        (apply finish_effect; [by rewrite Hp|done..]).
  - unfold timeout_step, Service.fail in H. destruct (rq_phase rq) eqn:Hp; try done; injection H as <-; (apply finish_effect; [by rewrite Hp|done..]).
  - destruct (is_waiting _) eqn:Hp; [|done]. injection H as <-. by apply finish_effect.
Qed.
End effects.

(** What the requests carry, and the upload actor that takes it. *)
Section uploads.
Context `{W : FrameSink} {WL : FrameSinkLaws W} `{B : Base122}.
Context (Cu Cd : FrameCipher) (jitter_table : Z -> Z).
Context (cfg : ServerConfig) (ukey stream_id : bytes) (upstream_read : list ReadEvent).
Context (f : Z -> bytes) (up : sink) (now0 : Z).

Abbreviation enc := (encoding_type (srv_traffic cfg)).
Abbreviation stream_step := (stream_step Cu Cd jitter_table cfg ukey stream_id upstream_read).
Abbreviation decoded polls d := (fst (collect (C := Cu) polls d)).

(** Every frame decoded is the sender's. *)
Definition honest (d : FrameDecoder) : Prop :=
  forall polls it, it ∈ decoded polls d -> 0 <= fst it < seq_max /\ snd it = f (fst it).
Definition honest_body (body : list BodyEvent) : Prop := honest (FrameDecoder_new body enc MAX_FRAME_BUF_SIZE).
Definition honest_event (ev : StreamEvent) : Prop :=
  match ev with SvRequest _ body => honest_body body | _ => True end.

(** The frames of a body are numbered up to [m], but for those still to be
    decoded. *)
Definition covered (rq : Request) (m : Z) : Prop :=
  forall polls it, it ∈ decoded polls (FrameDecoder_new (rq_body rq) enc MAX_FRAME_BUF_SIZE) -> fst it <= m.
Definition left_over (rq : Request) : Prop :=
  forall polls it, it ∈ decoded polls (FrameDecoder_new (rq_body rq) enc MAX_FRAME_BUF_SIZE) ->
    fst it <= rq_max_seq rq \/ it ∈ decoded polls (rq_decoder rq).

Definition request_ok (answered : list (Z * Res ServerError unit)) (n : Z) (rq : Request) : Prop :=
  match rq_phase rq with
  | RqReading => honest (rq_decoder rq) /\ left_over rq
  | RqSendFrame seq data => honest (rq_decoder rq) /\ left_over rq /\ 0 <= seq < seq_max /\ data = f seq /\ announceable data
  | RqSendEos | RqAwaitAck => covered rq (rq_max_seq rq)
  | RqDone AnsUploaded => covered rq (rq_max_seq rq) /\ (n, Ok tt) ∈ answered
  | _ => True
  end.

(** The maximum of a request that sent it does not change. *)
Definition frozen (p : RequestPhase) : bool :=
  match p with RqAwaitAck | RqDone _ | RqGone => true | _ => false end.
Definition respects (wants : Z -> Z) (w : StreamWorld) : Prop :=
  forall n rq, sw_requests w !! n = Some rq -> frozen (rq_phase rq) = true -> wants n = rq_max_seq rq.

Definition upload_ok (wants : Z -> Z) (w : StreamWorld) : Prop :=
  (exists evs, run evs (UploadActor_new up 0 now0) = (sw_upload_stopped w, sw_upload w) /\ Forall (ev_ok f wants) evs) /\
  Forall (cmd_ok f wants) (sw_queue w).

Record uploads_inv (w : StreamWorld) : Prop := {
  ui_requests : forall n rq, sw_requests w !! n = Some rq -> request_ok (answered (sw_upload w)) n rq;
  ui_handle : forall h, actors (sw_app w) !! stream_id = Some h -> handle_encoding h = enc;
  ui_upload : forall wants, respects wants w -> upload_ok wants w
}.

Lemma collect_mono polls d it : it ∈ decoded polls d -> it ∈ decoded (S polls) d.
Proof.
  revert d. induction polls as [|polls IH]; intros d H; [by apply elem_of_nil in H|].
  cbn [collect] in H. rewrite (eq_refl : collect (C := Cu) (S (S polls)) d = match decoder_poll_next (C := Cu) d with
    | Some (Ready (Some (Ok item)), this) => let '(items, o) := collect (C := Cu) (S polls) this in (item :: items, o)
    | Some (Ready (Some (Err e)), _) => ([], Failed e)
    | Some (Ready None, _) => ([], Finished)
    | Some (Pending, this) => collect (C := Cu) (S polls) this
    | _ => ([], Panicked) end).
  destruct (decoder_poll_next d) as [[[[[item|e|]|]|] d']|]; try (by apply elem_of_nil in H); [|by apply IH].
  specialize (IH d'). destruct (collect polls d') as [items o]. destruct (collect (S polls) d') as [items' o'].
  cbn [fst] in *. apply elem_of_cons in H as [->|H]; [by left|]. right. by apply IH.
Qed.

(** What one poll takes from a decoder. *)
Lemma poll_item d it d' :
  decoder_poll_next (C := Cu) d = Some (Ready (Some (Ok it)), d') ->
  it ∈ decoded 1 d /\ (forall polls x, x ∈ decoded polls d' -> x ∈ decoded (S polls) d) /\
  forall polls x, x ∈ decoded polls d -> x = it \/ x ∈ decoded polls d'.
Proof.
  intros H. split; [cbn [collect]; rewrite H; by left|]. split.
  - intros polls x Hx. cbn [collect]. rewrite H. destruct (collect polls d') as [items o]. by right.
  - intros [|polls] x Hx; [by apply elem_of_nil in Hx|]. pose proof (collect_mono polls d' x) as Hm.
    cbn [collect] in Hx. rewrite H in Hx. destruct (collect polls d') as [items o]. cbn [fst] in Hx, Hm.
    apply elem_of_cons in Hx as [->|Hx]; [by left|right; by apply Hm].
Qed.

Lemma poll_pending d d' :
  decoder_poll_next (C := Cu) d = Some (Pending, d') ->
  (forall polls x, x ∈ decoded polls d' -> x ∈ decoded (S polls) d) /\
  forall polls x, x ∈ decoded polls d -> x ∈ decoded polls d'.
Proof.
  intros H. split.
  - intros polls x Hx. cbn [collect]. by rewrite H.
  - intros [|polls] x Hx; [by apply elem_of_nil in Hx|]. cbn [collect] in Hx. rewrite H in Hx. by apply collect_mono.
Qed.

Lemma poll_end d d' polls x :
  decoder_poll_next (C := Cu) d = Some (Ready None, d') -> x ∉ decoded polls d.
Proof. intros H. destruct polls; cbn [collect]; rewrite ?H; apply not_elem_of_nil. Qed.

(** A step of a request keeps what is known of it. *)
Lemma request_step_ok w w' n rq rq' :
  request_ok (answered (sw_upload w)) n rq -> request_step Cu w w' n rq rq' ->
  (forall a, a ∈ answered (sw_upload w) -> a ∈ answered (sw_upload w')) ->
  request_ok (answered (sw_upload w')) n rq'.
Proof.
  intros Hok Hs Hgrow. unfold request_ok in *.
  destruct Hs as [res dec p m Hp Hd Hres|seq data Hp|Hp Hq|Hp Hc|Hp|Hp Ha|a Hp Ha|p Hp]; cbn [rq_phase set_rq_phase rq_max_seq].
  - rewrite Hp in Hok. destruct Hok as [Hh Hl]. destruct res as [[[[seq data]|e|]|]|]; try done.
    + destruct Hres as [-> ->]. destruct (poll_item _ _ _ Hd) as (H1 & H2 & H3).
      split; [intros polls it Hit; apply (Hh (S polls)); by apply H2|]. split; [|destruct (Hh _ _ H1); split; [done|]; split; [done|]; apply short_announceable; by apply collect_short in H1].
      intros polls it Hit. cbn. destruct (Hl polls it Hit) as [?|Hin]; [left; lia|].
      destruct (H3 polls it Hin) as [->|?]; [left; cbn; lia|by right].
    + destruct Hres as [-> ->]. assert (Hcov : forall polls it, it ∈ decoded polls (FrameDecoder_new (rq_body rq) enc MAX_FRAME_BUF_SIZE) -> fst it <= rq_max_seq rq).
      { intros polls it Hit. destruct (Hl polls it Hit) as [?|Hin]; [done|]. by destruct (poll_end _ _ polls it Hd). }
      destruct (rq_kind rq); [done|]. by destruct (_ =? 0).
    + destruct Hres as [-> ->]. destruct (poll_pending _ _ Hd) as [H1 H2].
      split; [intros polls it Hit; apply (Hh (S polls)); by apply H1|].
      intros polls it Hit. destruct (Hl polls it Hit) as [?|Hin]; [by left|right; by apply H2].
  - rewrite Hp in Hok. by destruct Hok as (? & ? & _).
  - by rewrite Hp in Hok.
  - done.
  - done.
  - rewrite Hp in Hok. split; [done|]. by apply Hgrow.
  - by destruct Ha as [->| ->].
  - by destruct Hp as [->|[->|[e ->]]].
Qed.

Lemma run_snoc evs ev a a' :
  run evs a = (false, a') ->
  run (evs ++ [ev]) a = let '(stop, a2) := run_step ev a' in if stop then (true, ack_all_waiters a2) else (false, a2).
Proof.
  revert a. induction evs as [|e evs IH]; intros a H; cbn [run app] in *.
  - injection H as ->. by destruct (run_step ev a') as [[] ?].
  - destruct (run_step e a) as [[] a1]; [done|]. by apply IH.
Qed.

(** Answers are only added. *)
Lemma answered_send (this : UploadActor) acks r x : x ∈ answered this -> x ∈ answered (send_acks this acks r).
Proof. intros H. cbn. apply elem_of_app. by left. Qed.

Lemma run_step_answered ev this x : x ∈ answered this -> x ∈ answered (snd (run_step ev this)).
Proof.
  intros H. destruct ev as [now cmd| |now]; cbn [run_step]; [|done|by destruct (_ && _)].
  unfold dispatch. set (t := mkUpload _ _ _ _ _). assert (Ht : x ∈ answered t) by done. clearbody t.
  destruct cmd as [k d|m a|]; [| |done].
  - unfold handle_frame. destruct (phase t) as [next p pb ws|ws|]; [|done..]. destruct (k <? next); [done|]. destruct (k =? next).
    + destruct (flush_runs _ _ _ _ _ _ _) as [[[[[[] ?] ?] ?] ?]|]; [|done..].
      destruct (settle _ _ _ _) as [acked ws']. by apply answered_send.
    + case_bool_decide; [done|]. by destruct (_ || _).
  - unfold handle_eos. destruct (phase t) as [next p pb ws|ws|]; [|done|by apply answered_send].
    destruct (m <? next); [by apply answered_send|]. destruct (_ <=? _); [by apply answered_send|done].
Qed.

Lemma upload_step_answered uev q w x :
  x ∈ answered (sw_upload w) -> x ∈ answered (sw_upload (upload_step uev q w)).
Proof.
  intros H. unfold upload_step. pose proof (run_step_answered uev (sw_upload w) x H) as Hs.
  destruct (run_step uev (sw_upload w)) as [[] u]; [|done]. cbn [sw_upload set_upload snd] in *. unfold ack_all_waiters.
  by apply answered_send.
Qed.

Lemma upload_step_ok wants uev q w :
  upload_ok wants w -> sw_upload_stopped w = false -> ev_ok f wants uev -> Forall (cmd_ok f wants) q ->
  upload_ok wants (upload_step uev q w).
Proof.
  intros [(evs & Hrun & Hevs) _] Hs Hev Hq. rewrite Hs in Hrun. pose proof (run_snoc evs uev _ _ Hrun) as Hr.
  assert (Hall : Forall (ev_ok f wants) (evs ++ [uev])) by (apply Forall_app; split; [done|by constructor]).
  unfold upload_step. destruct (run_step uev (sw_upload w)) as [[] u]; (split; [|done]); by exists (evs ++ [uev]).
Qed.

Lemma stream_moves ev w w' : stream_step ev w = Some w' -> requests_move Cu stream_id ev w w'.
Proof.
  intros H. destruct (request_event ev) as [n|] eqn:He; [by eapply request_moves|].
  destruct (actor_moves _ _ _ _ _ _ _ _ _ _ He H) as [Hm|(n & body & h & -> & Hn & Hh & ->)].
  - destruct Hm as [uev q _ -> _|seen tev cs _ Ht _|q _ -> _|_ _ ->|t seg out env now r seg' a _ _ _ _ ->|t _ _ ->|d d' tw _ -> _];
      try (by apply move_none).
    + apply move_none. unfold upload_step. by destruct (run_step _ _) as [[] ?].
    + by eapply tunnel_moves.
  - split; [intros k Hk; by apply lookup_insert_is_Some'; right|]. intros k rq' Hk. cbn in Hk.
    destruct (decide (k = n)) as [->|Hne].
    + rewrite lookup_insert_eq in Hk. injection Hk as <-. right. right. by exists body, h.
    + rewrite lookup_insert_ne in Hk by done. by left.
Qed.

Lemma step_frozen w w' n rq rq' :
  request_step Cu w w' n rq rq' -> frozen (rq_phase rq) = true ->
  frozen (rq_phase rq') = true /\ rq_max_seq rq' = rq_max_seq rq.
Proof.
  intros Hs Hf. destruct Hs as [res dec p m Hp ? ?|? ? Hp|Hp ?|Hp ?|Hp|Hp ?|a Hp ?|p Hp]; cbn; try (by rewrite Hp in Hf); try done.
  by destruct Hp as [->|[->|[e ->]]].
Qed.

Lemma respects_step ev w w' wants : stream_step ev w = Some w' -> respects wants w' -> respects wants w.
Proof.
  intros H Hr n rq Hn Hf. apply stream_moves in H as [Hp Hm]. destruct (Hp n) as [rq' Hn']; [by eexists|].
  destruct (Hm n rq' Hn') as [Hs|[(rq0 & Hs & Hst)|(? & ? & _ & Hs & _)]]; rewrite Hn in Hs; [..|done]; injection Hs as ->.
  - by apply Hr.
  - destruct (step_frozen _ _ _ _ _ Hst Hf) as [Hf' <-]. by apply Hr.
Qed.

(** What a step does to the upload actor and its channel. *)
Lemma upload_moves ev w w' wants :
  uploads_inv w -> stream_step ev w = Some w' -> respects wants w' ->
  upload_ok wants w' /\ forall a, a ∈ answered (sw_upload w) -> a ∈ answered (sw_upload w').
Proof.
  intros [Hreq _ Hup] H Hr. destruct (Hup wants (respects_step _ _ _ _ H Hr)) as [Hrun Hq].
  assert (Hsame : forall q, sw_upload w' = sw_upload w -> sw_upload_stopped w' = sw_upload_stopped w -> sw_queue w' = q ->
    Forall (cmd_ok f wants) q -> upload_ok wants w' /\ forall a, a ∈ answered (sw_upload w) -> a ∈ answered (sw_upload w')).
  { intros q Hu Hs Hq' Hc. unfold upload_ok. rewrite Hu, Hs, Hq'. done. }
  destruct (request_event ev) as [n|] eqn:He.
  - destruct (request_effects _ _ _ _ _ _ _ _ _ _ _ He H) as (rq & Hn & [[Hu Hs] Hqueue _ _]).
    specialize (Hreq n rq Hn). unfold request_ok in Hreq.
    destruct Hqueue as [Hqueue|[_ [(seq & data & Hp & Hqueue)|(Hp & Hqueue & Hn')]]]; eapply (Hsame _ Hu Hs Hqueue); [done|..];
      apply Forall_app; (split; [done|]); constructor; try done; cbn.
    + rewrite Hp in Hreq. tauto.
    + by apply (Hr n _ Hn').
  - destruct (actor_moves _ _ _ _ _ _ _ _ _ _ He H) as [Hm|(n & body & h & -> & Hn & Hh & ->)]; [|by eapply Hsame].
    destruct Hm as [uev q Hst -> Hev|seen tev cs _ Ht _|q _ -> Hq'|_ _ ->|t seg out env now r seg' a _ _ _ _ ->|t _ _ ->|d d' tw _ -> _];
      try (by eapply Hsame).
    + assert (Hall : ev_ok f wants uev /\ Forall (cmd_ok f wants) q).
      { destruct uev as [now cmd| |now]; [|destruct Hev as [Hev _]|]; rewrite Hev in Hq; [by apply Forall_cons in Hq|done..]. }
      split; [|intros a; apply upload_step_answered]. by apply upload_step_ok; [split|..]; try apply Hall.
    + apply tunnel_step_effect in Ht as (t & rs & a & _ & _ & _ & _ & Hqu & Hu & Hs & _). by eapply (Hsame (sw_queue w)).
    + eapply Hsame; [done..|]. cbn. destruct Hq' as [[_ ->]|[_ ->]]; [done|]. apply Forall_app. by split; [|repeat constructor].
Qed.

Lemma handle_moves ev w w' :
  stream_step ev w = Some w' ->
  (forall h, actors (sw_app w) !! stream_id = Some h -> handle_encoding h = enc) ->
  forall h, actors (sw_app w') !! stream_id = Some h -> handle_encoding h = enc.
Proof.
  intros H Hh. destruct (request_event ev) as [n|] eqn:He.
  - destruct (request_effects _ _ _ _ _ _ _ _ _ _ _ He H) as (rq & Hn & [_ _ _ Hst]).
    destruct Hst as [(_ & _ & _ & ->)|[(_ & _ & _ & _ & _ & _ & ->)|(_ & now & word & ->)]]; [done..|].
    unfold open_step. destruct (match max_download_bytes _ with None => _ | Some _ => _ end). cbn.
    rewrite lookup_insert_eq. by intros h [= <-].
  - destruct (actor_moves _ _ _ _ _ _ _ _ _ _ He H) as [Hm|(n & body & h & -> & Hn & Hh' & ->)]; [|done].
    destruct Hm as [uev q Hst -> Hev|seen tev cs _ Ht _|q _ -> Hq'|_ _ ->|t seg out env now r seg' a _ _ _ _ ->|t _ _ ->|d d' tw _ -> _];
      try done.
    + unfold upload_step. by destruct (run_step _ _) as [[] ?].
    + apply tunnel_step_effect in Ht as (t & rs & a & _ & _ & _ & _ & _ & _ & _ & _ & _ & _ & ->). by destruct (decide _).
    + cbn. by rewrite lookup_delete_eq.
Qed.

(** Some numbering that agrees with every request. *)
Lemma respects_exists w : exists wants, respects wants w.
Proof.
  exists (fun n => match sw_requests w !! n with Some rq => rq_max_seq rq | None => 0 end).
  intros n rq Hn _. by rewrite Hn.
Qed.

Lemma request_ok_grows n rq a a' :
  (forall x, x ∈ a -> x ∈ a') -> request_ok a n rq -> request_ok a' n rq.
Proof. intros Hg. unfold request_ok. destruct (rq_phase rq) as [| | | | | | |[]|]; naive_solver. Qed.

Lemma uploads_step ev w w' :
  uploads_inv w -> honest_event ev -> stream_step ev w = Some w' -> uploads_inv w'.
Proof.
  intros Hi Hev H. destruct (respects_exists w') as [wants Hw]. destruct (upload_moves ev w w' wants Hi H Hw) as [_ Hgrow].
  split.
  - intros n rq' Hn'. destruct (stream_moves ev w w' H) as [_ Hm].
    destruct (Hm n rq' Hn') as [Hs|[(rq & Hs & Hst)|(body & h & -> & Hs & Hh & ->)]].
    + eapply request_ok_grows; [exact Hgrow|]. by apply Hi.
    + eapply request_step_ok; [by apply Hi|exact Hst|exact Hgrow].
    + apply (ui_handle w Hi) in Hh. rewrite Hh. split; [exact Hev|]. intros polls it Hit. by right.
  - eapply handle_moves; [exact H|]. apply Hi.
  - intros wants' Hw'. by apply (upload_moves ev w w' wants' Hi H Hw').
Qed.

Lemma uploads_start app body :
  honest_body body -> actors app !! stream_id = None -> uploads_inv (stream_start cfg app up body now0).
Proof.
  intros Hb Ha. split.
  - intros n rq Hn. cbn in Hn. apply lookup_singleton_Some in Hn as [<- <-]. split; [exact Hb|]. intros polls it Hit. by right.
  - intros h Hh. cbn in Hh. congruence.
  - intros wants _. split; [|done]. by exists [].
Qed.

Lemma uploads_steps w evs w' :
  uploads_inv w -> Forall honest_event evs -> stream_steps Cu Cd jitter_table cfg ukey stream_id upstream_read w evs w' ->
  uploads_inv w'.
Proof.
  intros Hi Hev H. induction H as [|w evs w1 ev w2 _ IH Hs]; [done|]. apply Forall_app in Hev as [Hev He].
  apply Forall_cons in He as [He _]. apply (uploads_step ev w1 w2); [by apply IH|done..].
Qed.
End uploads.
