(* ===== verification/Lifecycle.v ===== *)
(** * The life of a stream

    What holds in every run of [Service]: the upload actor and the tunnel are
    those of [Upload] and [Tunnel], a request that was told its frames are
    uploaded had them sent, no request waits for a reply that nobody will give,
    and a stream is taken down in order and completely. *)

From S2P Require Import Prelude Cipher Frame Shaper Decoder Errors Text Cookie Token Registry Crypto Upstream Upload Handlers Tunnel Service.

Section lifecycle.
Context `{W : FrameSink} `{B : Base122}.
Context (Cu Cd : FrameCipher) (jitter_table : Z -> Z).
Context (cfg : ServerConfig) (ukey stream_id : bytes) (upstream_read : list ReadEvent).

Abbreviation stream_step := (stream_step Cu Cd jitter_table cfg ukey stream_id upstream_read).
Abbreviation traffic := (srv_traffic cfg).

(** ** The tunnel *)

(** A tunnel with a limit runs as [Tunnel] says. *)
Definition tunnel_ok (w : StreamWorld) : Prop :=
  match max_download_bytes traffic with
  | Some m => sw_direct w = None /\ forall t, sw_tunnel w = Some t ->
      exists now word, tsteps (C := Cd) jitter_table (start_tunnel m upstream_read (resolve traffic) now word) t
  | None => forall t, sw_tunnel w = Some t -> shaper_slot (actor t) = None /\ live t = None
  end /\
  forall t, sw_tunnel w = Some t -> sw_stage w = StServing -> t_phase (actor t) <> TClosed.

Lemma drop_live_steps t : tsteps (C := Cd) jitter_table t (drop_live t).
Proof.
  unfold drop_live. destruct (live t) as [[seg out]|] eqn:Hl; [|apply tsteps_refl].
  eapply tsteps_snoc; [apply tsteps_refl|]. by apply ts_drop.
Qed.

Lemma tsteps_trans t0 t1 t2 :
  tsteps (C := Cd) jitter_table t0 t1 -> tsteps (C := Cd) jitter_table t1 t2 -> tsteps (C := Cd) jitter_table t0 t2.
Proof. intros H1 H2. induction H2 as [|? ? ? _ IH Hs]; [done|]. eapply tsteps_snoc; [by apply IH|done]. Qed.

Lemma tunnel_ok_same w w' :
  sw_tunnel w' = sw_tunnel w -> sw_direct w' = sw_direct w -> (sw_stage w' = StServing -> sw_stage w = StServing) ->
  tunnel_ok w -> tunnel_ok w'.
Proof.
  intros Ht Hd Hs [H1 H2]. split; [by rewrite Ht, Hd|]. intros t. rewrite Ht. intros Hw Hg. by apply H2, Hs.
Qed.

(** The round of a tunnel without a limit hands out nothing. *)
Lemma round_no_slot is_closed ev this rs this' :
  tunnel_round is_closed ev this = Some (rs, this') -> shaper_slot this = None ->
  shaper_slot this' = None /\ omap snd rs = [].
Proof.
  intros H Hs. apply tunnel_round_hands in H as (t1 & [_ [[Hr Hsl]|(s & Hs' & _)]] & Hc); [|congruence].
  rewrite Hs in Hsl. by destruct Hc as [->| ->].
Qed.

Lemma tunnel_ok_round w w' seen tev cs :
  tunnel_ok w -> sw_stage w = StServing -> tunnel_step stream_id seen tev (set_commands w cs) = Some w' -> tunnel_ok w'.
Proof.
  intros [H1 H2] Hg Ht. apply tunnel_step_effect in Ht as (t & rs & a & Hw & Hr & Hw' & _ & _ & _ & _ & _ & Hd & Hst & _).
  cbn [set_commands sw_tunnel sw_direct sw_stage] in *. specialize (H2 t Hw Hg).
  set (t1 := mkTW a (next_live rs (live t)) (bodies t)) in *. cbv zeta in Hw'.
  split.
  - destruct (max_download_bytes traffic) as [m|].
    + destruct H1 as [Hdn H1]. split; [by rewrite Hd|]. intros t'. rewrite Hw'. intros [= <-].
      destruct (H1 t Hw) as (now & word & Hs). exists now, word.
      assert (Hs1 : tsteps (C := Cd) jitter_table (start_tunnel m upstream_read (resolve traffic) now word) t1).
      { eapply tsteps_snoc; [exact Hs|]. by eapply ts_round. }
      destruct (claimed _ _); [done|]. eapply tsteps_trans; [exact Hs1|apply drop_live_steps].
    + intros t'. rewrite Hw'. intros [= <-]. destruct (H1 t Hw) as [Hsl Hl]. apply round_no_slot in Hr as [Hsl' Hrs]; [|done].
      assert (Hl1 : live t1 = None) by (unfold t1, next_live; cbn; by rewrite Hrs). destruct (claimed _ _); [done|].
      unfold drop_live. by rewrite Hl1.
  - intros t'. rewrite Hw', Hst. intros [= <-]. destruct (decide (t_phase a = TClosed)) as [|Hp]; [done|]. intros _.
    destruct (claimed _ _); [done|]. unfold drop_live. destruct (live t1) as [[seg out]|]; [|done]. cbn [actor].
    unfold segment_drop. repeat case_match; done.
Qed.

Lemma segment_drop_phase seg a : t_phase (segment_drop seg a) = t_phase a.
Proof. unfold segment_drop. by repeat case_match. Qed.

Lemma drop_live_phase t : t_phase (actor (drop_live t)) = t_phase (actor t).
Proof. unfold drop_live. destruct (live t) as [[seg out]|]; [|done]. apply segment_drop_phase. Qed.

(** The polls of a run are those of a transport. *)
Definition poll_ok (ev : StreamEvent) : Prop :=
  match ev with SvBodyPoll env _ | SvDirectPoll env _ => env_ok env | _ => True end.

Lemma tunnel_ok_actor ev w w' :
  tunnel_ok w -> poll_ok ev -> actor_move Cd jitter_table stream_id ev w w' -> tunnel_ok w'.
Proof.
  intros Hi Hev' Hm. destruct Hm as [uev q Hst -> Hev|seen tev cs Hg Ht _|q Hg -> Hq'|Hg _ ->|t seg out env now r seg' a -> Ht Hl Hp ->|t Ht Hl ->|d d' tw Hd -> Htw].
  - revert Hi. apply tunnel_ok_same; unfold upload_step; by destruct (run_step _ _) as [[] ?].
  - by eapply tunnel_ok_round.
  - by revert Hi; apply tunnel_ok_same.
  - by revert Hi; apply tunnel_ok_same.
  - destruct Hi as [H1 H2]. split.
    + destruct (max_download_bytes traffic) as [m|]; cbn; [|intros t' [= <-]; destruct (H1 t Ht) as [_ Hn]; congruence].
      destruct H1 as [Hdn H1]. split; [done|]. intros t' [= <-]. destruct (H1 t Ht) as (n & word & Hs). exists n, word.
      eapply tsteps_snoc; [exact Hs|]. by eapply ts_poll.
    + cbn. intros t' [= <-] Hg. cbn. specialize (H2 t Ht Hg). apply segment_poll_actor in Hp as [->| ->]; done.
  - destruct Hi as [H1 H2]. split.
    + destruct (max_download_bytes traffic) as [m|]; cbn.
      * destruct H1 as [Hdn H1]. split; [done|]. intros t' [= <-]. destruct (H1 t Ht) as (n & word & Hs). exists n, word.
        eapply tsteps_trans; [exact Hs|apply drop_live_steps].
      * intros t' [= <-]. destruct (H1 t Ht) as [_ Hn]. congruence.
    + cbn. intros t' [= <-] Hg. rewrite drop_live_phase. by apply H2.
  - destruct Hi as [H1 H2]. split.
    + destruct (max_download_bytes traffic) as [m|]; [destruct H1; congruence|]. cbn. intros t' Ht'.
      destruct Htw as [->|(t & now & Ht & ->)]; [by apply H1|]. injection Ht' as <-. cbn. by apply H1.
    + cbn. intros t' Ht' Hg. destruct Htw as [->|(t & now & Ht & ->)]; [by apply H2|]. injection Ht' as <-. cbn. by apply H2.
Qed.

Lemma open_step_tunnel n rq now word w :
  exists t, sw_tunnel (open_step cfg ukey stream_id upstream_read n rq now word w) = Some t /\
    t_phase (actor t) <> TClosed /\ pending_continue (actor t) = [] /\ cancelled (actor t) = false /\
    (segment_active (actor t) = true -> live t <> None) /\
    match max_download_bytes traffic with
    | Some m => sw_direct (open_step cfg ukey stream_id upstream_read n rq now word w) = None /\
        t = start_tunnel m upstream_read (resolve traffic) now word
    | None => t = mkTW (TunnelActor_new None now) None []
    end.
Proof. unfold open_step. destruct (max_download_bytes traffic) as [m|]; cbn; eexists; split_and!; done. Qed.

Lemma tunnel_ok_step ev w w' : tunnel_ok w -> poll_ok ev -> stream_step ev w = Some w' -> tunnel_ok w'.
Proof.
  intros Hi Hev H. destruct (request_event ev) as [n|] eqn:He.
  - destruct (request_effects _ _ _ _ _ _ _ _ _ _ _ He H) as (rq & Hn & [_ _ _ Hst]).
    destruct Hst as [(Ht & Hd & Hg & _)|[(Ht & Hd & _ & _ & Hg & _)|(_ & now & word & ->)]].
    + revert Hi. apply tunnel_ok_same; [done..|by rewrite Hg].
    + revert Hi. apply tunnel_ok_same; [done..|by rewrite Hg].
    + destruct (open_step_tunnel n rq now word w) as (t & Ht & Hp & _ & _ & _ & Hm). split.
      * destruct (max_download_bytes traffic) as [m|].
        -- destruct Hm as [Hd ->]. split; [done|]. rewrite Ht. intros t' [= <-]. exists now, word. apply tsteps_refl.
        -- rewrite Ht. intros t' [= <-]. by rewrite Hm.
      * rewrite Ht. by intros t' [= <-].
  - destruct (actor_moves _ _ _ _ _ _ _ _ _ _ He H) as [Hm|(n & body & h & -> & Hn & Hh & ->)]; [by eapply tunnel_ok_actor|].
    by revert Hi; apply tunnel_ok_same.
Qed.

(** ** The stages *)

(** [ts] is when the stream was registered, [permits] how many tunnels could
    be opened before it. *)
Context (ts permits : Z).

Definition closed_tunnel (w : StreamWorld) : Prop := exists t, sw_tunnel w = Some t /\ t_phase (actor t) = TClosed.

Definition stage_ok (w : StreamWorld) : Prop :=
  let app := sw_app w in
  let registered s := stream_registry app !! stream_id = Some (s, ts) in
  match sw_stage w with
  | StOpening => sw_tunnel w = None /\ actors app !! stream_id = None /\ registered SActive /\ tunnel_permits app = permits - 1
  | StServing => (exists t, sw_tunnel w = Some t /\ t_phase (actor t) <> TClosed) /\ is_Some (actors app !! stream_id) /\
      registered SActive /\ tunnel_permits app = permits - 1
  | StCleanup => closed_tunnel w /\ is_Some (actors app !! stream_id) /\ registered SConsumed /\ tunnel_permits app = permits - 1
  | StJoining => closed_tunnel w /\ registered SConsumed /\ tunnel_permits app = permits - 1 /\
      (sw_upload_stopped w = true \/ CmdShutdown ∈ sw_queue w)
  | StOver => closed_tunnel w /\ sw_upload_stopped w = true /\ actors app !! stream_id = None /\ registered SConsumed /\
      tunnel_permits app = permits
  | StFailed => sw_tunnel w = None /\ actors app !! stream_id = None /\ registered SConsumed /\ tunnel_permits app = permits
  end.

(** The opening request is the first, and it is over once the stream is open
    or failed. *)
Definition opens (p : RequestPhase) : bool :=
  match p with RqReading | RqSendFrame _ _ | RqOpening => true | _ => false end.
Definition opener_ok (w : StreamWorld) : Prop :=
  forall n rq, sw_requests w !! n = Some rq ->
    match rq_kind rq with
    | KOpen => (sw_stage w = StOpening /\ n = 0 /\ opens (rq_phase rq) = true) \/
        (is_waiting (rq_phase rq) = false /\ rq_phase rq <> RqOpening)
    | KUpload => rq_phase rq <> RqOpening /\ sw_stage w <> StOpening
    end.

Record life_ok (w : StreamWorld) : Prop := { lo_stage : stage_ok w; lo_opener : opener_ok w }.

Lemma consumed_lookup (app : AppState) s :
  stream_registry app !! stream_id = Some (s, ts) ->
  mark_consumed stream_id (stream_registry app) !! stream_id = Some (SConsumed, ts).
Proof. intros H. unfold mark_consumed. by rewrite H, lookup_insert_eq. Qed.

Lemma stage_upload_step uev q w :
  sw_upload_stopped w = false ->
  match uev with EvCmd _ cmd => sw_queue w = cmd :: q | EvChannelClosed => sw_queue w = q /\ sw_stage w = StFailed | EvTimer _ => sw_queue w = q end ->
  stage_ok w -> stage_ok (upload_step uev q w).
Proof.
  intros Hs Hq Hok. unfold upload_step. destruct (run_step uev (sw_upload w)) as [stop u] eqn:Hr. unfold stage_ok in *.
  assert (Hdown : CmdShutdown ∈ sw_queue w -> stop = true \/ CmdShutdown ∈ q).
  { intros Hin. destruct uev as [now cmd| |now]; [|destruct Hq as [Hq _]|]; rewrite Hq in Hin; [|by right..].
    apply elem_of_cons in Hin as [<-|Hin]; [|by right]. cbn in Hr. injection Hr as <- _. by left. }
  destruct stop; cbn [set_upload set_queue sw_app sw_queue sw_upload_stopped sw_tunnel sw_stage]; destruct (sw_stage w); try done;
    destruct Hok as (? & ? & ? & Hok); try (split_and!; try done; by left); try (rewrite Hs in *; by destruct Hok).
  split_and!; try done. rewrite Hs in Hok. destruct Hok as [|Hin]; [done|]. destruct (Hdown Hin); [done|by right].
Qed.

Lemma stage_actor ev w w' : tunnel_ok w -> stage_ok w -> actor_move Cd jitter_table stream_id ev w w' -> stage_ok w'.
Proof.
  intros Htun Hok Hm. destruct Hm as [uev q Hst -> Hev|seen tev cs Hg Ht _|q Hg -> Hq'|Hg Hs ->|t seg out env now r seg' a -> Ht Hl Hp ->|t Ht Hl ->|d d' tw Hd -> Htw].
  - by apply stage_upload_step.
  - apply tunnel_step_effect in Ht as (t & rs & a & Hw & Hr & Hw' & _ & _ & _ & _ & _ & Hd & Hst & Happ).
    cbn [set_commands sw_tunnel sw_stage sw_app] in *. unfold stage_ok in *. rewrite Hg in Hok. destruct Hok as (_ & Ha & Hreg & Hperm).
    set (t1 := mkTW a (next_live rs (live t)) (bodies t)) in *. cbv zeta in Hw'.
    assert (Hph : t_phase (actor (if claimed (set_commands w cs) rs then t1 else drop_live t1)) = t_phase a)
      by (destruct (claimed _ _); [done|]; by rewrite drop_live_phase).
    rewrite Hst. destruct (decide (t_phase a = TClosed)) as [Hc|Hc].
    + rewrite Happ. cbn. split_and!; try done; [eexists; split; [exact Hw'|by rewrite Hph]|by eapply consumed_lookup].
    + rewrite Hg, Happ. split_and!; try done. eexists. split; [exact Hw'|by rewrite Hph].
  - unfold stage_ok in *. rewrite Hg in Hok. cbn. destruct Hok as (? & ? & ? & ?). split_and!; try done.
    destruct Hq' as [[-> _]|[_ ->]]; [by left|right]. apply elem_of_app. right. by left.
  - unfold stage_ok in *. rewrite Hg in Hok. cbn. destruct Hok as (? & Hreg & Hperm & ?). split_and!; try done; [by rewrite lookup_delete_eq|by eapply consumed_lookup|lia].
  - unfold stage_ok, closed_tunnel in *. cbn. rewrite Ht in *.
    assert (Hph : t_phase a = t_phase (actor t)) by (apply segment_poll_actor in Hp as [->| ->]; done).
    destruct (sw_stage w); try (by destruct Hok).
    all: destruct Hok as [(t' & [= <-] & Htp) Hok]; split; [eexists; split; [done|]; by cbn; rewrite Hph|done].
  - unfold stage_ok, closed_tunnel in *. cbn. rewrite Ht in *. destruct (sw_stage w); try (by destruct Hok).
    all: destruct Hok as [(t' & [= <-] & Htp) Hok]; split; [eexists; split; [done|]; by rewrite drop_live_phase|done].
  - unfold stage_ok, closed_tunnel in *. cbn. destruct Htw as [->|(t & now & Ht & ->)]; [done|]. rewrite Ht in *.
    destruct (sw_stage w); try (by destruct Hok).
    all: destruct Hok as [(t' & [= <-] & Htp) Hok]; split; [by eexists|done].
Qed.

Lemma actor_stage_opening ev w w' :
  actor_move Cd jitter_table stream_id ev w w' -> sw_stage w = StOpening -> sw_stage w' = StOpening.
Proof.
  intros Hm Ho. destruct Hm as [uev q Hst -> Hev|seen tev cs Hg Ht _|q Hg -> Hq'|Hg Hs ->|t seg out env now r seg' a -> Ht Hl Hp ->|t Ht Hl ->|d d' tw Hd -> Htw];
    try done; try congruence. unfold upload_step. by destruct (run_step _ _) as [[] ?].
Qed.

Lemma actor_serving ev w w' :
  actor_move Cd jitter_table stream_id ev w w' -> sw_stage w' = StServing -> sw_stage w = StServing.
Proof.
  intros Hm Ho. destruct Hm as [uev q Hst -> Hev|seen tev cs Hg Ht _|q Hg -> Hq'|Hg Hs ->|t seg out env now r seg' a -> Ht Hl Hp ->|t Ht Hl ->|d d' tw Hd -> Htw];
    try done. unfold upload_step in Ho. by destruct (run_step _ _) as [[] ?].
Qed.

Lemma stage_request ev n w w' :
  life_ok w -> request_event ev = Some n -> stream_step ev w = Some w' -> stage_ok w'.
Proof.
  intros [Hok Hop] He H. destruct (request_effects _ _ _ _ _ _ _ _ _ _ _ He H) as (rq & Hn & [[_ Hs] Hqueue _ Hst]).
  assert (Hdown : CmdShutdown ∈ sw_queue w -> CmdShutdown ∈ sw_queue w').
  { destruct Hqueue as [->|[_ [(? & ? & _ & ->)|(_ & -> & _)]]]; [done|..]; intros; apply elem_of_app; by left. }
  specialize (Hop n rq Hn). unfold stage_ok in *.
  destruct Hst as [(Ht & Hd & Hg & Ha)|[(Ht & Hd & Hk & Hw & Hg & _ & Ha)|(Hp & now & word & ->)]].
  - unfold closed_tunnel in *. rewrite Ht, Hg, Ha, Hs in *. destruct (sw_stage w); try done. naive_solver.
  - rewrite Hk in Hop. destruct Hop as [(Ho & _)|[? _]]; [|congruence]. rewrite Ho in Hok. rewrite Hg, Ht, Ha.
    destruct Hok as (? & ? & Hreg & Hperm). cbn. split_and!; try done; [by eapply consumed_lookup|lia].
  - rewrite Hp in Hop. destruct (rq_kind rq); [|by destruct Hop]. destruct Hop as [(Ho & _)|[_ ?]]; [|done]. rewrite Ho in Hok.
    destruct (open_step_tunnel n rq now word w) as (t & Ht & Htp & _).
    assert (Hrest : sw_stage (open_step cfg ukey stream_id upstream_read n rq now word w) = StServing /\
      sw_app (open_step cfg ukey stream_id upstream_read n rq now word w) =
        mkState (master_store (sw_app w)) (stream_registry (sw_app w))
          (<[stream_id := mkHandle ukey (encoding_type traffic)]> (actors (sw_app w))) (tunnel_permits (sw_app w))).
    { unfold open_step. by destruct (match max_download_bytes _ with None => _ | Some _ => _ end). }
    destruct Hrest as [-> ->]. cbn. rewrite lookup_insert_eq. destruct Hok as (_ & _ & ? & ?). split_and!; try done. by exists t.
Qed.

Lemma step_not_opening ev w w' :
  opener_ok w -> stream_step ev w = Some w' -> sw_stage w <> StOpening -> sw_stage w' <> StOpening.
Proof.
  intros Hop H Ho. destruct (request_event ev) as [k|] eqn:He.
  - destruct (request_effects _ _ _ _ _ _ _ _ _ _ _ He H) as (rq & Hk & [_ _ _ Hst]). specialize (Hop k rq Hk).
    destruct Hst as [(_ & _ & -> & _)|[(_ & _ & _ & _ & -> & _)|(Hp & now & word & ->)]]; [done..|].
    unfold open_step. by destruct (match max_download_bytes _ with None => _ | Some _ => _ end).
  - destruct (actor_moves _ _ _ _ _ _ _ _ _ _ He H) as [Hm|(? & ? & ? & _ & _ & _ & ->)]; [|done].
    destruct Hm as [uev q Hst -> Hev|seen tev cs Hg Ht _|q Hg -> Hq'|Hg Hs ->|t seg out env now r seg' a -> Ht Hl Hp ->|t Ht Hl ->|d d' tw Hd -> Htw];
      try done; [unfold upload_step; by destruct (run_step _ _) as [[] ?]|].
    apply tunnel_step_effect in Ht as (t & rs & a & _ & _ & _ & _ & _ & _ & _ & _ & _ & -> & _). cbn. rewrite Hg. by destruct (decide _).
Qed.

Lemma opener_stepped w w' n rq rq' :
  request_step Cu w w' n rq rq' ->
  rq_kind rq' = rq_kind rq /\ (rq_kind rq = KUpload -> rq_phase rq <> RqOpening -> rq_phase rq' <> RqOpening) /\
  (is_waiting (rq_phase rq) = false -> rq_phase rq <> RqOpening -> is_waiting (rq_phase rq') = false /\ rq_phase rq' <> RqOpening) /\
  (rq_kind rq = KOpen -> opens (rq_phase rq) = true ->
   opens (rq_phase rq') = true \/ is_waiting (rq_phase rq') = false /\ rq_phase rq' <> RqOpening).
Proof.
  intros Hs. destruct Hs as [res dec p m Hp Hd Hres|? ? Hp|Hp ?|Hp ?|Hp|Hp ?|a Hp ?|p Hp]; cbn; (split; [done|]); try rewrite Hp;
    try (split_and!; first [done|by left|by right]).
  - assert (Hp' : (rq_kind rq = KUpload -> p <> RqOpening) /\ (rq_kind rq = KOpen -> opens p = true)).
    { destruct res as [[[[seq data]|e|]|]|]; try done; [by destruct Hres as [-> _]|..|by destruct Hres as [-> _]].
      destruct Hres as [_ ->]. destruct (rq_kind rq); [done|]. by destruct (_ =? 0). }
    destruct Hp' as [Hp1 Hp2]. split_and!; [by intros Hk _; apply Hp1|done|]. intros Hk _. left. by apply Hp2.
  - assert (Hp' : is_waiting p = false /\ p <> RqOpening) by (destruct Hp as [->|[->|[e ->]]]; done).
    destruct Hp' as [Hp1 Hp2]. split_and!; auto.
Qed.

Lemma opener_step ev w w' : life_ok w -> stream_step ev w = Some w' -> opener_ok w'.
Proof.
  intros [Hok Hop] H n rq' Hn'.
  assert (Hstage : sw_stage w = StOpening -> sw_stage w' = StOpening \/
    forall rq0, sw_requests w' !! 0 = Some rq0 -> is_waiting (rq_phase rq0) = false /\ rq_phase rq0 <> RqOpening).
  { intros Ho. destruct (request_event ev) as [k|] eqn:He.
    - destruct (request_effects _ _ _ _ _ _ _ _ _ _ _ He H) as (rq & Hk & [_ _ _ Hst]). specialize (Hop k rq Hk).
      destruct Hst as [(_ & _ & -> & _)|[(_ & _ & Hkind & Hw & _ & (p & Hp & Hp1 & Hp2) & _)|(Hp & now & word & ->)]]; [by left|right..].
      + rewrite Hkind in Hop. destruct Hop as [(_ & -> & _)|[? _]]; [|congruence]. rewrite Hp. by intros rq0 [= <-].
      + rewrite Hp in Hop. destruct (rq_kind rq); [|by destruct Hop]. destruct Hop as [(_ & -> & _)|[_ ?]]; [|done].
        unfold open_step. destruct (match max_download_bytes _ with None => _ | Some _ => _ end). cbn. rewrite lookup_insert_eq.
        by intros rq0 [= <-].
    - left. destruct (actor_moves _ _ _ _ _ _ _ _ _ _ He H) as [Hm|(? & ? & ? & _ & _ & _ & ->)]; [by eapply actor_stage_opening|done]. }
  assert (Hnot : sw_stage w <> StOpening -> sw_stage w' <> StOpening) by (by eapply step_not_opening).
  destruct (stream_moves _ _ _ _ _ _ _ _ _ _ H) as [_ Hm].
  destruct (Hm n rq' Hn') as [Hs|[(rq & Hs & Hst)|(body & h & -> & Hs & Hh & ->)]].
  - specialize (Hop n rq' Hs). destruct (rq_kind rq'); [|by split; [|apply Hnot]; apply Hop].
    destruct Hop as [(Ho & -> & Hph)|Hop]; [|by right]. destruct (Hstage Ho) as [|Hdone]; [by left|right; by apply Hdone].
  - specialize (Hop n rq Hs). destruct (opener_stepped _ _ _ _ _ Hst) as (Hk & Hu & Hf & Ho'). rewrite Hk.
    destruct (rq_kind rq); [|by split; [apply Hu|apply Hnot]; try apply Hop].
    destruct Hop as [(Ho & -> & Hph)|[H1 H2]]; [|right; by apply Hf]. destruct (Ho' eq_refl Hph) as [?|?]; [|by right].
    destruct (Hstage Ho) as [|Hdone]; [by left|right; by apply Hdone].
  - cbn. split; [done|]. apply Hnot. intros Ho. unfold stage_ok in Hok. rewrite Ho in Hok. destruct Hok as (_ & Hno & _). congruence.
Qed.

Lemma life_kept ev w w' : tunnel_ok w -> life_ok w -> stream_step ev w = Some w' -> life_ok w'.
Proof.
  intros Ht Hl H. split; [|by eapply opener_step]. destruct (request_event ev) as [n|] eqn:He; [by eapply stage_request|].
  destruct (actor_moves _ _ _ _ _ _ _ _ _ _ He H) as [Hm|(n & body & h & -> & Hn & Hh & ->)]; [|apply Hl].
  eapply stage_actor; [exact Ht|apply Hl|exact Hm].
Qed.

Lemma tunnel_ok_start app (up : sink) body now : tunnel_ok (stream_start cfg app up body now).
Proof. split; [by destruct (max_download_bytes traffic)|done]. Qed.

Lemma start_ok app (up : sink) body now :
  stream_registry app !! stream_id = Some (SActive, ts) -> actors app !! stream_id = None -> tunnel_permits app = permits ->
  tunnel_ok (stream_start cfg app up body now) /\ life_ok (stream_start cfg app up body now).
Proof.
  intros Hr Ha Hp. split; [apply tunnel_ok_start|]. split.
  - cbn. split_and!; try done. lia.
  - intros n rq Hn. cbn in Hn. apply lookup_singleton_Some in Hn as [<- <-]. by left.
Qed.

(** ** No reply is lost *)

(** The end request [n] is where the upload actor will see it, or in its
    books. *)
Definition ack_owed (n : Z) (w : StreamWorld) : Prop :=
  sw_upload_stopped w = true \/ (exists m, CmdEos m n ∈ sw_queue w) \/ n ∈ accounted (sw_upload w).

(** The request [n] to continue is where the tunnel actor will see it. *)
Definition segment_owed (n : Z) (w : StreamWorld) : Prop :=
  TcContinue n ∈ sw_commands w \/ exists t, sw_tunnel w = Some t /\ n ∈ pending_continue (actor t).

(** Who waits for a segment waits for one that is out, and its end is seen. *)
Definition rotation_of (t : TunnelWorld) : Prop :=
  (pending_continue (actor t) <> [] -> segment_active (actor t) = true) /\
  (segment_active (actor t) = true -> live t <> None \/ 0 < done_signals (actor t)) /\ 0 <= done_signals (actor t).
Definition rotation_ok (w : StreamWorld) : Prop := forall t, sw_tunnel w = Some t -> rotation_of t.

Record books_ok (w : StreamWorld) : Prop := {
  bo_ack : forall n rq, sw_requests w !! n = Some rq -> rq_phase rq = RqAwaitAck -> ack_owed n w;
  bo_segment : sw_stage w = StServing ->
    forall n rq, sw_requests w !! n = Some rq -> rq_phase rq = RqAwaitSegment -> segment_owed n w;
  bo_rotation : sw_stage w = StServing -> rotation_ok w
}.

Lemma upload_step_owed uev q w n :
  sw_upload_stopped w = false ->
  match uev with EvCmd _ cmd => sw_queue w = cmd :: q | EvChannelClosed => sw_queue w = q /\ sw_stage w = StFailed | EvTimer _ => sw_queue w = q end ->
  ack_owed n w -> ack_owed n (upload_step uev q w).
Proof.
  intros Hs Hq Ho. unfold upload_step. pose proof (run_step_accounted uev (sw_upload w)) as Hacc.
  destruct (run_step uev (sw_upload w)) as [[] u]; [by left|]. right. cbn [set_upload set_queue sw_queue sw_upload].
  rewrite Hacc. unfold ev_acks. cbn. rewrite app_nil_r.
  destruct Ho as [Ho|[[m Hin]|Hin]]; [congruence| |right; apply elem_of_app; by right].
  destruct uev as [now cmd| |now]; [|destruct Hq as [Hq _]|]; rewrite Hq in Hin; [|left; by exists m..].
  apply elem_of_cons in Hin as [<-|Hin]; [right; apply elem_of_app; left; by left|left; by exists m].
Qed.

Lemma ack_owed_step ev w w' n : stream_step ev w = Some w' -> ack_owed n w -> ack_owed n w'.
Proof.
  intros H Ho. assert (Hsame : sw_upload w' = sw_upload w -> sw_upload_stopped w' = sw_upload_stopped w ->
    (sw_queue w' = sw_queue w \/ exists cmd, sw_queue w' = sw_queue w ++ [cmd]) -> ack_owed n w').
  { intros Hu Hs Hq. unfold ack_owed in *. rewrite Hu, Hs. destruct Ho as [?|[[m Hin]|?]]; auto. right. left. exists m.
    destruct Hq as [->|[cmd ->]]; [done|]. apply elem_of_app. by left. }
  destruct (request_event ev) as [k|] eqn:He.
  - destruct (request_effects _ _ _ _ _ _ _ _ _ _ _ He H) as (rq & Hk & [[Hu Hs] Hqueue _ _]). apply Hsame; [done..|].
    destruct Hqueue as [->|[_ [(? & ? & _ & ->)|(_ & -> & _)]]]; eauto.
  - destruct (actor_moves _ _ _ _ _ _ _ _ _ _ He H) as [Hm|(? & ? & ? & _ & _ & _ & ->)]; [|done].
    destruct Hm as [uev q Hst -> Hev|seen tev cs Hg Ht _|q Hg -> Hq'|Hg Hs ->|t seg out env now r seg' a -> Ht Hl Hp ->|t Ht Hl ->|d d' tw Hd -> Htw];
      try done.
    + by apply upload_step_owed.
    + apply tunnel_step_effect in Ht as (t & rs & a & _ & _ & _ & _ & Hq & Hu & Hs & _). apply Hsame; [done..|by left].
    + apply Hsame; [done..|]. cbn. destruct Hq' as [[_ ->]|[_ ->]]; eauto.
Qed.

Lemma answers_done rs w n rq :
  sw_requests (foldl answer_request w rs) !! n = Some rq -> rq_phase rq = RqAwaitSegment ->
  awaits_segment w n = true /\ n ∉ map fst rs.
Proof.
  revert w. induction rs as [|[k seg] rs IH]; intros w Hn Hp; cbn [foldl map fst] in *.
  - unfold awaits_segment. rewrite Hn, Hp. split; [done|apply not_elem_of_nil].
  - destruct (IH _ Hn Hp) as [Ha Hnot]. unfold answer_request in Ha. rewrite not_elem_of_cons.
    destruct (sw_requests w !! k) as [rq0|] eqn:Hk.
    + destruct (awaits_segment w k) eqn:Hak.
      * unfold awaits_segment in Ha. cbn in Ha. destruct (decide (n = k)) as [->|Hne].
        -- rewrite lookup_insert_eq in Ha. cbn in Ha. by destruct seg.
        -- rewrite lookup_insert_ne in Ha by done. done.
      * split; [done|]. split; [|done]. intros ->. congruence.
    + split; [done|]. split; [|done]. intros ->. unfold awaits_segment in Ha. by rewrite Hk in Ha.
Qed.

Lemma segment_drop_books seg a :
  pending_continue (segment_drop seg a) = pending_continue a /\ segment_active (segment_drop seg a) = segment_active a /\
  (0 <= done_signals a -> 0 < done_signals (segment_drop seg a)).
Proof.
  unfold segment_drop. set (a1 := match seg_shaper seg with Some _ => _ | None => _ end).
  assert (Ha1 : pending_continue a1 = pending_continue a /\ segment_active a1 = segment_active a /\ done_signals a1 = done_signals a)
    by (unfold a1; by repeat case_match).
  destruct Ha1 as (<- & <- & <-). unfold SEGMENT_DONE_CHANNEL_CAPACITY in *. clearbody a1.
  destruct (Z.ltb_spec (done_signals a1) 2); cbn; split_and!; try done; lia.
Qed.

Lemma rotation_drop t : rotation_of t -> rotation_of (drop_live t).
Proof.
  intros (H1 & H2 & H3). unfold drop_live. destruct (live t) as [[seg out]|] eqn:Hl; [|by split_and!; rewrite ?Hl].
  unfold rotation_of. cbn. destruct (segment_drop_books seg (actor t)) as (-> & -> & Hd). specialize (Hd H3). split_and!; [done| |lia].
  intros _. right. lia.
Qed.

Lemma claimed_nothing w rs : omap snd rs = [] -> claimed w rs = true.
Proof.
  intros H. unfold claimed. induction rs as [|[n [seg|]] rs IH]; [done|done|]. cbn. by apply IH.
Qed.

Lemma rotation_round w is_closed ev t rs a :
  rotation_of t -> tunnel_round is_closed ev (actor t) = Some (rs, a) -> t_phase a <> TClosed ->
  let t1 := mkTW a (next_live rs (live t)) (bodies t) in rotation_of (if claimed w rs then t1 else drop_live t1).
Proof.
  intros (H1 & H2 & H3) Hr Hp t1. apply tunnel_round_books in Hr as [?|(_ & Ha & Hpend & Hd)]; [done|].
  assert (Ht1 : rotation_of t1).
  { unfold t1, rotation_of. cbn. split; [by apply Hpend|]. split; [|by apply Hd]. intros Hact. unfold next_live.
    destruct (omap snd rs) as [|seg segs] eqn:Hrs; [|by left]. destruct (Ha Hact) as [?|[Hact' ->]]; [done|by apply H2]. }
  destruct (claimed w rs); [done|]. by apply rotation_drop.
Qed.

Lemma segment_owed_round w w' seen tev cs n rq :
  sw_stage w = StServing -> tunnel_step stream_id seen tev (set_commands w cs) = Some w' -> sw_stage w' = StServing ->
  match tev with
  | EvContinue _ n => sw_commands w = TcContinue n :: cs
  | EvShutdownCmd _ => sw_commands w = TcShutdown :: cs
  | _ => sw_commands w = cs
  end ->
  sw_requests w' !! n = Some rq -> rq_phase rq = RqAwaitSegment -> segment_owed n w -> segment_owed n w'.
Proof.
  intros Hg Ht Hg' Hcs Hn Hp Ho.
  apply tunnel_step_effect in Ht as (t & rs & a & Hw & Hr & Hw' & Hreq & _ & _ & _ & Hc & _ & Hst & _).
  rewrite Hreq in Hn. destruct (answers_done _ _ _ _ Hn Hp) as [Haw Hnot]. cbn [set_commands sw_tunnel sw_commands sw_stage] in *.
  rewrite Hst in Hg'. destruct (decide (t_phase a = TClosed)) as [|Hph]; [done|].
  apply tunnel_round_books in Hr as [?|(Hkept & _)]; [done|].
  assert (Hend : n ∈ pending_continue a -> segment_owed n w').
  { intros Hin. right. eexists. split; [exact Hw'|]. destruct (claimed _ _); [done|]. unfold drop_live. cbn.
    destruct (next_live rs (live t)) as [[seg out]|]; [|done]. cbn. by destruct (segment_drop_books seg a) as [-> _]. }
  assert (Hmine : n ∈ pending_continue (actor t) \/ (exists now, tev = EvContinue now n) -> segment_owed n w').
  { intros Hor. destruct (Hkept n Hor) as [Hcl|[?|?]]; [|done|by apply Hend]. by rewrite Haw in Hcl. }
  destruct Ho as [Hin|(t' & Ht' & Hin)]; [|apply Hmine; left; congruence].
  destruct tev as [|now reply|now| | |now]; rewrite Hcs in Hin; try (left; by rewrite Hc);
    apply elem_of_cons in Hin as [Heq|Hin]; try (left; by rewrite Hc).
  injection Heq as <-. apply Hmine. right. by exists now.
Qed.

Lemma segment_owed_same w w' n :
  sw_commands w' = sw_commands w \/ (exists k, sw_commands w' = sw_commands w ++ [TcContinue k]) ->
  (forall t, sw_tunnel w = Some t -> exists t', sw_tunnel w' = Some t' /\ pending_continue (actor t') = pending_continue (actor t)) ->
  segment_owed n w -> segment_owed n w'.
Proof.
  intros Hc Ht [Hin|(t & Hw & Hin)].
  - left. destruct Hc as [->|[k ->]]; [done|]. apply elem_of_app. by left.
  - right. destruct (Ht t Hw) as (t' & Hw' & Hp). exists t'. by rewrite Hp.
Qed.

(** Where a stream is served, what an event other than a round does to the
    tunnel's books. *)
Lemma books_actor ev w w' :
  books_ok w -> actor_move Cd jitter_table stream_id ev w w' -> sw_stage w' = StServing ->
  (forall n rq, sw_requests w' !! n = Some rq -> rq_phase rq = RqAwaitSegment -> segment_owed n w -> segment_owed n w') /\
  rotation_ok w'.
Proof.
  intros [_ _ Hrot] Hm Hg'.
  destruct Hm as [uev q Hst -> Hev|seen tev cs Hg Ht Hcs|q Hg -> Hq'|Hg Hs ->|t seg out env now r seg' a -> Ht Hl Hp ->|t Ht Hl ->|d d' tw Hd -> Htw];
    try done.
  - unfold upload_step in *. destruct (run_step _ _) as [[] ?]; (split; [|by apply Hrot]); intros n rq _ _; by apply segment_owed_same; [left|eauto].
  - split; [intros n rq; by eapply segment_owed_round|]. specialize (Hrot Hg).
    apply tunnel_step_effect in Ht as (t & rs & a & Hw & Hr & Hw' & _ & _ & _ & _ & _ & _ & Hst & _).
    intros t'. rewrite Hw'. intros [= <-]. rewrite Hst in Hg'. destruct (decide (t_phase a = TClosed)) as [|Hph]; [done|].
    eapply rotation_round; [by apply Hrot|exact Hr|done].
  - cbn in Hg'. specialize (Hrot Hg' t Ht). assert (Ha : pending_continue a = pending_continue (actor t) /\
      segment_active a = segment_active (actor t) /\ done_signals a = done_signals (actor t))
      by (apply segment_poll_actor in Hp as [->| ->]; done).
    destruct Ha as (Ha1 & Ha2 & Ha3). split.
    + intros n rq _ _. apply segment_owed_same; [by left|]. cbn. rewrite Ht. intros t' [= <-]. by eexists.
    + cbn. intros t' [= <-]. unfold rotation_of in *. cbn. rewrite Ha1, Ha2, Ha3. destruct Hrot as (? & ? & ?). split_and!; try done. by left.
  - cbn in Hg'. split.
    + intros n rq _ _. apply segment_owed_same; [by left|]. cbn. rewrite Ht. intros t' [= <-]. eexists. split; [done|].
      unfold drop_live. destruct (live t) as [[seg out]|]; [|done]. cbn. apply segment_drop_books.
    + cbn. intros t' [= <-]. by apply rotation_drop, Hrot.
  - cbn in Hg'. specialize (Hrot Hg'). split.
    + intros n rq _ _. apply segment_owed_same; [by left|]. cbn. intros t' Ht'. destruct Htw as [->|(t & now & Ht & ->)]; [eauto|].
      rewrite Ht in Ht'. injection Ht' as <-. by eexists.
    + cbn. intros t' Ht'. destruct Htw as [->|(t & now & Ht & ->)]; [by apply Hrot|]. injection Ht' as <-. by apply (Hrot t).
Qed.

Lemma books_request ev n w w' :
  life_ok w -> books_ok w -> request_event ev = Some n -> stream_step ev w = Some w' -> sw_stage w' = StServing ->
  (sw_stage w = StServing /\ (forall k, segment_owed k w -> segment_owed k w') \/ sw_stage w = StOpening) /\ rotation_ok w'.
Proof.
  intros [_ Hop] [_ _ Hrot] He H Hg'. destruct (request_effects _ _ _ _ _ _ _ _ _ _ _ He H) as (rq & Hn & [_ _ Hc Hst]).
  specialize (Hop n rq Hn). destruct Hst as [(Ht & Hd & Hg & _)|[(_ & _ & _ & _ & Hg & _)|(Hp & now & word & Hw')]]; [|congruence|].
  - rewrite Hg in Hg'. split; [left; split; [done|]|intros t; rewrite Ht; by apply Hrot].
    intros k. apply segment_owed_same; [destruct Hc; eauto|]. rewrite Ht. eauto.
  - rewrite Hp in Hop. destruct (rq_kind rq); [|by destruct Hop]. destruct Hop as [(Ho & _)|[_ ?]]; [|done]. split; [by right|].
    destruct (open_step_tunnel n rq now word w) as (t & Ht & _ & Hpend & _ & Hact & Hm). intros t'. rewrite Hw', Ht. intros [= <-].
    split_and!; [by rewrite Hpend|intros Ha; left; by apply Hact|].
    destruct (max_download_bytes traffic) as [m|]; [destruct Hm as [_ ->]|rewrite Hm]; done.
Qed.

(** Where a request that waits for a reply has just sent its command. *)
Lemma await_origin w w' n rq rq' :
  request_step Cu w w' n rq rq' ->
  (rq_phase rq' = RqAwaitAck -> exists m, CmdEos m n ∈ sw_queue w') /\
  (rq_phase rq' = RqAwaitSegment -> TcContinue n ∈ sw_commands w').
Proof.
  intros Hst. destruct Hst as [res dec p m Hp Hd Hres|? ? Hp|Hp Hq|Hp Hq|Hp|Hp ?|a Hp Ha|p Hp]; cbn; try done.
  - assert (Hno : p <> RqAwaitAck /\ p <> RqAwaitSegment).
    { destruct res as [[[[? ?]|?|]|]|]; try done; [by destruct Hres as [-> _]|..|by destruct Hres as [-> _]].
      destruct Hres as [_ ->]. destruct (rq_kind rq); [done|]. by destruct (_ =? 0). }
    by destruct Hno.
  - split; [|done]. intros _. exists (rq_max_seq rq). rewrite Hq. apply elem_of_app. right. by left.
  - split; [done|]. intros _. rewrite Hq. apply elem_of_app. right. by left.
  - split; by destruct Hp as [->|[->|[e ->]]].
Qed.

Lemma books_step ev w w' :
  tunnel_ok w -> life_ok w -> books_ok w -> stream_step ev w = Some w' -> books_ok w'.
Proof.
  intros Htun Hl Hb H. pose proof (life_kept ev w w' Htun Hl H) as Hl'. destruct (stream_moves _ _ _ _ _ _ _ _ _ _ H) as [_ Hm].
  assert (Hack : forall n rq', sw_requests w' !! n = Some rq' -> rq_phase rq' = RqAwaitAck -> ack_owed n w').
  { intros n rq' Hn' Hp'. destruct (Hm n rq' Hn') as [Hs|[(rq & Hs & Hst)|(? & ? & _ & _ & _ & ->)]]; [..|done].
    - eapply ack_owed_step; [exact H|]. by eapply bo_ack.
    - right. left. by apply (await_origin _ _ _ _ _ Hst). }
  assert (Hrest : sw_stage w' = StServing ->
    (forall n rq, sw_requests w' !! n = Some rq -> rq_phase rq = RqAwaitSegment ->
       sw_stage w = StServing /\ (segment_owed n w -> segment_owed n w') \/ sw_stage w = StOpening) /\ rotation_ok w').
  { intros Hg'. destruct (request_event ev) as [k|] eqn:He.
    - destruct (books_request _ _ _ _ Hl Hb He H Hg') as [[[Hg Ho]|Hg] Hrot]; (split; [|done]); intros n rq Hn Hp; [left|by right].
      split; [done|apply Ho].
    - destruct (actor_moves _ _ _ _ _ _ _ _ _ _ He H) as [Ha|(n & body & h & _ & Hn & _ & ->)].
      + destruct (books_actor _ _ _ Hb Ha Hg') as [Ho Hrot]. split; [|done]. intros n rq Hn Hp. left.
        split; [by eapply actor_serving|by eapply Ho].
      + split; [|by apply (bo_rotation w Hb)]. intros k rq _ _. left. split; [exact Hg'|]. apply segment_owed_same; [by left|eauto]. }
  split; [exact Hack| |by apply Hrest].
  intros Hg' n rq' Hn' Hp'. destruct (Hrest Hg') as [Ho _]. specialize (Ho n rq' Hn' Hp').
  destruct (Hm n rq' Hn') as [Hs|[(rq & Hs & Hst)|(? & ? & _ & _ & _ & ->)]]; [..|done].
  - destruct Ho as [[Hg Ho]|Hg]; [apply Ho; by eapply bo_segment|].
    pose proof (lo_opener w Hl n rq' Hs) as Hop. destruct (rq_kind rq'); [|by destruct Hop].
    rewrite Hp' in Hop. by destruct Hop as [(_ & _ & ?)|[? _]].
  - left. by apply (await_origin _ _ _ _ _ Hst).
Qed.

Record stream_ok (w : StreamWorld) : Prop := { so_tunnel : tunnel_ok w; so_life : life_ok w; so_books : books_ok w }.

Abbreviation stream_steps := (stream_steps Cu Cd jitter_table cfg ukey stream_id upstream_read).

Lemma tunnel_ok_steps w evs w' : tunnel_ok w -> Forall poll_ok evs -> stream_steps w evs w' -> tunnel_ok w'.
Proof.
  intros Hi Hev H. induction H as [|w evs w1 ev w2 _ IH Hs]; [done|]. apply Forall_app in Hev as [Hev He].
  apply Forall_cons in He as [He _]. apply (tunnel_ok_step ev w1 w2); [by apply IH|done..].
Qed.

Lemma stream_ok_step ev w w' : stream_ok w -> poll_ok ev -> stream_step ev w = Some w' -> stream_ok w'.
Proof.
  intros [Ht Hl Hb] Hp H. split; [by eapply tunnel_ok_step|by eapply life_kept|by eapply books_step].
Qed.

Lemma stream_ok_steps w evs w' : stream_ok w -> Forall poll_ok evs -> stream_steps w evs w' -> stream_ok w'.
Proof.
  intros Hi Hev H. induction H as [|w evs w1 ev w2 _ IH Hs]; [done|]. apply Forall_app in Hev as [Hev He].
  apply Forall_cons in He as [He _]. apply (stream_ok_step ev w1 w2); [by apply IH|done..].
Qed.

Lemma stream_ok_start app (up : sink) body now :
  stream_registry app !! stream_id = Some (SActive, ts) -> actors app !! stream_id = None -> tunnel_permits app = permits ->
  stream_ok (stream_start cfg app up body now).
Proof.
  intros Hr Ha Hp. destruct (start_ok app up body now Hr Ha Hp) as [Ht Hl]. split; [done|done|]. split; [|done..].
  intros n rq Hn. cbn in Hn. by apply lookup_singleton_Some in Hn as [<- <-].
Qed.

Lemma steps_trans w evs w1 evs' w2 : stream_steps w evs w1 -> stream_steps w1 evs' w2 -> stream_steps w (evs ++ evs') w2.
Proof.
  intros H1 H2. induction H2 as [|w1 evs' w2 ev w3 _ IH Hs]; [by rewrite app_nil_r|]. rewrite app_assoc. eapply sv_snoc; [by apply IH|exact Hs].
Qed.

Lemma steps_one ev w w' : stream_step ev w = Some w' -> stream_steps w [ev] w'.
Proof. intros H. apply (sv_snoc _ _ _ _ _ _ _ w [] w ev w'); [apply sv_nil|exact H]. Qed.

(** ** Taking a stream down *)

(** The actors' own events: no request takes part. *)
Definition takes_down (ev : StreamEvent) : bool :=
  match ev with SvUpload _ | SvShutdownSent | SvJoined => true | _ => false end.
Definition is_upload (ev : StreamEvent) : bool := match ev with SvUpload _ => true | _ => false end.

(** The upload actor takes commands until it stops or has none left. *)
Lemma drain w (now : Z) :
  sw_upload_stopped w = false -> exists evs w', stream_steps w evs w' /\ forallb takes_down evs = true /\ Forall poll_ok evs /\
    (length evs <= length (sw_queue w))%nat /\ sw_stage w' = sw_stage w /\ sw_queue w' = [].
Proof.
  remember (sw_queue w) as q eqn:Hq. symmetry in Hq. revert w Hq. induction q as [|cmd q IH]; intros w Hq Hs.
  { exists [], w. split; [apply sv_nil|]. by split_and!. }
  assert (Hstep : stream_step (SvUpload now) w = Some (upload_step (EvCmd now cmd) q w)) by (cbn; by rewrite Hq, Hs).
  set (w1 := upload_step (EvCmd now cmd) q w) in *.
  assert (Hw1 : sw_stage w1 = sw_stage w /\ (sw_queue w1 = [] \/ sw_upload_stopped w1 = false /\ sw_queue w1 = q)).
  { unfold w1, upload_step. destruct (run_step _ _) as [[] u]; split; cbn; auto. }
  destruct Hw1 as [Hg [Hst|[Hst Hq1]]].
  - exists [SvUpload now], w1. split; [by apply steps_one|]. split_and!; try done; [by repeat constructor|cbn; lia].
  - destruct (IH w1 Hq1 Hst) as (evs & w2 & H2 & Hd & Hp & Hlen & Hg2 & Hend). exists (SvUpload now :: evs), w2.
    split; [apply (steps_trans _ [SvUpload now] w1); [by apply steps_one|done]|].
    split_and!; [done|by constructor|cbn; lia|by rewrite Hg2|done].
Qed.

Lemma join w : sw_stage w = StJoining -> sw_upload_stopped w = true ->
  exists w', stream_step SvJoined w = Some w' /\ sw_stage w' = StOver.
Proof. intros Hg Hs. cbn. rewrite Hg, Hs. by eexists. Qed.

Lemma joining_over w (now : Z) : stage_ok w -> sw_stage w = StJoining ->
  (forall evs w', Forall poll_ok evs -> stream_steps w evs w' -> stage_ok w') ->
  exists evs w', stream_steps w evs w' /\ forallb takes_down evs = true /\ (length evs <= length (sw_queue w) + 1)%nat /\ sw_stage w' = StOver.
Proof.
  intros Hok Hg Hkeep. destruct (sw_upload_stopped w) eqn:Hs.
  - destruct (join w Hg Hs) as (w' & Hj & Hover). exists [SvJoined], w'. split; [by apply steps_one|]. split_and!; [done|cbn; lia|done].
  - destruct (drain w now Hs) as (evs & w1 & H1 & Hd & Hp & Hlen & Hg1 & Hend). rewrite Hg in Hg1.
    assert (Hst : sw_upload_stopped w1 = true).
    { specialize (Hkeep evs w1 Hp H1). unfold stage_ok in Hkeep. rewrite Hg1, Hend in Hkeep.
      destruct Hkeep as (_ & _ & _ & [?|Hin]); [done|by apply elem_of_nil in Hin]. }
    destruct (join w1 Hg1 Hst) as (w' & Hj & Hover). exists (evs ++ [SvJoined]), w'.
    split; [eapply steps_trans; [exact H1|by apply steps_one]|]. rewrite forallb_app, Hd, length_app. split_and!; [done|cbn; lia|done].
Qed.

Lemma cleanup_joining w (now : Z) : sw_stage w = StCleanup ->
  exists evs w', stream_steps w evs w' /\ forallb takes_down evs = true /\ Forall poll_ok evs /\ sw_stage w' = StJoining /\
    (length evs + length (sw_queue w') <= length (sw_queue w) + 2)%nat.
Proof.
  intros Hg. assert (Hsend : forall w, sw_stage w = StCleanup -> sw_upload_stopped w = true \/ sw_queue w = [] ->
    exists w', stream_step SvShutdownSent w = Some w' /\ sw_stage w' = StJoining /\ (length (sw_queue w') <= length (sw_queue w) + 1)%nat).
  { intros w0 Hg0 Hor. cbn. rewrite Hg0. destruct (sw_upload_stopped w0) eqn:Hs0.
    - eexists. split; [done|]. split; [done|]. cbn. lia.
    - destruct Hor as [?|Hq]; [done|]. rewrite Hq. cbn. eexists. split; [done|]. split; [done|]. cbn. lia. }
  destruct (sw_upload_stopped w) eqn:Hs.
  - destruct (Hsend w Hg (or_introl Hs)) as (w' & Hst & Hg' & Hl). exists [SvShutdownSent], w'. split; [by apply steps_one|].
    split_and!; [done|by repeat constructor|done|cbn; lia].
  - destruct (drain w now Hs) as (evs & w1 & H1 & Hd & Hp & Hlen & Hg1 & Hend). rewrite Hg in Hg1.
    destruct (Hsend w1 Hg1 (or_intror Hend)) as (w' & Hst & Hg' & Hl). exists (evs ++ [SvShutdownSent]), w'.
    split; [eapply steps_trans; [exact H1|by apply steps_one]|]. rewrite forallb_app, Hd, length_app.
    split_and!; [done|apply Forall_app; split; [done|by repeat constructor]|done|]. rewrite Hend in Hl. cbn in *. lia.
Qed.

(** However the rest goes on, each command that the upload actor takes brings
    it nearer to its shutdown. *)
Definition nearing (left : nat) (w : StreamWorld) : Prop :=
  sw_upload_stopped w = true \/ exists q1 q2, sw_queue w = q1 ++ CmdShutdown :: q2 /\ (length q1 < left)%nat.

Lemma nearing_more left left' w : (left <= left')%nat -> nearing left w -> nearing left' w.
Proof. intros Hle [?|(q1 & q2 & Hq & Hl)]; [by left|right]. exists q1, q2. split; [done|lia]. Qed.

Lemma nearing_upload left now cmd q w :
  sw_queue w = cmd :: q -> nearing left w -> sw_upload_stopped w = false -> nearing (left - 1) (upload_step (EvCmd now cmd) q w).
Proof.
  intros Hq [?|(q1 & q2 & Hq1 & Hl)] Hs; [congruence|]. unfold upload_step.
  destruct (run_step (EvCmd now cmd) (sw_upload w)) as [[] u] eqn:Hr; [by left|right]. rewrite Hq in Hq1.
  destruct q1 as [|c q1]; injection Hq1 as -> ->; [done|]. exists q1, q2. split; [done|]. cbn in Hl. lia.
Qed.

Lemma nearing_step left ev w w' :
  nearing left w -> stream_step ev w = Some w' -> nearing (if is_upload ev then left - 1 else left) w'.
Proof.
  intros Hn H.
  assert (Hsame : sw_upload_stopped w' = sw_upload_stopped w -> (exists q, sw_queue w' = sw_queue w ++ q) -> nearing left w').
  { intros Hs [q Hq]. unfold nearing. rewrite Hs, Hq. destruct Hn as [?|(q1 & q2 & -> & Hl)]; [by left|right].
    exists q1, (q2 ++ q). by rewrite <- app_assoc. }
  assert (Hid : sw_queue w' = sw_queue w -> exists q, sw_queue w' = sw_queue w ++ q) by (intros ->; exists []; by rewrite app_nil_r).
  destruct (request_event ev) as [k|] eqn:He.
  - destruct (request_effects _ _ _ _ _ _ _ _ _ _ _ He H) as (rq & _ & [[_ Hs] Hq _ _]).
    assert (Hup : is_upload ev = false) by (by destruct ev). rewrite Hup. apply Hsame; [done|].
    destruct Hq as [?|[_ [(? & ? & _ & ->)|(_ & -> & _)]]]; eauto.
  - destruct (is_upload ev) eqn:Hup.
    { destruct ev; try done. cbn in H. destruct (sw_queue w) as [|cmd q] eqn:Hq; [done|].
      destruct (sw_upload_stopped w) eqn:Hs; [done|]. injection H as <-. by apply nearing_upload. }
    destruct (actor_moves _ _ _ _ _ _ _ _ _ _ He H) as [Hm|(? & ? & ? & _ & _ & _ & ->)]; [|done].
    destruct Hm as [uev q Hst -> Hev|seen tev cs Hg Ht _|q Hg -> Hq'|Hg Hs ->|t seg out env now r seg' a -> Ht Hl Hp ->|t Ht Hl ->|d d' tw Hd -> Htw];
      try done.
    + destruct uev as [now cmd| |now].
      * eapply nearing_more; [|by apply nearing_upload]. lia.
      * by left.
      * unfold upload_step. destruct (run_step _ _) as [[] u]; [by left|]. destruct Hn as [?|Hn]; [congruence|right]. cbn. by rewrite <- Hev.
    + apply tunnel_step_effect in Ht as (t & rs & a & _ & _ & _ & _ & Hq & _ & Hs & _). by apply Hsame; [|apply Hid].
    + apply Hsame; [done|]. cbn. destruct Hq' as [[_ ->]|[_ ->]]; [exists []; by rewrite app_nil_r|by eexists].
Qed.

Definition uploads (evs : list StreamEvent) : nat := length (filter (fun ev => is_upload ev = true) evs).

Lemma nearing_steps left w evs w' : nearing left w -> stream_steps w evs w' -> nearing (left - uploads evs) w'.
Proof.
  intros Hn H. induction H as [|w evs w1 ev w2 _ IH Hs]; [eapply nearing_more; [|exact Hn]; cbn; lia|].
  specialize (IH Hn). eapply nearing_more; [|by eapply nearing_step]. unfold uploads. rewrite filter_app, length_app.
  destruct (is_upload ev) eqn:Hu; [rewrite filter_cons_True by done|rewrite filter_cons_False by congruence]; cbn; lia.
Qed.
End lifecycle.

(** What the target has been sent. *)
Lemma stream_uploads `{W : FrameSink} (WL : FrameSinkLaws W) `{B : Base122} Cu Cd jitter_table cfg ukey stream_id
    upstream_read f (up : sink) app body now evs w :
  intact up -> actors app !! stream_id = None -> honest_body Cu cfg f body -> Forall (honest_event Cu cfg f) evs ->
  stream_steps Cu Cd jitter_table cfg ukey stream_id upstream_read (stream_start cfg app up body now) evs w ->
  (exists n, sent_prefix (delivered up) (chunk f 0 n) (delivered (upstream (sw_upload w)))) /\
  forall n rq polls k d, sw_requests w !! n = Some rq -> rq_phase rq = RqDone AnsUploaded ->
    (k, d) ∈ fst (collect (C := Cu) polls (FrameDecoder_new (rq_body rq) (encoding_type (srv_traffic cfg)) MAX_FRAME_BUF_SIZE)) ->
    exists tail, delivered (upstream (sw_upload w)) = delivered up ++ chunk f 0 (k + 1) ++ tail.
Proof.
  intros Hint Ha Hb Hev Hs. destruct (uploads_steps Cu Cd jitter_table cfg ukey stream_id upstream_read f up now _ evs w
    (uploads_start Cu cfg stream_id f up now app body Hb Ha) Hev Hs) as [Hreq _ Hup].
  destruct (respects_exists w) as [wants Hw]. destruct (Hup wants Hw) as [(cmds & Hrun & Hcmds) _].
  assert (H0 : 0 <= 0 <= seq_max) by (vm_compute; split; congruence).
  pose proof (run_inv f 0 (delivered up) wants cmds _ [] (inv_new f 0 (delivered up) wants up now Hint eq_refl H0)
    Hcmds ltac:(lia)) as Hinv.
  rewrite Hrun in Hinv. destruct Hinv as (seen & [_ Hpre Hacks] & _). split; [exact Hpre|].
  intros n rq polls k d Hn Hp Hk. specialize (Hreq n rq Hn). unfold request_ok in Hreq. rewrite Hp in Hreq.
  destruct Hreq as [Hcov Hok]. specialize (Hcov polls (k, d) Hk). cbn in Hcov.
  destruct (Hacks n Hok) as [tail Ht]. rewrite (Hw n rq Hn) in Ht by (by rewrite Hp).
  destruct (decide (k < 0)) as [Hneg|Hpos].
  - assert (Hnil : chunk f 0 (k + 1) = []) by (unfold chunk; by rewrite seqZ_nil by lia). rewrite Hnil. eexists. exact Ht.
  - rewrite Ht, <- (chunk_app f 0 (k + 1) (rq_max_seq rq + 1)), <- app_assoc by lia. by eexists.
Qed.


(** The tunnel of a stream is one that [Tunnel] describes. *)
Lemma stream_tunnel `{W : FrameSink} `{B : Base122} Cu Cd jitter_table cfg ukey stream_id upstream_read (up : sink) app body now
    evs w m t :
  Forall poll_ok evs ->
  stream_steps Cu Cd jitter_table cfg ukey stream_id upstream_read (stream_start cfg app up body now) evs w ->
  max_download_bytes (srv_traffic cfg) = Some m -> sw_tunnel w = Some t ->
  exists now1 word1, tsteps (C := Cd) jitter_table (start_tunnel m upstream_read (resolve (srv_traffic cfg)) now1 word1) t.
Proof.
  intros Hev Hs Hm Ht.
  destruct (tunnel_ok_steps Cu Cd jitter_table cfg ukey stream_id upstream_read _ evs w
    (tunnel_ok_start Cd jitter_table cfg upstream_read app up body now) Hev Hs) as [H _].
  rewrite Hm in H. destruct H as [_ H]. by apply H.
Qed.

(** A run as a function of its events. *)
Fixpoint stream_run `{W : FrameSink} `{B : Base122} (Cu Cd : FrameCipher) jitter_table cfg ukey stream_id upstream_read
    (evs : list StreamEvent) (w : StreamWorld) : option StreamWorld :=
  match evs with
  | [] => Some w
  | ev :: evs =>
      w ← stream_step Cu Cd jitter_table cfg ukey stream_id upstream_read ev w;
      stream_run Cu Cd jitter_table cfg ukey stream_id upstream_read evs w
  end.

Lemma stream_run_steps `{W : FrameSink} `{B : Base122} Cu Cd jitter_table cfg ukey stream_id upstream_read evs w w' :
  stream_run Cu Cd jitter_table cfg ukey stream_id upstream_read evs w = Some w' ->
  stream_steps Cu Cd jitter_table cfg ukey stream_id upstream_read w evs w'.
Proof.
  revert w. induction evs as [|ev evs IH]; intros w H; [injection H as <-; apply sv_nil|].
  apply bind_Some in H as (w1 & H1 & H2). apply (steps_trans _ _ _ _ _ _ _ w [ev] w1); [by apply steps_one|by apply IH].
Qed.

Section reachable.
Context `{W : FrameSink} `{B : Base122}.
Context (Cu Cd : FrameCipher) (jitter_table : Z -> Z) (cfg : ServerConfig) (ukey stream_id : bytes) (upstream_read : list ReadEvent).

(** A reply that has come, or cannot come any more, ends the wait. *)
Lemma reply_ready w n rq :
  sw_requests w !! n = Some rq -> rq_phase rq = RqAwaitAck ->
  sw_upload_stopped w = true \/ n ∈ map fst (answered (sw_upload w)) ->
  exists w', stream_step Cu Cd jitter_table cfg ukey stream_id upstream_read (SvReply n) w = Some w'.
Proof.
  intros Hn Hp Hor. unfold stream_step, with_request. rewrite Hn. change (mbind ?f (Some rq)) with (f rq). cbv beta.
  unfold reply_step. rewrite Hp. destruct (list_find _ _) as [[i [k [[]|e|]]]|] eqn:Hf; try (by eexists).
  destruct Hor as [->|Hin]; [by eexists|]. apply list_find_None in Hf. apply list_elem_of_fmap in Hin as ([k r] & -> & Hin).
  rewrite Forall_forall in Hf. by destruct (Hf _ Hin).
Qed.

Lemma over_ready w n rq :
  sw_requests w !! n = Some rq -> sw_stage w = StOver -> sw_upload_stopped w = true ->
  is_waiting (rq_phase rq) = true -> rq_phase rq <> RqReading ->
  exists ev w', (ev = SvSend n \/ ev = SvReply n) /\ stream_step Cu Cd jitter_table cfg ukey stream_id upstream_read ev w = Some w'.
Proof.
  intros Hn Hg Hs Hw Hr.
  assert (Hstep : forall g, with_request n w g = g rq) by (intros g; unfold with_request; by rewrite Hn).
  destruct (rq_phase rq) eqn:Hp; try done.
  - exists (SvSend n). cbn [stream_step]. rewrite Hstep. unfold send_step. rewrite Hp, Hs. by eauto.
  - exists (SvSend n). cbn [stream_step]. rewrite Hstep. unfold send_step. rewrite Hp, decide_True by done. by eauto.
  - exists (SvReply n). cbn [stream_step]. rewrite Hstep. unfold reply_step. rewrite Hp, decide_True by done. by eauto.
  - exists (SvSend n). cbn [stream_step]. rewrite Hstep. unfold send_step. rewrite Hp, Hs. by eauto.
  - destruct (reply_ready w n rq Hn Hp (or_introl Hs)) as [w' Hw']. exists (SvReply n), w'. split; [by right|done].
Qed.
End reachable.

(** ** Properties *)

(** C10: no request waits for a reply that nobody will give. In every run, the
    end request of an upload that waits is in the upload actor's channel or
    among its waiters, or the wait can end at once; a request to continue that
    waits while the stream is served is in the tunnel actor's channel or among
    those it will serve, and then a body is out or its end is signalled; and
    once the stream is over, every waiting request can end at once, no timeout
    needed. *)
Theorem no_reply_lost `{W : FrameSink} `{B : Base122} Cu Cd jitter_table cfg ukey stream_id upstream_read ts
    (up : sink) app body now evs w :
  stream_registry app !! stream_id = Some (SActive, ts) -> actors app !! stream_id = None -> Forall poll_ok evs ->
  stream_steps Cu Cd jitter_table cfg ukey stream_id upstream_read (stream_start cfg app up body now) evs w ->
  (forall n rq, sw_requests w !! n = Some rq -> rq_phase rq = RqAwaitAck ->
     (exists m, CmdEos m n ∈ sw_queue w) \/ n ∈ waiting (phase (sw_upload w)) \/
     exists w', stream_step Cu Cd jitter_table cfg ukey stream_id upstream_read (SvReply n) w = Some w') /\
  (forall n rq, sw_stage w = StServing -> sw_requests w !! n = Some rq -> rq_phase rq = RqAwaitSegment ->
     TcContinue n ∈ sw_commands w \/ exists t, sw_tunnel w = Some t /\ n ∈ pending_continue (actor t) /\
       (live t <> None \/ 0 < done_signals (actor t))) /\
  (forall n rq, sw_stage w = StOver -> sw_requests w !! n = Some rq -> is_waiting (rq_phase rq) = true -> rq_phase rq <> RqReading ->
     exists ev w', (ev = SvSend n \/ ev = SvReply n) /\
       stream_step Cu Cd jitter_table cfg ukey stream_id upstream_read ev w = Some w').
Proof.
  intros Hr Ha Hev Hs.
  destruct (stream_ok_steps Cu Cd jitter_table cfg ukey stream_id upstream_read ts (tunnel_permits app) _ evs w
    (stream_ok_start Cd jitter_table cfg stream_id upstream_read ts (tunnel_permits app) app up body now Hr Ha eq_refl) Hev Hs)
    as [_ [Hstage _] [Hack Hseg Hrot]].
  split; [|split].
  - intros n rq Hn Hp. destruct (Hack n rq Hn Hp) as [Hst|[Hq|Hacc]]; [|by left|].
    + right. right. apply (reply_ready _ _ _ _ _ _ _ w n rq Hn Hp). by left.
    + apply elem_of_app in Hacc as [Hin|Hin]; [|right; by left]. right. right.
      apply (reply_ready _ _ _ _ _ _ _ w n rq Hn Hp). by right.
  - intros n rq Hg Hn Hp. destruct (Hseg Hg n rq Hn Hp) as [?|(t & Ht & Hin)]; [by left|right].
    exists t. destruct (Hrot Hg t Ht) as (H1 & H2 & _). split; [done|]. split; [done|]. apply H2, H1. intros Hnil.
    rewrite Hnil in Hin. by apply elem_of_nil in Hin.
  - intros n rq Hg Hn Hw Hrd. unfold stage_ok in Hstage. rewrite Hg in Hstage. destruct Hstage as (_ & Hst & _).
    by eapply over_ready.
Qed.

(** C11: a stream is taken down in order and completely. While it is open,
    opened or taken down it holds one permit; once it is over or its set-up
    failed, the permit is back, its handle is gone, and it is marked consumed;
    it is over only after its upload actor stopped. When its tunnel has ended,
    the two actors alone can bring it to its end, in at most three steps and
    one for each command in the channel; and once the shutdown is sent, the
    upload actor takes no more commands than are in its channel before it
    stops, whatever the requests do. *)
Theorem stream_teardown `{W : FrameSink} `{B : Base122} Cu Cd jitter_table cfg ukey stream_id upstream_read ts
    (up : sink) app body now evs w :
  stream_registry app !! stream_id = Some (SActive, ts) -> actors app !! stream_id = None -> Forall poll_ok evs ->
  stream_steps Cu Cd jitter_table cfg ukey stream_id upstream_read (stream_start cfg app up body now) evs w ->
  match sw_stage w with
  | StOver | StFailed => tunnel_permits (sw_app w) = tunnel_permits app /\ actors (sw_app w) !! stream_id = None /\
      stream_registry (sw_app w) !! stream_id = Some (SConsumed, ts) /\ (sw_stage w = StOver -> sw_upload_stopped w = true)
  | _ => tunnel_permits (sw_app w) = tunnel_permits app - 1
  end /\
  (sw_stage w = StCleanup \/ sw_stage w = StJoining ->
     exists evs' w', stream_steps Cu Cd jitter_table cfg ukey stream_id upstream_read w evs' w' /\
       forallb takes_down evs' = true /\ (length evs' <= length (sw_queue w) + 3)%nat /\ sw_stage w' = StOver) /\
  (sw_stage w = StJoining -> sw_upload_stopped w = false ->
     forall evs' w', stream_steps Cu Cd jitter_table cfg ukey stream_id upstream_read w evs' w' ->
       sw_upload_stopped w' = false -> (uploads evs' < length (sw_queue w))%nat).
Proof.
  intros Hr Ha Hev Hs.
  pose proof (stream_ok_steps Cu Cd jitter_table cfg ukey stream_id upstream_read ts (tunnel_permits app) _ evs w
    (stream_ok_start Cd jitter_table cfg stream_id upstream_read ts (tunnel_permits app) app up body now Hr Ha eq_refl) Hev Hs) as Hok.
  assert (Hkeep : forall evs' w', Forall poll_ok evs' -> stream_steps Cu Cd jitter_table cfg ukey stream_id upstream_read w evs' w' ->
    stage_ok stream_id ts (tunnel_permits app) w').
  { intros evs' w' Hev' Hs'. by eapply stream_ok_steps in Hs' as [_ [? _] _]. }
  pose proof (Hkeep [] w (Forall_nil_2 _) (sv_nil _ _ _ _ _ _ _ w)) as Hstage. split; [|split].
  - unfold stage_ok in Hstage. destruct (sw_stage w); [by apply Hstage..| |]; destruct_and?; done.
  - intros [Hg|Hg].
    + destruct (cleanup_joining Cu Cd jitter_table cfg ukey stream_id upstream_read w 0 Hg) as (e1 & w1 & H1 & Hd1 & Hp1 & Hg1 & Hl1).
      destruct (joining_over Cu Cd jitter_table cfg ukey stream_id upstream_read ts (tunnel_permits app) w1 0) as (e2 & w2 & H2 & Hd2 & Hl2 & Hg2).
      * by eapply Hkeep.
      * done.
      * intros e w' He Hs'. apply (Hkeep (e1 ++ e)); [by apply Forall_app|by eapply steps_trans].
      * exists (e1 ++ e2), w2. split; [by eapply steps_trans|]. rewrite forallb_app, Hd1, Hd2, length_app. split_and!; [done|lia|done].
    + destruct (joining_over Cu Cd jitter_table cfg ukey stream_id upstream_read ts (tunnel_permits app) w 0) as (e2 & w2 & H2 & Hd2 & Hl2 & Hg2);
        [done..|]. exists e2, w2. split_and!; try done. lia.
  - intros Hg Hns evs' w' Hs' Hns'. unfold stage_ok in Hstage. rewrite Hg in Hstage. destruct Hstage as (_ & _ & _ & [?|Hin]); [congruence|].
    apply list_elem_of_split in Hin as (q1 & q2 & Hq). assert (Hn : nearing (length (sw_queue w)) w).
    { right. exists q1, q2. split; [done|]. rewrite Hq, length_app. cbn. lia. }
    destruct (nearing_steps _ _ _ _ _ _ _ _ _ _ _ Hn Hs') as [?|(p1 & p2 & _ & Hl)]; [congruence|lia].
Qed.

(** ** Witnesses *)

(** A stream of a toy server that has a limit of ten bytes. *)
Definition limited_server : ServerConfig :=
  mkServerConfig [] (mkTraffic (global toy_config) (stage_configs toy_config) Json (Some 10)).
Definition limited_stream : bytes := zrep 16 Byte.x55.
Definition limited_app : AppState := mkState ∅ {[ limited_stream := (SActive, 5) ]} ∅ 4.
Definition limited_read : list ReadEvent := [RdData (str "hello"); RdPending; RdData []].
Definition limited_run (evs : list StreamEvent) : StreamWorld :=
  let start := stream_start (W := mem_sink) limited_server limited_app (str ">") [] 0 in
  default start (stream_run (W := mem_sink) (aes_frame_cipher toy_aes) (aes_frame_cipher toy_aes) (fun _ => 5) limited_server []
    limited_stream limited_read evs start).

(** It is opened without early data, a request to continue comes, and the
    tunnel is told to shut down. *)
Definition limited_events : list StreamEvent :=
  [SvRead 0; SvOpened 0 0 7; SvRequest 1 []; SvRead 1; SvSend 1; SvTunnel EvShutdownSignal (fun _ => false)].

Lemma no_reply_lost_witness :
  TcContinue 1 ∈ sw_commands (limited_run (take 5 limited_events)) \/
  exists t, sw_tunnel (limited_run (take 5 limited_events)) = Some t /\ 1 ∈ pending_continue (actor t) /\
    (live t <> None \/ 0 < done_signals (actor t)).
Proof.
  destruct (no_reply_lost (W := mem_sink) (aes_frame_cipher toy_aes) (aes_frame_cipher toy_aes) (fun _ => 5) limited_server []
    limited_stream limited_read 5 (str ">") limited_app [] 0 (take 5 limited_events) (limited_run (take 5 limited_events)))
    as (_ & H & _).
  - reflexivity.
  - reflexivity.
  - repeat constructor.
  - apply stream_run_steps. vm_compute. reflexivity.
  - refine (H 1 (default (mkRequest KOpen [] (FrameDecoder_new [] Json 0) 0 0 RqGone)
      (sw_requests (limited_run (take 5 limited_events)) !! 1)) _ _ _); vm_compute; reflexivity.
Defined.

Lemma stream_teardown_witness :
  sw_stage (limited_run limited_events) = StCleanup /\ tunnel_permits (sw_app (limited_run limited_events)) = 3 /\
  exists evs' w', stream_steps (W := mem_sink) (aes_frame_cipher toy_aes) (aes_frame_cipher toy_aes) (fun _ => 5) limited_server []
      limited_stream limited_read (limited_run limited_events) evs' w' /\
    (length evs' <= 3)%nat /\ sw_stage w' = StOver.
Proof.
  split; [vm_compute; reflexivity|].
  destruct (stream_teardown (W := mem_sink) (aes_frame_cipher toy_aes) (aes_frame_cipher toy_aes) (fun _ => 5) limited_server []
    limited_stream limited_read 5 (str ">") limited_app [] 0 limited_events (limited_run limited_events))
    as (Hperm & Hdown & _).
  - reflexivity.
  - reflexivity.
  - repeat constructor.
  - apply stream_run_steps. vm_compute. reflexivity.
  - split; [exact Hperm|]. destruct Hdown as (evs' & w' & Hs & _ & Hl & Hg); [left; vm_compute; reflexivity|].
    exists evs', w'. split; [exact Hs|]. split; [exact Hl|exact Hg].
Defined.
