(* ===== verification/Download.v ===== *)
(** * The client's download loop

    [DecodeBuffers] and [DownloadLoopActor]
    ([src/client/actor/download_loop.rs]): the bodies of successive responses
    are decoded, checked for order, gathered and written to the local socket;
    a body that reached the rotation limit is followed by the next one, which
    may have been requested ahead. What the transport and the timers do is a
    script; the socket is the parameter of [Upstream]. *)

From S2P Require Import Prelude Cipher Frame Shaper Decoder Upstream.

Definition WRITE_BUF_CAPACITY : Z := 64 * 1024.
Definition CLIENT_MAX_WRITE_IOV : Z := 64.
Definition PREFETCH_LEAD_BYTES : Z := 20 * 1024 * 1024.

(** ** The buffers *)

Record DecodeBuffers : Type := mkBuffers {
  db_input : bytes;
  db_scratch : bytes;
  db_pending : list bytes;
  db_pending_bytes : Z
}.

Definition DecodeBuffers_new : DecodeBuffers := mkBuffers [] [] [] 0.

Section ingest.
Context `{C : FrameCipher} `{B : Base122}.

(** The loop over the complete frames; [None] only when [fuel] runs out. *)
Fixpoint ingest_loop (fuel : nat) (enc : EncodingType) (this : DecodeBuffers) (expected_seq : Z)
    : option (Res string unit * DecodeBuffers * Z) :=
  match fuel with
  | O => None
  | S fuel =>
      let '(res, input, scr) := decode_frame (db_input this) (db_scratch this) enc in
      let this := mkBuffers input scr (db_pending this) (db_pending_bytes this) in
      match res with
      | Ok (Some frame) =>
          let '(sq, data, scr) := frame_data frame scr in
          if negb (sq =? expected_seq)
          then Some (Err "download frame out of order",
                     mkBuffers input scr (db_pending this) (db_pending_bytes this), expected_seq)
          else ingest_loop fuel enc
                 (mkBuffers input scr (db_pending this ++ [data]) (db_pending_bytes this + zlen data))
                 (as_u64 (expected_seq + 1))
      | Ok None => Some (Ok tt, this, expected_seq)
      | Err e => Some (Err (msg e), this, expected_seq)
      | Panic => Some (Panic, this, expected_seq)
      end
  end.

(** Every round but the last takes a byte from the input. *)
Definition ingest (chunk : bytes) (enc : EncodingType) (expected_seq : Z) (this : DecodeBuffers)
    : option (Res string unit * DecodeBuffers * Z) :=
  let input := if zlen (db_input this) =? 0 then chunk else db_input this ++ chunk in
  ingest_loop (S (length input)) enc
    (mkBuffers input (db_scratch this) (db_pending this) (db_pending_bytes this)) expected_seq.
End ingest.

Definition db_has_pending (this : DecodeBuffers) : bool := 0 <? db_pending_bytes this.
Definition needs_flush (this : DecodeBuffers) : bool := WRITE_BUF_CAPACITY <=? db_pending_bytes this.

(** The [while n > 0] loop. *)
Fixpoint consume (n : Z) (pending : list bytes) (pending_bytes : Z) : list bytes * Z :=
  match pending with
  | [] => ([], pending_bytes)
  | front :: rest =>
      if 0 <? n then
        if zlen front <=? n then consume (n - zlen front) rest (pending_bytes - zlen front)
        else (zdrop n front :: rest, pending_bytes - n)
      else (pending, pending_bytes)
  end.

(** The slices of one write. *)
Fixpoint flush_slices (count total : Z) (pending : list bytes) : list bytes :=
  match pending with
  | [] => []
  | chunk :: rest =>
      let count := count + 1 in
      let total := total + zlen chunk in
      chunk :: if (count =? CLIENT_MAX_WRITE_IOV) || (WRITE_BUF_CAPACITY <=? total)
               then [] else flush_slices count total rest
  end.

Section flush.
Context `{S : Socket}.

(** [None] only when [fuel] runs out. *)
Fixpoint flush_loop (fuel : nat) (this : DecodeBuffers) (s : socket)
    : option (Res string unit * DecodeBuffers * socket) :=
  match fuel with
  | O => None
  | Datatypes.S fuel =>
      match db_pending this with
      | [] => Some (Ok tt, this, s)
      | pending =>
          match write_vectored (flush_slices 0 0 pending) s with
          | (Some (Ok written), s) =>
              if written =? 0 then Some (Err "write zero", this, s)
              else
                let '(pending, pending_bytes) := consume written pending (db_pending_bytes this) in
                flush_loop fuel (mkBuffers (db_input this) (db_scratch this) pending pending_bytes) s
          | (Some (Err e), s) => Some (Err (msg e), this, s)
          | (Some Panic, s) => Some (Panic, this, s)
          | (None, s) => Some (Err "local socket write stalled", this, s)
          end
      end
  end.

(** Every round but the last writes a byte. *)
Definition flush (this : DecodeBuffers) (s : socket) : option (Res string unit * DecodeBuffers * socket) :=
  flush_loop (2 + length (concat (db_pending this))) this s.
End flush.

(** ** The actor *)

(** What the response's body and the flush timer do. *)
Inductive DlEvent : Type := DlChunk (b : bytes) | DlReadError | DlFlushTimer.

Inductive DlPhase : Type :=
| DStreaming (response : list DlEvent) (expected_seq : Z) (prefetch_at : option Z) (prefetch : bool)
| DRotating (expected_seq : Z) (prefetch : option bool)
| DDone.

(** The ways a request made ahead comes out, and the request made when there
    is none. *)
Inductive Prefetch : Type := PfResponse (response : list DlEvent) | PfFailed | PfSlow.
Record RotateEnv : Type := mkRotateEnv {
  re_prefetch : Prefetch;
  re_prefetch_again : Prefetch;
  re_continue : Res string (list DlEvent)
}.

Section download.
Context `{C : FrameCipher} `{B : Base122} `{S : Socket}.

Record DownloadLoop : Type := mkDownload {
  dl_buffers : DecodeBuffers;
  write_half : socket;
  dl_encoding : EncodingType;
  dl_max_bytes : option Z
}.

Definition set_buffers (this : DownloadLoop) (b : DecodeBuffers) (s : socket) : DownloadLoop :=
  mkDownload b s (dl_encoding this) (dl_max_bytes this).

Definition flush_all (this : DownloadLoop) : Res string unit * DownloadLoop :=
  match flush (dl_buffers this) (write_half this) with
  | Some (r, b, s) => (r, set_buffers this b s)
  | None => (Panic, this)
  end.

(** [drain_response]: the bytes received, the next number, and whether the
    next response was requested. *)
Fixpoint drain_response (response : list DlEvent) (expected_seq bytes_received : Z) (prefetch_at : option Z)
    (triggered : bool) (this : DownloadLoop) : Res string (Z * Z) * bool * DownloadLoop :=
  match response with
  | [] =>
      match flush_all this with
      | (Ok _, this) =>
          let b := dl_buffers this in
          (Ok (bytes_received, expected_seq), triggered,
           set_buffers this (mkBuffers [] (db_scratch b) (db_pending b) (db_pending_bytes b)) (write_half this))
      | (Err e, this) => (Err e, triggered, this)
      | (Panic, this) => (Panic, triggered, this)
      end
  | DlReadError :: _ => (Err "response read error", triggered, this)
  | DlFlushTimer :: response =>
      if db_has_pending (dl_buffers this) then
        match flush_all this with
        | (Ok _, this) => drain_response response expected_seq bytes_received prefetch_at triggered this
        | (Err e, this) => (Err e, triggered, this)
        | (Panic, this) => (Panic, triggered, this)
        end
      else drain_response response expected_seq bytes_received prefetch_at triggered this
  | DlChunk chunk :: response =>
      let bytes_received := bytes_received + zlen chunk in
      let triggered :=
        match prefetch_at with Some at_ => triggered || (at_ <=? bytes_received) | None => triggered end in
      match ingest chunk (dl_encoding this) expected_seq (dl_buffers this) with
      | Some (Ok _, b, expected_seq) =>
          let this := set_buffers this b (write_half this) in
          if needs_flush b then
            match flush_all this with
            | (Ok _, this) => drain_response response expected_seq bytes_received prefetch_at triggered this
            | (Err e, this) => (Err e, triggered, this)
            | (Panic, this) => (Panic, triggered, this)
            end
          else drain_response response expected_seq bytes_received prefetch_at triggered this
      | Some (Err e, b, _) => (Err e, triggered, set_buffers this b (write_half this))
      | _ => (Panic, triggered, this)
      end
  end.

Definition should_rotate (bytes : Z) (max_bytes : option Z) : bool :=
  (0 <? bytes) && match max_bytes with Some m => m <=? bytes | None => false end.

(** [prefetch] is whether a task waits to request the next response. *)
Definition do_streaming (response : list DlEvent) (expected_seq : Z) (prefetch_at : option Z) (prefetch : bool)
    (this : DownloadLoop) : Res string DlPhase * DownloadLoop :=
  let '(r, triggered, this) := drain_response response expected_seq 0 prefetch_at false this in
  (let? (bytes, next_seq) := r in
   Ok (if should_rotate bytes (dl_max_bytes this)
       then DRotating next_seq (if prefetch then Some triggered else None)
       else DDone), this).

(** The next response: a task that was never triggered ends without one. *)
Definition rotation_response (env : RotateEnv) (prefetch : option bool) : Res string (list DlEvent) :=
  match prefetch with
  | Some true =>
      match re_prefetch env with
      | PfResponse resp => Ok resp
      | PfFailed => re_continue env
      | PfSlow =>
          match re_prefetch_again env with
          | PfResponse resp => Ok resp
          | _ => Err "prefetch continuation timed out"
          end
      end
  | _ => re_continue env
  end.

Definition prefetch_at_of (max_bytes : option Z) : option Z :=
  option_map (fun m => saturating_sub m PREFETCH_LEAD_BYTES) max_bytes.
Definition use_prefetch (max_bytes : option Z) : bool :=
  match prefetch_at_of max_bytes with Some at_ => 0 <? at_ | None => false end.

Definition do_rotate (env : RotateEnv) (expected_seq : Z) (prefetch : option bool) (this : DownloadLoop)
    : Res string DlPhase :=
  let? response := rotation_response env prefetch in
  Ok (DStreaming response expected_seq (prefetch_at_of (dl_max_bytes this)) (use_prefetch (dl_max_bytes this))).

Definition rotate_enabled (max_bytes : option Z) : bool :=
  match max_bytes with Some m => 0 <? m | None => false end.

Definition DownloadLoopActor_new (initial_response : list DlEvent) (s : socket) (enc : EncodingType)
    (max_bytes : option Z) : DlPhase * DownloadLoop :=
  (DStreaming initial_response 0 (prefetch_at_of max_bytes) (rotate_enabled max_bytes && use_prefetch max_bytes),
   mkDownload DecodeBuffers_new s enc max_bytes).

(** One round of [run]; [None] when it waits for a response at the end of the
    script, which has one environment for each rotation. *)
Definition phase_step (envs : list RotateEnv) (phase : DlPhase) (this : DownloadLoop)
    : option (Res string DlPhase * list RotateEnv * DownloadLoop) :=
  match phase with
  | DStreaming response expected_seq prefetch_at prefetch =>
      let '(r, this) := do_streaming response expected_seq prefetch_at prefetch this in Some (r, envs, this)
  | DRotating expected_seq prefetch =>
      match envs with
      | [] => None
      | env :: envs => Some (do_rotate env expected_seq prefetch this, envs, this)
      end
  | DDone => Some (Ok DDone, envs, this)
  end.

(** [run]; [None] also when [fuel] runs out. *)
Fixpoint download_loop (fuel : nat) (envs : list RotateEnv) (phase : DlPhase) (this : DownloadLoop)
    : option (Res string unit) * DownloadLoop :=
  match fuel with
  | O => (None, this)
  | Datatypes.S fuel =>
      match phase with
      | DDone =>
          (Some (Ok tt), set_buffers this (dl_buffers this) (snd (sock_shutdown (write_half this))))
      | _ =>
          match phase_step envs phase this with
          | Some (Ok phase, envs, this) => download_loop fuel envs phase this
          | Some (Err e, _, this) => (Some (Err e), this)
          | Some (Panic, _, this) => (Some Panic, this)
          | None => (None, this)
          end
      end
  end.

(** Two rounds for each rotation, one for the first response, one to end. *)
Definition download_run (envs : list RotateEnv) (phase : DlPhase) (this : DownloadLoop)
    : option (Res string unit) * DownloadLoop :=
  download_loop (2 + 2 * length envs) envs phase this.
End download.

(** ** Lemmas: the buffers *)

Section ingest_proofs.
Context `{C : FrameCipher} {L : FrameCipherLaws C} `{B : Base122} {BL : Base122Laws B}.
Variable enc : EncodingType.

(** A buffer that holds no complete frame, before the bytes [rest]. *)
Lemma ingest_loop_ok fuel this q datas rest :
  frames_from enc q datas (db_input this ++ rest) -> q + zlen datas < u64_max -> 0 <= q ->
  (length (db_input this) < fuel)%nat ->
  exists done rem this',
    ingest_loop fuel enc this q = Some (Ok tt, this', q + zlen done) /\ datas = done ++ rem /\
    frames_from enc (q + zlen done) rem (db_input this' ++ rest) /\ (rest = [] -> rem = []) /\
    db_pending this' = db_pending this ++ done /\
    db_pending_bytes this' = db_pending_bytes this + zlen (concat done).
Proof.
  revert this q datas. induction fuel as [|fuel IH]; intros this q datas Hf Hmax Hq Hfuel; [lia|].
  cbn [ingest_loop].
  assert (Hstop : forall t, db_input t = db_input this -> db_pending t = db_pending this ->
    db_pending_bytes t = db_pending_bytes this -> (rest = [] -> datas = []) ->
    exists done rem this', Some (Ok tt : Res string unit, t, q) = Some (Ok tt, this', q + zlen done) /\ datas = done ++ rem /\
      frames_from enc (q + zlen done) rem (db_input this' ++ rest) /\ (rest = [] -> rem = []) /\
      db_pending this' = db_pending this ++ done /\
      db_pending_bytes this' = db_pending_bytes this + zlen (concat done)).
  { intros t Hi Hp Hb Hr. exists [], datas, t. change (zlen []) with 0. rewrite !Z.add_0_r, app_nil_r, Hi, Hb. done. }
  destruct datas as [|d datas].
  { cbn in Hf. apply app_nil in Hf as [Hi ->]. rewrite Hi, decode_empty. by apply Hstop. }
  destruct Hf as (w & s' & Hw & Hfw & Hf). apply app_split in Hw as [(k & Hi & Hs)|(k & Hk & Hi & Hs)].
  - destruct (is_frame_decode enc q d w k (db_scratch this) Hfw) as (frame & scr & Hd & Hfd). rewrite Hi, Hd.
    destruct (frame_data frame scr) as [[sq data] scr']. cbn in Hfd. injection Hfd as -> ->.
    rewrite Z.eqb_refl. cbn [negb db_pending db_pending_bytes]. rewrite zlen_cons in Hmax. pose proof (zlen_nonneg datas).
    rewrite as_u64_small by lia.
    destruct (IH (mkBuffers k scr' (db_pending this ++ [d]) (db_pending_bytes this + zlen d)) (q + 1) datas)
      as (done & rem & this' & -> & -> & Hf' & Hr & Hp & Hb); cbn [db_input]; [by rewrite <- Hs|lia|lia| |].
    { rewrite Hi, length_app in Hfuel. apply is_frame_len in Hfw as [Hl _]. unfold zlen in Hl. lia. }
    exists (d :: done), rem, this'. rewrite zlen_cons. replace (q + 1 + zlen done) with (q + (1 + zlen done)) in * by lia.
    split; [done|]. split; [done|]. split; [done|]. split; [done|]. split.
    + rewrite Hp. cbn. by rewrite <- app_assoc.
    + rewrite Hb. cbn. rewrite zlen_app. lia.
  - rewrite (is_frame_prefix enc q d w (db_input this) k (db_scratch this) Hfw Hi Hk).
    cbn [db_input db_scratch]. destruct this as [inp scr pe pb]. cbn in *.
    apply Hstop; [done..|]. intros ->. symmetry in Hs. by apply app_nil in Hs as [-> _].
Qed.
End ingest_proofs.

(** What was consumed leaves the front. *)
Lemma consume_spec n pending pb pending' pb' :
  0 <= n <= zlen (concat pending) -> consume n pending pb = (pending', pb') ->
  concat pending' = zdrop n (concat pending) /\ pb' = pb - n /\
  (Forall (fun d => d <> []) pending -> Forall (fun d => d <> []) pending').
Proof.
  revert n pb. induction pending as [|f pending IH]; intros n pb Hn H; cbn [consume concat] in *.
  - injection H as <- <-. change (zlen []) with 0 in Hn. replace n with 0 by lia. split; [done|]. split; [lia|done].
  - rewrite zlen_app in Hn. destruct (Z.ltb_spec 0 n).
    + destruct (Z.leb_spec (zlen f) n).
      * apply IH in H as (Hc & Hb & Hf); [|lia]. split; [|split; [lia|]].
        -- by rewrite Hc, zdrop_app_ge by lia.
        -- intros Hall. apply Forall_cons_1 in Hall as [_ Hall]. by apply Hf.
      * injection H as <- <-. cbn [concat]. split; [by rewrite zdrop_app_le by lia|]. split; [lia|].
        intros Hall. apply Forall_cons_1 in Hall as [_ Hall]. constructor; [|done].
        intros Hz. apply (f_equal zlen) in Hz. rewrite zlen_zdrop in Hz. change (zlen []) with 0 in Hz. lia.
    + injection H as <- <-. replace n with 0 by lia. rewrite zdrop_0. split; [done|]. split; [lia|done].
Qed.

Lemma flush_slices_prefix count total pending : exists tail, pending = flush_slices count total pending ++ tail.
Proof.
  revert count total. induction pending as [|f pending IH]; intros count total; cbn [flush_slices]; [by exists []|].
  destruct (_ || _); [by exists pending|]. destruct (IH (count + 1) (total + zlen f)) as [tail Ht].
  exists tail. cbn. by rewrite <- Ht.
Qed.

Section flush_proofs.
Context `{S : Socket} {SL : SocketLaws S}.

(** Flushing moves bytes from the buffer to the socket, in order; on a socket
    that makes progress it moves them all. *)
Lemma flush_loop_ok fuel this s :
  (length (concat (db_pending this)) + 2 <= fuel)%nat ->
  exists r this' s', flush_loop fuel this s = Some (r, this', s') /\ r <> Panic /\
    sent s' ++ concat (db_pending this') = sent s ++ concat (db_pending this) /\
    db_input this' = db_input this /\
    db_pending_bytes this' - zlen (concat (db_pending this')) = db_pending_bytes this - zlen (concat (db_pending this)) /\
    (r = Ok tt -> db_pending this' = []) /\
    (progressing -> Forall (fun d => d <> []) (db_pending this) -> r = Ok tt).
Proof.
  revert this s. induction fuel as [|fuel IH]; intros this s Hfuel; [lia|]. cbn [flush_loop].
  destruct (db_pending this) as [|f pending] eqn:Hp.
  { exists (Ok tt), this, s. rewrite Hp. done. }
  rewrite <- Hp in *. set (sl := flush_slices 0 0 (db_pending this)).
  destruct (flush_slices_prefix 0 0 (db_pending this)) as [tail Htail]. fold sl in Htail.
  assert (Hcat : concat (db_pending this) = concat sl ++ concat tail) by (rewrite Htail at 1; by rewrite concat_app).
  destruct (write_vectored sl s) as [r s1] eqn:Hw.
  assert (Hfail : (forall n, r <> Some (Ok n)) -> r <> Some Panic /\ sent s1 = sent s)
    by (intros Hn; by destruct (write_vectored_fail _ _ _ _ Hw Hn)).
  assert (Hprog : progressing -> Forall (fun d => d <> []) (db_pending this) -> exists n, r = Some (Ok n) /\ 0 < n).
  { intros Hpr Hall. destruct (Hpr sl s) as (n & s2 & Hw2 & Hpos). rewrite Hw in Hw2. injection Hw2 as -> _.
    exists n. split; [done|]. apply Hpos. unfold sl. rewrite Hp in *. cbn [flush_slices concat].
    apply Forall_cons_1 in Hall as [Hf _]. intros Hn. by apply app_nil in Hn as [? _]. }
  destruct r as [[n|e|]|].
  - destruct (write_vectored_ok _ _ _ _ Hw) as (Hn & Hle & Hsent).
    assert (Hpre : ztake n (concat sl) = ztake n (concat (db_pending this))) by (rewrite Hcat; by rewrite ztake_app_le).
    destruct (Z.eqb_spec n 0) as [->|Hn0].
    { eexists _, this, s1. split; [done|]. split; [done|]. rewrite ztake_0, app_nil_r in Hsent. rewrite Hsent.
      do 3 (split; [done|]). split; [done|]. intros Hpr Hall. destruct (Hprog Hpr Hall) as (k & [= <-] & ?). lia. }
    destruct (consume n (db_pending this) (db_pending_bytes this)) as [pending' pb'] eqn:Hc.
    assert (Hnp : n <= zlen (concat (db_pending this))) by (rewrite Hcat, zlen_app; pose proof (zlen_nonneg (concat tail)); lia).
    apply consume_spec in Hc as (Hc & -> & Hall'); [|lia].
    destruct (IH (mkBuffers (db_input this) (db_scratch this) pending' (db_pending_bytes this - n)) s1)
      as (r & this' & s' & -> & Hr & Hs & Hi & Hb & Hd & Hpr); cbn [db_pending db_input db_pending_bytes] in *.
    { rewrite Hc. unfold zdrop, zlen in *. rewrite length_drop. lia. }
    exists r, this', s'. split; [done|]. split; [done|]. split.
    { by rewrite Hs, Hsent, Hpre, Hc, <- app_assoc, ztake_zdrop. }
    split; [done|]. split; [rewrite Hb, Hc, zlen_zdrop; lia|]. split; [done|]. intros; apply Hpr; [done|by apply Hall'].
  - destruct Hfail as [_ Hs1]; [done|]. eexists _, this, s1. split; [done|]. split; [done|]. rewrite Hs1.
    do 3 (split; [done|]). split; [done|]. intros Hpr Hall. by destruct (Hprog Hpr Hall) as (k & ? & _).
  - by destruct Hfail as [? _].
  - destruct Hfail as [_ Hs1]; [done|]. eexists _, this, s1. split; [done|]. split; [done|]. rewrite Hs1.
    do 3 (split; [done|]). split; [done|]. intros Hpr Hall. by destruct (Hprog Hpr Hall) as (k & ? & _).
Qed.
End flush_proofs.

(** ** Lemmas: the loop *)

Fixpoint dl_bytes (response : list DlEvent) : bytes :=
  match response with
  | DlChunk b :: response => b ++ dl_bytes response
  | _ :: response => dl_bytes response
  | [] => []
  end.

Definition no_read_error (response : list DlEvent) : Prop := Forall (fun e => e <> DlReadError) response.

Section loop_proofs.
Context `{C : FrameCipher} {L : FrameCipherLaws C} `{B : Base122} {BL : Base122Laws B}.
Context `{S : Socket} {SL : SocketLaws S}.
Variable goal : bytes.

(** Of the data to deliver, what is written, gathered, still to be decoded
    from this response, and [later]. *)
Definition dl_inv (q : Z) (rem : list bytes) (rest later : bytes) (this : DownloadLoop) : Prop :=
  let b := dl_buffers this in
  frames_from (dl_encoding this) q rem (db_input b ++ rest) /\ (rest = [] -> rem = []) /\
  Forall (fun d => d <> []) rem /\ Forall (fun d => d <> []) (db_pending b) /\
  db_pending_bytes b = zlen (concat (db_pending b)) /\
  sent (write_half this) ++ concat (db_pending b) ++ concat rem ++ later = goal.

Definition keeps (this this' : DownloadLoop) : Prop :=
  dl_encoding this' = dl_encoding this /\ dl_max_bytes this' = dl_max_bytes this.

Definition on_target (this : DownloadLoop) : Prop := exists tail, goal = sent (write_half this) ++ tail.

Lemma dl_inv_on_target q rem rest later this : dl_inv q rem rest later this -> on_target this.
Proof. intros (_ & _ & _ & _ & _ & H). by eexists. Qed.

Lemma flush_all_ok q rem rest later this :
  dl_inv q rem rest later this ->
  let '(r, this') := flush_all this in
  r <> Panic /\ keeps this this' /\ on_target this' /\
  (r = Ok tt -> dl_inv q rem rest later this' /\ db_pending (dl_buffers this') = []) /\
  (progressing -> r = Ok tt).
Proof.
  intros (Hf & Hr & Hn & Hp & Hb & Hg). unfold flush_all, flush.
  destruct (flush_loop_ok (2 + length (concat (db_pending (dl_buffers this)))) (dl_buffers this) (write_half this))
    as (r & b & s & -> & Hpan & Hs & Hi & Hpb & Hd & Hpr); [lia|].
  split; [done|]. split; [done|]. split.
  { exists (concat (db_pending b) ++ concat rem ++ later). rewrite <- Hg. cbn.
    rewrite !app_assoc. do 2 f_equal. symmetry. exact Hs. }
  split; [|intros ?; by apply Hpr]. intros Hok. specialize (Hd Hok). rewrite Hd in *. cbn [concat] in *.
  rewrite app_nil_r in Hs. split; [|done]. unfold dl_inv. cbn. rewrite Hd, Hi, Hs. cbn [concat].
  split; [done|]. split; [done|]. split; [done|]. split; [done|]. split; [change (zlen []) with 0 in *; lia|].
  by rewrite <- Hg, <- app_assoc.
Qed.

Lemma ingest_inv chunk q rem rest later this :
  dl_inv q rem (chunk ++ rest) later this -> 0 <= q -> q + zlen rem < u64_max ->
  exists done rem' b, rem = done ++ rem' /\
    ingest chunk (dl_encoding this) q (dl_buffers this) = Some (Ok tt, b, q + zlen done) /\
    dl_inv (q + zlen done) rem' rest later (set_buffers this b (write_half this)).
Proof.
  intros (Hf & _ & Hn & Hp & Hb & Hg) Hq Hmax. unfold ingest. rewrite buffered_chunk. rewrite app_assoc in Hf.
  destruct (ingest_loop_ok (dl_encoding this) (Datatypes.S (length (db_input (dl_buffers this) ++ chunk)))
    (mkBuffers (db_input (dl_buffers this) ++ chunk) (db_scratch (dl_buffers this)) (db_pending (dl_buffers this))
       (db_pending_bytes (dl_buffers this))) q rem rest Hf Hmax Hq ltac:(cbn; lia))
    as (done & rem' & b & -> & -> & Hf' & Hr' & Hp' & Hb'). cbn [db_pending db_pending_bytes] in *.
  exists done, rem', b. split; [done|]. split; [done|]. unfold dl_inv. cbn [set_buffers dl_buffers dl_encoding write_half].
  apply Forall_app in Hn as [Hn1 Hn2].
  split; [done|]. split; [done|]. split; [done|]. split; [rewrite Hp'; by apply Forall_app|].
  rewrite Hp', Hb', Hb, concat_app, zlen_app. split; [done|]. rewrite <- Hg, concat_app, <- !app_assoc. done.
Qed.

Definition drained (got q : Z) (rem : list bytes) (rest later : bytes) (err_free : Prop) (this : DownloadLoop)
    (r : Res string (Z * Z)) (this' : DownloadLoop) : Prop :=
  r <> Panic /\ keeps this this' /\ on_target this' /\
  (forall b q', r = Ok (b, q') -> b = got + zlen rest /\ q' = q + zlen rem /\ dl_inv q' [] [] later this' /\
     db_input (dl_buffers this') = [] /\ db_pending (dl_buffers this') = []) /\
  (progressing -> err_free -> is_ok r = true).

Lemma drain_response_ok response q got pa trig rem later this :
  dl_inv q rem (dl_bytes response) later this -> 0 <= q -> q + zlen rem < u64_max ->
  let '(r, _, this') := drain_response response q got pa trig this in
  drained got q rem (dl_bytes response) later (no_read_error response) this r this'.
Proof.
  revert q got trig rem this. induction response as [|ev response IH]; intros q got trig rem this Hi Hq Hmax;
    cbn [drain_response].
  - pose proof (flush_all_ok _ _ _ _ _ Hi) as Hfl. destruct (flush_all this) as [r t].
    destruct Hfl as (Hpan & Hk & Ht & Hok & Hpr).
    destruct r as [[]|e|]; [|split_and!; try done; intros Hp _; by specialize (Hpr Hp)|done].
    destruct (Hok eq_refl) as [Hi' Hpe]. destruct Hi' as (Hf & Hr & _ & _ & Hb & Hg).
    assert (rem = []) as -> by (by apply Hr). cbn in Hf. apply app_nil in Hf as [Hinp _].
    split; [done|]. split; [done|]. split; [done|]. split; [|done].
    intros b q' [= <- <-]. change (zlen []) with 0. rewrite !Z.add_0_r. do 2 (split; [done|]). split; [|done].
    unfold dl_inv. cbn. rewrite Hpe in *. done.
  - assert (Hnext : forall q2 bytes2 trig2 rem2 t, dl_inv q2 rem2 (dl_bytes response) later t -> 0 <= q2 ->
      q2 + zlen rem2 < u64_max -> keeps this t -> bytes2 + zlen (dl_bytes response) = got + zlen (dl_bytes (ev :: response)) ->
      q2 + zlen rem2 = q + zlen rem ->
      let '(r, _, this') := drain_response response q2 bytes2 pa trig2 t in
      drained got q rem (dl_bytes (ev :: response)) later (no_read_error (ev :: response)) this r this').
    { intros q2 bytes2 trig2 rem2 t Ht Hq2 Hm2 [Hk1 Hk2] Hbytes Hqq. specialize (IH q2 bytes2 trig2 rem2 t Ht Hq2 Hm2).
      destruct (drain_response response q2 bytes2 pa trig2 t) as [[r tr] t'].
      destruct IH as (H1 & [H2 H2'] & H3 & H4 & H5). split; [done|]. split; [split; congruence|]. split; [done|].
      split; [|intros Hp He; apply H5; [done|by apply Forall_cons_1 in He as [_ ?]]].
      intros b q' Hr. destruct (H4 b q' Hr) as (-> & -> & ?). rewrite Hqq in *. by rewrite Hbytes. }
    assert (Hflush : forall q2 bytes2 trig2 rem2 t, dl_inv q2 rem2 (dl_bytes response) later t -> 0 <= q2 ->
      q2 + zlen rem2 < u64_max -> keeps this t -> bytes2 + zlen (dl_bytes response) = got + zlen (dl_bytes (ev :: response)) ->
      q2 + zlen rem2 = q + zlen rem ->
      let '(r, _, this') :=
        match flush_all t with
        | (Ok _, t) => drain_response response q2 bytes2 pa trig2 t
        | (Err e, t) => (Err e, trig2, t)
        | (Panic, t) => (Panic, trig2, t)
        end in
      drained got q rem (dl_bytes (ev :: response)) later (no_read_error (ev :: response)) this r this').
    { intros q2 bytes2 trig2 rem2 t Ht Hq2 Hm2 [Hk1 Hk2] Hbytes Hqq.
      pose proof (flush_all_ok _ _ _ _ _ Ht) as Hfl. destruct (flush_all t) as [r t2].
      destruct Hfl as (Hpan & [Hk3 Hk4] & Htt & Hok & Hpr).
      destruct r as [[]|e|]; [|split_and!; try done; [split; congruence|intros Hp _; by specialize (Hpr Hp)]|done].
      apply (Hnext q2 bytes2 trig2 rem2); try done; [by apply Hok|split; congruence]. }
    destruct ev as [chunk| |]; cbn [dl_bytes] in *.
    + destruct (ingest_inv chunk q rem (dl_bytes response) later this Hi Hq Hmax) as (done & rem' & b & -> & -> & Hi').
      rewrite zlen_app in *. pose proof (zlen_nonneg done). cbn [write_half set_buffers] in *.
      destruct (needs_flush b); [apply (Hflush _ _ _ rem')|apply (Hnext _ _ _ rem')]; try done; rewrite ?zlen_app; lia.
    + split; [done|]. split; [done|]. split; [by eapply dl_inv_on_target|]. split; [done|].
      intros _ He. by apply Forall_cons_1 in He as [? _].
    + destruct (db_has_pending _); [by apply (Hflush _ _ _ rem)|by apply (Hnext _ _ _ rem)].
Qed.

(** Every body but the last is one after which the client rotates. *)
Fixpoint cut_for (max_bytes : option Z) (bodies : list bytes) : Prop :=
  match bodies with
  | [] => False
  | [b] => should_rotate (zlen b) max_bytes = false
  | b :: bodies => should_rotate (zlen b) max_bytes = true /\ cut_for max_bytes bodies
  end.

(** The request for the next response yields [response], or fails. *)
Definition rotation_may (env : RotateEnv) (response : list DlEvent) : Prop :=
  forall pf, rotation_response env pf = Ok response \/ exists e, rotation_response env pf = Err e.
Definition rotation_gives (env : RotateEnv) (response : list DlEvent) : Prop :=
  forall pf, rotation_response env pf = Ok response.

Lemma download_loop_ok resps : forall envs fuel resp q pa pf this groups,
  Forall2 rotation_may envs resps ->
  bodies_from (dl_encoding this) q groups (map dl_bytes (resp :: resps)) ->
  Forall (fun d => d <> []) (concat groups) -> 0 <= q -> q + zlen (concat groups) < u64_max ->
  cut_for (dl_max_bytes this) (map dl_bytes (resp :: resps)) ->
  db_input (dl_buffers this) = [] -> db_pending (dl_buffers this) = [] -> db_pending_bytes (dl_buffers this) = 0 ->
  sent (write_half this) ++ concat (concat groups) = goal -> (2 + 2 * length envs <= fuel)%nat ->
  let '(r, this') := download_loop fuel envs (DStreaming resp q pa pf) this in
  r <> None /\ r <> Some Panic /\ on_target this' /\
  (progressing -> Forall no_read_error (resp :: resps) -> Forall2 rotation_gives envs resps ->
     r = Some (Ok tt) /\ sent (write_half this') = goal).
Proof.
  induction resps as [|resp2 resps IH]; intros envs fuel resp q pa pf this groups Henv Hb Hne Hq Hmax Hcut Hi Hp Hpb Hg Hfuel;
    (destruct groups as [|g groups]; [done|]); cbn [map bodies_from] in Hb; destruct Hb as [Hgb Hbs];
    cbn [concat] in *; rewrite zlen_app in Hmax; apply Forall_app in Hne as [Hne1 Hne2];
    pose proof (zlen_nonneg (concat groups)); pose proof (zlen_nonneg g).
  all: assert (Hinv : dl_inv q g (dl_bytes resp) (concat (concat groups)) this).
  1,3: unfold dl_inv; rewrite Hi, Hp, Hpb; split; [done|]; split;
    [intros Hz; rewrite Hz in Hgb; by apply frames_from_nil in Hgb|]; do 3 (split; [done|]); rewrite concat_app in Hg; exact Hg.
  all: destruct fuel as [|fuel]; [lia|]; cbn [download_loop phase_step]; unfold do_streaming.
  all: pose proof (drain_response_ok resp q 0 pa false g (concat (concat groups)) this Hinv Hq ltac:(lia)) as Hd.
  all: destruct (drain_response resp q 0 pa false this) as [[r tr] t]; destruct Hd as (Hpan & [Hk1 Hk2] & Ht & Hok & Hpr).
  all: destruct r as [[got q']|e|]; cbn [res_bind]; [|split; [done|]; split; [done|]; split; [done|];
    intros Hp1 He; apply Forall_cons_1 in He as [He _]; by specialize (Hpr Hp1 He)|done].
  all: destruct (Hok got q' eq_refl) as (-> & -> & Hinv' & Hi' & Hp'); rewrite Z.add_0_l, Hk2.
  - destruct groups; [|done]. cbn [map cut_for] in Hcut. rewrite Hcut. destruct fuel as [|fuel]; [lia|]. cbn [download_loop].
    destruct (sock_shutdown (write_half t)) as [rs s'] eqn:Hsh. destruct (sock_shutdown_sent _ _ _ Hsh) as [_ Hs].
    assert (Hfin : sent s' = goal).
    { rewrite Hs. destruct Hinv' as (_ & _ & _ & _ & _ & Hg'). rewrite Hp' in Hg'. cbn in Hg'. by rewrite app_nil_r in Hg'. }
    split; [done|]. split; [done|]. cbn. split; [exists []; by rewrite app_nil_r|done].
  - cbn [map] in Hcut. destruct Hcut as [Hrot Hcut]. rewrite Hrot. inversion Henv as [|env ? envs' ? Henv1 Henv2]; subst.
    destruct fuel as [|fuel]; [cbn in Hfuel; lia|]. cbn [download_loop phase_step]. unfold do_rotate.
    destruct (Henv1 (if pf then Some tr else None)) as [Hr|[e Hr]]; rewrite Hr; cbn [res_bind].
    2:{ split; [done|]. split; [done|]. split; [done|]. intros _ _ Hgv. inversion Hgv as [|? ? ? ? Hgv1 ?]; subst.
        by rewrite Hgv1 in Hr. }
    rewrite Hk2. pose proof (IH envs' fuel resp2 (q + zlen g) (prefetch_at_of (dl_max_bytes this))
      (use_prefetch (dl_max_bytes this)) t groups Henv2) as IH'. rewrite Hk1, Hk2 in IH'.
    destruct Hinv' as (_ & _ & _ & _ & Hb' & Hg'). rewrite Hp' in Hb', Hg'.
    specialize (IH' Hbs Hne2 ltac:(lia) ltac:(lia) Hcut Hi' Hp' Hb' Hg' ltac:(cbn in Hfuel; lia)).
    destruct (download_loop fuel envs' _ t) as [r' t']. destruct IH' as (H1 & H2 & H3 & H4).
    split; [done|]. split; [done|]. split; [done|]. intros Hp1 He Hgv.
    inversion Hgv; subst. apply Forall_cons_1 in He as [_ He]. by apply H4.
Qed.
End loop_proofs.

(** ** Properties *)

(** The client writes what the tunnel's bodies carry. Given successive
    bodies of whole frames numbered from zero, each cut into any chunks, where
    the client's limit tells the last one from the others, what the local
    socket is sent is at all times a prefix of the frames' data, whatever the
    socket, the transport and the requests made ahead do; and when they do not
    fail, the loop ends with all of it written. It never panics or blocks on
    its own. *)
Theorem download_delivers `{C : FrameCipher} (L : FrameCipherLaws C) `{B : Base122} (BL : Base122Laws B)
    `{S : Socket} (SL : SocketLaws S) enc max_bytes s resp resps envs groups :
  bodies_from enc 0 groups (map dl_bytes (resp :: resps)) -> Forall (fun d => d <> []) (concat groups) ->
  zlen (concat groups) < u64_max -> cut_for max_bytes (map dl_bytes (resp :: resps)) ->
  Forall2 rotation_may envs resps ->
  let '(phase, this) := DownloadLoopActor_new resp s enc max_bytes in
  let '(r, this') := download_run envs phase this in
  r <> None /\ r <> Some Panic /\
  (exists tail, sent s ++ concat (concat groups) = sent (write_half this') ++ tail) /\
  (progressing -> Forall no_read_error (resp :: resps) -> Forall2 rotation_gives envs resps ->
     r = Some (Ok tt) /\ sent (write_half this') = sent s ++ concat (concat groups)).
Proof.
  intros Hb Hne Hmax Hcut Henv. unfold DownloadLoopActor_new, download_run.
  pose proof (download_loop_ok (sent s ++ concat (concat groups)) resps envs (2 + 2 * length envs) resp 0
    (prefetch_at_of max_bytes) (rotate_enabled max_bytes && use_prefetch max_bytes)
    (mkDownload DecodeBuffers_new s enc max_bytes) groups Henv Hb Hne ltac:(lia) ltac:(lia) Hcut eq_refl eq_refl eq_refl
    eq_refl ltac:(lia)) as H.
  exact H.
Qed.

(** ** Witnesses *)

Definition toy_response : list DlEvent :=
  [DlChunk (ztake 9 (toy_frame 0 (str "hello"))); DlFlushTimer; DlChunk (zdrop 9 (toy_frame 0 (str "hello")))].
Definition toy_rotation : RotateEnv := mkRotateEnv (PfResponse []) PfFailed (Ok []).

Lemma eager_progressing : progressing (S := eager_socket).
Proof.
  intros slices s. exists (zlen (concat slices)), (s ++ concat slices). split; [reflexivity|].
  intros Hne. destruct (concat slices); [by destruct Hne|]. reflexivity.
Qed.

Lemma toy_rotation_gives : rotation_gives toy_rotation [].
Proof. by intros [[]|]. Qed.

Lemma download_delivers_witness :
  let '(phase, this) := DownloadLoopActor_new (S := eager_socket) toy_response (str ">") Binary (Some 20) in
  let '(r, this') := download_run (C := aes_frame_cipher toy_aes) [toy_rotation] phase this in
  r = Some (Ok tt) /\ sent (write_half this') = str ">hello".
Proof.
  pose proof (download_delivers (aes_frame_cipher_laws toy_aes) toy_base122_laws (S := eager_socket) eager_socket_laws
    Binary (Some 20) (str ">") toy_response [[]] [toy_rotation] [[str "hello"]; []]) as H.
  destruct (DownloadLoopActor_new (S := eager_socket) toy_response (str ">") Binary (Some 20)) as [phase this].
  destruct (download_run (C := aes_frame_cipher toy_aes) [toy_rotation] phase this) as [r this'].
  destruct H as (_ & _ & _ & Hd).
  - split; [|split; [reflexivity|exact I]].
    exists (toy_frame 0 (str "hello")), []. split; [reflexivity|]. split; [|reflexivity].
    apply toy_is_frame; vm_compute; intuition congruence.
  - repeat constructor. discriminate.
  - reflexivity.
  - split; reflexivity.
  - constructor; [|constructor]. intros pf. left. apply toy_rotation_gives.
  - apply Hd; [apply eager_progressing|repeat constructor; discriminate|].
    constructor; [apply toy_rotation_gives|constructor].
Defined.
