(* ===== verification/EndToEnd.v ===== *)
(** * End to end

    The components of both programs put together: what a client reads from its
    local socket is what the server writes to the target, and back. The
    components are joined at the frames: the bodies a sender produces are, cut
    into any chunks, the bodies its receiver decodes. *)

From S2P Require Import Prelude Cipher Frame Shaper Decoder Upstream Upload UploadLoop Tunnel Download.

(** ** Lemmas *)

(** The data of a numbered frame. *)
Definition frame_at (datas : list bytes) (k : Z) : bytes := default [] (datas !! Z.to_nat k).

Lemma map_frame_at pre datas :
  map (frame_at (pre ++ datas)) (seqZ (zlen pre) (zlen datas)) = datas.
Proof.
  revert pre. induction datas as [|d datas IH]; intros pre; [done|].
  rewrite zlen_cons, (seqZ_cons (zlen pre)) by (pose proof (zlen_nonneg datas); lia). cbn [map]. f_equal.
  - unfold frame_at, zlen. rewrite Nat2Z.id. by rewrite list_lookup_middle.
  - specialize (IH (pre ++ [d])). rewrite <- app_assoc, zlen_app in IH. cbn [app] in IH. change (zlen [d]) with 1 in IH.
    replace (Z.succ (zlen pre)) with (zlen pre + 1) by lia.
    replace (Z.pred (1 + zlen datas)) with (zlen datas) by lia. exact IH.
Qed.

Lemma chunk_all datas : chunk (frame_at datas) 0 (zlen datas) = concat datas.
Proof. unfold chunk. rewrite Z.sub_0_r. f_equal. exact (map_frame_at [] datas). Qed.

(** A run of the frames from the first on is a prefix of them. *)
Lemma chunk_prefix_all datas n : exists tail, concat datas = chunk (frame_at datas) 0 n ++ tail.
Proof.
  destruct (decide (n <= 0)) as [Hn|Hn].
  { exists (concat datas). unfold chunk. rewrite seqZ_nil by lia. done. }
  destruct (decide (n <= zlen datas)) as [Hle|Hgt].
  - exists (chunk (frame_at datas) n (zlen datas)). rewrite chunk_app by lia. by rewrite chunk_all.
  - exists []. rewrite app_nil_r, <- (chunk_app _ 0 (zlen datas)) by (pose proof (zlen_nonneg datas); lia).
    rewrite chunk_all. assert (chunk (frame_at datas) (zlen datas) n = []) as ->; [|by rewrite app_nil_r].
    unfold chunk. assert (H : Forall (fun d => d = []) (map (frame_at datas) (seqZ (zlen datas) (n - zlen datas)))).
    { apply Forall_map, Forall_forall. intros k Hk. apply elem_of_seqZ in Hk. unfold frame_at.
      rewrite lookup_ge_None_2; [done|]. unfold zlen in *. lia. }
    induction H as [|d l -> _ IH]; [done|]. exact IH.
Qed.

Section bodies.
Context `{C : FrameCipher} {L : FrameCipherLaws C} `{B : Base122} {BL : Base122Laws B}.
Variable enc : EncodingType.

(** A body among those of a stream, with the frames around it. *)
Lemma bodies_from_elem sq groups bodies b :
  bodies_from enc sq groups bodies -> b ∈ bodies ->
  exists g1 g g2, concat groups = g1 ++ g ++ g2 /\ frames_from enc (sq + zlen g1) g b.
Proof.
  revert sq bodies. induction groups as [|g0 groups IH]; intros sq [|b0 bodies] H Hin; cbn [bodies_from] in H; try done.
  { by apply elem_of_nil in Hin. }
  destruct H as [Hg H]. apply elem_of_cons in Hin as [->|Hin].
  - exists [], g0, (concat groups). change (zlen []) with 0. rewrite Z.add_0_r. done.
  - destruct (IH _ _ H Hin) as (g1 & g & g2 & Hc & Hf). exists (g0 ++ g1), g, g2. cbn [concat].
    rewrite Hc, zlen_app, <- app_assoc, Z.add_assoc. done.
Qed.

(** A numbered frame among all of them. *)
Lemma frame_in_zip (all g1 g g2 : list bytes) k d :
  all = g1 ++ g ++ g2 -> (k, d) ∈ zip (seqZ (zlen g1) (zlen g)) g -> 0 <= k < zlen all /\ d = frame_at all k.
Proof.
  intros Hc Hsub. apply list_elem_of_lookup_1 in Hsub as [i Hi].
  apply lookup_zip_with_Some in Hi as (k' & d' & [= -> ->] & Hk' & Hd').
  apply lookup_seqZ in Hk' as [-> Hi]. pose proof (zlen_nonneg g1). pose proof (zlen_nonneg g2).
  apply lookup_lt_Some in Hd' as Hlt. rewrite Hc, !zlen_app. split; [unfold zlen in *; lia|]. unfold frame_at.
  replace (Z.to_nat (zlen g1 + Z.of_nat i)) with (length g1 + i)%nat by (unfold zlen; lia).
  rewrite lookup_app_r by lia. replace (length g1 + i - length g1)%nat with i by lia.
  rewrite lookup_app_l by (by apply lookup_lt_Some in Hd'). by rewrite Hd'.
Qed.

(** Every frame decoded from a body is the one its number says. *)
Lemma decoded_frame max_buf groups bodies b evs polls k d :
  max_encoded_frame_len enc <= max_buf ->
  bodies_from enc 0 groups bodies -> b ∈ bodies -> no_body_error evs -> body_bytes evs = b ->
  (k, d) ∈ fst (collect polls (FrameDecoder_new evs enc max_buf)) ->
  0 <= k < zlen (concat groups) /\ d = frame_at (concat groups) k.
Proof.
  intros Hm Hb Hin He Hbytes Hk. destruct (bodies_from_elem 0 groups bodies b Hb Hin) as (g1 & g & g2 & Hc & Hf).
  assert (Hsub : (k, d) ∈ zip (seqZ (zlen g1) (zlen g)) g).
  { assert (Ho : owes (FrameDecoder_new evs enc max_buf) (zlen g1) g []).
    { split; [done|]. split; [done|]. split; [done|]. exists b. split; [exact Hf|]. split; [by left|].
      cbn. by rewrite app_nil_r. }
    revert Ho Hk. clear -L BL. generalize (zlen g1) as sq. generalize (FrameDecoder_new evs enc max_buf) as this.
    revert g. induction polls as [|polls IH]; intros g this sq Ho Hk; [by apply elem_of_nil in Hk|].
    cbn [collect] in Hk. unfold decoder_poll_next in Hk.
    destruct (decoder_loop_owed (decoder_fuel this) this sq g [] Ho) as (r & this' & Hl & Hpost).
    { unfold decoder_fuel. destruct (eos this); lia. }
    rewrite Hl in Hk. destruct r as [[[item|e|]|]|]; cbn [owed_post] in Hpost; try (by apply elem_of_nil in Hk).
    - destruct Hpost as (data & g' & -> & -> & Ho' & _). destruct (collect polls this') as [items o] eqn:E.
      cbn [fst] in Hk. rewrite zlen_cons, (seqZ_cons sq) by (pose proof (zlen_nonneg g'); lia). cbn [zip].
      apply elem_of_cons in Hk as [->|Hk]; [by left|]. right.
      replace (Z.succ sq) with (sq + 1) by lia. replace (Z.pred (1 + zlen g')) with (zlen g') by lia.
      apply (IH g' this' (sq + 1) Ho'). by rewrite E.
    - destruct Hpost as [Ho' _]. by apply (IH g this' sq Ho'). }
  by eapply frame_in_zip.
Qed.
End bodies.

(** An event of the server's upload actor whose frame, if any, a handler
    decoded from one of the client's requests. *)
Definition upload_event `{C : FrameCipher} `{B : Base122} (enc : EncodingType) (requests : list bytes)
    (wants : Z -> Z) (ev : UploadEvent) : Prop :=
  match ev with
  | EvCmd _ (CmdFrame k d) => exists b chunks polls, b ∈ requests /\ no_body_error chunks /\ body_bytes chunks = b /\
      (k, d) ∈ fst (collect polls (FrameDecoder_new chunks enc MAX_FRAME_BUF_SIZE))
  | EvCmd _ (CmdEos max_seq ack) => wants ack = max_seq
  | _ => True
  end.

Definition frame_event (ev : UploadEvent) : Prop :=
  match ev with EvCmd _ (CmdFrame _ _) => True | _ => False end.

Lemma as_arrivals (f : Z -> bytes) (hi : Z) evs :
  Forall (fun ev => exists t k, ev = arrival f (t, k) /\ 0 <= k < hi) evs ->
  exists arrivals, evs = map (arrival f) arrivals /\ Forall (fun a => 0 <= snd a < hi) arrivals.
Proof.
  induction 1 as [|ev evs (t & k & -> & Hk) _ (arr & -> & Ha)]; [by exists []|].
  exists ((t, k) :: arr). split; [done|]. by constructor.
Qed.

(** The client's download loop from its start to its end: how it ended, and
    what it leaves. *)
Definition client_download `{C : FrameCipher} `{B : Base122} `{S : Socket} (resp : list DlEvent) (s : socket)
    (enc : EncodingType) (max_bytes : option Z) (rotations : list RotateEnv) : option (Res string unit) * DownloadLoop :=
  let '(phase, this) := DownloadLoopActor_new resp s enc max_bytes in download_run rotations phase this.

Section requests.
Context `{C : FrameCipher} {L : FrameCipherLaws C} `{B : Base122} {BL : Base122Laws B}.
Context `{W : FrameSink} {WL : FrameSinkLaws W}.
Variables (enc : EncodingType) (groups : list (list bytes)) (requests : list bytes).
Hypothesis (Hbodies : bodies_from enc 0 groups requests) (Hcount : zlen (concat groups) < seq_max).

Lemma request_frame wants t k d :
  upload_event enc requests wants (EvCmd t (CmdFrame k d)) ->
  0 <= k < zlen (concat groups) /\ d = frame_at (concat groups) k /\ announceable d.
Proof.
  intros (b & chunks & polls & Hin & Hc & Hbb & Hk). apply collect_short in Hk as Hs.
  cut (0 <= k < zlen (concat groups) /\ d = frame_at (concat groups) k); [intros [? ->]; split; [done|]; split; [done|]; by apply short_announceable in Hs|].
  refine (decoded_frame _ _ _ _ b chunks polls k d _ Hbodies Hin Hc Hbb Hk). destruct enc; vm_compute; congruence.
Qed.

Lemma requests_in_order wants evs up t0 :
  intact up -> Forall (upload_event enc requests wants) evs ->
  let '(stopped, actor) := run evs (UploadActor_new up 0 t0) in
  sent_prefix (delivered up) (concat (concat groups)) (delivered (upstream actor)).
Proof.
  intros Hint Hevs. assert (Hok : Forall (ev_ok (frame_at (concat groups)) wants) evs).
  { eapply Forall_impl; [exact Hevs|]. intros [t [k d|m a|]| |t]; try done.
    intros H. apply request_frame in H as (? & -> & ?). split; [lia|done]. }
  pose proof (run_inv (frame_at (concat groups)) 0 (delivered up) wants evs _ []
    (inv_new _ 0 (delivered up) wants up t0 Hint eq_refl ltac:(unfold seq_max, u64_max; lia)) Hok ltac:(lia)) as Hrun.
  destruct (run evs _) as [stopped actor]. destruct Hrun as (seen & [_ [k Hpre] _] & _).
  eapply sent_prefix_weaken; [exact Hpre|]. apply chunk_prefix_all.
Qed.

Lemma requests_all_arrived wants evs up t0 :
  intact up -> Forall (upload_event enc requests wants) evs -> Forall frame_event evs ->
  (forall k, 0 <= k < zlen (concat groups) -> k ∈ ev_seqs evs) ->
  zlen (concat groups) <= MAX_PENDING_FRAMES -> zlen (concat (concat groups)) <= MAX_PENDING_BYTES -> reliable ->
  let '(stopped, actor) := run evs (UploadActor_new up 0 t0) in
  delivered (upstream actor) = delivered up ++ concat (concat groups).
Proof.
  intros Hint Hevs Hfr Hseen Hfl Hby Hrel. pose proof (zlen_nonneg (concat groups)).
  destruct (as_arrivals (frame_at (concat groups)) (zlen (concat groups)) evs) as (arrivals & -> & Harr).
  { rewrite Forall_forall in Hevs, Hfr |- *. intros ev Hin. specialize (Hevs ev Hin). specialize (Hfr ev Hin).
    destruct ev as [t [k d|m a|]| |t]; try done. apply request_frame in Hevs as (? & -> & _). by exists t, k. }
  pose proof (run_all_arrived (frame_at (concat groups)) 0 (zlen (concat groups)) up t0 arrivals Hint Hrel ltac:(lia)
    ltac:(lia) ltac:(lia) ltac:(lia)) as Harrived. rewrite chunk_all in Harrived. specialize (Harrived Hby Harr).
  destruct (run _ _) as [stopped actor]. apply Harrived. intros k Hk. specialize (Hseen k Hk).
  unfold ev_seqs in Hseen. apply list_elem_of_bind in Hseen as (ev & Hk' & Hin).
  apply list_elem_of_fmap in Hin as ([t k'] & -> & Hin). apply list_elem_of_fmap. exists (t, k'). split; [|done].
  cbn in Hk'. by apply list_elem_of_singleton in Hk'.
Qed.
End requests.

(** What the client's upload loop posts: the early payload and its batches,
    as the bodies of numbered frames. *)
Lemma upload_requests `{C : FrameCipher} {L : FrameCipherLaws C} `{B : Base122} {BL : Base122Laws B}
    jitter_table config nonces draw payload max_bytes conc maxif rd now word envs drain :
  validate config = Ok tt -> config_unsigned config ->
  (forall q, zlen (nonces q) = NONCE_LEN) -> draw_ok draw -> 0 <= max_bytes ->
  zlen (payload ++ input rd) < seq_max -> 1 <= conc -> 1 <= maxif -> Forall batch_env_ok envs ->
  exists early remaining n groups rest,
    encode_initial_payload nonces draw payload max_bytes config = Some (Ok (early, remaining, n)) /\
    payload ++ input rd = concat (concat groups) ++ rest /\ zlen (concat groups) < seq_max /\
    let '(r, loop) := upload_loop_run jitter_table envs drain (UBatching [])
      (new_upload_loop conc maxif (resolve config) remaining rd n now word) in
    bodies_from (encoding_type config) 0 groups (early :: posted loop) /\ (r = UNext UDone -> rest = []).
Proof.
  intros Hv Hu Hn Hd Hm Hmax Hconc Hmaxif Henv.
  destruct (upload_loop_frames jitter_table config nonces draw payload max_bytes conc maxif rd now word envs drain
    Hv Hu Hn Hd Hm ltac:(unfold seq_max in Hmax; lia) Hconc Hmaxif Henv) as (early & remaining & n & datas & He & Hf & -> & Hrun).
  destruct (upload_loop_run jitter_table envs drain _ _) as [r loop] eqn:Hloop.
  destruct Hrun as (_ & groups & rest & Hne & Hb & Htot & Hrest).
  assert (Hall : payload ++ input rd = concat (concat (datas :: groups)) ++ rest).
  { cbn [concat]. by rewrite concat_app, <- app_assoc. }
  exists early, remaining, (zlen datas), (datas :: groups), rest. split; [exact He|]. split; [exact Hall|]. split.
  - pose proof (zlen_concat_ge (concat (datas :: groups)) Hne) as Hz. rewrite Hall, zlen_app in Hmax. pose proof (zlen_nonneg rest). lia.
  - by rewrite Hloop.
Qed.

(** A body after which the client asks for the next one. *)
Lemma should_rotate_full (m : Z) (b : bytes) : m <= zlen b -> b <> [] -> should_rotate (zlen b) (Some m) = true.
Proof.
  intros Hm Hne. unfold should_rotate. assert (0 < zlen b) by (destruct b as [|x b]; [done|]; rewrite zlen_cons; pose proof (zlen_nonneg b); lia).
  destruct (Z.ltb_spec 0 (zlen b)); [|lia]. cbn. by apply Z.leb_le.
Qed.

Lemma should_rotate_short (m : Z) (b : bytes) : b = [] \/ zlen b < m -> should_rotate (zlen b) (Some m) = false.
Proof.
  intros [->|Hm]; [done|]. unfold should_rotate. destruct (0 <? zlen b); [|done]. cbn. by apply Z.leb_gt.
Qed.

Lemma cut_for_app (m : option Z) (full : list bytes) (last : bytes) :
  Forall (fun b => should_rotate (zlen b) m = true) full -> should_rotate (zlen last) m = false ->
  cut_for m (full ++ [last]).
Proof.
  intros Hf Hl. induction Hf as [|b full Hb _ IH]; [done|]. cbn [app cut_for].
  destruct (full ++ [last]) eqn:E; [by apply app_nil in E as [_ ?]|]. rewrite <- E in *. by split.
Qed.

(** A client that received the bodies of a tunnel up to one that ran to its
    end has written what they carry. *)
Lemma segmented_received `{C : FrameCipher} {L : FrameCipherLaws C} `{B : Base122} {BL : Base122Laws B}
    `{S : Socket} {SL : SocketLaws S} jitter_table enc total m w groups cur rest seg out env now' seg' act'
    s resp resps rotations :
  bodies_carry jitter_table enc total m w groups cur rest -> zlen total < u64_max ->
  env_ok env -> live w = Some (seg, out) -> seg_ended seg = false -> cancelled (actor w) = false ->
  segment_poll jitter_table env now' seg (actor w) = (Ready None, seg', act') ->
  map dl_bytes (resp :: resps) = map fst (bodies w) ++ [out] -> Forall2 rotation_may rotations resps ->
  let '(r, this') := client_download resp s enc (Some m) rotations in
  r <> None /\ r <> Some Panic /\
  (exists tail, sent s ++ total = sent (write_half this') ++ tail) /\
  (progressing -> Forall no_read_error (resp :: resps) -> Forall2 rotation_gives rotations resps ->
     r = Some (Ok tt) /\ sent (write_half this') = sent s ++ total).
Proof.
  intros (Hb & Hf & Ht & Hne & Hcut & _ & Hlive & Hdone) Hmax He Hl Hend Hcan Hp Hresp Hrot.
  rewrite (Hdone env now' seg out seg' act' He Hl Hend Hcan Hp), app_nil_r in Ht.
  unfold live_out in Hf. rewrite Hl in Hf.
  assert (Hall : concat (groups ++ [cur]) = concat groups ++ cur) by (rewrite concat_app; cbn; by rewrite app_nil_r).
  rewrite <- Hall in *. unfold client_download, DownloadLoopActor_new, download_run.
  pose proof (download_loop_ok (sent s ++ concat (concat (groups ++ [cur]))) resps rotations (2 + 2 * length rotations) resp 0
    (prefetch_at_of (Some m)) (rotate_enabled (Some m) && use_prefetch (Some m))
    (mkDownload DecodeBuffers_new s enc (Some m)) (groups ++ [cur])) as Hdl.
  rewrite Hresp in Hdl. cbn [dl_encoding dl_max_bytes dl_buffers write_half] in Hdl. rewrite Ht. apply Hdl; try done; try lia.
  - by apply bodies_from_snoc.
  - pose proof (zlen_concat_ge _ Hne). rewrite Ht in Hmax. lia.
  - apply cut_for_app; [|apply should_rotate_short; by apply (Hlive seg out)].
    apply Forall_map, Forall_forall. intros b Hin. apply list_elem_of_split in Hin as (before & after & Hsp).
    destruct (Hcut before b after Hsp) as (_ & Hle & Hn); [right; by rewrite Hl|]. by apply should_rotate_full.
Qed.

(** ** Properties *)

(** C3: the upload path, end to end. Whatever the local socket delivers and
    when, however the requests are chunked on the way, in whatever order,
    interleaving and multiplicity the server's handlers hand their frames to
    the upload actor, and whatever else the actor receives, the target is sent
    a prefix of the initial payload followed by the socket's data. When the
    client's loop finished and every frame arrived, within the reorder limits
    and with a target that accepts the writes, it is sent exactly that. *)
Theorem upload_end_to_end `{C : FrameCipher} (L : FrameCipherLaws C) `{B : Base122} (BL : Base122Laws B)
    `{W : FrameSink} (WL : FrameSinkLaws W) jitter_table config nonces draw payload max_bytes conc maxif rd now word
    envs drain up t0 :
  validate config = Ok tt -> config_unsigned config ->
  (forall q, zlen (nonces q) = NONCE_LEN) -> draw_ok draw -> 0 <= max_bytes ->
  zlen (payload ++ input rd) < seq_max -> 1 <= conc -> 1 <= maxif -> Forall batch_env_ok envs -> intact up ->
  exists early remaining n groups,
    encode_initial_payload nonces draw payload max_bytes config = Some (Ok (early, remaining, n)) /\
    let '(r, loop) := upload_loop_run jitter_table envs drain (UBatching [])
      (new_upload_loop conc maxif (resolve config) remaining rd n now word) in
    let requests := early :: posted loop in
    bodies_from (encoding_type config) 0 groups requests /\
    (forall wants evs, Forall (upload_event (encoding_type config) requests wants) evs ->
       let '(stopped, actor) := run evs (UploadActor_new up 0 t0) in
       sent_prefix (delivered up) (payload ++ input rd) (delivered (upstream actor))) /\
    (forall wants evs, Forall (upload_event (encoding_type config) requests wants) evs -> Forall frame_event evs ->
       r = UNext UDone -> (forall k, 0 <= k < zlen (concat groups) -> k ∈ ev_seqs evs) ->
       zlen (concat groups) <= MAX_PENDING_FRAMES -> zlen (payload ++ input rd) <= MAX_PENDING_BYTES -> reliable ->
       let '(stopped, actor) := run evs (UploadActor_new up 0 t0) in
       delivered (upstream actor) = delivered up ++ payload ++ input rd).
Proof.
  intros Hv Hu Hn Hd Hm Hmax Hconc Hmaxif Henv Hint.
  destruct (upload_requests jitter_table config nonces draw payload max_bytes conc maxif rd now word envs drain
    Hv Hu Hn Hd Hm Hmax Hconc Hmaxif Henv) as (early & remaining & n & groups & rest & He & Hall & Hcount & Hrun).
  exists early, remaining, n, groups. split; [exact He|].
  destruct (upload_loop_run jitter_table envs drain _ _) as [r loop]. destruct Hrun as [Hbodies Hrest].
  split; [exact Hbodies|]. split.
  - intros wants evs Hevs. pose proof (requests_in_order _ _ _ Hbodies Hcount wants evs up t0 Hint Hevs) as Hrun.
    destruct (run evs _) as [stopped actor]. eapply sent_prefix_weaken; [exact Hrun|]. by exists rest.
  - intros wants evs Hevs Hfr Hdone Hseen Hfl Hby Hrel. rewrite (Hrest Hdone), app_nil_r in Hall. rewrite Hall in *.
    by apply (requests_all_arrived _ _ _ Hbodies Hcount wants).
Qed.


(** C4: the download path of a segmented tunnel, end to end. When the body
    being sent runs to the end of what the target sends, after any number of
    rotations under any polling, commands and timers, a client with the same
    limit that receives the bodies, cut into any chunks, writes exactly the
    target's data to the local socket and ends; if the transport or the socket
    fails, it has written a prefix. *)
Theorem segmented_download_end_to_end `{C : FrameCipher} (L : FrameCipherLaws C) `{B : Base122} (BL : Base122Laws B)
    `{S : Socket} (SL : SocketLaws S) jitter_table config m rd now word w seg out env now' seg' act'
    s resp resps rotations :
  validate config = Ok tt -> config_unsigned config -> zlen (input rd) < u64_max ->
  tsteps jitter_table (start_tunnel m rd (resolve config) now word) w ->
  env_ok env -> live w = Some (seg, out) -> seg_ended seg = false -> cancelled (actor w) = false ->
  segment_poll jitter_table env now' seg (actor w) = (Ready None, seg', act') ->
  map dl_bytes (resp :: resps) = map fst (bodies w) ++ [out] -> Forall2 rotation_may rotations resps ->
  let '(r, this') := client_download resp s (encoding_type config) (Some m) rotations in
  r <> None /\ r <> Some Panic /\
  (exists tail, sent s ++ input rd = sent (write_half this') ++ tail) /\
  (progressing -> Forall no_read_error (resp :: resps) -> Forall2 rotation_gives rotations resps ->
     r = Some (Ok tt) /\ sent (write_half this') = sent s ++ input rd).
Proof.
  intros Hv Hu Hmax Hs He Hl Hend Hcan Hp Hresp Hrot.
  destruct (tunnel_bodies_carry jitter_table config m rd now word w Hv Hu Hmax Hs) as (groups & cur & rest & Hcarry).
  exact (segmented_received jitter_table (encoding_type config) (input rd) m w groups cur rest seg out env now' seg' act'
    s resp resps rotations Hcarry Hmax He Hl Hend Hcan Hp Hresp Hrot).
Qed.

(** C5: the download path of a tunnel without a limit, end to end: one body,
    whose shaper ran to its end, in any chunks. *)
Theorem direct_download_end_to_end `{C : FrameCipher} (L : FrameCipherLaws C) `{B : Base122} (BL : Base122Laws B)
    `{S : Socket} (SL : SocketLaws S) jitter_table config rd now word envs sqs stream this' s resp :
  validate config = Ok tt -> config_unsigned config ->
  zlen envs < u64_max -> Forall env_ok envs ->
  run_shaper jitter_table envs (with_seq rd (resolve config) 0 now word) [] = Some (sqs, stream, true, this') ->
  dl_bytes resp = stream ->
  let '(r, this') := client_download resp s (encoding_type config) None [] in
  r <> None /\ r <> Some Panic /\
  (exists tail, sent s ++ input rd = sent (write_half this') ++ tail) /\
  (progressing -> no_read_error resp -> r = Some (Ok tt) /\ sent (write_half this') = sent s ++ input rd).
Proof.
  intros Hv Hu Hmax He Hrun Hresp. pose proof (zlen_nonneg envs).
  pose proof (with_seq_wf config rd 0 now word Hv Hu ltac:(lia)) as Hwf.
  destruct (run_shaper_ok jitter_table envs _ [] He Hwf ltac:(cbn; lia))
    as (datas & stream' & ended & t & Hr & Hf & Hd & Hin & Hend).
  rewrite Hrun in Hr. injection Hr as Hsq -> <- ->. specialize (Hend eq_refl). cbn [app] in *.
  change (backlog _) with (input rd) in Hin at 1. rewrite Hend, app_nil_r in Hin.
  assert (Hlen : zlen datas < u64_max).
  { apply run_shaper_length in Hrun. rewrite Hsq in Hrun. rewrite length_seqZ in Hrun. unfold zlen in *. lia. }
  assert (Hne : Forall (fun d => d <> []) datas) by (eapply Forall_impl; [exact Hd|]; by intros ? [? _]).
  unfold client_download, DownloadLoopActor_new, download_run.
  pose proof (download_loop_ok (sent s ++ concat (concat [datas])) [] [] 2 resp 0
    (prefetch_at_of None) (rotate_enabled None && use_prefetch None)
    (mkDownload DecodeBuffers_new s (encoding_type config) None) [datas]) as Hdl.
  cbn [dl_encoding dl_max_bytes dl_buffers write_half concat] in Hdl. rewrite !app_nil_r in Hdl. rewrite Hin.
  destruct (download_loop (2 + 2 * length []) [] _ _) as [r t'] eqn:E.
  change (2 + 2 * length [])%nat with 2%nat in E. rewrite E in Hdl.
  destruct Hdl as (H1 & H2 & H3 & H4); try done; try lia.
  { cbn. rewrite Hresp. done. }
  { cbn. unfold should_rotate. by rewrite andb_false_r. }
  split; [done|]. split; [done|]. split; [done|]. intros Hp Hno. apply H4; [done|by constructor|done].
Qed.

(** ** Witnesses *)

(** The two requests of a toy upload, and what the server's handlers decode
    from them, the second request first. *)
Definition toy_early : bytes * bytes * Z :=
  match encode_initial_payload (C := aes_frame_cipher toy_aes) (fun _ => toy_nonce) toy_draw (str "hello") 3 toy_config with
  | Some (Ok x) => x
  | _ => ([], [], 0)
  end.
Definition toy_upload : BatchStep * UploadLoop := toy_loop_run (snd (fst toy_early)) (snd toy_early).
Definition toy_requests : list bytes := fst (fst toy_early) :: posted (snd toy_upload).
Definition toy_decoded (request : bytes) : list UploadEvent :=
  map (fun item => EvCmd 1 (CmdFrame (fst item) (snd item)))
    (fst (collect (C := aes_frame_cipher toy_aes) 20 (FrameDecoder_new [Chunk request] Json MAX_FRAME_BUF_SIZE))).
Definition toy_events : list UploadEvent := concat (map toy_decoded (rev toy_requests)).

Lemma toy_events_sent :
  upstream (snd (run (W := mem_sink) toy_events (UploadActor_new (W := mem_sink) (str ">") 0 0))) = str ">helloabc".
Proof. vm_compute. reflexivity. Qed.

Lemma toy_decoded_events wants request :
  request ∈ toy_requests ->
  Forall (upload_event (C := aes_frame_cipher toy_aes) Json toy_requests wants) (toy_decoded request).
Proof.
  intros Hin. apply Forall_map, Forall_forall. intros [k d] Hk. exists request, [Chunk request], 20%nat.
  split; [exact Hin|]. split; [repeat constructor|]. split; [apply app_nil_r|exact Hk].
Qed.

Lemma upload_end_to_end_witness :
  exists early remaining n groups,
    encode_initial_payload (C := aes_frame_cipher toy_aes) (fun _ => toy_nonce) toy_draw (str "hello") 3 toy_config
      = Some (Ok (early, remaining, n)) /\
    bodies_from (C := aes_frame_cipher toy_aes) Json 0 groups
      (early :: posted (snd (toy_loop_run remaining n))) /\
    sent_prefix (str ">") (str "helloabc")
      (upstream (snd (run (W := mem_sink) toy_events (UploadActor_new (W := mem_sink) (str ">") 0 0)))).
Proof.
  destruct (upload_end_to_end (aes_frame_cipher_laws toy_aes) toy_base122_laws mem_sink_laws (fun _ => 5) toy_config
    (fun _ => toy_nonce) toy_draw (str "hello") 3 2 MIN_IN_FLIGHT_BYTES toy_reader 0 7 [toy_batch] [(O, JoinOk)] (str ">") 0)
    as (early & remaining & n & groups & He & Hrun).
  - apply toy_config_ok.
  - apply toy_config_ok.
  - reflexivity.
  - apply toy_draw_ok.
  - lia.
  - reflexivity.
  - lia.
  - vm_compute. congruence.
  - apply toy_batch_ok.
  - exact I.
  - exists early, remaining, n, groups. split; [exact He|].
    change (upload_loop_run _ _ _ _ _) with (toy_loop_run remaining n) in Hrun.
    assert (Hreq : early :: posted (snd (toy_loop_run remaining n)) = toy_requests)
      by (unfold toy_requests, toy_upload, toy_early; rewrite He; reflexivity).
    destruct (toy_loop_run remaining n) as [r loop]. destruct Hrun as (Hb & Hsent & _). split; [exact Hb|].
    cbn [snd] in Hreq. rewrite Hreq in Hsent.
    specialize (Hsent (fun _ => 0) toy_events). destruct (run toy_events _) as [stopped act]. apply Hsent.
    apply Forall_concat, Forall_map, Forall_forall. intros request Hin. apply toy_decoded_events.
    apply list_elem_of_In, in_rev, list_elem_of_In. exact Hin.
Defined.

(** A tunnel whose second body runs to the end of the stream, and the client
    that reads both. *)
Definition te0 : TunnelWorld :=
  start_tunnel 10 [RdData (str "hello"); RdPending; RdData []] (resolve toy_config) 0 7.
Definition te : TunnelWorld :=
  round_world (EvContinue 4 77) (round_world EvSegmentDone (drop_world (poll_world te0))).

Lemma toy_end_steps : tsteps (C := aes_frame_cipher toy_aes) (fun _ => 5) te0 te.
Proof.
  do 4 (eapply tsteps_snoc; [|first [apply poll_world_step|apply drop_world_step|apply round_world_step];
    vm_compute; discriminate]). apply tsteps_refl.
Qed.

Definition te_polled :=
  match live te with
  | Some (seg, out) =>
      segment_poll (C := aes_frame_cipher toy_aes) (fun _ => 5) (toy_env true) 3 seg (actor te)
  | None => (Ready None, Segment_new (with_seq [] (resolve toy_config) 0 0 7) None, actor te)
  end.
Definition te_seg : Segment := match live te with Some (seg, _) => seg | None => snd (fst te_polled) end.
Definition te_first : bytes := concat (map fst (bodies te)).

Lemma segmented_download_end_to_end_witness :
  let '(r, this') := client_download (C := aes_frame_cipher toy_aes) (S := eager_socket)
    [DlChunk (ztake 30 te_first); DlFlushTimer; DlChunk (zdrop 30 te_first)] (str ">") Json (Some 10) [toy_rotation] in
  r = Some (Ok tt) /\ sent (write_half this') = str ">hello".
Proof.
  pose proof (segmented_download_end_to_end (aes_frame_cipher_laws toy_aes) toy_base122_laws (S := eager_socket)
    eager_socket_laws (fun _ => 5) toy_config 10 [RdData (str "hello"); RdPending; RdData []] 0 7 te
    te_seg [] (toy_env true) 3 (snd (fst te_polled)) (snd te_polled) (str ">")
    [DlChunk (ztake 30 te_first); DlFlushTimer; DlChunk (zdrop 30 te_first)] [[]] [toy_rotation]) as H.
  destruct (client_download _ _ _ _ _) as [r this'].
  destruct H as (_ & _ & _ & Hd).
  - apply toy_config_ok.
  - apply toy_config_ok.
  - reflexivity.
  - exact toy_end_steps.
  - apply toy_env_ok.
  - vm_compute. reflexivity.
  - vm_compute. reflexivity.
  - vm_compute. reflexivity.
  - vm_compute. reflexivity.
  - vm_compute. reflexivity.
  - constructor; [|constructor]. intros pf. left. apply toy_rotation_gives.
  - apply Hd; [apply eager_progressing|repeat constructor; discriminate|].
    constructor; [apply toy_rotation_gives|constructor].
Defined.

Definition toy_direct : list Z * bytes * bool * TrafficShaper :=
  default ([], [], false, with_seq [] (resolve toy_config) 0 0 0)
    (run_shaper (C := aes_frame_cipher toy_aes) (fun _ => 5) [toy_env true; toy_env true; toy_env true]
      (with_seq [RdData (str "abc"); RdPending; RdData (str "de"); RdData []] (resolve toy_config) 0 0 77) []).

Lemma direct_download_end_to_end_witness :
  let '(r, this') := client_download (C := aes_frame_cipher toy_aes) (S := eager_socket)
    [DlChunk (ztake 9 (snd (fst (fst toy_direct)))); DlFlushTimer; DlChunk (zdrop 9 (snd (fst (fst toy_direct))))]
    (str ">") Json None [] in
  r = Some (Ok tt) /\ sent (write_half this') = str ">abcde".
Proof.
  pose proof (direct_download_end_to_end (aes_frame_cipher_laws toy_aes) toy_base122_laws (S := eager_socket)
    eager_socket_laws (fun _ => 5) toy_config [RdData (str "abc"); RdPending; RdData (str "de"); RdData []] 0 77
    [toy_env true; toy_env true; toy_env true] (fst (fst (fst toy_direct))) (snd (fst (fst toy_direct))) (snd toy_direct)
    (str ">") [DlChunk (ztake 9 (snd (fst (fst toy_direct)))); DlFlushTimer; DlChunk (zdrop 9 (snd (fst (fst toy_direct))))]) as H.
  destruct (client_download _ _ _ _ _) as [r this'].
  destruct H as (_ & _ & _ & Hd).
  - apply toy_config_ok.
  - apply toy_config_ok.
  - reflexivity.
  - do 3 (constructor; [apply toy_env_ok|]). constructor.
  - vm_compute. reflexivity.
  - vm_compute. reflexivity.
  - apply Hd; [apply eager_progressing|repeat constructor; discriminate].
Defined.
