(* ===== verification/Duplex.v ===== *)
(** * Both directions of one tunnel

    The client's loops and the server's stream put together: requests that may
    be cut short by a client that goes away, the two actors, their channels and
    timers, in one run. *)

From S2P Require Import Prelude Cipher Frame Shaper Decoder Errors Token Registry Crypto Upstream Upload Handlers UploadLoop Tunnel Service Lifecycle Download EndToEnd.

(** ** Bodies that are cut short *)

(** What of a body arrives before it fails. *)
Fixpoint received (evs : list BodyEvent) : bytes :=
  match evs with
  | Chunk b :: evs => b ++ received evs
  | BodyPending :: evs => received evs
  | _ => []
  end.

Fixpoint before_error (evs : list BodyEvent) : list BodyEvent :=
  match evs with
  | BodyError _ :: _ => []
  | ev :: evs => ev :: before_error evs
  | [] => []
  end.

Lemma before_error_ok evs : no_body_error (before_error evs) /\ body_bytes (before_error evs) = received evs.
Proof.
  induction evs as [|[b| |e] evs [IH1 IH2]]; [by split; [constructor|]| | |by split; [constructor|]].
  - split; [by constructor|]. cbn. by rewrite IH2.
  - split; [by constructor|]. cbn. by rewrite IH2.
Qed.

Lemma received_whole evs : no_body_error evs -> received evs = body_bytes evs.
Proof. induction 1 as [|[b| |e] evs He _ IH]; [done| | |done]; cbn; by rewrite IH. Qed.

Section cut.
Context `{C : FrameCipher} {L : FrameCipherLaws C} `{B : Base122} {BL : Base122Laws B}.

Definition until_error (d : FrameDecoder) : FrameDecoder :=
  mkDecoder (before_error (inner d)) (buf d) (json_scratch d) (dec_encoding d) (max_buf_size d) (eos d).

(** Up to a failure of its body a decoder yields what it would yield if the
    body just ended there. *)
Lemma decoder_until_error fuel d r d' :
  (eos d = true -> inner d = []) -> decoder_loop fuel d = Some (r, d') ->
  (exists e, r = Ready (Some (Err e))) \/ decoder_loop fuel (until_error d) = Some (r, until_error d') /\ (eos d' = true -> inner d' = []).
Proof.
  revert d. induction fuel as [|fuel IH]; intros [inn bf scr0 enc mx eo] He H; [done|].
  cbn [decoder_loop until_error inner buf json_scratch dec_encoding max_buf_size eos] in *.
  destruct (decode_frame bf scr0 enc) as [[[[frame|]|e|] b] scr].
  - destruct (frame_data frame scr) as [[sq data] scr']. injection H as <- <-. by right.
  - destruct eo.
    + destruct (zlen b =? 0); injection H as <- <-; [by right|left; by eexists].
    + destruct (mx <? zlen b); [injection H as <- <-; left; by eexists|].
      destruct inn as [|[chunk| |e] rest]; cbn [poll_body before_error] in *.
      * by apply IH in H.
      * apply IH in H; done.
      * injection H as <- <-. by right.
      * injection H as <- <-. left. by eexists.
  - injection H as <- <-. left. by eexists.
  - injection H as <- <-. by right.
Qed.

(** A prefix of frames is some whole frames and an incomplete one. *)
Lemma frames_cut enc sq g b p q :
  frames_from enc sq g b -> b = p ++ q ->
  exists g1 g2 s tail, g = g1 ++ g2 /\ p = s ++ tail /\ frames_from enc sq g1 s /\ cut_tail enc tail.
Proof.
  revert sq b p. induction g as [|d g IH]; intros sq b p Hf Hb; cbn in Hf.
  - rewrite Hf in Hb. symmetry in Hb. apply app_nil in Hb as [-> _]. exists [], [], [], []. split_and!; try done. by left.
  - destruct Hf as (w & out & -> & Hw & Hf). symmetry in Hb. apply app_split in Hb as [(k & -> & Hq)|(k & Hk & Hw' & _)].
    + destruct (IH (sq + 1) out k Hf Hq) as (g1 & g2 & s & tail & -> & -> & Hs & Ht).
      exists (d :: g1), g2, (w ++ s), tail. split; [done|]. split; [by rewrite app_assoc|]. split; [by exists w, s|done].
    + exists [], (d :: g), [], p. split_and!; try done. right. by exists sq, d, w, k.
Qed.

(** Every frame decoded from a body that is a prefix of one of the stream's
    bodies, however it ends, is the one its number says. *)
Lemma decoded_frame_cut enc max_buf groups bodies b q evs polls k d :
  max_encoded_frame_len enc <= max_buf ->
  bodies_from enc 0 groups bodies -> b ∈ bodies -> b = received evs ++ q ->
  (k, d) ∈ fst (collect polls (FrameDecoder_new evs enc max_buf)) ->
  0 <= k < zlen (concat groups) /\ d = frame_at (concat groups) k.
Proof.
  intros Hm Hb Hin Hcut Hk. destruct (bodies_from_elem enc 0 groups bodies b Hb Hin) as (g1 & g & g2 & Hc & Hf).
  destruct (frames_cut enc _ g b (received evs) q Hf Hcut) as (h1 & h2 & s & tail & -> & Hr & Hs & Ht).
  assert (Hsub : (k, d) ∈ zip (seqZ (zlen g1) (zlen h1)) h1).
  { rewrite Z.add_0_l in Hs. destruct (before_error_ok evs) as [Hno Hby].
    assert (Ho : owes (until_error (FrameDecoder_new evs enc max_buf)) (zlen g1) h1 tail).
    { split; [done|]. split; [done|]. split; [done|]. exists s. split; [exact Hs|]. split; [done|]. cbn. by rewrite Hby, Hr. }
    assert (He : eos (FrameDecoder_new evs enc max_buf) = true -> inner (FrameDecoder_new evs enc max_buf) = []) by done.
    revert Ho He Hk. clear -L BL. generalize (zlen g1) as sq. generalize (FrameDecoder_new evs enc max_buf) as this.
    revert h1. induction polls as [|polls IH]; intros g this sq Ho He Hk; [by apply elem_of_nil in Hk|].
    cbn [collect] in Hk. unfold decoder_poll_next in Hk.
    destruct (decoder_loop (decoder_fuel this) this) as [[r this']|] eqn:Hl; [|by apply elem_of_nil in Hk].
    destruct (decoder_until_error _ _ _ _ He Hl) as [[e ->]|[Hl' He']]; [by apply elem_of_nil in Hk|].
    destruct (decoder_loop_owed (decoder_fuel this) (until_error this) sq g tail Ho) as (r' & d' & Hl2 & Hpost).
    { unfold decoder_fuel. cbn. assert (length (before_error (inner this)) <= length (inner this))%nat.
      { clear. induction (inner this) as [|[?| |?] l IH]; cbn; lia. }
      destruct (eos this); lia. }
    rewrite Hl' in Hl2. injection Hl2 as <- <-.
    destruct r as [[[item|e|]|]|]; cbn [owed_post] in Hpost; try (by apply elem_of_nil in Hk).
    - destruct Hpost as (data & g' & -> & -> & Ho' & _). destruct (collect polls this') as [items o] eqn:E.
      cbn [fst] in Hk. rewrite zlen_cons, (seqZ_cons sq) by (pose proof (zlen_nonneg g'); lia). cbn [zip].
      apply elem_of_cons in Hk as [->|Hk]; [by left|]. right.
      replace (Z.succ sq) with (sq + 1) by lia. replace (Z.pred (1 + zlen g')) with (zlen g') by lia.
      apply (IH g' this' (sq + 1) Ho' He'). by rewrite E.
    - destruct Hpost as [Ho' _]. by apply (IH g this' sq Ho' He'). }
  rewrite app_assoc_reverse in Hc. by eapply frame_in_zip.
Qed.
End cut.

(** ** A stream and its client *)

(** A request of the client, as much of it as arrives: one of the bodies it
    posts, or the empty body of a request to continue. *)
Definition client_body (requests : list bytes) (body : list BodyEvent) : Prop :=
  exists b q, b ∈ requests /\ b = received body ++ q.
Definition client_event (requests : list bytes) (ev : StreamEvent) : Prop :=
  match ev with SvRequest _ body => client_body requests body | _ => True end.

Lemma client_body_honest `{Cu : FrameCipher} {L : FrameCipherLaws Cu} `{B : Base122} {BL : Base122Laws B} cfg groups requests body :
  bodies_from (encoding_type (srv_traffic cfg)) 0 groups requests -> zlen (concat groups) < seq_max ->
  client_body requests body -> honest_body Cu cfg (frame_at (concat groups)) body.
Proof.
  intros Hb Hc (b & q & Hin & Hq) polls [k d] Hit.
  destruct (decoded_frame_cut (encoding_type (srv_traffic cfg)) MAX_FRAME_BUF_SIZE groups requests b q body polls k d) as [Hk ->];
    try done; [destruct (encoding_type _); vm_compute; congruence|]. split; [cbn; lia|done].
Qed.

(** The frames of the last body go up to the last frame. *)
Lemma last_frame `{Cu : FrameCipher} {L : FrameCipherLaws Cu} `{B : Base122} {BL : Base122Laws B} enc groups pre b body :
  bodies_from enc 0 groups (pre ++ [b]) -> b <> [] -> no_body_error body -> body_bytes body = b ->
  exists polls d, (zlen (concat groups) - 1, d) ∈ fst (collect polls (FrameDecoder_new body enc MAX_FRAME_BUF_SIZE)).
Proof.
  intros Hb Hne Hno Hbody.
  assert (Hlast : exists pre_groups g, groups = pre_groups ++ [g] /\ frames_from enc (zlen (concat pre_groups)) g b).
  { assert (Hgen : forall sq, bodies_from enc sq groups (pre ++ [b]) ->
      exists pre_groups g, groups = pre_groups ++ [g] /\ frames_from enc (sq + zlen (concat pre_groups)) g b).
    { clear -pre. revert groups. induction pre as [|p pre IH]; intros [|g0 groups] sq H; cbn [app bodies_from] in H; try done.
      - destruct H as [Hf H]. destruct groups as [|? ?]; [|done]. exists [], g0. split; [done|].
        change (zlen (concat [])) with 0. by rewrite Z.add_0_r.
      - destruct H as [Hf H]. destruct (IH groups _ H) as (pg & g & -> & Hg). exists (g0 :: pg), g. split; [done|].
        cbn [concat]. by rewrite zlen_app, Z.add_assoc. }
    destruct (Hgen 0 Hb) as (pg & g & ? & Hg). exists pg, g. split; [done|]. by rewrite Z.add_0_l in Hg. }
  destruct Hlast as (pg & g & -> & Hg). destruct g as [|d0 g] using rev_ind; [by cbn in Hg|]. clear IHg.
  assert (Ho : owes (FrameDecoder_new body enc MAX_FRAME_BUF_SIZE) (zlen (concat pg)) (g ++ [d0]) []).
  { split; [destruct enc; vm_compute; congruence|]. split; [done|]. split; [done|]. exists b. split; [exact Hg|]. split; [by left|].
    cbn. by rewrite app_nil_r. }
  exists (S (length body + length (g ++ [d0]))), d0. rewrite (collect_owed _ _ _ _ _ Ho) by (cbn; lia). cbn [fst].
  rewrite concat_app. cbn [concat]. rewrite app_nil_r, !zlen_app. change (zlen [d0]) with 1.
  apply list_elem_of_lookup. exists (length g). rewrite lookup_zip_with, list_lookup_middle by done.
  rewrite lookup_seqZ_lt by (unfold zlen; lia). cbn. do 2 f_equal. unfold zlen. lia.
Qed.

(** The frames a request's body decodes to. *)
Definition body_frame `{B : Base122} (Cu : FrameCipher) (cfg : ServerConfig) (rq : Request) (k : Z) (d : bytes) : Prop :=
  exists polls, (k, d) ∈ fst (collect (C := Cu) polls
    (FrameDecoder_new (rq_body rq) (encoding_type (srv_traffic cfg)) MAX_FRAME_BUF_SIZE)).

(** C9: what an upload's success means. In every run of a stream, whatever its
    requests, actors and timers do and however they interleave, the target has
    been sent a prefix of the sender's frames in order; and when a request that
    carried frames has been told they are uploaded, the target has been sent
    every frame up to any of those that its body decodes to. *)
Theorem uploaded_is_sent `{W : FrameSink} (WL : FrameSinkLaws W) `{B : Base122} Cu Cd jitter_table cfg ukey stream_id
    upstream_read f (up : sink) app body now evs w :
  intact up -> actors app !! stream_id = None -> honest_body Cu cfg f body -> Forall (honest_event Cu cfg f) evs ->
  stream_steps Cu Cd jitter_table cfg ukey stream_id upstream_read (stream_start cfg app up body now) evs w ->
  (exists n, sent_prefix (delivered up) (chunk f 0 n) (delivered (upstream (sw_upload w)))) /\
  forall n rq k d, sw_requests w !! n = Some rq -> rq_phase rq = RqDone AnsUploaded -> body_frame Cu cfg rq k d ->
    exists tail, delivered (upstream (sw_upload w)) = delivered up ++ chunk f 0 (k + 1) ++ tail.
Proof.
  intros Hint Ha Hb He Hs. destruct (stream_uploads WL Cu Cd jitter_table cfg ukey stream_id upstream_read f up app body now evs w Hint Ha Hb He Hs)
    as [Hsent Hacked].
  split; [exact Hsent|]. intros n rq k d Hn Hp [polls Hin]. exact (Hacked n rq polls k d Hn Hp Hin).
Qed.

(** C1: both directions of a tunnel, end to end. The client's upload loop posts
    bodies, of which the server receives what arrives, in any order, any number
    of times and cut anywhere; the two actors of the stream, their channels,
    replies and timers run in any interleaving, and requests to continue, to
    end or gone come at any moment. Then the target has been sent a prefix of
    the initial payload and the local socket's data; when the loop is finished
    and the request with its last batch was answered with success, it has been
    sent all of it; and, in the segmented mode, when the body being sent runs to the end
    of what the target sends, a client that receives the tunnel's bodies has written a
    prefix of that to the local socket, and all of it unless something fails. *)
Theorem duplex_end_to_end (Cu Cd : FrameCipher) (Lu : FrameCipherLaws Cu) (Ld : FrameCipherLaws Cd)
    `{B : Base122} (BL : Base122Laws B) `{W : FrameSink} (WL : FrameSinkLaws W) `{S : Socket} (SL : SocketLaws S)
    jitter_table config nonces draw payload max_bytes conc maxif rd now word envs drain
    jitter_table' cfg ukey stream_id target_rd up app now0 :
  validate config = Ok tt -> config_unsigned config ->
  (forall q, zlen (nonces q) = NONCE_LEN) -> draw_ok draw -> 0 <= max_bytes ->
  zlen (payload ++ input rd) < seq_max -> 1 <= conc -> 1 <= maxif -> Forall batch_env_ok envs ->
  validate (srv_traffic cfg) = Ok tt -> config_unsigned (srv_traffic cfg) ->
  encoding_type (srv_traffic cfg) = encoding_type config -> zlen (input target_rd) < u64_max ->
  intact up -> actors app !! stream_id = None ->
  exists early remaining n,
    encode_initial_payload (C := Cu) nonces draw payload max_bytes config = Some (Ok (early, remaining, n)) /\
    let '(r, loop) := upload_loop_run (C := Cu) jitter_table envs drain (UBatching [])
      (new_upload_loop conc maxif (resolve config) remaining rd n now word) in
    forall body evs w,
    client_body [early] body -> Forall (client_event (early :: posted loop)) evs -> Forall poll_ok evs ->
    stream_steps Cu Cd jitter_table' cfg ukey stream_id target_rd (stream_start cfg app up body now0) evs w ->
    let target := delivered (upstream (sw_upload w)) in
    sent_prefix (delivered up) (payload ++ input rd) target /\
    (forall pre b k rq, r = UNext UDone -> posted loop = pre ++ [b] -> b <> [] ->
       sw_requests w !! k = Some rq -> rq_phase rq = RqDone AnsUploaded ->
       no_body_error (rq_body rq) -> body_bytes (rq_body rq) = b -> target = delivered up ++ payload ++ input rd) /\
    (forall m t seg out env now' seg' act' s resp resps rotations,
       max_download_bytes (srv_traffic cfg) = Some m -> sw_tunnel w = Some t ->
       env_ok env -> live t = Some (seg, out) -> seg_ended seg = false -> cancelled (actor t) = false ->
       segment_poll (C := Cd) jitter_table' env now' seg (actor t) = (Ready None, seg', act') ->
       map dl_bytes (resp :: resps) = map fst (bodies t) ++ [out] -> Forall2 rotation_may rotations resps ->
       let '(r, this') := client_download (C := Cd) resp s (encoding_type config) (Some m) rotations in
       (exists tail, sent s ++ input target_rd = sent (write_half this') ++ tail) /\
       (progressing -> Forall no_read_error (resp :: resps) -> Forall2 rotation_gives rotations resps ->
          r = Some (Ok tt) /\ sent (write_half this') = sent s ++ input target_rd)).
Proof.
  intros Hv Hu Hn Hd Hm Hmax Hconc Hmaxif Henv Hv' Hu' Henc Hmax' Hint Ha.
  destruct (upload_requests (C := Cu) jitter_table config nonces draw payload max_bytes conc maxif rd now word envs drain
    Hv Hu Hn Hd Hm Hmax Hconc Hmaxif Henv) as (early & remaining & n & groups & rest & He & Hall & Hcount & Hrun).
  exists early, remaining, n. split; [exact He|].
  destruct (upload_loop_run _ envs drain _ _) as [r loop]. destruct Hrun as [Hbodies Hrest].
  intros body evs w Hbody Hevs Hpolls Hsteps. cbv zeta.
  rewrite <- Henc in Hbodies.
  assert (Hhonest : honest_body Cu cfg (frame_at (concat groups)) body).
  { eapply client_body_honest; [exact Hbodies|done|]. destruct Hbody as (b & q & ->%list_elem_of_singleton & Hq).
    exists early, q. split; [by left|done]. }
  assert (Hevh : Forall (honest_event Cu cfg (frame_at (concat groups))) evs).
  { eapply Forall_impl; [exact Hevs|]. intros []; try done. cbn. by apply client_body_honest. }
  destruct (stream_uploads WL Cu Cd jitter_table' cfg ukey stream_id target_rd (frame_at (concat groups)) up app body now0 evs w
    Hint Ha Hhonest Hevh Hsteps) as [[k Hpre] Hacked].
  split; [|split].
  - eapply sent_prefix_weaken; [exact Hpre|]. destruct (chunk_prefix_all (concat groups) k) as [tail Ht].
    exists (tail ++ rest). by rewrite Hall, Ht, app_assoc.
  - intros pre b j rq Hdone Hpost Hne Hj Hp Hno Hb. rewrite (Hrest Hdone), app_nil_r in Hall. rewrite Hpost in Hbodies.
    destruct (last_frame _ groups (early :: pre) b (rq_body rq) Hbodies Hne Hno Hb) as (polls & d & Hin).
    destruct (Hacked j rq polls _ d Hj Hp Hin) as [tail Ht].
    replace (zlen (concat groups) - 1 + 1) with (zlen (concat groups)) in Ht by lia. rewrite chunk_all, <- Hall in Ht.
    destruct (chunk_prefix_all (concat groups) k) as [tail' Ht']. rewrite <- Hall in Ht'.
    eapply sent_prefix_weaken in Hpre; [|by exists tail'; exact Ht'].
    by eapply sent_prefix_whole.
  - intros m t seg out env now' seg' act' s resp resps rotations Hm' Ht Hee Hl Hend Hcan Hpoll Hresp Hrot.
    destruct (stream_tunnel Cu Cd jitter_table' cfg ukey stream_id target_rd up app body now0 evs w m t Hpolls Hsteps Hm' Ht)
      as (now1 & word1 & Hs).
    destruct (tunnel_bodies_carry (C := Cd) jitter_table' (srv_traffic cfg) m target_rd now1 word1 t Hv' Hu' Hmax' Hs)
      as (gs & cur & rest' & Hcarry). rewrite Henc in Hcarry.
    pose proof (segmented_received (C := Cd) jitter_table' (encoding_type config) (input target_rd) m t gs cur rest' seg out env now' seg' act'
      s resp resps rotations Hcarry Hmax' Hee Hl Hend Hcan Hpoll Hresp Hrot) as Hdl.
    destruct (client_download _ _ _ _ _) as [r' this']. by destruct Hdl as (_ & _ & ? & ?).
Qed.

(** ** Witnesses *)

(** The two requests of the toy upload, the second in two pieces, a body of the
    tunnel that reaches the limit, the rotation to the next, and the replies. *)
Definition duplex_request : bytes := default [] (posted (snd toy_upload) !! 0%nat).
Definition duplex_events : list StreamEvent :=
  [SvRead 0; SvSend 0; SvRead 0; SvOpened 0 0 7;
   SvRequest 1 [Chunk (ztake 20 duplex_request); BodyPending; Chunk (zdrop 20 duplex_request)];
   SvRead 1; SvRead 1; SvBodyPoll (toy_env true) 3; SvUpload 1; SvSend 1; SvBodyDrop;
   SvTunnel EvSegmentDone (fun _ => false); SvRequest 2 []; SvRead 1; SvSend 1; SvRead 2; SvSend 2;
   SvCommand 4 (fun _ => false); SvUpload 2; SvUpload 2; SvReply 1].
Definition duplex_start : StreamWorld :=
  stream_start (W := mem_sink) limited_server limited_app (str ">") [Chunk (fst (fst toy_early))] 0.
Definition duplex_world : StreamWorld :=
  default duplex_start (stream_run (W := mem_sink) (aes_frame_cipher toy_aes) (aes_frame_cipher toy_aes) (fun _ => 5) limited_server []
    limited_stream limited_read duplex_events duplex_start).
Definition duplex_uploaded : Request :=
  default (mkRequest KOpen [] (FrameDecoder_new [] Json 0) 0 0 RqGone) (sw_requests duplex_world !! 1).

Lemma duplex_steps :
  stream_steps (W := mem_sink) (aes_frame_cipher toy_aes) (aes_frame_cipher toy_aes) (fun _ => 5) limited_server []
    limited_stream limited_read duplex_start duplex_events duplex_world.
Proof. apply stream_run_steps. vm_compute. reflexivity. Qed.

Lemma duplex_client_events : Forall (client_event toy_requests) duplex_events.
Proof.
  repeat (constructor; try exact I).
  - exists duplex_request, []. split; [apply (bool_decide_eq_true_1 _); vm_compute; reflexivity|vm_compute; reflexivity].
  - exists duplex_request, duplex_request. split; [apply (bool_decide_eq_true_1 _); vm_compute; reflexivity|vm_compute; reflexivity].
Qed.

Lemma duplex_polls : Forall poll_ok duplex_events.
Proof. repeat first [exact I | apply toy_env_ok | constructor]. Qed.

(** The frames of the toy upload. *)
Lemma duplex_groups : exists groups, bodies_from (C := aes_frame_cipher toy_aes) Json 0 groups toy_requests /\ zlen (concat groups) < seq_max.
Proof.
  destruct (upload_requests (L := aes_frame_cipher_laws toy_aes) (BL := toy_base122_laws) (fun _ => 5) toy_config
    (fun _ => toy_nonce) toy_draw (str "hello") 3 2 MIN_IN_FLIGHT_BYTES toy_reader 0 7 [toy_batch] [(O, JoinOk)])
    as (early & remaining & n & groups & rest & He & _ & Hcount & Hrun);
    [apply toy_config_ok|apply toy_config_ok|reflexivity|apply toy_draw_ok|lia|reflexivity|lia|vm_compute; congruence|
     apply toy_batch_ok|].
  change (upload_loop_run _ _ _ _ _) with (toy_loop_run remaining n) in Hrun.
  assert (Hreq : early :: posted (snd (toy_loop_run remaining n)) = toy_requests)
    by (unfold toy_requests, toy_upload, toy_early; rewrite He; reflexivity).
  destruct (toy_loop_run remaining n) as [r loop]. cbn [snd] in Hreq. rewrite Hreq in Hrun.
  exists groups. by destruct Hrun.
Qed.

Lemma uploaded_is_sent_witness :
  rq_phase duplex_uploaded = RqDone AnsUploaded /\
  exists f d tail,
    (1, d) ∈ fst (collect (C := aes_frame_cipher toy_aes) 9
      (FrameDecoder_new (rq_body duplex_uploaded) Json MAX_FRAME_BUF_SIZE)) /\
    str ">helloabc" = str ">" ++ chunk f 0 2 ++ tail.
Proof.
  split; [vm_compute; reflexivity|]. destruct duplex_groups as (groups & Hb & Hc).
  assert (Hh : forall body, client_body toy_requests body ->
    honest_body (aes_frame_cipher toy_aes) limited_server (frame_at (concat groups)) body).
  { intros body. apply (client_body_honest (L := aes_frame_cipher_laws toy_aes) (BL := toy_base122_laws) limited_server groups); [exact Hb|exact Hc]. }
  destruct (uploaded_is_sent (W := mem_sink) mem_sink_laws (aes_frame_cipher toy_aes) (aes_frame_cipher toy_aes) (fun _ => 5)
    limited_server [] limited_stream limited_read (frame_at (concat groups)) (str ">") limited_app [Chunk (fst (fst toy_early))] 0
    duplex_events duplex_world) as [_ H].
  - exact I.
  - vm_compute. reflexivity.
  - apply Hh. exists (fst (fst toy_early)), []. split; [by left|]. cbn. by rewrite !app_nil_r.
  - eapply Forall_impl; [exact duplex_client_events|]. intros []; try done. apply Hh.
  - exact duplex_steps.
  - exists (frame_at (concat groups)).
    assert (Hin : exists d, (1, d) ∈ fst (collect (C := aes_frame_cipher toy_aes) 9
      (FrameDecoder_new (rq_body duplex_uploaded) Json MAX_FRAME_BUF_SIZE))).
    { eexists. vm_compute. apply list_elem_of_here. }
    destruct Hin as [d Hin]. destruct (H 1 duplex_uploaded 1 d) as [tail Ht].
    + vm_compute. reflexivity.
    + vm_compute. reflexivity.
    + exists 9%nat. exact Hin.
    + exists d, tail. split; [exact Hin|]. change (delivered (upstream (sw_upload duplex_world))) with (upstream (sw_upload duplex_world)) in Ht.
      transitivity (upstream (sw_upload duplex_world)); [vm_compute; reflexivity|exact Ht].
Defined.

Definition duplex_tunnel : TunnelWorld := default te0 (sw_tunnel duplex_world).
Definition duplex_polled :=
  match live duplex_tunnel with
  | Some (seg, out) => segment_poll (C := aes_frame_cipher toy_aes) (fun _ => 5) (toy_env true) 5 seg (actor duplex_tunnel)
  | None => te_polled
  end.
Definition duplex_live : Segment * bytes := default (te_seg, []) (live duplex_tunnel).
Definition duplex_bodies : bytes := concat (map fst (bodies duplex_tunnel)).
Definition duplex_response : list DlEvent := [DlChunk (ztake 30 duplex_bodies); DlFlushTimer; DlChunk (zdrop 30 duplex_bodies)].

Lemma duplex_end_to_end_witness :
  upstream (sw_upload duplex_world) = str ">helloabc" /\
  let '(r, this') := client_download (C := aes_frame_cipher toy_aes) (S := eager_socket) duplex_response (str ">") Json (Some 10)
    [toy_rotation] in
  r = Some (Ok tt) /\ sent (write_half this') = str ">hello".
Proof.
  destruct (duplex_end_to_end (aes_frame_cipher toy_aes) (aes_frame_cipher toy_aes) (aes_frame_cipher_laws toy_aes)
    (aes_frame_cipher_laws toy_aes) toy_base122_laws (W := mem_sink) mem_sink_laws (S := eager_socket) eager_socket_laws
    (fun _ => 5) toy_config (fun _ => toy_nonce) toy_draw (str "hello") 3 2 MIN_IN_FLIGHT_BYTES toy_reader 0 7 [toy_batch]
    [(O, JoinOk)] (fun _ => 5) limited_server [] limited_stream limited_read (str ">") limited_app 0)
    as (early & remaining & n & He & Hrun);
    [apply toy_config_ok|apply toy_config_ok|reflexivity|apply toy_draw_ok|lia|reflexivity|lia|vm_compute; congruence|
     apply toy_batch_ok|apply toy_config_ok|apply toy_config_ok|reflexivity|reflexivity|exact I|vm_compute; reflexivity|].
  assert (Heq : toy_early = (early, remaining, n)) by (unfold toy_early; rewrite He; reflexivity).
  change (upload_loop_run _ _ _ _ _) with (toy_loop_run remaining n) in Hrun.
  assert (Hup : toy_loop_run remaining n = toy_upload) by (unfold toy_upload; rewrite Heq; reflexivity).
  rewrite Hup, (surjective_pairing toy_upload) in Hrun.
  destruct (Hrun [Chunk early] duplex_events duplex_world) as (_ & Hsent & Hdown).
  - exists early, []. split; [by left|]. cbn. by rewrite !app_nil_r.
  - replace (early :: posted (snd toy_upload)) with toy_requests; [exact duplex_client_events|].
    unfold toy_requests. by rewrite Heq.
  - exact duplex_polls.
  - replace early with (fst (fst toy_early)) by (rewrite Heq; reflexivity). exact duplex_steps.
  - split.
    + transitivity (str ">" ++ str "hello" ++ input toy_reader); [|reflexivity].
      apply (Hsent [] duplex_request 1 duplex_uploaded); vm_compute; first [reflexivity|congruence|repeat constructor].
    + pose proof (Hdown 10 duplex_tunnel (fst duplex_live) (snd duplex_live) (toy_env true) 5 (snd (fst duplex_polled))
        (snd duplex_polled) (str ">") duplex_response [[]] [toy_rotation]) as H.
      change (encoding_type toy_config) with Json in H.
      destruct (client_download _ _ _ _ _) as [r this'].
      destruct H as (_ & Hd).
      * reflexivity.
      * vm_compute. reflexivity.
      * apply toy_env_ok.
      * vm_compute. reflexivity.
      * vm_compute. reflexivity.
      * vm_compute. reflexivity.
      * vm_compute. reflexivity.
      * vm_compute. reflexivity.
      * constructor; [|constructor]. intros pf. left. apply toy_rotation_gives.
      * apply Hd; [apply eager_progressing|repeat constructor; discriminate|].
        constructor; [apply toy_rotation_gives|constructor].
Defined.
