(* ===== verification/H3.v ===== *)
(** * HTTP/3 framing for WARP

    [src/warp/h3.rs]: the variable-length integers and frame headers of HTTP/3,
    the prefixed integers and strings of QPACK, the request head the client
    sends, and the status it reads from a response head. *)

From S2P Require Import Prelude Text.

Definition FRAME_DATA : Z := 0x00.
Definition FRAME_HEADERS : Z := 0x01.
Definition FRAME_SETTINGS : Z := 0x04.
Definition STREAM_CONTROL : Z := 0x00.
Definition SETTINGS_QPACK_MAX_TABLE_CAPACITY : Z := 0x01.
Definition SETTINGS_MAX_FIELD_SECTION_SIZE : Z := 0x06.
Definition SETTINGS_QPACK_BLOCKED_STREAMS : Z := 0x07.
Definition INDEXED_STATIC : Z := 0xC0.
Definition STATIC_METHOD_CONNECT : Z := 15.
Definition STATIC_AUTHORITY : Z := 0.
Definition STATIC_STATUS_FIRST : Z := 24.
Definition STATIC_STATUS_VALUES : list Z := [103; 200; 204; 206; 304; 400; 404; 500].
Definition MAX_FIELD_SECTION : Z := 16 * 1024.

(** ** Variable-length integers *)

Definition varint_len (value : Z) : Z :=
  if value <? Z.shiftl 1 6 then 1
  else if value <? Z.shiftl 1 14 then 2
  else if value <? Z.shiftl 1 30 then 4
  else 8.

Definition put_varint (out : bytes) (value : Z) : bytes :=
  let len := varint_len value in
  if len =? 1 then out ++ be_bytes 1 (as_u8 value)
  else if len =? 2 then out ++ be_bytes 2 (Z.lor 0x4000 (as_u16 value))
  else if len =? 4 then out ++ be_bytes 4 (Z.lor 0x80000000 (as_u32 value))
  else out ++ be_bytes 8 (Z.lor 0xC000000000000000 value).

(** [out[..n].copy_from_slice(src)] for [n] the length of [src]. *)
Definition copy_front (out src : bytes) : Res string bytes :=
  if zlen src <=? zlen out then Ok (src ++ zdrop (zlen src) out) else Panic.

(** The slice after the call, and the length written. *)
Definition put_varint_slice (out : bytes) (value : Z) : Res string (bytes * Z) :=
  let len := varint_len value in
  let src :=
    if len =? 1 then be_bytes 1 (as_u8 value)
    else if len =? 2 then be_bytes 2 (Z.lor 0x4000 (as_u16 value))
    else if len =? 4 then be_bytes 4 (Z.lor 0x80000000 (as_u32 value))
    else be_bytes 8 (Z.lor 0xC000000000000000 value) in
  let? out := copy_front out src in
  Ok (out, if len =? 1 then 1 else if len =? 2 then 2 else if len =? 4 then 4 else 8).

(** The value of the low six bits of [first] followed by [tail]. *)
Definition varint_value (first : byte) (tail : bytes) : Z :=
  foldl (fun value b => Z.lor (as_u64 (Z.shiftl value 8)) (bz b)) (Z.land (bz first) 0x3F) tail.

Definition get_varint (buf : bytes) : option (Z * Z) :=
  match buf with
  | [] => None
  | first :: _ =>
      let prefix := Z.shiftr (bz first) 6 in
      let len := Z.shiftl 1 prefix in
      if zlen buf <? len then None else Some (varint_value first (slice 1 len buf), len)
  end.

Definition get_frame_header (buf : bytes) : option (Z * Z * Z) :=
  '(ty, n) ← get_varint buf;
  '(len, m) ← get_varint (zdrop n buf);
  Some (ty, len, n + m).

(** ** Prefixed integers and strings *)

Definition prefix_mask (prefix_bits : Z) : Z := as_u16 (Z.shiftl 1 prefix_bits) - 1.

(** The [while value >= 128] loop and the byte after it; a 64-bit value takes
    at most ten rounds. *)
Fixpoint put_int_loop (fuel : nat) (out : bytes) (value : Z) : bytes :=
  match fuel with
  | O => out
  | S fuel =>
      if 128 <=? value
      then put_int_loop fuel (out ++ [zb (Z.lor (Z.land (as_u8 value) 0x7F) 0x80)]) (Z.shiftr value 7)
      else out ++ [zb (as_u8 value)]
  end.

Definition put_int (out : bytes) (first prefix_bits value : Z) : bytes :=
  let mask := prefix_mask prefix_bits in
  if value <? mask then out ++ [zb (Z.lor first (as_u8 value))]
  else put_int_loop 10 (out ++ [zb (Z.lor first (as_u8 mask))]) (value - mask).

(** The loop over the bytes after the first; [rest] is [buf[idx..]]. *)
Fixpoint get_int_loop (rest : bytes) (value shift idx : Z) : option (Z * Z) :=
  match rest with
  | [] => None
  | b :: rest =>
      let sum := value + as_u64 (Z.shiftl (Z.land (bz b) 0x7F) shift) in
      if u64_max <=? sum then None
      else
        let idx := idx + 1 in
        if Z.land (bz b) 0x80 =? 0 then Some (sum, idx)
        else
          let shift := shift + 7 in
          if 56 <? shift then None else get_int_loop rest sum shift idx
  end.

Definition get_int (buf : bytes) (prefix_bits : Z) : option (Z * Z) :=
  match buf with
  | [] => None
  | first :: rest =>
      let mask := as_u8 (prefix_mask prefix_bits) in
      let value := Z.land (bz first) mask in
      if value <? mask then Some (value, 1) else get_int_loop rest value 0 1
  end.

Definition put_string (out value : bytes) : bytes :=
  put_int out 0 7 (zlen value) ++ value.

(** The string, the length used, and whether it is Huffman-coded. *)
Definition get_string (buf : bytes) : option (bytes * Z * bool) :=
  match buf with
  | [] => None
  | first :: _ =>
      let huffman := negb (Z.land (bz first) 0x80 =? 0) in
      '(len, used) ← get_int buf 7;
      end_ ← checked_add64 used len;
      s ← get_slice used end_ buf;
      Some (s, end_, huffman)
  end.

(** ** What the client sends *)

Definition control_stream_bytes : bytes :=
  let settings := put_varint [] SETTINGS_QPACK_MAX_TABLE_CAPACITY in
  let settings := put_varint settings 0 in
  let settings := put_varint settings SETTINGS_QPACK_BLOCKED_STREAMS in
  let settings := put_varint settings 0 in
  let settings := put_varint settings SETTINGS_MAX_FIELD_SECTION_SIZE in
  let settings := put_varint settings MAX_FIELD_SECTION in
  let out := put_varint [] STREAM_CONTROL in
  let out := put_varint out FRAME_SETTINGS in
  put_varint out (zlen settings) ++ settings.

Definition encode_connect_headers (authority : bytes) : bytes :=
  let out := [Byte.x00; Byte.x00; zb (Z.lor INDEXED_STATIC STATIC_METHOD_CONNECT)] in
  let out := put_int out 0x50 4 STATIC_AUTHORITY in
  put_string out authority.

(** ** The response's status *)

Definition static_status (index : Z) : option Z :=
  if index <? STATIC_STATUS_FIRST then None
  else STATIC_STATUS_VALUES !! Z.to_nat (index - STATIC_STATUS_FIRST).

Definition parse_status_code (value : bytes) : Res string Z :=
  if negb (zlen value =? 3) || negb (forallb is_digit value) then Err "malformed :status value"
  else
    let code := foldl (fun code b => as_u16 (code * 10 + (bz b - 48))) 0 value in
    if (100 <=? code) && (code <? 600) then Ok code else Err ":status out of range".

(** [&block[offset..]]. *)
Definition block_from (offset : Z) (block : bytes) : Res string bytes :=
  if offset <=? zlen block then Ok (zdrop offset block) else Panic.

Fixpoint status_loop (fuel : nat) (block : bytes) (offset : Z) : option (Res string Z) :=
  match fuel with
  | O => None
  | S fuel =>
      match znth block offset with
      | None => Some (Err ":status not found in response")
      | Some first_byte =>
          let first := bz first_byte in
          let rest := zdrop offset block in
          if negb (Z.land first 0x80 =? 0) then
            match get_int rest 6 with
            | None => Some (Err "truncated indexed field")
            | Some (index, used) =>
                let offset := offset + used in
                if Z.land first 0x40 =? 0 then Some (Err "dynamic table reference")
                else match static_status index with
                     | Some code => Some (Ok code)
                     | None => status_loop fuel block offset
                     end
            end
          else if negb (Z.land first 0x40 =? 0) then
            let is_static := negb (Z.land first 0x10 =? 0) in
            match get_int rest 4 with
            | None => Some (Err "truncated field name")
            | Some (name_index, used) =>
                let offset := offset + used in
                match block_from offset block with
                | Ok rest =>
                    match get_string rest with
                    | None => Some (Err "truncated field value")
                    | Some (value, used, huffman) =>
                        let offset := offset + used in
                        if is_static && bool_decide (is_Some (static_status name_index)) then
                          if huffman : bool then Some (Err "huffman-coded :status")
                          else Some (parse_status_code value)
                        else status_loop fuel block offset
                    end
                | _ => Some Panic
                end
            end
          else if negb (Z.land first 0x20 =? 0) then
            let name_huffman := negb (Z.land first 0x08 =? 0) in
            match get_int rest 3 with
            | None => Some (Err "truncated literal field name")
            | Some (name_len, used) =>
                let name_start := offset + used in
                match checked_add64 name_start name_len with
                | None => Some (Err "literal field name overflow")
                | Some name_end =>
                    match get_slice name_start name_end block with
                    | None => Some (Err "truncated literal field name")
                    | Some name =>
                        match block_from name_end block with
                        | Ok rest =>
                            match get_string rest with
                            | None => Some (Err "truncated literal field value")
                            | Some (value, used, value_huffman) =>
                                let offset := name_end + used in
                                if negb name_huffman && bool_decide (name = str ":status") then
                                  if value_huffman : bool then Some (Err "huffman-coded :status")
                                  else Some (parse_status_code value)
                                else status_loop fuel block offset
                            end
                        | _ => Some Panic
                        end
                    end
                end
            end
          else Some (Err "post-base index")
      end
  end.

Definition decode_status (block : bytes) : option (Res string Z) :=
  match get_int block 8 with
  | None => Some (Err "truncated field section prefix")
  | Some (insert_count, offset) =>
      if negb (insert_count =? 0) then Some (Err "peer referenced the QPACK dynamic table")
      else
        match block_from offset block with
        | Ok rest =>
            match get_int rest 7 with
            | None => Some (Err "truncated delta base")
            | Some (_, used) => status_loop (S (length block)) block (offset + used)
            end
        | _ => Some Panic
        end
  end.

(** ** Lemmas *)

(** *** Variable-length integers *)

Lemma varint_value_be first tail :
  zlen tail <= 7 -> varint_value first tail = (bz first mod 64) * 256 ^ zlen tail + be_val tail.
Proof.
  intros Hl. unfold varint_value. change 0x3F with (Z.ones 6).
  rewrite Z.land_ones by lia. change (2 ^ 6) with 64.
  pose proof (Z.mod_pos_bound (bz first) 64 ltac:(lia)). rewrite <- be_val_acc.
  set (a := bz first mod 64) in *. assert (Ha : 0 <= a < 256 ^ (8 - zlen tail)).
  { split; [lia|]. apply Z.lt_le_trans with (256 ^ 1); [lia|]. apply Z.pow_le_mono_r; lia. }
  clearbody a. clear H. revert a Ha. induction tail as [|b tail IH]; intros a Ha; [done|]. cbn [foldl].
  rewrite zlen_cons in *. pose proof (zlen_nonneg tail). pose proof (bz_range b).
  assert (Hle : 256 ^ (8 - (1 + zlen tail)) <= 2 ^ 56) by (change (2 ^ 56) with (256 ^ 7); apply Z.pow_le_mono_r; lia).
  rewrite Z.shiftl_mul_pow2, as_u64_small by (unfold u64_max; lia).
  rewrite (lor_add 8) by (try apply Z.mod_mul; change (2 ^ 8) with 256; lia). change (2 ^ 8) with 256. apply IH; [lia|].
  split; [lia|]. replace (8 - zlen tail) with (Z.succ (8 - (1 + zlen tail))) by lia. rewrite Z.pow_succ_r by lia. lia.
Qed.

Lemma get_varint_be k n v rest :
  0 <= k < 4 -> Z.of_nat (S n) = 2 ^ k -> 0 <= v < 2 ^ (8 * Z.of_nat (S n) - 2) ->
  get_varint (be_bytes (S n) (k * 2 ^ (8 * Z.of_nat (S n) - 2) + v) ++ rest) = Some (v, Z.of_nat (S n)).
Proof.
  intros Hk Hn Hv. assert (Hn8 : Z.of_nat (S n) <= 8)
    by (rewrite Hn; change 8 with (2 ^ 3); apply Z.pow_le_mono_r; lia).
  replace (8 * Z.of_nat (S n) - 2) with (6 + 8 * Z.of_nat n) in * by lia.
  rewrite Z.pow_add_r in * by lia. rewrite (Z.pow_mul_r 2 8) in * by lia. change (2 ^ 8) with 256 in *. change (2 ^ 6) with 64 in *.
  set (m := 256 ^ Z.of_nat n) in *. set (x := k * _ + v). assert (Hm : 0 < m) by (apply Z.pow_pos_nonneg; lia).
  assert (Hq : 0 <= v / m < 64) by (split; [apply Z.div_pos; lia|apply Z.div_lt_upper_bound; lia]).
  assert (Hx : x / m = k * 64 + v / m) by (unfold x; replace (k * (64 * m)) with (k * 64 * m) by lia; rewrite Z.div_add_l by lia; done).
  cbn [be_bytes app]. fold m. rewrite Hx. unfold get_varint.
  assert (Hb : bz (zb (k * 64 + v / m)) = k * 64 + v / m) by (rewrite bz_zb; apply Z.mod_small; lia).
  rewrite Hb, Z.shiftr_div_pow2 by lia. change (2 ^ 6) with 64. rewrite Z.div_add_l, (Z.div_small (v / m)), Z.add_0_r by lia.
  rewrite Z.shiftl_1_l, <- Hn. destruct (Z.ltb_spec (zlen (zb (k * 64 + v / m) :: be_bytes n x ++ rest)) (Z.of_nat (S n))).
  { rewrite zlen_cons, zlen_app, zlen_be_bytes in *. pose proof (zlen_nonneg rest). lia. }
  replace (slice 1 (Z.of_nat (S n)) (zb (k * 64 + v / m) :: be_bytes n x ++ rest)) with (be_bytes n x).
  2:{ unfold slice. change (zdrop 1 (_ :: be_bytes n x ++ rest)) with (be_bytes n x ++ rest). rewrite ztake_app_exact; [done|]. rewrite zlen_be_bytes. lia. }
  rewrite varint_value_be by (rewrite zlen_be_bytes; lia). rewrite Hb, zlen_be_bytes, be_val_be_bytes. fold m.
  replace ((k * 64 + v / m) mod 64) with (v / m) by (rewrite Z.add_comm, Z.mod_add, Z.mod_small by lia; done).
  replace (x mod m) with (v mod m) by (unfold x; replace (k * (64 * m)) with (k * 64 * m) by lia; rewrite Z.add_comm, Z.mod_add by lia; done).
  f_equal. f_equal. pose proof (Z.div_mod v m). lia.
Qed.

(** The bytes [put_varint] appends. *)
Definition varint (value : Z) : bytes := put_varint [] value.

Lemma varint_bytes v : 0 <= v < 2 ^ 62 -> exists k n,
  0 <= k < 4 /\ Z.of_nat (S n) = 2 ^ k /\ 0 <= v < 2 ^ (8 * Z.of_nat (S n) - 2) /\ varint_len v = Z.of_nat (S n) /\
  varint v = be_bytes (S n) (k * 2 ^ (8 * Z.of_nat (S n) - 2) + v).
Proof.
  intros Hv. unfold varint, put_varint, varint_len.
  change (Z.shiftl 1 6) with (2 ^ 6). change (Z.shiftl 1 14) with (2 ^ 14). change (Z.shiftl 1 30) with (2 ^ 30).
  destruct (Z.ltb_spec v (2 ^ 6)); [|destruct (Z.ltb_spec v (2 ^ 14)); [|destruct (Z.ltb_spec v (2 ^ 30))]]; cbn [Z.eqb Pos.eqb app].
  - exists 0, O. do 4 (split; [done || lia|]). f_equal. unfold as_u8, u8_max. rewrite Z.mod_small; lia.
  - exists 1, 1%nat. do 4 (split; [done || lia|]). f_equal. rewrite as_u16_small by (unfold u16_max; lia). by rewrite (lor_add 14) by (done || lia).
  - exists 2, 3%nat. do 4 (split; [done || lia|]). f_equal. unfold as_u32, u32_max. rewrite Z.mod_small by lia.
    by rewrite (lor_add 30) by (done || lia).
  - exists 3, 7%nat. do 4 (split; [done || lia|]). f_equal. by rewrite (lor_add 62) by (done || lia).
Qed.

Lemma get_varint_varint v rest : 0 <= v < 2 ^ 62 -> get_varint (varint v ++ rest) = Some (v, varint_len v).
Proof.
  intros Hv. destruct (varint_bytes v Hv) as (k & n & Hk & Hn & Hb & -> & ->). by apply get_varint_be.
Qed.

Lemma zlen_varint v : zlen (varint v) = varint_len v.
Proof.
  unfold varint, put_varint, varint_len. repeat destruct (_ <? _); cbn [Z.eqb Pos.eqb app]; apply zlen_be_bytes.
Qed.

Lemma varint_len_bound v : 1 <= varint_len v <= 8.
Proof. unfold varint_len. repeat destruct (_ <? _); lia. Qed.

Lemma put_varint_app out v : put_varint out v = out ++ varint v.
Proof. unfold varint, put_varint. repeat destruct (_ =? _); done. Qed.

Lemma put_varint_slice_ok out v :
  varint_len v <= zlen out -> put_varint_slice out v = Ok (varint v ++ zdrop (varint_len v) out, varint_len v).
Proof.
  intros Hl. assert (Heq : put_varint_slice out v = (let? o := copy_front out (varint v) in Ok (o, varint_len v))).
  { unfold put_varint_slice, varint, put_varint, varint_len. repeat destruct (_ <? _); done. }
  rewrite Heq. unfold copy_front. rewrite zlen_varint. by destruct (Z.leb_spec (varint_len v) (zlen out)); [|lia].
Qed.

Lemma get_frame_header_varint ty v rest : 0 <= ty < 2 ^ 62 -> 0 <= v < 2 ^ 62 ->
  get_frame_header (varint ty ++ varint v ++ rest) = Some (ty, v, varint_len ty + varint_len v).
Proof.
  intros Hty Hv. unfold get_frame_header. rewrite get_varint_varint by done. cbn [mbind option_bind].
  rewrite zdrop_app_exact by (by rewrite zlen_varint). rewrite get_varint_varint by done. done.
Qed.

(** *** Prefixed integers *)

(** A property of the integers below [n], checked one by one. *)
Lemma below (P : Z -> bool) n w : forallb P (seqZ 0 n) = true -> 0 <= w < n -> P w = true.
Proof.
  intros H Hw. rewrite forallb_forall in H. apply H, list_elem_of_In, elem_of_seqZ. lia.
Qed.

Lemma put_int_loop_app fuel out v : put_int_loop fuel out v = out ++ put_int_loop fuel [] v.
Proof.
  revert out v. induction fuel as [|fuel IH]; intros out v; cbn [put_int_loop]; [by rewrite app_nil_r|].
  destruct (128 <=? v); [|done]. rewrite IH, (IH ([] ++ _)). by rewrite <- app_assoc.
Qed.

Lemma group_byte v : 0 <= v -> zb (Z.lor (Z.land (as_u8 v) 0x7F) 0x80) = zb (v mod 128 + 128).
Proof.
  intros Hv. f_equal. change 0x7F with (Z.ones 7). rewrite Z.land_ones by lia. change (2 ^ 7) with 128.
  unfold as_u8, u8_max. replace ((v mod 2 ^ 8) mod 128) with (v mod 128).
  2:{ change (2 ^ 8) with (128 * 2). rewrite Z.rem_mul_r by lia.
      rewrite (Z.mul_comm 128), Z.mod_add, Z.mod_mod by lia. done. }
  pose proof (Z.mod_pos_bound v 128 ltac:(lia)). rewrite Z.lor_comm, (lor_add 7) by (done || lia). lia.
Qed.

Lemma get_int_loop_put fuel : forall v acc k idx rest,
  0 <= k <= 8 -> 0 <= v < 2 ^ (63 - 7 * k) -> v < 128 ^ Z.of_nat fuel -> (0 < fuel)%nat ->
  0 <= acc -> acc + v * 2 ^ (7 * k) < u64_max ->
  get_int_loop (put_int_loop fuel [] v ++ rest) acc (7 * k) idx
    = Some (acc + v * 2 ^ (7 * k), idx + zlen (put_int_loop fuel [] v)).
Proof.
  induction fuel as [|fuel IH]; intros v acc k idx rest Hk Hv Hf Hpos Hacc Hsum; [lia|]. cbn [put_int_loop app].
  assert (Hp : 0 < 2 ^ (7 * k)) by (apply Z.pow_pos_nonneg; lia).
  destruct (Z.leb_spec 128 v) as [Hge|Hlt].
  - rewrite put_int_loop_app, group_byte by lia. cbn [app get_int_loop].
    pose proof (Z.mod_pos_bound v 128 ltac:(lia)) as Hm. pose proof (Z.div_mod v 128 ltac:(lia)) as Hd.
    assert (Hb : bz (zb (v mod 128 + 128)) = v mod 128 + 128) by (rewrite bz_zb; apply Z.mod_small; lia).
    rewrite Hb. pose proof (below (fun w => (Z.land (w + 128) 0x7F =? w) && negb (Z.land (w + 128) 0x80 =? 0)) 128 (v mod 128)
      ltac:(vm_compute; reflexivity) Hm) as Hbits. apply andb_true_iff in Hbits as [H1 H2]. apply Z.eqb_eq in H1.
    rewrite H1. destruct (Z.land (v mod 128 + 128) 0x80 =? 0); [done|].
    rewrite Z.shiftl_mul_pow2, as_u64_small by (unfold u64_max in *; nia).
    assert (Hk8 : k < 8).
    { destruct (decide (k = 8)) as [->|]; [|lia]. change (2 ^ (63 - 7 * 8)) with 128 in Hv. lia. }
    rewrite Z.shiftr_div_pow2 by lia. change (2 ^ 7) with 128.
    assert (H7 : 2 ^ (7 * (k + 1)) = 128 * 2 ^ (7 * k)).
    { replace (7 * (k + 1)) with (7 + 7 * k) by lia. by rewrite Z.pow_add_r by lia. }
    assert (Heq : acc + v * 2 ^ (7 * k) = (acc + v mod 128 * 2 ^ (7 * k)) + v / 128 * 2 ^ (7 * (k + 1))) by (rewrite H7; nia).
    assert (0 <= v / 128) by (apply Z.div_pos; lia).
    destruct (Z.leb_spec u64_max (acc + v mod 128 * 2 ^ (7 * k))); [nia|].
    replace (7 * k + 7) with (7 * (k + 1)) by lia. destruct (Z.ltb_spec 56 (7 * (k + 1))); [lia|].
    destruct fuel as [|fuel]; [change (128 ^ Z.of_nat 1) with 128 in Hf; lia|]. rewrite IH.
    + f_equal. f_equal; [lia|]. rewrite zlen_cons. lia.
    + lia.
    + split; [done|]. apply Z.div_lt_upper_bound; [lia|]. change 128 with (2 ^ 7). rewrite <- Z.pow_add_r by lia.
      replace (7 + (63 - 7 * (k + 1))) with (63 - 7 * k) by lia. lia.
    + apply Z.div_lt_upper_bound; [lia|]. rewrite Nat2Z.inj_succ, Z.pow_succ_r in Hf by lia. lia.
    + lia.
    + nia.
    + lia.
  - cbn [app get_int_loop]. assert (Hb : bz (zb (as_u8 v)) = v).
    { rewrite bz_zb. unfold as_u8, u8_max. rewrite (Z.mod_small v) by lia. apply Z.mod_small. lia. }
    rewrite Hb. pose proof (below (fun w => (Z.land w 0x7F =? w) && (Z.land w 0x80 =? 0)) 128 v
      ltac:(vm_compute; reflexivity) ltac:(lia)) as Hbits. apply andb_true_iff in Hbits as [H1 H2]. apply Z.eqb_eq in H1.
    rewrite H1, H2, Z.shiftl_mul_pow2, as_u64_small by (unfold u64_max in *; nia).
    destruct (Z.leb_spec u64_max (acc + v * 2 ^ (7 * k))); [lia|]. done.
Qed.

(** The bytes [put_int] appends: a first byte that keeps the bits above the
    prefix, and a tail. *)
Lemma put_int_shape first p v :
  1 <= p <= 8 -> 0 <= first < 256 -> first mod 2 ^ p = 0 -> 0 <= v ->
  exists w tail, put_int [] first p v = zb (first + w) :: tail /\ 0 <= w < 2 ^ p /\ first + w < 256 /\
    ((tail = [] /\ w = v /\ w < 2 ^ p - 1) \/
     (tail = put_int_loop 10 [] (v - (2 ^ p - 1)) /\ w = 2 ^ p - 1 /\ 2 ^ p - 1 <= v)).
Proof.
  intros Hp Hf Hz Hv. assert (Hp8 : 2 ^ p <= 2 ^ 8) by (apply Z.pow_le_mono_r; lia). change (2 ^ 8) with 256 in Hp8.
  assert (Hp1 : 2 ^ 1 <= 2 ^ p) by (apply Z.pow_le_mono_r; lia).
  assert (Hm : prefix_mask p = 2 ^ p - 1).
  { unfold prefix_mask. rewrite Z.shiftl_1_l, as_u16_small; [done|]. unfold u16_max. lia. }
  assert (Hsum : forall w, 0 <= w < 2 ^ p -> first + w < 256).
  { intros w Hw. apply Z.div_exact in Hz; [|lia].
    assert (H256 : 256 = 2 ^ p * 2 ^ (8 - p)) by (rewrite <- Z.pow_add_r by lia; by replace (p + (8 - p)) with 8 by lia).
    clear -Hz Hf Hw H256. set (q := first / 2 ^ p) in *. clearbody q. set (c := 2 ^ (8 - p)) in *. clearbody c.
    set (d := 2 ^ p) in *. clearbody d. assert (q < c) by nia. nia. }
  unfold put_int. rewrite Hm. destruct (Z.ltb_spec v (2 ^ p - 1)).
  - exists v, []. assert (Hu : as_u8 v = v) by (unfold as_u8, u8_max; apply Z.mod_small; lia).
    rewrite Hu, (lor_add p) by lia. split; [done|]. split; [lia|]. split; [apply Hsum; lia|]. left. split; [done|]. lia.
  - exists (2 ^ p - 1), (put_int_loop 10 [] (v - (2 ^ p - 1))).
    assert (Hu : as_u8 (2 ^ p - 1) = 2 ^ p - 1) by (unfold as_u8, u8_max; apply Z.mod_small; lia).
    rewrite Hu, (lor_add p), put_int_loop_app by lia. split; [done|]. split; [lia|]. split; [apply Hsum; lia|]. right. done.
Qed.

Lemma put_int_loop_short fuel v : zlen (put_int_loop fuel [] v) <= Z.of_nat fuel.
Proof.
  revert v. induction fuel as [|fuel IH]; intros v; [done|]. cbn [put_int_loop app]. destruct (128 <=? v).
  - rewrite put_int_loop_app, zlen_app. change (zlen [_]) with 1. specialize (IH (Z.shiftr v 7)). lia.
  - change (zlen [_]) with 1. lia.
Qed.

Lemma put_int_short first p v :
  1 <= p <= 8 -> 0 <= first < 256 -> first mod 2 ^ p = 0 -> 0 <= v -> zlen (put_int [] first p v) <= 11.
Proof.
  intros Hp Hf Hz Hv. destruct (put_int_shape first p v Hp Hf Hz Hv) as (w & tail & -> & _ & _ & Hc). rewrite zlen_cons.
  destruct Hc as [(-> & _)|(-> & _)]; [by vm_compute|]. pose proof (put_int_loop_short 10 (v - (2 ^ p - 1))). lia.
Qed.

Lemma get_int_put_int first p v rest :
  1 <= p <= 8 -> 0 <= first < 256 -> first mod 2 ^ p = 0 -> 0 <= v < 2 ^ 63 ->
  get_int (put_int [] first p v ++ rest) p = Some (v, zlen (put_int [] first p v)).
Proof.
  intros Hp Hf Hz Hv. destruct (put_int_shape first p v Hp Hf Hz ltac:(lia)) as (w & tail & -> & Hw & Hb & Hcase).
  assert (Hp8 : 2 ^ p <= 2 ^ 8) by (apply Z.pow_le_mono_r; lia). change (2 ^ 8) with 256 in Hp8.
  assert (Hp1 : 2 ^ 1 <= 2 ^ p) by (apply Z.pow_le_mono_r; lia).
  assert (Hm : as_u8 (prefix_mask p) = 2 ^ p - 1).
  { unfold prefix_mask. rewrite Z.shiftl_1_l, as_u16_small by (unfold u16_max; lia). apply Z.mod_small. unfold u8_max. lia. }
  cbn [app get_int]. rewrite Hm. replace (bz (zb (first + w))) with (first + w) by (rewrite bz_zb, Z.mod_small; lia).
  rewrite land_low by lia. destruct Hcase as [(-> & -> & Hlt)|(-> & -> & Hge)].
  - destruct (Z.ltb_spec v (2 ^ p - 1)); [done|lia].
  - destruct (Z.ltb_spec (2 ^ p - 1) (2 ^ p - 1)); [lia|].
    change (get_int_loop ?l ?a 0 1) with (get_int_loop l a (7 * 0) 1).
    rewrite get_int_loop_put.
    + f_equal. f_equal; [lia|]. rewrite zlen_cons. lia.
    + lia.
    + change (63 - 7 * 0) with 63. lia.
    + apply Z.lt_le_trans with (2 ^ 63); [lia|]. vm_compute. congruence.
    + lia.
    + lia.
    + change (2 ^ (7 * 0)) with 1. unfold u64_max. lia.
Qed.

Lemma get_int_loop_bound rest acc shift idx v used :
  0 <= acc -> get_int_loop rest acc shift idx = Some (v, used) -> idx + 1 <= used <= idx + zlen rest /\ 0 <= v < u64_max.
Proof.
  revert acc shift idx. induction rest as [|b rest IH]; intros acc shift idx Ha H; [done|]. cbn [get_int_loop] in H.
  rewrite zlen_cons. pose proof (zlen_nonneg rest).
  pose proof (Z.mod_pos_bound (Z.shiftl (Z.land (bz b) 0x7F) shift) u64_max ltac:(done)) as Hs. fold (as_u64 (Z.shiftl (Z.land (bz b) 0x7F) shift)) in Hs.
  destruct (Z.leb_spec u64_max (acc + as_u64 (Z.shiftl (Z.land (bz b) 0x7F) shift))); [done|].
  destruct (Z.land (bz b) 0x80 =? 0); [injection H as <- <-; lia|]. destruct (56 <? shift + 7); [done|].
  apply IH in H; lia.
Qed.

Lemma get_int_bound buf p v used :
  get_int buf p = Some (v, used) -> 1 <= used <= zlen buf /\ 0 <= v < u64_max.
Proof.
  unfold get_int. destruct buf as [|first rest]; [done|]. rewrite zlen_cons. pose proof (zlen_nonneg rest).
  pose proof (bz_range first). set (mask := as_u8 (prefix_mask p)).
  assert (Hm : 0 <= mask < 256) by (apply Z.mod_pos_bound; done).
  assert (Hv : 0 <= Z.land (bz first) mask < 2 ^ 8).
  { assert (0 <= Z.land (bz first) mask) by (apply Z.land_nonneg; lia). split; [done|].
    destruct (decide (Z.land (bz first) mask = 0)) as [->|]; [lia|]. apply Z.log2_lt_pow2; [lia|].
    pose proof (Z.log2_land (bz first) mask ltac:(lia) ltac:(lia)).
    assert (Z.log2 mask < 8); [|lia]. destruct (decide (mask = 0)) as [->|]; [done|]. apply Z.log2_lt_pow2; lia. }
  destruct (Z.land (bz first) mask <? mask).
  - intros [= <- <-]. unfold u64_max. lia.
  - intros H1. apply get_int_loop_bound in H1; lia.
Qed.

Lemma get_string_bound buf s used h : get_string buf = Some (s, used, h) -> 1 <= used <= zlen buf.
Proof.
  unfold get_string. destruct buf as [|first rest]; [done|]. intros H.
  apply bind_Some in H as ([len u] & Hi & H). apply bind_Some in H as (e & Hc & H).
  apply bind_Some in H as (s' & Hg & [= <- <- <-]). apply get_int_bound in Hi. apply get_slice_Some in Hg. lia.
Qed.

Definition status_ok (r : Res string Z) : Prop := r <> Panic /\ forall code, r = Ok code -> 100 <= code < 600.

Lemma status_err m : status_ok (Err m).
Proof. by split. Qed.

Lemma parse_status_code_ok value : status_ok (parse_status_code value).
Proof.
  unfold parse_status_code. destruct (_ || _); [apply status_err|].
  destruct (Z.leb_spec 100 (foldl (fun code b => as_u16 (code * 10 + (bz b - 48))) 0 value)),
    (Z.ltb_spec (foldl (fun code b => as_u16 (code * 10 + (bz b - 48))) 0 value) 600); cbn; try apply status_err.
  split; [done|]. intros code [= <-]. lia.
Qed.

Lemma static_status_ok i code : static_status i = Some code -> 100 <= code < 600.
Proof.
  unfold static_status. destruct (i <? STATIC_STATUS_FIRST); [done|]. intros H%list_elem_of_lookup_2.
  revert code H. apply Forall_forall. repeat constructor; lia.
Qed.

Lemma block_from_ok offset block : offset <= zlen block -> block_from offset block = Ok (zdrop offset block).
Proof. intros. unfold block_from. by destruct (Z.leb_spec offset (zlen block)); [|lia]. Qed.

Lemma status_loop_ok fuel block offset :
  0 <= offset -> offset <= zlen block -> zlen block - offset < Z.of_nat fuel ->
  exists r, status_loop fuel block offset = Some r /\ status_ok r.
Proof.
  revert offset. induction fuel as [|fuel IH]; intros offset H0 Hle Hf; [lia|]. cbn [status_loop].
  destruct (znth block offset) as [fb|] eqn:Hfb; [|eauto using status_err].
  assert (Hrest : zlen (zdrop offset block) = zlen block - offset) by (rewrite zlen_zdrop; lia).
  destruct (negb (Z.land (bz fb) 0x80 =? 0)).
  { destruct (get_int (zdrop offset block) 6) as [[index used]|] eqn:Hi; [|eauto using status_err].
    apply get_int_bound in Hi as [Hu _]. destruct (_ =? 0); [eauto using status_err|].
    destruct (static_status index) eqn:Hs; [|apply IH; lia]. eexists. split; [done|]. split; [done|].
    intros code [= <-]. by eapply static_status_ok. }
  destruct (negb (Z.land (bz fb) 0x40 =? 0)).
  { destruct (get_int (zdrop offset block) 4) as [[index used]|] eqn:Hi; [|eauto using status_err].
    apply get_int_bound in Hi as [Hu _]. rewrite block_from_ok by lia.
    destruct (get_string _) as [[[value used'] huffman]|] eqn:Hs; [|eauto using status_err].
    apply get_string_bound in Hs. rewrite zlen_zdrop in Hs. destruct (_ && _); [|apply IH; lia].
    destruct huffman; eauto using status_err, parse_status_code_ok. }
  destruct (negb (Z.land (bz fb) 0x20 =? 0)); [|eauto using status_err].
  destruct (get_int (zdrop offset block) 3) as [[len used]|] eqn:Hi; [|eauto using status_err].
  apply get_int_bound in Hi as [Hu _]. destruct (checked_add64 _ _) as [e|] eqn:Hc; [|eauto using status_err].
  apply checked_add64_eq in Hc. destruct (get_slice _ e block) as [name|] eqn:Hg; [|eauto using status_err].
  apply get_slice_Some in Hg. rewrite block_from_ok by lia.
  destruct (get_string _) as [[[value used'] huffman]|] eqn:Hs; [|eauto using status_err].
  apply get_string_bound in Hs. rewrite zlen_zdrop in Hs. destruct (_ && _); [|apply IH; lia].
  destruct huffman; eauto using status_err, parse_status_code_ok.
Qed.

(** *** Field sections *)

(** A field line of a response that does not use the dynamic table or Huffman
    coding; [n] is the bit that forbids intermediaries to index it. *)
Inductive FieldLine : Type :=
| IndexedLine (index : Z)
| NamedLine (n : bool) (index : Z) (value : bytes)
| LiteralLine (n : bool) (name value : bytes).

(** The representations of RFC 9204, 4.5.2, 4.5.4 and 4.5.6. *)
Definition line_bytes (line : FieldLine) : bytes :=
  match line with
  | IndexedLine index => put_int [] 0xC0 6 index
  | NamedLine n index value => put_int [] (if n then 0x70 else 0x50) 4 index ++ put_string [] value
  | LiteralLine n name value => put_int [] (if n then 0x30 else 0x20) 3 (zlen name) ++ name ++ put_string [] value
  end.

Definition section_bytes (lines : list FieldLine) : bytes :=
  [Byte.x00; Byte.x00] ++ concat (map line_bytes lines).

Definition line_ok (line : FieldLine) : Prop :=
  match line with
  | IndexedLine index => 0 <= index < 2 ^ 62
  | NamedLine _ index value => 0 <= index < 2 ^ 62 /\ zlen value < 2 ^ 62
  | LiteralLine _ name value => zlen name < 2 ^ 61 /\ zlen value < 2 ^ 62
  end.

(** What a line says about the status, if it is about the status. *)
Definition line_status (line : FieldLine) : option (Res string Z) :=
  match line with
  | IndexedLine index => Ok <$> static_status index
  | NamedLine _ index value => if bool_decide (is_Some (static_status index)) then Some (parse_status_code value) else None
  | LiteralLine _ name value => if bool_decide (name = str ":status") then Some (parse_status_code value) else None
  end.

Fixpoint lines_status (lines : list FieldLine) : Res string Z :=
  match lines with
  | [] => Err ":status not found in response"
  | line :: lines => match line_status line with Some r => r | None => lines_status lines end
  end.

(** The first byte of a prefixed integer. *)
Lemma put_int_head first p v rest :
  1 <= p <= 8 -> 0 <= first < 256 -> first mod 2 ^ p = 0 -> 0 <= v ->
  exists b tail w, put_int [] first p v ++ rest = b :: tail /\ bz b = first + w /\ 0 <= w < 2 ^ p.
Proof.
  intros Hp Hf Hz Hv. destruct (put_int_shape first p v Hp Hf Hz Hv) as (w & tail & -> & Hw & Hb & _).
  exists (zb (first + w)), (tail ++ rest), w. split; [done|]. split; [|done]. rewrite bz_zb. apply Z.mod_small. lia.
Qed.

(** [Z.land (bz b) m = c], where [Hb : bz b = first + w] with [w] below [n]. *)
Ltac bit_is Hb m c :=
  match type of Hb with
  | bz ?b = ?first + ?w =>
      match goal with Hw : 0 <= w < ?n |- _ =>
        let n := eval vm_compute in n in
        assert (Z.land (bz b) m = c) as -> by
          (rewrite Hb; apply Z.eqb_eq, (below (fun w => Z.land (first + w) m =? c) n w);
             [vm_compute; reflexivity|lia])
      end
  end.

Lemma znth_middle {A} (pre : list A) x rest : znth (pre ++ x :: rest) (zlen pre) = Some x.
Proof.
  unfold znth. pose proof (zlen_nonneg pre). destruct (decide (0 <= zlen pre)); [|lia].
  unfold zlen. rewrite Nat2Z.id. by apply list_lookup_middle.
Qed.

Lemma get_string_put value rest :
  zlen value < 2 ^ 62 ->
  get_string (put_string [] value ++ rest) = Some (value, zlen (put_string [] value), false).
Proof.
  intros Hv. pose proof (zlen_nonneg value). unfold put_string. rewrite <- app_assoc.
  pose proof (get_int_put_int 0 7 (zlen value) (value ++ rest) ltac:(lia) ltac:(lia) eq_refl ltac:(lia)) as Hi.
  destruct (put_int_head 0 7 (zlen value) (value ++ rest)) as (b & tail & w & E & Hb & Hw); try (lia || done).
  unfold get_string. rewrite E. bit_is Hb 0x80 0. rewrite <- E, Hi. cbn [mbind option_bind].
  pose proof (put_int_short 0 7 (zlen value) ltac:(lia) ltac:(lia) eq_refl ltac:(lia)).
  unfold checked_add64. destruct (Z.ltb_spec (zlen (put_int [] 0 7 (zlen value)) + zlen value) u64_max); [|unfold u64_max in *; lia].
  cbn [mbind option_bind]. erewrite get_slice_middle by done. cbn. by rewrite zlen_app.
Qed.

Lemma block_from_app offset l r block :
  block = l ++ r -> offset = zlen l -> block_from offset block = Ok r.
Proof.
  intros -> ->. rewrite block_from_ok by (rewrite zlen_app; pose proof (zlen_nonneg r); lia).
  f_equal. by apply zdrop_app_exact.
Qed.

Lemma status_loop_line fuel pre line rest :
  line_ok line -> zlen pre < 2 ^ 62 ->
  status_loop (S fuel) (pre ++ line_bytes line ++ rest) (zlen pre) =
    match line_status line with
    | Some r => Some r
    | None => status_loop fuel (pre ++ line_bytes line ++ rest) (zlen (pre ++ line_bytes line))
    end.
Proof.
  intros Hok Hpre. cbn [status_loop]. pose proof (zlen_nonneg pre).
  rewrite (zdrop_app_exact (zlen pre)) by done. destruct line as [index|n index value|n name value]; cbn [line_ok line_bytes line_status] in *.
  - destruct (put_int_head 0xC0 6 index rest) as (b & tail & w & E & Hb & Hw); try (lia || done).
    rewrite E, znth_middle. bit_is Hb 0x80 0x80. bit_is Hb 0x40 0x40. rewrite <- E.
    rewrite get_int_put_int by (lia || done). cbn. rewrite zlen_app. by destruct (static_status index).
  - destruct Hok as [Hi Hv]. destruct n; cbv iota; rewrite <- !app_assoc.
    all: match goal with |- context [put_int [] ?f 4 ?i ++ ?r] =>
      destruct (put_int_head f 4 i r) as (b & tail & w & E & Hb & Hw); try (lia || done) end.
    all: rewrite E, znth_middle; bit_is Hb 0x80 0; bit_is Hb 0x40 0x40; bit_is Hb 0x10 0x10; rewrite <- E.
    all: rewrite get_int_put_int by (lia || done); cbn [negb Z.eqb Pos.eqb].
    all: erewrite block_from_app; [|by rewrite app_assoc|by rewrite zlen_app]; rewrite get_string_put by done.
    all: cbn [andb]; case_bool_decide; [done|]; do 2 f_equal; rewrite !zlen_app; lia.
  - destruct Hok as [Hname Hv]. pose proof (zlen_nonneg name). destruct n; cbv iota; rewrite <- !app_assoc.
    all: match goal with |- context [put_int [] ?f 3 ?i ++ ?r] =>
      destruct (put_int_head f 3 i r) as (b & tail & w & E & Hb & Hw); try (lia || done);
      pose proof (put_int_short f 3 i ltac:(lia) ltac:(lia) eq_refl ltac:(lia)) end.
    all: rewrite E, znth_middle; bit_is Hb 0x80 0; bit_is Hb 0x40 0; bit_is Hb 0x20 0x20; bit_is Hb 0x08 0; rewrite <- E.
    all: rewrite get_int_put_int by (lia || done); cbn [negb Z.eqb Pos.eqb].
    all: match goal with |- context [checked_add64 ?x ?y] =>
      assert (checked_add64 x y = Some (x + y)) as ->
        by (unfold checked_add64; destruct (Z.ltb_spec (x + y) u64_max); [done|unfold u64_max in *; lia]) end.
    all: erewrite get_slice_middle; [|by rewrite app_assoc|by rewrite zlen_app|by rewrite zlen_app].
    all: erewrite block_from_app; [|by rewrite (app_assoc _ name), app_assoc|rewrite !zlen_app; lia].
    all: rewrite get_string_put by done.
    all: cbn [andb]; case_bool_decide; [done|]; do 2 f_equal; rewrite !zlen_app; lia.
Qed.

Lemma put_int_app out first p v : put_int out first p v = out ++ put_int [] first p v.
Proof.
  unfold put_int. destruct (v <? prefix_mask p); [done|]. rewrite put_int_loop_app, (put_int_loop_app _ ([] ++ _)).
  by rewrite <- app_assoc.
Qed.

Lemma put_int_pos first p v : 1 <= zlen (put_int [] first p v).
Proof.
  unfold put_int. destruct (v <? prefix_mask p); [done|]. rewrite put_int_loop_app, zlen_app.
  change (zlen ([] ++ [_])) with 1. pose proof (zlen_nonneg (put_int_loop 10 [] (v - prefix_mask p))). lia.
Qed.

Lemma line_bytes_pos line : 1 <= zlen (line_bytes line).
Proof.
  destruct line as [i|n i v|n name v]; cbn [line_bytes]; [apply put_int_pos|..]; rewrite zlen_app.
  - pose proof (put_int_pos (if n then 0x70 else 0x50) 4 i). pose proof (zlen_nonneg (put_string [] v)). lia.
  - pose proof (put_int_pos (if n then 0x30 else 0x20) 3 (zlen name)).
    pose proof (zlen_nonneg (name ++ put_string [] v)). lia.
Qed.

Lemma status_loop_lines lines : forall fuel pre,
  Forall line_ok lines -> zlen (pre ++ concat (map line_bytes lines)) < 2 ^ 62 -> (length lines < fuel)%nat ->
  status_loop fuel (pre ++ concat (map line_bytes lines)) (zlen pre) = Some (lines_status lines).
Proof.
  induction lines as [|line lines IH]; intros fuel pre Hok Hlen Hf; (destruct fuel as [|fuel]; [cbn in Hf; lia|]).
  - cbn [map concat]. rewrite app_nil_r. cbn [status_loop].
    assert (znth pre (zlen pre) = None) as ->; [|done]. unfold znth. case_decide; [|done].
    apply lookup_ge_None_2. unfold zlen. lia.
  - apply Forall_cons in Hok as [Hl Hok]. cbn [map concat lines_status] in *.
    pose proof (zlen_nonneg (line_bytes line ++ concat (map line_bytes lines))).
    rewrite status_loop_line; [|done|rewrite zlen_app in Hlen; lia].
    destruct (line_status line); [done|]. rewrite app_assoc. apply IH; [done| |cbn in Hf; lia]. by rewrite <- app_assoc.
Qed.

Lemma lines_short lines : zlen lines <= zlen (concat (map line_bytes lines)).
Proof.
  induction lines as [|line lines IH]; [done|]. cbn [map concat]. rewrite zlen_cons, zlen_app.
  pose proof (line_bytes_pos line). lia.
Qed.

(** The client's request head is such a section: the method by index, the
    authority by name. *)
Lemma connect_headers_section authority :
  encode_connect_headers authority = section_bytes [IndexedLine STATIC_METHOD_CONNECT; NamedLine false STATIC_AUTHORITY authority].
Proof.
  unfold encode_connect_headers, section_bytes, put_string. cbn [map concat line_bytes].
  rewrite app_nil_r, (put_int_app (put_int _ _ _ _) 0 7). unfold put_string. by rewrite <- !app_assoc.
Qed.

(** ** Properties *)

(** The integers of HTTP/3 and of QPACK are read back as they were
    written, in the length announced, whatever follows; writing into a slice
    gives the same bytes and leaves the rest of the slice alone; and a frame
    header is read back as its type and length. *)
Theorem h3_integers_roundtrip v ty first p rest slice :
  0 <= v < 2 ^ 62 -> 0 <= ty < 2 ^ 62 -> 8 <= zlen slice ->
  1 <= p <= 8 -> 0 <= first < 256 -> first mod 2 ^ p = 0 ->
  get_varint (put_varint [] v ++ rest) = Some (v, varint_len v) /\
  put_varint_slice slice v = Ok (put_varint [] v ++ zdrop (varint_len v) slice, varint_len v) /\
  get_frame_header (put_varint (put_varint [] ty) v ++ rest) = Some (ty, v, varint_len ty + varint_len v) /\
  get_int (put_int [] first p v ++ rest) p = Some (v, zlen (put_int [] first p v)).
Proof.
  intros Hv Hty Hs Hp Hf Hz. fold (varint v). fold (varint ty).
  split; [by rewrite get_varint_varint|]. split; [apply put_varint_slice_ok; pose proof (varint_len_bound v); lia|].
  split; [|apply get_int_put_int; lia]. rewrite put_varint_app, <- app_assoc. by rewrite get_frame_header_varint.
Qed.

(** Whatever bytes a response's field section holds, decoding it ends
    without a panic, and a status it yields is one of three digits. *)
Theorem decode_status_total block :
  exists r, decode_status block = Some r /\ r <> Panic /\ (forall code, r = Ok code -> 100 <= code < 600).
Proof.
  unfold decode_status. destruct (get_int block 8) as [[ic offset]|] eqn:Hi; [|by eexists].
  apply get_int_bound in Hi as [Hu _]. destruct (negb (ic =? 0)); [by eexists|].
  rewrite block_from_ok by lia. destruct (get_int _ 7) as [[db used]|] eqn:Hj; [|by eexists].
  apply get_int_bound in Hj as [Hv _]. rewrite zlen_zdrop in Hv.
  destruct (status_loop_ok (S (length block)) block (offset + used)) as (r & Hr & Hp & Hc);
    [lia|lia|unfold zlen; lia|by exists r].
Qed.

(** A field section of static, literal and unindexed lines without
    Huffman coding is decoded as the first line that is about the status says,
    wherever that line stands and however its name is represented. *)
Theorem decode_status_reads lines :
  Forall line_ok lines -> zlen (section_bytes lines) < 2 ^ 62 ->
  decode_status (section_bytes lines) = Some (lines_status lines).
Proof.
  intros Hok Hlen. pose proof (lines_short lines). unfold section_bytes, decode_status in *.
  set (block := [Byte.x00; Byte.x00] ++ concat (map line_bytes lines)) in *.
  assert (Hb : zlen block = 2 + zlen (concat (map line_bytes lines))) by (unfold block; by rewrite zlen_app).
  assert (get_int block 8 = Some (0, 1)) as -> by reflexivity. cbn [negb Z.eqb].
  rewrite block_from_ok by (pose proof (zlen_nonneg (concat (map line_bytes lines))); lia).
  assert (get_int (zdrop 1 block) 7 = Some (0, 1)) as -> by reflexivity.
  apply (status_loop_lines lines _ [Byte.x00; Byte.x00]); [done|done|]. unfold zlen in *. lia.
Qed.

(** ** Witnesses *)

Lemma h3_integers_roundtrip_witness :
  get_varint (put_varint [] 16384 ++ str "x") = Some (16384, varint_len 16384) /\
  get_int (put_int [] 0x50 4 16384 ++ str "x") 4 = Some (16384, zlen (put_int [] 0x50 4 16384)).
Proof.
  edestruct (h3_integers_roundtrip 16384 1 0x50 4 (str "x") (zrep 16 Byte.x00)) as (H1 & _ & _ & H2);
    [lia|lia|vm_compute; congruence|lia|lia|reflexivity|]. split; [exact H1|exact H2].
Defined.

Lemma decode_status_reads_witness :
  decode_status (section_bytes [NamedLine false 4 (str "9"); LiteralLine true (str ":status") (str "204"); IndexedLine 25])
    = Some (Ok 204).
Proof.
  rewrite decode_status_reads.
  - vm_compute. reflexivity.
  - repeat constructor; vm_compute; intuition congruence.
  - vm_compute. reflexivity.
Defined.
