(* ===== verification/Masque.v ===== *)
(** * The WARP tunnel's byte stream

    [src/warp/masque.rs]: data is carried in the DATA frames of an HTTP/3
    CONNECT stream. The sending half frames whole runs of buffers or the
    buffers of single writes, the receiving half strips the frames again, and
    the response head that precedes them yields the status. The QUIC stream is
    a parameter: the class [QuicSend] for the sending half, a script of read
    results for the receiving half. *)

From stdpp Require Import pretty.
From S2P Require Import Prelude Cipher Frame Shaper Decoder Upstream Text H3.

Definition MAX_DATA_FRAME : Z := 64 * 1024.
Definition MAX_RESPONSE_HEAD_BUFFER : Z := 64 * 1024.

(** ** The sending half of a QUIC stream *)

(** [quinn::WriteError]: stopped by the peer, or any other error. *)
Inductive WriteError : Type := Stopped (code : Z) | OtherWriteError (message : string).

(** The outcomes of an awaited call are as in [Socket]: [None] is a call that
    was given up. *)
Class QuicSend := {
  qstream : Type;
  qsent : qstream -> bytes;
  q_write_all : bytes -> qstream -> option (Res WriteError unit) * qstream;
  q_write_all_chunks : list bytes -> qstream -> option (Res WriteError unit) * qstream;
  q_poll_write : bytes -> qstream -> Poll (Res IoError Z) * qstream;
  q_finish : qstream -> bool * qstream
}.

Class QuicSendLaws (Q : QuicSend) := {
  q_write_all_ok : forall b s s', q_write_all b s = (Some (Ok tt), s') -> qsent s' = qsent s ++ b;
  q_write_all_any : forall b s r s', q_write_all b s = (r, s') ->
    r <> Some Panic /\ sent_prefix (qsent s) b (qsent s');
  q_write_all_chunks_ok : forall bs s s', q_write_all_chunks bs s = (Some (Ok tt), s') ->
    qsent s' = qsent s ++ concat bs;
  q_write_all_chunks_any : forall bs s r s', q_write_all_chunks bs s = (r, s') ->
    r <> Some Panic /\ sent_prefix (qsent s) (concat bs) (qsent s');
  q_poll_write_ok : forall b s n s', q_poll_write b s = (Ready (Ok n), s') ->
    0 <= n <= zlen b /\ qsent s' = qsent s ++ ztake n b;
  q_poll_write_fail : forall b s r s', q_poll_write b s = (r, s') ->
    (forall n, r <> Ready (Ok n)) -> r <> Ready Panic /\ qsent s' = qsent s;
  q_finish_sent : forall s r s', q_finish s = (r, s') -> qsent s' = qsent s
}.

Definition io_error (e : WriteError) : IoError :=
  match e with
  | Stopped code => mkIoError ConnectionReset ("warp: CONNECT stream stopped by peer (" +:+ pretty code +:+ ")")
  | OtherWriteError m => mkIoError Other m
  end.

Record WriteState : Type := mkWrite {
  ws_header : bytes;
  ws_header_len : Z;
  ws_header_sent : Z;
  ws_remaining : Z
}.

Definition WriteState_default : WriteState := mkWrite (zrep 16 Byte.x00) 0 0 0.

Section send.
Context `{Q : QuicSend}.

Record MasqueSend : Type := mkSend {
  ms_stream : qstream;
  ms_finished : bool;
  ms_write : WriteState
}.

Definition MasqueSend_new (stream : qstream) : MasqueSend := mkSend stream false WriteState_default.

Definition set_stream (this : MasqueSend) (s : qstream) : MasqueSend := mkSend s (ms_finished this) (ms_write this).

(** [.await.map_err(io_error)?] on a stream operation. *)
Definition await_io (r : option (Res WriteError unit)) : option (Res IoError unit) := option_map (map_err io_error) r.

(** The sixteen-byte header buffer with a DATA frame's header in front, and
    the header's length. *)
Definition data_header (total : Z) : Res string (bytes * Z) :=
  let header := zrep 16 Byte.x00 in
  let? (rest, n) := put_varint_slice (zdrop 1 header) total in
  Ok (zb FRAME_DATA :: rest, 1 + n).

Definition write_data (frames : list bytes) (total : Z) (this : MasqueSend)
    : option (Res IoError unit) * MasqueSend :=
  match data_header total with
  | Ok (header, n) =>
      let '(r, s) := q_write_all (ztake n header) (ms_stream this) in
      match await_io r with
      | Some (Ok _) => let '(r, s) := q_write_all_chunks frames s in (await_io r, set_stream this s)
      | r => (r, set_stream this s)
      end
  | _ => (Some Panic, this)
  end.

(** The inner loop: the frames of one DATA frame, their length, the others. *)
Fixpoint group_frames (frames : list bytes) (total : Z) : list bytes * Z * list bytes :=
  match frames with
  | f :: fs =>
      if total + zlen f <=? MAX_DATA_FRAME then
        let '(group, total, rest) := group_frames fs (total + zlen f) in (f :: group, total, rest)
      else ([], total, frames)
  | [] => ([], total, [])
  end.

(** The first group; a frame too long for one is a group of its own. *)
Definition next_group (f : bytes) (fs : list bytes) : list bytes * Z * list bytes :=
  match group_frames (f :: fs) 0 with
  | ([], _, _) => ([f], zlen f, fs)
  | g => g
  end.

Fixpoint write_frames_loop (fuel : nat) (frames : list bytes) (this : MasqueSend)
    : option (option (Res IoError unit) * MasqueSend) :=
  match frames with
  | [] => Some (Some (Ok tt), this)
  | f :: fs =>
      match fuel with
      | O => None
      | S fuel =>
          let '(group, total, rest) := next_group f fs in
          if 0 <? total then
            match write_data group total this with
            | (Some (Ok _), this) => write_frames_loop fuel rest this
            | (r, this) => Some (r, this)
            end
          else write_frames_loop fuel rest this
      end
  end.

Definition masque_write_frames (frames : list bytes) (this : MasqueSend) : option (option (Res IoError unit) * MasqueSend) :=
  write_frames_loop (length frames) frames this.

Definition masque_shutdown (this : MasqueSend) : Res IoError unit * MasqueSend :=
  let '(ok, s) := q_finish (ms_stream this) in
  (if ok : bool then Ok tt else Err (mkIoError BrokenPipe "warp: CONNECT stream closed"),
   mkSend s true (ms_write this)).

(** ** [AsyncWrite] *)

Definition set_write (this : MasqueSend) (w : WriteState) : MasqueSend := mkSend (ms_stream this) (ms_finished this) w.

(** The loop that sends the header; [None] is a header sent. *)
Fixpoint send_header (fuel : nat) (this : MasqueSend) : option (Poll (Res IoError Z)) * MasqueSend :=
  let w := ms_write this in
  if ws_header_sent w <? ws_header_len w then
    match fuel with
    | O => (Some (Ready Panic), this)
    | S fuel =>
        let '(r, s) := q_poll_write (slice (ws_header_sent w) (ws_header_len w) (ws_header w)) (ms_stream this) in
        let this := set_stream this s in
        match r with
        | Pending => (Some Pending, this)
        | Ready (Err e) => (Some (Ready (Err e)), this)
        | Ready (Ok n) =>
            if n =? 0 then (Some (Ready (Err (mkIoError WriteZero "write zero"))), this)
            else send_header fuel
                   (set_write this (mkWrite (ws_header w) (ws_header_len w) (as_u8 (ws_header_sent w + as_u8 n)) (ws_remaining w)))
        | Ready Panic => (Some (Ready Panic), this)
        end
    end
  else (None, this).

(** A new DATA frame is announced when the last one is complete. *)
Definition announce (buf : bytes) (this : MasqueSend) : Res string MasqueSend :=
  let w := ms_write this in
  if ws_remaining w =? 0 then
    let len := Z.min (zlen buf) MAX_DATA_FRAME in
    let? (rest, n) := put_varint_slice (zdrop 1 (ws_header w)) len in
    Ok (set_write this (mkWrite (zb FRAME_DATA :: rest) (as_u8 (1 + n)) 0 len))
  else Ok this.

Definition masque_poll_write (buf : bytes) (this : MasqueSend) : Poll (Res IoError Z) * MasqueSend :=
  match buf with
  | [] => (Ready (Ok 0), this)
  | _ =>
      match announce buf this with
      | Ok this =>
          match send_header 16 this with
          | (Some r, this) => (r, this)
          | (None, this) =>
              let w := ms_write this in
              let want := Z.min (zlen buf) (ws_remaining w) in
              let '(r, s) := q_poll_write (ztake want buf) (ms_stream this) in
              let this := set_stream this s in
              match r with
              | Ready (Ok n) =>
                  if n =? 0 then (Ready (Err (mkIoError WriteZero "write zero")), this)
                  else (Ready (Ok n),
                        set_write this (mkWrite (ws_header w) (ws_header_len w) (ws_header_sent w) (ws_remaining w - n)))
              | r => (r, this)
              end
          end
      | _ => (Ready Panic, this)
      end
  end.

Definition masque_poll_shutdown (this : MasqueSend) : Poll (Res IoError unit) * MasqueSend :=
  if ms_finished this then (Ready (Ok tt), this)
  else (Ready (Ok tt), mkSend (snd (q_finish (ms_stream this))) true (ms_write this)).
End send.

(** ** The receiving half *)

Record MasqueRecv : Type := mkRecv {
  mr_stream : list ReadEvent;
  mr_header : bytes;
  mr_pending : bytes;
  mr_remaining : Z;
  mr_discard : bool;
  mr_eof : bool
}.

Definition MasqueRecv_new (stream : list ReadEvent) (leftover : bytes) : MasqueRecv :=
  mkRecv stream leftover [] 0 false false.

Definition unexpected_eof : IoError := mkIoError UnexpectedEof "warp: CONNECT stream ended inside a DATA frame".

(** One round of the loop of [poll_read]: the answer, or another round. [limit] is
    the room in the caller's buffer. *)
Definition recv_round (limit : Z) (this : MasqueRecv) : option (Poll (Res IoError bytes)) * MasqueRecv :=
  if limit =? 0 then (Some (Ready (Ok [])), this)
  else
    match mr_pending this with
    | _ :: _ =>
        let n := Z.min (zlen (mr_pending this)) limit in
        (Some (Ready (Ok (ztake n (mr_pending this)))),
         mkRecv (mr_stream this) (mr_header this) (zdrop n (mr_pending this)) (mr_remaining this) (mr_discard this) (mr_eof this))
    | [] =>
        if 0 <? mr_remaining this then
          if mr_discard this then
            let '(r, s) := poll_read (Z.min (mr_remaining this) 512) (mr_stream this) in
            let keep rem := mkRecv s (mr_header this) [] rem (mr_discard this) (mr_eof this) in
            match r with
            | Pending => (Some Pending, keep (mr_remaining this))
            | Ready (Err e) => (Some (Ready (Err e)), keep (mr_remaining this))
            | Ready (Ok d) =>
                if zlen d =? 0 then (Some (Ready (Err unexpected_eof)), keep (mr_remaining this))
                else (None, keep (mr_remaining this - zlen d))
            | Ready Panic => (Some (Ready Panic), keep (mr_remaining this))
            end
          else
            let '(r, s) := poll_read (Z.min (mr_remaining this) limit) (mr_stream this) in
            let keep rem := mkRecv s (mr_header this) [] rem (mr_discard this) (mr_eof this) in
            match r with
            | Pending => (Some Pending, keep (mr_remaining this))
            | Ready (Err e) => (Some (Ready (Err e)), keep (mr_remaining this))
            | Ready (Ok d) =>
                if zlen d =? 0 then (Some (Ready (Err unexpected_eof)), keep (mr_remaining this))
                else (Some (Ready (Ok d)), keep (mr_remaining this - zlen d))
            | Ready Panic => (Some (Ready Panic), keep (mr_remaining this))
            end
        else
          match get_frame_header (mr_header this) with
          | Some (ty, len, used) =>
              let header := zdrop used (mr_header this) in
              let take := Z.min (zlen header) len in
              let pending := if 0 <? take then ztake take header else mr_pending this in
              let header := if 0 <? take then zdrop take header else header in
              (None, mkRecv (mr_stream this) header pending (len - take) (negb (ty =? FRAME_DATA)) (mr_eof this))
          | None =>
              if mr_eof this then
                (Some (match mr_header this with [] => Ready (Ok []) | _ => Ready (Err unexpected_eof) end), this)
              else
                let '(r, s) := poll_read 16 (mr_stream this) in
                let keep header eof := mkRecv s header [] (mr_remaining this) (mr_discard this) eof in
                match r with
                | Pending => (Some Pending, keep (mr_header this) (mr_eof this))
                | Ready (Err e) => (Some (Ready (Err e)), keep (mr_header this) (mr_eof this))
                | Ready (Ok d) =>
                    if zlen d =? 0 then
                      (Some (match mr_header this with [] => Ready (Ok []) | _ => Ready (Err unexpected_eof) end),
                       keep (mr_header this) true)
                    else (None, keep (mr_header this ++ d) (mr_eof this))
                | Ready Panic => (Some (Ready Panic), keep (mr_header this) (mr_eof this))
                end
          end
    end.

Fixpoint recv_loop (fuel : nat) (limit : Z) (this : MasqueRecv) : option (Poll (Res IoError bytes) * MasqueRecv) :=
  match fuel with
  | O => None
  | S fuel =>
      match recv_round limit this with
      | (Some r, this) => Some (r, this)
      | (None, this) => recv_loop fuel limit this
      end
  end.

(** Each round that does not answer takes bytes from the header buffer or
    moves some there from the stream. *)
Definition recv_measure (this : MasqueRecv) : Z := zlen (mr_header this) + 2 * zlen (input (mr_stream this)).

Definition masque_poll_read (limit : Z) (this : MasqueRecv) : option (Poll (Res IoError bytes) * MasqueRecv) :=
  recv_loop (S (Z.to_nat (recv_measure this))) limit this.

(** What reads into buffers with room for [limits] bytes give, until the end of
    the stream or an error. *)
Fixpoint masque_collect (limits : list Z) (this : MasqueRecv) : bytes * Outcome :=
  match limits with
  | [] => ([], Unfinished)
  | limit :: limits =>
      match masque_poll_read limit this with
      | Some (Ready (Ok []), _) => ([], Finished)
      | Some (Ready (Ok d), this) => let '(out, o) := masque_collect limits this in (d ++ out, o)
      | Some (Ready (Err e), _) => ([], Failed e)
      | Some (Pending, this) => masque_collect limits this
      | _ => ([], Panicked)
      end
  end.

(** ** The response head *)

(** [read_chunk(limit, true).await]; [None] is a read that never completes. *)
Fixpoint await_read (limit : Z) (rd : list ReadEvent) : option (Res IoError bytes * list ReadEvent) :=
  match rd with
  | RdPending :: rest => await_read limit rest
  | _ => match poll_read limit rd with (Ready r, rd) => Some (r, rd) | _ => None end
  end.

(** The inner loop: the status and what follows it, or the bytes kept. *)
Fixpoint scan_head (fuel : nat) (authority : string) (buf : bytes) : option (Res string (Z * bytes + bytes)) :=
  match fuel with
  | O => None
  | S fuel =>
      match get_frame_header buf with
      | None => Some (Ok (inr buf))
      | Some (ty, len, used) =>
          match checked_add64 used len with
          | None => Some (Err "warp: response frame length overflow")
          | Some total =>
              if zlen buf <? total then
                if MAX_RESPONSE_HEAD_BUFFER <? total
                then Some (Err ("warp: response frame too large (" +:+ pretty total +:+ " bytes)"))
                else Some (Ok (inr buf))
              else if ty =? FRAME_HEADERS then
                match decode_status (slice used total buf) with
                | Some (Ok status) => Some (Ok (inl (status, zdrop total buf)))
                | Some (Err e) => Some (Err ("warp: unusable CONNECT response for " +:+ authority +:+ ": " +:+ e))
                | _ => Some Panic
                end
              else scan_head fuel authority (zdrop total buf)
          end
      end
  end.

Fixpoint head_loop (fuel : nat) (authority : string) (buf : bytes) (rd : list ReadEvent)
    : option (option (Res string (Z * bytes)) * list ReadEvent) :=
  match fuel with
  | O => None
  | S fuel =>
      match scan_head (S (length buf)) authority buf with
      | Some (Ok (inl head)) => Some (Some (Ok head), rd)
      | Some (Ok (inr buf)) =>
          if MAX_RESPONSE_HEAD_BUFFER <? zlen buf
          then Some (Some (Err ("warp: CONNECT response for " +:+ authority +:+ " exceeded " +:+
                     pretty MAX_RESPONSE_HEAD_BUFFER +:+ " bytes")), rd)
          else
            match await_read 4096 rd with
            | None => Some (None, rd)
            | Some (Ok [], rd) =>
                Some (Some (Err ("warp: connection closed before CONNECT response for " +:+ authority)), rd)
            | Some (Ok chunk, rd) => head_loop fuel authority (buf ++ chunk) rd
            | Some (Err _, rd) => Some (Some (Err "warp: read response"), rd)
            | Some (Panic, rd) => Some (Some Panic, rd)
            end
      | Some (Err e) => Some (Some (Err e), rd)
      | _ => Some (Some Panic, rd)
      end
  end.

(** Every read that does not end the loop brings at least one byte. *)
Definition read_response_head (authority : string) (rd : list ReadEvent)
    : option (option (Res string (Z * bytes)) * list ReadEvent) :=
  head_loop (S (length (input rd))) authority [] rd.

(** [MasqueConn::open] on a fresh bidirectional stream; the reset of a refused
    stream is left to its drop. *)
Definition open_tunnel `{Q : QuicSend} (authority : string) (send : qstream) (rd : list ReadEvent)
    : option (option (Res string (MasqueSend * MasqueRecv))) :=
  let block := encode_connect_headers (str authority) in
  let frame := put_varint [] FRAME_HEADERS in
  let frame := put_varint frame (zlen block) in
  let frame := frame ++ block in
  match q_write_all frame send with
  | (Some (Ok _), send) =>
      '(r, rd) ← read_response_head authority rd;
      Some match r with
      | Some (Ok (status, pending)) =>
          if (200 <=? status) && (status <? 300)
          then Some (Ok (MasqueSend_new send, MasqueRecv_new rd pending))
          else Some (Err ("warp: CONNECT " +:+ authority +:+ " rejected with status " +:+ pretty status))
      | Some (Err e) => Some (Err e)
      | Some Panic => Some Panic
      | None => None
      end
  | (Some (Err _), _) => Some (Some (Err ("warp: send CONNECT " +:+ authority)))
  | (Some Panic, _) => Some (Some Panic)
  | (None, _) => Some None
  end.

(** ** Specification *)

(** A frame on the wire. *)
Definition frame_bytes (ty : Z) (payload : bytes) : bytes := varint ty ++ varint (zlen payload) ++ payload.
Definition data_frames (payloads : list bytes) : bytes := concat (map (frame_bytes FRAME_DATA) payloads).

(** The data of a stream of frames: the payloads of its DATA frames, the last
    one as far as it goes; other frames are skipped. *)
Fixpoint wire_data (fuel : nat) (buf : bytes) : bytes :=
  match fuel with
  | O => []
  | S fuel =>
      match get_frame_header buf with
      | None => []
      | Some (ty, len, used) =>
          (if ty =? FRAME_DATA then ztake len (zdrop used buf) else []) ++ wire_data fuel (zdrop (used + len) buf)
      end
  end.
Definition stream_data (buf : bytes) : bytes := wire_data (length buf) buf.

(** ** Lemmas *)

(** *** Frames *)

Lemma get_varint_bound buf v n : get_varint buf = Some (v, n) -> 1 <= n <= zlen buf /\ 0 <= v.
Proof.
  unfold get_varint. destruct buf as [|b l]; [done|]. pose proof (bz_range b).
  rewrite Z.shiftr_div_pow2, Z.shiftl_1_l by lia. change (2 ^ 6) with 64.
  assert (Hq : 0 <= bz b / 64 <= 3) by (split; [apply Z.div_pos; lia|apply Z.lt_succ_r, Z.div_lt_upper_bound; lia]).
  assert (Hp : 1 <= 2 ^ (bz b / 64) <= 8).
  { split; [apply Z.lt_pred_le, Z.pow_pos_nonneg; lia|]. change 8 with (2 ^ 3). apply Z.pow_le_mono_r; lia. }
  destruct (Z.ltb_spec (zlen (b :: l)) (2 ^ (bz b / 64))); [done|]. intros [= <- <-]. split; [lia|].
  pose proof (zlen_slice 1 (2 ^ (bz b / 64)) (b :: l) ltac:(lia) ltac:(lia) ltac:(lia)) as Hl.
  rewrite varint_value_be by lia. pose proof (be_val_range (slice 1 (2 ^ (bz b / 64)) (b :: l))).
  pose proof (Z.mod_pos_bound (bz b) 64 ltac:(lia)). rewrite Hl. nia.
Qed.

(** A prefix of a buffer holds its first integer, or not all of it. *)
Lemma get_varint_prefix a c v n :
  get_varint (a ++ c) = Some (v, n) -> get_varint a = if n <=? zlen a then Some (v, n) else None.
Proof.
  intros H. pose proof (get_varint_bound _ _ _ H) as [Hn _]. destruct a as [|b l].
  { change (zlen (@nil byte)) with 0. destruct (Z.leb_spec n 0); [lia|done]. }
  unfold get_varint in *. cbn [app] in H.
  destruct (zlen (b :: l ++ c) <? Z.shiftl 1 (Z.shiftr (bz b) 6)); [done|]. injection H as <- <-.
  set (len := Z.shiftl 1 (Z.shiftr (bz b) 6)) in *. rewrite Z.ltb_antisym.
  destruct (Z.leb_spec len (zlen (b :: l))) as [Hl|]; [|done]. cbn [negb]. do 3 f_equal.
  unfold slice. change (b :: l ++ c) with ((b :: l) ++ c). rewrite zdrop_app_le, ztake_app_le; [done| |]; zl.
Qed.

Lemma get_frame_header_bound buf ty len used : get_frame_header buf = Some (ty, len, used) -> 2 <= used <= zlen buf /\ 0 <= len.
Proof.
  unfold get_frame_header. intros H. apply bind_Some in H as ([t n] & H1 & H).
  apply bind_Some in H as ([l m] & H2 & [= <- <- <-]). apply get_varint_bound in H1, H2.
  rewrite zlen_zdrop in H2. lia.
Qed.

Lemma get_frame_header_prefix a c ty len used :
  get_frame_header (a ++ c) = Some (ty, len, used) ->
  get_frame_header a = if used <=? zlen a then Some (ty, len, used) else None.
Proof.
  unfold get_frame_header. intros H. apply bind_Some in H as ([t n] & H1 & H).
  apply bind_Some in H as ([l m] & H2 & [= <- <- <-]). pose proof (get_varint_bound _ _ _ H1) as B1.
  pose proof (get_varint_bound _ _ _ H2) as B2. rewrite (get_varint_prefix _ _ _ _ H1).
  destruct (Z.leb_spec n (zlen a)) as [Hn|Hn]; cbn [mbind option_bind].
  - rewrite zdrop_app_le in H2 by done. rewrite (get_varint_prefix _ _ _ _ H2), zlen_zdrop.
    destruct (Z.leb_spec m (Z.max 0 (zlen a - Z.max 0 n))), (Z.leb_spec (n + m) (zlen a)); try lia; done.
  - destruct (Z.leb_spec (n + m) (zlen a)); [lia|done].
Qed.

Definition small (payload : bytes) : Prop := zlen payload < 2 ^ 62.

Lemma get_frame_header_frame ty payload rest :
  0 <= ty < 2 ^ 62 -> small payload ->
  get_frame_header (frame_bytes ty payload ++ rest) = Some (ty, zlen payload, varint_len ty + varint_len (zlen payload)).
Proof.
  intros Hty Hs. pose proof (zlen_nonneg payload). unfold frame_bytes. rewrite <- !app_assoc.
  by apply get_frame_header_varint.
Qed.

Lemma zlen_frame ty payload :
  zlen (frame_bytes ty payload) = varint_len ty + varint_len (zlen payload) + zlen payload.
Proof. unfold frame_bytes. rewrite !zlen_app, !zlen_varint. lia. Qed.

Lemma frame_payload ty payload rest :
  zdrop (varint_len ty + varint_len (zlen payload)) (frame_bytes ty payload ++ rest) = payload ++ rest.
Proof.
  unfold frame_bytes. rewrite <- !app_assoc, app_assoc. apply zdrop_app_exact. by rewrite zlen_app, !zlen_varint.
Qed.

Lemma wire_data_fuel n m buf : (length buf <= n)%nat -> (length buf <= m)%nat -> wire_data n buf = wire_data m buf.
Proof.
  revert m buf. induction n as [|n IH]; intros m buf Hn Hm.
  - assert (buf = []) as -> by (apply nil_length_inv; lia). by destruct m.
  - destruct m as [|m]; [assert (buf = []) as -> by (apply nil_length_inv; lia); done|]. cbn [wire_data].
    destruct (get_frame_header buf) as [[[ty len] used]|] eqn:Hh; [|done]. f_equal.
    apply get_frame_header_bound in Hh. apply IH; unfold zdrop, zlen in *; rewrite length_drop; lia.
Qed.

Lemma wire_data_nil n : wire_data n [] = [].
Proof. by destruct n. Qed.

Lemma stream_data_step ty payload rest :
  0 <= ty < 2 ^ 62 -> small payload ->
  stream_data (frame_bytes ty payload ++ rest) = (if ty =? FRAME_DATA then payload else []) ++ stream_data rest.
Proof.
  intros Hty Hs. pose proof (zlen_nonneg payload). unfold stream_data at 1.
  pose proof (varint_len_bound ty). pose proof (varint_len_bound (zlen payload)).
  destruct (length (frame_bytes ty payload ++ rest)) as [|n] eqn:Hl.
  { apply nil_length_inv, (f_equal zlen) in Hl. rewrite zlen_app, zlen_frame in Hl. change (zlen []) with 0 in Hl.
    pose proof (zlen_nonneg rest). lia. }
  cbn [wire_data]. rewrite get_frame_header_frame by done. rewrite frame_payload. f_equal.
  - destruct (ty =? FRAME_DATA); [|done]. by apply ztake_app_exact.
  - rewrite (zdrop_app_exact _ (frame_bytes ty payload)) by (by rewrite zlen_frame).
    apply wire_data_fuel; [|done]. rewrite length_app in Hl. pose proof (zlen_frame ty payload). unfold zlen in *. lia.
Qed.

(** A frame that is cut off carries what there is of its payload. *)
Lemma stream_data_cut payload k :
  small payload -> 0 <= k -> k <= zlen (frame_bytes FRAME_DATA payload) ->
  stream_data (ztake k (frame_bytes FRAME_DATA payload)) = ztake (k - (1 + varint_len (zlen payload))) payload.
Proof.
  intros Hs H0 Hk. pose proof (zlen_nonneg payload). pose proof (varint_len_bound (zlen payload)).
  pose proof (get_frame_header_frame FRAME_DATA payload [] ltac:(unfold FRAME_DATA; lia) Hs) as Hh.
  rewrite app_nil_r, <- (ztake_zdrop k (frame_bytes FRAME_DATA payload)) in Hh. apply get_frame_header_prefix in Hh.
  change (varint_len FRAME_DATA) with 1 in Hh. rewrite zlen_ztake, Z.max_r, Z.min_l in Hh by lia.
  unfold stream_data. destruct (length (ztake k (frame_bytes FRAME_DATA payload))) as [|n] eqn:Hl.
  { assert (k = 0) as ->.
    { pose proof (zlen_ztake k (frame_bytes FRAME_DATA payload)). unfold zlen in *. lia. }
    cbn [wire_data]. unfold ztake. by replace (Z.to_nat (0 - (1 + varint_len (zlen payload)))) with O by lia. }
  cbn [wire_data]. rewrite Hh. destruct (Z.leb_spec (1 + varint_len (zlen payload)) k).
  - change (FRAME_DATA =? FRAME_DATA) with true. cbv iota.
    pose proof (frame_payload FRAME_DATA payload []) as Hp. rewrite !app_nil_r in Hp. change (varint_len FRAME_DATA) with 1 in Hp.
    set (h := 1 + varint_len (zlen payload)) in *.
    assert (Hd : zdrop h (ztake k (frame_bytes FRAME_DATA payload)) = ztake (k - h) payload).
    { rewrite <- Hp at 2. rewrite zdrop_ztake by lia. done. }
    rewrite Hd, ztake_all by (rewrite zlen_ztake; lia). rewrite zdrop_all; [by rewrite wire_data_nil, app_nil_r|].
    rewrite zlen_ztake, zlen_frame. change (varint_len FRAME_DATA) with 1 in *. lia.
  - rewrite ztake_neg by lia. done.
Qed.

Lemma stream_data_frames payloads rest :
  Forall small payloads -> stream_data (data_frames payloads ++ rest) = concat payloads ++ stream_data rest.
Proof.
  induction 1 as [|p payloads Hp _ IH]; [done|]. unfold data_frames in *. cbn [map concat]. rewrite <- !app_assoc.
  rewrite stream_data_step by (try apply Hp; unfold FRAME_DATA; lia). by rewrite IH.
Qed.

(** Any part of such a stream carries the data as far as it goes. *)
Lemma prefix_data payloads sent :
  Forall small payloads -> sent_prefix [] (data_frames payloads) sent ->
  exists tail, concat payloads = stream_data sent ++ tail.
Proof.
  intros Hps [k ->]. cbn [app]. revert k. induction Hps as [|p payloads Hp _ IH]; intros k.
  { exists []. unfold data_frames, ztake. cbn. by rewrite take_nil. }
  unfold data_frames in *. cbn [map concat]. pose proof (zlen_frame FRAME_DATA p). pose proof (zlen_nonneg p).
  destruct (decide (zlen (frame_bytes FRAME_DATA p) <= k)) as [Hge|Hlt].
  - rewrite ztake_app_ge by done. rewrite stream_data_step by (try done; unfold FRAME_DATA; lia).
    destruct (IH (k - zlen (frame_bytes FRAME_DATA p))) as [tail ->]. exists tail. by rewrite <- app_assoc.
  - rewrite ztake_app_le by lia. destruct (decide (0 <= k)) as [Hk0|Hneg].
    + rewrite stream_data_cut by (done || lia). exists (zdrop (k - (1 + varint_len (zlen p))) p ++ concat payloads).
      by rewrite app_assoc, ztake_zdrop.
    + rewrite ztake_neg by lia. by eexists.
Qed.

(** *** Writing frames *)

Lemma data_header_ok total :
  0 <= total < 2 ^ 62 ->
  exists header n, data_header total = Ok (header, n) /\ ztake n header = varint FRAME_DATA ++ varint total.
Proof.
  intros Ht. pose proof (varint_len_bound total). unfold data_header.
  rewrite put_varint_slice_ok by (rewrite zlen_zdrop, zlen_zrep; lia). cbn [res_bind].
  eexists _, _. split; [done|]. change (varint FRAME_DATA) with [zb FRAME_DATA].
  rewrite (app_comm_cons (varint total)). rewrite ztake_app_exact; [done|]. by rewrite zlen_cons, zlen_varint.
Qed.

Section send_proofs.
Context `{Q : QuicSend} {QL : QuicSendLaws Q}.
Implicit Types (this : MasqueSend).

Definition sent_by this : bytes := qsent (ms_stream this).

Lemma write_data_ok group this :
  small (concat group) ->
  let '(r, this') := write_data group (zlen (concat group)) this in
  r <> Some Panic /\ sent_prefix (sent_by this) (frame_bytes FRAME_DATA (concat group)) (sent_by this') /\
  (r = Some (Ok tt) -> sent_by this' = sent_by this ++ frame_bytes FRAME_DATA (concat group)).
Proof.
  intros Hs. pose proof (zlen_nonneg (concat group)). unfold small in Hs. unfold write_data, sent_by.
  destruct (data_header_ok (zlen (concat group)) ltac:(lia)) as (header & n & -> & ->).
  assert (Hf : frame_bytes FRAME_DATA (concat group) = (varint FRAME_DATA ++ varint (zlen (concat group))) ++ concat group)
    by (unfold frame_bytes; by rewrite app_assoc).
  rewrite Hf. set (hdr := varint FRAME_DATA ++ varint (zlen (concat group))).
  destruct (q_write_all hdr (ms_stream this)) as [r s] eqn:Hw.
  pose proof (q_write_all_any _ _ _ _ Hw) as [Hp Hpre].
  assert (Hfail : sent_prefix (qsent (ms_stream this)) (hdr ++ concat group) (qsent s))
    by (eapply sent_prefix_weaken; [exact Hpre|by eexists]).
  destruct r as [[[]|e|]|]; cbn [await_io option_map map_err]; [|by split_and!|done|by split_and!].
  rewrite (q_write_all_ok _ _ _ Hw) in *. destruct (q_write_all_chunks group s) as [r2 s2] eqn:Hc.
  pose proof (q_write_all_chunks_any _ _ _ _ Hc) as [Hp2 Hpre2]. cbn [set_stream ms_stream].
  rewrite (q_write_all_ok _ _ _ Hw) in Hpre2. apply sent_prefix_app in Hpre2.
  split; [by destruct r2 as [[]|]|]. split; [done|]. intros Hr. destruct r2 as [[[]| |]|]; try done.
  rewrite (q_write_all_chunks_ok _ _ _ Hc), (q_write_all_ok _ _ _ Hw). by rewrite <- app_assoc.
Qed.

Lemma group_frames_spec frames t group t' rest :
  group_frames frames t = (group, t', rest) ->
  frames = group ++ rest /\ t' = t + zlen (concat group) /\ (t <= MAX_DATA_FRAME -> t' <= MAX_DATA_FRAME).
Proof.
  revert t group t' rest. induction frames as [|f frames IH]; intros t group t' rest; cbn [group_frames].
  { intros [= <- <- <-]. cbn [concat app]. rewrite zlen_nil. split_and!; [done|lia|done]. }
  destruct (Z.leb_spec (t + zlen f) MAX_DATA_FRAME).
  - destruct (group_frames frames (t + zlen f)) as [[g u] r] eqn:E. intros [= <- <- <-].
    destruct (IH _ _ _ _ E) as (-> & -> & Hm). cbn [app concat]. rewrite zlen_app. split_and!; [done|lia|]. intros _. specialize (Hm ltac:(lia)). lia.
  - intros [= <- <- <-]. cbn [concat app]. rewrite zlen_nil. split_and!; [done|lia|done].
Qed.

(** A payload fits a DATA frame, or is a single frame of the caller's. *)
Definition payload_ok (frames : list bytes) (payload : bytes) : Prop :=
  payload <> [] /\ (zlen payload <= MAX_DATA_FRAME \/ payload ∈ frames).

Lemma next_group_spec f fs group total rest :
  next_group f fs = (group, total, rest) ->
  f :: fs = group ++ rest /\ total = zlen (concat group) /\ group <> [] /\
  (total <= MAX_DATA_FRAME \/ concat group ∈ f :: fs).
Proof.
  unfold next_group. destruct (group_frames (f :: fs) 0) as [[g t] r] eqn:E.
  apply group_frames_spec in E as (Hg & Ht & Hm). destruct g as [|x g].
  - intros [= <- <- <-]. cbn [concat app]. rewrite app_nil_r. split_and!; [done..|]. right. by left.
  - intros [= <- <- <-]. split; [done|]. split; [lia|]. split; [done|]. left. apply Hm. done.
Qed.

Lemma write_frames_loop_ok fuel frames this :
  (length frames <= fuel)%nat -> Forall small frames ->
  exists r this' payloads, write_frames_loop fuel frames this = Some (r, this') /\ r <> Some Panic /\
    concat payloads = concat frames /\ Forall small payloads /\
    sent_prefix (sent_by this) (data_frames payloads) (sent_by this') /\
    (r = Some (Ok tt) -> sent_by this' = sent_by this ++ data_frames payloads /\ Forall (payload_ok frames) payloads).
Proof.
  revert frames this. induction fuel as [|fuel IH]; intros frames this Hf Hs; (destruct frames as [|f fs];
    [exists (Some (Ok tt)), this, []; split_and!; [done..|apply sent_prefix_none|by rewrite app_nil_r]|]);
    [cbn in Hf; lia|]. cbn [write_frames_loop].
  destruct (next_group f fs) as [[group total] rest] eqn:Hg.
  apply next_group_spec in Hg as (Hsplit & -> & Hne & Hfit).
  assert (Hgroup : small (concat group)).
  { destruct Hfit as [Hfit|Hfit]; [unfold small, MAX_DATA_FRAME in *; lia|]. by apply (proj1 (Forall_forall _ _) Hs). }
  rewrite Hsplit in *. apply Forall_app in Hs as [_ Hs]. pose proof (zlen_nonneg (concat group)).
  assert (Hlen : (length rest <= fuel)%nat) by (rewrite length_app in Hf; destruct group; [done|cbn in Hf; lia]).
  assert (Hmono : forall ps, Forall (payload_ok rest) ps -> Forall (payload_ok (group ++ rest)) ps).
  { intros ps H1. eapply Forall_impl; [exact H1|]. intros p [Hp1 [?|?]]; (split; [done|]); [by left|].
    right. apply elem_of_app. by right. }
  destruct (Z.ltb_spec 0 (zlen (concat group))) as [Hpos|Hz].
  - pose proof (write_data_ok group this Hgroup) as Hw.
    destruct (write_data group (zlen (concat group)) this) as [r1 this1]. destruct Hw as (Hp1 & Hpre1 & Hok1).
    assert (Hstop : r1 <> Some (Ok tt) -> exists r this' payloads, Some (r1, this1) = Some (r, this') /\ r <> Some Panic /\
      concat payloads = concat (group ++ rest) /\ Forall small payloads /\
      sent_prefix (sent_by this) (data_frames payloads) (sent_by this') /\
      (r = Some (Ok tt) -> sent_by this' = sent_by this ++ data_frames payloads /\ Forall (payload_ok (group ++ rest)) payloads)).
    { intros Hno. exists r1, this1, (concat group :: rest). split; [done|]. split; [done|].
      split; [cbn; by rewrite concat_app|]. split; [by constructor|].
      split; [|done]. eapply sent_prefix_weaken; [exact Hpre1|]. unfold data_frames. cbn. by eexists. }
    destruct r1 as [[[]|e|]|]; try (by apply Hstop).
    destruct (IH rest this1 Hlen Hs) as (r & this' & ps & Hl & Hp & Hc & Hsm & Hpre & Hok).
    rewrite (Hok1 eq_refl) in *. exists r, this', (concat group :: ps). split; [done|]. split; [done|].
    split; [cbn; by rewrite Hc, concat_app|]. split; [by constructor|].
    split; [by apply sent_prefix_app|]. intros Hr. destruct (Hok Hr) as [-> Hpay].
    split; [unfold data_frames; cbn; by rewrite <- app_assoc|]. constructor; [|by apply Hmono].
    split; [intros Hz; by rewrite Hz in Hpos|done].
  - destruct (IH rest this Hlen Hs) as (r & this' & ps & Hl & Hp & Hc & Hsm & Hpre & Hok).
    assert (Hnil : concat group = []) by (apply zlen_0_nil; lia).
    exists r, this', ps. split; [done|]. split; [done|]. split; [by rewrite concat_app, Hnil|]. split; [done|].
    split; [done|]. intros Hr. destruct (Hok Hr) as [-> Hpay]. split; [done|by apply Hmono].
Qed.

(** *** Polled writes *)

(** [pre] was on the stream before; since then whole frames [ps] and, while
    [ws_remaining] says so, a frame of which the payload [cur] was sent. *)
Definition open_frame (pre : bytes) (ps : list bytes) (cur : bytes) this : Prop :=
  let w := ms_write this in
  let hdr := varint FRAME_DATA ++ varint (zlen cur + ws_remaining w) in
  0 < ws_remaining w /\ zlen cur + ws_remaining w < 2 ^ 62 /\
  ws_header_len w = zlen hdr /\ ztake (ws_header_len w) (ws_header w) = hdr /\
  0 <= ws_header_sent w <= ws_header_len w /\ (ws_header_sent w < ws_header_len w -> cur = []) /\
  sent_by this = pre ++ data_frames ps ++ ztake (ws_header_sent w) hdr ++ cur.

Definition write_inv (pre acc : bytes) this : Prop :=
  exists ps cur, Forall small ps /\ acc = concat ps ++ cur /\ zlen (ws_header (ms_write this)) = 16 /\
    ((ws_remaining (ms_write this) = 0 /\ cur = [] /\ sent_by this = pre ++ data_frames ps) \/ open_frame pre ps cur this).

Definition header_done this : Prop := ws_header_len (ms_write this) <= ws_header_sent (ms_write this).

Lemma header_short L : zlen (varint FRAME_DATA ++ varint L) <= 9.
Proof. rewrite zlen_app, !zlen_varint. pose proof (varint_len_bound L). change (varint_len FRAME_DATA) with 1. lia. Qed.

Lemma send_header_done fuel this : header_done this -> send_header fuel this = (None, this).
Proof.
  unfold header_done. intros Hd.
  destruct fuel; cbn [send_header]; (destruct (Z.ltb_spec (ws_header_sent (ms_write this)) (ws_header_len (ms_write this))); [lia|done]).
Qed.

Lemma send_header_ok fuel pre ps this :
  open_frame pre ps [] this -> zlen (ws_header (ms_write this)) = 16 ->
  ws_header_len (ms_write this) - ws_header_sent (ms_write this) <= Z.of_nat fuel ->
  let '(r, this') := send_header fuel this in
  open_frame pre ps [] this' /\ zlen (ws_header (ms_write this')) = 16 /\
  match r with None => header_done this' | Some r => r <> Ready Panic /\ forall n, r <> Ready (Ok n) end.
Proof.
  revert this. induction fuel as [|fuel IH]; intros this Ho Hh Hf; cbn [send_header];
    (destruct (Z.ltb_spec (ws_header_sent (ms_write this)) (ws_header_len (ms_write this))) as [Hlt|Hge]; [|by split_and!]);
    [lia|].
  destruct (q_poll_write _ (ms_stream this)) as [r s] eqn:Hw. unfold open_frame in Ho. cbv zeta in Ho.
  destruct Ho as (Hr & HL & Hhl & Hht & Hhs & Hcur & Hsent).
  set (w := ms_write this) in *. set (hdr := varint FRAME_DATA ++ varint (zlen [] + ws_remaining w)) in *.
  assert (Hsame : qsent s = sent_by this -> open_frame pre ps [] (set_stream this s)).
  { intros Hs. unfold open_frame. cbn [set_stream ms_write]. fold w. fold hdr. split_and!; try done; try lia.
    unfold sent_by in *. cbn. by rewrite Hs, Hsent. }
  destruct r as [[n|e|]|].
  - destruct (q_poll_write_ok _ _ _ _ Hw) as [Hn Hs]. destruct (Z.eqb_spec n 0) as [->|Hn0].
    { split; [apply Hsame; rewrite Hs; unfold ztake; cbn; by rewrite app_nil_r|]. by split_and!. }
    pose proof (header_short (zlen (@nil byte) + ws_remaining w)) as H9. fold hdr in H9.
    rewrite zlen_slice in Hn by lia.
    assert (Hu : as_u8 (ws_header_sent w + as_u8 n) = ws_header_sent w + n)
      by (unfold as_u8, u8_max; rewrite (Z.mod_small n), Z.mod_small by lia; done).
    rewrite Hu. apply IH; [|done|cbn; lia]. unfold open_frame. cbn. fold w. fold hdr. split_and!; try done; try lia.
    unfold sent_by in *. cbn. rewrite Hs, Hsent, app_nil_r, <- !app_assoc. do 2 f_equal.
    assert (Hsl : slice (ws_header_sent w) (ws_header_len w) (ws_header w) = zdrop (ws_header_sent w) hdr)
      by (unfold slice; rewrite <- Hht, zdrop_ztake by lia; done).
    rewrite Hsl, app_nil_r. apply ztake_more; lia.
  - destruct (q_poll_write_fail _ _ _ _ Hw) as [_ Hs]; [done|]. by split_and!; [apply Hsame|..].
  - by destruct (q_poll_write_fail _ _ _ _ Hw) as [? _].
  - destruct (q_poll_write_fail _ _ _ _ Hw) as [_ Hs]; [done|]. by split_and!; [apply Hsame|..].
Qed.

(** The bytes of its buffer that a poll accepted. *)
Definition accepted (r : Poll (Res IoError Z)) (buf : bytes) : bytes :=
  match r with Ready (Ok n) => ztake n buf | _ => [] end.

Lemma announce_ok pre acc buf this :
  write_inv pre acc this -> buf <> [] ->
  exists this' ps cur, announce buf this = Ok this' /\ Forall small ps /\ acc = concat ps ++ cur /\
    zlen (ws_header (ms_write this')) = 16 /\ open_frame pre ps cur this'.
Proof.
  intros (ps & cur & Hps & -> & Hh & Hcase) Hne. unfold announce. destruct Hcase as [(Hz & -> & Hs)|Ho].
  - rewrite Hz, Z.eqb_refl. assert (Hb : 0 < zlen buf) by (destruct buf; [done|]; rewrite zlen_cons; pose proof (zlen_nonneg buf); lia).
    set (len := Z.min (zlen buf) MAX_DATA_FRAME). assert (Hl : 0 < len <= MAX_DATA_FRAME) by (unfold len, MAX_DATA_FRAME; lia).
    unfold MAX_DATA_FRAME in Hl. pose proof (varint_len_bound len).
    rewrite put_varint_slice_ok by (rewrite zlen_zdrop; lia). cbn [res_bind]. eexists _, ps, []. split; [done|].
    split; [done|]. split; [by rewrite app_nil_r|].
    assert (Hu : as_u8 (1 + varint_len len) = 1 + varint_len len) by (apply Z.mod_small; unfold u8_max; lia).
    split; [cbn; rewrite zlen_cons, zlen_app, zlen_varint, !zlen_zdrop; lia|].
    unfold open_frame. cbn. rewrite Hu. change (zlen []) with 0. rewrite Z.add_0_l.
    change (varint FRAME_DATA) with [zb FRAME_DATA]. split_and!; try done; try lia.
    + by rewrite zlen_app, zlen_varint.
    + rewrite (app_comm_cons (varint len)), ztake_app_exact; [done|]. by rewrite zlen_cons, zlen_varint.
    + rewrite ztake_neg, app_nil_r by lia. exact Hs.
  - destruct Ho as (Hr & Ho). destruct (Z.eqb_spec (ws_remaining (ms_write this)) 0); [lia|].
    exists this, ps, cur. by split_and!.
Qed.

Lemma masque_poll_write_ok pre acc buf this :
  write_inv pre acc this ->
  let '(r, this') := masque_poll_write buf this in
  r <> Ready Panic /\ write_inv pre (acc ++ accepted r buf) this'.
Proof.
  intros Hi. unfold masque_poll_write. destruct buf as [|b0 buf0].
  { split; [done|]. cbn. unfold ztake. cbn. by rewrite app_nil_r. }
  set (buf := b0 :: buf0). destruct (announce_ok pre acc buf this Hi ltac:(done)) as (t1 & ps & cur & -> & Hps & Hacc & Hh1 & Ho1).
  assert (Hkeep : forall t, open_frame pre ps cur t -> zlen (ws_header (ms_write t)) = 16 -> write_inv pre (acc ++ []) t).
  { intros t Ho Hh. exists ps, cur. rewrite app_nil_r. split_and!; try done. by right. }
  assert (Hhdr : let '(r, t2) := send_header 16 t1 in open_frame pre ps cur t2 /\ zlen (ws_header (ms_write t2)) = 16 /\
    match r with None => header_done t2 | Some r => r <> Ready Panic /\ forall n, r <> Ready (Ok n) end).
  { pose proof Ho1 as (_ & _ & Hhl & _ & Hhs & Hcur & _).
    pose proof (header_short (zlen cur + ws_remaining (ms_write t1))) as H9. rewrite <- Hhl in H9.
    destruct (decide (ws_header_sent (ms_write t1) < ws_header_len (ms_write t1))) as [Hlt|Hge].
    - rewrite (Hcur Hlt) in *. apply send_header_ok; [done|done|lia].
    - assert (Hd : header_done t1) by (unfold header_done; lia). rewrite send_header_done by done. by split_and!. }
  destruct (send_header 16 t1) as [[r|] t2]; destruct Hhdr as (Ho2 & Hh2 & Hd).
  { destruct Hd as [Hp Hno]. split; [done|]. assert (accepted r buf = []) as -> by (destruct r as [[n| |]|]; try done; by destruct (Hno n)).
    by apply Hkeep. }
  destruct Ho2 as (Hr & HL & Hhl & Hht & Hhs & _ & Hsent). unfold header_done in Hd.
  set (w := ms_write t2) in *. set (hdr := varint FRAME_DATA ++ varint (zlen cur + ws_remaining w)) in *.
  assert (Hse : ws_header_sent w = zlen hdr) by lia.
  destruct (q_poll_write _ (ms_stream t2)) as [r s] eqn:Hw.
  assert (Hsame : qsent s = sent_by t2 -> open_frame pre ps cur (set_stream t2 s)).
  { intros Hs. unfold open_frame. cbn [set_stream ms_write]. fold w. fold hdr. split_and!; try done; try lia.
    unfold sent_by in *. cbn. by rewrite Hs, Hsent. }
  destruct r as [[n|e|]|].
  - destruct (q_poll_write_ok _ _ _ _ Hw) as [Hn Hs]. destruct (Z.eqb_spec n 0) as [->|Hn0].
    { split; [done|]. apply Hkeep; [|done]. apply Hsame. rewrite Hs. unfold ztake at 1. cbn. by rewrite app_nil_r. }
    split; [done|]. cbn [accepted]. rewrite zlen_ztake in Hn.
    pose proof (zlen_nonneg cur). assert (Hn' : 0 < n <= ws_remaining w /\ n <= zlen buf) by lia.
    rewrite ztake_ztake in Hs by lia. assert (Hcl : zlen (cur ++ ztake n buf) = zlen cur + n) by (rewrite zlen_app, zlen_ztake; lia).
    assert (Hsn : qsent s = pre ++ data_frames ps ++ hdr ++ (cur ++ ztake n buf)).
    { rewrite Hs. change (qsent (ms_stream t2)) with (sent_by t2). rewrite Hsent, Hse, (ztake_all _ hdr) by lia. by rewrite <- !app_assoc. }
    destruct (decide (n = ws_remaining w)) as [->|Hlt].
    + exists (ps ++ [cur ++ ztake (ws_remaining w) buf]), []. split; [apply Forall_app; split; [done|]; repeat constructor; unfold small; lia|].
      split; [rewrite Hacc, concat_app; cbn; rewrite !app_nil_r; by rewrite <- app_assoc|]. split; [done|]. left. cbn.
      split; [lia|]. split; [done|]. unfold sent_by. cbn. rewrite Hsn. unfold data_frames. rewrite map_app, concat_app. cbn.
      rewrite app_nil_r. unfold frame_bytes. rewrite Hcl. unfold hdr. by rewrite <- !app_assoc.
    + exists ps, (cur ++ ztake n buf). split; [done|]. split; [rewrite Hacc; by rewrite <- app_assoc|]. split; [done|]. right.
      unfold open_frame. cbn. rewrite Hcl. replace (zlen cur + n + (ws_remaining w - n)) with (zlen cur + ws_remaining w) by lia.
      fold hdr. split_and!; try done; try lia. unfold sent_by. cbn. by rewrite Hsn, Hse, (ztake_all _ hdr) by lia.
  - destruct (q_poll_write_fail _ _ _ _ Hw) as [_ Hs]; [done|]. split; [done|]. apply Hkeep; [by apply Hsame|done].
  - by destruct (q_poll_write_fail _ _ _ _ Hw) as [? _].
  - destruct (q_poll_write_fail _ _ _ _ Hw) as [_ Hs]; [done|]. split; [done|]. apply Hkeep; [by apply Hsame|done].
Qed.

(** The bytes accepted by polls with the buffers [bufs], and whether none panicked. *)
Fixpoint poll_writes (bufs : list bytes) this : bytes * bool * MasqueSend :=
  match bufs with
  | [] => ([], true, this)
  | buf :: bufs =>
      let '(r, this) := masque_poll_write buf this in
      let '(acc, ok, this) := poll_writes bufs this in
      (accepted r buf ++ acc, match r with Ready Panic => false | _ => ok end, this)
  end.

Lemma poll_writes_ok pre acc bufs this :
  write_inv pre acc this ->
  exists more this', poll_writes bufs this = (more, true, this') /\ write_inv pre (acc ++ more) this'.
Proof.
  revert acc this. induction bufs as [|buf bufs IH]; intros acc this Hi; cbn [poll_writes].
  { exists [], this. by rewrite app_nil_r. }
  pose proof (masque_poll_write_ok pre acc buf this Hi) as Hw. destruct (masque_poll_write buf this) as [r t].
  destruct Hw as [Hp Hi']. destruct (IH _ _ Hi') as (more & t' & -> & Hi2). exists (accepted r buf ++ more), t'.
  split; [by destruct r as [[| |]|]|]. by rewrite app_assoc.
Qed.

(** What is on the stream in any state of the writer carries what it accepted. *)
Lemma write_inv_data acc this : write_inv [] acc this -> stream_data (sent_by this) = acc.
Proof.
  intros (ps & cur & Hps & -> & _ & [(_ & -> & ->)|(Hr & HL & Hhl & _ & Hhs & Hcur & ->)]); cbn [app].
  - pose proof (stream_data_frames ps [] Hps) as H. by rewrite !app_nil_r in *.
  - set (w := ms_write this) in *. rewrite stream_data_frames by done. f_equal.
    set (p := cur ++ zrep (ws_remaining w) Byte.x00). pose proof (zlen_nonneg cur).
    assert (Hp : zlen p = zlen cur + ws_remaining w) by (unfold p; rewrite zlen_app, zlen_zrep; lia).
    set (hdr := varint FRAME_DATA ++ varint (zlen cur + ws_remaining w)) in *.
    assert (Hf : frame_bytes FRAME_DATA p = hdr ++ p) by (unfold frame_bytes, hdr; by rewrite Hp, <- app_assoc).
    assert (Hz : zlen hdr = 1 + varint_len (zlen p)) by (unfold hdr; by rewrite zlen_app, !zlen_varint, Hp).
    pose proof (stream_data_cut p (ws_header_sent w + zlen cur) ltac:(unfold small; lia) ltac:(lia)
      ltac:(rewrite Hf, zlen_app; lia)) as Hcut.
    destruct (decide (ws_header_sent w < ws_header_len w)) as [Hlt|Hge].
    + rewrite (Hcur Hlt) in *. change (zlen []) with 0 in Hcut. rewrite Z.add_0_r in Hcut.
      rewrite app_nil_r. rewrite Hf, ztake_app_le in Hcut by lia. rewrite Hcut, ztake_neg by lia. done.
    + assert (ws_header_sent w = zlen hdr) as Hse by lia. rewrite Hse in *. rewrite ztake_all by lia.
      rewrite Hf, ztake_app_ge in Hcut by lia. replace (zlen hdr + zlen cur - zlen hdr) with (zlen cur) in Hcut by lia.
      replace (zlen hdr + zlen cur - (1 + varint_len (zlen p))) with (zlen cur) in Hcut by lia.
      unfold p in Hcut. rewrite ztake_app_exact in Hcut by done. exact Hcut.
Qed.
End send_proofs.

(** *** Reading *)

Definition calm (rd : list ReadEvent) : Prop := Forall (fun e => match e with RdError _ => False | _ => True end) rd.

Definition work (rd : list ReadEvent) : Z :=
  foldr (fun e n => (match e with RdData d => 1 + zlen d | _ => 1 end) + n) 0 rd.

(** A read of a stream without errors: what it takes and what is left. *)
Lemma poll_read_calm limit rd :
  0 < limit -> calm rd ->
  match poll_read limit rd with
  | (Ready (Ok d), rd') => calm rd' /\ zlen d <= limit /\ input rd = d ++ input rd' /\ (d = [] -> input rd = []) /\
      (d <> [] -> RdData [] ∈ rd -> RdData [] ∈ rd' /\ work rd' + zlen d <= work rd)
  | (Pending, rd') => calm rd' /\ input rd' = input rd /\ (RdData [] ∈ rd -> RdData [] ∈ rd' /\ work rd' < work rd)
  | _ => False
  end.
Proof.
  intros Hl Hc. pose proof (poll_read_input limit rd Hl) as Hi. destruct rd as [|[d| |e] rd]; cbn [poll_read] in *.
  - split; [done|]. split; [done|]. intros H. by apply elem_of_nil in H.
  - apply Forall_cons in Hc as [_ Hc]. destruct (Z.leb_spec (zlen d) limit) as [Hle|Hgt].
    + destruct Hi as (H1 & H2 & H3). destruct d as [|x d]; [split_and!; try done; by constructor|].
      split_and!; try done. intros _ Hin. apply elem_of_cons in Hin as [[=]|Hin]. split; [done|]. cbn [work foldr]. fold (work rd). lia.
    + destruct Hi as (H1 & H2 & H3). split; [by constructor|]. split_and!; try done. intros _ Hin.
      destruct d as [|x d]; [rewrite zlen_nil in *; lia|]. apply elem_of_cons in Hin as [[=]|Hin].
      split; [by right|]. cbn [work foldr]. fold (work rd). rewrite zlen_ztake, zlen_zdrop in *. lia.
  - apply Forall_cons in Hc as [_ Hc]. split; [done|]. split; [done|]. intros Hin. apply elem_of_cons in Hin as [[=]|Hin].
    split; [done|]. cbn [work foldr]. fold (work rd). lia.
  - apply Forall_cons in Hc as [[] _].
Qed.

#[local] Arguments work : simpl never.
#[local] Arguments input : simpl never.

(** The bytes that are not parsed yet, and the data the caller will get. *)
Definition raw (this : MasqueRecv) : bytes := mr_header this ++ input (mr_stream this).
Definition data_left (this : MasqueRecv) : bytes :=
  mr_pending this ++ ztake (mr_remaining this) (raw this) ++ stream_data (zdrop (mr_remaining this) (raw this)).

(** Whole DATA frames, then the first [k] bytes of another. *)
Definition data_stream (k : Z) (buf : bytes) : Prop :=
  exists ps p, Forall small ps /\ small p /\ 0 <= k < zlen (frame_bytes FRAME_DATA p) /\
    buf = data_frames ps ++ ztake k (frame_bytes FRAME_DATA p).

Record recv_inv (k : Z) (this : MasqueRecv) : Prop := {
  ri_discard : mr_discard this = false;
  ri_calm : calm (mr_stream this);
  ri_remaining : 0 <= mr_remaining this;
  ri_header : 0 < mr_remaining this -> mr_header this = [];
  ri_eof : mr_eof this = true -> input (mr_stream this) = [];
  ri_rest : (mr_remaining this <= zlen (raw this) /\ data_stream k (zdrop (mr_remaining this) (raw this))) \/
            (zlen (raw this) < mr_remaining this /\ 0 < k)
}.

Definition ends (this : MasqueRecv) : Prop := RdData [] ∈ mr_stream this.
Definition budget (this : MasqueRecv) : Z := zlen (mr_pending this) + zlen (mr_header this) + work (mr_stream this).

Definition recv_step (k : Z) (r : option (Poll (Res IoError bytes))) (this this' : MasqueRecv) : Prop :=
  match r with
  | None => data_left this' = data_left this /\ recv_measure this' < recv_measure this /\
      (ends this -> ends this' /\ budget this' <= budget this)
  | Some (Ready (Ok [])) => data_left this = [] /\ k = 0
  | Some (Ready (Ok d)) => data_left this = d ++ data_left this' /\ (ends this -> ends this' /\ budget this' < budget this)
  | Some (Ready (Err e)) => e = unexpected_eof /\ data_left this = [] /\ 0 < k
  | Some (Ready Panic) => False
  | Some Pending => data_left this' = data_left this /\ (ends this -> ends this' /\ budget this' < budget this)
  end.

Lemma recv_pending k limit this :
  0 < limit -> recv_inv k this -> mr_pending this <> [] ->
  let '(r, this') := recv_round limit this in recv_inv k this' /\ recv_step k r this this'.
Proof.
  intros Hl Hi Hne. unfold recv_round. destruct (Z.eqb_spec limit 0); [lia|].
  destruct (mr_pending this) as [|x l] eqn:Hp; [done|]. pose proof Hi as [H1 H2 H3 H4 H5 H6]. split; [by constructor|].
  set (m := Z.min (zlen (x :: l)) limit). assert (Hn : 0 < m <= zlen (x :: l)) by (unfold m; rewrite zlen_cons in *; pose proof (zlen_nonneg l); lia).
  unfold recv_step. destruct (ztake m (x :: l)) as [|y d] eqn:E.
  { apply (f_equal zlen) in E. rewrite zlen_ztake in E. change (zlen []) with 0 in E. lia. }
  rewrite <- E. unfold data_left, ends, budget, raw. cbn. rewrite Hp. split; [by rewrite (app_assoc (ztake m (x :: l))), ztake_zdrop|].
  intros He. split; [done|]. rewrite zlen_zdrop. lia.
Qed.

Lemma recv_payload k limit this :
  0 < limit -> recv_inv k this -> mr_pending this = [] -> 0 < mr_remaining this ->
  let '(r, this') := recv_round limit this in recv_inv k this' /\ recv_step k r this this'.
Proof.
  intros Hl [H1 H2 H3 H4 H5 H6] Hp Hr. unfold recv_round. destruct (Z.eqb_spec limit 0); [lia|]. rewrite Hp, H1.
  specialize (H4 Hr). destruct (Z.ltb_spec 0 (mr_remaining this)); [|lia]. unfold raw in H6. rewrite H4 in *. cbn [app] in *.
  pose proof (poll_read_calm (Z.min (mr_remaining this) limit) (mr_stream this) ltac:(lia) H2) as Hrd.
  destruct (poll_read _ (mr_stream this)) as [[[d|e|]|] s]; [..|]; try done.
  - destruct Hrd as (Hc & Hd & Hin & Hnil & Hw). destruct (Z.eqb_spec (zlen d) 0) as [Hz|Hz].
    + apply zlen_0_nil in Hz as ->. rewrite (Hnil eq_refl) in *. cbn [app] in Hin. rewrite zlen_nil in H6.
      split; [constructor; cbn; try done; unfold raw; cbn; rewrite <- Hin; done|]. cbn. split; [done|].
      unfold data_left, raw. rewrite Hp, H4, (Hnil eq_refl). destruct H6 as [[? _]|[_ Hk]]; [lia|].
      split; [|done]. cbn [app]. by rewrite ztake_all, zdrop_all by (change (zlen (@nil byte)) with 0; lia).
    + rewrite Hin in H6. pose proof (zlen_nonneg d). rewrite zlen_app in H6.
      assert (Hdrop : zdrop (mr_remaining this) (d ++ input s) = zdrop (mr_remaining this - zlen d) (input s)) by (apply zdrop_app_ge; lia).
      split.
      * constructor; cbn; try done; [lia|intros He; specialize (H5 He); rewrite H5 in Hin; by destruct d|]. unfold raw. cbn.
        rewrite <- Hdrop. destruct H6 as [[? ?]|[? ?]]; [left; split; [lia|done]|right; split; [lia|done]].
      * unfold recv_step. destruct d as [|x d]; [done|]. split.
        -- unfold data_left, raw. cbn [mr_pending mr_remaining mr_header mr_stream]. rewrite Hp, H4. cbn [app]. rewrite Hin.
           rewrite Hdrop. rewrite ztake_app_ge by lia. by rewrite <- app_assoc.
        -- unfold ends, budget. cbn. rewrite Hp, H4. intros He. destruct (Hw ltac:(done) He). split; [done|]. rewrite zlen_cons in *. lia.
  - destruct Hrd as (Hc & Hin & Hw). split.
    + constructor; cbn; try done; [intros He; by rewrite Hin, (H5 He)|]. unfold raw. cbn. by rewrite Hin.
    + unfold recv_step, data_left, raw, ends, budget. cbn. rewrite Hp, H4, Hin. split; [done|]. intros He. destruct (Hw He). split; [done|]. lia.
Qed.

Definition header_len (payload : bytes) : Z := 1 + varint_len (zlen payload).

Lemma zlen_data_frame q : zlen (frame_bytes FRAME_DATA q) = header_len q + zlen q.
Proof. by rewrite zlen_frame. Qed.

(** The first frame of a stream of DATA frames is whole, or cut off. *)
Lemma data_stream_head k buf :
  data_stream k buf -> exists q, small q /\
    ((exists rest, buf = frame_bytes FRAME_DATA q ++ rest /\ data_stream k rest) \/
     (buf = ztake k (frame_bytes FRAME_DATA q) /\ 0 <= k < zlen (frame_bytes FRAME_DATA q))).
Proof.
  intros ([|q ps] & p & Hps & Hp & Hk & ->).
  - exists p. split; [done|]. by right.
  - apply Forall_cons in Hps as [Hq Hps]. exists q. split; [done|]. left.
    exists (data_frames ps ++ ztake k (frame_bytes FRAME_DATA p)). split; [unfold data_frames; cbn; by rewrite <- app_assoc|].
    by exists ps, p.
Qed.

(** How the header buffer of such a stream parses: [h] is what is buffered,
    [more] the rest of the stream. *)
Lemma data_stream_header k h more :
  data_stream k (h ++ more) -> exists q, small q /\
    get_frame_header h = (if header_len q <=? zlen h then Some (FRAME_DATA, zlen q, header_len q) else None) /\
    ((exists rest, h ++ more = frame_bytes FRAME_DATA q ++ rest /\ data_stream k rest) \/
     (h ++ more = ztake k (frame_bytes FRAME_DATA q) /\ 0 <= k < zlen (frame_bytes FRAME_DATA q))).
Proof.
  intros Hd. apply data_stream_head in Hd as (q & Hq & Hcase). exists q. split; [done|]. split; [|done].
  assert (exists c y, h ++ c = frame_bytes FRAME_DATA q ++ y) as (c & y & Hc).
  { destruct Hcase as [(rest & Hb & _)|(Hb & _)]; [by eexists _, _|].
    exists (more ++ zdrop k (frame_bytes FRAME_DATA q)), []. by rewrite app_assoc, Hb, ztake_zdrop, app_nil_r. }
  pose proof (get_frame_header_frame FRAME_DATA q y ltac:(unfold FRAME_DATA; lia) Hq) as Hh. rewrite <- Hc in Hh.
  exact (get_frame_header_prefix _ _ _ _ _ Hh).
Qed.

(** A parsed header moves what is buffered of the payload to the reader. *)
Lemma recv_parse k limit this q :
  0 < limit -> recv_inv k this -> mr_pending this = [] -> mr_remaining this = 0 -> small q ->
  get_frame_header (mr_header this) = Some (FRAME_DATA, zlen q, header_len q) -> header_len q <= zlen (mr_header this) ->
  ((exists rest, raw this = frame_bytes FRAME_DATA q ++ rest /\ data_stream k rest) \/
   (raw this = ztake k (frame_bytes FRAME_DATA q) /\ 0 <= k < zlen (frame_bytes FRAME_DATA q))) ->
  let '(r, this') := recv_round limit this in recv_inv k this' /\ recv_step k r this this'.
Proof.
  intros Hl [H1 H2 H3 H4 H5 H6] Hp Hr Hq Hg Hle Hcase. unfold recv_round. destruct (Z.eqb_spec limit 0); [lia|].
  rewrite Hp, Hr, Hg. change (0 <? 0) with false. cbv iota zeta. set (h := zdrop (header_len q) (mr_header this)).
  set (take := Z.min (zlen h) (zlen q)). pose proof (zlen_nonneg h). pose proof (zlen_nonneg q).
  assert (Hpend : (if 0 <? take then ztake take h else []) = ztake take h).
  { destruct (Z.ltb_spec 0 take); [done|]. by rewrite ztake_neg. }
  assert (Hhead : (if 0 <? take then zdrop take h else h) = zdrop take h).
  { destruct (Z.ltb_spec 0 take); [done|]. unfold zdrop. by replace (Z.to_nat take) with O by lia. }
  rewrite Hpend, Hhead. change (negb (FRAME_DATA =? FRAME_DATA)) with false.
  set (this' := mkRecv _ _ _ _ _ _).
  assert (Hpl : header_len q >= 2) by (unfold header_len; pose proof (varint_len_bound (zlen q)); lia).
  assert (Hraw : zdrop (header_len q) (raw this) = ztake take h ++ raw this').
  { unfold raw, this', h. cbn. rewrite zdrop_app_le by lia. by rewrite app_assoc, ztake_zdrop. }
  assert (Hpay : forall y, zdrop (header_len q) (frame_bytes FRAME_DATA q ++ y) = q ++ y) by (intros y; apply (frame_payload FRAME_DATA)).
  assert (Htl : zlen (ztake take h) = take) by (rewrite zlen_ztake; lia).
  assert (Hhd : 0 < zlen q - take -> zdrop take h = []) by (intros; apply zdrop_all; lia).
  assert (Hdl : data_left this' = ztake take h ++ ztake (zlen q - take) (raw this') ++ stream_data (zdrop (zlen q - take) (raw this')))
    by reflexivity.
  assert (Hstep : data_left this' = stream_data (raw this) /\ recv_inv k this').
  { destruct Hcase as [(rest & Hb & Hrest)|(Hb & Hk)].
    - rewrite Hb, Hpay in Hraw. assert (Hsplit : q = ztake take h ++ ztake (zlen q - take) (raw this') /\ rest = zdrop (zlen q - take) (raw this')).
      { assert (Hq1 : ztake (zlen q) (q ++ rest) = q) by (by apply ztake_app_exact).
        assert (Hq2 : zdrop (zlen q) (q ++ rest) = rest) by (by apply zdrop_app_exact).
        rewrite Hraw in Hq1, Hq2. rewrite ztake_app_ge, Htl in Hq1 by lia. rewrite zdrop_app_ge, Htl in Hq2 by lia. done. }
      destruct Hsplit as [Hsq Hsr]. split.
      + rewrite Hdl, <- Hsr, app_assoc, <- Hsq, Hb, stream_data_step by (try done; unfold FRAME_DATA; lia).
        done.
      + constructor; cbn; try done; [lia|]. left. split; [|rewrite Hsr in Hrest; exact Hrest].
        change (zlen q - take <= zlen (raw this')).
        apply (f_equal zlen) in Hsq. rewrite zlen_app, Htl, zlen_ztake in Hsq. lia.
    - assert (Hz : zlen (raw this) = k) by (rewrite Hb, zlen_ztake; lia).
      assert (Hcut : zdrop (header_len q) (raw this) = ztake (k - header_len q) q).
      { rewrite Hb, zdrop_ztake by lia. f_equal. rewrite <- (app_nil_r (frame_bytes _ _)), Hpay. apply app_nil_r. }
      rewrite zlen_data_frame in Hk. assert (Hhk : header_len q <= k).
      { unfold raw in Hz. rewrite zlen_app in Hz. pose proof (zlen_nonneg (input (mr_stream this))). lia. }
      assert (Hlen : zlen (raw this') = k - header_len q - take).
      { apply (f_equal zlen) in Hraw. rewrite Hcut, zlen_app, Htl, zlen_ztake in Hraw. lia. }
      split.
      + rewrite Hdl, (ztake_all _ (raw this')), zdrop_all by lia.
        change (stream_data []) with (@nil byte). rewrite app_nil_r, <- Hraw, Hcut, Hb. symmetry. apply stream_data_cut; [done|lia|]. rewrite zlen_data_frame. lia.
      + constructor; cbn; try done; [lia|]. right. change (zlen (raw this') < zlen q - take /\ 0 < k). lia. }
  destruct Hstep as [Hdata Hinv]. split; [done|]. cbn [recv_step]. split; [|split].
  - rewrite Hdata. unfold data_left at 1. rewrite Hp, Hr, ztake_0, zdrop_0. done.
  - unfold recv_measure, this'. cbn. rewrite !zlen_zdrop. unfold h in *. rewrite zlen_zdrop in *. lia.
  - unfold ends, budget, this'. cbn. intros He. split; [done|]. rewrite Htl, Hp. change (zlen []) with 0.
    rewrite zlen_zdrop. assert (zlen h <= zlen (mr_header this)) by (unfold h; rewrite zlen_zdrop; lia). lia.
Qed.

(** A header that is not complete is read on; a stream that ended leaves none,
    or was cut off inside one. *)
Lemma recv_read k limit this q :
  0 < limit -> recv_inv k this -> mr_pending this = [] -> mr_remaining this = 0 -> small q ->
  get_frame_header (mr_header this) = None -> zlen (mr_header this) < header_len q ->
  ((exists rest, raw this = frame_bytes FRAME_DATA q ++ rest /\ data_stream k rest) \/
   (raw this = ztake k (frame_bytes FRAME_DATA q) /\ 0 <= k < zlen (frame_bytes FRAME_DATA q))) ->
  let '(r, this') := recv_round limit this in recv_inv k this' /\ recv_step k r this this'.
Proof.
  intros Hl Hi Hp Hr Hq Hg Hlt Hcase. pose proof Hi as [H1 H2 H3 H4 H5 H6]. unfold recv_round. destruct (Z.eqb_spec limit 0); [lia|].
  rewrite Hp, Hr, Hg. change (0 <? 0) with false. cbv iota. rewrite Hr in H6. rewrite zdrop_0 in H6.
  assert (Hend : forall t, input (mr_stream this) = [] -> recv_step k
    (Some (match mr_header this with [] => Ready (Ok []) | _ :: _ => Ready (Err unexpected_eof) end)) this t).
  { intros t Hin. assert (Hraw : raw this = mr_header this) by (unfold raw; by rewrite Hin, app_nil_r).
    destruct Hcase as [(rest & Hb & _)|(Hb & Hk)].
    { rewrite Hraw in Hb. rewrite Hb, zlen_app, zlen_data_frame in Hlt. pose proof (zlen_nonneg rest). pose proof (zlen_nonneg q). lia. }
    assert (Hz : zlen (mr_header this) = k) by (rewrite <- Hraw, Hb, zlen_ztake; lia).
    assert (Hdata : data_left this = []).
    { unfold data_left. rewrite Hp, Hr, ztake_0, zdrop_0, Hb. cbn [app]. rewrite stream_data_cut by (done || lia).
      apply ztake_neg. unfold header_len in Hlt. lia. }
    destruct (mr_header this) as [|x l] eqn:Hh; cbn; [split; [done|by rewrite <- Hz]|].
    split; [done|]. split; [done|]. rewrite zlen_cons in Hz. pose proof (zlen_nonneg l). lia. }
  destruct (mr_eof this) eqn:He; [by split; [|apply Hend, H5]|].
  pose proof (poll_read_calm 16 (mr_stream this) ltac:(lia) H2) as Hrd.
  assert (Hext : forall s h, calm s -> h ++ input s = raw this -> recv_inv k (mkRecv s h [] 0 (mr_discard this) false) /\
    data_left (mkRecv s h [] 0 (mr_discard this) false) = data_left this).
  { intros s h Hc Hraw. split; [|unfold data_left, raw at 1 2; cbn [mr_pending mr_remaining mr_header mr_stream]; by rewrite Hraw, Hp, Hr].
    constructor; cbn; try done. unfold raw. cbn. rewrite zdrop_0, Hraw. destruct H6 as [H6|H6]; [by left|by right]. }
  destruct (poll_read 16 (mr_stream this)) as [[[d|e|]|] s]; [..|]; try done.
  - destruct Hrd as (Hc & Hd & Hin & Hnil & Hw). destruct (Z.eqb_spec (zlen d) 0) as [Hz|Hz].
    + apply zlen_0_nil in Hz as ->. specialize (Hnil eq_refl). cbn [app] in Hin.
      split; [|exact (Hend _ Hnil)]. constructor; cbn; try done; [intros _; by rewrite <- Hin|].
      unfold raw. cbn. rewrite <- Hin. fold (raw this). rewrite zdrop_0. destruct H6 as [H6|H6]; [by left|by right].
    + destruct (Hext s (mr_header this ++ d) Hc ltac:(unfold raw; by rewrite Hin, app_assoc)) as [Hi2 Hd2].
      split; [done|]. cbn [recv_step]. split; [done|]. pose proof (zlen_nonneg d). split.
      * unfold recv_measure. cbn. rewrite Hin, !zlen_app. lia.
      * unfold ends, budget. cbn. intros Hends. assert (Hne : d <> []) by (by intros ->).
        destruct (Hw Hne Hends). split; [done|]. rewrite Hp, zlen_app. change (zlen []) with 0. lia.
  - destruct Hrd as (Hc & Hin & Hw). destruct (Hext s (mr_header this) Hc ltac:(unfold raw; by rewrite Hin)) as [Hi2 Hd2].
    split; [done|]. cbn [recv_step]. split; [done|]. unfold ends, budget. cbn. intros Hends. rewrite Hp.
    destruct (Hw Hends). split; [done|]. lia.
Qed.

Lemma recv_round_ok k limit this :
  0 < limit -> recv_inv k this -> let '(r, this') := recv_round limit this in recv_inv k this' /\ recv_step k r this this'.
Proof.
  intros Hl Hi. destruct (decide (mr_pending this = [])) as [Hp|]; [|by apply recv_pending].
  pose proof (ri_remaining _ _ Hi) as H3. destruct (decide (mr_remaining this = 0)) as [Hr|]; [|apply recv_payload; try done; lia].
  pose proof (ri_rest _ _ Hi) as H6. rewrite Hr, zdrop_0 in H6. pose proof (zlen_nonneg (raw this)).
  destruct H6 as [[_ Hd]|[? _]]; [|lia].
  destruct (data_stream_header k (mr_header this) _ Hd) as (q & Hq & Hg & Hcase).
  destruct (Z.leb_spec (header_len q) (zlen (mr_header this))) as [Hle|Hgt].
  - by apply (recv_parse k limit this q).
  - by apply (recv_read k limit this q).
Qed.

Lemma recv_loop_ok k limit fuel this :
  0 < limit -> recv_inv k this -> recv_measure this < Z.of_nat fuel ->
  exists r this', recv_loop fuel limit this = Some (r, this') /\ recv_inv k this' /\ recv_step k (Some r) this this'.
Proof.
  intros Hl. revert this. induction fuel as [|fuel IH]; intros this Hi Hf.
  { unfold recv_measure in Hf. pose proof (zlen_nonneg (mr_header this)). pose proof (zlen_nonneg (input (mr_stream this))). lia. }
  cbn [recv_loop]. pose proof (recv_round_ok k limit this Hl Hi) as Hround.
  destruct (recv_round limit this) as [[r|] t]; destruct Hround as [Hi' Hs]; [by exists r, t|].
  destruct Hs as (Hd & Hm & Hb). destruct (IH t Hi' ltac:(lia)) as (r & t' & Hl' & Hi2 & Hs2). exists r, t'. split; [done|]. split; [done|].
  destruct r as [[[|x d]|e|]|]; cbn [recv_step] in *; try done; rewrite <- Hd; try done;
    destruct Hs2 as [Hs2 Hb2]; (split; [done|]); intros He; destruct (Hb He) as [He' Hle]; destruct (Hb2 He'); (split; [done|]); lia.
Qed.

Lemma masque_poll_read_ok k limit this :
  0 < limit -> recv_inv k this ->
  exists r this', masque_poll_read limit this = Some (r, this') /\ recv_inv k this' /\ recv_step k (Some r) this this'.
Proof.
  intros. apply recv_loop_ok; [done|done|]. unfold recv_measure.
  pose proof (zlen_nonneg (mr_header this)). pose proof (zlen_nonneg (input (mr_stream this))). lia.
Qed.

(** How reading ends, for a stream cut off after [k] bytes of a frame. *)
Definition ends_well (k : Z) (o : Outcome) : Prop :=
  match o with Finished => k = 0 | Failed e => e = unexpected_eof /\ 0 < k | Panicked => False | Unfinished => True end.

Lemma masque_collect_ok k limits this :
  Forall (fun l => 0 < l) limits -> recv_inv k this ->
  let '(out, o) := masque_collect limits this in
  ends_well k o /\ (exists rest, data_left this = out ++ rest /\ (o <> Unfinished -> rest = [])) /\
  (ends this -> budget this < zlen limits -> o <> Unfinished).
Proof.
  intros Hl. revert this. induction Hl as [|l limits Hpos _ IH]; intros this Hi; cbn [masque_collect].
  { split; [done|]. split; [by exists (data_left this)|]. rewrite zlen_nil. unfold budget.
    intros _ Hb. pose proof (zlen_nonneg (mr_pending this)). pose proof (zlen_nonneg (mr_header this)).
    assert (0 <= work (mr_stream this)); [|lia]. unfold work. clear. induction (mr_stream this) as [|e s IH]; [done|]. cbn [foldr].
    destruct e as [d| |]; [pose proof (zlen_nonneg d)|..]; lia. }
  destruct (masque_poll_read_ok k l this Hpos Hi) as (r & t & -> & Hi' & Hs). rewrite zlen_cons.
  destruct r as [[[|x d]|e|]|]; cbn [recv_step] in Hs; try done.
  - destruct Hs as [Hd ->]. split; [done|]. split; [by exists []|done].
  - destruct Hs as [Hd Hb]. specialize (IH t Hi'). destruct (masque_collect limits t) as [out o]. destruct IH as (He & (rest & Hr & Hz) & Hlive).
    split; [done|]. split; [exists rest; split; [rewrite Hd, Hr; by rewrite <- app_assoc|done]|].
    intros Hends Hlt. destruct (Hb Hends) as [He' Hb']. apply Hlive; [done|lia].
  - destruct Hs as (-> & Hd & Hk). split; [done|]. split; [by exists []|done].
  - destruct Hs as [Hd Hb]. specialize (IH t Hi'). destruct (masque_collect limits t) as [out o]. destruct IH as (He & (rest & Hr & Hz) & Hlive).
    split; [done|]. split; [exists rest; split; [by rewrite <- Hd|done]|].
    intros Hends Hlt. destruct (Hb Hends) as [He' Hb']. apply Hlive; [done|lia].
Qed.

(** *** The response head *)

Definition frames_bytes (frames : list (Z * bytes)) : bytes := concat (map (fun f => frame_bytes (fst f) (snd f)) frames).

(** A frame that fits the head buffer, other than the response itself. *)
Definition skipped_frame (f : Z * bytes) : Prop :=
  0 <= fst f < 2 ^ 62 /\ fst f <> FRAME_HEADERS /\ zlen (frame_bytes (fst f) (snd f)) <= MAX_RESPONSE_HEAD_BUFFER.

(** What the inner loop does at the first frame: the frame is not complete and
    what is buffered is kept, or it is taken off. *)
Lemma head_frame ty payload buf more rest :
  0 <= ty < 2 ^ 62 -> zlen (frame_bytes ty payload) <= MAX_RESPONSE_HEAD_BUFFER ->
  buf ++ more = frame_bytes ty payload ++ rest ->
  (zlen buf < zlen (frame_bytes ty payload) /\ more <> [] /\ forall fuel authority, scan_head (S fuel) authority buf = Some (Ok (inr buf))) \/
  (exists left, buf = frame_bytes ty payload ++ left /\ left ++ more = rest /\ left = zdrop (zlen (frame_bytes ty payload)) buf /\
    forall fuel authority, scan_head (S fuel) authority buf =
      if ty =? FRAME_HEADERS then
        match decode_status payload with
        | Some (Ok status) => Some (Ok (inl (status, left)))
        | Some (Err e) => Some (Err ("warp: unusable CONNECT response for " +:+ authority +:+ ": " +:+ e))
        | _ => Some Panic
        end
      else scan_head fuel authority left).
Proof.
  intros Hty Hmax Hbuf. pose proof (zlen_frame ty payload) as Hlen. pose proof (zlen_nonneg payload). unfold MAX_RESPONSE_HEAD_BUFFER in Hmax.
  pose proof (varint_len_bound ty). pose proof (varint_len_bound (zlen payload)).
  pose proof (get_frame_header_frame ty payload rest Hty ltac:(unfold small; lia)) as Hh.
  rewrite <- Hbuf in Hh. apply get_frame_header_prefix in Hh. set (used := varint_len ty + varint_len (zlen payload)) in *.
  assert (Hadd : checked_add64 used (zlen payload) = Some (zlen (frame_bytes ty payload))).
  { unfold checked_add64. destruct (Z.ltb_spec (used + zlen payload) u64_max); [by rewrite Hlen|unfold u64_max in *; lia]. }
  destruct (decide (zlen buf < zlen (frame_bytes ty payload))) as [Hlt|Hge].
  - left. split; [done|]. split.
    { intros ->. apply (f_equal zlen) in Hbuf. rewrite !zlen_app in Hbuf. change (zlen []) with 0 in Hbuf. pose proof (zlen_nonneg rest). lia. }
    intros fuel authority. cbn [scan_head]. rewrite Hh. destruct (used <=? zlen buf); [|done]. rewrite Hadd.
    destruct (Z.ltb_spec (zlen buf) (zlen (frame_bytes ty payload))); [|lia].
    destruct (Z.ltb_spec MAX_RESPONSE_HEAD_BUFFER (zlen (frame_bytes ty payload))); [unfold MAX_RESPONSE_HEAD_BUFFER in *; lia|done].
  - right. set (left := zdrop (zlen (frame_bytes ty payload)) buf).
    assert (Hb : buf = frame_bytes ty payload ++ left).
    { rewrite <- (ztake_zdrop (zlen (frame_bytes ty payload)) buf) at 1. fold left. f_equal.
      rewrite <- (ztake_app_le _ buf more) by lia. rewrite Hbuf. by apply ztake_app_exact. }
    exists left. split; [done|]. split; [|split; [done|]].
    { rewrite Hb, <- app_assoc in Hbuf. by apply app_inv_head in Hbuf. }
    intros fuel authority. cbn [scan_head]. rewrite Hh. destruct (Z.leb_spec used (zlen buf)); [|lia]. rewrite Hadd.
    destruct (Z.ltb_spec (zlen buf) (zlen (frame_bytes ty payload))); [lia|]. fold left.
    destruct (ty =? FRAME_HEADERS); [|done].
    assert (slice used (zlen (frame_bytes ty payload)) buf = payload) as ->; [|done].
    rewrite Hb. unfold frame_bytes at 2. rewrite (app_assoc (varint ty)), <- !app_assoc, (app_assoc (varint ty)).
    apply slice_middle; rewrite zlen_app, !zlen_varint; [done|]. rewrite Hlen. unfold used. lia.
Qed.

Section head.
Variables (authority : string) (block rest : bytes) (status : Z).
Hypothesis (Hblock : zlen (frame_bytes FRAME_HEADERS block) <= MAX_RESPONSE_HEAD_BUFFER)
  (Hstatus : decode_status block = Some (Ok status)).

Lemma scan_head_ok fuel : forall buf more frames,
  (length buf < fuel)%nat -> Forall skipped_frame frames ->
  buf ++ more = frames_bytes frames ++ frame_bytes FRAME_HEADERS block ++ rest ->
  (exists left, scan_head fuel authority buf = Some (Ok (inl (status, left))) /\ left ++ more = rest) \/
  (exists buf' frames', scan_head fuel authority buf = Some (Ok (inr buf')) /\ Forall skipped_frame frames' /\ more <> [] /\
    zlen buf' <= MAX_RESPONSE_HEAD_BUFFER /\ buf' ++ more = frames_bytes frames' ++ frame_bytes FRAME_HEADERS block ++ rest).
Proof.
  induction fuel as [|fuel IH]; intros buf more frames Hf Hfr Hbuf; [lia|].
  destruct Hfr as [|[ty payload] frames (Hty & Hne & Hmax) Hfr].
  - cbn [frames_bytes map concat app] in Hbuf.
    destruct (head_frame FRAME_HEADERS block buf more rest ltac:(unfold FRAME_HEADERS; lia) Hblock Hbuf)
      as [(Hlt & Hm & Hs)|(left & Hb & Hl & _ & Hs)]; rewrite Hs.
    + right. exists buf, []. split_and!; try done. lia.
    + left. exists left. change (FRAME_HEADERS =? FRAME_HEADERS) with true. by rewrite Hstatus.
  - cbn [fst snd] in *. unfold frames_bytes in Hbuf. cbn [map concat fst snd] in Hbuf. rewrite <- app_assoc in Hbuf.
    destruct (head_frame ty payload buf more _ Hty Hmax Hbuf) as [(Hlt & Hm & Hs)|(left & Hb & Hl & _ & Hs)]; rewrite Hs.
    + right. exists buf, ((ty, payload) :: frames). split; [done|]. split; [by constructor|]. split; [done|]. split; [lia|].
      unfold frames_bytes. cbn [map concat fst snd]. by rewrite <- app_assoc.
    + destruct (Z.eqb_spec ty FRAME_HEADERS); [done|]. apply (IH left more frames); [|done|exact Hl].
      rewrite Hb, length_app in Hf. pose proof (zlen_frame ty payload). pose proof (varint_len_bound ty).
      pose proof (varint_len_bound (zlen payload)). unfold zlen in *. lia.
Qed.

Lemma await_read_ok limit rd :
  0 < limit -> calm rd -> input rd <> [] ->
  exists d rd', await_read limit rd = Some (Ok d, rd') /\ d <> [] /\ calm rd' /\ input rd = d ++ input rd' /\
    (RdData [] ∈ rd -> RdData [] ∈ rd').
Proof.
  intros Hl. induction rd as [|e rd IH]; intros Hc Hne; [done|]. destruct e as [d| |e].
  - pose proof (poll_read_calm limit (RdData d :: rd) Hl Hc) as Hr. cbn [await_read].
    destruct (poll_read limit (RdData d :: rd)) as [[[x|e|]|] rd'] eqn:E; try done.
    + destruct Hr as (Hc' & _ & Hi & Hz & Hw). exists x, rd'. assert (x <> []) by (intros ->; by apply Hne, Hz).
      split_and!; try done. intros Hin. by apply Hw.
    + cbn [poll_read] in E. by destruct (zlen d <=? limit).
  - apply Forall_cons in Hc as [_ Hc]. cbn [await_read]. destruct (IH Hc Hne) as (d & rd' & ? & ? & ? & ? & Hw).
    exists d, rd'. split_and!; try done. intros Hin. apply elem_of_cons in Hin as [[=]|Hin]. by apply Hw.
  - by apply Forall_cons in Hc as [[] _].
Qed.

Lemma head_loop_ok fuel : forall buf rd frames,
  (length (input rd) < fuel)%nat -> calm rd -> Forall skipped_frame frames ->
  buf ++ input rd = frames_bytes frames ++ frame_bytes FRAME_HEADERS block ++ rest ->
  exists left rd', head_loop fuel authority buf rd = Some (Some (Ok (status, left)), rd') /\ calm rd' /\
    left ++ input rd' = rest /\ (RdData [] ∈ rd -> RdData [] ∈ rd').
Proof.
  induction fuel as [|fuel IH]; intros buf rd frames Hf Hc Hfr Hbuf; [lia|]. cbn [head_loop].
  destruct (scan_head_ok (S (length buf)) buf (input rd) frames ltac:(lia) Hfr Hbuf)
    as [(left & -> & Hl)|(buf' & frames' & -> & Hfr' & Hm & Hmax & Hbuf')].
  - by exists left, rd.
  - destruct (Z.ltb_spec MAX_RESPONSE_HEAD_BUFFER (zlen buf')); [lia|].
    destruct (await_read_ok 4096 rd ltac:(lia) Hc Hm) as (d & rd' & -> & Hne & Hc' & Hi & Hends).
    rewrite Hi in Hbuf', Hf. destruct d as [|x d]; [done|].
    destruct (IH (buf' ++ x :: d) rd' frames') as (left & rd2 & ? & ? & ? & ?); try done.
    + rewrite length_app in Hf. cbn in Hf. lia.
    + by rewrite <- app_assoc.
    + exists left, rd2. split_and!; try done. intros Hin. auto.
Qed.
End head.

(** ** Properties *)

(** Runs of frames written one after the other, until one fails. *)
Fixpoint write_calls `{Q : QuicSend} (calls : list (list bytes)) (this : MasqueSend) : option (option (Res IoError unit) * MasqueSend) :=
  match calls with
  | [] => Some (Some (Ok tt), this)
  | frames :: calls =>
      '(r, this) ← masque_write_frames frames this;
      match r with Some (Ok _) => write_calls calls this | r => Some (r, this) end
  end.

Lemma small_parts frames : zlen (concat frames) < 2 ^ 62 -> Forall small frames.
Proof.
  induction frames as [|f frames IH]; intros H; constructor; cbn [concat] in H; rewrite zlen_app in H;
    pose proof (zlen_nonneg f); pose proof (zlen_nonneg (concat frames)); [unfold small; lia|apply IH; lia].
Qed.

Lemma write_calls_ok `{Q : QuicSend} {QL : QuicSendLaws Q} calls this :
  small (concat (concat calls)) ->
  exists r this' payloads, write_calls calls this = Some (r, this') /\ r <> Some Panic /\
    concat payloads = concat (concat calls) /\ Forall small payloads /\
    sent_prefix (sent_by this) (data_frames payloads) (sent_by this') /\
    (r = Some (Ok tt) -> sent_by this' = sent_by this ++ data_frames payloads).
Proof.
  revert this. induction calls as [|frames calls IH]; intros this Hs.
  { exists (Some (Ok tt)), this, []. split_and!; [done..|apply sent_prefix_none|by rewrite app_nil_r]. }
  cbn [concat write_calls] in *. rewrite concat_app in *. unfold small in Hs. rewrite zlen_app in Hs.
  pose proof (zlen_nonneg (concat frames)). pose proof (zlen_nonneg (concat (concat calls))).
  destruct (write_frames_loop_ok (length frames) frames this ltac:(lia) ltac:(apply small_parts; lia))
    as (r1 & t1 & ps1 & Hl & Hp1 & Hc1 & Hs1 & Hpre1 & Hok1). unfold masque_write_frames. rewrite Hl. cbn [mbind option_bind].
  destruct (IH t1 ltac:(unfold small; lia)) as (r & t & ps & Hw & Hp & Hc & Hsm & Hpre & Hok).
  assert (Hstop : r1 <> Some (Ok tt) -> exists r this' payloads, Some (r1, t1) = Some (r, this') /\ r <> Some Panic /\
    concat payloads = concat frames ++ concat (concat calls) /\ Forall small payloads /\
    sent_prefix (sent_by this) (data_frames payloads) (sent_by this') /\
    (r = Some (Ok tt) -> sent_by this' = sent_by this ++ data_frames payloads)).
  { intros Hno. exists r1, t1, (ps1 ++ ps). split; [done|]. split; [done|]. split; [by rewrite concat_app, Hc1, Hc|].
    split; [by apply Forall_app|]. split; [|done]. eapply sent_prefix_weaken; [exact Hpre1|].
    unfold data_frames. rewrite map_app, concat_app. by eexists. }
  destruct r1 as [[[]|e|]|]; try (by apply Hstop). destruct (Hok1 eq_refl) as [Hsent _]. rewrite Hsent in *.
  exists r, t, (ps1 ++ ps). split; [done|]. split; [done|]. split; [by rewrite concat_app, Hc1, Hc|].
  split; [by apply Forall_app|]. unfold data_frames in *. rewrite map_app, concat_app.
  split; [by apply sent_prefix_app|]. intros Hr. by rewrite (Hok Hr), <- app_assoc.
Qed.

Lemma new_recv_inv k rd leftover :
  calm rd -> data_stream k (leftover ++ input rd) -> recv_inv k (MasqueRecv_new rd leftover).
Proof.
  intros Hc Hd. constructor; cbn; try done. left. unfold raw. cbn. rewrite zdrop_0. split; [apply zlen_nonneg|done].
Qed.

Lemma whole_frames ps : Forall small ps -> data_stream 0 (data_frames ps).
Proof.
  intros Hps. exists ps, []. split; [done|]. split; [done|]. split; [by vm_compute|]. by rewrite ztake_0, app_nil_r.
Qed.

Lemma new_recv_data rd leftover : data_left (MasqueRecv_new rd leftover) = stream_data (leftover ++ input rd).
Proof. done. Qed.

(** What runs of frames write to the WARP stream is read back on the
    other side. When all runs succeed, a reader of those bytes, in any pieces
    and with any buffers, gets the frames' bytes in order, then the end of the
    stream, as soon as it has polled often enough; in any case what is on the
    stream is a prefix of DATA frames that carry them, and nothing panics. *)
Theorem masque_transparent `{Q : QuicSend} (QL : QuicSendLaws Q) calls s :
  qsent s = [] -> small (concat (concat calls)) ->
  exists r this', write_calls calls (MasqueSend_new s) = Some (r, this') /\ r <> Some Panic /\
    (exists tail, concat (concat calls) = stream_data (sent_by this') ++ tail) /\
    (r = Some (Ok tt) -> forall rd limits,
       calm rd -> input rd = sent_by this' -> Forall (fun l => 0 < l) limits ->
       let '(out, o) := masque_collect limits (MasqueRecv_new rd []) in
       (o = Finished \/ o = Unfinished) /\ (exists tail, concat (concat calls) = out ++ tail /\ (o = Finished -> tail = [])) /\
       (RdData [] ∈ rd -> work rd < zlen limits -> o = Finished)).
Proof.
  intros Hs Hsm. destruct (write_calls_ok calls (MasqueSend_new s) Hsm) as (r & t & ps & Hw & Hp & Hc & Hps & Hpre & Hok).
  exists r, t. split; [done|]. split; [done|]. unfold sent_by at 1 in Hpre. cbn [MasqueSend_new ms_stream] in Hpre. rewrite Hs in Hpre.
  split.
  - rewrite <- Hc. by apply prefix_data.
  - intros Hr rd limits Hcalm Hin Hl. rewrite (Hok Hr) in Hin. unfold sent_by in Hin at 1. cbn [MasqueSend_new ms_stream] in Hin.
    rewrite Hs in Hin. cbn [app] in Hin.
    pose proof (masque_collect_ok 0 limits (MasqueRecv_new rd []) Hl) as Hcol.
    specialize (Hcol ltac:(apply new_recv_inv; [done|]; rewrite Hin; by apply whole_frames)).
    destruct (masque_collect limits _) as [out o]. destruct Hcol as (He & (tail & Ht & Hz) & Hlive).
    rewrite new_recv_data, Hin in Ht. cbn [app] in Ht. pose proof (stream_data_frames ps [] Hps) as Hd. rewrite !app_nil_r in Hd.
    rewrite Hd, Hc in Ht. assert (Ho : o = Finished \/ o = Unfinished) by (destruct o; cbn in He; try (by auto); lia).
    split; [done|]. split; [exists tail; split; [done|]; intros ->; by apply Hz|].
    intros Hends Hb. destruct Ho as [->|Hu]; [done|]. exfalso. apply (Hlive Hends); [|done].
    unfold budget. cbn. change (zlen (@nil byte)) with 0. lia.
Qed.

(** Single writes, polled in any way on a stream that takes any part of
    what it is given or nothing: what is on the stream carries, at every
    moment, exactly the bytes the writer accepted, and nothing panics. *)
Theorem masque_poll_write_carries `{Q : QuicSend} (QL : QuicSendLaws Q) bufs s :
  qsent s = [] ->
  let '(acc, ok, this') := poll_writes bufs (MasqueSend_new s) in
  ok = true /\ stream_data (sent_by this') = acc.
Proof.
  intros Hs. assert (Hi : write_inv [] [] (MasqueSend_new s)).
  { exists [], []. split_and!; try done. left. split_and!; try done. }
  destruct (poll_writes_ok [] [] bufs _ Hi) as (acc & t & -> & Hi'). split; [done|]. by apply write_inv_data.
Qed.

(** What opening a tunnel leaves, for the bytes of its response. *)
Lemma open_tunnel_ok `{Q : QuicSend} {QL : QuicSendLaws Q} authority s s' rd others block status ps p k :
  q_write_all (frame_bytes FRAME_HEADERS (encode_connect_headers (str authority))) s = (Some (Ok tt), s') ->
  calm rd -> Forall skipped_frame others -> zlen (frame_bytes FRAME_HEADERS block) <= MAX_RESPONSE_HEAD_BUFFER ->
  decode_status block = Some (Ok status) -> Forall small ps -> small p -> 0 <= k < zlen (frame_bytes FRAME_DATA p) ->
  input rd = frames_bytes others ++ frame_bytes FRAME_HEADERS block ++ data_frames ps ++ ztake k (frame_bytes FRAME_DATA p) ->
  exists recv, recv_inv k recv /\ data_left recv = concat ps ++ ztake (k - header_len p) p /\ (RdData [] ∈ rd -> ends recv) /\
    open_tunnel authority s rd = Some (if (200 <=? status) && (status <? 300)
      then Some (Ok (MasqueSend_new s', recv))
      else Some (Err ("warp: CONNECT " +:+ authority +:+ " rejected with status " +:+ pretty status))).
Proof.
  intros Hw Hc Hoth Hblock Hst Hps Hp Hk Hin.
  destruct (head_loop_ok authority block _ status Hblock Hst (S (length (input rd))) [] rd others ltac:(lia) Hc Hoth Hin)
    as (left & rd' & Hhead & Hc' & Hleft & Hends).
  assert (Hds : data_stream k (left ++ input rd')) by (rewrite Hleft; by exists ps, p).
  exists (MasqueRecv_new rd' left). split; [by apply new_recv_inv|]. split; [|split; [exact Hends|]].
  - by rewrite new_recv_data, Hleft, stream_data_frames, stream_data_cut by (done || lia).
  - unfold open_tunnel, read_response_head. rewrite (put_varint_app (put_varint [] _)), <- app_assoc. fold (varint FRAME_HEADERS).
    change (varint FRAME_HEADERS ++ varint ?n ++ ?b) with (frame_bytes FRAME_HEADERS b). rewrite Hw, Hhead. done.
Qed.

(** Opening a tunnel. The client sends one HEADERS frame with the method
    and the authority. Whatever frames precede the response, and however the
    stream is cut into pieces, a response with a 2xx status opens the tunnel
    and another one is refused; and the opened tunnel reads, with any buffers,
    exactly the DATA frames that follow, reports the end of the stream only
    after a whole frame, and an error when it was cut off inside one. *)
Theorem masque_open_reads `{Q : QuicSend} (QL : QuicSendLaws Q) authority s s' rd others block status ps p k limits :
  q_write_all (frame_bytes FRAME_HEADERS (encode_connect_headers (str authority))) s = (Some (Ok tt), s') ->
  calm rd -> Forall skipped_frame others -> zlen (frame_bytes FRAME_HEADERS block) <= MAX_RESPONSE_HEAD_BUFFER ->
  decode_status block = Some (Ok status) -> Forall small ps -> small p -> 0 <= k < zlen (frame_bytes FRAME_DATA p) ->
  input rd = frames_bytes others ++ frame_bytes FRAME_HEADERS block ++ data_frames ps ++ ztake k (frame_bytes FRAME_DATA p) ->
  Forall (fun l => 0 < l) limits ->
  (200 <= status < 300 -> exists send recv,
     open_tunnel authority s rd = Some (Some (Ok (send, recv))) /\
     sent_by send = qsent s ++ frame_bytes FRAME_HEADERS (section_bytes
       [IndexedLine STATIC_METHOD_CONNECT; NamedLine false STATIC_AUTHORITY (str authority)]) /\
     let '(out, o) := masque_collect limits recv in
     ends_well k o /\
     (exists tail, concat ps ++ ztake (k - header_len p) p = out ++ tail /\ (o <> Unfinished -> tail = [])) /\
     (RdData [] ∈ rd -> budget recv < zlen limits -> o <> Unfinished)) /\
  (~ 200 <= status < 300 -> exists e, open_tunnel authority s rd = Some (Some (Err e))).
Proof.
  intros Hw Hc Hoth Hblock Hst Hps Hp Hk Hin Hl.
  destruct (open_tunnel_ok authority s s' rd others block status ps p k Hw Hc Hoth Hblock Hst Hps Hp Hk Hin)
    as (recv & Hi & Hd & Hends & ->). split.
  - intros Hs. destruct (Z.leb_spec 200 status), (Z.ltb_spec status 300); try lia. cbn [andb]. eexists _, _. split; [done|].
    split. { unfold sent_by. cbn. rewrite (q_write_all_ok _ _ _ Hw). by rewrite connect_headers_section. }
    pose proof (masque_collect_ok k limits _ Hl Hi) as Hcol.
    destruct (masque_collect limits _) as [out o]. destruct Hcol as (He & (tail & Ht & Hz) & Hlive). rewrite Hd in Ht.
    split; [done|]. split; [by exists tail|]. intros Hr. apply Hlive. by apply Hends.
  - intros Hs. destruct (Z.leb_spec 200 status), (Z.ltb_spec status 300); try lia; by eexists.
Qed.

(** A frame of another type is not skipped when its payload is in the header
    buffer already: a reader is given the payload as if it were data. *)
Lemma unknown_frame_leaks ty payload rest rd limit :
  0 <= ty < 2 ^ 62 -> small payload -> payload <> [] -> 0 < limit ->
  exists this', masque_poll_read limit (MasqueRecv_new rd (frame_bytes ty payload ++ rest)) =
    Some (Ready (Ok (ztake (Z.min (zlen payload) limit) payload)), this').
Proof.
  intros Hty Hs Hne Hl. set (this := MasqueRecv_new rd (frame_bytes ty payload ++ rest)).
  assert (Hpos : 0 < zlen payload) by (destruct payload as [|x l]; [done|]; rewrite zlen_cons; pose proof (zlen_nonneg l); lia).
  assert (Hr1 : exists disc, recv_round limit this = (None, mkRecv rd rest payload 0 disc false)).
  { exists (negb (ty =? FRAME_DATA)). unfold recv_round, this. cbn [MasqueRecv_new mr_pending mr_remaining mr_header mr_discard mr_eof mr_stream].
    destruct (Z.eqb_spec limit 0); [lia|]. change (0 <? 0) with false. cbv iota. rewrite get_frame_header_frame by done.
    rewrite frame_payload. rewrite zlen_app, Z.min_r by (pose proof (zlen_nonneg rest); lia).
    destruct (Z.ltb_spec 0 (zlen payload)); [|lia]. rewrite ztake_app_exact, zdrop_app_exact by done. by rewrite Z.sub_diag. }
  destruct Hr1 as [disc Hr1]. unfold masque_poll_read.
  assert (Hf : exists n, S (Z.to_nat (recv_measure this)) = S (S n)).
  { destruct (Z.to_nat (recv_measure this)) as [|n] eqn:E; [|by exists n]. exfalso. unfold recv_measure, this in E. cbn in E.
    rewrite zlen_app, zlen_frame in E. pose proof (varint_len_bound ty). pose proof (varint_len_bound (zlen payload)).
    pose proof (zlen_nonneg rest). pose proof (zlen_nonneg (input rd)). lia. }
  destruct Hf as [n ->]. cbn [recv_loop]. rewrite Hr1. unfold recv_round. cbn [mr_pending].
  destruct (Z.eqb_spec limit 0); [lia|]. destruct payload as [|x l]; [done|]. by eexists.
Qed.

(** ** Witnesses *)

(** A stream that takes everything, or at most four bytes of a poll. *)
Definition toy_quic : QuicSend := {|
  qstream := bytes;
  qsent := id;
  q_write_all b s := (Some (Ok tt), s ++ b);
  q_write_all_chunks bs s := (Some (Ok tt), s ++ concat bs);
  q_poll_write b s := (Ready (Ok (Z.min 4 (zlen b))), s ++ ztake 4 b);
  q_finish s := (true, s)
|}.

Lemma toy_quic_laws : QuicSendLaws toy_quic.
Proof.
  split; cbn.
  - by intros b s s' [= <-].
  - intros b s r s' [= <- <-]. split; [done|]. by apply sent_prefix_all.
  - by intros bs s s' [= <-].
  - intros bs s r s' [= <- <-]. split; [done|]. by apply sent_prefix_all.
  - intros b s n s' [= <- <-]. pose proof (zlen_nonneg b). split; [lia|]. f_equal. unfold id.
    destruct (decide (zlen b <= 4)); [by rewrite !ztake_all by lia|]. f_equal. lia.
  - intros b s r s' [= <- <-] Hn. by edestruct Hn.
  - by intros s r s' [= _ <-].
Qed.

Definition warp_calls : list (list bytes) := [[str "hello "; str "wor"]; []; [[]]; [str "ld"]].
Definition warp_sent : bytes := data_frames [str "hello wor"; str "ld"].

Lemma masque_transparent_witness :
  masque_collect (replicate 20 5) (MasqueRecv_new [RdData (ztake 6 warp_sent); RdPending; RdData (zdrop 6 warp_sent); RdData []] [])
    = (str "hello world", Finished).
Proof.
  destruct (masque_transparent (Q := toy_quic) toy_quic_laws warp_calls [] eq_refl ltac:(reflexivity))
    as (r & this' & Hw & _ & _ & Hread).
  assert (Hr : r = Some (Ok tt) /\ sent_by (Q := toy_quic) this' = warp_sent)
    by (vm_compute in Hw; injection Hw as <- <-; split; reflexivity).
  destruct Hr as [Hr Hsent].
  specialize (Hread Hr [RdData (ztake 6 warp_sent); RdPending; RdData (zdrop 6 warp_sent); RdData []] (replicate 20 5)
    ltac:(repeat constructor) ltac:(rewrite Hsent; reflexivity) ltac:(repeat constructor)).
  destruct (masque_collect _ _) as [out o]. destruct Hread as (_ & (tail & Ht & Hz) & Hend).
  assert (Ho : o = Finished).
  { apply Hend; [|vm_compute; reflexivity]. do 3 right. left. }
  rewrite (Hz Ho), app_nil_r in Ht. rewrite <- Ht, Ho. reflexivity.
Defined.

Lemma masque_poll_write_carries_witness :
  let '(acc, ok, this') := poll_writes (Q := toy_quic) [str "hello"; str "hello"; str "o world"; []] (MasqueSend_new (Q := toy_quic) []) in
  ok = true /\ stream_data (sent_by (Q := toy_quic) this') = acc /\ acc = str "hellho wo".
Proof.
  pose proof (masque_poll_write_carries (Q := toy_quic) toy_quic_laws [str "hello"; str "hello"; str "o world"; []] [] eq_refl) as H.
  destruct (poll_writes _ _) as [[acc ok] t] eqn:E. destruct H as [H1 H2]. split; [exact H1|]. split; [exact H2|].
  vm_compute in E. injection E as <- _ _. reflexivity.
Defined.

Definition warp_response : bytes :=
  frames_bytes [(FRAME_SETTINGS, [Byte.x00])] ++ frame_bytes FRAME_HEADERS (section_bytes [IndexedLine 25]) ++
  data_frames [str "hi"] ++ ztake 4 (frame_bytes FRAME_DATA (str "there")).

Lemma masque_open_reads_witness :
  exists send recv,
    open_tunnel (Q := toy_quic) "a:1" [] [RdData (ztake 7 warp_response); RdData (zdrop 7 warp_response); RdData []]
      = Some (Some (Ok (send, recv))) /\
    exists tail, str "hith" = fst (masque_collect (replicate 9 5) recv) ++ tail.
Proof.
  edestruct (masque_open_reads (Q := toy_quic) toy_quic_laws "a:1" []
    (frame_bytes FRAME_HEADERS (encode_connect_headers (str "a:1")))
    [RdData (ztake 7 warp_response); RdData (zdrop 7 warp_response); RdData []] [(FRAME_SETTINGS, [Byte.x00])]
    (section_bytes [IndexedLine 25]) 200 [str "hi"] (str "there") 4 (replicate 9 5)) as [H _].
  - reflexivity.
  - repeat constructor.
  - repeat constructor; vm_compute; congruence.
  - vm_compute. congruence.
  - vm_compute. reflexivity.
  - repeat constructor.
  - reflexivity.
  - vm_compute. split; congruence.
  - reflexivity.
  - repeat constructor.
  - destruct H as (send & recv & Ho & _ & Hcol); [lia|]. exists send, recv. split; [exact Ho|].
    destruct (masque_collect (replicate 9 5) recv) as [out o]. destruct Hcol as (_ & (tail & Ht & _) & _).
    exists tail. exact Ht.
Defined.
