(* ===== verification/Net.v ===== *)
(** * Network addresses

    What the sources use of Rust's [std::net]: addresses and their parsing
    ([IpAddr::from_str]), which decides between an address and a domain name. *)

From S2P Require Import Prelude Frame Text.

(** The bits of an address, most significant first. *)
Inductive IpAddr : Type := V4 (bits : Z) | V6 (bits : Z).

#[export] Instance IpAddr_eq_dec : EqDecision IpAddr.
Proof. solve_decision. Defined.

(** ** The parser of the standard library *)

(** [char::to_digit] for the radices 10 and 16. *)
Definition to_digit (radix : Z) (b : byte) : option Z :=
  let d :=
    if in_range 48 57 b then Some (bz b - 48)
    else if in_range 97 102 b then Some (bz b - 87)
    else if in_range 65 70 b then Some (bz b - 55)
    else None in
  match d with Some d => if d <? radix then Some d else None | None => None end.

(** At most [max_digits] digits, with how many there are and what follows. *)
Fixpoint read_digits (radix max_digits count result : Z) (l : bytes) : option (Z * Z * bytes) :=
  match l with
  | [] => Some (result, count, [])
  | b :: rest =>
      match to_digit radix b with
      | None => Some (result, count, l)
      | Some d => if max_digits <? count + 1 then None else read_digits radix max_digits (count + 1) (result * radix + d) rest
      end
  end.

Definition read_number (radix max_digits : Z) (allow_zero_prefix : bool) (limit : Z) (l : bytes) : option (Z * bytes) :=
  let has_leading_zero := match l with b :: _ => bool_decide (b = Byte.x30) | [] => false end in
  '(result, count, rest) ← read_digits radix max_digits 0 0 l;
  if count =? 0 then None
  else if negb allow_zero_prefix && has_leading_zero && (1 <? count) then None
  else if result <? limit then Some (result, rest) else None.

Definition read_given_char (c : byte) (l : bytes) : option bytes :=
  match l with b :: rest => if decide (b = c) then Some rest else None | [] => None end.

(** [read_separator]: the separator comes before every element but the first. *)
Definition read_separator {A} (sep : byte) (index : nat) (inner : bytes -> option (A * bytes)) (l : bytes) : option (A * bytes) :=
  match index with O => inner l | S _ => l ← read_given_char sep l; inner l end.

Definition read_octet (index : nat) : bytes -> option (Z * bytes) :=
  read_separator Byte.x2e index (read_number 10 3 false 256).

Definition read_ipv4_addr (l : bytes) : option (Z * bytes) :=
  '(a, l) ← read_octet 0 l;
  '(b, l) ← read_octet 1 l;
  '(c, l) ← read_octet 2 l;
  '(d, l) ← read_octet 3 l;
  Some (((a * 256 + b) * 256 + c) * 256 + d, l).

(** [read_groups]: up to [slots] groups from number [index] on; whether the
    last two came from an embedded IPv4 address; what follows. *)
Fixpoint read_groups (slots : nat) (index : nat) (l : bytes) : list Z * bool * bytes :=
  match slots with
  | O => ([], false, l)
  | S slots =>
      let ipv4 := match slots with O => None | S _ => read_separator Byte.x3a index read_ipv4_addr l end in
      match ipv4 with
      | Some (v4, rest) => ([v4 / 65536; v4 mod 65536], true, rest)
      | None =>
          match read_separator Byte.x3a index (read_number 16 4 true 65536) l with
          | Some (g, rest) => let '(gs, v4, rest) := read_groups slots (S index) rest in (g :: gs, v4, rest)
          | None => ([], false, l)
          end
      end
  end.

Definition groups_value (groups : list Z) : Z := foldl (fun acc g => acc * 65536 + g) 0 groups.

Definition read_ipv6_addr (l : bytes) : option (Z * bytes) :=
  let '(head, head_ipv4, l) := read_groups 8 0 l in
  let head_size := length head in
  if bool_decide (head_size = 8%nat) then Some (groups_value head, l)
  else if head_ipv4 : bool then None
  else
    l ← read_given_char Byte.x3a l;
    l ← read_given_char Byte.x3a l;
    let limit := (8 - (head_size + 1))%nat in
    let '(tail, _, l) := read_groups limit 0 l in
    Some (groups_value (head ++ replicate (8 - head_size - length tail) 0 ++ tail), l).

(** [IpAddr::from_str]. *)
Definition ip_from_str (l : bytes) : option IpAddr :=
  match read_ipv4_addr l with
  | Some (a, rest) => match rest with [] => Some (V4 a) | _ => None end
  | None =>
      match read_ipv6_addr l with
      | Some (a, []) => Some (V6 a)
      | _ => None
      end
  end.

(** [SocketAddr]: address, port, and the scope of an IPv6 address. *)
Record SocketAddr : Type := mkSocketAddr { sa_ip : IpAddr; sa_port : Z; sa_scope : Z }.

#[export] Instance SocketAddr_eq_dec : EqDecision SocketAddr.
Proof. solve_decision. Defined.

Definition read_port (l : bytes) : option (Z * bytes) :=
  l ← read_given_char Byte.x3a l; read_number 10 (zlen l) true 65536 l.

Definition read_scope_id (l : bytes) : option (Z * bytes) :=
  l ← read_given_char Byte.x25 l; read_number 10 (zlen l) true (2 ^ 32) l.

Definition read_socket_addr_v4 (l : bytes) : option (SocketAddr * bytes) :=
  '(ip, l) ← read_ipv4_addr l;
  '(port, l) ← read_port l;
  Some (mkSocketAddr (V4 ip) port 0, l).

Definition read_socket_addr_v6 (l : bytes) : option (SocketAddr * bytes) :=
  l ← read_given_char Byte.x5b l;
  '(ip, l) ← read_ipv6_addr l;
  let '(scope, l) := default (0, l) (read_scope_id l) in
  l ← read_given_char Byte.x5d l;
  '(port, l) ← read_port l;
  Some (mkSocketAddr (V6 ip) port scope, l).

(** [SocketAddr::from_str]. *)
Definition socket_addr_from_str (l : bytes) : option SocketAddr :=
  match match read_socket_addr_v4 l with Some r => Some r | None => read_socket_addr_v6 l end with
  | Some (a, []) => Some a
  | _ => None
  end.

(** [Display] for [Ipv4Addr]. *)
Definition ipv4_text (a : Z) : bytes :=
  dec_text (a / 2 ^ 24) ++ [Byte.x2e] ++ dec_text (a / 2 ^ 16 mod 256) ++ [Byte.x2e] ++
  dec_text (a / 2 ^ 8 mod 256) ++ [Byte.x2e] ++ dec_text (a mod 256).

Definition ip_bits (ip : IpAddr) : Z := match ip with V4 a | V6 a => a end.
Definition ip_width (ip : IpAddr) : Z := match ip with V4 _ => 32 | V6 _ => 128 end.
Definition same_family (a b : IpAddr) : bool :=
  match a, b with V4 _, V4 _ | V6 _, V6 _ => true | _, _ => false end.

(** ** Examples *)

Lemma ip_examples :
  ip_from_str (str "192.168.0.1") = Some (V4 0xC0A80001) /\ ip_from_str (str "::1") = Some (V6 1) /\
  ip_from_str (str "2001:db8::ff:1.2.3.4") = Some (V6 0x20010DB8000000000000_00FF01020304) /\
  ip_from_str (str "01.2.3.4") = None /\ ip_from_str (str "1.2.3.4.5") = None /\ ip_from_str (str "::1:443") = Some (V6 0x10443) /\
  ip_from_str (str "1:2:3:4:5:6:7:8") = Some (V6 0x00010002000300040005000600070008) /\
  ip_from_str (str "1:2:3:4:5:6:7:8::") = None /\ ip_from_str (str "2001") = None /\ ip_from_str [] = None.
Proof. vm_compute. repeat split; reflexivity. Qed.

Example socket_addr_examples :
  map (fun t => socket_addr_from_str (str t)) ["127.0.0.1:2222"; "127.0.0.1"; "not-an-addr"; "[::1]:53"; "1.1.1.1:65536"; "[fe80::1%3]:053"]%string =
  [Some (mkSocketAddr (V4 (127 * 2 ^ 24 + 1)) 2222 0); None; None; Some (mkSocketAddr (V6 1) 53 0); None;
   Some (mkSocketAddr (V6 (0xfe80 * 2 ^ 112 + 1)) 53 3)].
Proof. by vm_compute. Qed.
