(* ===== verification/Bypass.v ===== *)
(** * The bypass rules

    [src/bypass/mod.rs]: which targets the client connects to directly. Domain
    suffixes are kept as reversed, NUL-separated keys in a finite state
    transducer and looked up label by label; addresses are matched against
    CIDR networks. The transducer ([fst]) and the network table
    ([ip_network_table]) are parameters; reading and parsing the rule files is
    an argument. *)

From Stdlib Require Import Sorting.Sorted.
From S2P Require Import Prelude Frame Text Net.

(** ** Parameters *)

(** [fst::Set], built from keys in order. *)
Class FstSet := {
  fset : Type;
  fset_build : list bytes -> option fset;
  fset_contains : bytes -> fset -> bool;
  fset_is_empty : fset -> bool
}.

(** The lexicographic order of byte strings. *)
Fixpoint bytes_leb (a b : bytes) : bool :=
  match a, b with
  | [], _ => true
  | _ :: _, [] => false
  | x :: a, y :: b => if bz x <? bz y then true else if bz y <? bz x then false else bytes_leb a b
  end.

Definition bytes_lt (a b : bytes) : Prop := bytes_leb a b = true /\ a <> b.

Class FstSetLaws (F : FstSet) := {
  fset_build_sorted : forall keys, StronglySorted bytes_lt keys -> is_Some (fset_build keys);
  fset_build_contains : forall keys s k, fset_build keys = Some s -> fset_contains k s = true <-> k ∈ keys;
  fset_build_empty : forall keys s, fset_build keys = Some s -> fset_is_empty s = true <-> keys = []
}.

(** An address is in the network of [net] and prefix length [len]. *)
Definition in_network (net : IpAddr) (len : Z) (ip : IpAddr) : bool :=
  same_family net ip && (Z.shiftr (ip_bits net) (ip_width net - len) =? Z.shiftr (ip_bits ip) (ip_width ip - len)).

(** [IpNetwork] and [IpNetworkTable<()>]. *)
Class NetTable := {
  network : Type;
  network_new : IpAddr -> Z -> option network;
  table : Type;
  table_new : table;
  table_insert : network -> table -> table;
  table_matches : IpAddr -> table -> bool;
  table_len : table -> Z * Z
}.

(** [network_new] refuses a prefix that is too long and an address with host
    bits set; [longest_match] finds a network that contains the address, if
    there is one. *)
Class NetTableLaws (N : NetTable) := {
  network_new_Some : forall ip len, 0 <= len ->
    is_Some (network_new ip len) <-> (len <= ip_width ip /\ ip_bits ip mod 2 ^ (ip_width ip - len) = 0);
  table_new_matches : forall ip, table_matches ip table_new = false;
  table_insert_matches : forall net len n t ip, network_new net len = Some n ->
    table_matches ip (table_insert n t) = in_network net len ip || table_matches ip t;
  table_new_len : table_len table_new = (0, 0);
  table_insert_len : forall n t, table_len (table_insert n t) <> (0, 0)
}.

(** ** Domain keys *)

(** [trim_matches('.')]. *)
Fixpoint drop_dots (l : bytes) : bytes :=
  match l with b :: r => if decide (b = Byte.x2e) then drop_dots r else l | [] => [] end.
Definition trim_dots (l : bytes) : bytes := reverse (drop_dots (reverse (drop_dots l))).

(** The [while start > 0 && bytes[start - 1] != b'.'] loop. *)
Fixpoint label_start (b : bytes) (start : nat) : nat :=
  match start with
  | O => O
  | S n => if bool_decide (b !! n = Some Byte.x2e) then start else label_start b n
  end.

Definition next_end (start : nat) : nat := Nat.pred start.

(** [bytes[start..end]], lower case, after a separator unless it is the first. *)
Definition push_label (b : bytes) (start end_ : nat) (first : bool) (buf : bytes) : bytes :=
  (if first then buf else buf ++ [Byte.x00]) ++ to_ascii_lowercase (take (end_ - start) (drop start b)).

Fixpoint key_loop (fuel : nat) (b : bytes) (end_ : nat) (first : bool) (buf : bytes) : bytes :=
  match fuel, end_ with
  | _, O => buf
  | O, _ => buf
  | S fuel, _ =>
      let start := label_start b end_ in
      key_loop fuel b (next_end start) false (push_label b start end_ first buf)
  end.

Definition domain_to_fst_key (domain : bytes) : option bytes :=
  match trim_dots domain with
  | [] => None
  | b => Some (key_loop (length b) b (length b) true [])
  end.

Section bypass.
Context `{F : FstSet} `{N : NetTable}.

Fixpoint match_loop (fuel : nat) (set : fset) (b : bytes) (end_ : nat) (first : bool) (buf : bytes) : bool :=
  match fuel, end_ with
  | _, O => false
  | O, _ => false
  | S fuel, _ =>
      let start := label_start b end_ in
      let buf := push_label b start end_ first buf in
      if fset_contains buf set then true else match_loop fuel set b (next_end start) false buf
  end.

(** [DomainFst::matches]. *)
Definition domain_matches (set : fset) (domain : bytes) : bool :=
  match trim_dots domain with
  | [] => false
  | b => match_loop (length b) set b (length b) true []
  end.

(** ** Building the rules *)

(** [sort_unstable] and [dedup] on keys. *)
Fixpoint insert_key (k : bytes) (l : list bytes) : list bytes :=
  match l with
  | x :: r => if bytes_leb k x then k :: l else x :: insert_key k r
  | [] => [k]
  end.
Definition sort_keys (l : list bytes) : list bytes := foldr insert_key [] l.

Fixpoint dedup (l : list bytes) : list bytes :=
  match l with
  | x :: r =>
      match r with
      | y :: _ => if decide (x = y) then dedup r else x :: dedup r
      | [] => l
      end
  | [] => []
  end.

Record BypassRulesBuilder : Type := mkBuilder { domain_keys : list bytes; b_ip_table : table }.
Record BypassRules : Type := mkRules { domain_fst : fset; ip_table : table }.

Definition BypassRulesBuilder_new : BypassRulesBuilder := mkBuilder [] table_new.

Definition add_domain (this : BypassRulesBuilder) (domain : bytes) : BypassRulesBuilder :=
  match domain_to_fst_key domain with
  | Some key => mkBuilder (domain_keys this ++ [key]) (b_ip_table this)
  | None => this
  end.

(** [IpCidrTable::insert_v4] and [insert_v6]. *)
Definition table_insert_net (addr : IpAddr) (prefix_len : Z) (t : table) : Res string table :=
  let? net := ok_or (network_new addr prefix_len)
    match addr with V4 _ => "invalid IPv4 CIDR"%string | V6 _ => "invalid IPv6 CIDR"%string end in
  Ok (table_insert net t).

Definition add_cidr (this : BypassRulesBuilder) (cidr : bytes) : Res string BypassRulesBuilder :=
  let? (addr_str, prefix_str) := ok_or (split_once Byte.x2f cidr) "missing '/' in CIDR"%string in
  let? prefix_len := ok_or (parse_uint 256 prefix_str) "invalid prefix length"%string in
  let? addr := ok_or (ip_from_str addr_str) "invalid IP address"%string in
  match addr with
  | V4 _ =>
      if prefix_len <=? 32 then
        let? t := table_insert_net addr prefix_len (b_ip_table this) in Ok (mkBuilder (domain_keys this) t)
      else Err "IPv4 prefix > 32"%string
  | V6 _ =>
      if prefix_len <=? 128 then
        let? t := table_insert_net addr prefix_len (b_ip_table this) in Ok (mkBuilder (domain_keys this) t)
      else Err "IPv6 prefix > 128"%string
  end.

Definition build (this : BypassRulesBuilder) : Res string BypassRules :=
  let keys := dedup (sort_keys (domain_keys this)) in
  let? s := ok_or (fset_build keys) "fst insert domain key"%string in
  Ok (mkRules s (b_ip_table this)).

Fixpoint add_cidrs (cidrs : list bytes) (this : BypassRulesBuilder) : Res string BypassRulesBuilder :=
  match cidrs with
  | [] => Ok this
  | c :: cidrs => let? this := add_cidr this c in add_cidrs cidrs this
  end.

(** A rule file after parsing: domain suffixes and CIDR networks. *)
Definition BypassFile : Type := list bytes * list bytes.

Fixpoint load_loop (files : list (Res string BypassFile)) (this : BypassRulesBuilder) : Res string BypassRulesBuilder :=
  match files with
  | [] => Ok this
  | file :: files =>
      let? (domain_suffix, ip_cidr) := file in
      let? this := add_cidrs ip_cidr (foldl add_domain this domain_suffix) in
      load_loop files this
  end.

(** [files] is what reading and parsing each configured file gives. *)
Definition load (files : list (Res string BypassFile)) : Res string BypassRules :=
  let? builder := load_loop files BypassRulesBuilder_new in
  build builder.

(** ** Matching *)

Definition match_domain (this : BypassRules) (domain : bytes) : bool := domain_matches (domain_fst this) domain.
Definition match_ip (this : BypassRules) (ip : IpAddr) : bool := table_matches ip (ip_table this).

Definition extract_host (target : bytes) : bytes :=
  match strip_prefix (str "[") target with
  | Some rest => hd target (split_on Byte.x5d rest)
  | None => hd target (split_on Byte.x3a target)
  end.

Definition should_bypass (this : BypassRules) (target : bytes) : bool :=
  let host := extract_host target in
  match ip_from_str host with
  | Some ip => match_ip this ip
  | None => match_domain this host
  end.

Definition is_empty (this : BypassRules) : bool :=
  fset_is_empty (domain_fst this) && let '(v4len, v6len) := table_len (ip_table this) in (v4len =? 0) && (v6len =? 0).
End bypass.

(** ** Specification *)

(** The labels of a domain, from the first to the top-level one. *)
Definition domain_labels (domain : bytes) : list bytes :=
  match trim_dots domain with
  | [] => []
  | b => map to_ascii_lowercase (split_on Byte.x2e b)
  end.

(** A rule covers a domain and all its subdomains. *)
Definition covers (rule host : bytes) : bool :=
  bool_decide (domain_labels rule <> []) && bool_decide (domain_labels rule `suffix_of` domain_labels host).

Definition cidr_parts (cidr : bytes) : option (IpAddr * Z) :=
  '(addr_str, prefix_str) ← split_once Byte.x2f cidr;
  prefix_len ← parse_uint 256 prefix_str;
  addr ← ip_from_str addr_str;
  Some (addr, prefix_len).

(** A network in canonical form: the prefix fits the address, the host bits
    are zero. *)
Definition cidr_valid (cidr : bytes) : Prop :=
  match cidr_parts cidr with
  | Some (addr, len) => len <= ip_width addr /\ ip_bits addr mod 2 ^ (ip_width addr - len) = 0
  | None => False
  end.

#[export] Instance cidr_valid_dec cidr : Decision (cidr_valid cidr).
Proof. unfold cidr_valid. destruct (cidr_parts cidr) as [[a l]|]; apply _. Defined.

Definition cidr_contains (cidr : bytes) (ip : IpAddr) : bool :=
  match cidr_parts cidr with Some (addr, len) => in_network addr len ip | None => false end.

Definition all_domains (fs : list BypassFile) : list bytes := concat (map fst fs).
Definition all_cidrs (fs : list BypassFile) : list bytes := concat (map snd fs).

(** What the rules of the files say about a target. *)
Definition bypass_spec (fs : list BypassFile) (target : bytes) : bool :=
  let host := extract_host target in
  match ip_from_str host with
  | Some ip => existsb (fun c => cidr_contains c ip) (all_cidrs fs)
  | None => existsb (fun rule => covers rule host) (all_domains fs)
  end.

(** ** Lemmas *)

(** *** Labels *)

Definition join (ls : list bytes) : bytes :=
  match ls with
  | [] => []
  | l :: ls => l ++ concat (map (fun x => Byte.x00 :: x) ls)
  end.

Lemma join_snoc ls l : join (ls ++ [l]) = match ls with [] => l | _ => join ls ++ Byte.x00 :: l end.
Proof.
  destruct ls as [|x ls]; cbn; [by rewrite app_nil_r|]. rewrite map_app, concat_app. cbn. by rewrite app_nil_r, <- app_assoc.
Qed.

Lemma split_join ls : ls <> [] -> Forall (fun l => Byte.x00 ∉ l) ls -> split_on Byte.x00 (join ls) = ls.
Proof.
  intros Hne H. destruct H as [|l ls Hl H]; [done|]. cbn [join]. clear Hne. revert l Hl.
  induction H as [|x ls Hx _ IH]; intros l Hl; cbn [map concat app].
  - rewrite app_nil_r. by apply split_on_fresh.
  - rewrite split_on_app by done. f_equal. by apply IH.
Qed.

Lemma split_on_snoc c a l : c ∉ l -> split_on c (a ++ c :: l) = split_on c a ++ [l].
Proof.
  intros Hl. induction a as [|x a IH]; cbn [app split_on].
  - rewrite decide_True by done. by rewrite split_on_fresh.
  - destruct (decide (x = c)); [by rewrite IH|]. rewrite IH.
    destruct (split_on c a) as [|s ss] eqn:E; [|done]. destruct a as [|y a]; cbn in E; [done|].
    destruct (decide (y = c)); [done|]. by destruct (split_on c a).
Qed.

Lemma split_on_nonempty c l : split_on c l <> [].
Proof. destruct l as [|x l]; cbn; [done|]. case_decide; [done|]. by destruct (split_on c l). Qed.

(** The part of a string before its last dot, and the label after it. *)
Lemma last_dot (l : bytes) : Byte.x2e ∉ l \/ exists a r, l = a ++ Byte.x2e :: r /\ Byte.x2e ∉ r.
Proof.
  induction l as [|x l IH] using rev_ind; [left; by apply not_elem_of_nil|].
  destruct (decide (x = Byte.x2e)) as [->|Hx]; [right; exists l, []; split; [done|by apply not_elem_of_nil]|].
  destruct IH as [Hn|(a & r & -> & Hr)]; [left|right].
  - rewrite elem_of_app, list_elem_of_singleton. naive_solver.
  - exists a, (r ++ [x]). split; [by rewrite <- app_assoc|]. rewrite elem_of_app, list_elem_of_singleton. naive_solver.
Qed.

Lemma label_start_spec b e :
  (e <= length b)%nat ->
  (Byte.x2e ∉ take e b /\ label_start b e = O) \/
  (exists a r, take e b = a ++ Byte.x2e :: r /\ Byte.x2e ∉ r /\ label_start b e = S (length a)).
Proof.
  induction e as [|e IH]; intros He; [left; split; [by apply not_elem_of_nil|done]|].
  destruct (lookup_lt_is_Some_2 b e ltac:(lia)) as [x Hx]. cbn [label_start]. rewrite Hx.
  rewrite (take_S_r b e x Hx). case_bool_decide as Hd.
  - injection Hd as ->. right. exists (take e b), []. split; [done|]. split; [by apply not_elem_of_nil|].
    rewrite length_take. f_equal. lia.
  - assert (x <> Byte.x2e) by congruence. destruct (IH ltac:(lia)) as [[Hn Hz]|(a & r & Ht & Hr & Hz)]; [left|right].
    + split; [|done]. rewrite elem_of_app, list_elem_of_singleton. naive_solver.
    + exists a, (r ++ [x]). split; [by rewrite Ht, <- app_assoc|]. split; [|done].
      rewrite elem_of_app, list_elem_of_singleton. naive_solver.
Qed.

(** One round of either loop: the label after the last dot of [b[..end]]. *)
Lemma round_label b e :
  (0 < e <= length b)%nat -> head b <> Some Byte.x2e ->
  exists l, Byte.x2e ∉ l /\ take (e - label_start b e) (drop (label_start b e) b) = l /\
    ((next_end (label_start b e) = O /\ split_on Byte.x2e (take e b) = [l]) \/
     ((0 < next_end (label_start b e) < e)%nat /\
      split_on Byte.x2e (take e b) = split_on Byte.x2e (take (next_end (label_start b e)) b) ++ [l])).
Proof.
  intros He Hh. destruct (label_start_spec b e ltac:(lia)) as [[Hn ->]|(a & r & Ht & Hr & ->)].
  - exists (take e b). split; [done|]. rewrite drop_0, Nat.sub_0_r. split; [done|]. left. split; [done|]. by apply split_on_fresh.
  - assert (Hlen : (e = S (length a + length r))%nat).
    { apply (f_equal length) in Ht. rewrite length_take, length_app in Ht. cbn in Ht. lia. }
    assert (Hb : b = a ++ Byte.x2e :: r ++ drop e b) by (rewrite <- (take_drop e b) at 1; rewrite Ht; by rewrite <- app_assoc).
    exists r. split; [done|]. split.
    { rewrite Hb at 1. replace (a ++ Byte.x2e :: r ++ drop e b) with ((a ++ [Byte.x2e]) ++ r ++ drop e b) by (by rewrite <- app_assoc).
      rewrite drop_app_length' by (rewrite length_app; cbn; lia). apply take_app_length'. lia. }
    cbn [next_end Nat.pred]. assert (Hta : take (length a) b = a) by (rewrite Hb; apply take_app_length). right.
    split; [|by rewrite Hta, Ht, split_on_snoc]. destruct a as [|x a]; [|cbn [length] in *; lia]. rewrite Hb in Hh. by destruct Hh.
Qed.

Definition lower_labels (p : bytes) : list bytes := rev (map to_ascii_lowercase (split_on Byte.x2e p)).

Lemma push_label_join b s e l seen first :
  take (e - s) (drop s b) = l -> (first = true <-> seen = []) ->
  push_label b s e first (join seen) = join (seen ++ [to_ascii_lowercase l]).
Proof.
  intros <- Hf. unfold push_label. rewrite join_snoc. destruct seen as [|x seen].
  - assert (first = true) as -> by (by apply Hf). done.
  - destruct first; [by destruct Hf as [Hf _]; specialize (Hf eq_refl)|]. by rewrite <- app_assoc.
Qed.

Lemma key_loop_join b fuel : forall e seen first,
  (0 < e <= length b)%nat -> (e <= fuel)%nat -> head b <> Some Byte.x2e -> (first = true <-> seen = []) ->
  key_loop fuel b e first (join seen) = join (seen ++ lower_labels (take e b)).
Proof.
  induction fuel as [|fuel IH]; intros e seen first He Hf Hh Hfirst; [lia|]. destruct e as [|e']; [lia|].
  cbn [key_loop]. set (e := S e') in *. destruct (round_label b e He Hh) as (l & _ & Hl & Hcase).
  rewrite (push_label_join b _ e l seen first Hl Hfirst). unfold lower_labels.
  destruct Hcase as [[Hz Hs]|[Hlt Hs]]; rewrite Hs.
  - rewrite Hz. by destruct fuel.
  - rewrite IH; [|lia|lia|done|split; [done|by destruct seen]].
    f_equal. rewrite map_app, rev_app_distr. cbn. by rewrite <- app_assoc.
Qed.

Lemma drop_dots_head l : head (drop_dots l) <> Some Byte.x2e.
Proof. induction l as [|x l IH]; cbn; [done|]. case_decide; [done|]. cbn. congruence. Qed.

Lemma drop_dots_suffix l : exists pre, l = pre ++ drop_dots l.
Proof.
  induction l as [|x l [pre IH]]; [by exists []|]. cbn. case_decide; [|by exists []]. exists (x :: pre). cbn. by f_equal.
Qed.

Lemma trim_dots_head d : head (trim_dots d) <> Some Byte.x2e.
Proof.
  unfold trim_dots. set (m := drop_dots d). destruct (drop_dots_suffix (reverse m)) as [pre Hp].
  assert (Hm : m = reverse (drop_dots (reverse m)) ++ reverse pre) by (rewrite <- reverse_app, <- Hp; by rewrite reverse_involutive).
  pose proof (drop_dots_head d) as Hh. fold m in Hh. rewrite Hm in Hh.
  by destruct (reverse (drop_dots (reverse m))).
Qed.

Lemma trim_dots_sub d x : x ∈ trim_dots d -> x ∈ d.
Proof.
  unfold trim_dots. rewrite elem_of_reverse. intros H.
  assert (Hin : forall l, x ∈ drop_dots l -> x ∈ l).
  { intros l Hl. destruct (drop_dots_suffix l) as [pre ->]. apply elem_of_app. by right. }
  by apply Hin, elem_of_reverse, Hin in H.
Qed.

Lemma domain_key_eq d :
  domain_to_fst_key d = if decide (domain_labels d = []) then None else Some (join (rev (domain_labels d))).
Proof.
  unfold domain_to_fst_key, domain_labels. pose proof (trim_dots_head d) as Hh. destruct (trim_dots d) as [|x b] eqn:E; [done|].
  rewrite decide_False; [|intros Hz; apply map_eq_nil in Hz; by apply split_on_nonempty in Hz]. f_equal.
  pose proof (key_loop_join (x :: b) (length (x :: b)) (length (x :: b)) [] true ltac:(cbn; lia) ltac:(lia) Hh ltac:(done)) as H.
  rewrite firstn_all in H. exact H.
Qed.

Section matching.
Context `{F : FstSet} {FL : FstSetLaws F} `{N : NetTable} {NL : NetTableLaws N}.

Lemma match_loop_spec s b fuel : forall e seen first,
  (0 < e <= length b)%nat -> (e <= fuel)%nat -> head b <> Some Byte.x2e -> (first = true <-> seen = []) ->
  match_loop fuel s b e first (join seen) = true <->
  exists n, (1 <= n <= length (lower_labels (take e b)))%nat /\
    fset_contains (join (seen ++ take n (lower_labels (take e b)))) s = true.
Proof.
  induction fuel as [|fuel IH]; intros e seen first He Hf Hh Hfirst; [lia|]. destruct e as [|e']; [lia|].
  cbn [match_loop]. set (e := S e') in *. destruct (round_label b e He Hh) as (l & _ & Hl & Hcase).
  rewrite (push_label_join b _ e l seen first Hl Hfirst). set (x := to_ascii_lowercase l).
  assert (Hlab : exists more, lower_labels (take e b) = x :: more /\
    ((next_end (label_start b e) = O /\ more = []) \/
     ((0 < next_end (label_start b e) < e)%nat /\ more = lower_labels (take (next_end (label_start b e)) b)))).
  { unfold lower_labels. destruct Hcase as [[Hz Hs]|[Hlt Hs]]; rewrite Hs.
    - exists []. split; [done|]. by left.
    - rewrite map_app, rev_app_distr. cbn. eexists. split; [done|]. by right. }
  destruct Hlab as (more & -> & Hmore).
  destruct (fset_contains (join (seen ++ [x])) s) eqn:Hc.
  { split; [|done]. intros _. exists 1%nat. cbn [length take]. rewrite take_0. split; [lia|done]. }
  assert (Hstep : (exists n, (1 <= n <= length (x :: more))%nat /\ fset_contains (join (seen ++ take n (x :: more))) s = true) <->
    (exists n, (1 <= n <= length more)%nat /\ fset_contains (join ((seen ++ [x]) ++ take n more)) s = true)).
  { split; intros (n & Hn & Hin).
    - destruct n as [|[|n]]; [lia|cbn [take] in Hin; rewrite take_0 in Hin; congruence|]. exists (S n). cbn [length] in Hn.
      split; [lia|]. rewrite <- app_assoc. exact Hin.
    - exists (S n). cbn [length take]. split; [lia|]. by rewrite <- app_assoc in Hin. }
  rewrite Hstep. destruct Hmore as [[-> ->]|[Hlt ->]].
  - destruct fuel; cbn; (split; [done|]); intros (n & Hn & _); lia.
  - rewrite IH; [done|lia|lia|done|]. split; [done|by destruct seen].
Qed.

Lemma domain_matches_spec s d :
  domain_matches s d = true <->
  exists n, (1 <= n <= length (domain_labels d))%nat /\ fset_contains (join (take n (rev (domain_labels d)))) s = true.
Proof.
  unfold domain_matches, domain_labels. pose proof (trim_dots_head d) as Hh. destruct (trim_dots d) as [|x b] eqn:E.
  { split; [done|]. intros (n & Hn & _). cbn in Hn. lia. }
  pose proof (match_loop_spec s (x :: b) (length (x :: b)) (length (x :: b)) [] true ltac:(cbn; lia) ltac:(lia) Hh ltac:(done)) as H.
  rewrite firstn_all in H. unfold lower_labels in H. rewrite length_rev in H. exact H.
Qed.

(** *** Sorting *)

Lemma bytes_leb_refl a : bytes_leb a a = true.
Proof. induction a as [|x a IH]; cbn; [done|]. rewrite Z.ltb_irrefl. exact IH. Qed.

Lemma bytes_leb_total a b : bytes_leb a b = true \/ bytes_leb b a = true.
Proof.
  revert b. induction a as [|x a IH]; intros [|y b]; cbn; auto.
  destruct (Z.ltb_spec (bz x) (bz y)), (Z.ltb_spec (bz y) (bz x)); auto.
Qed.

Lemma bytes_leb_trans a b c : bytes_leb a b = true -> bytes_leb b c = true -> bytes_leb a c = true.
Proof.
  revert b c. induction a as [|x a IH]; intros [|y b] [|z c]; cbn; try done.
  destruct (Z.ltb_spec (bz x) (bz y)), (Z.ltb_spec (bz y) (bz x)), (Z.ltb_spec (bz y) (bz z)), (Z.ltb_spec (bz z) (bz y)),
    (Z.ltb_spec (bz x) (bz z)), (Z.ltb_spec (bz z) (bz x)); try done; try lia. apply IH.
Qed.

Lemma bytes_leb_anti a b : bytes_leb a b = true -> bytes_leb b a = true -> a = b.
Proof.
  revert b. induction a as [|x a IH]; intros [|y b]; cbn; try done.
  destruct (Z.ltb_spec (bz x) (bz y)), (Z.ltb_spec (bz y) (bz x)); try done; try lia.
  intros H1 H2. f_equal; [apply bz_inj; lia|by apply IH].
Qed.

Definition sorted_le : list bytes -> Prop := StronglySorted (fun a b => bytes_leb a b = true).

Lemma insert_key_elem k l x : x ∈ insert_key k l <-> x = k \/ x ∈ l.
Proof.
  induction l as [|y l IH]; cbn; [set_solver|]. destruct (bytes_leb k y); [set_solver|]. rewrite !elem_of_cons, IH. naive_solver.
Qed.

Lemma insert_key_sorted k l : sorted_le l -> sorted_le (insert_key k l).
Proof.
  induction 1 as [|y l Hl IH Hy]; cbn; [by repeat constructor|]. destruct (bytes_leb k y) eqn:Hk.
  - constructor; [by constructor|]. constructor; [done|]. eapply Forall_impl; [exact Hy|]. intros z. by apply bytes_leb_trans.
  - constructor; [done|]. apply Forall_forall. intros z [->|Hz]%insert_key_elem.
    + destruct (bytes_leb_total k y); congruence.
    + rewrite Forall_forall in Hy. by apply Hy.
Qed.

Lemma sort_keys_spec l : sorted_le (sort_keys l) /\ forall x, x ∈ sort_keys l <-> x ∈ l.
Proof.
  induction l as [|k l [Hs He]]; [by split; [constructor|]|]. cbn. split; [by apply insert_key_sorted|].
  intros x. rewrite insert_key_elem, He, elem_of_cons. done.
Qed.

Lemma dedup_elem l x : x ∈ dedup l <-> x ∈ l.
Proof.
  induction l as [|y l IH]; [done|]. cbn [dedup]. destruct l as [|z l]; [done|]. case_decide as Hd.
  - subst. rewrite IH. set_solver.
  - rewrite !elem_of_cons, IH, elem_of_cons. done.
Qed.

Lemma dedup_sorted l : sorted_le l -> StronglySorted bytes_lt (dedup l).
Proof.
  induction 1 as [|y l Hl IH Hy]; [constructor|]. cbn [dedup]. destruct l as [|z l]; [by repeat constructor|].
  case_decide as Hd; [done|]. constructor; [done|]. apply Forall_forall. intros w Hw. apply (dedup_elem (z :: l)) in Hw.
  rewrite Forall_forall in Hy. split; [by apply Hy|]. intros ->. apply Hd.
  pose proof (Hy z ltac:(by left)) as H1. apply elem_of_cons in Hw as [->|Hw]; [done|].
  inversion Hl as [|? ? _ Hz]; subst. rewrite Forall_forall in Hz. by apply bytes_leb_anti; [|apply Hz].
Qed.

Lemma build_spec this :
  exists s, build this = Ok (mkRules s (b_ip_table this)) /\ forall k, fset_contains k s = true <-> k ∈ domain_keys this.
Proof.
  unfold build. destruct (sort_keys_spec (domain_keys this)) as [Hs He].
  destruct (fset_build_sorted _ (dedup_sorted _ Hs)) as [s Hb]. rewrite Hb. cbn. exists s. split; [done|].
  intros k. by rewrite (fset_build_contains _ _ _ Hb), dedup_elem, He.
Qed.
End matching.

(** *** Loading *)

Section loading.
Context `{F : FstSet} {FL : FstSetLaws F} `{N : NetTable} {NL : NetTableLaws N}.

Definition rule_keys (domains : list bytes) : list bytes := omap domain_to_fst_key domains.

Lemma foldl_add_domain domains this :
  foldl add_domain this domains = mkBuilder (domain_keys this ++ rule_keys domains) (b_ip_table this).
Proof.
  revert this. induction domains as [|d domains IH]; intros this; cbn [foldl rule_keys omap list_omap].
  { rewrite app_nil_r. by destruct this. }
  rewrite IH. unfold add_domain. unfold rule_keys. cbn [omap list_omap]. destruct (domain_to_fst_key d); [|done]. cbn.
  by rewrite <- app_assoc.
Qed.

(** A CIDR rule is accepted exactly when it is valid, and adds its network. *)
Lemma add_cidr_spec this cidr :
  (cidr_valid cidr -> exists t, add_cidr this cidr = Ok (mkBuilder (domain_keys this) t) /\
     forall ip, table_matches ip t = cidr_contains cidr ip || table_matches ip (b_ip_table this)) /\
  (~ cidr_valid cidr -> exists e, add_cidr this cidr = Err e).
Proof.
  unfold add_cidr, cidr_valid, cidr_contains, cidr_parts.
  destruct (split_once Byte.x2f cidr) as [[addr_str prefix_str]|]; cbn [ok_or res_bind mbind option_bind]; [|split; [done|by eexists]].
  destruct (parse_uint 256 prefix_str) as [len|] eqn:Hlen; cbn [ok_or res_bind mbind option_bind]; [|split; [done|by eexists]].
  destruct (ip_from_str addr_str) as [addr|] eqn:Ha; cbn [ok_or res_bind mbind option_bind]; [|split; [done|by eexists]].
  apply parse_uint_range in Hlen; [|lia].
  assert (Hins : (len <= ip_width addr /\ ip_bits addr mod 2 ^ (ip_width addr - len) = 0 -> exists t,
      table_insert_net addr len (b_ip_table this) = Ok t /\
      forall ip, table_matches ip t = in_network addr len ip || table_matches ip (b_ip_table this)) /\
    (~ (len <= ip_width addr /\ ip_bits addr mod 2 ^ (ip_width addr - len) = 0) -> exists e,
      table_insert_net addr len (b_ip_table this) = Err e)).
  { unfold table_insert_net. pose proof (network_new_Some addr len ltac:(lia)) as Hn.
    destruct (network_new addr len) as [net|] eqn:E; cbn [ok_or res_bind].
    - split; [|intros Hno; exfalso; apply Hno, Hn; by eexists]. intros _. eexists. split; [done|].
      intros ip. by apply table_insert_matches.
    - split; [|by eexists]. intros Hv. by destruct (proj2 Hn Hv). }
  destruct Hins as [Hyes Hno]. destruct addr as [bits|bits]; cbn [ip_width ip_bits] in *.
  - split.
    + intros Hv. destruct (Hyes Hv) as (t & Ht & Hm). destruct (Z.leb_spec len 32); [|lia]. rewrite Ht. by exists t.
    + intros Hv. destruct (Z.leb_spec len 32); [|by eexists]. destruct (Hno Hv) as [e ->]. by eexists.
  - split.
    + intros Hv. destruct (Hyes Hv) as (t & Ht & Hm). destruct (Z.leb_spec len 128); [|lia]. rewrite Ht. by exists t.
    + intros Hv. destruct (Z.leb_spec len 128); [|by eexists]. destruct (Hno Hv) as [e ->]. by eexists.
Qed.

Lemma add_cidrs_spec cidrs this :
  (Forall cidr_valid cidrs -> exists t, add_cidrs cidrs this = Ok (mkBuilder (domain_keys this) t) /\
     forall ip, table_matches ip t = existsb (fun c => cidr_contains c ip) cidrs || table_matches ip (b_ip_table this)) /\
  (~ Forall cidr_valid cidrs -> exists e, add_cidrs cidrs this = Err e).
Proof.
  revert this. induction cidrs as [|c cidrs IH]; intros this; cbn [add_cidrs existsb].
  { split; [|intros H; by destruct H]. intros _. exists (b_ip_table this). split; [by destruct this|done]. }
  destruct (add_cidr_spec this c) as [Hyes Hno]. rewrite Forall_cons. split.
  - intros [Hc Hcs]. destruct (Hyes Hc) as (t & -> & Hm). cbn [res_bind].
    destruct (IH (mkBuilder (domain_keys this) t)) as [Hy _]. destruct (Hy Hcs) as (t' & -> & Hm'). exists t'. split; [done|].
    intros ip. rewrite Hm'. cbn [b_ip_table]. rewrite Hm. destruct (cidr_contains c ip), (existsb _ cidrs); done.
  - intros Hv. destruct (decide (cidr_valid c)) as [Hc|Hc]; [|by destruct (Hno Hc) as [e ->]; exists e]. destruct (Hyes Hc) as (t & -> & Hm). cbn [res_bind].
    apply IH. tauto.
Qed.

Lemma load_loop_spec fs this :
  (Forall cidr_valid (all_cidrs fs) -> exists t,
     load_loop (map Ok fs) this = Ok (mkBuilder (domain_keys this ++ rule_keys (all_domains fs)) t) /\
     forall ip, table_matches ip t = existsb (fun c => cidr_contains c ip) (all_cidrs fs) || table_matches ip (b_ip_table this)) /\
  (~ Forall cidr_valid (all_cidrs fs) -> exists e, load_loop (map Ok fs) this = Err e).
Proof.
  unfold all_cidrs, all_domains. revert this. induction fs as [|[ds cs] fs IH]; intros this; cbn [map load_loop concat fst snd res_bind].
  { split; [|intros H; by destruct H]. intros _. exists (b_ip_table this). unfold rule_keys. cbn. rewrite app_nil_r. split; [by destruct this|done]. }
  rewrite foldl_add_domain, Forall_app. destruct (add_cidrs_spec cs (mkBuilder (domain_keys this ++ rule_keys ds) (b_ip_table this))) as [Hyes Hno].
  split.
  - intros [Hc Hcs]. destruct (Hyes Hc) as (t & -> & Hm). cbn [res_bind domain_keys].
    destruct (IH (mkBuilder (domain_keys this ++ rule_keys ds) t)) as [Hy _]. destruct (Hy Hcs) as (t' & -> & Hm'). exists t'.
    cbn [domain_keys b_ip_table] in *. unfold rule_keys in *. rewrite omap_app, <- app_assoc. split; [done|].
    intros ip. rewrite Hm', Hm, existsb_app. destruct (existsb _ cs), (existsb _ (concat _)); done.
  - intros Hv. destruct (decide (Forall cidr_valid cs)) as [Hc|Hc].
    + destruct (Hyes Hc) as (t & -> & Hm). cbn [res_bind]. apply IH. tauto.
    + destruct (Hno Hc) as [e ->]. by eexists.
Qed.

Lemma rule_keys_elem domains k :
  k ∈ rule_keys domains <-> exists d, d ∈ domains /\ domain_labels d <> [] /\ k = join (rev (domain_labels d)).
Proof.
  unfold rule_keys. rewrite list_elem_of_omap. split; intros (d & Hd & Hk); exists d; (split; [done|]).
  - rewrite domain_key_eq in Hk. case_decide; [done|]. injection Hk as <-. done.
  - rewrite domain_key_eq. destruct Hk as [Hne ->]. by rewrite decide_False.
Qed.

Definition nul_free (d : bytes) : Prop := Byte.x00 ∉ d.

Lemma labels_nul_free d : nul_free d -> Forall (fun l => Byte.x00 ∉ l) (domain_labels d).
Proof.
  intros Hd. unfold domain_labels. pose proof (trim_dots_sub d) as Hsub. destruct (trim_dots d) as [|x b]; [constructor|].
  assert (Hb : Byte.x00 ∉ x :: b) by (intros Hin; by apply Hd, Hsub). clear Hsub Hd. revert Hb. generalize (x :: b) as l. clear x b.
  assert (Hlow : forall y, to_ascii_lowercase1 y = Byte.x00 -> y = Byte.x00).
  { intros y. unfold to_ascii_lowercase1. destruct y; vm_compute; congruence. }
  induction l as [|y l IH]; intros Hb; cbn [split_on map].
  - repeat constructor. by apply not_elem_of_nil.
  - apply not_elem_of_cons in Hb as [Hy Hb]. specialize (IH Hb). destruct (decide (y = Byte.x2e)).
    + cbn. constructor; [by apply not_elem_of_nil|done].
    + destruct (split_on Byte.x2e l) as [|s ss]; cbn in *.
      * repeat constructor. intros Hin. apply list_elem_of_singleton in Hin. by apply Hy; symmetry; apply Hlow.
      * apply Forall_cons in IH as [Hs Hss]. constructor; [|done]. cbn. apply not_elem_of_cons. split; [|done].
        intros Hz. by apply Hy; symmetry; apply Hlow.
Qed.
End loading.

Lemma take_prefix_rev {A} (r h : list A) :
  r <> [] -> (exists n, (1 <= n <= length h)%nat /\ take n (rev h) = rev r) <-> r `suffix_of` h.
Proof.
  intros Hr. split.
  - intros (n & _ & Ht). exists (rev (drop n (rev h))). rewrite <- (rev_involutive r), <- Ht, <- rev_app_distr, take_drop.
    by rewrite rev_involutive.
  - intros [k ->]. exists (length r). rewrite length_app, rev_app_distr. split; [destruct r; [done|cbn; lia]|].
    apply take_app_length'. by rewrite length_rev.
Qed.

(** ** Properties *)

(** C22: the bypass decision. The rules load exactly when every network is
    canonical; then a target whose host is an address is bypassed if a
    configured network contains it, and any other target if its host is a
    configured domain or lies below one, whatever the case of the letters and
    the dots around them: searching the transducer label by label agrees with
    comparing lists of labels. *)
Theorem should_bypass_spec `{F : FstSet} (FL : FstSetLaws F) `{N : NetTable} (NL : NetTableLaws N) fs target :
  Forall nul_free (all_domains fs) -> nul_free (extract_host target) ->
  (Forall cidr_valid (all_cidrs fs) -> exists rules, load (map Ok fs) = Ok rules /\
     should_bypass rules target = bypass_spec fs target) /\
  (~ Forall cidr_valid (all_cidrs fs) -> exists e, load (map Ok fs) = Err e).
Proof.
  intros Hdom Hhost. unfold load. destruct (load_loop_spec fs BypassRulesBuilder_new) as [Hyes Hno]. split.
  - intros Hv. destruct (Hyes Hv) as (t & -> & Hm). cbn [res_bind domain_keys BypassRulesBuilder_new app].
    destruct (build_spec (mkBuilder (rule_keys (all_domains fs)) t)) as (s & -> & Hs). eexists. split; [done|].
    cbn [b_ip_table domain_keys] in *. unfold should_bypass, bypass_spec. destruct (ip_from_str (extract_host target)) as [ip|].
    + unfold match_ip. cbn [ip_table]. rewrite Hm. cbn. by rewrite table_new_matches, orb_false_r.
    + unfold match_domain. cbn [domain_fst]. apply eq_iff_eq_true. rewrite domain_matches_spec, existsb_exists.
      pose proof (labels_nul_free _ Hhost) as Hl. set (h := domain_labels (extract_host target)) in *.
      assert (Hkey : forall n d, d ∈ all_domains fs -> domain_labels d <> [] -> (1 <= n <= length h)%nat ->
        join (take n (rev h)) = join (rev (domain_labels d)) -> take n (rev h) = rev (domain_labels d)).
      { intros n d Hd Hne Hn Hj. rewrite Forall_forall in Hdom. pose proof (labels_nul_free _ (Hdom d Hd)) as Hld.
        apply (f_equal (split_on Byte.x00)) in Hj. rewrite !split_join in Hj; [done|..].
        - intros Hz. apply Hne. by rewrite <- (rev_involutive (domain_labels d)), Hz.
        - by apply Forall_rev.
        - intros Hz. apply (f_equal length) in Hz. rewrite length_take, length_rev in Hz. cbn [length] in Hz. lia.
        - apply Forall_take. by apply Forall_rev. }
      split.
      * intros (n & Hn & Hc). apply Hs, rule_keys_elem in Hc as (d & Hd & Hne & Hj). exists d.
        split; [by apply list_elem_of_In|]. unfold covers. rewrite andb_true_iff, !bool_decide_eq_true. split; [done|].
        apply take_prefix_rev; [done|]. exists n. split; [done|]. by apply Hkey.
      * intros (d & Hd & Hc). apply list_elem_of_In in Hd. unfold covers in Hc. rewrite andb_true_iff, !bool_decide_eq_true in Hc.
        destruct Hc as [Hne Hsuf]. fold h in Hsuf. apply take_prefix_rev in Hsuf as (n & Hn & Ht); [|done]. exists n. split; [done|].
        apply Hs, rule_keys_elem. exists d. rewrite Ht. done.
  - intros Hv. destruct (Hno Hv) as [e ->]. by exists e.
Qed.

(** ** Concrete parameters *)

(** A set kept as its list of keys, and a table kept as its list of networks. *)
#[export] Instance toy_fst : FstSet := {|
  fset := list bytes;
  fset_build := fun keys => Some keys;
  fset_contains := fun k s => bool_decide (k ∈ s);
  fset_is_empty := fun s => bool_decide (s = [])
|}.

#[export] Instance toy_fst_laws : FstSetLaws toy_fst.
Proof.
  split; cbn; intros; simplify_eq; [by eexists| |]; by rewrite bool_decide_eq_true.
Qed.

#[export] Instance toy_nets : NetTable := {|
  network := IpAddr * Z;
  network_new := fun ip len =>
    if decide (len <= ip_width ip /\ ip_bits ip mod 2 ^ (ip_width ip - len) = 0) then Some (ip, len) else None;
  table := list (IpAddr * Z);
  table_new := [];
  table_insert := cons;
  table_matches := fun ip t => existsb (fun '(net, len) => in_network net len ip) t;
  table_len := fun t => (zlen t, 0)
|}.

#[export] Instance toy_nets_laws : NetTableLaws toy_nets.
Proof.
  split; cbn; intros; simplify_eq.
  - case_decide; [by split; [|eexists]|]. by split; [intros [? ?]|].
  - done.
  - by case_decide; simplify_eq.
  - done.
  - rewrite zlen_cons. intros [=]. pose proof (zlen_nonneg t). lia.
Qed.

#[export] Instance nul_free_dec d : Decision (nul_free d).
Proof. unfold nul_free. apply _. Defined.

Definition sample_files : list BypassFile :=
  [([str "Example.com"; str ".lan."], [str "10.0.0.0/8"]); ([], [str "2001:db8::/32"])].

Example should_bypass_spec_witness :
  exists rules, load (map Ok sample_files) = Ok rules /\
    should_bypass rules (str "sub.EXAMPLE.com:443") = bypass_spec sample_files (str "sub.EXAMPLE.com:443").
Proof.
  apply (should_bypass_spec toy_fst_laws toy_nets_laws sample_files (str "sub.EXAMPLE.com:443"));
    by apply (bool_decide_unpack _); vm_compute.
Defined.

(** The tests of the source, on the concrete parameters. *)
Example bypass_examples :
  let decide_all files := map (bypass_spec files) in
  decide_all sample_files
    (map str ["example.com:443"; "a.lan:80"; "notexample.com:1"; "com:80"; "10.1.2.3:53"; "11.1.2.3:53"; "[2001:db8::1]:80";
              "[2001:db9::1]:80"]%string) =
  [true; true; false; false; true; false; true; false] /\
  load [Ok ([], [str "10.0.0.1/8"])] = Err "invalid IPv4 CIDR"%string /\
  load [Ok ([], [str "10.0.0.0/33"])] = Err "IPv4 prefix > 32"%string.
Proof. by vm_compute. Qed.
