(* ===== verification/Proxy.v ===== *)
(** * The local proxy's requests

    [src/client/proxy.rs]: reading the head of a request, checking the proxy
    password, finding the target, and turning an absolute-form request into
    the one the target server expects: the proxy's own header fields go, the
    request line is rewritten in place or rebuilt. Parsing a head ([httparse]),
    an authority ([http]) and a URL ([url]) are parameters; what the local
    socket yields is a script. *)

From S2P Require Import Prelude Frame Text.

Definition MAX_HEADER_LEN : Z := 16 * 1024.
Definition MAX_HEADERS : Z := 64.
Definition MAX_VERSION_LEN : Z := 16.

(** ** Parameters *)

(** [httparse::Request::parse] with room for a number of header fields. *)
Inductive HeadParse : Type :=
| HComplete (amt : Z) (method path : option bytes) (headers : list (bytes * bytes))
| HPartial
| HError (e : string).

Class HttpHead := { http_parse : Z -> bytes -> HeadParse }.

(** A complete head ends with a line feed; once the parser has answered, more
    bytes do not change its answer. *)
Class HttpHeadLaws (H : HttpHead) := {
  http_complete : forall m b amt method path headers, http_parse m b = HComplete amt method path headers ->
    amt <= zlen b /\ exists h, ztake amt b = h ++ [Byte.x0a];
  http_decided : forall m b c, http_parse m b <> HPartial -> http_parse m (b ++ c) = http_parse m b
}.

(** [Authority::from_str], its [host] and [port_u16]; [Url::parse] and the
    parts of a URL. *)
Record Url : Type := mkUrl {
  url_path : bytes;
  url_query : option bytes;
  url_host_str : option bytes;
  url_port_or_known_default : option Z
}.

Class UriText := {
  authority_parse : bytes -> option (bytes * option Z);
  url_parse : bytes -> option Url
}.

(** The serialisation of a hierarchical URL escapes controls and spaces. *)
Definition visible (b : byte) : Prop := 32 < bz b.

Class UriTextLaws (U : UriText) := {
  url_visible : forall s u h, url_parse s = Some u -> url_host_str u = Some h ->
    Forall visible (url_path u) /\ Forall visible (default [] (url_query u));
  url_port_range : forall s u p, url_parse s = Some u -> url_port_or_known_default u = Some p -> 0 <= p < u16_max
}.

(** ** Reading a request *)

(** What a read of the local socket gives: bytes, end of file, an error, or
    nothing before the caller's deadline. A script that ends yields nothing
    more. *)
Inductive ClientRead : Type := CData (b : bytes) | CEof | CError (e : string) | CElapsed.

Record ProxyRequest : Type := mkProxyRequest {
  pr_method : bytes;
  pr_header_len : Z;
  pr_target : bytes;
  pr_authorized : bool
}.

Definition is_ascii_whitespace (b : byte) : bool :=
  bool_decide (b ∈ [Byte.x20; Byte.x09; Byte.x0a; Byte.x0c; Byte.x0d]).

(** The first loop of [trim_ascii]; the second is the same from the end. *)
Fixpoint trim_ascii_front (b : bytes) : bytes :=
  match b with
  | first :: rest => if is_ascii_whitespace first then trim_ascii_front rest else b
  | [] => []
  end.
Definition trim_ascii (b : bytes) : bytes := reverse (trim_ascii_front (reverse (trim_ascii_front b))).

Definition auth_matches (headers : list (bytes * bytes)) (expected : bytes) : bool :=
  match List.find (fun h => eq_ignore_ascii_case (fst h) (str "proxy-authorization")) headers with
  | Some header => bool_decide (trim_ascii (snd header) = expected)
  | None => false
  end.

Section parsing.
Context `{H : HttpHead}.

Definition try_parse_head (buffer : bytes) (expected_auth : option bytes) : Res string (option ProxyRequest) :=
  match http_parse MAX_HEADERS buffer with
  | HComplete amt method path headers =>
      let? method := ok_or method "no method"%string in
      let? target := ok_or path "no path"%string in
      let authorized := match expected_auth with None => true | Some expected => auth_matches headers expected end in
      Ok (Some (mkProxyRequest method amt target authorized))
  | HPartial => Ok None
  | HError e => Err e
  end.

(** The request, the buffer and what the socket has left; [CElapsed] is the
    caller's timeout. *)
Fixpoint parse_proxy_request (reader : list ClientRead) (buffer : bytes) (expected_auth : option bytes)
    : Res string (ProxyRequest * bytes * list ClientRead) :=
  let? request := try_parse_head buffer expected_auth in
  match request with
  | Some request => Ok (request, buffer, reader)
  | None =>
      if MAX_HEADER_LEN <? zlen buffer then Err "header too large"%string
      else
        match reader with
        | CData b :: reader =>
            if zlen b =? 0 then Err "connection closed during header parsing"%string
            else parse_proxy_request reader (buffer ++ b) expected_auth
        | CEof :: _ => Err "connection closed during header parsing"%string
        | CError e :: _ => Err e
        | CElapsed :: _ | [] => Err "proxy request parse timeout"%string
        end
  end.
End parsing.

(** ** The target *)

Definition strip_brackets (host : bytes) : bytes :=
  default host (h ← strip_prefix (str "[") host; strip_suffix (str "]") h).

Section target.
Context `{U : UriText}.

Definition resolve_connect_host (authority : bytes) : Res string bytes :=
  let? (host, port) := ok_or (authority_parse authority) "invalid target"%string in
  let? port := ok_or port "port required"%string in
  Ok (strip_brackets host ++ [Byte.x3a] ++ dec_text port).

Definition origin_form (url : Url) : bytes :=
  match url_path url with [] => [Byte.x2f] | path => path end ++
  match url_query url with Some q => Byte.x3f :: q | None => [] end.

Definition resolve_request (method target : bytes) : Res string (bytes * option bytes) :=
  if decide (method = str "CONNECT") then
    let? host := resolve_connect_host target in Ok (host, None)
  else
    let? url := ok_or (url_parse target) "invalid proxy URL"%string in
    let? host := ok_or (url_host_str url) "URL has no host"%string in
    let? port := ok_or (url_port_or_known_default url) "port required"%string in
    Ok (host ++ [Byte.x3a] ++ dec_text port, Some (origin_form url)).

Definition resolve_target_host (method url_str : bytes) : Res string bytes :=
  let? (host, _) := resolve_request method url_str in Ok host.
End target.

(** ** The request line *)

(** [dst[pos..pos + len].copy_from_slice(src)]: out of range, it panics. *)
Definition copy_at {E} (pos : Z) (src dst : bytes) : Res E bytes :=
  if pos + zlen src <=? zlen dst then Ok (ztake pos dst ++ src ++ zdrop (pos + zlen src) dst) else Panic.

(** [buf.copy_within(a..b, dest)]. *)
Definition copy_within {E} (a b dest : Z) (buf : bytes) : Res E bytes :=
  if (a <=? b) && (b <=? zlen buf) then copy_at dest (slice a b buf) buf else Panic.

Definition write_request_line {E} (dst method origin_path version : bytes) : Res E bytes :=
  let pos := 0 in
  let? dst := copy_at pos method dst in
  let pos := pos + zlen method in
  let? dst := copy_at pos [Byte.x20] dst in
  let pos := pos + 1 in
  let? dst := copy_at pos origin_path dst in
  let pos := pos + zlen origin_path in
  let? dst := copy_at pos [Byte.x20] dst in
  let pos := pos + 1 in
  let? dst := copy_at pos version dst in
  let pos := pos + zlen version in
  let? dst := copy_at pos [Byte.x0d] dst in
  copy_at (pos + 1) [Byte.x0a] dst.

(** [trim_end_matches('\r')]. *)
Fixpoint drop_crs (l : bytes) : bytes :=
  match l with b :: r => if decide (b = Byte.x0d) then drop_crs r else l | [] => [] end.
Definition trim_end_cr (l : bytes) : bytes := reverse (drop_crs (reverse l)).

Definition rewrite_request_line (buf : bytes) (header_len : Z) (method origin_path : bytes) : Res string bytes :=
  let scan_len := Z.min header_len (zlen buf) in
  let? line_end := ok_or (memchr Byte.x0a (ztake scan_len buf)) "request line has no newline"%string in
  let old_line_len := line_end + 1 in
  let first_line := ztake line_end buf in
  if negb (utf8_valid first_line) then Err "request line is not valid UTF-8"%string
  else
    let first_line_trimmed := trim_end_cr first_line in
    let? (_, version) := ok_or (rsplit_once Byte.x20 first_line_trimmed) "malformed request line"%string in
    if MAX_VERSION_LEN <? zlen version then Err "unsupported HTTP version"%string
    else
      let new_line_len := zlen method + 1 + zlen origin_path + 1 + zlen version + 2 in
      if new_line_len <=? old_line_len then
        let total := zlen buf in
        let delta := old_line_len - new_line_len in
        let? buf := copy_within old_line_len total new_line_len buf in
        let? line := write_request_line (ztake new_line_len buf) method origin_path version in
        Ok (ztake (total - delta) (line ++ zdrop new_line_len buf))
      else
        let new_line := method ++ [Byte.x20] ++ origin_path ++ [Byte.x20] ++ version ++ [Byte.x0d; Byte.x0a] in
        let rest := zdrop old_line_len buf in
        Ok (new_line ++ rest).

Definition rewrite_absolute_url `{U : UriText} (buf method url_str : bytes) : Res string bytes :=
  match url_parse url_str with
  | None => Ok buf
  | Some url => rewrite_request_line buf (zlen buf) method (origin_form url)
  end.

(** ** The proxy's own header fields *)

Definition PROXY_ONLY_HEADERS : list bytes := [str "proxy-authorization"; str "proxy-connection"].

Definition is_proxy_only_header (line : bytes) : bool :=
  match memchr Byte.x3a line with
  | None => false
  | Some colon => existsb (eq_ignore_ascii_case (trim_ascii (ztake colon line))) PROXY_ONLY_HEADERS
  end.

(** The line starts with a space or a tab. *)
Definition is_continuation (line : bytes) : bool :=
  match line with b :: _ => bool_decide (b = Byte.x20) || bool_decide (b = Byte.x09) | [] => false end.

(** The [while cursor < head.len()] loop. *)
Fixpoint strip_loop (fuel : nat) (head : bytes) (cursor : Z) (dropping : bool) (kept : bytes) : bytes :=
  match fuel with
  | O => kept
  | S fuel =>
      if cursor <? zlen head then
        let rest := zdrop cursor head in
        match memchr Byte.x0a rest with
        | None => kept ++ rest
        | Some rel =>
            let line_end := cursor + rel + 1 in
            let line := slice cursor line_end head in
            let dropping := if is_continuation line then dropping else is_proxy_only_header line in
            strip_loop fuel head line_end dropping (if dropping then kept else kept ++ line)
        end
      else kept
  end.

(** The new length of the head, and the buffer. *)
Definition strip_proxy_headers (buf : bytes) (header_len : Z) : Res string (Z * bytes) :=
  let head_end := Z.min header_len (zlen buf) in
  let head := ztake head_end buf in
  match memchr Byte.x0a head with
  | None => Ok (header_len, buf)
  | Some pos =>
      let request_line_end := pos + 1 in
      let kept := strip_loop (length head) head request_line_end false (ztake request_line_end head) in
      if zlen kept =? zlen head then Ok (header_len, buf)
      else
        let new_len := zlen kept in
        let? buf := copy_at 0 kept buf in
        if header_len <? zlen buf then
          let? buf := copy_within header_len (zlen buf) new_len buf in
          let tail_len := zlen buf - header_len in
          Ok (new_len, ztake (new_len + tail_len) buf)
        else Ok (new_len, ztake new_len buf)
  end.

(** ** Specification *)

(** The complete lines of a text, each with its line feed, and what follows
    the last one. *)
Fixpoint lines (l : bytes) : list bytes * bytes :=
  match l with
  | [] => ([], [])
  | x :: l =>
      let (ls, p) := lines l in
      if decide (x = Byte.x0a) then ([x] :: ls, p)
      else match ls with s :: ls => ((x :: s) :: ls, p) | [] => ([], x :: p) end
  end.

(** Header fields: a line with the continuation lines after it. *)
Fixpoint fields (ls : list bytes) : list (list bytes) :=
  match ls with
  | [] => []
  | l :: ls =>
      match fields ls with
      | (c :: f) :: fs => if is_continuation c then (l :: c :: f) :: fs else [l] :: (c :: f) :: fs
      | fs => [l] :: fs
      end
  end.

(** A text between any white space, and a name written in either case. *)
Definition white (b : byte) : Prop := b ∈ [Byte.x20; Byte.x09; Byte.x0a; Byte.x0c; Byte.x0d].

Definition trims_to (v text : bytes) : Prop :=
  exists pre post, v = pre ++ text ++ post /\ Forall white pre /\ Forall white post /\
    (forall b, head text = Some b -> ~ white b) /\ (forall b, last text = Some b -> ~ white b).

Definition spells (s name : bytes) : Prop :=
  Forall2 (fun b n => b = n \/ (65 <= bz b <= 90 /\ bz n = bz b + 32)) s name.

(** The credentials: the first header field named Proxy-Authorization has the
    expected value. *)
Definition carries_password (headers : list (bytes * bytes)) (expected : bytes) : Prop :=
  exists before name value after, headers = before ++ (name, value) :: after /\
    Forall (fun h => ~ spells (fst h) (str "proxy-authorization")) before /\
    spells name (str "proxy-authorization") /\ trims_to value expected.

(** A field of the proxy's own: its first line is not a continuation, and the
    text before the first colon is one of two names. *)
Definition proxy_field (f : list bytes) : Prop :=
  exists name rest more, f = (name ++ Byte.x3a :: rest) :: more /\ Byte.x3a ∉ name /\
    head (name ++ [Byte.x3a]) ∉ [Some Byte.x20; Some Byte.x09] /\
    exists text, trims_to name text /\
      (spells text (str "proxy-authorization") \/ spells text (str "proxy-connection")).

Definition kept_field (f : list bytes) : Prop := ~ proxy_field f.

Lemma white_spec b : white b <-> is_ascii_whitespace b = true.
Proof. unfold white, is_ascii_whitespace. by rewrite bool_decide_eq_true. Qed.

Lemma trim_front_white pre l : Forall white pre -> trim_ascii_front (pre ++ l) = trim_ascii_front l.
Proof. induction 1 as [|b pre Hb _ IH]; cbn; [done|]. apply white_spec in Hb. by rewrite Hb. Qed.

Lemma trim_front_stop l : (forall b, head l = Some b -> ~ white b) -> trim_ascii_front l = l.
Proof.
  destruct l as [|b l]; cbn; [done|]. intros H. specialize (H b eq_refl). rewrite white_spec in H.
  by destruct (is_ascii_whitespace b).
Qed.

Lemma trim_front_split l : exists pre, l = pre ++ trim_ascii_front l /\ Forall white pre /\
  (forall b, head (trim_ascii_front l) = Some b -> ~ white b).
Proof.
  induction l as [|b l (pre & Hl & Hp & Hh)]; [by exists []|]. cbn [trim_ascii_front].
  destruct (is_ascii_whitespace b) eqn:Hb.
  - exists (b :: pre). split; [by rewrite Hl at 1|]. split; [|done]. constructor; [by apply white_spec|done].
  - exists []. split; [done|]. split; [constructor|]. intros b' [= <-]. rewrite white_spec. congruence.
Qed.

Lemma trim_ascii_spec v text : trim_ascii v = text <-> trims_to v text.
Proof.
  unfold trim_ascii, trims_to. split.
  - intros <-. destruct (trim_front_split v) as (pre & Hv & Hpre & Hh).
    destruct (trim_front_split (reverse (trim_ascii_front v))) as (post & Hr & Hpost & Hl).
    set (t := trim_ascii_front (reverse (trim_ascii_front v))) in *.
    assert (Hm : trim_ascii_front v = reverse t ++ reverse post) by (by rewrite <- reverse_app, <- Hr, reverse_involutive).
    exists pre, (reverse post). split; [by rewrite <- Hm|]. split; [done|]. split; [by apply Forall_reverse|]. split.
    + intros b Hb. apply Hh. rewrite Hm. by destruct (reverse t).
    + intros b Hb. apply Hl. by rewrite last_reverse in Hb.
  - intros (pre & post & -> & Hpre & Hpost & Hh & Hl). rewrite trim_front_white by done.
    destruct text as [|x text].
    + cbn [app]. rewrite <- (app_nil_r post), trim_front_white by done. done.
    + rewrite (trim_front_stop ((x :: text) ++ post)) by exact Hh. rewrite reverse_app, trim_front_white by by apply Forall_reverse.
      rewrite trim_front_stop; [apply reverse_involutive|]. by rewrite head_reverse.
Qed.

Lemma lowercase1_spec b n : ~ 65 <= bz n <= 90 ->
  to_ascii_lowercase1 b = n <-> b = n \/ (65 <= bz b <= 90 /\ bz n = bz b + 32).
Proof.
  intros Hn. unfold to_ascii_lowercase1. destruct (in_range 65 90 b) eqn:Hr.
  - apply andb_true_iff in Hr as [H1%Z.leb_le H2%Z.leb_le]. split.
    + intros <-. right. split; [done|]. rewrite bz_zb. apply Z.mod_small. lia.
    + intros [->|[_ E]]; [by destruct Hn|]. rewrite <- E. apply zb_bz.
  - apply andb_false_iff in Hr. rewrite !Z.leb_gt in Hr. split; [by left|]. intros [|[? _]]; [done|lia].
Qed.

Lemma spells_spec s name :
  Forall (fun n => ~ 65 <= bz n <= 90) name -> eq_ignore_ascii_case s name = true <-> spells s name.
Proof.
  intros Hn. unfold eq_ignore_ascii_case. rewrite bool_decide_eq_true.
  assert (Hl : to_ascii_lowercase name = name).
  { clear s. induction Hn as [|n name Hn _ IH]; cbn; [done|]. f_equal; [|done]. apply lowercase1_spec; [done|by left]. }
  rewrite Hl. clear Hl. unfold to_ascii_lowercase, spells. revert s. induction Hn as [|n name Hn _ IH]; intros [|b s]; cbn.
  - split; [constructor|done].
  - split; [done|]. by inversion 1.
  - split; [done|]. by inversion 1.
  - rewrite Forall2_cons, <- IH, <- lowercase1_spec by done. split; [by intros [= -> ->]|by intros [-> ->]].
Qed.

Lemma spells_authorization s : eq_ignore_ascii_case s (str "proxy-authorization") = true <-> spells s (str "proxy-authorization").
Proof. apply spells_spec. repeat constructor; vm_compute; intuition congruence. Qed.

Lemma spells_connection s : eq_ignore_ascii_case s (str "proxy-connection") = true <-> spells s (str "proxy-connection").
Proof. apply spells_spec. repeat constructor; vm_compute; intuition congruence. Qed.

(** The code's check of the credentials. *)
Lemma auth_matches_spec headers expected : auth_matches headers expected = true <-> carries_password headers expected.
Proof.
  unfold auth_matches, carries_password. induction headers as [|[name value] headers IH]; cbn [List.find fst].
  { split; [done|]. by intros ([|? ?] & ? & ? & ? & ? & _). }
  destruct (eq_ignore_ascii_case name (str "proxy-authorization")) eqn:Hn.
  - cbn [snd]. rewrite bool_decide_eq_true, trim_ascii_spec. apply spells_authorization in Hn. split.
    + intros Ht. by exists [], name, value, headers.
    + intros (before & n & v & after & He & Hb & _ & Ht). destruct before as [|h before]; [by injection He as -> -> ->|].
      injection He as <- ->. by apply Forall_cons in Hb as [Hb _].
  - assert (Hno : ~ spells name (str "proxy-authorization")) by (rewrite <- spells_authorization; congruence).
    rewrite IH. split.
    + intros (before & n & v & after & -> & Hb & Hs). exists ((name, value) :: before), n, v, after. split; [done|]. by split; [constructor|].
    + intros (before & n & v & after & He & Hb & Hs & Ht). destruct before as [|h before]; [injection He as -> -> ->; done|].
      injection He as <- ->. apply Forall_cons in Hb as [_ Hb]. by exists before, n, v, after.
Qed.

(** The code's choice of the fields it drops. *)
Definition drops_field (f : list bytes) : bool :=
  match f with l :: _ => negb (is_continuation l) && is_proxy_only_header l | [] => false end.

Lemma drops_field_spec f : drops_field f = true <-> proxy_field f.
Proof.
  unfold proxy_field. destruct f as [|l more]; cbn [drops_field]; [split; [done|by intros (? & ? & ? & ? & _)]|].
  unfold is_proxy_only_header. destruct (memchr Byte.x3a l) as [i|] eqn:Hm.
  - destruct (memchr_Some _ _ _ Hm) as (name & rest & -> & -> & Hn). rewrite ztake_app_exact by done.
    cbn [existsb PROXY_ONLY_HEADERS]. rewrite andb_true_iff, orb_false_r, orb_true_iff, spells_authorization, spells_connection.
    assert (Hc : negb (is_continuation (name ++ Byte.x3a :: rest)) = true <-> head (name ++ [Byte.x3a]) ∉ [Some Byte.x20; Some Byte.x09]).
    { rewrite !not_elem_of_cons. destruct name as [|b name]; cbn; [split; [|done]; intros _; split_and!; [done..|apply not_elem_of_nil]|].
      rewrite negb_true_iff, orb_false_iff, !bool_decide_eq_false. split; [intros [? ?]; split_and!; [congruence..|apply not_elem_of_nil]|].
      intros (? & ? & _). split; congruence. }
    rewrite Hc. split.
    + intros [Hh Hs]. exists name, rest, more. split; [done|]. split; [done|]. split; [done|].
      exists (trim_ascii name). split; [by apply trim_ascii_spec|done].
    + intros (name' & rest' & more' & He & Hn' & Hh & text & Ht & Hs). injection He as He _.
      apply (f_equal (split_once Byte.x3a)) in He. rewrite !split_once_app in He by done. injection He as <- _. apply trim_ascii_spec in Ht as <-. done.
  - rewrite andb_false_r. split; [done|]. intros (name & rest & ? & He & _). injection He as -> _.
    apply memchr_None in Hm. destruct Hm. rewrite elem_of_app. right. by left.
Qed.

#[export] Instance kept_field_dec f : Decision (kept_field f).
Proof.
  unfold kept_field. destruct (drops_field f) eqn:Hd; [right|left]; rewrite <- drops_field_spec, Hd; [by intros []|done].
Defined.

(** The header fields of a head, after its request line. *)
Definition header_fields (head : bytes) : list (list bytes) := fields (List.tl (fst (lines head))).

(** A head without the proxy's own fields. *)
Definition strip_spec (head : bytes) : bytes :=
  match lines head with
  | (request_line :: ls, p) => request_line ++ concat (concat (filter kept_field (fields ls))) ++ p
  | ([], p) => p
  end.

(** The request line becomes the method, the path and the old version; the
    rest of the buffer stays. *)
Definition rewrite_spec (buf : bytes) (header_len : Z) (method origin_path : bytes) : Res string bytes :=
  match split_once Byte.x0a buf with
  | Some (first_line, rest) =>
      if zlen first_line <? header_len then
        if utf8_valid first_line then
          match rsplit_once Byte.x20 (trim_end_cr first_line) with
          | Some (_, version) =>
              if zlen version <=? MAX_VERSION_LEN then
                Ok (method ++ [Byte.x20] ++ origin_path ++ [Byte.x20] ++ version ++ [Byte.x0d; Byte.x0a] ++ rest)
              else Err "unsupported HTTP version"%string
          | None => Err "malformed request line"%string
          end
        else Err "request line is not valid UTF-8"%string
      else Err "request line has no newline"%string
  | None => Err "request line has no newline"%string
  end.

(** ** Lemmas *)

(** *** Writing in place *)

Lemma copy_at_app {E} (a old c src : bytes) :
  zlen old = zlen src -> @copy_at E (zlen a) src (a ++ old ++ c) = Ok (a ++ src ++ c).
Proof.
  intros Ho. pose proof (zlen_nonneg c). unfold copy_at. rewrite !zlen_app. destruct (Z.leb_spec (zlen a + zlen src) (zlen a + (zlen old + zlen c))); [|lia].
  rewrite ztake_app_exact by done. rewrite (app_assoc a old c), zdrop_app_exact by zl. done.
Qed.

Lemma write_request_line_eq {E} (dst method origin_path version : bytes) :
  zlen dst = zlen method + 1 + zlen origin_path + 1 + zlen version + 2 ->
  @write_request_line E dst method origin_path version =
  Ok (method ++ [Byte.x20] ++ origin_path ++ [Byte.x20] ++ version ++ [Byte.x0d; Byte.x0a]).
Proof.
  intros Hl. pose proof (zlen_nonneg method). pose proof (zlen_nonneg origin_path). pose proof (zlen_nonneg version).
  assert (Hcut : forall n (l : bytes), 0 <= n <= zlen l -> exists a b, l = a ++ b /\ zlen a = n).
  { intros n l Hn. exists (ztake n l), (zdrop n l). rewrite ztake_zdrop. split; [done|zl]. }
  destruct (Hcut (zlen method) dst ltac:(lia)) as (o1 & d1 & -> & Hw1). rewrite zlen_app in Hl.
  destruct (Hcut 1 d1 ltac:(lia)) as (o2 & d2 & -> & Hw2). rewrite zlen_app in Hl.
  destruct (Hcut (zlen origin_path) d2 ltac:(lia)) as (o3 & d3 & -> & Hw3). rewrite zlen_app in Hl.
  destruct (Hcut 1 d3 ltac:(lia)) as (o4 & d4 & -> & Hw4). rewrite zlen_app in Hl.
  destruct (Hcut (zlen version) d4 ltac:(lia)) as (o5 & d5 & -> & Hw5). rewrite zlen_app in Hl.
  destruct (Hcut 1 d5 ltac:(lia)) as (o6 & o7 & -> & Hw6). rewrite zlen_app in Hl.
  unfold write_request_line.
  match goal with |- context [copy_at 0 method ?d] =>
    change (copy_at (E:=E) 0 method d) with (copy_at (E:=E) (zlen (@nil byte)) method ([] ++ d)) end.
  rewrite (copy_at_app [] o1 _ method) by done. cbn [res_bind app].
  replace (0 + zlen method) with (zlen method) by lia. rewrite (copy_at_app method o2) by done. cbn [res_bind].
  replace (zlen method + 1) with (zlen (method ++ [Byte.x20])) by zl. rewrite (app_assoc method).
  rewrite (copy_at_app _ o3 _ origin_path) by done. cbn [res_bind]. rewrite (app_assoc _ origin_path).
  rewrite <- zlen_app. rewrite (copy_at_app _ o4) by done. cbn [res_bind]. rewrite (app_assoc _ [Byte.x20]).
  replace (zlen ((method ++ [Byte.x20]) ++ origin_path) + 1) with (zlen (((method ++ [Byte.x20]) ++ origin_path) ++ [Byte.x20])) by zl.
  rewrite (copy_at_app _ o5 _ version) by done. cbn [res_bind]. rewrite (app_assoc _ version). rewrite <- zlen_app.
  rewrite (copy_at_app _ o6) by done. cbn [res_bind]. rewrite (app_assoc _ [Byte.x0d]).
  rewrite <- (app_nil_r o7).
  match goal with |- copy_at (zlen ?p + 1) _ _ = _ => replace (zlen p + 1) with (zlen (p ++ [Byte.x0d])) by zl end.
  rewrite (copy_at_app _ o7 []) by (rewrite zlen_cons, zlen_nil; lia). rewrite app_nil_r. by rewrite <- !app_assoc.
Qed.

Lemma memchr_ztake c n l :
  memchr c (ztake n l) = match memchr c l with Some i => if i <? n then Some i else None | None => None end.
Proof.
  destruct (memchr c l) as [i|] eqn:Hm.
  - destruct (memchr_Some _ _ _ Hm) as (k & r & -> & -> & Hk). destruct (Z.ltb_spec (zlen k) n).
    + rewrite ztake_app_ge by lia. replace (n - zlen k) with (1 + (n - zlen k - 1)) by lia.
      rewrite <- (ztake_more 1) by lia. change (ztake 1 (c :: r)) with [c]. cbn [app]. by rewrite memchr_app_fresh.
    + rewrite ztake_app_le by done. apply memchr_None. intros Hin. apply Hk. rewrite <- (ztake_zdrop n k), elem_of_app. by left.
  - apply memchr_None. apply memchr_None in Hm. intros Hin. apply Hm. rewrite <- (ztake_zdrop n l), elem_of_app. by left.
Qed.

(** Both ways of rewriting the request line give the same buffer. *)
Lemma rewrite_in_place {E} (line rest method origin_path version : bytes) :
  zlen method + 1 + zlen origin_path + 1 + zlen version + 2 <= zlen line ->
  (let new_line_len := zlen method + 1 + zlen origin_path + 1 + zlen version + 2 in
   let buf := line ++ rest in
   let? buf' := copy_within (E:=E) (zlen line) (zlen buf) new_line_len buf in
   let? line' := write_request_line (ztake new_line_len buf') method origin_path version in
   Ok (ztake (zlen buf - (zlen line - new_line_len)) (line' ++ zdrop new_line_len buf'))) =
  Ok (method ++ [Byte.x20] ++ origin_path ++ [Byte.x20] ++ version ++ [Byte.x0d; Byte.x0a] ++ rest).
Proof.
  intros Hle. cbv zeta. pose proof (zlen_nonneg method). pose proof (zlen_nonneg origin_path).
  pose proof (zlen_nonneg version). pose proof (zlen_nonneg rest).
  set (n := zlen method + 1 + zlen origin_path + 1 + zlen version + 2) in *.
  assert (Hn : 0 <= n) by lia. unfold copy_within. rewrite zlen_app.
  destruct (Z.leb_spec (zlen line) (zlen line + zlen rest)); [|lia].
  destruct (Z.leb_spec (zlen line + zlen rest) (zlen line + zlen rest)); [|lia]. cbn [andb].
  rewrite slice_last by zl. unfold copy_at. rewrite zlen_app.
  destruct (Z.leb_spec (n + zlen rest) (zlen line + zlen rest)); [|lia]. cbn [res_bind].
  assert (Hz : zlen (ztake n (line ++ rest)) = n) by zl.
  rewrite (ztake_app_exact n (ztake n (line ++ rest))), (zdrop_app_exact n (ztake n (line ++ rest))) by done.
  rewrite write_request_line_eq by done. cbn [res_bind]. f_equal.
  set (line' := method ++ [Byte.x20] ++ origin_path ++ [Byte.x20] ++ version ++ [Byte.x0d; Byte.x0a]).
  assert (Hl : zlen line' = n) by (unfold line'; zl).
  rewrite app_assoc, ztake_app_exact by zl. unfold line'. by rewrite <- !app_assoc.
Qed.

Lemma rewrite_request_line_eq buf header_len method origin_path :
  rewrite_request_line buf header_len method origin_path = rewrite_spec buf header_len method origin_path.
Proof.
  unfold rewrite_request_line, rewrite_spec, split_once. rewrite memchr_ztake.
  destruct (memchr Byte.x0a buf) as [i|] eqn:Hm; [|done].
  destruct (memchr_Some _ _ _ Hm) as (k & r & -> & -> & Hk). cbv zeta.
  replace (k ++ Byte.x0a :: r) with ((k ++ [Byte.x0a]) ++ r) by (by rewrite <- app_assoc).
  assert (Hf : ztake (zlen k) ((k ++ [Byte.x0a]) ++ r) = k) by (rewrite <- app_assoc; by apply ztake_app_exact).
  rewrite (zdrop_app_exact _ (k ++ [Byte.x0a])) by zl. rewrite Hf. pose proof (zlen_nonneg r).
  assert (Hs : (zlen k <? Z.min header_len (zlen ((k ++ [Byte.x0a]) ++ r))) = (zlen k <? header_len)).
  { destruct (Z.ltb_spec (zlen k) header_len); [apply Z.ltb_lt|apply Z.ltb_ge]; zl. }
  rewrite Hs. destruct (zlen k <? header_len); [|done]. cbn [ok_or res_bind]. rewrite !Hf, ?(zdrop_app_exact _ (k ++ [Byte.x0a])) by zl.
  destruct (utf8_valid k); [|done]. cbn [negb]. destruct (rsplit_once _ _) as [[p version]|]; [|done]. cbn [ok_or res_bind].
  rewrite Z.ltb_antisym. destruct (zlen version <=? MAX_VERSION_LEN); [|done]. cbn [negb].
  match goal with |- context [if ?b then _ else _] => destruct b eqn:Hle end.
  - apply Z.leb_le in Hle. replace (zlen k + 1) with (zlen (k ++ [Byte.x0a])) in * by zl. by apply rewrite_in_place.
  - f_equal. by rewrite <- !app_assoc.
Qed.

(** *** Lines *)

Definition complete (l : bytes) : Prop := exists k, l = k ++ [Byte.x0a] /\ Byte.x0a ∉ k.

Lemma lines_app_line k l : Byte.x0a ∉ k -> lines (k ++ Byte.x0a :: l) = ((k ++ [Byte.x0a]) :: fst (lines l), snd (lines l)).
Proof.
  induction k as [|x k IH]; intros Hk; cbn [app lines].
  - destruct (lines l). by rewrite decide_True.
  - apply not_elem_of_cons in Hk as [Hx Hk]. rewrite IH by done. by rewrite decide_False by congruence.
Qed.

Lemma lines_fresh k : Byte.x0a ∉ k -> lines k = ([], k).
Proof.
  induction k as [|x k IH]; intros Hk; cbn [lines]; [done|]. apply not_elem_of_cons in Hk as [Hx Hk].
  rewrite IH by done. by rewrite decide_False by congruence.
Qed.

Lemma lines_concat ls p : Forall complete ls -> Byte.x0a ∉ p -> lines (concat ls ++ p) = (ls, p).
Proof.
  intros H Hp. induction H as [|l ls (k & -> & Hk) _ IH]; cbn [concat app]; [by apply lines_fresh|].
  rewrite <- !app_assoc. cbn [app]. by rewrite lines_app_line, IH.
Qed.

(** The first line, and what is left. *)
Lemma first_line l :
  Byte.x0a ∉ l \/ exists k r, l = k ++ Byte.x0a :: r /\ Byte.x0a ∉ k.
Proof.
  destruct (memchr Byte.x0a l) as [i|] eqn:Hm; [right|left; by apply memchr_None].
  destruct (memchr_Some _ _ _ Hm) as (k & r & -> & _ & Hk). by exists k, r.
Qed.

Lemma lines_spec l : Forall complete (fst (lines l)) /\ Byte.x0a ∉ snd (lines l) /\ (concat (fst (lines l)) ++ snd (lines l) = l).
Proof.
  induction l as [l IH] using (induction_ltof1 _ (@length byte)).
  destruct (first_line l) as [Hn|(k & r & -> & Hk)].
  - rewrite lines_fresh by done. by split; [constructor|].
  - rewrite lines_app_line by done. cbn [fst snd concat]. destruct (IH r) as (H1 & H2 & H3); [unfold ltof; rewrite length_app; cbn; lia|].
    split; [constructor; [by exists k|done]|]. split; [done|]. rewrite <- !app_assoc, H3. done.
Qed.

(** *** Fields *)

(** The lines that stay, read one after the other. *)
Fixpoint keep_lines (dropping : bool) (ls : list bytes) : list bytes :=
  match ls with
  | [] => []
  | l :: ls =>
      let dropping := if is_continuation l then dropping else is_proxy_only_header l in
      (if dropping then [] else [l]) ++ keep_lines dropping ls
  end.

Lemma strip_loop_eq fuel rest : forall done_ dropping kept,
  (length rest <= fuel)%nat ->
  strip_loop fuel (done_ ++ rest) (zlen done_) dropping kept =
  kept ++ concat (keep_lines dropping (fst (lines rest))) ++ snd (lines rest).
Proof.
  revert rest. induction fuel as [|fuel IH]; intros rest done_ dropping kept Hf.
  { destruct rest; [|cbn in Hf; lia]. cbn. by rewrite app_nil_r. }
  cbn [strip_loop]. destruct (first_line rest) as [Hn|(k & r & -> & Hk)].
  - rewrite lines_fresh by done. cbn. destruct (Z.ltb_spec (zlen done_) (zlen (done_ ++ rest))) as [Hl|Hl].
    + rewrite zdrop_app_exact by done. by rewrite (proj2 (memchr_None _ _) Hn).
    + rewrite (zlen_0_nil rest) by zl. by rewrite app_nil_r.
  - pose proof (zlen_nonneg k). pose proof (zlen_nonneg r).
    destruct (Z.ltb_spec (zlen done_) (zlen (done_ ++ k ++ Byte.x0a :: r))) as [Hl|Hl]; [|exfalso; zl].
    rewrite zdrop_app_exact by done. rewrite memchr_app_fresh, lines_app_line by done. cbn [fst snd keep_lines].
    replace (k ++ Byte.x0a :: r) with ((k ++ [Byte.x0a]) ++ r) by (by rewrite <- app_assoc).
    rewrite (slice_middle _ _ done_ (k ++ [Byte.x0a]) r) by zl. rewrite (app_assoc done_).
    replace (zlen done_ + zlen k + 1) with (zlen (done_ ++ k ++ [Byte.x0a])) by zl.
    rewrite IH by (rewrite length_app in Hf; cbn in Hf; lia).
    rewrite concat_app. destruct (if is_continuation _ then _ else _); cbn [concat app]; [done|]. by rewrite app_nil_r, <- !app_assoc.
Qed.

Lemma filter_kept f fs :
  filter kept_field (f :: fs) = (if drops_field f then [] else [f]) ++ filter kept_field fs.
Proof.
  destruct (drops_field f) eqn:Hp; [rewrite filter_cons_False|rewrite filter_cons_True];
    unfold kept_field; rewrite <- ?drops_field_spec, ?Hp; try done. by intros [].
Qed.

Definition dropped_start (dropping : bool) (f : list bytes) : bool :=
  match f with l :: _ => if is_continuation l then dropping else is_proxy_only_header l | [] => false end.

(** Reading line by line keeps whole fields; lines before the first field
    follow the flag. *)
Lemma keep_lines_fields dropping ls :
  keep_lines dropping ls =
  match fields ls with
  | f :: fs => (if dropped_start dropping f then [] else f) ++ concat (filter kept_field fs)
  | [] => []
  end.
Proof.
  revert dropping. induction ls as [|l ls IH]; intros dropping; cbn [keep_lines fields]; [done|].
  rewrite IH. destruct (fields ls) as [|[|c f] fs] eqn:Hfs; [by cbn; rewrite app_nil_r| |].
  { exfalso. destruct ls as [|x ls]; cbn in Hfs; [done|]. repeat case_match; done. }
  assert (Hk : forall fs', concat (filter kept_field ((c :: f) :: fs')) =
      (if negb (is_continuation c) && is_proxy_only_header c then [] else c :: f) ++ concat (filter kept_field fs')).
  { intros fs'. rewrite filter_kept. cbn [drops_field]. by destruct (negb (is_continuation c) && is_proxy_only_header c). }
  destruct (is_continuation c) eqn:Hc; cbn [dropped_start].
  - rewrite Hc. destruct (if is_continuation l then dropping else is_proxy_only_header l); done.
  - rewrite Hc, Hk. done.
Qed.

Lemma keep_lines_false ls : keep_lines false ls = concat (filter kept_field (fields ls)).
Proof.
  rewrite keep_lines_fields. destruct (fields ls) as [|f fs]; [done|]. rewrite filter_kept.
  destruct f as [|l f]; [done|]. cbn [drops_field dropped_start]. by destruct (is_continuation l), (is_proxy_only_header l).
Qed.

Lemma keep_lines_sublist dropping ls : concat (keep_lines dropping ls) `sublist_of` concat ls.
Proof.
  revert dropping. induction ls as [|l ls IH]; intros dropping; cbn [keep_lines concat]; [constructor|].
  rewrite concat_app. apply sublist_app; [|done].
  destruct (if is_continuation l then dropping else is_proxy_only_header l); cbn; [apply sublist_nil_l|by rewrite app_nil_r].
Qed.

Lemma sublist_full (l k : bytes) : l `sublist_of` k -> (length k <= length l)%nat -> l = k.
Proof.
  induction 1 as [|x l k H IH|x l k H IH]; cbn; intros Hle; [done|f_equal; apply IH; lia|].
  apply sublist_length in H. lia.
Qed.

Lemma strip_spec_sublist head : strip_spec head `sublist_of` head.
Proof.
  destruct (lines_spec head) as (_ & _ & He). unfold strip_spec. rewrite <- He at 2. destruct (lines head) as [[|l ls] p]; cbn [fst snd concat app]; [done|].
  rewrite <- app_assoc. apply sublist_app; [done|]. apply sublist_app; [|done]. rewrite <- keep_lines_false. apply keep_lines_sublist.
Qed.

Lemma strip_proxy_headers_eq buf header_len :
  0 <= header_len <= zlen buf ->
  strip_proxy_headers buf header_len =
  Ok (zlen (strip_spec (ztake header_len buf)), strip_spec (ztake header_len buf) ++ zdrop header_len buf).
Proof.
  intros Hl. unfold strip_proxy_headers. rewrite Z.min_l by lia. set (head := ztake header_len buf).
  assert (Hb : buf = head ++ zdrop header_len buf) by (unfold head; by rewrite ztake_zdrop).
  assert (Hh : zlen head = header_len) by (unfold head; zl).
  destruct (first_line head) as [Hn|(k & r & Hk & Hf)].
  { rewrite (proj2 (memchr_None _ _) Hn). unfold strip_spec. rewrite lines_fresh by done. by rewrite Hh, <- Hb. }
  assert (Hs : strip_loop (length head) head (zlen k + 1) false (ztake (zlen k + 1) head) = strip_spec head).
  { unfold strip_spec. rewrite Hk, lines_app_line by done.
    replace (k ++ Byte.x0a :: r) with ((k ++ [Byte.x0a]) ++ r) by (by rewrite <- app_assoc).
    rewrite ztake_app_exact by zl. replace (zlen k + 1) with (zlen (k ++ [Byte.x0a])) by zl.
    rewrite strip_loop_eq by (rewrite length_app; lia). by rewrite keep_lines_false. }
  replace (memchr Byte.x0a head) with (Some (zlen k)) by (rewrite Hk; by rewrite memchr_app_fresh). rewrite Hs.
  pose proof (strip_spec_sublist head) as Hsub. pose proof (sublist_length _ _ Hsub) as Hlen.
  destruct (Z.eqb_spec (zlen (strip_spec head)) (zlen head)) as [He|He].
  { rewrite (sublist_full _ _ Hsub) by (unfold zlen in He; lia). by rewrite Hh, <- Hb. }
  set (kept := strip_spec head) in *. pose proof (zlen_nonneg kept). assert (zlen kept < header_len) by (unfold zlen in *; lia).
  set (tail := zdrop header_len buf) in *. pose proof (zlen_nonneg tail). assert (Htl : zlen tail = zlen buf - header_len) by (unfold tail; zl).
  unfold copy_at at 1. destruct (Z.leb_spec (0 + zlen kept) (zlen buf)); [|lia]. cbn [res_bind]. rewrite ztake_0. cbn [app].
  set (mid := ztake (header_len - zlen kept) (zdrop (zlen kept) head)).
  assert (Hmid : zlen mid = header_len - zlen kept) by (unfold mid; zl).
  replace (zdrop (0 + zlen kept) buf) with (mid ++ tail).
  2:{ rewrite Z.add_0_l, Hb at 1. rewrite zdrop_app_le by lia. unfold mid. by rewrite ztake_all by zl. }
  rewrite app_assoc. destruct (Z.ltb_spec header_len (zlen ((kept ++ mid) ++ tail))) as [Hm|Hm].
  - unfold copy_within. rewrite Z.leb_refl, andb_true_r. destruct (Z.leb_spec header_len (zlen ((kept ++ mid) ++ tail))); [|lia].
    rewrite slice_last by zl. unfold copy_at. destruct (Z.leb_spec (zlen kept + zlen tail) (zlen ((kept ++ mid) ++ tail))); [|exfalso; zl].
    cbn [res_bind].
    replace (ztake (zlen kept) ((kept ++ mid) ++ tail)) with kept by (by rewrite <- app_assoc, ztake_app_exact).
    rewrite (app_assoc kept tail), ztake_app_exact by zl. done.
  - rewrite (zlen_0_nil tail) by zl. rewrite <- !app_assoc, ztake_app_exact by done. by rewrite app_nil_r.
Qed.

(** Whole fields come back as they were written. *)
Definition field_wf (f : list bytes) : Prop :=
  exists l f', f = l :: f' /\ Forall (fun c => is_continuation c = true) f'.
Definition starts_field (f : list bytes) : Prop :=
  match f with l :: _ => is_continuation l = false | [] => False end.

Lemma fields_wf ls : Forall field_wf (fields ls) /\ Forall starts_field (List.tl (fields ls)) /\ concat (fields ls) = ls.
Proof.
  induction ls as [|l ls (Hw & Ht & Hc)]; cbn [fields]; [by repeat constructor|].
  assert (Hnew : field_wf [l]) by (exists l, []; by split).
  destruct (fields ls) as [|[|c f] fs]; cbn [List.tl concat app] in *.
  - subst ls. by repeat constructor.
  - apply Forall_cons in Hw as [(? & ? & ? & _) _]. done.
  - subst ls. apply Forall_cons in Hw as [(c' & f' & [= <- <-] & Hf) Hw]. destruct (is_continuation c) eqn:Hco; cbn [List.tl concat app].
    + split; [|done]. constructor; [|done]. exists l, (c :: f). split; [done|]. by constructor.
    + split; [constructor; [done|]; constructor; [by exists c, f|done]|]. split; [|done]. by constructor.
Qed.

Lemma fields_app l f fs ls :
  Forall (fun c => is_continuation c = true) f -> fields ls = fs -> (fs = [] \/ exists g fs', fs = g :: fs' /\ starts_field g) ->
  fields (l :: f ++ ls) = (l :: f) :: fs.
Proof.
  intros Hf Hfs Hs. revert l. induction Hf as [|c f Hc _ IH]; intros l; cbn [app].
  - cbn [fields]. rewrite Hfs. destruct Hs as [->|(g & fs' & -> & Hg)]; [done|]. destruct g as [|c g]; [done|]. cbn in Hg. by rewrite Hg.
  - specialize (IH c). cbn [fields] in *. rewrite IH. by rewrite Hc.
Qed.

Lemma fields_concat fs : Forall field_wf fs -> Forall starts_field (List.tl fs) -> fields (concat fs) = fs.
Proof.
  induction 1 as [|f fs (l & f' & -> & Hf) Hw IH]; intros Ht; cbn [List.tl concat app] in *; [done|].
  apply fields_app; [done| |].
  - apply IH. by destruct Ht.
  - destruct fs as [|g fs]; [by left|right]. apply Forall_cons in Ht as [Hg _]. by exists g, fs.
Qed.

Lemma forall_kept (P : list bytes -> Prop) fs : Forall P fs -> Forall P (filter kept_field fs).
Proof. rewrite !Forall_forall. intros H f [_ Hf]%list_elem_of_filter. by apply H. Qed.

Lemma fields_filter ls : fields (concat (filter kept_field (fields ls))) = filter kept_field (fields ls).
Proof.
  destruct (fields_wf ls) as (Hw & Ht & _). apply fields_concat; [by apply forall_kept|].
  destruct (fields ls) as [|f fs]; [done|]. cbn [List.tl] in Ht. rewrite filter_kept.
  assert (Forall starts_field (filter kept_field fs)) as Hk by (by apply forall_kept).
  destruct (drops_field f); cbn [app List.tl]; [by destruct Hk|done].
Qed.

Lemma strip_spec_fields head :
  header_fields (strip_spec head) = filter kept_field (header_fields head).
Proof.
  unfold header_fields, strip_spec. destruct (lines_spec head) as (Hc & Hp & _). destruct (lines head) as [[|l ls] p]; cbn [fst snd List.tl] in *.
  { by rewrite lines_fresh. }
  apply Forall_cons in Hc as [Hl Hls].
  replace (l ++ concat (concat (filter kept_field (fields ls))) ++ p) with (concat (l :: concat (filter kept_field (fields ls))) ++ p) by (cbn [concat]; by rewrite <- app_assoc).
  rewrite lines_concat; [cbn [fst List.tl]; apply fields_filter| |done]. constructor; [done|].
  apply Forall_forall. intros x Hx. apply list_elem_of_In, in_concat in Hx as (f & Hf & Hx).
  apply list_elem_of_In, list_elem_of_filter in Hf as [_ Hf]. rewrite Forall_forall in Hls. apply Hls.
  destruct (fields_wf ls) as (_ & _ & He). rewrite <- He. apply list_elem_of_In, in_concat. exists f. split; [by apply list_elem_of_In|done].
Qed.

(** *** Reading *)

Section reading.
Context `{H : HttpHead} {HL : HttpHeadLaws H}.

(** The parser decides on the first [n] bytes of [stream]. *)
Definition decides (n : Z) (stream : bytes) : Prop :=
  0 <= n <= zlen stream /\ http_parse MAX_HEADERS (ztake n stream) <> HPartial /\
  forall m, 0 <= m < n -> http_parse MAX_HEADERS (ztake m stream) = HPartial.

Definition undecided (stream : bytes) : Prop :=
  forall m, 0 <= m <= zlen stream -> http_parse MAX_HEADERS (ztake m stream) = HPartial.

Lemma try_parse_more n stream buffer auth :
  decides n stream -> n <= zlen buffer -> (exists c, stream = buffer ++ c) ->
  try_parse_head buffer auth = try_parse_head (ztake n stream) auth.
Proof.
  intros (Hn & Hd & _) Hle [c ->]. rewrite ztake_app_le in * by done. unfold try_parse_head.
  rewrite <- (ztake_zdrop n buffer) at 1. by rewrite http_decided.
Qed.

Lemma try_parse_partial stream buffer c auth :
  stream = buffer ++ c -> http_parse MAX_HEADERS (ztake (zlen buffer) stream) = HPartial -> try_parse_head buffer auth = Ok None.
Proof. intros -> Hp. rewrite ztake_app_exact in Hp by done. unfold try_parse_head. by rewrite Hp. Qed.

Lemma try_parse_decided n stream auth : decides n stream -> try_parse_head (ztake n stream) auth <> Ok None.
Proof.
  intros (_ & Hp & _) Ht. unfold try_parse_head in Ht. destruct (http_parse _ _) as [? [] []| |]; cbn in Ht; congruence.
Qed.

Definition nonempty_chunks (chunks : list bytes) : Prop := Forall (fun c => c <> []) chunks.

Lemma parse_decided n stream auth chunks : forall buffer rest,
  stream = buffer ++ concat chunks -> nonempty_chunks chunks -> decides n stream -> n <= MAX_HEADER_LEN + 1 ->
  exists buf left, stream = buf ++ concat left /\
    parse_proxy_request (map CData chunks ++ rest) buffer auth =
    let? r := try_parse_head (ztake n stream) auth in
    match r with
    | Some r => Ok (r, buf, map CData left ++ rest)
    | None => Panic
    end.
Proof.
  induction chunks as [|c chunks IH]; intros buffer rest Hs Hne Hd Hn.
  - cbn in Hs. rewrite app_nil_r in Hs. subst stream. exists buffer, []. split; [cbn; by rewrite app_nil_r|].
    pose proof (try_parse_decided n buffer auth Hd) as Hnone. pose proof Hd as ([? ?] & _).
    rewrite <- (try_parse_more n buffer buffer auth Hd) in * by first [lia|by exists []; rewrite app_nil_r].
    destruct rest; cbn [map app parse_proxy_request]; by destruct (try_parse_head buffer auth) as [[]| |].
  - pose proof (try_parse_decided n stream auth Hd) as Hnone. apply Forall_cons in Hne as [Hc Hne].
    destruct (Z.le_gt_cases n (zlen buffer)) as [Hb|Hb].
    + exists buffer, (c :: chunks). split; [done|]. cbn [map app].
      rewrite <- (try_parse_more n stream buffer auth Hd Hb) in * by (by eexists).
      cbn [parse_proxy_request]. by destruct (try_parse_head buffer auth) as [[]| |].
    + destruct (IH (buffer ++ c) rest) as (buf & left & He & Hp); [by rewrite <- app_assoc|done..|]. exists buf, left. split; [done|].
      cbn [map app parse_proxy_request]. pose proof (zlen_nonneg buffer).
      rewrite (try_parse_partial stream buffer _ auth Hs) by (apply Hd; lia). cbn [res_bind].
      destruct (Z.ltb_spec MAX_HEADER_LEN (zlen buffer)); [lia|].
      destruct (Z.eqb_spec (zlen c) 0) as [Hz|Hz]; [by apply zlen_0_nil in Hz|]. rewrite Hp. done.
Qed.

Lemma parse_undecided stream auth chunks : forall buffer rest,
  stream = buffer ++ concat chunks -> nonempty_chunks chunks -> undecided stream ->
  parse_proxy_request (map CData chunks ++ CEof :: rest) buffer auth =
  Err (if MAX_HEADER_LEN <? zlen stream then "header too large"%string else "connection closed during header parsing"%string).
Proof.
  induction chunks as [|c chunks IH]; intros buffer rest Hs Hne Hu; pose proof (zlen_nonneg buffer).
  - cbn in Hs. rewrite app_nil_r in Hs. subst stream. cbn [map app parse_proxy_request].
    rewrite (try_parse_partial buffer buffer [] auth) by first [by rewrite app_nil_r|apply Hu; lia]. cbn [res_bind].
    by destruct (MAX_HEADER_LEN <? zlen buffer).
  - apply Forall_cons in Hne as [Hc Hne]. cbn [map app parse_proxy_request].
    assert (zlen buffer <= zlen stream) by (rewrite Hs; cbn [concat]; zl).
    rewrite (try_parse_partial stream buffer _ auth Hs) by (apply Hu; lia). cbn [res_bind].
    destruct (Z.ltb_spec MAX_HEADER_LEN (zlen buffer)).
    + destruct (Z.ltb_spec MAX_HEADER_LEN (zlen stream)); [done|lia].
    + destruct (Z.eqb_spec (zlen c) 0) as [Hz|Hz]; [by apply zlen_0_nil in Hz|].
      apply IH; [by rewrite <- app_assoc|done..].
Qed.
End reading.

(** ** Properties *)

(** Removing the proxy's own header fields. The rewritten head is the
    request line followed by exactly the fields that are not the proxy's, each
    with its continuation lines and in order, and the returned length is that
    of the new head; the bytes after the head do not change. Reading the new
    head line by line finds the fields that were kept and none of the proxy's,
    so its credentials do not reach the target. *)
Theorem strip_proxy_headers_spec buf header_len :
  0 <= header_len <= zlen buf ->
  let head := ztake header_len buf in
  exists head',
    strip_proxy_headers buf header_len = Ok (zlen head', head' ++ zdrop header_len buf) /\
    head' = strip_spec head /\
    header_fields head' = filter kept_field (header_fields head) /\
    Forall kept_field (header_fields head').
Proof.
  intros Hl head. exists (strip_spec head). split; [by apply strip_proxy_headers_eq|]. split; [done|].
  rewrite strip_spec_fields. split; [done|]. apply Forall_forall. by intros f [Hf _]%list_elem_of_filter.
Qed.

(** Reading a request does not depend on how its bytes arrive. If the
    parser decides on some prefix of the stream, within the limit and not
    before, then the outcome is its verdict on that prefix, whatever the reads,
    and what was read beyond it is kept: the buffer and the reads left make up
    the stream. A stream on which the parser never decides is refused, as too
    large or as closed. *)
Theorem parse_proxy_request_chunks `{H : HttpHead} (HL : HttpHeadLaws H) buffer chunks rest auth :
  let stream := buffer ++ concat chunks in
  nonempty_chunks chunks ->
  (forall n r, decides n stream -> n <= MAX_HEADER_LEN + 1 -> try_parse_head (ztake n stream) auth = Ok (Some r) ->
     exists buf left, stream = buf ++ concat left /\
       parse_proxy_request (map CData chunks ++ rest) buffer auth = Ok (r, buf, map CData left ++ rest)) /\
  (forall n e, decides n stream -> n <= MAX_HEADER_LEN + 1 -> try_parse_head (ztake n stream) auth = Err e ->
     parse_proxy_request (map CData chunks ++ rest) buffer auth = Err e) /\
  (undecided stream -> parse_proxy_request (map CData chunks ++ CEof :: rest) buffer auth =
     Err (if MAX_HEADER_LEN <? zlen stream then "header too large"%string
          else "connection closed during header parsing"%string)).
Proof.
  intros stream Hne. split_and!.
  - intros n r Hd Hn Ht. destruct (parse_decided n stream auth chunks buffer rest eq_refl Hne Hd Hn) as (buf & left & He & Hp).
    exists buf, left. by rewrite Hp, Ht.
  - intros n e Hd Hn Ht. destruct (parse_decided n stream auth chunks buffer rest eq_refl Hne Hd Hn) as (buf & left & He & Hp).
    by rewrite Hp, Ht.
  - intros Hu. by apply parse_undecided.
Qed.

(** Rewriting the request line. Whether the new line fits in the place of
    the old one or the buffer is rebuilt, the result is the method, the path
    and the version the old line ended with, followed by everything after that
    line, byte for byte; a line that is missing, is not text or has no version
    of reasonable size is refused. *)
Theorem rewrite_request_line_spec buf header_len method origin_path :
  rewrite_request_line buf header_len method origin_path = rewrite_spec buf header_len method origin_path.
Proof. apply rewrite_request_line_eq. Qed.

(** ** Concrete parameters *)

Definition head_sep : bytes := [Byte.x0d; Byte.x0a; Byte.x0d; Byte.x0a].

(** Where the first empty line ends. *)
Fixpoint head_end (l : bytes) : option Z :=
  if bool_decide (ztake 4 l = head_sep) then Some 4
  else match l with [] => None | _ :: l => option_map Z.succ (head_end l) end.

Definition toy_headers (head : bytes) : list (bytes * bytes) :=
  omap (fun l => split_once Byte.x3a l) (List.tl (split_on Byte.x0a head)).

Definition toy_http_parse (_ : Z) (b : bytes) : HeadParse :=
  match head_end b with
  | Some n =>
      match split_on Byte.x20 (hd [] (split_on Byte.x0a (ztake n b))) with
      | method :: path :: _ => HComplete n (Some method) (Some path) (toy_headers (ztake n b))
      | _ => HError "invalid token"
      end
  | None => HPartial
  end.

#[export] Instance toy_http : HttpHead := {| http_parse := toy_http_parse |}.

Lemma head_end_spec l n : head_end l = Some n ->
  4 <= n <= zlen l /\ (exists h, ztake n l = h ++ [Byte.x0a]) /\ forall c, head_end (l ++ c) = Some n.
Proof.
  assert (Hsep : forall l, ztake 4 l = head_sep -> exists r, l = head_sep ++ r).
  { intros k Hk. exists (zdrop 4 k). by rewrite <- Hk, ztake_zdrop. }
  revert n. induction l as [|x l IH]; intros n; [done|]. cbn [head_end]. case_bool_decide as Hs.
  - intros [= <-]. destruct (Hsep _ Hs) as [r Hr]. rewrite Hr. split; [pose proof (zlen_nonneg r); unfold head_sep; zl|].
    split; [by exists [Byte.x0d; Byte.x0a; Byte.x0d]|]. intros c. cbn. by rewrite bool_decide_eq_true_2.
  - intros (m & Hm & ->)%fmap_Some. destruct (IH m Hm) as (Hr & (h & Hh) & Hc).
    split; [rewrite zlen_cons; lia|]. split.
    + exists (x :: h). unfold ztake in *. replace (Z.to_nat (Z.succ m)) with (S (Z.to_nat m)) by lia. cbn. by rewrite Hh.
    + intros c. cbn [app head_end]. rewrite Hc. rewrite bool_decide_eq_false_2; [done|].
      change (x :: l ++ c) with ((x :: l) ++ c). rewrite ztake_app_le by (rewrite zlen_cons; lia). done.
Qed.

#[export] Instance toy_http_laws : HttpHeadLaws toy_http.
Proof.
  split; cbn; unfold toy_http_parse.
  - intros _ b amt method path headers. destruct (head_end b) as [n|] eqn:Hn; [|done].
    apply head_end_spec in Hn as (? & ? & _). destruct (split_on _ (hd _ _)) as [|? [|? ?]]; intros; simplify_eq. by split; [lia|].
  - intros _ b c. destruct (head_end b) as [n|] eqn:Hn; [|done]. intros _.
    apply head_end_spec in Hn as (? & _ & Hc). rewrite Hc, ztake_app_le by lia. done.
Qed.

Definition toy_authority (s : bytes) : option (bytes * option Z) :=
  match rsplit_once Byte.x3a s with
  | Some (h, p) => p ← parse_u16 p; Some (h, Some p)
  | None => Some (s, None)
  end.

(** [http] URLs whose bytes are all visible. *)
Definition toy_url (s : bytes) : option Url :=
  rest ← strip_prefix (str "http://") s;
  let rest := default rest (fst <$> split_once Byte.x23 rest) in
  let '(auth, path) := match split_once Byte.x2f rest with Some (a, p) => (a, Byte.x2f :: p) | None => (rest, [Byte.x2f]) end in
  let '(path, query) := match split_once Byte.x3f path with Some (p, q) => (p, Some q) | None => (path, None) end in
  '(host, port) ← toy_authority auth;
  if forallb (fun b => 32 <? bz b) (path ++ default [] query) then Some (mkUrl path query (Some host) (Some (default 80 port))) else None.

#[export] Instance toy_uri : UriText := {| authority_parse := toy_authority; url_parse := toy_url |}.

Lemma toy_authority_port s h p : toy_authority s = Some (h, Some p) -> 0 <= p < u16_max.
Proof.
  unfold toy_authority. destruct (rsplit_once _ _) as [[h' p']|]; [|done].
  destruct (parse_u16 p') eqn:Hp; [|done]. intros [= <- <-]. by eapply parse_uint_range.
Qed.

#[export] Instance toy_uri_laws : UriTextLaws toy_uri.
Proof.
  assert (Hurl : forall s u, toy_url s = Some u -> Forall visible (url_path u ++ default [] (url_query u)) /\
    forall p, url_port_or_known_default u = Some p -> 0 <= p < u16_max).
  { intros s u. unfold toy_url. destruct (strip_prefix _ s) as [rest|]; [|done]. cbn [mbind option_bind].
    destruct (match split_once Byte.x2f _ with Some _ => _ | None => _ end) as [auth path].
    destruct (match split_once Byte.x3f path with Some _ => _ | None => _ end) as [path' query].
    destruct (toy_authority auth) as [[host port]|] eqn:Ha; [|done]. cbn [mbind option_bind].
    destruct (forallb _ _) eqn:Hv; [|done]. intros [= <-]. cbn. split.
    - apply Forall_forall. intros b Hb. rewrite forallb_forall in Hv. apply list_elem_of_In, Hv, Z.ltb_lt in Hb. done.
    - intros p [= <-]. destruct port as [p|]; cbn; [by eapply toy_authority_port|unfold u16_max; lia]. }
  split; cbn.
  - intros s u h Hu _. destruct (Hurl s u Hu) as [Hv _]. by apply Forall_app in Hv.
  - intros s u p Hu. by apply (Hurl s u Hu).
Qed.

Definition crlf : bytes := [Byte.x0d; Byte.x0a].
Definition sample_head : bytes :=
  str "GET http://example.com/a?q=1 HTTP/1.1" ++ crlf ++ str "Host: example.com" ++ crlf ++
  str "Proxy-Authorization: Basic QQ==" ++ crlf ++ str " more" ++ crlf ++ str "X: y" ++ crlf ++ crlf.

Example strip_proxy_headers_spec_witness :
  exists head',
    strip_proxy_headers (sample_head ++ str "body") (zlen sample_head) =
      Ok (zlen head', head' ++ zdrop (zlen sample_head) (sample_head ++ str "body")) /\
    head' = strip_spec (ztake (zlen sample_head) (sample_head ++ str "body")) /\
    header_fields head' = filter kept_field (header_fields (ztake (zlen sample_head) (sample_head ++ str "body"))) /\
    Forall kept_field (header_fields head').
Proof. apply (strip_proxy_headers_spec (sample_head ++ str "body") (zlen sample_head)). by vm_compute. Defined.

Example parse_proxy_request_chunks_witness :
  exists buf left, [] ++ concat [sample_head; str "body"] = buf ++ concat left /\
    parse_proxy_request (map CData [sample_head; str "body"] ++ [CEof]) [] (Some (str "Basic QQ==")) =
    Ok (mkProxyRequest (str "GET") (zlen sample_head) (str "http://example.com/a?q=1") true, buf, map CData left ++ [CEof]).
Proof.
  apply (parse_proxy_request_chunks toy_http_laws [] [sample_head; str "body"] [CEof] (Some (str "Basic QQ=="))) with (n := zlen sample_head).
  - by repeat constructor.
  - split; [by vm_compute|]. split; [by vm_compute|]. intros m Hm.
    assert (Hall : forallb (fun k => match http_parse MAX_HEADERS (ztake (Z.of_nat k) ([] ++ concat [sample_head; str "body"])) with
      HPartial => true | _ => false end) (List.seq 0 (length sample_head)) = true) by by vm_compute.
    rewrite forallb_forall in Hall. specialize (Hall (Z.to_nat m)). rewrite Z2Nat.id in Hall by lia.
    destruct (http_parse _ _); [exfalso|done|exfalso]; enough (false = true) by done; apply Hall, in_seq; unfold zlen in Hm; lia.
  - by vm_compute.
  - by vm_compute.
Defined.
