(* ===== verification/Connection.v ===== *)
(** * A local connection

    [ClientConnectionActor] of [src/client/actor/connection.rs] and the entry
    of a tunnel in [src/client/connection.rs]: a request is read and checked,
    a CONNECT is answered and its early data collected, any other request is
    rewritten, and the tunnel opens, straight to the target when the bypass
    rules say so. The sockets are those of [Upstream] and [Proxy]. *)

From S2P Require Import Prelude Frame Text Upstream Net Bypass Proxy.

Definition CONNECT_RESPONSE : bytes := str "HTTP/1.1 200 Connection Established" ++ crlf ++ crlf.
Definition PROXY_AUTH_REQUIRED_RESPONSE : bytes :=
  str "HTTP/1.1 407 Proxy Authentication Required" ++ crlf ++
  str "Proxy-Authenticate: Basic realm=" ++ [Byte.x22] ++ str "httproxy" ++ [Byte.x22] ++ crlf ++
  str "Proxy-Connection: close" ++ crlf ++ str "Connection: close" ++ crlf ++ str "Content-Length: 0" ++ crlf ++ crlf.

(** ** The request *)

(** How the actor's own part ends: refused with a 407, failed, waiting for a
    write that never completes, or opening a tunnel with a first payload and
    what the socket has left. *)
Inductive ConnEnd : Type :=
| ConnRejected
| ConnFailed (e : string)
| ConnStalled
| ConnPanicked
| ConnOpens (target_host payload : bytes) (reader : list ClientRead).

(** The reads of the [loop] in [reject_unauthorized]: up to the end of the
    stream, an error or the end of the window. *)
Fixpoint drain_reader (reader : list ClientRead) : list ClientRead :=
  match reader with
  | CData b :: rest => if zlen b =? 0 then reader else drain_reader rest
  | _ => reader
  end.

(** [buf] and what the socket has left; the end of the stream stays where it
    is. *)
Fixpoint read_early_data (reader : list ClientRead) (buf : bytes) : bytes * list ClientRead :=
  let remaining := saturating_sub MAX_RAW_PAYLOAD (zlen buf) in
  if remaining =? 0 then (buf, reader)
  else
    match reader with
    | CData b :: rest => if zlen b =? 0 then (buf, reader) else read_early_data rest (buf ++ b)
    | CElapsed :: rest => (buf, rest)
    | CEof :: _ | CError _ :: _ | [] => (buf, reader)
    end.

Section actor.
Context `{H : HttpHead} `{U : UriText} `{S : Socket}.

Definition reject_unauthorized (reader : list ClientRead) (s : socket) : ConnEnd * list ClientRead * socket :=
  match write_all PROXY_AUTH_REQUIRED_RESPONSE s with
  | (Some (Ok _), s) => let '(_, s) := sock_shutdown s in (ConnRejected, drain_reader reader, s)
  | (Some (Err e), s) => (ConnFailed (msg e), reader, s)
  | (Some Panic, s) => (ConnPanicked, reader, s)
  | (None, s) => (ConnStalled, reader, s)
  end.

(** The method, the length of the head and the target, when the request is
    authorised; the buffer and the reads left. *)
Definition read_request_head (reader : list ClientRead) (expected_auth : option bytes)
    : Res string (option (bytes * Z * bytes) * bytes * list ClientRead) :=
  let? (request, buf, reader) := parse_proxy_request reader [] expected_auth in
  Ok (if pr_authorized request then Some (pr_method request, pr_header_len request, pr_target request) else None, buf, reader).

(** After the head is consumed or kept: the target is resolved and the head
    rewritten. *)
Definition prepare (method : bytes) (header_len : Z) (url buf : bytes) : Res string (bytes * bytes) :=
  let? (target_host, origin_form) := resolve_request method url in
  match origin_form with
  | Some origin_path =>
      let? (header_len, buf) := strip_proxy_headers buf header_len in
      let? buf := rewrite_request_line buf header_len method origin_path in
      Ok (target_host, buf)
  | None => Ok (target_host, buf)
  end.

Definition opens (method : bytes) (header_len : Z) (url buf : bytes) (reader : list ClientRead) : ConnEnd :=
  match prepare method header_len url buf with
  | Ok (target_host, payload) => ConnOpens target_host payload reader
  | Err e => ConnFailed e
  | Panic => ConnPanicked
  end.

(** [ClientConnectionActor::run], up to [open_tunnel]. *)
Definition run (reader : list ClientRead) (expected_auth : option bytes) (s : socket) : ConnEnd * socket :=
  match read_request_head reader expected_auth with
  | Err e => (ConnFailed e, s)
  | Panic => (ConnPanicked, s)
  | Ok (None, _, reader) => let '(r, _, s) := reject_unauthorized reader s in (r, s)
  | Ok (Some (method, header_len, url), buf, reader) =>
      if decide (method = str "CONNECT") then
        let buf := zdrop header_len buf in
        match write_all CONNECT_RESPONSE s with
        | (Some (Ok _), s) =>
            let '(buf, reader) := read_early_data reader buf in
            (opens method header_len url buf reader, s)
        | (Some (Err e), s) => (ConnFailed (msg e), s)
        | (Some Panic, s) => (ConnPanicked, s)
        | (None, s) => (ConnStalled, s)
        end
      else (opens method header_len url buf reader, s)
  end.
End actor.

(** ** The tunnel's entry *)

Inductive TunnelMode : Type := Direct | Proxied.

(** The first decision of [open_tunnel]. *)
Definition tunnel_mode `{F : FstSet} `{N : NetTable} (bypass : option BypassRules) (target_host : bytes) : TunnelMode :=
  match bypass with
  | Some bypass => if should_bypass bypass target_host then Direct else Proxied
  | None => Proxied
  end.

(** *** Direct connections *)

Section direct.
Context `{S : Socket}.

(** [write] is a vectored write of one slice; [None] only when [fuel] runs
    out. *)
Fixpoint write_loop (fuel : nat) (data : bytes) (off : Z) (s : socket) : option (Res string unit * socket) :=
  match fuel with
  | O => None
  | Datatypes.S fuel =>
      if off <? zlen data then
        match write_vectored [zdrop off data] s with
        | (Some (Ok n), s) => if n =? 0 then Some (Err "write zero"%string, s) else write_loop fuel data (off + n) s
        | (Some (Err e), s) => Some (Err (msg e), s)
        | (Some Panic, s) => Some (Panic, s)
        | (None, s) => Some (Err "write stalled"%string, s)
        end
      else Some (Ok tt, s)
  end.

Definition write_with_timeout (data : bytes) (s : socket) : option (Res string unit * socket) :=
  write_loop (Datatypes.S (length data)) data 0 s.

(** How a copy ends: at the end of its input, by an error, or still waiting
    for input. *)
Inductive CopyEnd : Type := CopyDone (copied : Z) | CopyFailed (e : string) | CopyWaits.

Fixpoint copy_with_write_timeout (reader : list ClientRead) (copied : Z) (s : socket) : option (CopyEnd * socket) :=
  match reader with
  | CData b :: reader =>
      if zlen b =? 0 then Some (CopyDone copied, s)
      else
        '(r, s) ← write_with_timeout b s;
        match r with
        | Ok _ => copy_with_write_timeout reader (as_u64 (copied + zlen b)) s
        | Err e => Some (CopyFailed e, s)
        | Panic => None
        end
  | CEof :: _ => Some (CopyDone copied, s)
  | CError e :: _ => Some (CopyFailed e, s)
  | CElapsed :: reader => copy_with_write_timeout reader copied s
  | [] => Some (CopyWaits, s)
  end.

(** One direction of the [join!], with the shutdown that follows it. *)
Definition copy_direction (reader : list ClientRead) (s : socket) : option (CopyEnd * socket) :=
  '(r, s) ← copy_with_write_timeout reader 0 s;
  match r with
  | CopyWaits => Some (r, s)
  | _ => let '(_, s) := sock_shutdown s in Some (r, s)
  end.

(** The two results and the two sockets; an [Err] is a failure before the
    copies start. *)
Definition handle_bypass_direct (connected : Res string (list ClientRead * socket)) (initial_payload : bytes)
    (reader : list ClientRead) (write_half : socket) : option (Res string (CopyEnd * socket * (CopyEnd * socket))) :=
  match connected with
  | Ok (remote_reader, remote) =>
      '(r, remote) ← match initial_payload with [] => Some (Ok tt, remote) | _ => write_with_timeout initial_payload remote end;
      match r with
      | Ok _ =>
          up ← copy_direction reader remote;
          down ← copy_direction remote_reader write_half;
          Some (Ok (up, down))
      | Err e => Some (Err e)
      | Panic => Some Panic
      end
  | Err e => Some (Err e)
  | Panic => Some Panic
  end.
End direct.

(** ** The end of a tunnel *)

(** How the upload task ends, and which of the two directions is first; the
    upload is preferred when both are. *)
Inductive UploadEnd : Type := UploadDone (r : Res string unit) | UploadCancelled | UploadPanicked.
Inductive FirstDone : Type := UploadFirst (u : UploadEnd) | DownloadFirst (d : Res string unit).

(** [later] is how the download ends when it goes on, [None] while it does. *)
Definition race_upload_download (first : FirstDone) (later : option (Res string unit)) (download_label : option string)
    : option (Res string unit) :=
  match first with
  | UploadFirst u =>
      let upload_outcome :=
        match u with UploadDone r => r | UploadCancelled => Ok tt | UploadPanicked => Err "upload task panicked"%string end in
      match upload_outcome with Ok _ => later | _ => Some upload_outcome end
  | DownloadFirst dl_res => Some (match download_label with Some label => map_err (fun _ => label) dl_res | None => dl_res end)
  end.

(** The root of an error: of [h2] with its reason, of a socket, or any other
    by its text. *)
Inductive H2Reason : Type :=
| NO_ERROR | PROTOCOL_ERROR | INTERNAL_ERROR | FLOW_CONTROL_ERROR | SETTINGS_TIMEOUT | STREAM_CLOSED | FRAME_SIZE_ERROR
| REFUSED_STREAM | CANCEL | COMPRESSION_ERROR | CONNECT_ERROR | ENHANCE_YOUR_CALM | INADEQUATE_SECURITY | HTTP_1_1_REQUIRED.
Inductive RootError : Type :=
| RootH2 (is_reset is_library : bool) (reason : option H2Reason)
| RootIo (e : ErrorKind)
| RootOther (text : bytes).

Definition is_silent_error (root : RootError) : bool :=
  match root with
  | RootH2 is_reset is_library reason =>
      is_reset || is_library ||
      match reason with
      | Some (CANCEL | REFUSED_STREAM | ENHANCE_YOUR_CALM | FLOW_CONTROL_ERROR | STREAM_CLOSED | INTERNAL_ERROR) => true
      | _ => false
      end
  | RootIo (ConnectionReset | UnexpectedEof | NotConnected | BrokenPipe) => true
  | RootIo _ => false
  | RootOther text => bool_decide (is_Some (memmem (str "connection closed during header parsing") text))
  end.

(** ** Specification *)

(** The bytes a client sends before the end of its stream. *)
Fixpoint read_data (reader : list ClientRead) : bytes :=
  match reader with
  | CData b :: rest => if zlen b =? 0 then [] else b ++ read_data rest
  | CElapsed :: rest => read_data rest
  | CEof :: _ | CError _ :: _ | [] => []
  end.

(** ** Lemmas *)

Section reading.
Context `{H : HttpHead} {HL : HttpHeadLaws H}.

Lemma parse_proxy_request_Ok reader : forall buffer auth r buf left,
  parse_proxy_request reader buffer auth = Ok (r, buf, left) ->
  buf ++ read_data left = buffer ++ read_data reader /\ try_parse_head buf auth = Ok (Some r).
Proof.
  induction reader as [|ev reader IH]; intros buffer auth r buf left; cbn [parse_proxy_request];
    destruct (try_parse_head buffer auth) as [[r'|]| |] eqn:Ht; cbn [res_bind]; try done.
  1, 3: by intros [= -> -> <-].
  - by destruct (MAX_HEADER_LEN <? zlen buffer).
  - destruct (MAX_HEADER_LEN <? zlen buffer); [done|]. destruct ev as [b| | |]; try done. cbn [read_data].
    destruct (zlen b =? 0); [done|]. intros Hp. apply IH in Hp as [He Hp]. split; [|done]. by rewrite He, <- app_assoc.
Qed.

Lemma try_parse_head_Some buf auth r :
  try_parse_head buf auth = Ok (Some r) <->
  exists headers, http_parse MAX_HEADERS buf = HComplete (pr_header_len r) (Some (pr_method r)) (Some (pr_target r)) headers /\
    pr_authorized r = match auth with None => true | Some expected => auth_matches headers expected end.
Proof.
  unfold try_parse_head. destruct (http_parse MAX_HEADERS buf) as [amt method path headers| |e]; [|by split; [done|intros (? & ? & _)]..].
  destruct method as [method|], path as [path|]; cbn [ok_or res_bind]; try by (split; [done|intros (? & ? & _)]).
  split.
  - intros [= <-]. by exists headers.
  - intros (hs & [= -> -> -> ->] & Ha). destruct r. cbn in *. by subst.
Qed.
End reading.

Lemma read_early_data_spec reader : forall buf buf' left,
  read_early_data reader buf = (buf', left) ->
  buf' ++ read_data left = buf ++ read_data reader /\ exists more, buf' = buf ++ more.
Proof.
  induction reader as [|ev reader IH]; intros buf buf' left; cbn [read_early_data];
    (destruct (saturating_sub MAX_RAW_PAYLOAD (zlen buf) =? 0);
      [intros [= <- <-]; split; [done|exists []; by rewrite app_nil_r]|]).
  { intros [= <- <-]. split; [done|exists []; by rewrite app_nil_r]. }
  destruct ev as [b| | |]; cbn [read_data].
  - destruct (zlen b =? 0) eqn:Hb.
    + intros [= <- <-]. cbn [read_data]. rewrite Hb. split; [done|exists []; by rewrite app_nil_r].
    + intros Hr. apply IH in Hr as [He [more ->]]. rewrite He, <- app_assoc. split; [done|]. exists (b ++ more). by rewrite app_assoc.
  - intros [= <- <-]. split; [done|exists []; by rewrite app_nil_r].
  - intros [= <- <-]. split; [done|exists []; by rewrite app_nil_r].
  - intros [= <- <-]. split; [done|exists []; by rewrite app_nil_r].
Qed.

Section uri.
Context `{U : UriText} {UL : UriTextLaws U}.

Lemma resolve_connect_None target t form :
  resolve_request (str "CONNECT") target = Ok (t, form) -> form = None.
Proof. unfold resolve_request. rewrite decide_True by done. destruct (resolve_connect_host target); cbn; congruence. Qed.

(** A path that goes into a request line holds no space or control byte. *)
Lemma origin_form_visible method target t path :
  resolve_request method target = Ok (t, Some path) -> Forall visible path /\ path <> [].
Proof.
  unfold resolve_request. case_decide; [destruct (resolve_connect_host target); cbn; congruence|].
  destruct (url_parse target) as [u|] eqn:Hu; cbn [ok_or res_bind]; [|done].
  destruct (url_host_str u) as [h|] eqn:Hh; cbn [ok_or res_bind]; [|done].
  destruct (url_port_or_known_default u); cbn [ok_or res_bind]; [|done]. intros [= _ <-].
  destruct (url_visible _ _ _ Hu Hh) as [Hp Hq]. unfold origin_form.
  assert (Forall visible (match url_query u with Some q => Byte.x3f :: q | None => [] end)).
  { destruct (url_query u); [constructor; [done|exact Hq]|constructor]. }
  destruct (url_path u) as [|x p]; (split; [|done]); apply Forall_app; split; try done. by repeat constructor.
Qed.
End uri.

(** *** Preparing the payload *)

Lemma split_once_line k r : Byte.x0a ∉ k -> split_once Byte.x0a (k ++ Byte.x0a :: r) = Some (k, r).
Proof. apply split_once_app. Qed.

(** The head of a request, from its request line, and its rewritten form. *)
Record head_line (head line version : bytes) : Prop := {
  hl_line : Byte.x0a ∉ line;
  hl_text : utf8_valid line = true;
  hl_version : exists pre, rsplit_once Byte.x20 (trim_end_cr line) = Some (pre, version);
  hl_short : zlen version <= MAX_VERSION_LEN;
  hl_head : exists fields_text, head = line ++ Byte.x0a :: fields_text
}.

Definition new_request_line (method path version : bytes) : bytes :=
  method ++ [Byte.x20] ++ path ++ [Byte.x20] ++ version ++ crlf.

Definition rewritten_head (head method path version : bytes) : bytes :=
  new_request_line method path version ++ concat (concat (filter kept_field (header_fields head))).

Lemma lines_no_rest head : (exists h, head = h ++ [Byte.x0a]) -> snd (lines head) = [].
Proof.
  intros [h Hh]. destruct (lines_spec head) as (_ & Hp & He). destruct (snd (lines head)) as [|x p] using rev_ind; [done|].
  rewrite Hh, app_assoc in He. apply app_inj_tail in He as [_ ->]. exfalso. apply Hp. rewrite elem_of_app. right. by left.
Qed.

Lemma prepare_plain `{U : UriText} method header_len url buf target path line version :
  resolve_request method url = Ok (target, Some path) -> 0 <= header_len <= zlen buf ->
  let head := ztake header_len buf in
  (exists h, head = h ++ [Byte.x0a]) -> head_line head line version ->
  prepare method header_len url buf = Ok (target, rewritten_head head method path version ++ zdrop header_len buf).
Proof.
  intros Hr Hl head Hend [Hk Hu [pre Hv] Hs [ft Hh]]. unfold prepare. rewrite Hr. cbn [res_bind].
  rewrite strip_proxy_headers_eq by done. fold head. cbn [res_bind]. rewrite rewrite_request_line_eq. unfold rewrite_spec.
  pose proof (lines_no_rest head Hend) as Hp.
  assert (Hss : strip_spec head = (line ++ [Byte.x0a]) ++ concat (concat (filter kept_field (header_fields head)))).
  { unfold strip_spec, header_fields. rewrite Hh in Hp |- *. rewrite lines_app_line in * by done. cbn [fst snd List.tl] in *. by rewrite Hp, app_nil_r. }
  rewrite Hss at 1. rewrite <- !app_assoc. cbn [app]. rewrite split_once_line by done.
  destruct (Z.ltb_spec (zlen line) (zlen (strip_spec head))) as [_|Hlt].
  2:{ exfalso. rewrite Hss in Hlt. pose proof (zlen_nonneg (concat (concat (filter kept_field (header_fields head))))). zl. }
  rewrite Hu, Hv. destruct (Z.leb_spec (zlen version) MAX_VERSION_LEN); [|lia]. cbn [res_bind].
  unfold rewritten_head, new_request_line, crlf. do 2 f_equal. by rewrite <- !app_assoc.
Qed.

(** *** Copying *)

Section copying.
Context `{S : Socket} {SL : SocketLaws S}.

Lemma write_loop_spec data fuel : forall off s,
  0 <= off <= zlen data -> zlen data - off < Z.of_nat fuel ->
  exists r s', write_loop fuel data off s = Some (r, s') /\ r <> Panic /\ sent_prefix (sent s) (zdrop off data) (sent s') /\
    (r = Ok tt -> sent s' = sent s ++ zdrop off data).
Proof.
  induction fuel as [|fuel IH]; intros off s Ho Hf; [lia|]. cbn [write_loop].
  destruct (Z.ltb_spec off (zlen data)) as [Hlt|Hge].
  2:{ exists (Ok tt), s. rewrite zdrop_all by lia. split; [done|]. split; [done|]. split; [apply sent_prefix_none|]. by rewrite app_nil_r. }
  destruct (write_vectored [zdrop off data] s) as [[[n|e|]|] s1] eqn:Hw.
  2, 3, 4: apply write_vectored_fail in Hw as [Hp Hs]; [|done].
  2, 4: eexists _, s1; split; [done|]; rewrite Hs; split; [done|]; split; [apply sent_prefix_none|done].
  2: done.
  apply write_vectored_ok in Hw as (Hn0 & Hn1 & Hs). cbn [concat] in *. rewrite app_nil_r in *.
  assert (Hn2 : n <= zlen data - off) by zl. destruct (Z.eqb_spec n 0) as [->|Hnz].
  { eexists _, s1. split; [done|]. split; [done|]. rewrite Hs, ztake_0, app_nil_r. split; [apply sent_prefix_none|done]. }
  destruct (IH (off + n) s1) as (r & s' & Hr & Hp & Hpre & Hok); [lia..|]. exists r, s'. rewrite Hr. split; [done|]. split; [done|].
  rewrite <- (zdrop_zdrop n off) in Hpre, Hok by lia. split.
  - rewrite Hs in Hpre. apply sent_prefix_app in Hpre. by rewrite ztake_zdrop in Hpre.
  - intros Hrok. rewrite (Hok Hrok), Hs, <- app_assoc, ztake_zdrop. done.
Qed.

Lemma write_with_timeout_spec data s :
  exists r s', write_with_timeout data s = Some (r, s') /\ r <> Panic /\ sent_prefix (sent s) data (sent s') /\
    (r = Ok tt -> sent s' = sent s ++ data).
Proof.
  pose proof (zlen_nonneg data). destruct (write_loop_spec data (Datatypes.S (length data)) 0 s) as (r & s' & Hr); [lia|unfold zlen; lia|].
  rewrite zdrop_0 in Hr. by exists r, s'.
Qed.

Lemma copy_spec reader : forall copied s, 0 <= copied ->
  exists r s', copy_with_write_timeout reader copied s = Some (r, s') /\
    sent_prefix (sent s) (read_data reader) (sent s') /\
    ((forall e, r <> CopyFailed e) -> sent s' = sent s ++ read_data reader) /\
    (forall n, r = CopyDone n -> as_u64 n = as_u64 (copied + zlen (read_data reader))).
Proof.
  induction reader as [|ev reader IH]; intros copied s Hc; cbn [copy_with_write_timeout read_data].
  { exists CopyWaits, s. split; [done|]. split; [apply sent_prefix_none|]. by rewrite app_nil_r. }
  destruct ev as [b| |e|].
  - destruct (zlen b =? 0) eqn:Hb.
    { eexists _, s. split; [done|]. split; [apply sent_prefix_none|]. rewrite app_nil_r, zlen_nil, Z.add_0_r. split; [done|]. by intros n [= <-]. }
    destruct (write_with_timeout_spec b s) as (r & s1 & -> & Hp & Hpre & Hok). cbn [mbind option_bind]. destruct r as [[]|e|]; [|..|done].
    + destruct (IH (as_u64 (copied + zlen b)) s1) as (r & s' & -> & Hpre' & Hall & Hn).
      { unfold as_u64, u64_max. apply Z.mod_pos_bound. lia. }
      rewrite Hok in Hpre', Hall by done. exists r, s'. split; [done|]. split; [by apply sent_prefix_app|].
      split; [intros He; rewrite (Hall He); by rewrite <- app_assoc|].
      intros n ->. rewrite (Hn n eq_refl), zlen_app. unfold as_u64. rewrite Zplus_mod_idemp_l. f_equal. lia.
    + exists (CopyFailed e), s1. split; [done|]. split; [by apply (sent_prefix_weaken _ b); [|eexists]|].
      by split; [intros He; destruct (He e)|].
  - eexists _, s. split; [done|]. split; [apply sent_prefix_none|]. rewrite app_nil_r, zlen_nil, Z.add_0_r. split; [done|]. by intros n [= <-].
  - eexists _, s. split; [done|]. split; [apply sent_prefix_none|]. by split; [intros He; destruct (He e)|].
  - by apply IH.
Qed.

Lemma copy_direction_spec reader s :
  exists r s', copy_direction reader s = Some (r, s') /\
    sent_prefix (sent s) (read_data reader) (sent s') /\
    ((forall e, r <> CopyFailed e) -> sent s' = sent s ++ read_data reader) /\
    (forall n, r = CopyDone n -> as_u64 n = as_u64 (zlen (read_data reader))).
Proof.
  destruct (copy_spec reader 0 s ltac:(lia)) as (r & s1 & Hc & Hpre & Hall & Hn). unfold copy_direction. rewrite Hc. cbn [mbind option_bind].
  destruct (sock_shutdown s1) as [x s2] eqn:Hs. apply sock_shutdown_sent in Hs as [_ Hs].
  destruct r; [exists (CopyDone copied), s2|exists (CopyFailed e), s2|exists CopyWaits, s1]; rewrite ?Hs; by split.
Qed.
End copying.

(** *** The actor's request *)

Section requests.
Context `{H : HttpHead} {HL : HttpHeadLaws H}.

(** The password, when there is one, is in the request's fields: the first
    field named Proxy-Authorization has it, between any white space. *)
Definition credentials_ok (auth : option bytes) (r : ProxyRequest) (buf : bytes) : Prop :=
  exists headers, http_parse MAX_HEADERS buf = HComplete (pr_header_len r) (Some (pr_method r)) (Some (pr_target r)) headers /\
    match auth with None => True | Some expected => carries_password headers expected end.

Lemma request_head reader auth r buf left :
  parse_proxy_request reader [] auth = Ok (r, buf, left) ->
  0 <= pr_header_len r <= zlen buf /\ (exists h, ztake (pr_header_len r) buf = h ++ [Byte.x0a]) /\
  buf ++ read_data left = read_data reader /\ (pr_authorized r = true <-> credentials_ok auth r buf).
Proof.
  intros Hp. apply parse_proxy_request_Ok in Hp as [He Hp]. apply try_parse_head_Some in Hp as (headers & Hh & Ha).
  destruct (http_complete _ _ _ _ _ _ Hh) as [Hl Hend]. split; [|split; [done|]].
  - split; [|done]. destruct (Z.le_gt_cases 0 (pr_header_len r)); [done|]. destruct Hend as [h Hend]. rewrite ztake_neg in Hend by lia. by destruct h.
  - split; [done|]. rewrite Ha. unfold credentials_ok. split.
    + intros Hm. exists headers. split; [done|]. destruct auth; [by apply auth_matches_spec|done].
    + intros (hs & Hh' & Hm). rewrite Hh in Hh'. injection Hh' as <-. destruct auth; [by apply auth_matches_spec|done].
Qed.
End requests.

Lemma header_fields_rewritten head method path version :
  Byte.x0a ∉ method ++ path ++ version ->
  header_fields (rewritten_head head method path version) = filter kept_field (header_fields head).
Proof.
  intros Hn. pose proof (strip_spec_fields head) as Hs. unfold header_fields at 1, rewritten_head, new_request_line.
  replace (_ ++ concat _) with ((method ++ [Byte.x20] ++ path ++ [Byte.x20] ++ version ++ [Byte.x0d]) ++ Byte.x0a ::
    concat (concat (filter kept_field (header_fields head)))) by (unfold crlf; by rewrite <- !app_assoc).
  rewrite lines_app_line.
  2:{ rewrite !not_elem_of_app in *. rewrite !not_elem_of_cons. destruct Hn as (? & ? & ?). split_and!; done || apply not_elem_of_nil. }
  rewrite <- (app_nil_r (concat (concat _))), lines_concat; [cbn [fst]; apply fields_filter| |apply not_elem_of_nil].
  destruct (lines_spec head) as (Hc & _). apply Forall_forall. intros x Hx. apply list_elem_of_In, in_concat in Hx as (f & Hf & Hx).
  apply list_elem_of_In, list_elem_of_filter in Hf as [_ Hf]. rewrite Forall_forall in Hc. apply Hc. unfold header_fields in Hf.
  destruct (fields_wf (List.tl (fst (lines head)))) as (_ & _ & He).
  assert (Hin : x ∈ List.tl (fst (lines head))) by (rewrite <- He; apply list_elem_of_In, in_concat; exists f; split; [by apply list_elem_of_In|done]).
  destruct (fst (lines head)); [done|by right].
Qed.

Lemma visible_no_newline l : Forall visible l -> Byte.x0a ∉ l.
Proof. intros Hv Hin. rewrite Forall_forall in Hv. by apply Hv in Hin. Qed.

Lemma suffix_elem l x pre version : rsplit_once Byte.x20 l = Some (pre, version) -> x ∈ version -> x ∈ l.
Proof.
  unfold rsplit_once. destruct (memchr _ _); [|done]. intros [= _ <-] Hin. rewrite <- (ztake_zdrop (zlen l - z) l), elem_of_app. by right.
Qed.

Lemma trim_end_cr_elem l x : x ∈ trim_end_cr l -> x ∈ l.
Proof.
  assert (Hd : forall k, x ∈ drop_crs k -> x ∈ k).
  { induction k as [|y k IH]; cbn [drop_crs]; [done|]. case_decide; [|done]. intros. right. by apply IH. }
  unfold trim_end_cr. rewrite elem_of_reverse. intros Hx. apply Hd in Hx. by rewrite elem_of_reverse in Hx.
Qed.

(** ** Properties *)

Section actor_properties.
Context `{H : HttpHead} (HL : HttpHeadLaws H) `{U : UriText} (UL : UriTextLaws U) `{S : Socket} (SL : SocketLaws S).



(** A direct connection relays. What the target is sent is always the
    first payload followed by a prefix of what the client sent after it, and
    what the client is sent a prefix of what the target sent; a direction that
    did not fail has relayed everything, and its count is the number of bytes
    modulo 2^64. Every write loop ends. *)
Theorem direct_relays reader remote_reader remote write_half payload :
  exists r, handle_bypass_direct (Ok (remote_reader, remote)) payload reader write_half = Some r /\
    r <> Panic /\
    forall up remote' down client', r = Ok ((up, remote'), (down, client')) ->
      sent_prefix (sent remote ++ payload) (read_data reader) (sent remote') /\
      ((forall e, up <> CopyFailed e) -> sent remote' = sent remote ++ payload ++ read_data reader) /\
      (forall n, up = CopyDone n -> as_u64 n = as_u64 (zlen (read_data reader))) /\
      sent_prefix (sent write_half) (read_data remote_reader) (sent client') /\
      ((forall e, down <> CopyFailed e) -> sent client' = sent write_half ++ read_data remote_reader) /\
      (forall n, down = CopyDone n -> as_u64 n = as_u64 (zlen (read_data remote_reader))).
Proof.
  unfold handle_bypass_direct.
  assert (Hw : exists r s', match payload with [] => Some (Ok tt, remote) | _ => write_with_timeout payload remote end = Some (r, s') /\
    r <> Panic /\ (r = Ok tt -> sent s' = sent remote ++ payload)).
  { destruct payload as [|x payload]; [exists (Ok tt), remote; by rewrite app_nil_r|].
    destruct (write_with_timeout_spec (x :: payload) remote) as (r & s' & ? & ? & _ & ?). by exists r, s'. }
  destruct Hw as (r & s' & -> & Hp & Hs). cbn [mbind option_bind]. destruct r as [[]|e|]; [|by exists (Err e)|done].
  destruct (copy_direction_spec reader s') as (up & remote' & -> & Hu1 & Hu2 & Hu3). cbn [mbind option_bind].
  destruct (copy_direction_spec remote_reader write_half) as (down & client' & -> & Hd1 & Hd2 & Hd3). cbn [mbind option_bind].
  eexists. split; [done|]. split; [done|]. intros ? ? ? ? [= <- <- <- <-]. rewrite Hs in * by done. split_and!; try done.
  intros Hne. by rewrite (Hu2 Hne), <- app_assoc.
Qed.
End actor_properties.

(** The target of a CONNECT to an IPv6 address loses its brackets, and the
    bypass rules then look at the part before its first colon: the address
    rules do not apply to it. *)
Lemma connect_v6_host `{U : UriText} authority a b port :
  authority_parse authority = Some (str "[" ++ (a ++ Byte.x3a :: b) ++ str "]", Some port) ->
  Byte.x3a ∉ a -> head a <> Some Byte.x5b ->
  exists target, resolve_connect_host authority = Ok target /\ extract_host target = a.
Proof.
  intros Hp Ha Hb. unfold resolve_connect_host. rewrite Hp. cbn [ok_or res_bind]. eexists. split; [done|].
  assert (Hs : strip_brackets (str "[" ++ (a ++ Byte.x3a :: b) ++ str "]") = a ++ Byte.x3a :: b).
  { unfold strip_brackets. unfold strip_prefix at 1. rewrite ztake_app_exact by done. rewrite bool_decide_eq_true_2 by done.
    cbn [mbind option_bind]. rewrite zdrop_app_exact by done. unfold strip_suffix.
    replace (zlen ((a ++ Byte.x3a :: b) ++ str "]") - zlen (str "]")) with (zlen (a ++ Byte.x3a :: b)) by zl.
    rewrite zdrop_app_exact by done. rewrite bool_decide_eq_true_2 by done. rewrite andb_true_r.
    destruct (Z.leb_spec 0 (zlen (a ++ Byte.x3a :: b))) as [?|Hneg]; [|pose proof (zlen_nonneg (a ++ Byte.x3a :: b)); lia].
    cbn [default]. by rewrite ztake_app_exact. }
  rewrite Hs, <- app_assoc. cbn [app]. unfold extract_host.
  replace (strip_prefix (str "[") (a ++ _)) with (@None bytes).
  - by rewrite split_on_app.
  - symmetry. unfold strip_prefix. rewrite bool_decide_eq_false_2; [done|]. change (zlen (str "[")) with 1.
    destruct a as [|x a]; cbn; [done|]. intros [= ->]. done.
Qed.

(** A failed upload ends the tunnel; otherwise the download decides. *)
Lemma tunnel_end first later label r :
  race_upload_download first later label = Some r ->
  (exists u, first = UploadFirst u /\ u <> UploadCancelled /\ u <> UploadDone (Ok tt) /\ is_ok r = false) \/
  (exists d, (first = DownloadFirst d \/ later = Some d) /\ is_ok r = is_ok d).
Proof.
  destruct first as [[[[]|e|]| |]|d]; cbn.
  - intros ->. right. exists r. split; [by right|done].
  - intros [= <-]. left. by eexists.
  - intros [= <-]. left. by eexists.
  - intros ->. right. exists r. split; [by right|done].
  - intros [= <-]. left. by eexists.
  - intros [= <-]. right. exists d. split; [by left|]. destruct label; [|done]. by destruct d.
Qed.

(** ** Witnesses *)

Definition sample_auth : bytes := str "Basic QQ==".
Definition sample_connect : bytes :=
  str "CONNECT [2001:db8::1]:443 HTTP/1.1" ++ crlf ++ str "Proxy-Authorization: Basic QQ==" ++ crlf ++ crlf.
Definition open_socket : @socket toy_socket := ([], []).

(** A network that contains the target does not make the connection direct. *)
Example connect_v6_not_direct :
  fst (run [CData sample_connect] None open_socket) = ConnOpens (str "2001:db8::1:443") [] [] /\
  bypass_spec sample_files (str "[2001:db8::1]:443") = true /\
  bypass_spec sample_files (str "2001:db8::1:443") = false.
Proof. by vm_compute. Qed.


Definition sample_request : ProxyRequest := mkProxyRequest (str "GET") (zlen sample_head) (str "http://example.com/a?q=1") true.


Example direct_relays_witness :
  exists r, handle_bypass_direct (Ok ([CData (str "pong"); CEof], ([], [Accept 2]))) (str "early")
      [CData (str "ping"); CEof] open_socket = Some r /\ r <> Panic /\
    forall up remote' down client', r = Ok ((up, remote'), (down, client')) ->
      sent_prefix (str "early") (str "ping") (sent remote') /\
      ((forall e, up <> CopyFailed e) -> sent remote' = str "earlyping") /\
      (forall n, up = CopyDone n -> as_u64 n = as_u64 4) /\
      sent_prefix [] (str "pong") (sent client') /\
      ((forall e, down <> CopyFailed e) -> sent client' = str "pong") /\
      (forall n, down = CopyDone n -> as_u64 n = as_u64 4).
Proof.
  apply (direct_relays toy_socket_laws [CData (str "ping"); CEof] [CData (str "pong"); CEof] ([], [Accept 2]) open_socket (str "early")).
Defined.
