(* ===== verification/Session.v ===== *)
(** * The client's sessions

    [ClientPqFsm] of [src/client/state.rs] with the exchanges of
    [src/client/handshake.rs] it is made of, for any number of connections
    that share one master key and one handshake lock. Each [await] of the code
    at which another connection can run is a step; the server's answers and
    the draws are in the events. *)

From S2P Require Import Prelude Cipher Frame Shaper Cookie Token Crypto Handlers Handshake UploadLoop.

Definition MASTER_RESUME_WINDOW_SECS : Z := 1170.

(** ** Exchanges with the server *)

(** What comes back for a POST. The wait for the head of the answer has a time
    limit, so there is none, or a status and the chunks of a body, which then
    ends, fails, or stops without doing either. *)
Inductive Answer : Type :=
| NoAnswer (e : string)
| Answered (status : Z) (chunks : list bytes)
| Broken (status : Z) (chunks : list bytes) (e : string)
| Stalled (status : Z) (chunks : list bytes).

Definition is_success (status : Z) : bool := (200 <=? status) && (status <=? 299).

(** It drains the body of a refusal, however that ends. *)
Definition check_response_status (status : Z) (context : string) : Res string unit :=
  if is_success status then Ok tt else Err context.

Section exchanges.
Context `{P : Aead} `{B64 : Base64} `{X : PqCrypto} `{B122 : Base122}.

(** Whether the loop that reads the ServerHello is done with these chunks. *)
Fixpoint hello_read (c : AesFrameCipher) (enc : EncodingType) (chunks : list bytes) (body_buf : bytes) : bool :=
  match chunks with
  | [] => false
  | chunk :: chunks =>
      match decode_from_buffer (C := aes_frame_cipher c) (body_buf ++ chunk) enc with
      | (Ok None, body_buf) => hello_read c enc chunks body_buf
      | _ => true
      end
  end.

(** [perform_pq_handshake] without its store; [server] answers the Cookie
    header and the body. No timeout covers the body, neither the ServerHello
    nor what [check_response_status] drains: with [None] it waits for a body
    that stopped. *)
Definition perform_pq_handshake (traffic : TrafficConfig) (server_pk : bytes) (draws : ClientDraws)
    (server : bytes -> bytes -> Answer) : option (Res string PqSessionTicket) :=
  match make_client_hello traffic server_pk draws with
  | Ok (handshake_cookie, client_hello_frame, secrets) =>
      let read := hello_read (cs_cipher secrets) (encoding_type traffic) in
      let finish status chunks :=
        let? _ := check_response_status status "server rejected handshake" in
        finish_handshake traffic secrets chunks in
      match server handshake_cookie client_hello_frame with
      | NoAnswer e => Some (Err e)
      | Answered status chunks => Some (finish status chunks)
      | Broken status chunks e =>
          Some (if is_success status && negb (read chunks []) then Err e else finish status chunks)
      | Stalled status chunks => if is_success status && read chunks [] then Some (finish status chunks) else None
      end
  | Err e => Some (Err e)
  | Panic => Some Panic
  end.

Record ConnectDraws : Type := mkConnectDraws {
  cn_stream_id : bytes;
  cn_nonce1 : bytes;
  cn_nonce2 : bytes;
  cn_nonces : Z -> bytes;
  cn_draw : Z -> Z -> Z
}.

(** How [try_pq_connect] goes up to its tunnel: the actors start with the rest
    of the payload and the number of frames sent, or it fails, with a request
    for a new handshake or otherwise. *)
Inductive ConnectResult : Type :=
| Running (remaining : bytes) (frames_sent : Z)
| RehandshakeRequired
| ConnectError (e : string)
| ConnectPanic.

(** The request of [try_pq_connect]: the Cookie header, the body, what is left
    of the payload and the number of frames. *)
Definition connect_request (traffic : TrafficConfig) (ticket : PqSessionTicket) (target_host initial_payload : bytes)
    (draws : ConnectDraws) : Res string (bytes * bytes * bytes * Z) :=
  let '(upload_key, _, _) := derive_connection_keys (ticket_master ticket) (cn_stream_id draws) in
  let? upload_cipher := cipher_of upload_key in
  let? cookie_val := session_cookie ticket target_host (cn_stream_id draws) (cn_nonce1 draws) (cn_nonce2 draws) in
  match encode_initial_payload (C := upload_cipher) (cn_nonces draws) (cn_draw draws) initial_payload MAX_RAW_PAYLOAD traffic with
  | Some r =>
      let? (early_data, remaining_payload, frames_sent) := map_err msg r in
      Ok (build_tunnel_cookie (cn_draw draws) [] cookie_val, early_data, remaining_payload, frames_sent)
  | None => Panic
  end.

(** [try_pq_connect] once the head of the answer is there; [halves]: the
    socket's halves are still there to take. *)
Definition connect_answered (status : Z) (remaining_payload : bytes) (frames_sent : Z) (halves : bool)
    : ConnectResult * bool :=
  if status =? 428 then (RehandshakeRequired, halves)
  else
    match check_response_status status "server rejected session resumption" with
    | Ok _ => if halves then (Running remaining_payload frames_sent, false)
              else (ConnectError "read half already consumed", halves)
    | Err e => (ConnectError e, halves)
    | Panic => (ConnectPanic, halves)
    end.

(** The body of a 428 is drained under a timeout and that of a success is the
    tunnel's; that of another refusal is drained without one, and with [None]
    it waits for a body that stopped. *)
Definition try_pq_connect (traffic : TrafficConfig) (ticket : PqSessionTicket) (target_host initial_payload : bytes)
    (draws : ConnectDraws) (server : bytes -> bytes -> Answer) (halves : bool) : option (ConnectResult * bool) :=
  match connect_request traffic ticket target_host initial_payload draws with
  | Err e => Some (ConnectError e, halves)
  | Panic => Some (ConnectPanic, halves)
  | Ok (cookie, early_data, remaining_payload, frames_sent) =>
      match server cookie early_data with
      | NoAnswer e => Some (ConnectError e, halves)
      | Answered status _ | Broken status _ _ => Some (connect_answered status remaining_payload frames_sent halves)
      | Stalled status _ =>
          if (status =? 428) || is_success status
          then Some (connect_answered status remaining_payload frames_sent halves)
          else None
      end
  end.
End exchanges.

(** ** The shared state *)

(** Session, master key and time of the last handshake. *)
Definition InitialMasterEntry : Type := bytes * bytes * Z.

Definition ticket_is_valid (created now : Z) : bool := saturating_sub now created <? MASTER_RESUME_WINDOW_SECS.

Definition load_and_validate_ticket (now : Z) (initial_master : option InitialMasterEntry)
    : option PqSessionTicket * option InitialMasterEntry :=
  match initial_master with
  | Some (session_id, master, created) =>
      if negb (ticket_is_valid created now) then (None, None)
      else (Some (mkTicket master session_id), initial_master)
  | None => (None, None)
  end.

Definition invalidate_stale_master (rejected_sid : bytes) (initial_master : option InitialMasterEntry)
    : option InitialMasterEntry :=
  match initial_master with
  | Some (sid, _, _) => if decide (sid = rejected_sid) then None else initial_master
  | None => None
  end.

(** ** One connection *)

(** Where a connection waits. In [FsmResuming], [FsmConnecting] and
    [FsmHelloSent] for the server's answer to its request; in [FsmLocking] for the handshake lock; in
    [FsmLocked] and [FsmHelloSent] it holds that lock. *)
Inductive FsmPhase : Type :=
| FsmResuming (ticket : PqSessionTicket)
| FsmRejected (ticket : PqSessionTicket)
| FsmLocking
| FsmLocked
| FsmHelloSent
| FsmConnecting (ticket : PqSessionTicket)
| FsmRunning
| FsmDone (r : Res string unit).

Record FsmConn : Type := mkFsm {
  fsm_target : bytes;
  fsm_payload : bytes;
  fsm_halves : bool;
  fsm_phase : FsmPhase
}.

Definition set_fsm (c : FsmConn) (halves : bool) (p : FsmPhase) : FsmConn := mkFsm (fsm_target c) (fsm_payload c) halves p.

Record SessionWorld : Type := mkSessions {
  initial_master : option InitialMasterEntry;
  handshake_lock : option nat;
  fsms : gmap nat FsmConn;
  issued : list InitialMasterEntry;
  posts : list (nat * bytes * bytes);
  hellos : list nat
}.

Inductive FsmEvent : Type :=
| FsmOpen (id : nat) (target_host payload : bytes) (now : Z)
| FsmAnswer (id : nat) (draws : ConnectDraws) (server : bytes -> bytes -> Answer)
| FsmInvalidate (id : nat)
| FsmAcquire (id : nat)
| FsmCheck (id : nat) (now : Z)
| FsmHello (id : nat) (draws : ClientDraws) (server : bytes -> bytes -> Answer) (now : Z)
| FsmEnds (id : nat) (r : Res string unit).

Definition set_conn (w : SessionWorld) (id : nat) (c : FsmConn) : SessionWorld :=
  mkSessions (initial_master w) (handshake_lock w) (<[id := c]> (fsms w)) (issued w) (posts w) (hellos w).
Definition set_master (w : SessionWorld) (m : option InitialMasterEntry) : SessionWorld :=
  mkSessions m (handshake_lock w) (fsms w) (issued w) (posts w) (hellos w).
Definition set_lock (w : SessionWorld) (l : option nat) : SessionWorld :=
  mkSessions (initial_master w) l (fsms w) (issued w) (posts w) (hellos w).
Definition add_post (w : SessionWorld) (id : nat) (c : FsmConn) : SessionWorld :=
  mkSessions (initial_master w) (handshake_lock w) (fsms w) (issued w) (posts w ++ [(id, fsm_target c, fsm_payload c)]) (hellos w).
Definition add_hello (w : SessionWorld) (id : nat) : SessionWorld :=
  mkSessions (initial_master w) (handshake_lock w) (fsms w) (issued w) (posts w) (hellos w ++ [id]).
Definition add_issued (w : SessionWorld) (e : InitialMasterEntry) : SessionWorld :=
  mkSessions (Some e) (handshake_lock w) (fsms w) (issued w ++ [e]) (posts w) (hellos w).

Section fsm.
Context `{P : Aead} `{B64 : Base64} `{X : PqCrypto} `{B122 : Base122}.
Context (traffic : TrafficConfig) (server_public_key : bytes).

(** [ClientPqFsm::new]. *)
Definition ClientPqFsm_new (id : nat) (target_host payload : bytes) (now : Z) (w : SessionWorld) : SessionWorld :=
  let (ticket, master) := load_and_validate_ticket now (initial_master w) in
  let phase := match ticket with Some ticket => FsmResuming ticket | None => FsmLocking end in
  set_conn (set_master w master) id (mkFsm target_host payload true phase).

(** [try_resume] and the arms of [run] that follow it. *)
Definition after_resume (ticket : PqSessionTicket) (r : ConnectResult) : FsmPhase :=
  match r with
  | Running _ _ => FsmRunning
  | RehandshakeRequired => FsmRejected ticket
  | ConnectError e => FsmDone (Err e)
  | ConnectPanic => FsmDone Panic
  end.

(** The end of the [Handshaking] arm. *)
Definition after_connect (r : ConnectResult) : FsmPhase :=
  match r with
  | Running _ _ => FsmRunning
  | RehandshakeRequired => FsmDone (Err "server requests re-handshake (428)"%string)
  | ConnectError e => FsmDone (Err e)
  | ConnectPanic => FsmDone Panic
  end.

(** One step of the connection an event names; [None] when it is not there to
    be taken, which includes the wait for an answer that stopped. *)
Definition fsm_step (ev : FsmEvent) (w : SessionWorld) : option SessionWorld :=
  match ev with
  | FsmOpen id target_host payload now =>
      match fsms w !! id with
      | Some _ => None
      | None => Some (ClientPqFsm_new id target_host payload now w)
      end
  | FsmAnswer id draws server =>
      c ← fsms w !! id;
      match fsm_phase c with
      | FsmResuming ticket =>
          '(r, halves) ← try_pq_connect traffic ticket (fsm_target c) (fsm_payload c) draws server (fsm_halves c);
          Some (set_conn (add_post w id c) id (set_fsm c halves (after_resume ticket r)))
      | FsmConnecting ticket =>
          '(r, halves) ← try_pq_connect traffic ticket (fsm_target c) (fsm_payload c) draws server (fsm_halves c);
          Some (set_conn (add_post w id c) id (set_fsm c halves (after_connect r)))
      | _ => None
      end
  | FsmInvalidate id =>
      c ← fsms w !! id;
      match fsm_phase c with
      | FsmRejected ticket =>
          let w := set_master w (invalidate_stale_master (ticket_session ticket) (initial_master w)) in
          Some (set_conn w id (set_fsm c (fsm_halves c)
            (if fsm_halves c then FsmLocking else FsmDone (Err "read half consumed"%string))))
      | _ => None
      end
  | FsmAcquire id =>
      c ← fsms w !! id;
      match fsm_phase c, handshake_lock w with
      | FsmLocking, None => Some (set_conn (set_lock w (Some id)) id (set_fsm c (fsm_halves c) FsmLocked))
      | _, _ => None
      end
  | FsmCheck id now =>
      c ← fsms w !! id;
      match fsm_phase c with
      | FsmLocked =>
          let (ticket, master) := load_and_validate_ticket now (initial_master w) in
          let w := set_master w master in
          match ticket with
          | Some ticket => Some (set_conn (set_lock w None) id (set_fsm c (fsm_halves c) (FsmConnecting ticket)))
          | None => Some (set_conn (add_hello w id) id (set_fsm c (fsm_halves c) FsmHelloSent))
          end
      | _ => None
      end
  | FsmHello id draws server now =>
      c ← fsms w !! id;
      match fsm_phase c with
      | FsmHelloSent =>
          r ← perform_pq_handshake traffic server_public_key draws server;
          let w := set_lock w None in
          match r with
          | Ok ticket =>
              let w := add_issued w (ticket_session ticket, ticket_master ticket, now) in
              Some (set_conn w id (set_fsm c (fsm_halves c) (FsmConnecting ticket)))
          | Err e => Some (set_conn w id (set_fsm c (fsm_halves c) (FsmDone (Err e))))
          | Panic => Some (set_conn w id (set_fsm c (fsm_halves c) (FsmDone Panic)))
          end
      | _ => None
      end
  | FsmEnds id r =>
      c ← fsms w !! id;
      match fsm_phase c with
      | FsmRunning => Some (set_conn w id (set_fsm c (fsm_halves c) (FsmDone r)))
      | _ => None
      end
  end.

(** Steps of the world, with the events that made them. *)
Inductive fsm_steps : SessionWorld -> list FsmEvent -> SessionWorld -> Prop :=
| fsm_nil w : fsm_steps w [] w
| fsm_snoc w evs w1 ev w2 : fsm_steps w evs w1 -> fsm_step ev w1 = Some w2 -> fsm_steps w (evs ++ [ev]) w2.
End fsm.

Definition sessions_start : SessionWorld := mkSessions None None ∅ [] [] [].

(** ** Specification *)

(** The requests connection [id] has made so far. *)
Definition posts_of (id : nat) (w : SessionWorld) : list (nat * bytes * bytes) :=
  filter (fun p => fst (fst p) = id) (posts w).
Definition hellos_of (id : nat) (w : SessionWorld) : list nat := filter (fun h => h = id) (hellos w).

(** A ticket some handshake gave. *)
Definition was_issued (ticket : PqSessionTicket) (w : SessionWorld) : Prop :=
  exists created, (ticket_session ticket, ticket_master ticket, created) ∈ issued w.

Definition holds_lock (p : FsmPhase) : Prop := p = FsmLocked \/ p = FsmHelloSent.

(** The tunnel requests and handshakes a connection can have made, whether it
    has its socket, and its ticket. *)
Definition phase_ok (w : SessionWorld) (id : nat) (c : FsmConn) : Prop :=
  let p := length (posts_of id w) in
  let h := length (hellos_of id w) in
  match fsm_phase c with
  | FsmResuming t => (p = 0 /\ h = 0)%nat /\ fsm_halves c = true /\ was_issued t w
  | FsmRejected t => (p = 1 /\ h = 0)%nat /\ fsm_halves c = true /\ was_issued t w
  | FsmLocking => (p <= 1 /\ h = 0)%nat /\ fsm_halves c = true
  | FsmLocked => (p <= 1 /\ h = 0)%nat /\ fsm_halves c = true /\ handshake_lock w = Some id
  | FsmHelloSent => (p <= 1 /\ h = 1)%nat /\ fsm_halves c = true /\ handshake_lock w = Some id
  | FsmConnecting t => (p <= 1 /\ h <= 1)%nat /\ fsm_halves c = true /\ was_issued t w
  | FsmRunning => (1 <= p <= 2 /\ h <= 1)%nat /\ fsm_halves c = false
  | FsmDone r => (p <= 2 /\ h <= 1)%nat
  end.

Record sessions_inv (w : SessionWorld) : Prop := {
  si_master : forall e, initial_master w = Some e -> e ∈ issued w;
  si_lock : forall id, handshake_lock w = Some id -> exists c, fsms w !! id = Some c /\ holds_lock (fsm_phase c);
  si_conn : forall id c, fsms w !! id = Some c -> phase_ok w id c;
  si_posts : forall id c p, fsms w !! id = Some c -> p ∈ posts_of id w -> p = (id, fsm_target c, fsm_payload c);
  si_none : forall id, fsms w !! id = None -> posts_of id w = [] /\ hellos_of id w = []
}.

(** How many steps a connection can still take. *)
Definition rank (p : FsmPhase) : nat :=
  match p with
  | FsmResuming _ => 7 | FsmRejected _ => 6 | FsmLocking => 5 | FsmLocked => 4
  | FsmHelloSent => 3 | FsmConnecting _ => 2 | FsmRunning => 1 | FsmDone _ => 0
  end.

Definition total_rank (w : SessionWorld) : nat := map_fold (fun _ c n => (rank (fsm_phase c) + n)%nat) 0%nat (fsms w).

(** Every answer of the server ends or fails, and one that stops before its
    body does neither. *)
Definition answers_end (server : bytes -> bytes -> Answer) : Prop :=
  forall cookie body, match server cookie body with Stalled _ _ => False | _ => True end.

Definition answers_stop (server : bytes -> bytes -> Answer) : Prop :=
  forall cookie body, exists status, server cookie body = Stalled status [].

Definition is_open (ev : FsmEvent) : bool := match ev with FsmOpen _ _ _ _ => true | _ => false end.
Definition is_done (p : FsmPhase) : Prop := match p with FsmDone _ => True | _ => False end.

(** ** Lemmas *)

Section sessions.
Context `{P : Aead} `{B64 : Base64} `{X : PqCrypto} `{B122 : Base122}.
Context (traffic : TrafficConfig) (server_public_key : bytes).

(** A failed attempt keeps the socket's halves, a tunnel takes them. *)
Lemma try_pq_connect_halves ticket target payload draws server r halves :
  try_pq_connect traffic ticket target payload draws server true = Some (r, halves) ->
  match r with Running _ _ => halves = false | _ => halves = true end.
Proof.
  unfold try_pq_connect. destruct (connect_request _ _ _ _ _) as [[[[cookie early] rest] n]|e|]; [|by intros [= <- <-]..].
  assert (Ha : forall status, connect_answered status rest n true = (r, halves) ->
    match r with Running _ _ => halves = false | _ => halves = true end).
  { intros status. unfold connect_answered. destruct (status =? 428); [by intros [= <- <-]|].
    destruct (check_response_status _ _); by intros [= <- <-]. }
  destruct (server cookie early) as [e|status chunks|status chunks e|status chunks]; [by intros [= <- <-]|..]; [..|destruct (_ || _); [|done]];
    intros [= Heq]; by eapply Ha.
Qed.

Lemma load_some now m ticket m' :
  load_and_validate_ticket now m = (Some ticket, m') ->
  m' = m /\ exists created, m = Some (ticket_session ticket, ticket_master ticket, created) /\
    saturating_sub now created < MASTER_RESUME_WINDOW_SECS.
Proof.
  unfold load_and_validate_ticket. destruct m as [[[sid master] created]|]; [|done].
  destruct (ticket_is_valid created now) eqn:Hv; cbn [negb]; [|done]. intros [= <- <-]. split; [done|]. exists created. split; [done|].
  by apply Z.ltb_lt.
Qed.

Lemma load_none now m m' : load_and_validate_ticket now m = (None, m') -> m' = None.
Proof. unfold load_and_validate_ticket. destruct m as [[[sid master] created]|]; [|by intros [= <-]]. by destruct (negb _); intros [= <-]. Qed.

Lemma invalidate_cases sid m : invalidate_stale_master sid m = None \/ invalidate_stale_master sid m = m.
Proof. unfold invalidate_stale_master. destruct m as [[[s ?] ?]|]; [|by left]. case_decide; [by left|by right]. Qed.

Lemma posts_of_app w w2 i ps : posts w2 = posts w ++ ps ->
  posts_of i w2 = posts_of i w ++ filter (fun p => fst (fst p) = i) ps.
Proof. intros H. unfold posts_of. by rewrite H, filter_app. Qed.

Lemma hellos_of_app w w2 i hs : hellos w2 = hellos w ++ hs ->
  hellos_of i w2 = hellos_of i w ++ filter (fun h => h = i) hs.
Proof. intros H. unfold hellos_of. by rewrite H, filter_app. Qed.

(** A step of connection [id] keeps the invariant when it does so for [id]:
    the logs only grow, by its own entries, and nobody else's hold of the lock
    changes. *)
Record own_step (w w2 : SessionWorld) (id : nat) (c c' : FsmConn) (ps : list (nat * bytes * bytes)) (hs : list nat) : Prop := {
  os_fsms : fsms w2 = <[id := c']> (fsms w);
  os_same : fsm_target c' = fsm_target c /\ fsm_payload c' = fsm_payload c;
  os_posts : posts w2 = posts w ++ ps;
  os_own : ps = [] \/ ps = [(id, fsm_target c, fsm_payload c)];
  os_hellos : hellos w2 = hellos w ++ hs;
  os_hown : hs = [] \/ hs = [id];
  os_issued : exists es, issued w2 = issued w ++ es;
  os_master : forall e, initial_master w2 = Some e -> e ∈ issued w2;
  os_lock : forall i, i <> id -> handshake_lock w = Some i <-> handshake_lock w2 = Some i;
  os_held : handshake_lock w2 = Some id -> holds_lock (fsm_phase c')
}.

Lemma own_counts w w2 id c c' ps hs : own_step w w2 id c c' ps hs ->
  posts_of id w2 = posts_of id w ++ ps /\ hellos_of id w2 = hellos_of id w ++ hs /\
  forall i, i <> id -> posts_of i w2 = posts_of i w /\ hellos_of i w2 = hellos_of i w.
Proof.
  intros [_ _ Hp Hpo Hh Hho _ _ _ _].
  assert (Hf : forall i, filter (fun p => fst (fst p) = i) ps = if decide (i = id) then ps else []).
  { intros i. destruct Hpo as [->| ->]; [by case_decide|]. case_decide; subst; [by rewrite filter_cons_True|by rewrite filter_cons_False]. }
  assert (Hg : forall i, filter (fun h => h = i) hs = if decide (i = id) then hs else []).
  { intros i. destruct Hho as [->| ->]; [by case_decide|]. case_decide; subst; [by rewrite filter_cons_True|by rewrite filter_cons_False]. }
  rewrite (posts_of_app _ _ _ _ Hp), (hellos_of_app _ _ _ _ Hh), Hf, Hg, !decide_True by done. split; [done|]. split; [done|].
  intros i Hi. rewrite (posts_of_app _ _ _ _ Hp), (hellos_of_app _ _ _ _ Hh), Hf, Hg, !decide_False, !app_nil_r by done. done.
Qed.

Lemma was_issued_more w w2 t : (exists es, issued w2 = issued w ++ es) -> was_issued t w -> was_issued t w2.
Proof. intros [es He] [created Hc]. exists created. rewrite He, elem_of_app. by left. Qed.

Lemma own_step_inv w w2 id c c' ps hs :
  sessions_inv w -> fsms w !! id = Some c -> own_step w w2 id c c' ps hs -> phase_ok w2 id c' -> sessions_inv w2.
Proof.
  intros [Hm Hl Hc Hpo Hn] Hid Hs Hok. destruct (own_counts _ _ _ _ _ _ _ Hs) as (Hp & Hh & Hoth).
  destruct Hs as [Hf [Ht1 Ht2] _ Hown _ _ Hi Hm2 Hlk Hheld]. split; [done|..].
  - intros i Hi2. rewrite Hf. destruct (decide (i = id)) as [->|Hne]; [exists c'; rewrite lookup_insert_eq; auto|].
    rewrite lookup_insert_ne by done. apply Hl, Hlk; done.
  - intros i ci. rewrite Hf. destruct (decide (i = id)) as [->|Hne]; [rewrite lookup_insert_eq; by intros [= <-]|].
    rewrite lookup_insert_ne by done. intros Hci. specialize (Hc i ci Hci). unfold phase_ok in *. destruct (Hoth i Hne) as [-> ->].
    destruct (fsm_phase ci); rewrite <- ?(Hlk i Hne); intuition eauto using was_issued_more.
  - intros i ci p. rewrite Hf. destruct (decide (i = id)) as [->|Hne].
    + rewrite lookup_insert_eq. intros [= <-]. rewrite Hp, elem_of_app, Ht1, Ht2. intros [Hin|Hin]; [by apply Hpo|].
      destruct Hown as [->| ->]; [by apply not_elem_of_nil in Hin|by apply list_elem_of_singleton in Hin].
    + rewrite lookup_insert_ne by done. destruct (Hoth i Hne) as [-> _]. apply Hpo.
  - intros i. rewrite Hf. destruct (decide (i = id)) as [->|Hne]; [by rewrite lookup_insert_eq|].
    rewrite lookup_insert_ne by done. destruct (Hoth i Hne) as [-> ->]. apply Hn.
Qed.

(** The step of a connection that is already open: its own entries, and one
    rank less. *)
Definition own_move (w w2 : SessionWorld) : Prop :=
  exists id c c' ps hs, fsms w !! id = Some c /\ own_step w w2 id c c' ps hs /\ phase_ok w2 id c' /\
    (rank (fsm_phase c') < rank (fsm_phase c))%nat.

Definition no_posts : list (nat * bytes * bytes) := [].
Definition no_hellos : list nat := [].

Ltac own_step_tac w2 :=
  split; subst w2; cbn; try done; try (by rewrite app_nil_r); try (by left); try (by right);
    try (by exists []; rewrite app_nil_r); try (by eexists); try (by intros; split; congruence).

(** Discharges [own_move] for the new state [c'] of connection [id]. *)
Ltac own_move_tac w2 id c c' ps hs :=
  exists id, c, c', ps, hs; split; [done|];
  match goal with |- own_step ?w _ _ _ _ _ _ /\ _ =>
    let Hs := fresh "Hs" in
    assert (Hs : own_step w w2 id c c' ps hs) by own_step_tac w2;
    let Hp := fresh "Hp" in let Hh := fresh "Hh" in
    destruct (own_counts _ _ _ _ _ _ _ Hs) as (Hp & Hh & _);
    split; [exact Hs|]; split;
      [unfold phase_ok; rewrite Hp, Hh, !length_app; let Hi := fresh "Hi" in destruct Hs as [_ _ _ _ _ _ Hi _ _ _];
       cbn [fsm_phase set_fsm fsm_halves length no_posts no_hellos]; repeat split; try lia; try done; try (by subst w2); try (by eapply was_issued_more; [exact Hi|])
      |cbn; try (match goal with H : fsm_phase c = _ |- _ => rewrite H end); cbn; lia]
  end.

Ltac close_move w2 Hw2 id c ps hs :=
  match type of Hw2 with _ = set_conn _ _ ?c' => own_move_tac w2 id c c' ps hs end.

Section moves.
Context (w w2 : SessionWorld) (Hinv : sessions_inv w).

Lemma not_holding id c : fsms w !! id = Some c -> ~ holds_lock (fsm_phase c) -> handshake_lock w <> Some id.
Proof. intros Hid Hn Hl. destruct (si_lock w Hinv id Hl) as (c0 & Hc0 & Hh). apply Hn. congruence. Qed.

Lemma move_answer id draws server :
  fsm_step traffic server_public_key (FsmAnswer id draws server) w = Some w2 -> own_move w w2.
Proof.
  cbn [fsm_step]. destruct (fsms w !! id) as [c|] eqn:Hid; cbn [mbind option_bind]; [|done].
  pose proof (si_conn w Hinv id c Hid) as Hok. pose proof (not_holding id c Hid) as Hnl. pose proof (si_master w Hinv) as Hm.
  unfold phase_ok in Hok. destruct (fsm_phase c) as [t|t| | | |t| |r0] eqn:Hph; try done.
  - destruct Hok as ((Hp & Hh) & Hhv & Hi). rewrite Hhv. assert (Hn : handshake_lock w <> Some id) by (apply Hnl; by intros []).
    destruct (try_pq_connect _ _ _ _ _ _ _) as [[r halves]|] eqn:Ht; [|done]. apply try_pq_connect_halves in Ht. intros [= Hw2].
    symmetry in Hw2. destruct r; subst halves; cbn [after_resume] in Hw2.
    all: close_move w2 Hw2 id c [(id, fsm_target c, fsm_payload c)] no_hellos.
  - destruct Hok as ((Hp & Hh) & Hhv & Hi). rewrite Hhv. assert (Hn : handshake_lock w <> Some id) by (apply Hnl; by intros []).
    destruct (try_pq_connect _ _ _ _ _ _ _) as [[r halves]|] eqn:Ht; [|done]. apply try_pq_connect_halves in Ht. intros [= Hw2].
    symmetry in Hw2. destruct r; subst halves; cbn [after_connect] in Hw2.
    all: close_move w2 Hw2 id c [(id, fsm_target c, fsm_payload c)] no_hellos.
Qed.

Lemma move_invalidate id : fsm_step traffic server_public_key (FsmInvalidate id) w = Some w2 -> own_move w w2.
Proof.
  cbn [fsm_step]. destruct (fsms w !! id) as [c|] eqn:Hid; cbn [mbind option_bind]; [|done].
  pose proof (si_conn w Hinv id c Hid) as Hok. pose proof (not_holding id c Hid) as Hnl. pose proof (si_master w Hinv) as Hm.
  unfold phase_ok in Hok. destruct (fsm_phase c) as [t|t| | | |t| |r0] eqn:Hph; try done.
  destruct Hok as ((Hp & Hh) & Hhv & Hi). rewrite Hhv. assert (Hn : handshake_lock w <> Some id) by (apply Hnl; by intros []).
  intros [= Hw2]. symmetry in Hw2.
  assert (Hm2 : forall e, initial_master w2 = Some e -> e ∈ issued w2).
  { subst w2. cbn. destruct (invalidate_cases (ticket_session t) (initial_master w)) as [-> | ->]; [done|apply Hm]. }
  close_move w2 Hw2 id c no_posts no_hellos.
Qed.

Lemma move_acquire id : fsm_step traffic server_public_key (FsmAcquire id) w = Some w2 -> own_move w w2.
Proof.
  cbn [fsm_step]. destruct (fsms w !! id) as [c|] eqn:Hid; cbn [mbind option_bind]; [|done].
  pose proof (si_conn w Hinv id c Hid) as Hok. pose proof (si_master w Hinv) as Hm.
  unfold phase_ok in Hok. destruct (fsm_phase c) as [t|t| | | |t| |r0] eqn:Hph; try done.
  destruct (handshake_lock w) eqn:Hl; [done|]. destruct Hok as ((Hp & Hh) & Hhv). rewrite Hhv. intros [= Hw2]. symmetry in Hw2.
  close_move w2 Hw2 id c no_posts no_hellos.
Qed.

Lemma move_check id now : fsm_step traffic server_public_key (FsmCheck id now) w = Some w2 -> own_move w w2.
Proof.
  cbn [fsm_step]. destruct (fsms w !! id) as [c|] eqn:Hid; cbn [mbind option_bind]; [|done].
  pose proof (si_conn w Hinv id c Hid) as Hok. pose proof (si_master w Hinv) as Hm.
  unfold phase_ok in Hok. destruct (fsm_phase c) as [t|t| | | |t| |r0] eqn:Hph; try done.
  destruct Hok as ((Hp & Hh) & Hhv & Hl). rewrite Hhv.
  destruct (load_and_validate_ticket now (initial_master w)) as [[t|] m] eqn:Hload; intros [= Hw2]; symmetry in Hw2.
  - apply load_some in Hload as [-> (created & Hmas & _)].
    assert (Hi : was_issued t w) by (exists created; by apply Hm).
    close_move w2 Hw2 id c no_posts no_hellos.
  - apply load_none in Hload as ->.
    close_move w2 Hw2 id c no_posts [id].
Qed.

Lemma move_hello id draws server now : fsm_step traffic server_public_key (FsmHello id draws server now) w = Some w2 -> own_move w w2.
Proof.
  cbn [fsm_step]. destruct (fsms w !! id) as [c|] eqn:Hid; cbn [mbind option_bind]; [|done].
  pose proof (si_conn w Hinv id c Hid) as Hok. pose proof (si_master w Hinv) as Hm.
  unfold phase_ok in Hok. destruct (fsm_phase c) as [t|t| | | |t| |r0] eqn:Hph; try done.
  destruct Hok as ((Hp & Hh) & Hhv & Hl). rewrite Hhv.
  destruct (perform_pq_handshake _ _ _ _) as [[t|e|]|]; [..|done]; intros [= Hw2]; symmetry in Hw2.
  - set (e := (ticket_session t, ticket_master t, now)) in *.
    assert (Hi : was_issued t w2) by (exists now; subst w2; cbn; rewrite elem_of_app; right; by left).
    assert (Hm2 : forall e', initial_master w2 = Some e' -> e' ∈ issued w2).
    { subst w2. cbn. intros e' [= <-]. rewrite elem_of_app. right. by left. }
    close_move w2 Hw2 id c no_posts no_hellos.
  - close_move w2 Hw2 id c no_posts no_hellos.
  - close_move w2 Hw2 id c no_posts no_hellos.
Qed.

Lemma move_ends id r : fsm_step traffic server_public_key (FsmEnds id r) w = Some w2 -> own_move w w2.
Proof.
  cbn [fsm_step]. destruct (fsms w !! id) as [c|] eqn:Hid; cbn [mbind option_bind]; [|done].
  pose proof (si_conn w Hinv id c Hid) as Hok. pose proof (not_holding id c Hid) as Hnl. pose proof (si_master w Hinv) as Hm.
  unfold phase_ok in Hok. destruct (fsm_phase c) as [t|t| | | |t| |r0] eqn:Hph; try done.
  destruct Hok as (Hp & Hhv). assert (Hn : handshake_lock w <> Some id) by (apply Hnl; by intros []).
  intros [= Hw2]. symmetry in Hw2.
  close_move w2 Hw2 id c no_posts no_hellos.
Qed.

Lemma step_move ev : is_open ev = false -> fsm_step traffic server_public_key ev w = Some w2 -> own_move w w2.
Proof.
  destruct ev as [|id draws server|id|id|id now|id draws server now|id r]; [done|..]; intros _;
    [apply move_answer|apply move_invalidate|apply move_acquire|apply move_check|apply move_hello|apply move_ends].
Qed.
End moves.

Lemma move_inv w w2 : sessions_inv w -> own_move w w2 -> sessions_inv w2.
Proof. intros Hi (id & c & c' & ps & hs & Hid & Hs & Hok & _). by eapply own_step_inv. Qed.

Lemma open_inv id target payload now w :
  sessions_inv w -> fsms w !! id = None -> sessions_inv (ClientPqFsm_new id target payload now w).
Proof.
  intros Hinv Hid. pose proof Hinv as [Hm Hl Hc Hp Hn]. unfold ClientPqFsm_new.
  destruct (load_and_validate_ticket now (initial_master w)) as [ticket m] eqn:Hload.
  assert (Hm2 : forall e, m = Some e -> e ∈ issued w).
  { destruct ticket; [apply load_some in Hload as [-> _]; exact Hm|by apply load_none in Hload as ->]. }
  assert (Hne : handshake_lock w <> Some id) by (intros (c & Hc0 & _)%Hl; congruence).
  split; cbn; [done|..].
  - intros i Hi. assert (i <> id) by congruence. rewrite lookup_insert_ne by done. by apply Hl.
  - intros i c. destruct (decide (i = id)) as [->|Hi]; [|rewrite lookup_insert_ne by done; by apply Hc].
    rewrite lookup_insert_eq. intros [= <-]. destruct (Hn id Hid) as [Hp0 Hh0]. unfold phase_ok, posts_of, hellos_of in *. cbn.
    rewrite Hp0, Hh0. destruct ticket as [t|]; cbn; [|by split; [lia|]].
    apply load_some in Hload as [_ (created & Hmas & _)]. split; [done|]. split; [done|]. exists created. by apply Hm.
  - intros i c p0. destruct (decide (i = id)) as [->|Hi]; [|rewrite lookup_insert_ne by done; by apply Hp].
    intros _ Hin. unfold posts_of in *. cbn in Hin. destruct (Hn id Hid) as [Hp0 _]. unfold posts_of in Hp0. rewrite Hp0 in Hin.
    by apply not_elem_of_nil in Hin.
  - intros i. destruct (decide (i = id)) as [->|Hi]; [by rewrite lookup_insert_eq|]. rewrite lookup_insert_ne by done. apply Hn.
Qed.

Lemma step_inv ev w w2 : sessions_inv w -> fsm_step traffic server_public_key ev w = Some w2 -> sessions_inv w2.
Proof.
  intros Hi Hs. destruct (is_open ev) eqn:Ho; [|eapply move_inv, step_move; eauto].
  destruct ev as [id target payload now| | | | | |]; try done. cbn in Hs. destruct (fsms w !! id) eqn:Hid; [done|].
  injection Hs as <-. by apply open_inv.
Qed.

Lemma start_inv : sessions_inv sessions_start.
Proof. by split. Qed.

Lemma steps_inv w evs w2 : sessions_inv w -> fsm_steps traffic server_public_key w evs w2 -> sessions_inv w2.
Proof. intros Hi Hs. induction Hs as [|w evs w1 ev w2 _ IH Hst]; [done|]. eapply step_inv; [by apply IH|exact Hst]. Qed.

(** *** Progress *)

Lemma total_rank_insert w id c c' m :
  fsms w !! id = Some c -> m = <[id := c']> (fsms w) ->
  (map_fold (fun _ c n => (rank (fsm_phase c) + n)%nat) 0%nat m + rank (fsm_phase c) = total_rank w + rank (fsm_phase c'))%nat.
Proof.
  intros Hid ->. unfold total_rank.
  assert (Hins : forall x (k : gmap nat FsmConn), k !! id = None ->
    map_fold (fun _ c n => (rank (fsm_phase c) + n)%nat) 0%nat (<[id := x]> k) =
    (rank (fsm_phase x) + map_fold (fun _ c n => (rank (fsm_phase c) + n)%nat) 0%nat k)%nat).
  { intros x k Hk. apply (map_fold_insert_L (fun _ c n => (rank (fsm_phase c) + n)%nat)); [intros; lia|done]. }
  pose proof (Hins c' (delete id (fsms w)) (lookup_delete_eq _ _)) as H1.
  pose proof (Hins c (delete id (fsms w)) (lookup_delete_eq _ _)) as H2.
  rewrite insert_delete_eq in H1. rewrite insert_delete_id in H2 by done. lia.
Qed.

Lemma move_rank w w2 : own_move w w2 -> (total_rank w2 < total_rank w)%nat.
Proof.
  intros (id & c & c' & ps & hs & Hid & Hs & _ & Hr). pose proof (total_rank_insert w id c c' (fsms w2) Hid (os_fsms _ _ _ _ _ _ _ Hs)).
  unfold total_rank in *. lia.
Qed.

Definition not_open (ev : FsmEvent) : Prop := is_open ev = false.

Lemma steps_rank w evs w2 : sessions_inv w -> fsm_steps traffic server_public_key w evs w2 -> Forall not_open evs ->
  (length evs + total_rank w2 <= total_rank w)%nat.
Proof.
  intros Hi. induction 1 as [|w evs w1 ev w2 Hs IH Hst]; intros Ho; [done|]. apply Forall_app in Ho as [Ho [Hev _]%Forall_cons].
  specialize (IH Hi Ho). pose proof (step_move w1 w2 (steps_inv _ _ _ Hi Hs) ev Hev Hst) as Hm. apply move_rank in Hm.
  rewrite length_app. cbn. lia.
Qed.

(** Connection [id] has a step now, whatever the server answers and whenever,
    as long as its answer ends. *)
Definition can_move (id : nat) (w : SessionWorld) : Prop :=
  exists c, fsms w !! id = Some c /\
  match fsm_phase c with
  | FsmResuming _ | FsmConnecting _ => forall draws server, answers_end server ->
      is_Some (fsm_step traffic server_public_key (FsmAnswer id draws server) w)
  | FsmRejected _ => is_Some (fsm_step traffic server_public_key (FsmInvalidate id) w)
  | FsmLocking => is_Some (fsm_step traffic server_public_key (FsmAcquire id) w)
  | FsmLocked => forall now, is_Some (fsm_step traffic server_public_key (FsmCheck id now) w)
  | FsmHelloSent => forall draws server now, answers_end server ->
      is_Some (fsm_step traffic server_public_key (FsmHello id draws server now) w)
  | FsmRunning => forall r, is_Some (fsm_step traffic server_public_key (FsmEnds id r) w)
  | FsmDone _ => False
  end.

Lemma try_pq_connect_ends ticket target payload draws server halves :
  answers_end server -> is_Some (try_pq_connect traffic ticket target payload draws server halves).
Proof.
  intros He. unfold try_pq_connect. destruct (connect_request _ _ _ _ _) as [[[[cookie early] rest] n]|e|]; [|by eexists..].
  specialize (He cookie early). destruct (server cookie early); [by eexists..|done].
Qed.

Lemma perform_pq_handshake_ends draws server :
  answers_end server -> is_Some (perform_pq_handshake traffic server_public_key draws server).
Proof.
  intros He. unfold perform_pq_handshake. destruct (make_client_hello _ _ _) as [[[cookie frame] secrets]|e|]; [|by eexists..].
  specialize (He cookie frame). destruct (server cookie frame); [by eexists..|done].
Qed.

Lemma phase_moves w id c :
  fsms w !! id = Some c -> ~ is_done (fsm_phase c) -> (fsm_phase c = FsmLocking -> handshake_lock w = None) -> can_move id w.
Proof.
  intros Hid Hd Hl. exists c. split; [done|].
  destruct (fsm_phase c) as [t|t| | | |t| |r] eqn:Hph; [..|by destruct Hd]; intros; cbn [fsm_step]; rewrite Hid; cbn [mbind option_bind]; rewrite Hph.
  - destruct (try_pq_connect_ends t (fsm_target c) (fsm_payload c) draws server (fsm_halves c)) as [[r halves] ->]; [done|]. by eexists.
  - by eexists.
  - rewrite Hl by done. by eexists.
  - destruct (load_and_validate_ticket _ _) as [[]?]; by eexists.
  - destruct (perform_pq_handshake_ends draws server) as [r ->]; [done|]. by destruct r; eexists.
  - destruct (try_pq_connect_ends t (fsm_target c) (fsm_payload c) draws server (fsm_halves c)) as [[r halves] ->]; [done|]. by eexists.
  - by eexists.
Qed.

Lemma progress w id c :
  sessions_inv w -> fsms w !! id = Some c -> ~ is_done (fsm_phase c) ->
  can_move id w \/ (fsm_phase c = FsmLocking /\ exists holder, handshake_lock w = Some holder /\ can_move holder w).
Proof.
  intros Hi Hid Hd. destruct (handshake_lock w) as [h|] eqn:Hl; [|left; by eapply phase_moves].
  destruct (decide (rank (fsm_phase c) = 5%nat)) as [Hr|Hr].
  - right. split; [by destruct (fsm_phase c)|]. exists h. split; [done|]. destruct (si_lock w Hi h Hl) as (ch & Hch & Hh).
    apply (phase_moves w h ch Hch); [destruct Hh as [Hh|Hh]; rewrite Hh; by intros []|].
    intros Hlk. rewrite Hlk in Hh. by destruct Hh.
  - left. eapply phase_moves; [done..|]. intros Hph. by rewrite Hph in Hr.
Qed.
End sessions.

Section finishing.
Context `{P : Aead} `{B64 : Base64} `{X : PqCrypto} `{B122 : Base122}.
Context (traffic : TrafficConfig) (server_public_key : bytes).
Notation steps := (fsm_steps traffic server_public_key).

Lemma steps_cons w ev w1 evs w2 :
  fsm_step traffic server_public_key ev w = Some w1 -> steps w1 evs w2 -> steps w (ev :: evs) w2.
Proof.
  intros Hst H. induction H as [w1|w1 evs w2 ev' w3 _ IH Hs'].
  - change [ev] with ([] ++ [ev]). eapply fsm_snoc; [constructor|done].
  - rewrite app_comm_cons. eapply fsm_snoc; [by apply IH|done].
Qed.

(** The world after a list of events. *)
Fixpoint fsm_run (evs : list FsmEvent) (w : SessionWorld) : option SessionWorld :=
  match evs with
  | [] => Some w
  | ev :: evs => w ← fsm_step traffic server_public_key ev w; fsm_run evs w
  end.

Lemma fsm_run_steps evs : forall w w2, fsm_run evs w = Some w2 -> steps w evs w2.
Proof.
  induction evs as [|ev evs IH]; intros w w2; cbn [fsm_run]; [intros [= <-]; constructor|].
  destruct (fsm_step _ _ ev w) as [w1|] eqn:Hs; cbn [mbind option_bind]; [|done]. intros Hr. eapply steps_cons; eauto.
Qed.

(** Some answer for each wait: any supply of answers that end will do. *)
Record Answers : Type := mkAnswers {
  an_connect : ConnectDraws;
  an_server : bytes -> bytes -> Answer;
  an_hello : ClientDraws;
  an_now : Z;
  an_end : Res string unit
}.

Definition next_event (a : Answers) (id : nat) (p : FsmPhase) : FsmEvent :=
  match p with
  | FsmResuming _ | FsmConnecting _ => FsmAnswer id (an_connect a) (an_server a)
  | FsmRejected _ => FsmInvalidate id
  | FsmLocking => FsmAcquire id
  | FsmLocked => FsmCheck id (an_now a)
  | FsmHelloSent => FsmHello id (an_hello a) (an_server a) (an_now a)
  | FsmRunning | FsmDone _ => FsmEnds id (an_end a)
  end.

Lemma can_move_next (a : Answers) id w :
  answers_end (an_server a) -> can_move traffic server_public_key id w ->
  exists ev w2, not_open ev /\ fsm_step traffic server_public_key ev w = Some w2.
Proof.
  intros He (c & Hid & Hm). destruct (fsm_phase c) eqn:Hph; [..|done];
    exists (next_event a id (fsm_phase c)); rewrite Hph; cbn [next_event].
  all: match goal with |- exists w2, not_open ?ev /\ _ => assert (is_Some (fsm_step traffic server_public_key ev w)) as [w2 Hw2] by by apply Hm end.
  all: by exists w2.
Qed.

Lemma can_finish (a : Answers) n : answers_end (an_server a) -> forall w, sessions_inv w -> (total_rank w <= n)%nat ->
  exists evs w2, steps w evs w2 /\ Forall not_open evs /\ map_Forall (fun _ c => is_done (fsm_phase c)) (fsms w2).
Proof.
  intros He. assert (Hdec : forall c, Decision (is_done (fsm_phase c))) by (intros c; unfold is_done; destruct (fsm_phase c); apply _).
  assert (step_of : forall w, sessions_inv w -> ~ map_Forall (fun _ c => is_done (fsm_phase c)) (fsms w) ->
    exists ev w2, not_open ev /\ fsm_step traffic server_public_key ev w = Some w2).
  { intros w Hi Hd. apply map_not_Forall in Hd as (id & c & Hid & Hd); [|apply _].
    destruct (progress traffic server_public_key w id c Hi Hid Hd) as [Hm|(_ & h & _ & Hm)]; exact (can_move_next a _ _ He Hm). }
  induction n as [|n IH]; intros w Hi Hn;
    (destruct (decide (map_Forall (fun _ c => is_done (fsm_phase c)) (fsms w))) as [Hd|Hd]; [exists [], w; by split; [constructor|]|]).
  all: destruct (step_of w Hi Hd) as (ev & w1 & Hev & Hst);
    pose proof (move_rank w w1 (step_move traffic server_public_key w w1 Hi ev Hev Hst)) as Hr.
  { lia. }
  destruct (IH w1) as (evs & w2 & Hs & Ho & Hall); [by eapply step_inv|lia|].
  exists (ev :: evs), w2. split; [by eapply steps_cons|]. split; [by constructor|done].
Qed.

(** ** Properties *)

(** C16: connections that share the master key and the handshake lock. However
    their steps interleave and whatever the server answers, at most one
    connection is in a handshake at a time; the stored key and every ticket in
    use came from a completed handshake; each connection makes at most two
    tunnel requests, all with its own target and payload, and at most one
    handshake; and one whose session was rejected still has its socket, so
    that it goes on to a full handshake. *)
Theorem sessions_safe evs w :
  steps sessions_start evs w ->
  (forall i j ci cj, fsms w !! i = Some ci -> fsms w !! j = Some cj ->
     holds_lock (fsm_phase ci) -> holds_lock (fsm_phase cj) -> i = j) /\
  (forall e, initial_master w = Some e -> e ∈ issued w) /\
  (forall id c, fsms w !! id = Some c ->
     (length (posts_of id w) <= 2 /\ length (hellos_of id w) <= 1)%nat /\
     Forall (fun p => p = (id, fsm_target c, fsm_payload c)) (posts_of id w) /\
     (forall t, fsm_phase c = FsmResuming t \/ fsm_phase c = FsmConnecting t -> was_issued t w) /\
     (forall t w', fsm_phase c = FsmRejected t -> fsm_step traffic server_public_key (FsmInvalidate id) w = Some w' ->
        exists c', fsms w' !! id = Some c' /\ fsm_phase c' = FsmLocking)).
Proof.
  intros Hs. pose proof (steps_inv _ _ _ _ _ start_inv Hs) as [Hm Hl Hc Hp Hn]. split; [|split; [done|]].
  - intros i j ci cj Hi Hj Hhi Hhj.
    assert (Hlk : forall k ck, fsms w !! k = Some ck -> holds_lock (fsm_phase ck) -> handshake_lock w = Some k).
    { intros k ck Hk Hh. specialize (Hc k ck Hk). unfold phase_ok in Hc. destruct Hh as [Hh|Hh]; rewrite Hh in Hc; tauto. }
    pose proof (Hlk i ci Hi Hhi). pose proof (Hlk j cj Hj Hhj). congruence.
  - intros id c Hid. pose proof (Hc id c Hid) as Hok. unfold phase_ok in Hok. split; [|split; [|split]].
    + destruct (fsm_phase c); lia.
    + apply Forall_forall. intros p. by apply Hp.
    + intros t [Ht|Ht]; rewrite Ht in Hok; tauto.
    + intros t w' Ht Hst. rewrite Ht in Hok. destruct Hok as (_ & Hh & _). cbn [fsm_step] in Hst. rewrite Hid in Hst.
      cbn [mbind option_bind] in Hst. rewrite Ht, Hh in Hst. injection Hst as <-. eexists. cbn. by rewrite lookup_insert_eq.
Qed.

(** C15: every connection finishes, as long as the server's answers end. Without
    new connections at most seven steps are left for each, whatever the server
    answers. As long as a connection is not done, it has a step as soon as its
    answer ends or its tunnel does, or it waits for the lock and the connection
    that holds the lock has such a step; so with answers that end the steps can
    go on until every connection is done. But a body that stops is waited for
    without a limit: a connection whose ServerHello does not arrive has no step,
    and it keeps the lock, so that no connection that needs a handshake has one
    either. *)
Theorem sessions_finish evs w :
  steps sessions_start evs w ->
  (forall evs2 w2, steps w evs2 w2 -> Forall not_open evs2 -> (length evs2 + total_rank w2 <= total_rank w)%nat) /\
  (forall id c, fsms w !! id = Some c -> ~ is_done (fsm_phase c) ->
     can_move traffic server_public_key id w \/
     (fsm_phase c = FsmLocking /\ exists holder, handshake_lock w = Some holder /\ can_move traffic server_public_key holder w)) /\
  (forall a : Answers, answers_end (an_server a) -> exists evs2 w2, steps w evs2 w2 /\ Forall not_open evs2 /\
     map_Forall (fun _ c => is_done (fsm_phase c)) (fsms w2)) /\
  (forall id c, fsms w !! id = Some c -> fsm_phase c = FsmHelloSent ->
     (forall cookie body secrets draws server now, make_client_hello traffic server_public_key draws = Ok (cookie, body, secrets) ->
        answers_stop server -> fsm_step traffic server_public_key (FsmHello id draws server now) w = None) /\
     forall id2, fsm_step traffic server_public_key (FsmAcquire id2) w = None).
Proof.
  intros Hs. pose proof (steps_inv _ _ _ _ _ start_inv Hs) as Hi. split; [|split; [|split]].
  - intros evs2 w2 Hs2. by eapply steps_rank.
  - intros id c. by apply progress.
  - intros a He. by eapply can_finish.
  - intros id c Hid Hph. split.
    + intros cookie body secrets draws server now Hmake Hstop. cbn [fsm_step]. rewrite Hid. cbn [mbind option_bind]. rewrite Hph.
      unfold perform_pq_handshake. rewrite Hmake. destruct (Hstop cookie body) as [status ->]. cbn [hello_read].
      by rewrite andb_false_r.
    + intros id2. pose proof (si_conn w Hi id c Hid) as Hok. unfold phase_ok in Hok. rewrite Hph in Hok.
      cbn [fsm_step]. destruct (fsms w !! id2) as [c2|]; [|done]. cbn [mbind option_bind].
      destruct Hok as (_ & _ & ->). by destruct (fsm_phase c2).
Qed.
End finishing.

(** ** Witnesses *)

(** The toy server's answer to a handshake, and a refusal. *)
Definition toy_hello_server (cookie body : bytes) : Answer :=
  match handle_fresh_handshake (P := toy_aead) (K := toy_cache) toy_server toy_key ((str "Cookie", cookie) :: toy_auth)
          (BodyBytes body) 1900 10 toy_server_draws toy_state toy_empty with
  | (Ok resp, _, _) => Answered 200 [resp_body resp]
  | _ => NoAnswer "refused"
  end.

Definition toy_connect_draws : ConnectDraws :=
  mkConnectDraws (zrep 16 Byte.x55) toy_nonce toy_nonce (fun _ => toy_nonce) (fun lo _ => lo).

(** Two connections want a handshake: the first makes it, the second finds the
    key. A third resumes, is told to shake hands again, and falls back. *)
Definition toy_session_events : list FsmEvent :=
  [FsmOpen 0 (str "a:1") (str "x") 1000; FsmOpen 1 (str "b:2") [] 1000; FsmAcquire 0; FsmCheck 0 1000;
   FsmHello 0 toy_client_draws toy_hello_server 1001; FsmAcquire 1; FsmCheck 1 1002;
   FsmAnswer 1 toy_connect_draws (fun _ _ => Answered 200 []); FsmOpen 2 (str "c:3") (str "y") 1003;
   FsmAnswer 2 toy_connect_draws (fun _ _ => Answered 428 []); FsmInvalidate 2].

Definition toy_server_pk : bytes := x25519_public (srv_private_key toy_server).

Definition toy_sessions : SessionWorld :=
  default sessions_start (fsm_run (P := toy_aead) toy_config toy_server_pk toy_session_events sessions_start).

Example toy_sessions_reached :
  (fsm_phase <$> fsms toy_sessions !! 1%nat) = Some FsmRunning /\ (fsm_phase <$> fsms toy_sessions !! 2%nat) = Some FsmLocking /\
  hellos toy_sessions = [0%nat] /\ initial_master toy_sessions = None /\ length (issued toy_sessions) = 1%nat.
Proof. by vm_compute. Qed.

Lemma toy_sessions_steps : fsm_steps (P := toy_aead) toy_config toy_server_pk sessions_start toy_session_events toy_sessions.
Proof. apply fsm_run_steps. by vm_compute. Qed.

Example sessions_safe_witness :
  (forall e, initial_master toy_sessions = Some e -> e ∈ issued toy_sessions) /\
  (length (posts_of 2%nat toy_sessions) <= 2)%nat.
Proof.
  destruct (sessions_safe (P := toy_aead) toy_config toy_server_pk toy_session_events toy_sessions toy_sessions_steps) as (_ & Hm & Hc).
  split; [exact Hm|].
  apply (Hc 2%nat (mkFsm (str "c:3") (str "y") true FsmLocking)). by vm_compute.
Defined.

(** The world of the first four events: connection 0 has the lock, connection 1
    wants it, and the server's ServerHello does not come. *)
Definition toy_waiting : SessionWorld :=
  default sessions_start (fsm_run (P := toy_aead) toy_config toy_server_pk (take 4 toy_session_events) sessions_start).

Example sessions_finish_witness :
  (exists evs2 w2, fsm_steps (P := toy_aead) toy_config toy_server_pk toy_waiting evs2 w2 /\ Forall not_open evs2 /\
    map_Forall (fun _ c => is_done (fsm_phase c)) (fsms w2)) /\
  fsm_step (P := toy_aead) toy_config toy_server_pk (FsmHello 0 toy_client_draws (fun _ _ => Stalled 200 []) 1001) toy_waiting = None /\
  fsm_step (P := toy_aead) toy_config toy_server_pk (FsmAcquire 1) toy_waiting = None.
Proof.
  assert (Hs : fsm_steps (P := toy_aead) toy_config toy_server_pk sessions_start (take 4 toy_session_events) toy_waiting)
    by (apply fsm_run_steps; by vm_compute).
  destruct (sessions_finish (P := toy_aead) toy_config toy_server_pk _ toy_waiting Hs) as (_ & _ & Hf & Hw).
  split; [|].
  - by apply (Hf (mkAnswers toy_connect_draws (fun _ _ => NoAnswer "gone") toy_client_draws 1005 (Ok tt))).
  - destruct (Hw 0%nat (mkFsm (str "a:1") (str "x") true FsmHelloSent)) as [H1 H2]; [by vm_compute|done|].
    split; [|apply H2].
    destruct (make_client_hello (P := toy_aead) toy_config toy_server_pk toy_client_draws) as [[[cookie body] secrets]|e|] eqn:Hm;
      [|by vm_compute in Hm..].
    apply (H1 cookie body secrets); [exact Hm|]. intros ? ?. by exists 200.
Defined.
