(* ===== verification/Exchange.v ===== *)
(** * The client's requests at the server

    The four requests a client makes, with what it does with the answers
    ([perform_pq_handshake] and [try_pq_connect] of [src/client/handshake.rs],
    [send_upload_post] of [src/client/actor/upload_loop.rs],
    [send_continue_request] and [spawn_prefetch_continuation] of
    [src/client/actor/download_loop.rs]), carried to the server's one route. The
    HTTP connection between them is a parameter: it may add header fields,
    cut bodies into pieces, and fail. *)

From S2P Require Import Prelude Cipher Frame Shaper Decoder Text Cookie Errors Token Registry Crypto Upstream Upload Handlers Handshake Replay UploadLoop Download Session.

(** ** The requests *)

Record Post : Type := mkPost { post_headers : HeaderMap; post_body : bytes }.

Definition hello_post (auth_header handshake_cookie client_hello_frame : bytes) : Post :=
  mkPost [(str "Authorization", auth_header); (str "Cookie", handshake_cookie)] client_hello_frame.

Definition session_post (session_cookie early_data : bytes) : Post :=
  mkPost [(str "Cookie", session_cookie)] early_data.

Section posts.
Context `{U : UuidText}.

Definition upload_post (draw : Z -> Z -> Z) (stream_id body : bytes) : Post :=
  mkPost [(str "Accept-Encoding", str "identity"); (str "Cache-Control", str "no-store, no-transform");
          (str "Content-Type", str "application/octet-stream");
          (str "Cookie", build_stream_cookie draw [] (uuid_hyphenated stream_id))] body.

Definition continue_post (draw : Z -> Z -> Z) (stream_id : bytes) : Post :=
  mkPost [(str "Cookie", build_stream_cookie draw [] (uuid_hyphenated stream_id))] [].

(** ** What the client does with the answers *)

(** What [send] gives under its timeout: a response has a status and a body,
    which may still fail. *)
Inductive SendOutcome (A : Type) : Type := SendTimedOut | SendFailed (e : string) | Responded (status : Z) (body : A).
Arguments SendTimedOut {A}.
Arguments SendFailed {A} _.
Arguments Responded {A} _ _.

Definition send_upload_post (send : Post -> SendOutcome (Res string bytes)) (draw : Z -> Z -> Z) (stream_id body : bytes)
    : Res string unit :=
  match send (upload_post draw stream_id body) with
  | SendTimedOut => Err "upload POST timed out"%string
  | SendFailed _ => Err "http post failed"%string
  | Responded status response =>
      let? _ := check_response_status status "upstream rejected upload" in
      let? _ := map_err (fun _ => "drain upload response"%string) response in
      Ok tt
  end.

Definition continue_result (r : SendOutcome (list DlEvent)) : Res string (list DlEvent) :=
  match r with
  | SendTimedOut => Err "continuation timed out"%string
  | SendFailed _ => Err "continuation failed"%string
  | Responded status response =>
      let? _ := check_response_status status "continuation rejected" in
      Ok response
  end.

Definition send_continue_request (send : Post -> SendOutcome (list DlEvent)) (draw : Z -> Z -> Z) (stream_id : bytes)
    : Res string (list DlEvent) :=
  continue_result (send (continue_post draw stream_id)).
End posts.

Arguments SendTimedOut {A}.
Arguments SendFailed {A} _.
Arguments Responded {A} _ _.

(** The prefetch task: it waits for its trigger, then for the response, whose
    result it leaves in the channel; without a trigger it leaves nothing. *)
Inductive PrefetchTask : Type :=
| PtWaiting
| PtSending
| PtGone
| PtSent (r : Res string (list DlEvent)).

Inductive PrefetchEvent : Type := PtTrigger | PtTriggerDropped | PtAnswer (r : SendOutcome (list DlEvent)).

Definition spawn_prefetch_continuation : PrefetchTask := PtWaiting.

Definition prefetch_step (ev : PrefetchEvent) (t : PrefetchTask) : PrefetchTask :=
  match t, ev with
  | PtWaiting, PtTrigger => PtSending
  | PtWaiting, PtTriggerDropped => PtGone
  | PtSending, PtAnswer r => PtSent (continue_result r)
  | t, _ => t
  end.

(** What a window of waiting on the channel finds. *)
Definition prefetch_received (t : PrefetchTask) : Prefetch :=
  match t with
  | PtSent (Ok response) => PfResponse response
  | PtSent _ | PtGone => PfFailed
  | PtWaiting | PtSending => PfSlow
  end.

(** ** The connection to the server *)

(** One request on its way: the fields that are added behind the client's, how the
    bodies are cut, what the server meets while it serves it, and its clocks
    and draws. *)
Record Wire : Type := mkWire {
  w_extra : HeaderMap;
  w_body : bytes -> list BodyEvent;
  w_cut : bytes -> list bytes;
  w_polls : bytes -> nat;
  w_connect : bytes -> Z -> ConnectOutcome;
  w_upload_open : nat -> bool;
  w_continue : ContinueReply;
  w_eos : EosReply;
  w_ack : Z;
  w_unix : Z;
  w_now : Z;
  w_draws : ServerDraws
}.

Section server.
Context `{P : Aead} `{B64 : Base64} `{U : UuidText} `{X : PqCrypto} `{B122 : Base122} `{K : TtlCache}.
Context (cfg : ServerConfig) (token_key : LessSafeKey).

Definition wire_setup (w : Wire) (body : bytes) : SetupEnv :=
  mkSetupEnv (w_connect w) (w_body w body) (w_polls w body) (w_upload_open w) (sd_draw (w_draws w)).
Definition wire_upload (w : Wire) (body : bytes) : UploadEnv :=
  mkUploadEnv (w_body w body) (w_polls w body) (w_upload_open w) (w_continue w) (w_eos w) (w_ack w) (sd_draw (w_draws w)).

(** A handler's answer as the client receives it; [IntoResponse] of an error
    is its status and its text, a panic closes the connection. *)
Definition answer_of (cut : bytes -> list bytes) (r : Res ServerError Response) : Answer :=
  match r with
  | Ok resp => Answered (resp_status resp) (cut (resp_body resp))
  | Err e => Answered (status e) (cut (str (message e)))
  | Panic => NoAnswer "connection closed"
  end.

Definition deliver (w : Wire) (p : Post) (st : AppState) (c : cache) : Answer * list UploadCmd * AppState * cache :=
  let '(r, sent, st, c) :=
    dispatch_request cfg token_key (post_headers p ++ w_extra w) (BodyBytes (post_body p)) (wire_setup w (post_body p))
      (wire_upload w (post_body p)) (w_unix w) (w_now w) (w_now w) (w_draws w) st c in
  (answer_of (w_cut w) r, sent, st, c).

(** The connection loses nothing, and bodies arrive in time. *)
Definition wire_ok (w : Wire) : Prop :=
  (forall b, no_body_error (w_body w b) /\ body_bytes (w_body w b) = b /\ (length (w_body w b) + length b < w_polls w b)%nat) /\
  (forall b, concat (w_cut w b) = b).

(** The server side of an exchange as [perform_pq_handshake] and
    [try_pq_connect] see it. *)
Definition hello_server (w : Wire) (auth_header : bytes) (st : AppState) (c : cache) (cookie body : bytes) : Answer :=
  fst (fst (fst (deliver w (hello_post auth_header cookie body) st c))).
Definition session_server (w : Wire) (st : AppState) (c : cache) (cookie body : bytes) : Answer :=
  fst (fst (fst (deliver w (session_post cookie body) st c))).

(** What the server is left with after the request a client makes for a new
    session, and after its request for a tunnel. *)
Definition hello_state (w : Wire) (traffic : TrafficConfig) (auth_header : bytes) (cd : ClientDraws) (st : AppState) (c : cache)
    : AppState * cache :=
  match make_client_hello traffic (x25519_public (srv_private_key cfg)) cd with
  | Ok (cookie, hello, _) => let '(_, _, st, c) := deliver w (hello_post auth_header cookie hello) st c in (st, c)
  | _ => (st, c)
  end.

Definition session_state (w : Wire) (traffic : TrafficConfig) (ticket : PqSessionTicket) (target payload : bytes)
    (draws : ConnectDraws) (st : AppState) (c : cache) : AppState * cache :=
  match connect_request traffic ticket target payload draws with
  | Ok (cookie, early, _, _) => let '(_, _, st, c) := deliver w (session_post cookie early) st c in (st, c)
  | _ => (st, c)
  end.
End server.

(** ** Lemmas *)

Section routing.
Context `{P : Aead} `{B64 : Base64} `{U : UuidText} {UL : UuidLaws U} `{X : PqCrypto} `{B122 : Base122} `{K : TtlCache}.
Context (cfg : ServerConfig) (token_key : LessSafeKey).

Lemma uuid_cookie_text u : cookie_text (uuid_hyphenated u).
Proof.
  apply Forall_forall. intros b Hb. apply uuid_chars in Hb. destruct b; vm_compute in Hb |- *; intuition congruence.
Qed.

Lemma cookie_lookups draw name value other headers :
  name ∈ [str "session"; str "stream"; str "eph_pk_a"] -> other ∈ [str "session"; str "stream"; str "eph_pk_a"] ->
  cookie_text value -> header_get (str "Cookie") headers = Some (build_cookie_into draw [] name value) ->
  extract_cookie_value headers other = if decide (other = name) then Some value else None.
Proof.
  intros Hn Ho Hv Hh.
  assert (Hlook : forall o, o ∈ [str "session"; str "stream"; str "eph_pk_a"] -> o <> name ->
    extract_cookie_value headers name = Some value /\ extract_cookie_value headers o = None).
  { intros o Hin Hne. repeat (apply elem_of_cons in Hn as [->|Hn]); [..|by apply elem_of_nil in Hn];
      (eapply (cookie_lookup draw [] _ value o headers); try exact Hh; try done;
       try (apply (bool_decide_eq_true_1 _); reflexivity);
       repeat (apply elem_of_cons in Hin as [->|Hin]); try (by apply elem_of_nil in Hin); (done || apply (bool_decide_eq_true_1 _); reflexivity)). }
  destruct (decide (other = name)) as [->|Hne]; [|by apply Hlook].
  destruct (decide (name = str "session")) as [->|Hns];
    [by apply (Hlook (str "stream")); [right; left|]|by apply (Hlook (str "session")); [left|]].
Qed.

Section dispatch.
Variables (headers : HeaderMap) (draw : Z -> Z -> Z) (body : BodyRead) (setup : SetupEnv) (upload : UploadEnv).
Variables (unix_now now1 now2 : Z) (draws : ServerDraws) (st : AppState) (c : cache).

Lemma dispatch_stream stream_id :
  zlen stream_id = 16 -> header_get (str "Cookie") headers = Some (build_stream_cookie draw [] (uuid_hyphenated stream_id)) ->
  dispatch_request cfg token_key headers body setup upload unix_now now1 now2 draws st c =
    match actors st !! stream_id with
    | Some handle => let '(r, sent) := dispatch_to_actor handle upload in (r, sent, st, c)
    | None => (handle_stream_not_found stream_id st, [], st, c)
    end.
Proof.
  intros Hs Hh. unfold dispatch_request.
  rewrite (cookie_lookups draw (str "stream") (uuid_hyphenated stream_id) (str "stream") headers); try done;
    [|by set_solver|by set_solver|apply uuid_cookie_text].
  rewrite decide_True by done. by rewrite uuid_round.
Qed.

Lemma dispatch_session v :
  cookie_text v -> Byte.x3a ∈ v -> header_get (str "Cookie") headers = Some (build_tunnel_cookie draw [] v) ->
  dispatch_request cfg token_key headers body setup upload unix_now now1 now2 draws st c =
    let '(r, sent, st) := spawn_encrypted_tunnel cfg setup now1 now2 v st in (r, sent, st, c).
Proof.
  intros Hv Hc Hh. unfold dispatch_request.
  assert (Hlook : forall o, o ∈ [str "session"; str "stream"; str "eph_pk_a"] ->
    extract_cookie_value headers o = if decide (o = str "session") then Some v else None).
  { intros o Ho. apply (cookie_lookups draw (str "session") v o headers); [by left|done..]. }
  rewrite !Hlook by set_solver. rewrite decide_False, decide_True by done. by rewrite bool_decide_true.
Qed.

Lemma dispatch_hello {BL : Base64Laws B64} pk :
  header_get (str "Cookie") headers = Some (build_cookie_into draw [] (str "eph_pk_a") (b64_encode pk)) ->
  dispatch_request cfg token_key headers body setup upload unix_now now1 now2 draws st c =
    let '(r, st, c) := handle_fresh_handshake cfg token_key headers body unix_now now1 draws st c in (r, [], st, c).
Proof.
  intros Hh. unfold dispatch_request.
  assert (Hlook : forall o, o ∈ [str "session"; str "stream"; str "eph_pk_a"] ->
    extract_cookie_value headers o = if decide (o = str "eph_pk_a") then Some (b64_encode pk) else None).
  { intros o Ho. apply (cookie_lookups draw (str "eph_pk_a") (b64_encode pk) o headers); [by do 2 right; left|done|apply b64_cookie_text|done]. }
  rewrite !Hlook by set_solver. by rewrite !decide_False, decide_True by done.
Qed.
End dispatch.
End routing.

Section exchange.
Context `{P : Aead} {L : AeadLaws P} `{B64 : Base64} {BL : Base64Laws B64} `{U : UuidText} {UL : UuidLaws U}.
Context `{X : PqCrypto} {XL : PqCryptoLaws X} `{B122 : Base122} {B122L : Base122Laws B122} `{K : TtlCache}.
Context (cfg : ServerConfig) (token_key : LessSafeKey).

(** A valid token in the client's Authorization header is accepted. *)
Lemma token_accepted {KL : TtlCacheLaws K TOKEN_CACHE_TTL} headers token claims now c :
  cache_ok token_key c -> open token_key now token = Ok claims -> to_str (str "Bearer " ++ token) = Some (str "Bearer " ++ token) ->
  header_get (str "Authorization") headers = Some (str "Bearer " ++ token) ->
  exists c', validate_token_if_needed headers token_key now c = (Ok (sub claims), c') /\ cache_ok token_key c'.
Proof.
  intros Hc Ho Ht Hh. pose proof (validate_step headers token_key now c Hc) as Hv.
  destruct (validate_token_if_needed headers token_key now c) as [r c']. destruct Hv as [-> Hc']. exists c'. split; [|done].
  unfold validate_uncached. rewrite Hh. cbn [mbind option_bind]. rewrite Ht, strip_prefix_app, Ho. done.
Qed.

Lemma forward_all ce de is_open items :
  (forall n, is_open n = true) ->
  forward_frames ce de is_open (items, Finished) =
    (Ok (map (fun it => CmdFrame (fst it) (snd it)) items), map (fun it => CmdFrame (fst it) (snd it)) items).
Proof.
  intros Ho. unfold forward_frames. cbn [fst snd].
  destruct (list_find _ _) as [[i n]|] eqn:Hf; [|done].
  apply list_find_Some in Hf as (_ & Hn & _). by rewrite Ho in Hn.
Qed.

Lemma frames_length `{C : FrameCipher} {CL : FrameCipherLaws C} enc sq datas b :
  frames_from enc sq datas b -> (length datas <= length b)%nat.
Proof.
  revert sq b. induction datas as [|d datas IH]; intros sq b; cbn; [lia|]. intros (w & out & -> & Hw & Hf).
  apply IH in Hf. apply is_frame_len in Hw. rewrite length_app. unfold zlen in Hw. lia.
Qed.

(** The set-up of a tunnel whose early data arrives whole. *)
Lemma setup_ok w sid ukey dkey host port ac early datas st :
  wire_ok w -> zlen ukey = 32 -> AesFrameCipher_new ukey = Ok ac -> 0 < tunnel_permits st ->
  w_connect w host port = Connected -> (forall n, w_upload_open w n = true) ->
  frames_from (C := aes_frame_cipher ac) (encoding_type (srv_traffic cfg)) 0 datas early ->
  setup_tunnel_response cfg (wire_setup w early) (mkTunnelRequest sid ukey dkey host port) st =
    (Ok (respond (sd_draw (w_draws w)) 200 []), map (fun it => CmdFrame (fst it) (snd it)) (zip (seqZ 0 (zlen datas)) datas),
     mkState (master_store st) (stream_registry st) (<[sid := mkHandle ukey (encoding_type (srv_traffic cfg))]> (actors st))
       (tunnel_permits st - 1)).
Proof.
  intros [Hb _] Hk Hc Hp Hcon Hopen Hf. unfold setup_tunnel_response, take_permit, connect_tunnel, forward_early.
  destruct (Z.leb_spec (tunnel_permits st) 0); [lia|]. cbn [se_connect wire_setup tr_host tr_port tr_upload_key]. rewrite Hcon, Hc.
  rewrite (collect_owed (C := aes_frame_cipher ac) _ _ 0 datas []); [|split_and!|].
  - rewrite decide_True by done. cbn [se_upload_open]. by rewrite forward_all.
  - destruct (encoding_type (srv_traffic cfg)); vm_compute; congruence.
  - apply Hb.
  - done.
  - exists early. cbn. split; [done|]. split; [by left|]. rewrite app_nil_r. by apply Hb.
  - pose proof (frames_length (C := aes_frame_cipher ac) _ _ _ _ Hf). destruct (Hb early) as (_ & _ & Hp'). cbn. lia.
Qed.

(** The handshake over a connection that loses nothing. *)
Definition hello_draws_ok (cd : ClientDraws) : Prop := zlen (cd_nonce cd) = NONCE_LEN /\ draw_ok (cd_draw cd).
Definition server_draws_ok (sd : ServerDraws) : Prop :=
  zlen (sd_nonce sd) = NONCE_LEN /\ draw_ok (sd_draw sd) /\ zlen (sd_session sd) = 16.

(** The token opens and can be sent in a header field. *)
Definition token_ok (now : Z) (token : bytes) (claims : Claims) : Prop :=
  open token_key now token = Ok claims /\ to_str (str "Bearer " ++ token) = Some (str "Bearer " ++ token).

Lemma hello_exchange {KL : TtlCacheLaws K TOKEN_CACHE_TTL} traffic cd w token claims st c :
  encoding_type traffic = encoding_type (srv_traffic cfg) -> wire_ok w ->
  hello_draws_ok cd -> range_ok (padding_range (global traffic)) -> server_draws_ok (w_draws w) ->
  range_ok (padding_range (global (srv_traffic cfg))) -> cache_ok token_key c -> token_ok (w_unix w) token claims ->
  exists cookie hello secrets ticket c1,
    make_client_hello traffic (x25519_public (srv_private_key cfg)) cd = Ok (cookie, hello, secrets) /\
    perform_pq_handshake traffic (x25519_public (srv_private_key cfg)) cd (hello_server cfg token_key w (str "Bearer " ++ token) st c)
      = Some (Ok ticket) /\
    ticket_session ticket = uuid_hyphenated (sd_session (w_draws w)) /\ cache_ok token_key c1 /\
    snd (fst (deliver cfg token_key w (hello_post (str "Bearer " ++ token) cookie hello) st c)) =
      mkState (<[ticket_session ticket := (sub claims, ticket_master ticket, w_now w)]> (master_store st))
        (stream_registry st) (actors st) (tunnel_permits st) /\
    snd (deliver cfg token_key w (hello_post (str "Bearer " ++ token) cookie hello) st c) = c1.
Proof.
  intros Henc [_ Hcut] [Hcn Hcd] Hcr (Hsn & Hsd & Hsid) Hsr Hcache [Htok Htext].
  destruct (make_client_hello_ok traffic (x25519_public (srv_private_key cfg)) cd Hcn Hcd Hcr)
    as (ac & sk & pk & hello & Hc & Hkem & Hmake & Hf).
  rewrite Henc in Hf. unfold perform_pq_handshake. rewrite Hmake. cbn [res_bind].
  set (cookie := build_cookie_into _ _ _ _) in *.
  set (headers := post_headers (hello_post (str "Bearer " ++ token) cookie hello) ++ w_extra w).
  assert (Hcookie : header_get (str "Cookie") headers = Some cookie) by reflexivity.
  assert (Hauth : header_get (str "Authorization") headers = Some (str "Bearer " ++ token)) by reflexivity.
  destruct (token_accepted headers token claims (w_unix w) c Hcache Htok Htext Hauth) as (c1 & Hv & Hc1).
  destruct (handle_fresh_handshake_ok cfg token_key headers (sub claims) (w_unix w) (w_now w) (w_draws w) st c c1 (cd_draw cd)
    (cd_eph_a cd) ac sk pk (cd_kem cd) (cd_eph_b cd) hello) as (ct & ss & resp & Henc' & Hct & Hdec & Hw & Hs); try done.
  assert (Hdel : deliver cfg token_key w (hello_post (str "Bearer " ++ token) cookie hello) st c =
    (answer_of (w_cut w) (Ok (respond (sd_draw (w_draws w)) 200 resp)), [],
     mkState (<[uuid_hyphenated (sd_session (w_draws w)) := (sub claims, derive_initial_master ss
        (x25519 (sd_x25519 (w_draws w)) (x25519_public (cd_eph_b cd))), w_now w)]> (master_store st))
       (stream_registry st) (actors st) (tunnel_permits st), c1)).
  { unfold deliver. change (post_headers _ ++ w_extra w) with headers.
    rewrite (dispatch_hello cfg token_key headers (cd_draw cd) _ _ _ _ _ _ _ _ _ _ Hcookie). cbn [post_body hello_post]. by rewrite Hs. }
  exists cookie, hello, (mkSecrets ac sk (cd_eph_b cd)),
    (mkTicket (derive_initial_master ss (x25519 (sd_x25519 (w_draws w)) (x25519_public (cd_eph_b cd))))
       (uuid_hyphenated (sd_session (w_draws w)))), c1.
  split; [done|]. unfold hello_server. rewrite Hdel. split; [|done]. cbn [answer_of fst respond resp_status resp_body].
  change (check_response_status 200 _) with (@Ok string unit tt). cbn [res_bind].
  rewrite <- Henc in Hw. f_equal. by apply (finish_handshake_ok traffic ac sk ct ss _ (sd_x25519 (w_draws w)) (sd_session (w_draws w)) resp).
Qed.

Definition upload_key_of (ticket : PqSessionTicket) (stream_id : bytes) : bytes :=
  fst (fst (derive_connection_keys (ticket_master ticket) stream_id)).

(** The state of the server once the tunnel runs. *)
Definition opened_state (ticket : PqSessionTicket) (stream_id : bytes) (now : Z) (st : AppState) : AppState :=
  mkState (master_store st) (<[stream_id := (SActive, now)]> (stream_registry st))
    (<[stream_id := mkHandle (upload_key_of ticket stream_id) (encoding_type (srv_traffic cfg))]> (actors st))
    (tunnel_permits st - 1).

(** The request that opens a tunnel: its cookie and its early data. *)
Definition cookie_value (ticket : PqSessionTicket) (et es : bytes) : bytes :=
  ticket_session ticket ++ [Byte.x3a] ++ b64_encode et ++ [Byte.x3a] ++ b64_encode es.

Definition connect_draws_ok (draws : ConnectDraws) : Prop :=
  zlen (cn_stream_id draws) = 16 /\ zlen (cn_nonce1 draws) = NONCE_LEN /\ zlen (cn_nonce2 draws) = NONCE_LEN /\
  (forall q, zlen (cn_nonces draws q) = NONCE_LEN) /\ draw_ok (cn_draw draws).

Lemma connect_request_ok traffic ticket u target payload draws :
  ticket_session ticket = uuid_hyphenated u -> connect_draws_ok draws -> range_ok (padding_range (global traffic)) ->
  zlen target <= seal_limit -> zlen payload < u64_max ->
  exists ac datas early remaining et es,
    AesFrameCipher_new (upload_key_of ticket (cn_stream_id draws)) = Ok ac /\
    connect_request traffic ticket target payload draws =
      Ok (build_tunnel_cookie (cn_draw draws) [] (cookie_value ticket et es), early, remaining, zlen datas) /\
    frames_from (C := aes_frame_cipher ac) (encoding_type traffic) 0 datas early /\ payload = concat datas ++ remaining /\
    cookie_text (cookie_value ticket et es) /\ Byte.x3a ∈ cookie_value ticket et es /\
    decrypt_bytes (snd (derive_connection_keys (ticket_master ticket) (cn_stream_id draws))) et = Ok target /\
    decrypt_bytes (derive_cookie_stream_key (ticket_master ticket)) es = Ok (cn_stream_id draws).
Proof.
  intros Hsid (Hlen & Hn1 & Hn2 & Hns & Hd) Hr Hsize Hpay. set (sid := cn_stream_id draws) in *.
  destruct (session_cookie_ok ticket target sid (cn_nonce1 draws) (cn_nonce2 draws) Hn1 Hn2 Hsize Hlen) as (et & es & Hv & Het & Hes).
  unfold upload_key_of, connect_request. fold sid.
  pose proof (derive_connection_keys_len (ticket_master ticket) sid) as Hk.
  destruct (derive_connection_keys (ticket_master ticket) sid) as [[uk dk] tk] eqn:Hkeys. destruct Hk as (Huk & _ & _).
  destruct (AesFrameCipher_new_ok uk Huk) as [ac Hac].
  destruct (encode_initial_payload_ok (C := aes_frame_cipher ac) (cn_nonces draws) (cn_draw draws) payload MAX_RAW_PAYLOAD traffic Hns Hd Hr)
    as (datas & early & Hpl & Hf & Hcat & _); [vm_compute; congruence|done|].
  exists ac, datas, early. eexists _, et, es. cbn [fst snd]. split; [done|].
  unfold cipher_of. rewrite Hac. cbn [res_bind]. rewrite Hv. cbn [res_bind]. rewrite Hpl. split; [reflexivity|].
  split; [done|]. split; [by rewrite Hcat, ztake_zdrop|]. split; [|split; [unfold cookie_value; set_solver|done]].
  unfold cookie_value, cookie_text. rewrite !Forall_app, Hsid.
  split_and!; try (by apply uuid_cookie_text || by apply b64_cookie_text); by repeat constructor.
Qed.

(** The opening of a tunnel over a connection that loses nothing. *)
Definition target_of (host : bytes) (port : Z) : bytes := host ++ [Byte.x3a] ++ dec_text port.
Definition target_ok (host : bytes) (port : Z) : Prop :=
  0 <= port < u16_max /\ utf8_valid (target_of host port) = true /\ zlen (target_of host port) <= seal_limit.

(** The target accepts, and the new upload actor takes what it is sent. *)
Definition wire_opens (w : Wire) (host : bytes) (port : Z) : Prop :=
  w_connect w host port = Connected /\ forall n, w_upload_open w n = true.

Lemma session_exchange traffic w ticket u user created host port payload draws st c :
  encoding_type traffic = encoding_type (srv_traffic cfg) -> range_ok (padding_range (global traffic)) -> wire_ok w ->
  ticket_session ticket = uuid_hyphenated u -> zlen u = 16 ->
  master_store st !! ticket_session ticket = Some (user, ticket_master ticket, created) ->
  master_expired (w_now w) created = false ->
  stream_registry st !! cn_stream_id draws = None -> 0 < tunnel_permits st ->
  connect_draws_ok draws -> target_ok host port -> zlen payload < u64_max -> wire_opens w host port ->
  exists cookie early remaining datas,
    connect_request traffic ticket (target_of host port) payload draws = Ok (cookie, early, remaining, zlen datas) /\
    payload = concat datas ++ remaining /\
    deliver cfg token_key w (session_post cookie early) st c =
      (Answered 200 (w_cut w []), map (fun it => CmdFrame (fst it) (snd it)) (zip (seqZ 0 (zlen datas)) datas),
       opened_state ticket (cn_stream_id draws) (w_now w) st, c) /\
    try_pq_connect traffic ticket (target_of host port) payload draws (session_server cfg token_key w st c) true =
      Some (Running remaining (zlen datas), false).
Proof.
  intros Henc Hr Hwire Hsid Hu Hst Hexp Hfresh Hperm Hdraws (Hport & Hutf & Hsize) Hpay (Hcon & Hopen).
  destruct (connect_request_ok traffic ticket u (target_of host port) payload draws Hsid Hdraws Hr Hsize Hpay)
    as (ac & datas & early & remaining & et & es & Hac & Hreq & Hf & Hsplit & Htext & Hcolon & Het & Hes).
  destruct Hdraws as (Hlen & _). set (sid := cn_stream_id draws) in *.
  eexists _, early, _, datas. split; [exact Hreq|]. split; [exact Hsplit|].
  assert (Hdel : deliver cfg token_key w (session_post (build_tunnel_cookie (cn_draw draws) [] (cookie_value ticket et es)) early) st c =
       (Answered 200 (w_cut w []), map (fun it => CmdFrame (fst it) (snd it)) (zip (seqZ 0 (zlen datas)) datas),
        opened_state ticket sid (w_now w) st, c)).
  { unfold deliver. cbn [post_body session_post].
    rewrite (dispatch_session cfg token_key _ (cn_draw draws) _ _ _ _ _ _ _ _ _ _ Htext Hcolon) by reflexivity.
    unfold spawn_encrypted_tunnel, cookie_value. rewrite Hsid in *.
    rewrite (admit_cookie (w_now w) (w_now w) st (uuid_hyphenated u) user (ticket_master ticket) created u sid et es); try done;
      [|apply uuid_no_colon|by apply uuid_round].
    unfold open_stream, upload_key_of in *. pose proof (derive_connection_keys_len (ticket_master ticket) sid) as Hk.
    destruct (derive_connection_keys (ticket_master ticket) sid) as [[uk dk] tk] eqn:Hkeys. destruct Hk as (Huk & _ & _).
    cbn [fst snd] in *. rewrite (decrypt_target_of tk et host port Het Hutf Hport).
    rewrite (setup_ok w sid uk dk host port ac early datas); try done; [|by rewrite <- Henc].
    cbn [answer_of respond resp_status resp_body]. unfold opened_state, upload_key_of. by rewrite Hkeys. }
  split; [exact Hdel|]. unfold try_pq_connect. rewrite Hreq. unfold session_server. rewrite Hdel. cbn [fst].
  by change (check_response_status 200 _) with (@Ok string unit tt).
Qed.

(** A request under a session the server does not know, or no longer takes:
    the client is told to do the handshake again and keeps its socket. *)
Definition session_gone (now : Z) (session : bytes) (st : AppState) : Prop :=
  match master_store st !! session with
  | Some (_, _, created) => master_expired now created = true
  | None => True
  end.

Definition forget_session (session : bytes) (st : AppState) : AppState :=
  mkState (delete session (master_store st)) (stream_registry st) (actors st) (tunnel_permits st).

Lemma reject_exchange traffic w ticket u target payload draws st c :
  ticket_session ticket = uuid_hyphenated u -> zlen u = 16 -> session_gone (w_now w) (ticket_session ticket) st ->
  connect_draws_ok draws -> range_ok (padding_range (global traffic)) -> zlen target <= seal_limit -> zlen payload < u64_max ->
  exists cookie early remaining frames a,
    connect_request traffic ticket target payload draws = Ok (cookie, early, remaining, frames) /\
    deliver cfg token_key w (session_post cookie early) st c = (a, [], forget_session (ticket_session ticket) st, c) /\
    try_pq_connect traffic ticket target payload draws (session_server cfg token_key w st c) true = Some (RehandshakeRequired, true).
Proof.
  intros Hsid Hu Hst Hdraws Hr Hsize Hpay.
  destruct (connect_request_ok traffic ticket u target payload draws Hsid Hdraws Hr Hsize Hpay)
    as (ac & datas & early & remaining & et & es & _ & Hreq & _ & _ & Htext & Hcolon & _ & _).
  assert (Hdel : exists m, deliver cfg token_key w
      (session_post (build_tunnel_cookie (cn_draw draws) [] (cookie_value ticket et es)) early) st c =
    (Answered 428 (w_cut w m), [], forget_session (ticket_session ticket) st, c)).
  { unfold deliver. cbn [post_body session_post].
    rewrite (dispatch_session cfg token_key _ (cn_draw draws) _ _ _ _ _ _ _ _ _ _ Htext Hcolon) by reflexivity.
    unfold spawn_encrypted_tunnel, admit_stream, cookie_value, forget_session, session_gone in *. rewrite Hsid in *.
    rewrite split_session_cookie_of, uuid_round by (done || apply uuid_no_colon). unfold lookup_master.
    destruct (master_store st !! uuid_hyphenated u) as [[[user m] created]|] eqn:Hm.
    - rewrite Hst. cbn. by eexists.
    - rewrite delete_id by done. destruct st. cbn. by eexists. }
  destruct Hdel as [m Hdel]. eexists _, early, _, _, _. split; [exact Hreq|]. split; [exact Hdel|].
  unfold try_pq_connect. rewrite Hreq. unfold session_server. by rewrite Hdel.
Qed.
End exchange.

(** A continuation that answers is the response the client goes on with, whether
    the prefetch had it, lost it, or was never triggered. *)
Lemma continue_rotation `{U : UuidText} send draw stream_id status response t again :
  send (continue_post draw stream_id) = Responded status response -> 200 <= status <= 299 ->
  t = prefetch_step (PtAnswer (send (continue_post draw stream_id))) (prefetch_step PtTrigger spawn_prefetch_continuation) \/
  t = prefetch_step PtTriggerDropped spawn_prefetch_continuation ->
  rotation_gives (mkRotateEnv (prefetch_received t) again (send_continue_request send draw stream_id)) response.
Proof.
  intros Hsend Hs Ht.
  assert (Hok : check_response_status status "continuation rejected" = Ok tt).
  { unfold check_response_status, is_success. destruct (Z.leb_spec 200 status), (Z.leb_spec status 299); try lia. done. }
  assert (Hc : send_continue_request send draw stream_id = Ok response).
  { unfold send_continue_request. rewrite Hsend. cbn [continue_result]. by rewrite Hok. }
  intros [[]|]; cbn; [|done..].
  destruct Ht as [-> | ->]; cbn; [|done]. rewrite Hsend. cbn [continue_result]. by rewrite Hok.
Qed.

(** ** Properties *)

(** The server takes each request of a client for what it is. An upload or
    a request to continue reaches the tunnel of its stream, with the body as
    the client sent it, if the server runs that tunnel, and is otherwise refused
    with the state unchanged; neither can be taken for the other's stream, for
    a handshake or for a new tunnel. *)
Theorem requests_reach_tunnel `{P : Aead} `{B64 : Base64} `{U : UuidText} (UL : UuidLaws U) `{X : PqCrypto}
    `{B122 : Base122} `{K : TtlCache} cfg token_key w draw stream_id body p st c :
  zlen stream_id = 16 -> p = upload_post draw stream_id body \/ p = continue_post draw stream_id ->
  deliver cfg token_key w p st c =
    match actors st !! stream_id with
    | Some handle =>
        let '(r, sent) := dispatch_to_actor handle (wire_upload w (post_body p)) in (answer_of (w_cut w) r, sent, st, c)
    | None => (answer_of (w_cut w) (handle_stream_not_found stream_id st), [], st, c)
    end.
Proof.
  intros Hs Hp. unfold deliver.
  rewrite (dispatch_stream cfg token_key _ draw) with (stream_id := stream_id);
    [|done|by destruct Hp as [-> | ->]; reflexivity].
  destruct (actors st !! stream_id); [|done]. by destruct (dispatch_to_actor _ _).
Qed.

(** C2: a client with a valid token gets its tunnel. Over a connection that
    loses nothing, whatever it adds to the requests and however it cuts the
    bodies, the handshake gives the client a session the server then knows;
    and at any time while that session lives, and whatever else the server did
    since, the client's request for an unused stream starts its tunnel there:
    under the client's own key, with the frames of the early data on their way to
    the target and exactly the rest of the payload left for the upload loop. *)
Theorem tunnel_established `{P : Aead} (L : AeadLaws P) `{B64 : Base64} (BL : Base64Laws B64)
    `{U : UuidText} (UL : UuidLaws U) `{X : PqCrypto} (XL : PqCryptoLaws X)
    `{B122 : Base122} (B122L : Base122Laws B122) `{K : TtlCache} (KL : TtlCacheLaws K TOKEN_CACHE_TTL)
    cfg token_key traffic cd w token claims st c :
  encoding_type traffic = encoding_type (srv_traffic cfg) -> wire_ok w ->
  hello_draws_ok cd -> range_ok (padding_range (global traffic)) -> server_draws_ok (w_draws w) ->
  range_ok (padding_range (global (srv_traffic cfg))) -> cache_ok token_key c -> token_ok token_key (w_unix w) token claims ->
  let auth_header := str "Bearer " ++ token in
  exists cookie hello secrets ticket,
    make_client_hello traffic (x25519_public (srv_private_key cfg)) cd = Ok (cookie, hello, secrets) /\
    perform_pq_handshake traffic (x25519_public (srv_private_key cfg)) cd (hello_server cfg token_key w auth_header st c) = Some (Ok ticket) /\
    let '(_, _, st1, c1) := deliver cfg token_key w (hello_post auth_header cookie hello) st c in
    cache_ok token_key c1 /\ master_store st1 !! ticket_session ticket = Some (sub claims, ticket_master ticket, w_now w) /\
    forall w2 host port payload draws st2 c2,
      wire_ok w2 -> w_now w2 <= w_now w + MASTER_EXPIRY ->
      master_store st2 !! ticket_session ticket = master_store st1 !! ticket_session ticket ->
      stream_registry st2 !! cn_stream_id draws = None -> 0 < tunnel_permits st2 ->
      connect_draws_ok draws -> target_ok host port -> zlen payload < u64_max -> wire_opens w2 host port ->
      exists cookie2 early remaining datas,
        connect_request traffic ticket (target_of host port) payload draws = Ok (cookie2, early, remaining, zlen datas) /\
        payload = concat datas ++ remaining /\
        try_pq_connect traffic ticket (target_of host port) payload draws (session_server cfg token_key w2 st2 c2) true =
          Some (Running remaining (zlen datas), false) /\
        let '(_, sent, st3, _) := deliver cfg token_key w2 (session_post cookie2 early) st2 c2 in
        st3 = opened_state cfg ticket (cn_stream_id draws) (w_now w2) st2 /\
        sent = map (fun it => CmdFrame (fst it) (snd it)) (zip (seqZ 0 (zlen datas)) datas).
Proof.
  intros Henc Hw Hcd Hr Hsd Hsr Hc Ht. cbv zeta.
  destruct (hello_exchange cfg token_key traffic cd w token claims st c Henc Hw Hcd Hr Hsd Hsr Hc Ht)
    as (cookie & hello & secrets & ticket & c1 & Hmake & Hperf & Hsid & Hc1 & Hst1 & Hc1').
  exists cookie, hello, secrets, ticket. split; [done|]. split; [done|].
  destruct (deliver _ _ _ _ _ _) as [[[a sent] st1] c1']. cbn [fst snd] in Hst1, Hc1'. subst st1 c1'. cbn [master_store].
  rewrite lookup_insert_eq. split; [done|]. split; [done|].
  intros w2 host port payload draws st2 c2 Hw2 Hexp Hm Hfresh Hperm Hdraws Htarget Hpay Hopen.
  destruct (session_exchange cfg token_key traffic w2 ticket (sd_session (w_draws w)) (sub claims) (w_now w) host port payload draws st2 c2)
    as (cookie2 & early & remaining & datas & Hreq & Hsplit & Hdel & Htry); try done.
  { by destruct Hsd as (_ & _ & ?). }
  { unfold master_expired, saturating_sub. destruct (Z.ltb_spec MASTER_EXPIRY (Z.max 0 (w_now w2 - w_now w))); [unfold MASTER_EXPIRY in *; lia|done]. }
  exists cookie2, early, remaining, datas. split; [done|]. split; [done|]. split; [done|]. by rewrite Hdel.
Qed.

(** What one step leaves to the steps after it: the connection, the lock and the
    shared master key. *)
Definition leaves (w : SessionWorld) (id : nat) (c : FsmConn) (lock : option nat) (m : option InitialMasterEntry) : Prop :=
  fsms w !! id = Some c /\ handshake_lock w = lock /\ initial_master w = m.

Section recovery.
Context `{P : Aead} `{B64 : Base64} `{X : PqCrypto} `{B122 : Base122}.
Variables (traffic : TrafficConfig) (pk : bytes) (id : nat) (c : FsmConn).
Hypothesis halves : fsm_halves c = true.
Notation step := (fsm_step traffic pk).
Notation at_phase p := (set_fsm c true p).

Lemma leaves_set w c' l m : handshake_lock w = l -> initial_master w = m -> leaves (set_conn w id c') id c' l m.
Proof. intros <- <-. split; [apply lookup_insert_eq|done]. Qed.

Lemma recover_answer w old draws server l m :
  leaves w id c l m -> fsm_phase c = FsmResuming old ->
  try_pq_connect traffic old (fsm_target c) (fsm_payload c) draws server true = Some (RehandshakeRequired, true) ->
  exists w', step (FsmAnswer id draws server) w = Some w' /\ leaves w' id (at_phase (FsmRejected old)) l m.
Proof.
  intros (Hc & <- & <-) Hp Ht. eexists. split; [|by apply (leaves_set (add_post w id c))].
  unfold fsm_step. rewrite Hc. cbn [mbind option_bind]. rewrite Hp, halves, Ht. reflexivity.
Qed.

Lemma recover_invalidate w old l m :
  leaves w id (at_phase (FsmRejected old)) l m -> invalidate_stale_master (ticket_session old) m = None ->
  exists w', step (FsmInvalidate id) w = Some w' /\ leaves w' id (at_phase FsmLocking) l None.
Proof.
  intros (Hc & <- & <-) Hm. eexists. split; [|by apply (leaves_set (set_master w None))].
  unfold fsm_step. rewrite Hc. cbn [mbind option_bind]. cbn [set_fsm fsm_phase fsm_halves]. rewrite Hm. reflexivity.
Qed.

Lemma recover_acquire w m :
  leaves w id (at_phase FsmLocking) None m ->
  exists w', step (FsmAcquire id) w = Some w' /\ leaves w' id (at_phase FsmLocked) (Some id) m.
Proof.
  intros (Hc & Hl & <-). eexists. split; [|by apply (leaves_set (set_lock w (Some id)))].
  unfold fsm_step. rewrite Hc. cbn [mbind option_bind]. cbn [set_fsm fsm_phase fsm_halves]. rewrite Hl. reflexivity.
Qed.

Lemma recover_check w now l :
  leaves w id (at_phase FsmLocked) l None ->
  exists w', step (FsmCheck id now) w = Some w' /\ leaves w' id (at_phase FsmHelloSent) l None.
Proof.
  intros (Hc & <- & Hm). eexists. split; [|by apply (leaves_set (add_hello (set_master w None) id))].
  unfold fsm_step. rewrite Hc. cbn [mbind option_bind]. cbn [set_fsm fsm_phase fsm_halves]. rewrite Hm. reflexivity.
Qed.

Lemma recover_hello w cd server now ticket l m :
  leaves w id (at_phase FsmHelloSent) l m -> perform_pq_handshake traffic pk cd server = Some (Ok ticket) ->
  exists w', step (FsmHello id cd server now) w = Some w' /\
    leaves w' id (at_phase (FsmConnecting ticket)) None (Some (ticket_session ticket, ticket_master ticket, now)).
Proof.
  intros (Hc & <- & <-) Ht. eexists. split; [|by apply (leaves_set (add_issued (set_lock w None) (ticket_session ticket, ticket_master ticket, now)))].
  unfold fsm_step. rewrite Hc. cbn [mbind option_bind]. cbn [set_fsm fsm_phase fsm_halves]. rewrite Ht. reflexivity.
Qed.

Lemma recover_connect w ticket draws server remaining n l m :
  leaves w id (at_phase (FsmConnecting ticket)) l m ->
  try_pq_connect traffic ticket (fsm_target c) (fsm_payload c) draws server true = Some (Running remaining n, false) ->
  exists w', step (FsmAnswer id draws server) w = Some w' /\ leaves w' id (set_fsm c false FsmRunning) l m.
Proof.
  intros (Hc & <- & <-) Ht. eexists. split; [|by apply (leaves_set (add_post w id (at_phase (FsmConnecting ticket))))].
  unfold fsm_step. rewrite Hc. cbn [mbind option_bind]. cbn [set_fsm fsm_phase fsm_halves fsm_target fsm_payload]. rewrite Ht. reflexivity.
Qed.

(** A connection whose session is rejected and whose new one is accepted. *)
Lemma fsm_recovers w old da s1 cd s2 ticket now dc s3 remaining n m :
  leaves w id c None m -> fsm_phase c = FsmResuming old -> invalidate_stale_master (ticket_session old) m = None ->
  try_pq_connect traffic old (fsm_target c) (fsm_payload c) da s1 true = Some (RehandshakeRequired, true) ->
  perform_pq_handshake traffic pk cd s2 = Some (Ok ticket) ->
  try_pq_connect traffic ticket (fsm_target c) (fsm_payload c) dc s3 true = Some (Running remaining n, false) ->
  exists w', fsm_steps traffic pk w
      [FsmAnswer id da s1; FsmInvalidate id; FsmAcquire id; FsmCheck id now; FsmHello id cd s2 now; FsmAnswer id dc s3] w' /\
    leaves w' id (set_fsm c false FsmRunning) None (Some (ticket_session ticket, ticket_master ticket, now)).
Proof.
  intros Hw Hp Hm H1 H2 H3.
  destruct (recover_answer w old da s1 None m Hw Hp H1) as (w1 & E1 & L1).
  destruct (recover_invalidate w1 old None m L1 Hm) as (w2 & E2 & L2).
  destruct (recover_acquire w2 None L2) as (w3 & E3 & L3).
  destruct (recover_check w3 now (Some id) L3) as (w4 & E4 & L4).
  destruct (recover_hello w4 cd s2 now ticket (Some id) None L4 H2) as (w5 & E5 & L5).
  destruct (recover_connect w5 ticket dc s3 remaining n None _ L5 H3) as (w6 & E6 & L6).
  exists w6. split; [|exact L6]. apply fsm_run_steps. cbn [fsm_run].
  rewrite E1. cbn [mbind option_bind]. rewrite E2. cbn [mbind option_bind]. rewrite E3. cbn [mbind option_bind].
  rewrite E4. cbn [mbind option_bind]. rewrite E5. cbn [mbind option_bind]. by rewrite E6.
Qed.
End recovery.

(** C17: a server that lost its sessions costs a client a rejected request and
    a new handshake, never the connection. When a connection tries to resume a session the server no
    longer knows or takes, six steps of its own, answered by the server, lead it
    through the rejection and a new handshake to a running tunnel, and leave the
    new session for the connections after it. *)
Theorem sessions_recover `{P : Aead} (L : AeadLaws P) `{B64 : Base64} (BL : Base64Laws B64)
    `{U : UuidText} (UL : UuidLaws U) `{X : PqCrypto} (XL : PqCryptoLaws X)
    `{B122 : Base122} (B122L : Base122Laws B122) `{K : TtlCache} (KL : TtlCacheLaws K TOKEN_CACHE_TTL)
    cfg token_key traffic old u wa wb wc da cd dc token claims now host port st c world id conn :
  encoding_type traffic = encoding_type (srv_traffic cfg) ->
  range_ok (padding_range (global traffic)) -> range_ok (padding_range (global (srv_traffic cfg))) ->
  fsms world !! id = Some conn -> fsm_phase conn = FsmResuming old -> fsm_halves conn = true ->
  fsm_target conn = target_of host port -> target_ok host port -> zlen (fsm_payload conn) < u64_max ->
  handshake_lock world = None -> invalidate_stale_master (ticket_session old) (initial_master world) = None ->
  ticket_session old = uuid_hyphenated u -> zlen u = 16 -> session_gone (w_now wa) (ticket_session old) st ->
  connect_draws_ok da -> hello_draws_ok cd -> connect_draws_ok dc -> server_draws_ok (w_draws wb) ->
  wire_ok wb -> wire_ok wc -> wire_opens wc host port -> w_now wc <= w_now wb + MASTER_EXPIRY ->
  cache_ok token_key c -> token_ok token_key (w_unix wb) token claims ->
  stream_registry st !! cn_stream_id dc = None -> 0 < tunnel_permits st ->
  let target := fsm_target conn in let payload := fsm_payload conn in let auth_header := str "Bearer " ++ token in
  let '(st1, c1) := session_state cfg token_key wa traffic old target payload da st c in
  let '(st2, c2) := hello_state cfg token_key wb traffic auth_header cd st1 c1 in
  exists ticket world',
    fsm_steps traffic (x25519_public (srv_private_key cfg)) world
      [FsmAnswer id da (session_server cfg token_key wa st c); FsmInvalidate id; FsmAcquire id; FsmCheck id now;
       FsmHello id cd (hello_server cfg token_key wb auth_header st1 c1) now;
       FsmAnswer id dc (session_server cfg token_key wc st2 c2)] world' /\
    fsms world' !! id = Some (mkFsm target payload false FsmRunning) /\
    initial_master world' = Some (ticket_session ticket, ticket_master ticket, now) /\
    fst (session_state cfg token_key wc traffic ticket target payload dc st2 c2) =
      opened_state cfg ticket (cn_stream_id dc) (w_now wc) st2.
Proof.
  intros Henc Hr Hsr Hconn Hphase Hhalves Htarget Htok' Hpay Hlock Hstale Hsid Hu Hgone Hda Hcd Hdc Hsd Hwb Hwc Hopen Htime Hc Ht Hfresh Hperm.
  cbv zeta. set (pk := x25519_public (srv_private_key cfg)). set (auth := str "Bearer " ++ token). rewrite Htarget.
  destruct (reject_exchange cfg token_key traffic wa old u (target_of host port) (fsm_payload conn) da st c Hsid Hu Hgone Hda Hr)
    as (ck & early & rem & fr & a & Hreq & Hdel & Htry); [apply Htok'|done|].
  unfold session_state at 1. rewrite Hreq, Hdel. set (st1 := forget_session (ticket_session old) st).
  destruct (hello_exchange cfg token_key traffic cd wb token claims st1 c Henc Hwb Hcd Hr Hsd Hsr Hc Ht)
    as (cookie & hello & secrets & ticket & c2 & Hmake & Hperf & Hnew & Hc2 & Hst2 & Hc2').
  unfold hello_state. rewrite Hmake. destruct (deliver _ _ wb _ _ _) as [[[a2 sent2] st2] c2']. cbn [fst snd] in Hst2, Hc2'. subst c2'.
  destruct (session_exchange cfg token_key traffic wc ticket (sd_session (w_draws wb)) (sub claims) (w_now wb) host port
    (fsm_payload conn) dc st2 c2) as (ck3 & early3 & rem3 & datas & Hreq3 & _ & Hdel3 & Htry3); try done.
  { by destruct Hsd as (_ & _ & ?). }
  { rewrite Hst2. apply lookup_insert_eq. }
  { unfold master_expired, saturating_sub. destruct (Z.ltb_spec MASTER_EXPIRY (Z.max 0 (w_now wc - w_now wb))); [unfold MASTER_EXPIRY in *; lia|done]. }
  { by rewrite Hst2. }
  { by rewrite Hst2. }
  destruct (fsm_recovers traffic pk id conn Hhalves world old da (session_server cfg token_key wa st c) cd
    (hello_server cfg token_key wb auth st1 c) ticket now dc (session_server cfg token_key wc st2 c2) rem3 (zlen datas)
    (initial_master world)) as (world' & Hsteps & Hrunning & _ & Hmaster); [done..|exact Hstale| | | |].
  { by rewrite Htarget. }
  { exact Hperf. }
  { by rewrite Htarget. }
  exists ticket, world'. split; [exact Hsteps|]. split; [unfold set_fsm in Hrunning; by rewrite Hrunning, Htarget|]. split; [exact Hmaster|].
  unfold session_state. by rewrite Hreq3, Hdel3.
Qed.

(** ** Witnesses *)

(** A connection that adds fields and cuts bodies into pieces. *)
Definition toy_wire (unix_now now : Z) : Wire :=
  mkWire [(str "Host", str "example.org"); (str "cookie", str "stream=x")]
    (fun b => [Chunk (ztake 5 b); BodyPending; Chunk (zdrop 5 b)]) (fun b => [ztake 3 b; zdrop 3 b]) (fun b => 5 + length b)%nat
    (fun _ _ => Connected) (fun _ => true) ContNone EosOk 0 unix_now now toy_server_draws.

Lemma toy_wire_ok unix_now now : wire_ok (toy_wire unix_now now).
Proof.
  split; intros b; cbn.
  - split; [repeat constructor|]. split; [by rewrite app_nil_r, ztake_zdrop|lia].
  - by rewrite app_nil_r, ztake_zdrop.
Qed.

Definition toy_pk : bytes := x25519_public (srv_private_key toy_server).
Definition toy_bearer : bytes := str "Bearer " ++ toy_token.

(** A tunnel, and a request to continue it. *)
Definition toy_stream_id : bytes := zrep 16 Byte.x55.
Definition toy_tunnel_state : AppState :=
  mkState ∅ {[ toy_stream_id := (SActive, 5) ]} {[ toy_stream_id := mkHandle (zrep 32 Byte.x44) Json ]} 3.

Lemma requests_reach_tunnel_witness :
  exists chunks,
    deliver (P := toy_aead) (K := toy_cache) toy_server toy_key (toy_wire 1900 10) (continue_post (fun lo _ => lo) toy_stream_id)
      toy_tunnel_state toy_empty = (Answered 204 chunks, [], toy_tunnel_state, toy_empty).
Proof.
  eexists. rewrite (requests_reach_tunnel (P := toy_aead) toy_uuid_laws (K := toy_cache) toy_server toy_key (toy_wire 1900 10)
    (fun lo _ => lo) toy_stream_id []).
  - vm_compute. reflexivity.
  - reflexivity.
  - by right.
Defined.

Lemma toy_token_ok : token_ok (P := toy_aead) toy_key 1900 toy_token toy_claims.
Proof. split; vm_compute; reflexivity. Qed.

Lemma toy_connect_draws_ok : connect_draws_ok toy_connect_draws.
Proof. split_and!; try reflexivity. apply low_draw_ok. Qed.

Lemma toy_target_ok : target_ok (str "example.org") 443.
Proof. split_and!; vm_compute; congruence. Qed.

Lemma toy_empty_ok : cache_ok (P := toy_aead) (K := toy_cache) toy_key toy_empty.
Proof. intros token user t H. by destruct (lookup_empty_Some (M := gmap bytes) (A := bytes * Z) token (user, t)). Qed.

(** A handshake at time 10, and a tunnel at time 20. *)
Lemma tunnel_established_witness :
  exists cookie hello secrets ticket,
    make_client_hello (P := toy_aead) toy_config toy_pk toy_client_draws = Ok (cookie, hello, secrets) /\
    perform_pq_handshake (P := toy_aead) toy_config toy_pk toy_client_draws
      (hello_server (P := toy_aead) (K := toy_cache) toy_server toy_key (toy_wire 1900 10) toy_bearer toy_state toy_empty) = Some (Ok ticket) /\
    let '(_, _, st1, c1) := deliver (P := toy_aead) (K := toy_cache) toy_server toy_key (toy_wire 1900 10)
        (hello_post toy_bearer cookie hello) toy_state toy_empty in
    exists remaining datas, str "hello" = concat datas ++ remaining /\
      try_pq_connect (P := toy_aead) toy_config ticket (str "example.org:443") (str "hello") toy_connect_draws
        (session_server (P := toy_aead) (K := toy_cache) toy_server toy_key (toy_wire 1910 20) st1 c1) true =
        Some (Running remaining (zlen datas), false).
Proof.
  destruct (tunnel_established (P := toy_aead) toy_aead_laws toy_base64_laws toy_uuid_laws toy_crypto_laws toy_base122_laws
    toy_cache_laws toy_server toy_key toy_config toy_client_draws (toy_wire 1900 10) toy_token toy_claims toy_state toy_empty)
    as (cookie & hello & secrets & ticket & Hmake & Hperf & Hrest).
  - reflexivity.
  - apply toy_wire_ok.
  - split; [reflexivity|apply low_draw_ok].
  - vm_compute. split; congruence.
  - split; [reflexivity|]. split; [apply low_draw_ok|reflexivity].
  - vm_compute. split; congruence.
  - apply toy_empty_ok.
  - apply toy_token_ok.
  - exists cookie, hello, secrets, ticket. split; [exact Hmake|]. split; [exact Hperf|].
    assert (Hst : snd (fst (deliver (P := toy_aead) (K := toy_cache) toy_server toy_key (toy_wire 1900 10)
      (hello_post toy_bearer cookie hello) toy_state toy_empty)) = fst (hello_state (P := toy_aead) (K := toy_cache) toy_server toy_key
      (toy_wire 1900 10) toy_config toy_bearer toy_client_draws toy_state toy_empty)).
    { unfold hello_state. change (x25519_public (srv_private_key toy_server)) with toy_pk in *. rewrite Hmake. by destruct (deliver _ _ _ _ _ _) as [[[? ?] ?] ?]. }
    fold toy_bearer in Hrest.
    destruct (deliver _ _ _ (hello_post toy_bearer cookie hello) _ _) as [[[a sent] st1] c1]. cbn [fst snd] in Hst.
    destruct Hrest as (_ & _ & Hconnect).
    destruct (Hconnect (toy_wire 1910 20) (str "example.org") 443 (str "hello") toy_connect_draws st1 c1)
      as (cookie2 & early & remaining & datas & _ & Hsplit & Htry & _).
    + apply toy_wire_ok.
    + vm_compute. congruence.
    + reflexivity.
    + rewrite Hst. vm_compute. reflexivity.
    + rewrite Hst. vm_compute. reflexivity.
    + apply toy_connect_draws_ok.
    + apply toy_target_ok.
    + reflexivity.
    + split; reflexivity.
    + exists remaining, datas. split; [exact Hsplit|exact Htry].
Defined.

(** A connection of a client whose server was restarted. *)
Definition toy_old : PqSessionTicket := mkTicket (zrep 32 Byte.x44) (uuid_hyphenated (zrep 16 Byte.xcd)).
Definition toy_resuming : FsmConn := mkFsm (str "example.org:443") (str "hello") true (FsmResuming toy_old).
Definition toy_stale : SessionWorld :=
  mkSessions (Some (ticket_session toy_old, ticket_master toy_old, 0)) None {[ 0%nat := toy_resuming ]} [] [] [].

Lemma sessions_recover_witness :
  exists st1 c1 st2 c2 ticket world',
    fsm_steps (P := toy_aead) toy_config toy_pk toy_stale
      [FsmAnswer 0 toy_connect_draws (session_server (P := toy_aead) (K := toy_cache) toy_server toy_key (toy_wire 1900 5) toy_state toy_empty);
       FsmInvalidate 0; FsmAcquire 0; FsmCheck 0 6;
       FsmHello 0 toy_client_draws (hello_server (P := toy_aead) (K := toy_cache) toy_server toy_key (toy_wire 1900 10) toy_bearer st1 c1) 6;
       FsmAnswer 0 toy_connect_draws (session_server (P := toy_aead) (K := toy_cache) toy_server toy_key (toy_wire 1910 20) st2 c2)] world' /\
    fsms world' !! 0%nat = Some (mkFsm (str "example.org:443") (str "hello") false FsmRunning) /\
    initial_master world' = Some (ticket_session ticket, ticket_master ticket, 6).
Proof.
  pose proof (sessions_recover (P := toy_aead) toy_aead_laws toy_base64_laws toy_uuid_laws toy_crypto_laws toy_base122_laws
    toy_cache_laws toy_server toy_key toy_config toy_old (zrep 16 Byte.xcd) (toy_wire 1900 5) (toy_wire 1900 10) (toy_wire 1910 20)
    toy_connect_draws toy_client_draws toy_connect_draws toy_token toy_claims 6 (str "example.org") 443 toy_state toy_empty
    toy_stale 0%nat toy_resuming) as H.
  fold toy_bearer toy_pk in H. cbv zeta in H.
  destruct (session_state _ _ (toy_wire 1900 5) _ _ _ _ _ _ _) as [st1 c1].
  destruct (hello_state _ _ _ _ _ _ _ _) as [st2 c2]. exists st1, c1, st2, c2.
  destruct H as (ticket & world' & Hsteps & Hrun & Hmaster & _).
  - reflexivity.
  - vm_compute. split; congruence.
  - vm_compute. split; congruence.
  - reflexivity.
  - reflexivity.
  - reflexivity.
  - vm_compute. reflexivity.
  - apply toy_target_ok.
  - reflexivity.
  - reflexivity.
  - vm_compute. reflexivity.
  - reflexivity.
  - reflexivity.
  - exact I.
  - apply toy_connect_draws_ok.
  - split; [reflexivity|apply low_draw_ok].
  - apply toy_connect_draws_ok.
  - split; [reflexivity|]. split; [apply low_draw_ok|reflexivity].
  - apply toy_wire_ok.
  - apply toy_wire_ok.
  - split; reflexivity.
  - vm_compute. congruence.
  - apply toy_empty_ok.
  - apply toy_token_ok.
  - reflexivity.
  - reflexivity.
  - exists ticket, world'. split; [exact Hsteps|]. split; [exact Hrun|exact Hmaster].
Defined.
