(* ===== verification/Dns.v ===== *)
(** * The DNS client

    [src/dns/client.rs]: queries and their answers, the cache that serves stale
    answers while it refreshes them, the order in which addresses are tried
    and the race of connections. The message format ([domain]), the cache
    ([moka]), shuffling ([rand]) and what the transport returns are parameters
    or arguments. *)

From S2P Require Import Prelude Frame Text Net.

(** ** Configuration *)

Inductive Protocol : Type := Udp | Dot.
#[export] Instance Protocol_eq_dec : EqDecision Protocol.
Proof. solve_decision. Defined.

Record DnsOptions : Type := mkDnsOptions {
  protocol : Protocol;
  prefer_ipv6 : bool;
  cache_size : Z;
  client_subnet : option IpAddr;
  min_ttl : Z;
  max_ttl : Z;
  swr_ttl : Z;
  empty_ttl : Z;
  happy_eyeballs_delay_ms : Z;
  max_concurrent_queries : Z
}.

Definition default_options : DnsOptions := mkDnsOptions Udp false 1024 None 30 3600 3600 300 250 1024.

Record DnsConfig : Type := mkDnsConfig { dns_upstream : SocketAddr; tls_domain : option bytes; options : DnsOptions }.

(** [init_dns] up to the transport; [show] prints an address. *)
Definition init_dns (show : IpAddr -> bytes) (config : DnsConfig) : Res string DnsConfig :=
  let config :=
    if bool_decide (protocol (options config) = Dot) && bool_decide (tls_domain config = None)
    then mkDnsConfig (dns_upstream config) (Some (show (sa_ip (dns_upstream config)))) (options config) else config in
  if max_ttl (options config) <? min_ttl (options config) then Err "dns.options.min_ttl must not exceed max_ttl"%string
  else Ok config.

(** ** Messages *)

Definition RTYPE_A : Z := 1.
Definition RTYPE_AAAA : Z := 28.
Definition RCODE_NOERROR : Z := 0.
Definition RCODE_NXDOMAIN : Z := 3.

(** A resource record: its type, its time to live, and its address when it
    reads as an A or an AAAA record. *)
Record DnsRecord : Type := mkRecord { rec_rtype : Z; rec_ttl : Z; rec_a : option Z; rec_aaaa : option Z }.

(** A parsed message: the question when there is exactly one, its name in
    text, and the records of the answer that can be read. *)
Record DnsMessage : Type := mkMessage {
  msg_id : Z;
  msg_tc : bool;
  msg_rcode : Z;
  sole_question : option (bytes * Z);
  msg_answer : option (list DnsRecord)
}.

(** A query: identifier, name, type, client subnet with its prefix length, and
    the size of the answers it allows. *)
Record DnsQuery : Type := mkQuery {
  q_id : Z;
  q_rd : bool;
  q_name : bytes;
  q_rtype : Z;
  q_subnet : option (Z * IpAddr);
  q_udp_size : Z
}.

Class DnsWire := {
  wire_build : DnsQuery -> Res string bytes;
  wire_parse : bytes -> option DnsMessage
}.

Definition is_ipv4 (ip : IpAddr) : bool := match ip with V4 _ => true | V6 _ => false end.

Definition build_query `{W : DnsWire} (domain : bytes) (rtype : Z) (ecs : option IpAddr) (id : Z) : Res string bytes :=
  wire_build (mkQuery id true domain rtype (option_map (fun ip => (if is_ipv4 ip then 24 else 56, ip)) ecs) 1232).

(** [trim_end_matches('.')]. *)
Fixpoint drop_dots_front (l : bytes) : bytes :=
  match l with b :: r => if decide (b = Byte.x2e) then drop_dots_front r else l | [] => [] end.
Definition trim_end_dots (l : bytes) : bytes := reverse (drop_dots_front (reverse l)).

Definition clamp (x lo hi : Z) : Z := if x <? lo then lo else if hi <? x then hi else x.

(** The loop over the answer: addresses and the least time to live. *)
Fixpoint collect_answers (qtype : Z) (records : list DnsRecord) (ips : list IpAddr) (min_seen : Z) : list IpAddr * Z :=
  match records with
  | [] => (ips, min_seen)
  | r :: records =>
      if rec_rtype r =? qtype then
        let min_seen := Z.min min_seen (rec_ttl r) in
        let ips :=
          if qtype =? RTYPE_A then match rec_a r with Some a => ips ++ [V4 a] | None => ips end
          else if qtype =? RTYPE_AAAA then match rec_aaaa r with Some a => ips ++ [V6 a] | None => ips end
          else ips in
        collect_answers qtype records ips min_seen
      else collect_answers qtype records ips min_seen
  end.

Section response.
Context `{W : DnsWire} (opts : DnsOptions).

(** Addresses and their time to live in seconds. *)
Definition parse_response (data : bytes) (id qtype : Z) (domain : bytes) : Res string (list IpAddr * Z) :=
  let? msg := ok_or (wire_parse data) "invalid DNS response"%string in
  if negb (msg_id msg =? id) then Err "DNS ID mismatch"%string
  else
    let? (qname, question_type) := ok_or (sole_question msg) "DNS response question missing or malformed"%string in
    let name_matches := eq_ignore_ascii_case (trim_end_dots qname) (trim_end_dots domain) in
    if negb (question_type =? qtype) || negb name_matches then Err "DNS response question does not match query"%string
    else if msg_tc msg then Err "DNS response truncated (TC set)"%string
    else if msg_rcode msg =? RCODE_NXDOMAIN then Ok ([], empty_ttl opts)
    else if negb (msg_rcode msg =? RCODE_NOERROR) then Err "DNS Rcode Error"%string
    else
      let '(ips, min_seen) := match msg_answer msg with
        | Some records => collect_answers qtype records [] (u32_max - 1)
        | None => ([], u32_max - 1)
        end in
      let ttl := match ips with
        | [] => empty_ttl opts
        | _ =>
            let lo := Z.min (min_ttl opts) (max_ttl opts) in
            let hi := Z.max (min_ttl opts) (max_ttl opts) in
            clamp min_seen lo hi
        end in
      Ok (ips, ttl).

(** [query_upstream]; [send] is the transport: the response and the
    identifier it used. *)
Definition query_upstream (send : bytes -> Res string (bytes * Z)) (domain : bytes) (rtype : Z) (ecs : option IpAddr)
    : Res string (list IpAddr * Z) :=
  let? query := build_query domain rtype ecs 0 in
  let? (resp, id) := send query in
  parse_response resp id rtype domain.
End response.

(** ** The cache *)

Definition CacheKey : Type := bytes * Z * option IpAddr.

(** [is_refreshing] is a flag shared by the copies of an entry: the number of
    the flag. *)
Record CacheEntry : Type := mkEntry { ips : list IpAddr; created_at : Z; ttl : Z; is_refreshing : nat }.

(** [moka]'s cache: an entry may be gone at any time. *)
Class DnsCache := {
  dcache : Type;
  dcache_new : dcache;
  dcache_get : Z -> CacheKey -> dcache -> option CacheEntry;
  dcache_insert : Z -> CacheKey -> CacheEntry -> dcache -> dcache
}.

Class DnsCacheLaws (K : DnsCache) := {
  dcache_get_new : forall now k, dcache_get now k dcache_new = None;
  dcache_get_insert : forall now t k e k' c e', dcache_get now k' (dcache_insert t k e c) = Some e' ->
    (k' = k /\ e' = e) \/ dcache_get now k' c = Some e'
}.

(** What a lookup finds: an answer, with a background refresh when it started
    one, or nothing. *)
Inductive Lookup : Type := Hit (ips : list IpAddr) | Stale (ips : list IpAddr) | Miss.

(** The cache, the flags by number, the refreshes in the background with their
    keys and flags, and everything ever resolved. *)
Record DnsWorld `{K : DnsCache} : Type := mkDns {
  dns_cache : dcache;
  dns_flags : list bool;
  refreshes : list (CacheKey * nat);
  resolved : list (CacheKey * CacheEntry)
}.
Arguments mkDns {K}.

Section cache.
Context `{K : DnsCache} (opts : DnsOptions).

(** [lookup] up to [single_flight]. *)
Definition lookup_cached (now : Z) (key : CacheKey) (w : DnsWorld) : Lookup * DnsWorld :=
  match dcache_get now key (dns_cache w) with
  | Some entry =>
      let elapsed := saturating_sub now (created_at entry) in
      if elapsed <? ttl entry then (Hit (ips entry), w)
      else if elapsed <? as_u64 (ttl entry + swr_ttl opts) then
        match dns_flags w !! is_refreshing entry with
        | Some false =>
            (Stale (ips entry), mkDns (dns_cache w) (<[is_refreshing entry := true]> (dns_flags w))
               (refreshes w ++ [(key, is_refreshing entry)]) (resolved w))
        | _ => (Stale (ips entry), w)
        end
      else (Miss, w)
  | None => (Miss, w)
  end.

(** [query_upstream_and_cache], once the upstream has answered at [now]. *)
Definition query_upstream_and_cache (now : Z) (key : CacheKey) (answer : Res string (list IpAddr * Z)) (w : DnsWorld)
    : Res string (list IpAddr * Z) * DnsWorld :=
  match answer with
  | Ok (ips, ttl) =>
      let entry := mkEntry ips now ttl (length (dns_flags w)) in
      (Ok (ips, ttl), mkDns (dcache_insert now key entry (dns_cache w)) (dns_flags w ++ [false]) (refreshes w)
         (resolved w ++ [(key, entry)]))
  | Err e => (Err e, w)
  | Panic => (Panic, w)
  end.

(** The end of the [i]-th background refresh: [flag.store(false)]. *)
Definition refresh_done (i : nat) (w : DnsWorld) : DnsWorld :=
  match refreshes w !! i with
  | Some (_, flag) => mkDns (dns_cache w) (<[flag := false]> (dns_flags w)) (delete i (refreshes w)) (resolved w)
  | None => w
  end.

(** [lookup]; [answer] is what the single flight for the key gives. *)
Definition lookup (now : Z) (key : CacheKey) (answered : Z) (answer : Res string (list IpAddr * Z)) (w : DnsWorld)
    : Res string (list IpAddr) * DnsWorld :=
  match lookup_cached now key w with
  | (Hit ips, w) | (Stale ips, w) => (Ok ips, w)
  | (Miss, w) =>
      let '(r, w) := query_upstream_and_cache answered key answer w in
      (map_err (fun _ => "DNS resolution error"%string) (let? (ips, _) := r in Ok ips), w)
  end.

(** Lookups, answers of the upstream and ends of refreshes, in any order. *)
Inductive dns_step : DnsWorld -> DnsWorld -> Prop :=
| ds_lookup w now key : dns_step w (snd (lookup_cached now key w))
| ds_answer w now key answer :
    dns_step w (snd (query_upstream_and_cache now key answer w))
| ds_refreshed w i : dns_step w (refresh_done i w).

Inductive dns_steps : DnsWorld -> DnsWorld -> Prop :=
| dns_refl w : dns_steps w w
| dns_snoc w w1 w2 : dns_steps w w1 -> dns_step w1 w2 -> dns_steps w w2.

Definition dns_start : DnsWorld := mkDns dcache_new [] [] [].
End cache.

(** ** Addresses *)

(** The loop of [interleave_ips]. *)
Fixpoint interleave (p s : list IpAddr) : list IpAddr :=
  match p, s with
  | a :: p, b :: s => a :: b :: interleave p s
  | a :: p, [] => a :: p
  | [], a :: s => a :: s
  | [], [] => []
  end.

Definition interleave_ips (opts : DnsOptions) (v4 v6 : list IpAddr) : list IpAddr :=
  let '(p, s) := if prefer_ipv6 opts then (v6, v4) else (v4, v6) in
  interleave p s.

(** [resolve]: the results of the two lookups, and the two shuffles. *)
Definition resolve (opts : DnsOptions) (host : bytes) (res_a res_aaaa : Res string (list IpAddr))
    (shuffle4 shuffle6 : list IpAddr -> list IpAddr) : Res string (list IpAddr) :=
  match ip_from_str host with
  | Some ip => Ok [ip]
  | None =>
      let v4 := match res_a with Ok l => l | _ => [] end in
      let v6 := match res_aaaa with Ok l => l | _ => [] end in
      match v4, v6 with
      | [], [] => Err "DNS resolution failed: no A/AAAA records found"%string
      | _, _ => Ok (interleave_ips opts (shuffle4 v4) (shuffle6 v6))
      end
  end.

(** ** The race of connections *)

(** [connect_single]'s proxy address. *)
Definition socks_addr (url : bytes) : bytes :=
  match strip_prefix (str "socks5://") url with
  | Some r => r
  | None => default url (strip_prefix (str "socks5h://") url)
  end.

(** The attempts that run and the addresses not tried yet; or the end. *)
Inductive Race : Type :=
| Racing (running todo : list IpAddr) (all_started : bool)
| Connected (ip : IpAddr)
| RaceFailed.

(** The branches of the [select!]: the [k]-th running attempt ends, the timer
    fires, or no branch is todo. *)
Inductive RaceEvent : Type := Joined (k : nat) (ok : bool) | Timer | NoBranch.

Definition race_start (ips : list IpAddr) : Race :=
  match ips with [] => RaceFailed | ip :: todo => Racing [ip] todo false end.

(** [None] when the branch is disabled. *)
Definition race_step (ev : RaceEvent) (r : Race) : option Race :=
  match r with
  | Racing running todo all_started =>
      match ev with
      | Joined k ok =>
          ip ← running !! k;
          if ok : bool then Some (Connected ip)
          else
            let running := delete k running in
            if all_started && bool_decide (running = []) then Some RaceFailed else Some (Racing running todo all_started)
      | Timer =>
          if all_started then None
          else match todo with
               | ip :: todo => Some (Racing (running ++ [ip]) todo false)
               | [] => Some (Racing running [] true)
               end
      | NoBranch => if all_started && bool_decide (running = []) then Some RaceFailed else None
      end
  | _ => None
  end.

(** ** Specification *)

(** A response that answers the query. *)
Definition answers_query `{W : DnsWire} (data : bytes) (id qtype : Z) (domain : bytes) (msg : DnsMessage) : Prop :=
  wire_parse data = Some msg /\ msg_id msg = id /\ msg_tc msg = false /\
  exists qname, sole_question msg = Some (qname, qtype) /\
    to_ascii_lowercase (trim_end_dots qname) = to_ascii_lowercase (trim_end_dots domain).

(** The address a record carries for a query of type [qtype]. *)
Definition record_ip (qtype : Z) (r : DnsRecord) : option IpAddr :=
  if rec_rtype r =? qtype then
    if qtype =? RTYPE_A then V4 <$> rec_a r else if qtype =? RTYPE_AAAA then V6 <$> rec_aaaa r else None
  else None.

Definition race_final (r : Race) : Prop := match r with Racing _ _ _ => False | _ => True end.

(** Every attempt ends as [reach] says. *)
Definition race_ok (reach : IpAddr -> bool) (ev : RaceEvent) (r : Race) : Prop :=
  match ev, r with
  | Joined k ok, Racing running _ _ => forall ip, running !! k = Some ip -> ok = reach ip
  | _, _ => True
  end.

Inductive race_run (reach : IpAddr -> bool) : Race -> list RaceEvent -> Race -> Prop :=
| race_nil r : race_run reach r [] r
| race_cons r ev r1 evs r2 : race_ok reach ev r -> race_step ev r = Some r1 -> race_run reach r1 evs r2 -> race_run reach r (ev :: evs) r2.

(** What is left to do: an attempt not started counts for its start and its
    end, the flag for the timer that sets it, and the end for itself. *)
Definition race_rank (r : Race) : nat :=
  match r with
  | Racing running todo all_started => length running + 2 * length todo + (if all_started then 0 else 1) + 1
  | _ => 0
  end.

(** ** Lemmas *)

Lemma collect_answers_spec qtype records : forall ips m,
  collect_answers qtype records ips m =
  (ips ++ omap (record_ip qtype) records,
   foldl Z.min m (map rec_ttl (List.filter (fun r => rec_rtype r =? qtype) records))).
Proof.
  induction records as [|r records IH]; intros ips m; cbn [collect_answers].
  { by rewrite app_nil_r. }
  cbn [omap list_omap List.filter]. unfold record_ip at 1. destruct (rec_rtype r =? qtype); [|apply IH]. rewrite IH. cbn [map foldl].
  f_equal. destruct (qtype =? RTYPE_A).
  { destruct (rec_a r); cbn; [by rewrite <- app_assoc|done]. }
  destruct (qtype =? RTYPE_AAAA); [|done]. destruct (rec_aaaa r); cbn; [by rewrite <- app_assoc|done].
Qed.

Lemma clamp_range x lo hi : lo <= hi -> lo <= clamp x lo hi <= hi.
Proof. unfold clamp. destruct (Z.ltb_spec x lo), (Z.ltb_spec hi x); lia. Qed.

Lemma interleave_length p s : length (interleave p s) = (length p + length s)%nat.
Proof. revert s. induction p as [|a p IH]; intros [|b s]; cbn; rewrite ?IH; lia. Qed.

Lemma interleave_perm p s : interleave p s ≡ₚ p ++ s.
Proof.
  revert s. induction p as [|a p IH]; intros [|b s]; cbn; rewrite ?app_nil_r; [done..|]. rewrite IH.
  by rewrite <- Permutation_middle.
Qed.

(** The alternation. *)
Lemma interleave_lookup p s i :
  (i < length p)%nat -> (i < length s)%nat ->
  interleave p s !! (2 * i)%nat = p !! i /\ interleave p s !! (2 * i + 1)%nat = s !! i.
Proof.
  revert s i. induction p as [|a p IH]; intros [|b s] i Hp Hs; cbn [length] in Hp, Hs; try lia. destruct i as [|i]; [done|].
  destruct (IH s i) as [H1 H2]; [lia..|]. cbn [interleave].
  replace (2 * S i)%nat with (S (S (2 * i))) by lia. split; [exact H1|].
  replace (S (S (2 * i)) + 1)%nat with (S (S (2 * i + 1))) by lia. exact H2.
Qed.

(** *** The cache *)

Section cache_lemmas.
Context `{K : DnsCache} {KL : DnsCacheLaws K} (opts : DnsOptions).

(** The flags of the entries and of the refreshes exist, no two refreshes
    share a flag, a flag is set exactly while its refresh runs, and entries
    were resolved. *)
Record dns_inv (w : DnsWorld) : Prop := {
  di_entry : forall now k e, dcache_get now k (dns_cache w) = Some e -> (k, e) ∈ resolved w;
  di_flag : forall k e, (k, e) ∈ resolved w -> (is_refreshing e < length (dns_flags w))%nat;
  di_distinct : NoDup (map snd (refreshes w));
  di_set : forall f, dns_flags w !! f = Some true <-> f ∈ map snd (refreshes w)
}.

Lemma dns_start_inv : dns_inv dns_start.
Proof.
  split; cbn; [|set_solver|constructor|].
  - intros now k e He. by rewrite dcache_get_new in He.
  - intros f. split; [done|set_solver].
Qed.

Lemma lookup_cached_inv now key w : dns_inv w -> dns_inv (snd (lookup_cached opts now key w)).
Proof.
  intros [He Hf Hd Hs]. unfold lookup_cached. destruct (dcache_get now key (dns_cache w)) as [entry|] eqn:Hg; [|done].
  destruct (_ <? ttl entry); [done|]. destruct (_ <? _); [|done].
  destruct (dns_flags w !! is_refreshing entry) as [[]|] eqn:Hfl; [done| |done]. split; cbn; [done|..].
  - intros k e Hin. rewrite length_insert. by eapply Hf.
  - rewrite map_app. cbn. apply NoDup_app. split; [done|]. split; [|apply NoDup_singleton].
    intros f Hin Hfe. apply list_elem_of_singleton in Hfe as ->. apply Hs in Hin. congruence.
  - intros f. rewrite map_app, elem_of_app. cbn. rewrite list_elem_of_singleton. destruct (decide (f = is_refreshing entry)) as [->|Hne].
    + rewrite list_lookup_insert_eq by (by eapply lookup_lt_Some). split; [by right|done].
    + rewrite list_lookup_insert_ne by done. rewrite Hs. tauto.
Qed.

Lemma query_upstream_and_cache_inv now key answer w : dns_inv w -> dns_inv (snd (query_upstream_and_cache now key answer w)).
Proof.
  intros [He Hf Hd Hs]. unfold query_upstream_and_cache. destruct answer as [[ips ttl]|e|]; [|done..]. split; cbn; [|..|done|].
  - intros t k e Hg. rewrite elem_of_app, list_elem_of_singleton. apply dcache_get_insert in Hg as [[-> ->]|Hg]; [by right|].
    left. by eapply He.
  - intros k e. rewrite elem_of_app, list_elem_of_singleton, length_app. cbn. intros [Hin|[= -> ->]]; [apply Hf in Hin; lia|cbn; lia].
  - intros f. rewrite <- Hs. split.
    + intros [Hl|(Hge & Hl)]%lookup_app_Some; [done|]. apply list_lookup_singleton_Some in Hl as [_ ?]. done.
    + intros Hl. by apply lookup_app_l_Some.
Qed.

Lemma refresh_done_inv i w : dns_inv w -> dns_inv (refresh_done i w).
Proof.
  intros [He Hf Hd Hs]. unfold refresh_done. destruct (refreshes w !! i) as [[k flag]|] eqn:Hi; [|by split].
  assert (Hin : flag ∈ map snd (refreshes w)) by (apply list_elem_of_lookup; exists i; by rewrite list_lookup_fmap, Hi).
  assert (Hsplit : map snd (refreshes w) ≡ₚ flag :: map snd (delete i (refreshes w))).
  { change (flag :: map snd (delete i (refreshes w))) with (map snd ((k, flag) :: delete i (refreshes w))). apply Permutation_map. by apply delete_Permutation. }
  rewrite Hsplit in Hd. apply NoDup_cons in Hd as [Hnot Hd].
  split; cbn; [done|..].
  - intros k' e Hin'. rewrite length_insert. by eapply Hf.
  - done.
  - intros f. destruct (decide (f = flag)) as [->|Hne].
    + rewrite list_lookup_insert_eq; [by split|]. apply Hs in Hin. by eapply lookup_lt_Some.
    + rewrite list_lookup_insert_ne by done. rewrite Hs, Hsplit, elem_of_cons. naive_solver.
Qed.

Lemma dns_steps_inv w w' : dns_steps opts w w' -> dns_inv w -> dns_inv w'.
Proof.
  induction 1 as [|w w1 w2 _ IH Hs]; [done|]. intros Hi. specialize (IH Hi). destruct Hs;
    [by apply lookup_cached_inv|by apply query_upstream_and_cache_inv|by apply refresh_done_inv].
Qed.
End cache_lemmas.

(** *** The race *)

Definition race_wf (r : Race) : Prop := match r with Racing _ todo true => todo = [] | _ => True end.

Lemma race_step_wf ev r r' : race_wf r -> race_step ev r = Some r' -> race_wf r' /\ (race_rank r' < race_rank r)%nat.
Proof.
  destruct r as [running todo all_started| |]; [|done..]. intros Hw. destruct ev as [k ok| |]; cbn [race_step].
  - destruct (running !! k) as [ip|] eqn:Hk; cbn [mbind option_bind]; [|done]. apply lookup_lt_Some in Hk.
    destruct ok; [intros [= <-]; cbn; split; [done|lia]|].
    destruct (all_started && _); intros [= <-]; cbn; [split; [done|lia]|]. split; [done|]. rewrite length_delete by (by apply lookup_lt_is_Some_2). lia.
  - destruct all_started; [done|]. destruct todo as [|ip todo]; intros [= <-]; cbn; (split; [done|]); rewrite ?length_app; cbn; lia.
  - destruct (all_started && _); [|done]. intros [= <-]. cbn. split; [done|lia].
Qed.

Lemma race_run_rank reach r evs r' : race_run reach r evs r' -> race_wf r -> (length evs + race_rank r' <= race_rank r)%nat /\ race_wf r'.
Proof.
  induction 1 as [r|r ev r1 evs r2 _ Hst _ IH]; intros Hw; [by split|].
  destruct (race_step_wf _ _ _ Hw Hst) as [Hw1 Hr]. destruct (IH Hw1) as [Hl Hw2]. split; [cbn; lia|done].
Qed.

(** The outcome, from the addresses that run or wait. *)
Definition race_ips (r : Race) : list IpAddr := match r with Racing running todo _ => running ++ todo | _ => [] end.

Lemma race_run_outcome reach r evs r' :
  race_run reach r evs r' -> race_wf r -> ~ race_final r ->
  match r' with
  | Connected ip => ip ∈ race_ips r /\ reach ip = true
  | RaceFailed => forall ip, ip ∈ race_ips r -> reach ip = false
  | Racing _ _ _ => True
  end.
Proof.
  induction 1 as [r|r ev r1 evs r2 Hok Hst Hrun IH]; intros Hw Hn; [destruct r; [done|by destruct Hn..]|].
  destruct (race_step_wf _ _ _ Hw Hst) as [Hw1 _]. destruct r as [running todo all_started|ip|]; [|done..].
  assert (Hfinal : forall q, race_final r1 -> q = r1 -> r2 = q).
  { intros q Hf ->. destruct Hrun as [|? ? ? ? ? _ Hs2 _]; [done|]. by destruct r; [destruct Hf|..]. }
  destruct ev as [k ok| |]; cbn [race_step race_ok] in Hst, Hok.
  - destruct (running !! k) as [ip|] eqn:Hk; cbn [mbind option_bind] in Hst; [|done]. specialize (Hok ip eq_refl).
    assert (Hin : ip ∈ running) by (by eapply list_elem_of_lookup_2). pose proof (delete_Permutation _ _ _ Hk) as Hp. cbn [race_ips].
    destruct ok.
    { injection Hst as <-. rewrite (Hfinal _ I eq_refl). split; [rewrite elem_of_app; by left|done]. }
    destruct (all_started && bool_decide (delete k running = [])) eqn:Hlast; injection Hst as <-.
    + rewrite (Hfinal _ I eq_refl). apply andb_true_iff in Hlast as [-> Hnil%bool_decide_eq_true]. cbn in Hw. subst todo.
      rewrite Hnil in Hp. intros ip'. rewrite app_nil_r, Hp. intros ->%list_elem_of_singleton. done.
    + specialize (IH Hw1 ltac:(by intros [])). cbn [race_ips] in IH. destruct r2 as [|ip'|]; [done| |].
      * destruct IH as [Hi ?]. split; [|done]. rewrite Hp. cbn. by right.
      * intros ip'. rewrite Hp. cbn. intros [->|Hi]%elem_of_cons; [done|by apply IH].
  - destruct all_started; [done|]. destruct todo as [|ip todo]; injection Hst as <-;
      specialize (IH Hw1 ltac:(by intros [])); cbn [race_ips] in *; [done|]. by rewrite <- app_assoc in IH.
  - destruct (all_started && bool_decide (running = [])) eqn:Hlast; [|done]. injection Hst as <-. rewrite (Hfinal _ I eq_refl).
    apply andb_true_iff in Hlast as [-> ->%bool_decide_eq_true]. cbn in *. subst todo. intros ip Hin. by apply not_elem_of_nil in Hin.
Qed.

Lemma race_progress reach r : race_wf r -> ~ race_final r -> exists ev r', race_ok reach ev r /\ race_step ev r = Some r'.
Proof.
  destruct r as [running todo all_started| |]; [|by intros _ []..]. intros Hw _. destruct all_started.
  - destruct running as [|ip running].
    + exists NoBranch, RaceFailed. by split.
    + exists (Joined 0 (reach ip)). cbn. destruct (reach ip) eqn:Hr; [|destruct (bool_decide _)]; eexists; (split; [by intros ? [= <-]|done]).
  - exists Timer. destruct todo; by eexists.
Qed.

(** ** Properties *)

(** C29: the race of connections. However the attempts and the timer
    interleave, the race has at most two steps per address and one more, and
    has a step until it is over; it ends with a connection to an address of
    the list that can be reached if there is one, and fails only after every
    address was tried without success. *)
Theorem happy_eyeballs_connects (reach : IpAddr -> bool) (ips : list IpAddr) evs r :
  race_run reach (race_start ips) evs r ->
  (length evs + race_rank r <= 2 * length ips + 1)%nat /\
  (~ race_final r -> exists ev r', race_ok reach ev r /\ race_step ev r = Some r') /\
  match r with
  | Connected ip => ip ∈ ips /\ reach ip = true
  | RaceFailed => forall ip, ip ∈ ips -> reach ip = false
  | Racing _ _ _ => True
  end.
Proof.
  intros Hrun. assert (Hw : race_wf (race_start ips)) by (by destruct ips).
  destruct (race_run_rank _ _ _ _ Hrun Hw) as [Hl Hw']. split; [|split].
  - destruct ips; cbn in *; lia.
  - by apply race_progress.
  - destruct ips as [|ip ips].
    + cbn in Hrun. inversion Hrun as [|? ? ? ? ? _ Hs]; subst; [|done]. intros ip Hin. by apply not_elem_of_nil in Hin.
    + apply (race_run_outcome _ _ _ _ Hrun Hw). by intros [].
Qed.

(** C31: the cache. However lookups, answers and the ends of refreshes
    interleave, an answer from the cache is one that was resolved for that
    very key, not longer ago than its time to live and the time for stale
    answers together; an entry past its own time to live has a refresh running
    in the background, and no entry has more than one. *)
Theorem dns_cache_fresh `{K : DnsCache} (KL : DnsCacheLaws K) opts w now key :
  dns_steps opts dns_start w ->
  NoDup (map snd (refreshes w)) /\
  let '(found, w') := lookup_cached opts now key w in
  match found with
  | Hit l => exists e, (key, e) ∈ resolved w /\ l = ips e /\ saturating_sub now (created_at e) < ttl e /\ w' = w
  | Stale l => exists e, (key, e) ∈ resolved w /\ l = ips e /\
      ttl e <= saturating_sub now (created_at e) < as_u64 (ttl e + swr_ttl opts) /\
      is_refreshing e ∈ map snd (refreshes w') /\ NoDup (map snd (refreshes w'))
  | Miss => w' = w
  end.
Proof.
  intros Hs. pose proof (dns_steps_inv opts _ _ Hs dns_start_inv) as Hi. split; [apply Hi|].
  pose proof (lookup_cached_inv opts now key w Hi) as Hi'. revert Hi'. unfold lookup_cached.
  destruct (dcache_get now key (dns_cache w)) as [e|] eqn:Hg; [|done]. pose proof (di_entry w Hi _ _ _ Hg) as Hin.
  destruct (Z.ltb_spec (saturating_sub now (created_at e)) (ttl e)) as [Hlt|Hge]; [by exists e|].
  destruct (Z.ltb_spec (saturating_sub now (created_at e)) (as_u64 (ttl e + swr_ttl opts))) as [Hsw|Hsw]; [|done].
  pose proof (di_flag w Hi _ _ Hin) as Hf. destruct (lookup_lt_is_Some_2 _ _ Hf) as [b Hb].
  rewrite Hb. destruct b; cbn [snd]; intros Hi'; exists e; (do 3 (split; [done|])); (split; [|apply Hi']).
  - by apply (di_set w Hi).
  - cbn. rewrite map_app, elem_of_app. right. by left.
Qed.

(** C32: an accepted response. What the client takes from a response answers
    the query it sent: same identifier, same question whatever the case of the
    name, not truncated; the addresses are those of the records of the type
    asked for, in order, and their time to live is within the configured
    bounds, or the one for empty answers when there is none. *)
Theorem parse_response_sound `{W : DnsWire} opts data id qtype domain l t :
  parse_response opts data id qtype domain = Ok (l, t) ->
  exists msg, answers_query data id qtype domain msg /\
    ((msg_rcode msg = RCODE_NXDOMAIN /\ l = []) \/
     (msg_rcode msg = RCODE_NOERROR /\ l = omap (record_ip qtype) (default [] (msg_answer msg)))) /\
    (l = [] -> t = empty_ttl opts) /\
    (l <> [] -> Z.min (min_ttl opts) (max_ttl opts) <= t <= Z.max (min_ttl opts) (max_ttl opts)).
Proof.
  unfold parse_response. destruct (wire_parse data) as [msg|] eqn:Hp; cbn [ok_or res_bind]; [|done].
  destruct (Z.eqb_spec (msg_id msg) id) as [Hid|]; cbn [negb]; [|done].
  destruct (sole_question msg) as [[qname question_type]|] eqn:Hq; cbn [ok_or res_bind]; [|done].
  destruct (Z.eqb_spec question_type qtype) as [->|]; cbn [negb orb]; [|done].
  destruct (eq_ignore_ascii_case _ _) eqn:Hn; cbn [negb]; [|done]. destruct (msg_tc msg) eqn:Htc; [done|].
  assert (Ha : answers_query data id qtype domain msg).
  { split; [done|]. split; [done|]. split; [done|]. exists qname. split; [done|]. by apply bool_decide_eq_true in Hn. }
  destruct (Z.eqb_spec (msg_rcode msg) RCODE_NXDOMAIN) as [Hr|].
  { intros [= <- <-]. exists msg. split; [done|]. split; [by left|]. by split. }
  destruct (Z.eqb_spec (msg_rcode msg) RCODE_NOERROR) as [Hr|]; cbn [negb]; [|done].
  assert (Hc : match msg_answer msg with Some records => collect_answers qtype records [] (u32_max - 1) | None => ([], u32_max - 1) end =
    (omap (record_ip qtype) (default [] (msg_answer msg)),
     foldl Z.min (u32_max - 1) (map rec_ttl (List.filter (fun r => rec_rtype r =? qtype) (default [] (msg_answer msg)))))).
  { destruct (msg_answer msg); cbn [default]; [by rewrite collect_answers_spec|done]. }
  rewrite Hc. intros [= <- <-]. exists msg. split; [done|]. split; [by right|].
  destruct (omap _ _); [by split|]. split; [done|]. intros _. apply clamp_range. lia.
Qed.

(** The order of the addresses. A literal address is used as it is; a name
    with no address fails, even when its lookups did; any other name gives
    every address found, and none else, alternating between the families for
    as long as both have one, starting with the preferred family. *)
Theorem resolve_order opts host res_a res_aaaa shuffle4 shuffle6 :
  (forall l, shuffle4 l ≡ₚ l) -> (forall l, shuffle6 l ≡ₚ l) -> ip_from_str host = None ->
  let found (r : Res string (list IpAddr)) := match r with Ok l => l | _ => [] end in
  match resolve opts host res_a res_aaaa shuffle4 shuffle6 with
  | Ok l => l ≡ₚ found res_a ++ found res_aaaa /\ l <> [] /\
      exists p s, p ≡ₚ found (if prefer_ipv6 opts then res_aaaa else res_a) /\
        s ≡ₚ found (if prefer_ipv6 opts then res_a else res_aaaa) /\
        forall i, (i < length p)%nat -> (i < length s)%nat -> l !! (2 * i)%nat = p !! i /\ l !! (2 * i + 1)%nat = s !! i
  | Err _ => found res_a = [] /\ found res_aaaa = []
  | Panic => False
  end.
Proof.
  intros H4 H6 Hhost found. unfold resolve. rewrite Hhost. fold (found res_a). fold (found res_aaaa).
  assert (Hne : found res_a ++ found res_aaaa = [] \/
    match found res_a, found res_aaaa with [], [] => Err "DNS resolution failed: no A/AAAA records found"%string
    | _, _ => Ok (interleave_ips opts (shuffle4 (found res_a)) (shuffle6 (found res_aaaa))) end =
    Ok (interleave_ips opts (shuffle4 (found res_a)) (shuffle6 (found res_aaaa)))).
  { destruct (found res_a); [|by right]. destruct (found res_aaaa); [by left|by right]. }
  destruct Hne as [Hnil|Heq].
  { apply app_nil in Hnil as [-> ->]. done. }
  destruct (decide (found res_a ++ found res_aaaa = [])) as [Hnil|Hne]; [apply app_nil in Hnil as [-> ->]; done|].
  rewrite Heq. unfold interleave_ips. pose proof (H4 (found res_a)) as P4. pose proof (H6 (found res_aaaa)) as P6.
  assert (Hperm : forall p s, p ++ s ≡ₚ found res_a ++ found res_aaaa -> interleave p s ≡ₚ found res_a ++ found res_aaaa /\ interleave p s <> []).
  { intros p s Hps. pose proof (interleave_perm p s) as Hi. split; [by etrans|]. intros Hz. apply Hne. rewrite Hz, Hps in Hi.
    by apply Permutation_nil_l in Hi. }
  destruct (prefer_ipv6 opts).
  - destruct (Hperm (shuffle6 (found res_aaaa)) (shuffle4 (found res_a))) as [Hp Hn]; [by rewrite P4, P6, (Permutation_app_comm (found res_aaaa))|].
    split; [done|]. split; [done|]. eexists _, _. split; [exact P6|]. split; [exact P4|]. intros i. apply interleave_lookup.
  - destruct (Hperm (shuffle4 (found res_a)) (shuffle6 (found res_aaaa))) as [Hp Hn]; [by rewrite P4, P6|].
    split; [done|]. split; [done|]. eexists _, _. split; [exact P4|]. split; [exact P6|]. intros i. apply interleave_lookup.
Qed.

(** ** Concrete parameters *)

(** Messages with one record: identifier, response code, type, time to live,
    address, name. *)
#[export] Instance toy_wire : DnsWire := {|
  wire_build q := Ok (be_bytes 2 (q_id q) ++ [zb (q_rtype q)] ++ q_name q);
  wire_parse d :=
    if zlen d <? 12 then None
    else
      let rtype := be_val (slice 3 4 d) in
      Some (mkMessage (be_val (slice 0 2 d)) false (be_val (slice 2 3 d)) (Some (zdrop 12 d, rtype))
        (Some [mkRecord rtype (be_val (slice 4 8 d)) (Some (be_val (slice 8 12 d))) None]))
|}.

Definition toy_response : bytes := be_bytes 2 7 ++ be_bytes 1 0 ++ be_bytes 1 1 ++ be_bytes 4 5 ++ be_bytes 4 16909060 ++ str "Example.com.".

Example parse_response_sound_witness :
  exists msg, answers_query toy_response 7 RTYPE_A (str "example.com") msg /\
    ((msg_rcode msg = RCODE_NXDOMAIN /\ [V4 16909060] = []) \/
     (msg_rcode msg = RCODE_NOERROR /\ [V4 16909060] = omap (record_ip RTYPE_A) (default [] (msg_answer msg)))) /\
    ([V4 16909060] = [] -> 30 = empty_ttl default_options) /\
    ([V4 16909060] <> [] -> Z.min (min_ttl default_options) (max_ttl default_options) <= 30 <= Z.max (min_ttl default_options) (max_ttl default_options)).
Proof. apply (parse_response_sound default_options toy_response 7 RTYPE_A (str "example.com") [V4 16909060] 30). by vm_compute. Defined.

#[export] Instance ip_addr_eq_dec : EqDecision IpAddr.
Proof. solve_decision. Defined.

(** A cache that forgets nothing. *)
#[export] Instance toy_dns_cache : DnsCache := {|
  dcache := list (CacheKey * CacheEntry);
  dcache_new := [];
  dcache_get _ k c := snd <$> List.find (fun e => bool_decide (fst e = k)) c;
  dcache_insert _ k e c := (k, e) :: c
|}.

#[export] Instance toy_dns_cache_laws : DnsCacheLaws toy_dns_cache.
Proof.
  split; cbn; [done|]. intros _ _ k e k' c e'. case_bool_decide as Hk; [|by right]. cbn. intros [= <-]. by left.
Qed.

Definition toy_key : CacheKey := (str "example.com", RTYPE_A, None).

(** Resolved at 100 for 30 seconds, looked up at 150 while it is refreshed. *)
Definition toy_dns : DnsWorld :=
  snd (lookup_cached default_options 150 toy_key
        (snd (query_upstream_and_cache 100 toy_key (Ok ([V4 1], 30)) dns_start))).

Lemma toy_dns_steps : dns_steps default_options dns_start toy_dns.
Proof.
  eapply dns_snoc; [|apply (ds_lookup _ _ 150 toy_key)]. eapply dns_snoc; [|apply (ds_answer _ _ 100 toy_key (Ok ([V4 1], 30)))]. constructor.
Qed.

Example dns_cache_fresh_witness :
  NoDup (map snd (refreshes toy_dns)) /\
  exists e, (toy_key, e) ∈ resolved toy_dns /\ [V4 1] = ips e /\ ttl e <= saturating_sub 160 (created_at e) < as_u64 (ttl e + swr_ttl default_options) /\
    is_refreshing e ∈ map snd (refreshes toy_dns) /\ NoDup (map snd (refreshes toy_dns)).
Proof. exact (dns_cache_fresh toy_dns_cache_laws default_options toy_dns 160 toy_key toy_dns_steps). Defined.

Example happy_eyeballs_connects_witness :
  (length [Joined 0 false; Timer; Joined 0 true] + race_rank (Connected (V4 2)) <= 2 * length [V4 1; V4 2] + 1)%nat /\
  V4 2 ∈ [V4 1; V4 2].
Proof.
  destruct (happy_eyeballs_connects (fun ip => bool_decide (ip = V4 2)) [V4 1; V4 2] [Joined 0 false; Timer; Joined 0 true] (Connected (V4 2)))
    as (Hl & _ & Hin & _).
  - eapply race_cons; [|reflexivity|]; [by intros ? [= <-]|]. eapply race_cons; [done|reflexivity|].
    eapply race_cons; [|reflexivity|constructor]. by intros ? [= <-].
  - by split.
Defined.

Example resolve_order_witness :
  match resolve default_options (str "example.com") (Ok [V4 1; V4 2]) (Err "timeout"%string) (fun l => l) (fun l => l) with
  | Ok l => l ≡ₚ [V4 1; V4 2] ++ [] /\ l <> [] /\
      exists p s, p ≡ₚ [V4 1; V4 2] /\ s ≡ₚ [] /\
        forall i, (i < length p)%nat -> (i < length s)%nat -> l !! (2 * i)%nat = p !! i /\ l !! (2 * i + 1)%nat = s !! i
  | Err _ => [V4 1; V4 2] = [] /\ @nil IpAddr = []
  | Panic => False
  end.
Proof.
  apply (resolve_order default_options (str "example.com") (Ok [V4 1; V4 2]) (Err "timeout"%string) (fun l => l) (fun l => l)); [done|done|].
  by vm_compute.
Defined.
