(* ===== verification/DnsTransport.v ===== *)
(** * The DNS stream transport

    [src/dns/transport.rs]: queries that share one connection, matched with
    their answers by identifier. The senders, the actor that owns the
    connection and its reader are steps on a shared state; the connector, the
    draws and the bytes that arrive are in the events. *)

From S2P Require Import Prelude.

(** ** Identifiers *)

(** The [loop] of [assign_id_and_register]; [None] when the draws given here
    are used up. *)
Fixpoint pick_id (draws : list Z) (pending : gmap Z nat) : option Z :=
  match draws with
  | [] => None
  | candidate :: draws =>
      match pending !! candidate with
      | None => Some candidate
      | Some _ => pick_id draws pending
      end
  end.

(** The identifier, the query with it, and the map; [n] stands for the
    sender's channel. *)
Definition assign_id_and_register (draws : list Z) (data : bytes) (n : nat) (pending : gmap Z nat)
    : option (Z * bytes * gmap Z nat) :=
  id ← pick_id draws pending;
  Some (id, be_bytes 2 id ++ zdrop 2 data, <[id := n]> pending).

(** ** Frames *)

(** What the actor writes for a query: its length in 16 bits and the query. *)
Definition dns_frame (data : bytes) : bytes := be_bytes 2 (as_u16 (zlen data)) ++ data.

(** One round of [reader_loop] on the bytes that have arrived: [None] when it
    waits for more, otherwise the message, if it is not empty, and the rest. *)
Definition reader_round (buf : bytes) : option (option bytes * bytes) :=
  if zlen buf <? 2 then None
  else
    let msg_len := be_val (ztake 2 buf) in
    let rest := zdrop 2 buf in
    if msg_len =? 0 then Some (None, rest)
    else if zlen rest <? msg_len then None
    else Some (Some (ztake msg_len rest), zdrop msg_len rest).

(** ** The transport *)

(** The capacity of the channel to the actor. *)
Definition TRANSPORT_CHANNEL : nat := 32.

(** [waiting]: the identifier each sender without an answer has used;
    [entering]: the senders whose message is not in the channel yet, in the
    order in which they wait for room, with their message; [queue]: the
    messages in the channel; [serving]: the one the actor has received and
    connects for or writes; [conn]: the bytes that were written and that
    arrived on the connection, when there is one; [answers]: what senders were
    given. *)
Record StreamTransport : Type := mkTransport {
  pending : gmap Z nat;
  waiting : gmap nat Z;
  entering : list (nat * (bytes * Z));
  queue : list (bytes * Z);
  serving : option (bytes * Z);
  conn : option (bytes * bytes);
  answers : list (nat * Res string (bytes * Z))
}.

Definition transport_new : StreamTransport := mkTransport ∅ ∅ [] [] None None [].

(** Sender [n], registered under [id], is given [r]. *)
Definition give (id : Z) (n : nat) (r : Res string (bytes * Z)) (t : StreamTransport) : StreamTransport :=
  mkTransport (delete id (pending t)) (delete n (waiting t)) (entering t) (queue t) (serving t) (conn t) (answers t ++ [(n, r)]).

(** The sender behind an identifier is given [r]. *)
Definition answer (id : Z) (r : Res string bytes) (t : StreamTransport) : StreamTransport :=
  match pending t !! id with
  | Some n => give id n (let? d := r in Ok (d, id)) t
  | None => t
  end.

(** [drain]: everyone is given the error. *)
Definition drain (e : string) (t : StreamTransport) : StreamTransport :=
  foldl (fun t id => answer id (Err e) t) t (map fst (map_to_list (pending t))).

Definition set_channel (t : StreamTransport) (e : list (nat * (bytes * Z))) (q : list (bytes * Z)) (x : option (bytes * Z))
    : StreamTransport :=
  mkTransport (pending t) (waiting t) e q x (conn t) (answers t).
Definition set_conn (t : StreamTransport) (c : option (bytes * bytes)) : StreamTransport :=
  mkTransport (pending t) (waiting t) (entering t) (queue t) (serving t) c (answers t).
(** The actor is back at its [select!]. *)
Definition served (t : StreamTransport) : StreamTransport := set_channel t (entering t) (queue t) None.

(** A sender registers; its message enters the channel; the actor receives a
    message, connects for it if there is no connection, and writes it; bytes
    arrive, the reader takes a message, and it ends; the timeout of a sender
    runs out. *)
Inductive TransportEvent : Type :=
| TSend (n : nat) (draws : list Z) (data : bytes)
| TEnter (n : nat)
| TTake
| TConnect (connected : Res string unit)
| TWrite (written : bool)
| TArrive (b : bytes)
| TRead
| TReaderExit
| TTimeout (n : nat).

(** [None] when the event cannot happen. A place in the channel goes to the
    senders in the order in which they wait, and the timeout of a sender starts
    once its message is in the channel. The actor connects without a timeout
    of its own and writes under one. *)
Definition transport_step (ev : TransportEvent) (t : StreamTransport) : option StreamTransport :=
  match ev with
  | TSend n draws data =>
      match waiting t !! n, bool_decide (n ∈ map fst (answers t)) with
      | None, false =>
          '(id, data, p) ← assign_id_and_register draws data n (pending t);
          Some (mkTransport p (<[n := id]> (waiting t)) (entering t ++ [(n, (data, id))]) (queue t) (serving t) (conn t) (answers t))
      | _, _ => None
      end
  | TEnter n =>
      '(i, (_, message)) ← list_find (fun e => fst e = n) (entering t);
      if decide (i < TRANSPORT_CHANNEL - length (queue t))%nat
      then Some (set_channel t (delete i (entering t)) (queue t ++ [message]) (serving t))
      else None
  | TTake =>
      match serving t, queue t with
      | None, message :: q => Some (set_channel t (entering t) q (Some message))
      | _, _ => None
      end
  | TConnect connected =>
      match serving t, conn t with
      | Some (data, id), None =>
          match connected with
          | Ok _ => Some (set_conn t (Some ([], [])))
          | Err e => Some (answer id (Err (String.append "connect failed: " e)) (served t))
          | Panic => None
          end
      | _, _ => None
      end
  | TWrite written =>
      match serving t, conn t with
      | Some (data, id), Some (out, arrived) =>
          if written then Some (set_conn (served t) (Some (out ++ dns_frame data, arrived)))
          else Some (set_conn (drain "write failed, connection reset" (served t)) None)
      | _, _ => None
      end
  | TArrive b => match conn t with Some (out, arrived) => Some (set_conn t (Some (out, arrived ++ b))) | None => None end
  | TRead =>
      match conn t with
      | Some (out, arrived) =>
          '(msg, rest) ← reader_round arrived;
          let t := set_conn t (Some (out, rest)) in
          match msg with
          | Some buf => Some (if 2 <=? zlen buf then answer (be_val (ztake 2 buf)) (Ok buf) t else t)
          | None => Some t
          end
      | None => None
      end
  | TReaderExit =>
      match serving t, conn t with
      | None, Some _ => Some (drain "connection reset by remote" (set_conn t None))
      | _, _ => None
      end
  | TTimeout n =>
      match waiting t !! n, bool_decide (n ∈ map fst (entering t)) with
      | Some id, false => Some (give id n (Err "DNS query timeout"%string) t)
      | _, _ => None
      end
  end.

Fixpoint transport_run (evs : list TransportEvent) (t : StreamTransport) : option StreamTransport :=
  match evs with
  | [] => Some t
  | ev :: evs => t ← transport_step ev t; transport_run evs t
  end.

(** ** Datagrams *)

Definition UDP_RECV_BUF : Z := 2048.

(** [UdpTransport::send]: a fresh socket, a random identifier, and one answer,
    cut at the size of the buffer; [received] is what arrives in time. *)
Definition udp_send (id : Z) (data : bytes) (received : Res string bytes) : Res string (bytes * Z) * list bytes :=
  if zlen data <? 2 then (Panic, [])
  else
    let data := be_bytes 2 id ++ zdrop 2 data in
    ((let? buf := received in Ok (ztake UDP_RECV_BUF buf, id)), [data]).

(** ** Lemmas *)

(** An answer is the response with the sender's identifier, or an error. *)
Definition answer_ok (a : nat * Res string (bytes * Z)) : Prop :=
  match snd a with Ok (d, id) => 2 <= zlen d /\ be_val (ztake 2 d) = id | Err _ => True | Panic => False end.

(** The two maps are inverse to each other, and who has an answer does not
    wait and has no other. *)
Record transport_inv (t : StreamTransport) : Prop := {
  ti_inverse : forall id n, pending t !! id = Some n <-> waiting t !! n = Some id;
  ti_answered : forall n, n ∈ map fst (answers t) -> waiting t !! n = None;
  ti_once : NoDup (map fst (answers t));
  ti_ok : Forall answer_ok (answers t)
}.

Lemma transport_new_inv : transport_inv transport_new.
Proof. split; cbn; [done|set_solver|constructor|constructor]. Qed.

(** Taking [n] out of both maps with a result. *)
Lemma give_inv t id n r :
  transport_inv t -> pending t !! id = Some n -> answer_ok (n, r) -> transport_inv (give id n r t).
Proof.
  intros [Hi Ha Ho Hk] Hp Hr. pose proof (proj1 (Hi id n) Hp) as Hw. split; cbn.
  - intros i m. rewrite !lookup_delete_Some, Hi. split; intros [Hne Hm]; (split; [|done]); intros ->; apply Hne.
    + congruence.
    + apply Hi in Hm. congruence.
  - intros m. rewrite map_app, elem_of_app, lookup_delete_None. cbn. rewrite list_elem_of_singleton. intros [Hm| ->]; [right; by apply Ha|by left].
  - rewrite map_app. apply NoDup_app. split; [done|]. split; [|apply NoDup_singleton]. cbn. intros m Hm Hn.
    apply list_elem_of_singleton in Hn as ->. apply Ha in Hm. congruence.
  - apply Forall_app. split; [done|]. by constructor.
Qed.

Lemma set_conn_inv t c : transport_inv t -> transport_inv (set_conn t c).
Proof. by intros []. Qed.
Lemma set_channel_inv t e q x : transport_inv t -> transport_inv (set_channel t e q x).
Proof. by intros []. Qed.

Lemma answer_inv id r t :
  transport_inv t -> (forall d, r = Ok d -> 2 <= zlen d /\ be_val (ztake 2 d) = id) -> r <> Panic -> transport_inv (answer id r t).
Proof.
  intros Hi Hr Hp. unfold answer. destruct (pending t !! id) as [n|] eqn:Hn; [|done]. apply give_inv; [done..|].
  destruct r as [d|e|]; cbn; [by apply Hr|done|done].
Qed.

Lemma drain_inv e t : transport_inv t -> transport_inv (drain e t).
Proof.
  unfold drain. generalize (map fst (map_to_list (pending t))) as ids. intros ids. revert t.
  induction ids as [|id ids IH]; intros t Hi; [done|]. cbn [foldl]. apply IH. by apply answer_inv.
Qed.

Lemma pick_id_fresh draws p id : pick_id draws p = Some id -> p !! id = None.
Proof.
  induction draws as [|d draws IH]; cbn [pick_id]; [done|]. destruct (p !! d) eqn:Hd; [done|]. by intros [= <-].
Qed.

Lemma transport_step_inv ev t t' : transport_inv t -> transport_step ev t = Some t' -> transport_inv t'.
Proof.
  intros Hi. destruct ev as [n draws data|n| |connected|written|b| | |n]; cbn [transport_step].
  - destruct (waiting t !! n) eqn:Hw; [done|]. case_bool_decide as Hn; [done|]. unfold assign_id_and_register.
    destruct (pick_id draws (pending t)) as [id|] eqn:Hp; cbn [mbind option_bind]; [|done]. intros [= <-].
    apply pick_id_fresh in Hp. destruct Hi as [Hi Ha Ho Hk]. split; cbn; [|..|done|done].
    + intros i m. rewrite !lookup_insert_Some, Hi. split; (intros [[-> ->]|[Hne Hm]]; [by left|right; split; [|done]; intros ->]); [congruence|].
      apply Hi in Hm. congruence.
    + intros m Hm. rewrite lookup_insert_ne; [by apply Ha|]. intros ->. done.
  - destruct (list_find _ _) as [[i [m message]]|]; cbn [mbind option_bind]; [|done]. case_decide; [|done].
    intros [= <-]. by apply set_channel_inv.
  - destruct (serving t); [done|]. destruct (queue t); [done|]. intros [= <-]. by apply set_channel_inv.
  - destruct (serving t) as [[data id]|]; [|done]. destruct (conn t); [done|].
    destruct connected as [[]|e|]; [| |done]; intros [= <-]; [by apply set_conn_inv|]. apply answer_inv; [by apply set_channel_inv|done..].
  - destruct (serving t) as [[data id]|]; [|done]. destruct (conn t) as [[out arrived]|]; [|done].
    destruct written; intros [= <-]; apply set_conn_inv; [by apply set_channel_inv|by apply drain_inv, set_channel_inv].
  - destruct (conn t) as [[out arrived]|]; [|done]. intros [= <-]. by apply set_conn_inv.
  - destruct (conn t) as [[out arrived]|]; [|done]. destruct (reader_round arrived) as [[msg rest]|]; cbn [mbind option_bind]; [|done].
    destruct msg as [buf|]; intros [= <-]; [|by apply set_conn_inv]. destruct (Z.leb_spec 2 (zlen buf)); [|by apply set_conn_inv].
    apply answer_inv; [by apply set_conn_inv| |done]. by intros d [= <-].
  - destruct (serving t); [done|]. destruct (conn t); [|done]. intros [= <-]. by apply drain_inv, set_conn_inv.
  - destruct (waiting t !! n) as [id|] eqn:Hw; [|done]. case_bool_decide; [done|]. intros [= <-].
    apply give_inv; [done|by apply (ti_inverse t Hi)|done].
Qed.

Lemma be_val_ztake2 z l : 0 <= z < 65536 -> be_val (ztake 2 (be_bytes 2 z ++ l)) = z.
Proof. intros Hz. rewrite ztake_app_exact by (by rewrite zlen_be_bytes). by apply (be_val_round 2). Qed.

(** ** Properties *)

(** Queries on a shared connection. Whatever the order of sends, writes,
    arrivals, failures and timeouts, a sender is answered at most once, a
    sender that was answered waits no longer, no two senders that wait share
    an identifier, and a response goes only to the sender whose identifier it
    carries. *)
Theorem transport_matches evs t :
  transport_run evs transport_new = Some t ->
  NoDup (map fst (answers t)) /\
  (forall n, n ∈ map fst (answers t) -> waiting t !! n = None) /\
  (forall n m id, waiting t !! n = Some id -> waiting t !! m = Some id -> n = m) /\
  (forall n d id, (n, Ok (d, id)) ∈ answers t -> be_val (ztake 2 d) = id).
Proof.
  intros Hr. assert (Hrun : forall evs t0, transport_inv t0 -> transport_run evs t0 = Some t -> transport_inv t).
  { clear. intros evs. induction evs as [|ev evs IH]; intros t0 Hi; cbn [transport_run]; [by intros [= <-]|].
    destruct (transport_step ev t0) as [t1|] eqn:Hs; cbn [mbind option_bind]; [|done]. apply IH. by eapply transport_step_inv. }
  destruct (Hrun evs _ transport_new_inv Hr) as [Hi Ha Ho Hk]. split; [done|]. split; [done|]. split.
  - intros n m id Hn Hm. apply Hi in Hn, Hm. congruence.
  - intros n d id Hin. rewrite Forall_forall in Hk. by destruct (Hk _ Hin).
Qed.

(** The reader finds the messages the peer framed as the actor frames its
    own, whatever follows them. *)
Theorem dns_frame_roundtrip data rest :
  data <> [] -> zlen data < u16_max ->
  reader_round (dns_frame data ++ rest) = Some (Some data, rest).
Proof.
  intros Hne Hl. unfold dns_frame. assert (0 < zlen data) by (destruct data; [done|zl]). rewrite as_u16_small by lia.
  unfold reader_round. rewrite <- app_assoc, be_val_ztake2 by (unfold u16_max in Hl; lia).
  rewrite zdrop_app_exact by (by rewrite zlen_be_bytes). pose proof (zlen_nonneg rest).
  destruct (Z.ltb_spec (zlen (be_bytes 2 (zlen data) ++ data ++ rest)) 2) as [Hs|_]; [rewrite !zlen_app, zlen_be_bytes in Hs; lia|].
  destruct (Z.eqb_spec (zlen data) 0); [lia|]. destruct (Z.ltb_spec (zlen (data ++ rest)) (zlen data)) as [Hs|_]; [rewrite zlen_app in Hs; lia|].
  by rewrite ztake_app_exact, zdrop_app_exact.
Qed.

(** Two queries answered in the other order. *)
Definition two_queries : list TransportEvent :=
  [TSend 0 [7] (zrep 12 Byte.x00); TEnter 0; TTake; TConnect (Ok tt); TWrite true; TSend 1 [7; 9] (zrep 12 Byte.x00); TEnter 1; TTake;
   TWrite true; TArrive (dns_frame (be_bytes 2 9 ++ str "b") ++ dns_frame (be_bytes 2 7 ++ str "a")); TRead; TRead].

Example transport_matches_witness :
  exists t, transport_run two_queries transport_new = Some t /\
    answers t = [(1%nat, Ok (be_bytes 2 9 ++ str "b", 9)); (0%nat, Ok (be_bytes 2 7 ++ str "a", 7))] /\
    NoDup (map fst (answers t)).
Proof.
  eexists. split; [by vm_compute|]. split; [by vm_compute|].
  apply (transport_matches two_queries). by vm_compute.
Defined.

(** A datagram is the query under its identifier, of the same length. *)
Lemma udp_query id data received r sent :
  0 <= id < u16_max -> 2 <= zlen data -> udp_send id data received = (r, sent) ->
  exists q, sent = [q] /\ be_val (ztake 2 q) = id /\ zdrop 2 q = zdrop 2 data /\ zlen q = zlen data /\
    forall resp i, r = Ok (resp, i) -> i = id /\ zlen resp <= UDP_RECV_BUF.
Proof.
  intros Hid Hl. unfold udp_send. destruct (Z.ltb_spec (zlen data) 2); [lia|]. intros [= <- <-].
  exists (be_bytes 2 id ++ zdrop 2 data). split; [done|]. split; [by apply be_val_ztake2|]. split; [by rewrite zdrop_app_exact by (by rewrite zlen_be_bytes)|].
  split; [zl|]. intros resp i (b & _ & [= <- <-])%res_bind_Ok. split; [done|]. rewrite zlen_ztake. unfold UDP_RECV_BUF. lia.
Qed.
