(* ===== verification/Pool.v ===== *)
(** * The buffer pool

    [src/shaper/bufpool.rs]: the free buffers a thread keeps for the frames of
    the shaper. A buffer is a capacity, as it is always empty when it is free;
    the capacity a fresh allocation gets is an argument. *)

From S2P Require Import Prelude.

Definition MAX_FREE : Z := 64.
Definition MAX_BUFFER : Z := 4 * 1024 * 1024.
Definition MAX_BYTES : Z := 16 * 1024 * 1024.

Record Free : Type := mkFree { bufs : list Z; free_bytes : Z }.

Definition Free_new : Free := mkFree [] 0.

(** The loop of [take]: the index of the best buffer among the first [i] and
    those of [rest]. *)
Fixpoint best_fit (all rest : list Z) (i : nat) (min_capacity : Z) (best : option nat) : option nat :=
  match rest with
  | [] => best
  | cap :: rest =>
      let best :=
        if cap <? min_capacity then best
        else match best with
             | None => Some i
             | Some b => match all !! b with Some c => if cap <? c then Some i else best | None => best end
             end in
      best_fit all rest (S i) min_capacity best
  end.

(** The capacity of the buffer, and the pool; [fresh] is what
    [Vec::with_capacity] allocates for a request. *)
Definition pool_take (fresh : Z -> Z) (min_capacity : Z) (free : Free) : Z * Free :=
  match best_fit (bufs free) (bufs free) 0 min_capacity None with
  | Some idx =>
      match bufs free !! idx with
      | Some cap => (cap, mkFree (swap_remove idx (bufs free)) (free_bytes free - cap))
      | None => (fresh min_capacity, free)
      end
  | None => (fresh min_capacity, free)
  end.

Definition pool_put (cap : Z) (free : Free) : Free :=
  if negb ((1024 <=? cap) && (cap <=? MAX_BUFFER)) then free
  else if (MAX_FREE <=? zlen (bufs free)) || (MAX_BYTES <? free_bytes free + cap) then free
  else mkFree (bufs free ++ [cap]) (free_bytes free + cap).

(** ** Specification *)

Definition total (l : list Z) : Z := foldr Z.add 0 l.

(** The pool is as the constants say, and [bytes] counts its buffers. *)
Record pool_wf (free : Free) : Prop := {
  pw_count : zlen (bufs free) <= MAX_FREE;
  pw_bytes : free_bytes free = total (bufs free);
  pw_limit : free_bytes free <= MAX_BYTES;
  pw_caps : Forall (fun c => 1024 <= c <= MAX_BUFFER) (bufs free)
}.

Inductive PoolOp : Type := PTake (min_capacity : Z) | PPut (cap : Z).
Definition pool_run (fresh : Z -> Z) (ops : list PoolOp) (free : Free) : Free :=
  foldl (fun free op => match op with PTake m => snd (pool_take fresh m free) | PPut c => pool_put c free end) free ops.

(** ** Lemmas *)

Lemma total_app a b : total (a ++ b) = total a + total b.
Proof. induction a as [|x a IH]; cbn; [done|]. unfold total in *. lia. Qed.

Lemma total_perm a b : a ≡ₚ b -> total a = total b.
Proof. induction 1; cbn; unfold total in *; lia. Qed.

(** The best buffer so far is big enough and no bigger than any other that is. *)
Definition best_ok (seen : list Z) (m : Z) (best : option nat) : Prop :=
  match best with
  | Some b => exists c, seen !! b = Some c /\ m <= c /\ forall d, d ∈ seen -> m <= d -> c <= d
  | None => forall d, d ∈ seen -> d < m
  end.

Lemma best_fit_ok all m rest : forall seen best,
  all = seen ++ rest -> best_ok seen m best -> best_ok all m (best_fit all rest (length seen) m best).
Proof.
  induction rest as [|cap rest IH]; intros seen best Ha Hb; cbn [best_fit].
  { rewrite app_nil_r in Ha. by subst. }
  replace (S (length seen)) with (length (seen ++ [cap])) by (rewrite length_app; cbn; lia).
  apply IH; [by rewrite <- app_assoc|]. destruct (Z.ltb_spec cap m) as [Hlt|Hge].
  - destruct best as [b|]; cbn in *.
    + destruct Hb as (c & Hc & Hm & Hmin). exists c. split; [by apply lookup_app_l_Some|]. split; [done|].
      intros d [Hd|Hd]%elem_of_app Hmd; [by apply Hmin|]. apply list_elem_of_singleton in Hd as ->. lia.
    + intros d [Hd|Hd]%elem_of_app; [by apply Hb|]. by apply list_elem_of_singleton in Hd as ->.
  - destruct best as [b|]; cbn [best_ok] in *.
    + destruct Hb as (c & Hc & Hm & Hmin). rewrite Ha, (lookup_app_l_Some _ _ _ _ Hc).
      destruct (Z.ltb_spec cap c) as [Hlc|Hgc]; cbn [best_ok].
      * exists cap. rewrite lookup_app_r, Nat.sub_diag by done. split; [done|]. split; [done|].
        intros d [Hd|Hd]%elem_of_app Hmd; [specialize (Hmin d Hd Hmd); lia|]. apply list_elem_of_singleton in Hd as ->. lia.
      * exists c. split; [by apply lookup_app_l_Some|]. split; [done|].
        intros d [Hd|Hd]%elem_of_app Hmd; [by apply Hmin|]. apply list_elem_of_singleton in Hd as ->. lia.
    + exists cap. rewrite lookup_app_r, Nat.sub_diag by done. split; [done|]. split; [done|].
      intros d [Hd|Hd]%elem_of_app Hmd; [specialize (Hb d Hd); lia|]. apply list_elem_of_singleton in Hd as ->. lia.
Qed.

Lemma pool_take_cases fresh m free :
  (exists c, c ∈ bufs free /\ m <= c /\ (forall d, d ∈ bufs free -> m <= d -> c <= d) /\
     exists free', pool_take fresh m free = (c, free') /\ bufs free ≡ₚ c :: bufs free' /\ free_bytes free' = free_bytes free - c) \/
  ((forall d, d ∈ bufs free -> d < m) /\ pool_take fresh m free = (fresh m, free)).
Proof.
  pose proof (best_fit_ok (bufs free) m (bufs free) [] None eq_refl) as H. cbn in H. unfold pool_take.
  destruct (best_fit _ _ 0 m None) as [b|] eqn:Hb; cbn [best_ok] in H.
  - left. destruct H as (c & Hc & Hm & Hmin); [by intros d []%not_elem_of_nil|]. exists c. split; [by eapply list_elem_of_lookup_2|].
    split; [done|]. split; [done|]. rewrite Hc. eexists. split; [done|]. cbn. split; [symmetry; by apply swap_remove_perm|done].
  - right. split; [|done]. apply H. by intros d []%not_elem_of_nil.
Qed.

Lemma total_nonneg l : Forall (fun c => 1024 <= c <= MAX_BUFFER) l -> 0 <= total l.
Proof. induction 1; cbn; unfold total in *; lia. Qed.

Lemma pool_take_wf fresh m free : pool_wf free -> pool_wf (snd (pool_take fresh m free)).
Proof.
  intros [Hc Hb Hl Hp]. destruct (pool_take_cases fresh m free) as [(c & Hin & Hm & _ & free' & -> & Hperm & Hbytes)|[_ ->]]; [|by split].
  pose proof (total_perm _ _ Hperm) as Ht. cbn in Ht. fold (total (bufs free')) in Ht.
  rewrite Hperm in Hp. apply Forall_cons in Hp as [Hcap Hp]. apply Permutation_length in Hperm. cbn in Hperm.
  split; cbn; [unfold zlen in *; lia|lia|lia|done].
Qed.

Lemma pool_put_wf c free : pool_wf free -> pool_wf (pool_put c free).
Proof.
  intros [Hc Hb Hl Hp]. unfold pool_put. destruct (_ && _) eqn:Hr; cbn [negb]; [|by split]. apply andb_true_iff in Hr as [H1%Z.leb_le H2%Z.leb_le].
  destruct (_ || _) eqn:Hfull; [by split|]. apply orb_false_iff in Hfull as [H3%Z.leb_gt H4%Z.ltb_ge].
  split; cbn; [zl|rewrite total_app; cbn; lia|lia|]. apply Forall_app. split; [done|]. by repeat constructor.
Qed.

(** ** Properties *)

(** C33: the pool is well formed and fits. Whatever the sequence of requests and
    returns, the pool holds at most 64 buffers of 1 KiB to 4 MiB, their sizes
    add up to its count and to at most 16 MiB; a request is given a buffer that
    is large enough, and from the pool the smallest such one, which leaves the
    pool, while the other buffers stay. *)
Theorem pool_well_formed fresh ops m :
  (forall n, n <= fresh n) ->
  let free := pool_run fresh ops Free_new in
  pool_wf free /\
  let '(cap, free') := pool_take fresh m free in
  m <= cap /\ pool_wf free' /\
  ((bufs free ≡ₚ cap :: bufs free' /\ forall d, d ∈ bufs free -> m <= d -> cap <= d) \/
   (free' = free /\ cap = fresh m /\ forall d, d ∈ bufs free -> d < m)).
Proof.
  intros Hf free.
  assert (Hw : forall ops f, pool_wf f -> pool_wf (pool_run fresh ops f)).
  { clear. induction ops as [|[n|c] ops IH]; intros f Hf; [done|..]; cbn; apply IH; [by apply pool_take_wf|by apply pool_put_wf]. }
  assert (Hfree : pool_wf free) by (apply Hw; by split). split; [done|].
  pose proof (pool_take_wf fresh m free Hfree) as Hwf.
  destruct (pool_take_cases fresh m free) as [(c & Hin & Hm & Hmin & free' & Ht & Hperm & _)|[Hnone Ht]]; rewrite Ht in *; cbn [snd] in Hwf.
  - split; [done|]. split; [done|]. by left.
  - split; [apply Hf|]. split; [done|]. by right.
Qed.

Example pool_well_formed_witness :
  let free := pool_run (fun n => n) [PPut 1048576; PPut 4096; PTake 100; PPut 512; PPut 8192] Free_new in
  pool_wf free /\
  let '(cap, free') := pool_take (fun n => n) 2048 free in
  2048 <= cap /\ pool_wf free' /\
  ((bufs free ≡ₚ cap :: bufs free' /\ forall d, d ∈ bufs free -> 2048 <= d -> cap <= d) \/
   (free' = free /\ cap = 2048 /\ forall d, d ∈ bufs free -> d < 2048)).
Proof. apply (pool_well_formed (fun n => n) [PPut 1048576; PPut 4096; PTake 100; PPut 512; PPut 8192] 2048). by intros n. Defined.

(** The tests of the source: the smallest buffer that fits is taken, one too
    large is not kept. *)
Example pool_examples :
  fst (pool_take (fun n => n) 2048 (pool_run (fun n => n) [PPut 1048576; PPut 4096] Free_new)) = 4096 /\
  pool_put (MAX_BUFFER + 1) Free_new = Free_new.
Proof. by vm_compute. Qed.
