(* ===== verification/Warp.v ===== *)
(** * The WARP client's choices

    [src/warp/mod.rs] and the text helpers of [src/warp/register.rs]: which
    targets do not go through WARP, which endpoint is used, how a tunnel is
    dialled over a shared connection, and the small formats of the
    registration. Networks ([ip_network]) and the printed form of an address
    are parameters; what connecting and opening a tunnel give is a script. *)

From S2P Require Import Prelude Frame Text Net.

(** ** Addresses *)

(** The octets of an IPv4 address. *)
Definition octet (i a : Z) : Z := (a / 2 ^ (8 * (3 - i))) mod 256.

(** [Ipv4Addr]'s classes, as the standard library defines them. *)
Definition v4_is_loopback (a : Z) : bool := octet 0 a =? 127.
Definition v4_is_private (a : Z) : bool :=
  (octet 0 a =? 10) || ((octet 0 a =? 172) && (16 <=? octet 1 a) && (octet 1 a <=? 31)) ||
  ((octet 0 a =? 192) && (octet 1 a =? 168)).
Definition v4_is_link_local (a : Z) : bool := (octet 0 a =? 169) && (octet 1 a =? 254).
Definition v4_is_broadcast (a : Z) : bool := a =? 2 ^ 32 - 1.
Definition v4_is_unspecified (a : Z) : bool := a =? 0.
Definition v4_is_multicast (a : Z) : bool := (224 <=? octet 0 a) && (octet 0 a <=? 239).
Definition v4_is_documentation (a : Z) : bool :=
  ((octet 0 a =? 192) && (octet 1 a =? 0) && (octet 2 a =? 2)) ||
  ((octet 0 a =? 198) && (octet 1 a =? 51) && (octet 2 a =? 100)) ||
  ((octet 0 a =? 203) && (octet 1 a =? 0) && (octet 2 a =? 113)).

(** [Ipv6Addr]'s. *)
Definition v6_is_loopback (a : Z) : bool := a =? 1.
Definition v6_is_unspecified (a : Z) : bool := a =? 0.
Definition v6_is_unique_local (a : Z) : bool := Z.land (a / 2 ^ 112) 0xfe00 =? 0xfc00.
Definition v6_is_unicast_link_local (a : Z) : bool := Z.land (a / 2 ^ 112) 0xffc0 =? 0xfe80.
Definition v6_is_multicast (a : Z) : bool := Z.land (a / 2 ^ 112) 0xff00 =? 0xff00.
Definition to_ipv4_mapped (a : Z) : option Z := if a / 2 ^ 32 =? 0xffff then Some (a mod 2 ^ 32) else None.

Definition is_private_v4 (ip : Z) : bool :=
  v4_is_loopback ip || v4_is_private ip || v4_is_link_local ip || v4_is_broadcast ip || v4_is_unspecified ip ||
  v4_is_multicast ip || v4_is_documentation ip ||
  ((octet 0 ip =? 100) && ((64 <=? octet 1 ip) && (octet 1 ip <? 128))).

(** ** What does not go through WARP *)

(** [ip_network::IpNetwork]: parsing and containment. *)
Class IpNetworks := {
  ip_net : Type;
  net_from_str : bytes -> option ip_net;
  net_contains : ip_net -> IpAddr -> bool
}.

Record WarpSection : Type := mkWarpSection {
  ws_enabled : bool;
  ws_config_path : option bytes;
  ws_endpoint : option bytes;
  ws_endpoint_v6 : option bytes;
  ws_port : option Z;
  ws_sni : option bytes;
  ws_connect_timeout_secs : option Z;
  ws_keepalive_secs : option Z;
  ws_idle_timeout_secs : option Z;
  ws_register_model : option bytes;
  ws_register_locale : option bytes;
  ws_insecure_skip_verify : bool;
  ws_bypass_private : bool;
  ws_bypass_cidrs : list bytes;
  ws_bypass_suffixes : list bytes
}.

(** [trim_start_matches] and [trim_end_matches] for one character. *)
Fixpoint trim_start_char (c : byte) (l : bytes) : bytes :=
  match l with b :: r => if decide (b = c) then trim_start_char c r else l | [] => [] end.
Definition trim_end_char (c : byte) (l : bytes) : bytes := reverse (trim_start_char c (reverse l)).

Section bypass.
Context `{N : IpNetworks}.

Record Bypass : Type := mkBypass { private : bool; networks : list ip_net; suffixes : list bytes }.

Fixpoint parse_networks (cidrs : list bytes) (acc : list ip_net) : Res string (list ip_net) :=
  match cidrs with
  | [] => Ok acc
  | cidr :: cidrs =>
      let? network := ok_or (net_from_str cidr) "warp: invalid bypass_cidrs entry"%string in
      parse_networks cidrs (acc ++ [network])
  end.

Definition clean_suffixes (l : list bytes) : list bytes :=
  List.filter (fun s => negb (bool_decide (s = []))) (map (fun s => to_ascii_lowercase (trim_start_char Byte.x2e s)) l).

Definition Bypass_new (section : WarpSection) : Res string Bypass :=
  let? networks := parse_networks (ws_bypass_cidrs section) [] in
  Ok (mkBypass (ws_bypass_private section) networks (clean_suffixes (ws_bypass_suffixes section))).

Definition bare_host (host : bytes) : bytes := trim_end_char Byte.x5d (trim_start_char Byte.x5b host).

Definition suffix_matches (lower s : bytes) : bool :=
  bool_decide (lower = s) ||
  match strip_suffix s lower with
  | Some prefix => bool_decide (last prefix = Some Byte.x2e)
  | None => false
  end.

Definition name_is_direct (this : Bypass) (host : bytes) : bool :=
  let bare := bare_host host in
  if eq_ignore_ascii_case bare (str "localhost") then true
  else
    let lower := to_ascii_lowercase bare in
    existsb (suffix_matches lower) (suffixes this).

Definition bypass_contains (this : Bypass) (ip : IpAddr) : bool :=
  if existsb (fun n => net_contains n ip) (networks this) then true
  else if negb (private this) then false
  else
    match ip with
    | V4 v4 => is_private_v4 v4
    | V6 v6 =>
        match to_ipv4_mapped v6 with
        | Some v4 => is_private_v4 v4
        | None =>
            v6_is_loopback v6 || v6_is_unspecified v6 || v6_is_unique_local v6 || v6_is_unicast_link_local v6 ||
            v6_is_multicast v6
        end
    end.
End bypass.

(** ** The endpoint *)

Definition FALLBACK_ENDPOINT : bytes := str "162.159.192.1".

(** The credentials of a registered device. *)
Record WarpCredentials : Type := mkCreds {
  cr_id : bytes;
  cr_access_token : bytes;
  cr_private_key : bytes;
  cr_endpoint_pub_key : bytes;
  cr_ipv4 : bytes;
  cr_ipv6 : bytes;
  cr_endpoint_v4 : bytes;
  cr_endpoint_v6 : bytes
}.

Definition resolve_endpoint (section : WarpSection) (creds : WarpCredentials) : Res string IpAddr :=
  let nonempty (o : option bytes) := match o with Some [] => None | _ => o end in
  let or_else (a b : option bytes) := match a with Some _ => a | None => b end in
  let raw :=
    default FALLBACK_ENDPOINT
      (or_else (or_else (nonempty (or_else (ws_endpoint_v6 section) (ws_endpoint section)))
                  (nonempty (Some (cr_endpoint_v4 creds))))
         (nonempty (Some (cr_endpoint_v6 creds)))) in
  ok_or (ip_from_str (bare_host raw)) "warp: invalid endpoint address"%string.

(** [show] prints an IPv6 address. *)
Definition authority (show : Z -> bytes) (ip : IpAddr) (port : Z) : bytes :=
  match ip with
  | V4 v4 => ipv4_text v4 ++ [Byte.x3a] ++ dec_text port
  | V6 v6 => [Byte.x5b] ++ show v6 ++ [Byte.x5d; Byte.x3a] ++ dec_text port
  end.

(** ** Dialling *)

(** A connection and whether it still works, as far as this end knows. *)
Record WarpState : Type := mkWarp { cached : option nat; closed : list nat; established : list nat }.

(** What happens in one attempt: the cached connection is usable when it is
    looked up, and again under the lock; establishing one gives a connection
    or an error; opening the tunnel succeeds or not; the connection is usable
    after a failure; the connection that is cached by then, when another task
    has replaced it. *)
Record DialEnv : Type := mkDialEnv {
  de_usable : bool;
  de_cached_then : option nat;
  de_usable_then : bool;
  de_establish : Res string nat;
  de_open : Res string nat;
  de_usable_after : bool;
  de_cached_after : option nat
}.

Definition connection (env : DialEnv) (w : WarpState) : Res string nat * WarpState :=
  let use (usable : bool) (c : option nat) := match c with Some conn => if usable then Some conn else None | None => None end in
  match use (de_usable env) (cached w) with
  | Some conn => (Ok conn, w)
  | None =>
      let w := mkWarp (de_cached_then env) (closed w) (established w) in
      match use (de_usable_then env) (cached w) with
      | Some conn => (Ok conn, w)
      | None =>
          match de_establish env with
          | Ok conn => (Ok conn, mkWarp (Some conn) (closed w) (established w ++ [conn]))
          | Err e => (Err e, w)
          | Panic => (Panic, w)
          end
      end
  end.

Definition invalidate (stale : nat) (w : WarpState) : WarpState :=
  match cached w with
  | Some current => if decide (current = stale) then mkWarp None (closed w ++ [stale]) (established w) else w
  | None => w
  end.

(** The [for attempt in 0..2] loop; [attempts] are the rounds left. *)
Fixpoint dial_loop (attempts : list DialEnv) (last_error : option string) (w : WarpState) : Res string nat * WarpState :=
  match attempts with
  | [] => (Err (default "warp: CONNECT failed"%string last_error), w)
  | env :: attempts =>
      match connection env w with
      | (Ok conn, w) =>
          match de_open env with
          | Ok stream => (Ok stream, w)
          | Err e =>
              let stale := negb (de_usable_after env) in
              let w := mkWarp (de_cached_after env) (closed w) (established w) in
              let w := if stale then invalidate conn w else w in
              if negb stale then (Err e, w) else dial_loop attempts (Some e) w
          | Panic => (Panic, w)
          end
      | (Err e, w) => (Err e, w)
      | (Panic, w) => (Panic, w)
      end
  end.

Definition dial (first second : DialEnv) (w : WarpState) : Res string nat * WarpState := dial_loop [first; second] None w.

(** ** Registration formats *)

Definition strip_port (addr : bytes) : bytes :=
  let addr := str_trim addr in
  let bracketed :=
    rest ← strip_prefix (str "[") addr;
    '(host, _) ← split_once Byte.x5d rest;
    Some ([Byte.x5b] ++ host ++ [Byte.x5d]) in
  match bracketed with
  | Some r => r
  | None =>
      match rsplit_once Byte.x3a addr with
      | Some (host, port) =>
          if negb (bool_decide (Byte.x3a ∈ host)) && negb (bool_decide (port = [])) && forallb is_digit port then host else addr
      | None => addr
      end
  end.

Definition hex_digit (n : Z) : byte := if n <? 10 then zb (48 + n) else zb (97 + (n - 10)).
Fixpoint hex_lower (l : bytes) : bytes :=
  match l with
  | [] => []
  | b :: l => hex_digit (bz b / 16) :: hex_digit (bz b mod 16) :: hex_lower l
  end.

(** Year, month, day, hour, minute, second; Rust's [/] on what is not
    negative. *)
Definition civil_from_unix (secs : Z) : Z * Z * Z * Z * Z * Z :=
  let days := secs / 86400 in
  let rem := secs mod 86400 in
  let z := days + 719468 in
  let era := z / 146097 in
  let doe := z mod 146097 in
  let yoe := (doe - doe / 1460 + doe / 36524 - doe / 146096) / 365 in
  let y := yoe + era * 400 in
  let doy := doe - (365 * yoe + yoe / 4 - yoe / 100) in
  let mp := (5 * doy + 2) / 153 in
  let d := doy - (153 * mp + 2) / 5 + 1 in
  let m := if mp <? 10 then mp + 3 else mp - 9 in
  let y := if m <=? 2 then y + 1 else y in
  (y, m, d, rem / 3600, rem mod 3600 / 60, rem mod 60).

(** ** Specification *)

(** An IPv4 network by its address and prefix length. *)
Definition in_v4 (net len a : Z) : bool := a / 2 ^ (32 - len) =? net / 2 ^ (32 - len).

(** The networks the code counts as private. *)
Definition private_networks : list (Z * Z) :=
  [(127 * 2 ^ 24, 8); (10 * 2 ^ 24, 8); (172 * 2 ^ 24 + 16 * 2 ^ 16, 12); (192 * 2 ^ 24 + 168 * 2 ^ 16, 16);
   (169 * 2 ^ 24 + 254 * 2 ^ 16, 16); (2 ^ 32 - 1, 32); (0, 32); (224 * 2 ^ 24, 4);
   (192 * 2 ^ 24 + 2 * 2 ^ 8, 24); (198 * 2 ^ 24 + 51 * 2 ^ 16 + 100 * 2 ^ 8, 24); (203 * 2 ^ 24 + 113 * 2 ^ 8, 24);
   (100 * 2 ^ 24 + 64 * 2 ^ 16, 10)].

(** The Gregorian calendar: the day after a date. *)
Definition leap_year (y : Z) : bool := (y mod 4 =? 0) && (negb (y mod 100 =? 0) || (y mod 400 =? 0)).

Definition days_in_month (y m : Z) : Z :=
  if m =? 2 then (if leap_year y then 29 else 28)
  else if (m =? 4) || (m =? 6) || (m =? 9) || (m =? 11) then 30 else 31.

Definition next_date (date : Z * Z * Z) : Z * Z * Z :=
  let '(y, m, d) := date in
  if d <? days_in_month y m then (y, m, d + 1) else if m <? 12 then (y, m + 1, 1) else (y + 1, 1, 1).

Definition date_of (secs : Z) : Z * Z * Z := let '(y, m, d, _, _, _) := civil_from_unix secs in (y, m, d).
Definition time_of (secs : Z) : Z * Z * Z := let '(_, _, _, h, mi, s) := civil_from_unix secs in (h, mi, s).

(** ** Lemmas *)

(** *** Private addresses *)

Definition v4_range (a : Z) : Prop := 0 <= a < 2 ^ 32.

(** Classes by octets against networks: linear arithmetic over the quotients. *)
Ltac v4_class :=
  intros a Ha; apply eq_iff_eq_true; cbv [v4_range in_v4 v4_is_loopback v4_is_private v4_is_link_local v4_is_broadcast v4_is_unspecified
    v4_is_multicast v4_is_documentation octet] in *;
  rewrite ?orb_true_iff, ?andb_true_iff, ?Z.eqb_eq, ?Z.leb_le, ?Z.ltb_lt;
  repeat match goal with |- context [2 ^ ?e] => let v := eval vm_compute in (2 ^ e) in change (2 ^ e) with v end;
  repeat match goal with |- context [?x / ?y = ?p / ?q] => let v := eval vm_compute in (p / q) in change (p / q) with v end;
  Z.to_euclidean_division_equations; lia.

Lemma loopback_net : forall a, v4_range a -> v4_is_loopback a = in_v4 (127 * 2 ^ 24) 8 a.
Proof. v4_class. Qed.
Lemma private_net : forall a, v4_range a -> v4_is_private a =
  in_v4 (10 * 2 ^ 24) 8 a || in_v4 (172 * 2 ^ 24 + 16 * 2 ^ 16) 12 a || in_v4 (192 * 2 ^ 24 + 168 * 2 ^ 16) 16 a.
Proof. v4_class. Qed.
Lemma link_local_net : forall a, v4_range a -> v4_is_link_local a = in_v4 (169 * 2 ^ 24 + 254 * 2 ^ 16) 16 a.
Proof. v4_class. Qed.
Lemma multicast_net : forall a, v4_range a -> v4_is_multicast a = in_v4 (224 * 2 ^ 24) 4 a.
Proof. v4_class. Qed.
Lemma broadcast_net : forall a, v4_range a -> v4_is_broadcast a = in_v4 (2 ^ 32 - 1) 32 a.
Proof. v4_class. Qed.
Lemma unspecified_net : forall a, v4_range a -> v4_is_unspecified a = in_v4 0 32 a.
Proof. v4_class. Qed.
Lemma documentation_net : forall a, v4_range a -> v4_is_documentation a =
  in_v4 (192 * 2 ^ 24 + 2 * 2 ^ 8) 24 a || in_v4 (198 * 2 ^ 24 + 51 * 2 ^ 16 + 100 * 2 ^ 8) 24 a || in_v4 (203 * 2 ^ 24 + 113 * 2 ^ 8) 24 a.
Proof. v4_class. Qed.
Lemma shared_net : forall a, v4_range a -> ((octet 0 a =? 100) && ((64 <=? octet 1 a) && (octet 1 a <? 128))) = in_v4 (100 * 2 ^ 24 + 64 * 2 ^ 16) 10 a.
Proof. v4_class. Qed.

Lemma is_private_v4_eq a : v4_range a -> is_private_v4 a = existsb (fun '(net, len) => in_v4 net len a) private_networks.
Proof.
  intros Ha. unfold is_private_v4.
  rewrite loopback_net, private_net, link_local_net, broadcast_net, unspecified_net, multicast_net, documentation_net, shared_net by done.
  cbn [existsb private_networks]. rewrite orb_false_r, !orb_assoc. done.
Qed.

(** *** Names *)

Fixpoint unsplit (c : byte) (ls : list bytes) : bytes :=
  match ls with
  | [] => []
  | l :: ls => match ls with [] => l | _ => l ++ c :: unsplit c ls end
  end.

Lemma split_on_join c a b : split_on c (a ++ c :: b) = split_on c a ++ split_on c b.
Proof.
  induction a as [|x a IH]; cbn [app split_on]; [by rewrite decide_True|]. rewrite IH. case_decide; [done|].
  destruct (split_on c a) as [|s ss] eqn:E; [|done]. destruct a; cbn in E; [done|]. case_decide; [done|]. by destruct (split_on c a).
Qed.

Lemma unsplit_split c l : unsplit c (split_on c l) = l.
Proof.
  induction l as [|x l IH]; [done|]. cbn [split_on]. assert (Hne : split_on c l <> []).
  { destruct l; cbn; [done|]. case_decide; [done|]. by destruct (split_on c l). }
  case_decide as Hx.
  - subst. cbn [unsplit]. destruct (split_on c l); [done|]. cbn [app]. by rewrite IH.
  - destruct (split_on c l) as [|s ss]; [done|]. cbn [unsplit] in *. destruct ss; cbn [app]; by rewrite IH.
Qed.

Lemma unsplit_app c a b : a <> [] -> b <> [] -> unsplit c (a ++ b) = unsplit c a ++ c :: unsplit c b.
Proof.
  intros Ha Hb. induction a as [|x a IH]; [done|]. cbn [app unsplit]. destruct a as [|y a]; cbn [app]; [by destruct b|].
  cbn [app] in IH. rewrite IH by done. cbn [unsplit]. by rewrite <- app_assoc.
Qed.

Lemma strip_suffix_Some s l p : strip_suffix s l = Some p <-> l = p ++ s.
Proof.
  unfold strip_suffix. split.
  - destruct (0 <=? zlen l - zlen s); cbn [andb]; [|done]. case_bool_decide as He; [|done]. intros [= <-].
    transitivity (ztake (zlen l - zlen s) l ++ zdrop (zlen l - zlen s) l); [by rewrite ztake_zdrop|by rewrite He].
  - intros ->. pose proof (zlen_nonneg p). replace (zlen (p ++ s) - zlen s) with (zlen p) by zl.
    rewrite zdrop_app_exact, ztake_app_exact, bool_decide_eq_true_2 by done. by destruct (Z.leb_spec 0 (zlen p)); [|lia].
Qed.

(** A suffix matches when its labels are the last of the name's. *)
Lemma suffix_matches_eq lower s : suffix_matches lower s = bool_decide (split_on Byte.x2e s `suffix_of` split_on Byte.x2e lower).
Proof.
  assert (Hne : forall l, split_on Byte.x2e l <> []).
  { intros [|x l]; cbn; [done|]. case_decide; [done|]. by destruct (split_on Byte.x2e l). }
  apply eq_iff_eq_true. unfold suffix_matches. rewrite orb_true_iff, !bool_decide_eq_true. split.
  - intros [->|Hm]; [done|]. destruct (strip_suffix s lower) as [p|] eqn:Hp; [|done]. apply strip_suffix_Some in Hp as ->.
    apply bool_decide_eq_true, last_Some in Hm as [q ->]. rewrite <- app_assoc. cbn [app]. rewrite split_on_join. by eexists.
  - intros [k Hk]. rewrite <- (unsplit_split Byte.x2e lower), Hk. destruct k as [|x k]; [left; cbn [app]; by rewrite unsplit_split|right].
    rewrite unsplit_app by done. rewrite unsplit_split. change (Byte.x2e :: s) with ([Byte.x2e] ++ s). rewrite app_assoc.
    rewrite (proj2 (strip_suffix_Some s _ _) eq_refl). apply bool_decide_eq_true. by rewrite last_snoc.
Qed.

(** *** Dates *)

(** The year, month and day of a day of the era, the year counted from the
    era's first. *)
Definition era_date (doe : Z) : Z * Z * Z :=
  let yoe := (doe - doe / 1460 + doe / 36524 - doe / 146096) / 365 in
  let doy := doe - (365 * yoe + yoe / 4 - yoe / 100) in
  let mp := (5 * doy + 2) / 153 in
  let d := doy - (153 * mp + 2) / 5 + 1 in
  let m := if mp <? 10 then mp + 3 else mp - 9 in
  (if m <=? 2 then yoe + 1 else yoe, m, d).

Definition shift_years (k : Z) (date : Z * Z * Z) : Z * Z * Z := let '(y, m, d) := date in (y + 400 * k, m, d).

Lemma date_of_era secs :
  date_of secs = shift_years ((secs / 86400 + 719468) / 146097) (era_date ((secs / 86400 + 719468) mod 146097)).
Proof.
  unfold date_of, civil_from_unix, era_date, shift_years. cbv zeta.
  match goal with |- context [if ?b then _ + 1 else _] => destruct b end;
    match goal with |- (?a, _, _) = (?b, _, _) => replace a with b by lia; reflexivity end.
Qed.

Lemma leap_year_shift y k : leap_year (y + 400 * k) = leap_year y.
Proof.
  assert (H : forall n, 0 < n -> (400 mod n = 0) -> (y + 400 * k) mod n = y mod n).
  { intros n Hn Hd. rewrite Z.add_mod, Z.mul_mod, Hd by lia. rewrite Z.mul_0_l, Z.mod_0_l, Z.add_0_r by lia. by rewrite Z.mod_mod by lia. }
  unfold leap_year. by rewrite !H by done.
Qed.

Lemma next_date_shift k date : next_date (shift_years k date) = shift_years k (next_date date).
Proof.
  destruct date as [[y m] d]. unfold next_date, shift_years, days_in_month. rewrite leap_year_shift.
  destruct (_ <? _); [done|]. destruct (m <? 12); [done|]. do 2 f_equal. lia.
Qed.

Lemma shift_years_add a b date : shift_years a (shift_years b date) = shift_years (a + b) date.
Proof. destruct date as [[y m] d]. cbn. do 2 f_equal. lia. Qed.

(** The years of an era, from March: where each starts, how long it is, and
    the year of a day. *)
Definition year_start (yoe : Z) : Z := 365 * yoe + yoe / 4 - yoe / 100.
Definition year_len (yoe : Z) : Z := if leap_year (yoe + 1) then 366 else 365.
Definition corrected (doe : Z) : Z := doe - doe / 1460 + doe / 36524 - doe / 146096.

Lemma corrected_mono a b : 0 <= a <= b -> corrected a <= corrected b.
Proof.
  intros [Ha Hab]. replace b with (a + (b - a)) by lia. assert (Hd : 0 <= b - a) by lia. revert Hd. generalize (b - a). clear b Hab.
  apply natlike_ind; [by rewrite Z.add_0_r|]. intros d Hd IH. etrans; [exact IH|]. unfold corrected.
  replace (a + Z.succ d) with (a + d + 1) by lia. set (x := a + d). assert (0 <= x) by (unfold x; lia).
  Z.to_euclidean_division_equations; lia.
Qed.

Definition year_checked (yoe : Z) : bool :=
  (corrected (year_start yoe) / 365 =? yoe) && (corrected (year_start yoe + year_len yoe - 1) / 365 =? yoe) &&
  (year_start (yoe + 1) + (if yoe =? 399 then 1 else 0) =? year_start yoe + year_len yoe).

Fixpoint all_below (f : Z -> bool) (n : nat) : bool :=
  match n with O => true | S n => f (Z.of_nat n) && all_below f n end.

Lemma all_below_at f n i : all_below f n = true -> 0 <= i < Z.of_nat n -> f i = true.
Proof.
  induction n as [|n IH]; intros H Hi; [lia|]. cbn [all_below] in H. apply andb_true_iff in H as [H1 H2].
  destruct (Z.eq_dec i (Z.of_nat n)) as [->|Hne]; [done|]. apply IH; [done|lia].
Qed.

Lemma years_checked yoe : 0 <= yoe < 400 ->
  corrected (year_start yoe) / 365 = yoe /\ corrected (year_start yoe + year_len yoe - 1) / 365 = yoe /\
  year_start (yoe + 1) + (if yoe =? 399 then 1 else 0) = year_start yoe + year_len yoe.
Proof.
  intros Hy. assert (H : all_below year_checked 400 = true) by (by vm_compute). apply (all_below_at _ _ yoe) in H; [|lia].
  unfold year_checked in H. rewrite !andb_true_iff, !Z.eqb_eq in H. tauto.
Qed.

Lemma year_len_range yoe : 365 <= year_len yoe <= 366.
Proof. unfold year_len. destruct (leap_year _); lia. Qed.

(** The year of a day of the era. *)
Lemma year_of yoe doy : 0 <= yoe < 400 -> 0 <= doy < year_len yoe -> corrected (year_start yoe + doy) / 365 = yoe.
Proof.
  intros Hy Hd. destruct (years_checked yoe Hy) as (H1 & H2 & _).
  assert (0 <= year_start yoe) by (unfold year_start; Z.to_euclidean_division_equations; lia).
  pose proof (corrected_mono (year_start yoe) (year_start yoe + doy) ltac:(lia)) as M1.
  pose proof (corrected_mono (year_start yoe + doy) (year_start yoe + year_len yoe - 1) ltac:(lia)) as M2.
  pose proof (Z.div_le_mono _ _ 365 ltac:(lia) M1). pose proof (Z.div_le_mono _ _ 365 ltac:(lia) M2). lia.
Qed.

Lemma day_in_era doe : 0 <= doe < 146097 ->
  exists yoe doy, 0 <= yoe < 400 /\ 0 <= doy < year_len yoe /\ doe = year_start yoe + doy.
Proof.
  intros Hd. assert (H : forall n : nat, (n <= 400)%nat -> doe < year_start (Z.of_nat n) + (if Nat.eqb n 400 then 1 else 0) ->
    exists yoe doy, 0 <= yoe < 400 /\ 0 <= doy < year_len yoe /\ doe = year_start yoe + doy).
  { induction n as [|n IH]; intros Hn Hlt; [change (doe < 0) in Hlt; lia|].
    destruct (Z.lt_ge_cases doe (year_start (Z.of_nat n))) as [Hl|Hg].
    - apply IH; [lia|]. destruct (Nat.eqb_spec n 400); lia.
    - exists (Z.of_nat n), (doe - year_start (Z.of_nat n)). split; [lia|]. split; [|lia].
      destruct (years_checked (Z.of_nat n) ltac:(lia)) as (_ & _ & H3). rewrite Nat2Z.inj_succ in Hlt.
      replace (Z.of_nat n + 1) with (Z.succ (Z.of_nat n)) in H3 by lia.
      destruct (Nat.eqb_spec (S n) 400), (Z.eqb_spec (Z.of_nat n) 399); lia. }
  apply (H 400%nat); [lia|]. change (year_start (Z.of_nat 400)) with 146096. cbn. lia.
Qed.

(** *** Days of a year *)

Definition month_day (doy : Z) : Z * Z :=
  let mp := (5 * doy + 2) / 153 in (if mp <? 10 then mp + 3 else mp - 9, doy - (153 * mp + 2) / 5 + 1).

Lemma era_date_eq yoe doy : 0 <= yoe < 400 -> 0 <= doy < year_len yoe ->
  era_date (year_start yoe + doy) = let '(m, d) := month_day doy in (if m <=? 2 then yoe + 1 else yoe, m, d).
Proof.
  intros Hy Hd. pose proof (year_of yoe doy Hy Hd) as Hyo. unfold corrected in Hyo. unfold era_date. rewrite Hyo. cbv zeta.
  unfold month_day. replace (year_start yoe + doy - (365 * yoe + yoe / 4 - yoe / 100)) with doy by (unfold year_start; lia). done.
Qed.

Definition month_len (leap : bool) (m : Z) : Z :=
  if m =? 2 then (if leap then 29 else 28) else if (m =? 4) || (m =? 6) || (m =? 9) || (m =? 11) then 30 else 31.

Definition day_checked (leap : bool) (doy : Z) : bool :=
  let '(m, d) := month_day doy in
  if doy + 1 <? (if leap then 366 else 365) then
    let '(m', d') := month_day (doy + 1) in
    if d <? month_len leap m then (m' =? m) && (d' =? d + 1)
    else if m <? 12 then (m' =? m + 1) && (d' =? 1) && Bool.eqb (m <=? 2) (m' <=? 2)
    else (m' =? 1) && (d' =? 1) && (m =? 12)
  else (m =? 2) && (d =? month_len leap 2).

Lemma days_checked leap doy : 0 <= doy < (if leap : bool then 366 else 365) -> day_checked leap doy = true.
Proof.
  intros Hd. destruct leap.
  - apply (all_below_at _ 366); [by vm_compute|lia].
  - apply (all_below_at _ 365); [by vm_compute|lia].
Qed.

Lemma era_next yoe doy : 0 <= yoe < 400 -> 0 <= doy < year_len yoe ->
  next_date (era_date (year_start yoe + doy)) =
  if doy + 1 <? year_len yoe then era_date (year_start yoe + (doy + 1)) else (yoe + 1, 3, 1).
Proof.
  intros Hy Hd. pose proof (days_checked (leap_year (yoe + 1)) doy Hd) as Hc. rewrite era_date_eq by done.
  unfold day_checked in Hc. fold (year_len yoe) in Hc. destruct (month_day doy) as [m d] eqn:Hmd.
  assert (Hlen : days_in_month (if m <=? 2 then yoe + 1 else yoe) m = month_len (leap_year (yoe + 1)) m).
  { unfold days_in_month, month_len. destruct (Z.eqb_spec m 2) as [->|]; done. }
  unfold next_date. rewrite Hlen. destruct (Z.ltb_spec (doy + 1) (year_len yoe)) as [Hlt|Hge].
  - rewrite era_date_eq by lia. destruct (month_day (doy + 1)) as [m' d'].
    destruct (d <? month_len (leap_year (yoe + 1)) m).
    + apply andb_true_iff in Hc as [->%Z.eqb_eq ->%Z.eqb_eq]. done.
    + destruct (m <? 12).
      * rewrite !andb_true_iff in Hc. destruct Hc as [[->%Z.eqb_eq ->%Z.eqb_eq] Heq%eqb_prop]. by rewrite Heq.
      * rewrite !andb_true_iff in Hc. destruct Hc as [[->%Z.eqb_eq ->%Z.eqb_eq] ->%Z.eqb_eq]. done.
  - apply andb_true_iff in Hc as [->%Z.eqb_eq ->%Z.eqb_eq]. by rewrite Z.ltb_irrefl.
Qed.

Lemma era_follows doe : 0 <= doe < 146097 ->
  (if doe <? 146096 then era_date (doe + 1) else shift_years 1 (era_date 0)) = next_date (era_date doe).
Proof.
  intros Hd. destruct (day_in_era doe Hd) as (yoe & doy & Hy & Hdoy & ->). rewrite era_next by done.
  destruct (years_checked yoe Hy) as (_ & _ & Hnext). destruct (Z.ltb_spec (doy + 1) (year_len yoe)) as [Hlt|Hge].
  - destruct (Z.ltb_spec (year_start yoe + doy) 146096) as [Hl|Hg]; [by rewrite Z.add_assoc|]. exfalso.
    assert (year_start yoe + year_len yoe <= 146097); [|lia]. rewrite <- Hnext. unfold year_start.
    destruct (Z.eqb_spec yoe 399); Z.to_euclidean_division_equations; lia.
  - assert (Hlast : year_start yoe + doy + 1 = year_start (yoe + 1) + (if yoe =? 399 then 1 else 0)) by lia.
    destruct (Z.eqb_spec yoe 399) as [->|Hne].
    + change (year_start (399 + 1)) with 146096 in Hlast. destruct (Z.ltb_spec (year_start 399 + doy) 146096); [lia|]. by vm_compute.
    + destruct (Z.ltb_spec (year_start yoe + doy) 146096) as [_|Hg].
      * rewrite Hlast. rewrite (era_date_eq (yoe + 1) 0); [|lia|pose proof (year_len_range (yoe + 1)); lia]. by vm_compute.
      * exfalso. assert (year_start (yoe + 1) <= 365 * 399 + 99 - 3) by (unfold year_start; Z.to_euclidean_division_equations; lia). lia.
Qed.

Lemma next_day secs : date_of (secs + 86400) = next_date (date_of secs).
Proof.
  rewrite !date_of_era. replace ((secs + 86400) / 86400) with (secs / 86400 + 1) by (Z.to_euclidean_division_equations; lia).
  set (z := secs / 86400 + 719468). replace (secs / 86400 + 1 + 719468) with (z + 1) by (unfold z; lia).
  rewrite next_date_shift. pose proof (Z.mod_pos_bound z 146097 ltac:(lia)) as Hr.
  rewrite <- (era_follows (z mod 146097)) by lia.
  destruct (Z.ltb_spec (z mod 146097) 146096) as [Hlt|Hge].
  - replace ((z + 1) / 146097) with (z / 146097) by (Z.to_euclidean_division_equations; lia).
    by replace ((z + 1) mod 146097) with (z mod 146097 + 1) by (Z.to_euclidean_division_equations; lia).
  - rewrite shift_years_add. replace ((z + 1) / 146097) with (z / 146097 + 1) by (Z.to_euclidean_division_equations; lia).
    by replace ((z + 1) mod 146097) with 0 by (Z.to_euclidean_division_equations; lia).
Qed.

(** ** Properties *)

(** Which targets do not go through WARP: a name if it is the local host or
    its last labels are those of a configured suffix, whatever the case; an
    IPv4 address if a configured network holds it or, unless switched off, one
    of the private networks does. *)
Theorem warp_direct_spec `{N : IpNetworks} section this host a :
  Bypass_new section = Ok this -> v4_range a ->
  let lower := to_ascii_lowercase (bare_host host) in
  name_is_direct this host =
    bool_decide (lower = str "localhost") ||
    existsb (fun s => bool_decide (split_on Byte.x2e s `suffix_of` split_on Byte.x2e lower)) (clean_suffixes (ws_bypass_suffixes section)) /\
  bypass_contains this (V4 a) =
    existsb (fun n => net_contains n (V4 a)) (networks this) ||
    (ws_bypass_private section && existsb (fun '(net, len) => in_v4 net len a) private_networks).
Proof.
  intros Hn Ha lower. unfold Bypass_new in Hn. destruct (parse_networks _ _) as [nets| |]; cbn [res_bind] in Hn; [|done..].
  injection Hn as <-. split.
  - unfold name_is_direct, eq_ignore_ascii_case. cbn [suffixes]. change (to_ascii_lowercase (str "localhost")) with (str "localhost").
    fold lower. destruct (bool_decide (lower = str "localhost")); [done|]. cbn [orb].
    induction (clean_suffixes _) as [|s l IH]; [done|]. cbn [existsb]. by rewrite IH, suffix_matches_eq.
  - unfold bypass_contains. cbn [networks private]. rewrite is_private_v4_eq by done.
    destruct (existsb _ nets); [done|]. by destruct (ws_bypass_private section).
Qed.

(** The registration's date is the Gregorian one: the epoch is the first of
    January 1970, 86400 seconds later is the calendar's next day, and the time
    of the day is its hours, minutes and seconds. *)
Theorem civil_from_unix_calendar secs :
  date_of 0 = (1970, 1, 1) /\
  date_of (secs + 86400) = next_date (date_of secs) /\
  date_of secs = date_of (86400 * (secs / 86400)) /\
  let '(h, mi, s) := time_of secs in
  0 <= h < 24 /\ 0 <= mi < 60 /\ 0 <= s < 60 /\ h * 3600 + mi * 60 + s = secs mod 86400.
Proof.
  split; [by vm_compute|]. split; [apply next_day|]. split.
  - rewrite !date_of_era. by replace (86400 * (secs / 86400) / 86400) with (secs / 86400) by (Z.to_euclidean_division_equations; lia).
  - unfold time_of, civil_from_unix. cbv zeta. pose proof (Z.mod_pos_bound secs 86400 ltac:(lia)) as Hr.
    generalize dependent (secs mod 86400). intros r Hr. Z.to_euclidean_division_equations. lia.
Qed.

(** Dialling retries only over a new connection: when opening fails and the
    connection still works, the error is returned; when it no longer does, it
    is not left in the cache, and the second attempt decides. *)
Theorem dial_retries_stale first second w conn w1 e :
  connection first w = (Ok conn, w1) -> de_open first = Err e ->
  (de_usable_after first = true -> fst (dial first second w) = Err e) /\
  (de_usable_after first = false -> exists w2, cached w2 <> Some conn /\ dial first second w = dial_loop [second] (Some e) w2).
Proof.
  intros Hc Ho. unfold dial. cbn [dial_loop]. rewrite Hc, Ho. split; intros Hu; rewrite Hu; cbn [negb]; [done|].
  eexists. split; [|reflexivity]. unfold invalidate. cbn [cached]. destruct (de_cached_after first) as [c|]; [|done].
  case_decide; cbn [cached]; congruence.
Qed.

(** An empty [endpoint_v6] hides the configured [endpoint]. *)
Lemma endpoint_v6_hides section section' creds :
  ws_endpoint_v6 section = Some [] -> ws_endpoint section' = None -> ws_endpoint_v6 section' = None ->
  resolve_endpoint section creds = resolve_endpoint section' creds.
Proof. intros H H1 H2. unfold resolve_endpoint. by rewrite H, H1, H2. Qed.

(** The tests of the source. *)
Example warp_examples :
  map (fun a => is_private_v4 (match ip_from_str (str a) with Some (V4 b) => b | _ => -1 end))
    ["127.0.0.1"; "10.1.2.3"; "172.16.0.7"; "192.168.1.1"; "169.254.1.1"; "100.64.0.1"; "1.1.1.1"; "8.8.8.8"; "172.32.0.1"]%string =
  [true; true; true; true; true; true; false; false; false] /\
  map (fun a => strip_port (str a)) ["162.159.198.1:443"; "162.159.198.1"; "[2606:4700::1]:443"; "2606:4700::1"; "host:x"]%string =
  map str ["162.159.198.1"; "162.159.198.1"; "[2606:4700::1]"; "2606:4700::1"; "host:x"]%string /\
  hex_lower (str "Az") = str "417a" /\ civil_from_unix 951782400 = (2000, 2, 29, 0, 0, 0).
Proof. by vm_compute. Qed.
