(* ===== verification/Outgoing.v ===== *)
(** * Outgoing connections of the server

    [src/server/connection.rs]: how the server reaches a target. Without WARP
    the connection is direct, by the DNS client's race or by name; with WARP
    the target is resolved first and its addresses are tried in turn, each over
    WARP unless the rules say that it is direct. What each attempt gives, the
    lookups' answers and the events of the race are arguments; every address
    and name that is dialled is recorded. *)

From S2P Require Import Prelude Frame Text Net Dns Warp.

Definition MAX_ADDRESS_ATTEMPTS : nat := 4.

(** An address or a name, with a port. *)
Inductive Peer : Type :=
| PeerIp (ip : IpAddr) (port : Z)
| PeerName (host : bytes) (port : Z).

(** [Upstream]: a TCP stream, through the SOCKS5 proxy if there is one, or a
    tunnel of the WARP connection. *)
Inductive Outgoing : Type :=
| OutDirect (socks5_proxy : option bytes) (peer : Peer)
| OutWarp (tunnel : nat).

(** What leaves the server when it connects. *)
Inductive Dialled : Type :=
| DialTcp (socks5_proxy : option bytes) (peer : Peer)
| DialWarp (authority : bytes).

(** One attempt: the errors of connecting and of [set_nodelay], and the two
    rounds of a WARP dial. *)
Record AttemptEnv : Type := mkAttempt {
  ae_connect : option string;
  ae_nodelay : option string;
  ae_warp1 : DialEnv;
  ae_warp2 : DialEnv
}.

(** The DNS client's lookups by name, type and subnet, its shuffles, and the
    events of its race. *)
Record DnsEnv : Type := mkDnsEnv {
  dn_lookup : bytes -> Z -> option IpAddr -> Res string (list IpAddr);
  dn_shuffle4 : list IpAddr -> list IpAddr;
  dn_shuffle6 : list IpAddr -> list IpAddr;
  dn_events : list RaceEvent
}.

Definition done_or {E A} (e : option E) (a : A) : Res E A := match e with Some e => Err e | None => Ok a end.

(** The race until its events end, and the addresses it has started with. *)
Fixpoint race_through (evs : list RaceEvent) (r : Race) (started : list IpAddr) : Race * list IpAddr :=
  match evs with
  | [] => (r, started)
  | ev :: evs =>
      match race_step ev r with
      | Some r' =>
          let started := match ev, r with Timer, Racing _ (ip :: _) _ => started ++ [ip] | _, _ => started end in
          race_through evs r' started
      | None => race_through evs r started
      end
  end.

Section outgoing.
Context `{N : IpNetworks} (show_v6 : Z -> bytes).

(** [DnsClient::resolve] with the answers of its two lookups. *)
Definition dns_resolve (opts : DnsOptions) (env : DnsEnv) (host : bytes) (ecs : option IpAddr) : Res string (list IpAddr) :=
  resolve opts host (dn_lookup env host RTYPE_A ecs) (dn_lookup env host RTYPE_AAAA ecs) (dn_shuffle4 env) (dn_shuffle6 env).

(** [DnsClient::connect]; nothing yet while the race goes on. *)
Definition dns_connect (opts : DnsOptions) (env : DnsEnv) (host : bytes) (port : Z) (ecs : option IpAddr) (socks5_proxy : option bytes)
    : option (Res string Outgoing) * list Dialled :=
  let proxy := option_map socks_addr socks5_proxy in
  match dns_resolve opts env host ecs with
  | Ok sorted =>
      let '(r, started) := race_through (dn_events env) (race_start sorted) (take 1 sorted) in
      (match r with
       | Connected ip => Some (Ok (OutDirect proxy (PeerIp ip port)))
       | RaceFailed => Some (Err "all connection attempts failed"%string)
       | Racing _ _ _ => None
       end, map (fun ip => DialTcp proxy (PeerIp ip port)) started)
  | Err e => (Some (Err e), [])
  | Panic => (Some Panic, [])
  end.

Definition connect_direct (dns_client : option DnsOptions) (client_subnet : option IpAddr) (socks5_proxy : option bytes)
    (host : bytes) (port : Z) (dns : DnsEnv) (env : AttemptEnv) : option (Res string Outgoing) * list Dialled :=
  match dns_client with
  | Some opts =>
      let '(r, dialled) := dns_connect opts dns host port client_subnet socks5_proxy in
      (match r with
       | Some r => Some (let? s := map_err (fun _ => "dns error"%string) r in done_or (ae_nodelay env) s)
       | None => None
       end, dialled)
  | None =>
      let out := OutDirect socks5_proxy (PeerName host port) in
      let error := match socks5_proxy with Some _ => "socks5 connect"%string | None => "tcp connect"%string end in
      (Some (let? s := map_err (fun _ => error) (done_or (ae_connect env) out) in done_or (ae_nodelay env) s),
       [DialTcp socks5_proxy (PeerName host port)])
  end.

Definition resolve_target (dns_client : option DnsOptions) (client_subnet : option IpAddr) (host : bytes) (dns : DnsEnv)
    : Res string (list IpAddr) :=
  match ip_from_str host with
  | Some ip => Ok [ip]
  | None =>
      if eq_ignore_ascii_case host (str "localhost") then Ok [V4 (127 * 2 ^ 24 + 1); V6 1]
      else
        match dns_client with
        | Some opts => dns_resolve opts dns host client_subnet
        | None => Err "warp: host needs a DNS resolver but none is configured"%string
        end
  end.

Definition connect_ip (socks5_proxy : option bytes) (ip : IpAddr) (port : Z) (env : AttemptEnv) : Res string Outgoing :=
  let out := OutDirect socks5_proxy (PeerIp ip port) in
  let error := match socks5_proxy with Some _ => "socks5 connect"%string | None => "tcp connect"%string end in
  let? stream := map_err (fun _ => error) (done_or (ae_connect env) out) in
  done_or (ae_nodelay env) stream.

(** One round of the loop over the addresses. *)
Definition attempt (b : Bypass) (force_direct : bool) (socks5_proxy : option bytes) (ip : IpAddr) (port : Z) (env : AttemptEnv)
    (w : WarpState) : Res string Outgoing * Dialled * WarpState :=
  if force_direct || bypass_contains b ip then
    (connect_ip socks5_proxy ip port env, DialTcp socks5_proxy (PeerIp ip port), w)
  else
    let '(r, w) := dial (ae_warp1 env) (ae_warp2 env) w in
    ((let? tunnel := r in Ok (OutWarp tunnel)), DialWarp (authority show_v6 ip port), w).

Fixpoint attempt_loop (b : Bypass) (force_direct : bool) (socks5_proxy : option bytes) (port : Z) (addresses : list IpAddr)
    (envs : nat -> AttemptEnv) (last_error : option string) (w : WarpState) : Res string Outgoing * list Dialled * WarpState :=
  match addresses with
  | [] => (Err (default "no address to connect"%string last_error), [], w)
  | ip :: addresses =>
      match attempt b force_direct socks5_proxy ip port (envs O) w with
      | (Ok upstream, d, w) => (Ok upstream, [d], w)
      | (Err e, d, w) =>
          let '(r, ds, w) := attempt_loop b force_direct socks5_proxy port addresses (fun i => envs (S i)) (Some e) w in (r, d :: ds, w)
      | (Panic, d, w) => (Panic, [d], w)
      end
  end.

(** [None] while the race of the DNS client goes on. *)
Definition connect_upstream (warp : option Bypass) (dns_client : option DnsOptions) (client_subnet : option IpAddr)
    (socks5_proxy : option bytes) (host : bytes) (port : Z) (dns : DnsEnv) (envs : nat -> AttemptEnv) (w : WarpState)
    : option (Res string Outgoing) * list Dialled * WarpState :=
  match warp with
  | None => let '(r, ds) := connect_direct dns_client client_subnet socks5_proxy host port dns (envs O) in (r, ds, w)
  | Some b =>
      match resolve_target dns_client client_subnet host dns with
      | Ok addresses =>
          let force_direct := name_is_direct b host in
          let '(r, ds, w) := attempt_loop b force_direct socks5_proxy port (take MAX_ADDRESS_ATTEMPTS addresses) envs None w in
          (Some r, ds, w)
      | Err e => (Some (Err e), [], w)
      | Panic => (Some Panic, [], w)
      end
  end.
End outgoing.

(** ** Specification *)

Section policy.
Context `{N : IpNetworks} (show_v6 : Z -> bytes).

(** A target is direct by its name or by its address. *)
Definition is_direct (b : Bypass) (host : bytes) (ip : IpAddr) : bool := name_is_direct b host || bypass_contains b ip.

Definition dial_of (b : Bypass) (host : bytes) (socks5_proxy : option bytes) (port : Z) (ip : IpAddr) : Dialled :=
  if is_direct b host ip then DialTcp socks5_proxy (PeerIp ip port) else DialWarp (authority show_v6 ip port).

(** The stream that belongs to the address that was dialled last. *)
Definition reached (b : Bypass) (host : bytes) (socks5_proxy : option bytes) (port : Z) (tried : list IpAddr) (out : Outgoing) : Prop :=
  exists ip, last tried = Some ip /\
  match out with
  | OutDirect proxy peer => is_direct b host ip = true /\ proxy = socks5_proxy /\ peer = PeerIp ip port
  | OutWarp _ => is_direct b host ip = false
  end.

(** No WARP dial of the environment panics. *)
Definition calm (envs : nat -> AttemptEnv) : Prop := forall i w, fst (dial (ae_warp1 (envs i)) (ae_warp2 (envs i)) w) <> Panic.

(** ** Lemmas *)

Lemma attempt_spec b host socks5_proxy ip port env w :
  (forall w, fst (dial (ae_warp1 env) (ae_warp2 env) w) <> Panic) ->
  let '(r, d, _) := attempt show_v6 b (name_is_direct b host) socks5_proxy ip port env w in
  d = dial_of b host socks5_proxy port ip /\
  match r with Ok out => reached b host socks5_proxy port [ip] out | Err _ => True | Panic => False end.
Proof.
  intros Hc. unfold attempt, dial_of. fold (is_direct b host ip). destruct (is_direct b host ip) eqn:Hd.
  - split; [done|]. unfold connect_ip, done_or. destruct (ae_connect env); [done|]. cbn [map_err res_bind].
    destruct (ae_nodelay env); [done|]. by exists ip.
  - specialize (Hc w). destruct (dial _ _ w) as [[tunnel|e|] w']; (split; [done|]); [|done..]. by exists ip.
Qed.

Lemma attempt_loop_spec b host socks5_proxy port addresses : forall envs last_error w, calm envs ->
  let '(r, ds, _) := attempt_loop show_v6 b (name_is_direct b host) socks5_proxy port addresses envs last_error w in
  exists tried later, addresses = tried ++ later /\ ds = map (dial_of b host socks5_proxy port) tried /\
  match r with Ok out => reached b host socks5_proxy port tried out | Err _ => later = [] | Panic => False end.
Proof.
  induction addresses as [|ip addresses IH]; intros envs last_error w Hc; cbn [attempt_loop]; [by exists [], []|].
  pose proof (attempt_spec b host socks5_proxy ip port (envs O) w (Hc O)) as Ha.
  destruct (attempt _ _ _ _ ip _ _ w) as [[[out|e|] d] w']; destruct Ha as [-> Ha]; [by exists [ip], addresses| |done].
  specialize (IH (fun i => envs (S i)) (Some e) w' (fun i => Hc (S i))).
  destruct (attempt_loop _ _ _ _ _ addresses _ _ w') as [[r ds] w'']. destruct IH as (tried & later & -> & -> & Hr).
  exists (ip :: tried), later. split; [done|]. split; [done|]. destruct r as [out| |]; [|done..].
  destruct Hr as (x & Hx & Hout). exists x. split; [|done]. by rewrite last_cons, Hx.
Qed.

(** The winner of a race is one of the addresses it has started with. *)
Definition running_in (r : Race) (started : list IpAddr) : Prop :=
  match r with
  | Racing running _ _ => running ⊆ started
  | Connected ip => ip ∈ started
  | RaceFailed => True
  end.

Lemma race_through_spec evs : forall r started, running_in r started ->
  running_in (fst (race_through evs r started)) (snd (race_through evs r started)).
Proof.
  induction evs as [|ev evs IH]; intros r started Hin; cbn [race_through]; [done|].
  destruct (race_step ev r) as [r'|] eqn:Hs; [|by apply IH]. apply IH.
  destruct r as [running todo all_started|ip|]; [|done..]. cbn [running_in] in Hin. destruct ev as [k ok| |]; cbn [race_step] in Hs.
  - apply bind_Some in Hs as (ip & Hk & Hs). destruct ok; [injection Hs as <-; apply Hin; by eapply list_elem_of_lookup_2|].
    cbv zeta in Hs. destruct (_ && _); injection Hs as <-; [done|]. cbn. intros x Hx. apply Hin.
    rewrite delete_take_drop in Hx. rewrite <- (take_drop_middle _ _ _ Hk). rewrite elem_of_app in *. destruct Hx; [by left|by right; right].
  - destruct all_started; [done|]. destruct todo as [|ip todo]; injection Hs as <-; cbn; [done|].
    intros x. rewrite !elem_of_app. intros [Hx|Hx]; [left; by apply Hin|by right].
  - destruct (_ && _); [|done]. by injection Hs as <-.
Qed.
End policy.

Lemma connect_direct_spec dns_client client_subnet socks5_proxy host port dns env :
  let '(r, ds) := connect_direct dns_client client_subnet socks5_proxy host port dns env in
  Forall (fun d => exists proxy peer, d = DialTcp proxy peer) ds /\
  match r with Some (Ok out) => exists proxy peer, out = OutDirect proxy peer /\ DialTcp proxy peer ∈ ds | _ => True end.
Proof.
  unfold connect_direct. destruct dns_client as [opts|].
  - unfold dns_connect. destruct (dns_resolve opts dns host client_subnet) as [sorted| |]; [|by split..].
    pose proof (race_through_spec (dn_events dns) (race_start sorted) (take 1 sorted)) as Hr.
    destruct (race_through _ _ _) as [r started]. cbn [fst snd] in Hr. split.
    + apply Forall_map, Forall_forall. intros ip _. by eexists _, _.
    + destruct r as [|ip|]; [done| |done]. cbn [map_err res_bind]. unfold done_or. destruct (ae_nodelay env); [done|].
      do 2 eexists. split; [done|]. apply list_elem_of_fmap. exists ip. split; [done|]. apply Hr.
      destruct sorted as [|x l]; [done|]. cbn. done.
  - split; [repeat constructor; by do 2 eexists|]. destruct (ae_connect env); cbn; [done|].
    destruct (ae_nodelay env); cbn; [done|]. do 2 eexists. split; [done|]. by left.
Qed.

(** ** Properties *)


(** ** Witnesses *)

#[export] Instance toy_networks : IpNetworks :=
  {| ip_net := IpAddr; net_from_str := ip_from_str; net_contains := fun n ip => bool_decide (n = ip) |}.

Definition toy_bypass : Bypass := mkBypass true [] [str "corp.example"].
Definition toy_dial (r : Res string nat) : DialEnv := mkDialEnv true (Some O) true (Ok O) r true (Some O).
Definition toy_attempts (i : nat) : AttemptEnv :=
  match i with
  | O => mkAttempt (Some "refused"%string) None (toy_dial (Err "refused"%string)) (toy_dial (Err "refused"%string))
  | _ => mkAttempt None None (toy_dial (Ok 7%nat)) (toy_dial (Ok 7%nat))
  end.
Definition toy_dns_env : DnsEnv :=
  mkDnsEnv (fun _ rtype _ => if rtype =? RTYPE_A then Ok [V4 (10 * 2 ^ 24 + 1); V4 (8 * 2 ^ 24 + 8)] else Ok []) id id [].

