(* ===== verification/Pin.v ===== *)
(** * The pinned key of the WARP endpoint

    The certificate check of [src/warp/masque.rs] and the form of the pinned
    key in the credentials ([src/warp/register.rs]): the endpoint's certificate
    is accepted when the public key in it is the one of the credentials. The
    key is found by a small DER reader. Base64 is a parameter. *)

From S2P Require Import Prelude Frame Text Token.

(** ** The DER reader *)

(** The bytes of a long length. *)
Fixpoint der_len_loop (l : bytes) (len : Z) : Z :=
  match l with
  | [] => len
  | b :: l => der_len_loop l (as_u64 (Z.lor (Z.shiftl len 8) (bz b)))
  end.

(** The length and the bytes it takes. *)
Definition read_der_len (buf : bytes) : option (Z * Z) :=
  first ← head buf;
  if Z.land (bz first) 0x80 =? 0 then Some (bz first, 1)
  else
    let count := Z.land (bz first) 0x7f in
    if (count =? 0) || (4 <? count) then None
    else
      l ← get_slice 1 (1 + count) buf;
      Some (der_len_loop l 0, 1 + count).

(** The contents of the first element, and what follows it. *)
Definition read_tlv (buf : bytes) : option (bytes * bytes) :=
  first ← head buf;
  if Z.land (bz first) 0x1f =? 0x1f then None
  else
    rest ← get_slice 1 (zlen buf) buf;
    '(len, len_bytes) ← read_der_len rest;
    let header := 1 + len_bytes in
    end_ ← checked_add64 header len;
    body ← get_slice header end_ buf;
    after ← get_slice end_ (zlen buf) buf;
    Some (body, after).

(** The [for] loop over the elements before the key. *)
Fixpoint skip_tlvs (n : nat) (cursor : bytes) : option bytes :=
  match n with
  | O => Some cursor
  | S n => '(_, rest) ← read_tlv cursor; skip_tlvs n rest
  end.

Definition extract_spki (cert : bytes) : option bytes :=
  '(cert_body, _) ← read_tlv cert;
  '(tbs, _) ← read_tlv cert_body;
  cursor ← (if decide (head tbs = Some (zb 0xa0)) then '(_, rest) ← read_tlv tbs; Some rest else Some tbs);
  cursor ← skip_tlvs 5 cursor;
  '(_, rest) ← read_tlv cursor;
  Some (ztake (zlen cursor - zlen rest) cursor).

(** ** The certificate check *)

(** [rustls::CertificateError], the two that are used. *)
Inductive CertificateError : Type := BadEncoding | UnknownIssuer.

(** The two verifiers: with a pinned key, and without. *)
Inductive Verifier : Type :=
| SpkiPinVerifier (expected : bytes)
| AcceptAnyCert.

Definition verify_server_cert (v : Verifier) (end_entity : bytes) : Res CertificateError unit :=
  match v with
  | SpkiPinVerifier expected =>
      let? spki := ok_or (extract_spki end_entity) BadEncoding in
      if decide (spki = expected) then Ok tt else Err UnknownIssuer
  | AcceptAnyCert => Ok tt
  end.

(** [build_tls_config]'s choice. *)
Definition verifier_of (endpoint_spki : option bytes) : Verifier :=
  match endpoint_spki with
  | Some spki => SpkiPinVerifier spki
  | None => AcceptAnyCert
  end.

(** ** The key of the credentials *)

(** Base64 in its standard alphabet with padding. *)
Class Base64Std := {
  b64s_encode : bytes -> bytes;
  b64s_decode : bytes -> option bytes
}.
Class Base64StdLaws (B : Base64Std) := {
  b64s_round : forall d, b64s_decode (b64s_encode d) = Some d;
  b64s_text : forall d, Forall (fun b => is_digit b = true \/ in_range 65 90 b = true \/
    in_range 97 122 b = true \/ b = Byte.x2b \/ b = Byte.x2f \/ b = Byte.x3d) (b64s_encode d)
}.

(** [str::lines]: the ends of the lines are removed, an empty last one is none. *)
Definition trim_line (l : bytes) : bytes := default l (strip_suffix [Byte.x0d] l).
Definition str_lines (l : bytes) : list bytes :=
  let segments := split_on Byte.x0a l in
  map trim_line (removelast segments) ++
  match last segments with
  | None | Some [] => []
  | Some line => [line]
  end.

Definition endpoint_spki `{Base64Std} (endpoint_pub_key : bytes) : Res string bytes :=
  let raw := str_trim endpoint_pub_key in
  match strip_prefix (str "-----BEGIN") raw with
  | Some _ =>
      let body := concat (List.filter (fun line => negb (bool_decide (is_Some (strip_prefix (str "-----") (str_trim_start line))))) (str_lines raw)) in
      ok_or (b64s_decode body) "warp: endpoint_pub_key is not valid PEM"%string
  | None => ok_or (b64s_decode raw) "warp: endpoint_pub_key is not valid base64"%string
  end.

(** ** Specification *)

(** Definite lengths up to four bytes, as DER writes them. *)
Definition der_len (n : Z) : bytes :=
  if n <? 2 ^ 7 then [zb n]
  else
    let count := if n <? 2 ^ 8 then 1%nat else if n <? 2 ^ 16 then 2%nat else if n <? 2 ^ 24 then 3%nat else 4%nat in
    zb (128 + Z.of_nat count) :: be_bytes count n.

Definition tlv (tag : byte) (content : bytes) : bytes := tag :: der_len (zlen content) ++ content.

(** Tags of one byte, contents of a definite length. *)
Definition low_tag (tag : byte) : Prop := Z.land (bz tag) 0x1f <> 0x1f.
Definition is_tlv (l : bytes) : Prop := exists tag content, low_tag tag /\ zlen content < 2 ^ 32 /\ l = tlv tag content.

(** A certificate: the version, where it is given, serial number, signature
    algorithm, issuer, validity and subject, then the key and the rest. *)
Record Certificate : Type := mkCertificate {
  c_version : option bytes;
  c_fields : list bytes;
  c_spki : bytes;
  c_rest : bytes;
  c_signature : bytes
}.

Definition tbs_of (c : Certificate) : bytes :=
  match c_version c with Some v => tlv (zb 0xa0) v | None => [] end ++ concat (c_fields c) ++ c_spki c ++ c_rest c.

Definition cert_bytes (c : Certificate) : bytes := tlv (zb 0x30) (tlv (zb 0x30) (tbs_of c) ++ c_signature c).

(** The serial number is an INTEGER, so not confused with a version. *)
Record certificate_ok (c : Certificate) : Prop := {
  co_fields : length (c_fields c) = 5%nat /\ Forall is_tlv (c_fields c);
  co_serial : head (concat (c_fields c)) <> Some (zb 0xa0);
  co_spki : is_tlv (c_spki c);
  co_short : zlen (cert_bytes c) < 2 ^ 32
}.

(** ** Lemmas *)

(** *** The reader *)

Lemma der_len_loop_val l len : 0 <= len -> (len + 1) * 256 ^ zlen l <= u64_max ->
  der_len_loop l len = len * 256 ^ zlen l + be_val l.
Proof.
  revert len. induction l as [|b l IH]; intros len H0 Hb; cbn [der_len_loop]; [change (be_val []) with 0; rewrite zlen_nil; lia|].
  pose proof (bz_range b). pose proof (zlen_nonneg l). rewrite zlen_cons, Z.pow_add_r in Hb by lia.
  assert (0 < 256 ^ zlen l) by (apply Z.pow_pos_nonneg; lia).
  rewrite Z.shiftl_mul_pow2 by lia. change (2 ^ 8) with 256.
  assert (Z.lor (len * 256) (bz b) = len * 256 + bz b) as -> by (apply (lor_add 8); [lia|by apply Z.mod_mul|done]).
  rewrite as_u64_small by nia. rewrite IH by nia. rewrite be_val_cons, zlen_cons, Z.pow_add_r by lia. lia.
Qed.

Lemma zlen_der_len n : 1 <= zlen (der_len n) <= 5.
Proof. unfold der_len. repeat case_match; zl. Qed.

Lemma read_der_len_ok n rest : 0 <= n < 2 ^ 32 -> read_der_len (der_len n ++ rest) = Some (n, zlen (der_len n)).
Proof.
  intros Hn. unfold der_len. destruct (Z.ltb_spec n (2 ^ 7)) as [Hs|Hs].
  - unfold read_der_len. cbn. rewrite bz_zb, Z.mod_small by lia.
    change 0x80 with (2 ^ 7). replace (Z.land n (2 ^ 7)) with 0; [done|]. symmetry. rewrite Z.land_comm. apply (land_disjoint 7); [lia|done|lia].
  - set (count := if n <? 2 ^ 8 then 1%nat else if n <? 2 ^ 16 then 2%nat else if n <? 2 ^ 24 then 3%nat else 4%nat).
    assert (Hc : (1 <= count <= 4)%nat) by (unfold count; repeat case_match; lia).
    assert (Hb : n < 256 ^ Z.of_nat count).
    { unfold count. destruct (Z.ltb_spec n (2 ^ 8)); [lia|]. destruct (Z.ltb_spec n (2 ^ 16)); [lia|]. destruct (Z.ltb_spec n (2 ^ 24)); lia. }
    clearbody count. unfold read_der_len. cbn [app head mbind option_bind]. rewrite bz_zb, Z.mod_small by lia.
    assert (Hland : Z.land (128 + Z.of_nat count) 128 = 128 /\ Z.land (128 + Z.of_nat count) 0x7f = Z.of_nat count).
    { destruct count as [|[|[|[|[|]]]]]; try lia; done. }
    destruct Hland as [-> ->]. cbn [Z.eqb]. change (128 =? 0) with false. cbv iota zeta.
    destruct (Z.eqb_spec (Z.of_nat count) 0); [lia|]. destruct (Z.ltb_spec 4 (Z.of_nat count)); [lia|]. cbn [orb].
    rewrite (get_slice_middle 1 (1 + Z.of_nat count) [zb (128 + Z.of_nat count)] (be_bytes count n) rest) by (rewrite ?zlen_be_bytes; done).
    cbn [mbind option_bind]. rewrite der_len_loop_val; [|lia|].
    + rewrite be_val_round by lia. by rewrite zlen_cons, zlen_be_bytes.
    + rewrite zlen_be_bytes. destruct count as [|[|[|[|[|]]]]]; try lia; unfold u64_max; cbn; lia.
Qed.

Lemma zlen_tlv tag c : zlen (tlv tag c) = 1 + zlen (der_len (zlen c)) + zlen c.
Proof. unfold tlv. rewrite zlen_cons, zlen_app. lia. Qed.

Lemma read_tlv_ok tag c rest : low_tag tag -> zlen c < 2 ^ 32 -> read_tlv (tlv tag c ++ rest) = Some (c, rest).
Proof.
  intros Ht Hc. pose proof (zlen_nonneg c). pose proof (zlen_nonneg rest). pose proof (zlen_der_len (zlen c)) as Hd.
  pose proof (read_der_len_ok (zlen c) (c ++ rest) ltac:(lia)) as Hr. set (d := der_len (zlen c)) in *.
  assert (He : tlv tag c ++ rest = tag :: d ++ c ++ rest) by (unfold tlv; by rewrite <- app_comm_cons, <- app_assoc).
  rewrite He. unfold read_tlv. cbn [head mbind option_bind].
  destruct (Z.eqb_spec (Z.land (bz tag) 0x1f) 0x1f); [done|].
  rewrite (get_slice_middle 1 _ [tag] (d ++ c ++ rest) []) by (rewrite ?app_nil_r, ?zlen_cons; done).
  cbn [mbind option_bind]. rewrite Hr. cbn [mbind option_bind].
  unfold checked_add64. destruct (Z.ltb_spec (1 + zlen d + zlen c) u64_max) as [_|Hn]; [|unfold u64_max in Hn; lia].
  cbn [mbind option_bind].
  rewrite (get_slice_middle (1 + zlen d) (1 + zlen d + zlen c) (tag :: d) c rest) by (rewrite ?zlen_cons; done). cbn [mbind option_bind].
  rewrite (get_slice_middle _ _ (tag :: d ++ c) rest []); [done|by rewrite app_nil_r, <- app_comm_cons, <- app_assoc|zl|zl].
Qed.

Lemma read_is_tlv l rest : is_tlv l -> exists c, read_tlv (l ++ rest) = Some (c, rest).
Proof. intros (tag & c & Ht & Hc & ->). exists c. by apply read_tlv_ok. Qed.

Lemma skip_tlvs_ok ls rest : Forall is_tlv ls -> skip_tlvs (length ls) (concat ls ++ rest) = Some rest.
Proof.
  induction 1 as [|l ls Hl _ IH]; [done|]. cbn [length skip_tlvs concat]. rewrite <- app_assoc.
  destruct (read_is_tlv l (concat ls ++ rest) Hl) as [c ->]. exact IH.
Qed.

(** Whatever is read lies in the input. *)
Lemma read_tlv_suffix buf body after : read_tlv buf = Some (body, after) ->
  exists header, 2 <= zlen header /\ buf = header ++ body ++ after.
Proof.
  unfold read_tlv. intros H. apply bind_Some in H as (first & Hf & H). destruct (_ =? _); [done|].
  apply bind_Some in H as (rest & Hr & H). apply bind_Some in H as ([len lb] & Hl & H).
  apply bind_Some in H as (end_ & He & H). apply bind_Some in H as (b & Hb & H). apply bind_Some in H as (a & Ha & [= <- <-]).
  assert (Hlb : 1 <= lb).
  { unfold read_der_len in Hl. apply bind_Some in Hl as (x & _ & Hl). destruct (_ =? 0); [by injection Hl as <- <-|].
    destruct (_ || _); [done|]. apply bind_Some in Hl as (l & Hg & [= _ <-]). apply get_slice_Some in Hg. lia. }
  apply get_slice_Some in Hb as Hb'. apply get_slice_Some in Ha as Ha'. unfold get_slice in Hb, Ha.
  destruct (_ && _) in Hb; [|done]. destruct (_ && _) in Ha; [|done]. injection Hb as <-. injection Ha as <-.
  exists (ztake (1 + lb) buf). split; [rewrite zlen_ztake; lia|]. unfold slice.
  rewrite (ztake_all (zlen buf - end_)) by (rewrite zlen_zdrop; lia).
  replace (zdrop end_ buf) with (zdrop (end_ - (1 + lb)) (zdrop (1 + lb) buf)) by (rewrite zdrop_zdrop by lia; f_equal; lia).
  by rewrite !ztake_zdrop.
Qed.

Definition part_of (s l : bytes) : Prop := exists a b, l = a ++ s ++ b.

Lemma part_of_trans a b c : part_of a b -> part_of b c -> part_of a c.
Proof. intros (x & y & ->) (u & v & ->). exists (u ++ x), (y ++ v). by rewrite <- !app_assoc. Qed.

Lemma read_tlv_parts buf body after : read_tlv buf = Some (body, after) -> part_of body buf /\ part_of after buf.
Proof.
  intros (h & _ & ->)%read_tlv_suffix. split; [by exists h, after|]. exists (h ++ body), []. by rewrite app_nil_r, <- app_assoc.
Qed.

Lemma skip_tlvs_part n : forall l l', skip_tlvs n l = Some l' -> part_of l' l.
Proof.
  induction n as [|n IH]; intros l l'; cbn [skip_tlvs]; [intros [= ->]; exists [], []; by rewrite app_nil_r|].
  intros ([b r] & Hr & H)%bind_Some. apply IH in H. apply read_tlv_parts in Hr as [_ Hr]. by eapply part_of_trans.
Qed.

(** *** The credentials' key *)

(** Lines that end as the text's lines do. *)
Definition line_text (l : bytes) : Prop := Byte.x0a ∉ l /\ last l <> Some Byte.x0d.
Definition line_ending (cr : bytes) : Prop := cr = [] \/ cr = [Byte.x0d].

Lemma trim_line_ok l cr : line_text l -> line_ending cr -> trim_line (l ++ cr) = l.
Proof.
  intros [_ Hl] [->| ->]; unfold trim_line, strip_suffix.
  - rewrite app_nil_r. destruct l as [|x l _] using rev_ind; [done|].
    rewrite last_snoc in Hl. rewrite zlen_app. change (zlen [x]) with 1. change (zlen [Byte.x0d]) with 1.
    replace (zlen l + 1 - 1) with (zlen l) by lia. rewrite zdrop_app_exact by done.
    case_bool_decide; [congruence|]. by rewrite andb_false_r.
  - rewrite zlen_app. change (zlen [Byte.x0d]) with 1. replace (zlen l + 1 - 1) with (zlen l) by lia.
    rewrite zdrop_app_exact, ztake_app_exact by done. rewrite bool_decide_eq_true_2 by done.
    destruct (Z.leb_spec 0 (zlen l)) as [_|Hn]; [done|]. pose proof (zlen_nonneg l). lia.
Qed.

Lemma str_lines_ok cr ls tail : line_ending cr -> Forall line_text ls -> Byte.x0a ∉ tail -> tail <> [] ->
  str_lines (concat (map (fun l => l ++ cr ++ [Byte.x0a]) ls) ++ tail) = ls ++ [tail].
Proof.
  intros Hcr Hls Ht Hne. unfold str_lines.
  assert (Hs : split_on Byte.x0a (concat (map (fun l => l ++ cr ++ [Byte.x0a]) ls) ++ tail) = map (fun l => l ++ cr) ls ++ [tail]).
  { induction Hls as [|l ls [Hl _] _ IH]; cbn [map concat app]; [by apply split_on_fresh|].
    rewrite <- !app_assoc. cbn [app]. rewrite app_assoc. rewrite split_on_app; [by rewrite IH|].
    rewrite elem_of_app. intros [?|Hin]; [done|]. destruct Hcr as [->| ->]; [by apply elem_of_nil in Hin|].
    by apply list_elem_of_singleton in Hin. }
  rewrite Hs, removelast_last, last_snoc. destruct tail as [|x tail]; [done|]. f_equal.
  rewrite map_map. rewrite <- (map_id ls) at 2. apply map_ext_in. intros l Hin%list_elem_of_In.
  rewrite Forall_forall in Hls. by apply trim_line_ok; [apply Hls|].
Qed.

(** A key in PEM form: two label lines around the lines of its text. *)
Definition pem_text (cr label label' : bytes) (ls : list bytes) : bytes :=
  concat (map (fun l => l ++ cr ++ [Byte.x0a]) ((str "-----BEGIN" ++ label) :: ls)) ++ str "-----END" ++ label'.

(** Labels have no line ends, and end visibly. *)
Definition label_ok (label : bytes) : Prop :=
  Byte.x0a ∉ label /\ exists e, last label = Some e /\ visible_byte e = true.

(** The text of a key in the credentials: its base64 form, or PEM, with or
    without a newline after it. *)
Definition key_text `{Base64Std} (key text : bytes) : Prop :=
  exists t, (text = t \/ text = t ++ [Byte.x0a]) /\
    (t = b64s_encode key \/
     exists cr label label' ls, line_ending cr /\ label_ok label /\ label_ok label' /\
       concat ls = b64s_encode key /\ t = pem_text cr label label' ls).

Section key.
Context `{B : Base64Std} {BL : Base64StdLaws B}.

Lemma base64_byte d b : b ∈ b64s_encode d -> visible_byte b = true /\ b <> Byte.x2d.
Proof.
  pose proof (b64s_text d) as H. rewrite Forall_forall in H. intros [H1|[H1|[H1|H1]]]%H; unfold is_digit, visible_byte, in_range in *.
  1-3: split; [lia|]; intros ->; cbn in H1; lia.
  destruct H1 as [->|[->| ->]]; done.
Qed.

Lemma marker_line l : negb (bool_decide (is_Some (strip_prefix (str "-----") (str_trim_start (str "-----" ++ l))))) = false.
Proof.
  change (str "-----" ++ l) with (Byte.x2d :: (str "----" ++ l)). rewrite str_trim_start_visible by done.
  change (Byte.x2d :: (str "----" ++ l)) with (str "-----" ++ l). rewrite strip_prefix_app. by rewrite bool_decide_eq_true_2.
Qed.

Lemma base64_line l : Forall (fun b => visible_byte b = true /\ b <> Byte.x2d) l ->
  negb (bool_decide (is_Some (strip_prefix (str "-----") (str_trim_start l)))) = true.
Proof.
  intros H. rewrite bool_decide_eq_false_2; [done|]. destruct H as [|b l [Hv Hb] _]; [by intros [? ?]|].
  rewrite str_trim_start_visible by done. intros [k Hk]. apply strip_prefix_Some in Hk. by injection Hk.
Qed.

Lemma last_app_r {A} (l k : list A) x : last k = Some x -> last (l ++ k) = Some x.
Proof. intros [k' ->]%last_Some. by rewrite app_assoc, last_snoc. Qed.

Lemma trim_key t text b e : text = t \/ text = t ++ [Byte.x0a] ->
  head t = Some b -> last t = Some e -> visible_byte b = true -> visible_byte e = true -> str_trim text = t.
Proof. intros [->| ->]; [apply str_trim_ends|apply str_trim_newline]. Qed.

Lemma endpoint_spki_base64 key text : text = b64s_encode key \/ text = b64s_encode key ++ [Byte.x0a] -> endpoint_spki text = Ok key.
Proof.
  intros Ht. assert (Hs : str_trim text = b64s_encode key).
  { destruct (b64s_encode key) as [|b l] eqn:E; [destruct Ht as [->| ->]; reflexivity|].
    destruct (last (b :: l)) as [e|] eqn:He; [|by apply last_None in He].
    apply (trim_key _ _ b e); [done..|apply (base64_byte key); rewrite E; by left|].
    apply (base64_byte key). rewrite E. by apply last_Some_elem_of. }
  unfold endpoint_spki. rewrite Hs. destruct (strip_prefix _ _) as [k|] eqn:Hp; [|by rewrite b64s_round].
  apply strip_prefix_Some in Hp. destruct (base64_byte key Byte.x2d) as [_ Hb]; [|done]. rewrite Hp. by left.
Qed.

Lemma endpoint_spki_pem key text cr label label' ls : text = pem_text cr label label' ls \/ text = pem_text cr label label' ls ++ [Byte.x0a] ->
  line_ending cr -> label_ok label -> label_ok label' -> concat ls = b64s_encode key -> endpoint_spki text = Ok key.
Proof.
  intros Ht Hcr (Hl & e & He & Hve) (Hl' & e' & He' & Hve') Hls.
  assert (Hbody : Forall (Forall (fun b => visible_byte b = true /\ b <> Byte.x2d)) ls).
  { apply Forall_forall. intros l Hin. apply Forall_forall. intros b Hb. apply (base64_byte key). rewrite <- Hls.
    apply list_elem_of_In, in_concat. exists l. split; by apply list_elem_of_In. }
  assert (Hlines : Forall line_text ((str "-----BEGIN" ++ label) :: ls)).
  { constructor.
    - split; [rewrite elem_of_app; intros [Hin|]; [|done]; by apply (bool_decide_eq_true_2 _) in Hin|].
      rewrite (last_app_r _ _ e) by done. intros [= ->]. done.
    - eapply Forall_impl; [exact Hbody|]. intros l Hf. rewrite Forall_forall in Hf. split; [intros Hin; by destruct (Hf _ Hin)|].
      intros Hin%last_Some_elem_of. by destruct (Hf _ Hin). }
  assert (Hs : str_trim text = pem_text cr label label' ls).
  { eapply (trim_key _ _ Byte.x2d e'); [done|done| |done|done]. unfold pem_text. by do 2 apply last_app_r. }
  unfold endpoint_spki. rewrite Hs.
  assert (Hp : exists k, pem_text cr label label' ls = str "-----BEGIN" ++ k) by (eexists; unfold pem_text; cbn [map concat]; by rewrite <- !app_assoc).
  destruct Hp as [k Hp]. rewrite Hp at 1. rewrite strip_prefix_app. unfold pem_text.
  rewrite str_lines_ok; [|done|done| |done].
  2:{ rewrite elem_of_app. intros [Hin|]; [|done]. by apply (bool_decide_eq_true_2 _) in Hin. }
  rewrite List.filter_app. cbn [List.filter app].
  change (str "-----BEGIN" ++ label) with (str "-----" ++ (str "BEGIN" ++ label)).
  change (str "-----END" ++ label') with (str "-----" ++ (str "END" ++ label')). rewrite !marker_line, app_nil_r.
  replace (List.filter _ ls) with ls; [by rewrite Hls, b64s_round|].
  clear -Hbody. induction Hbody as [|l ls Hl _ IH]; [done|]. cbn [List.filter]. rewrite base64_line by done. by rewrite <- IH.
Qed.
End key.

(** *** The certificate *)

Lemma extract_spki_ok c after : certificate_ok c -> extract_spki (cert_bytes c ++ after) = Some (c_spki c).
Proof.
  intros [[Hn Hf] Hserial Hspki Hlen]. unfold cert_bytes in *. rewrite zlen_tlv in Hlen.
  pose proof (zlen_der_len (zlen (tlv (zb 48) (tbs_of c) ++ c_signature c))).
  rewrite zlen_app in Hlen. rewrite zlen_tlv in Hlen at 2. pose proof (zlen_der_len (zlen (tbs_of c))). pose proof (zlen_nonneg (c_signature c)).
  assert (Hsum : zlen (tlv (zb 48) (tbs_of c) ++ c_signature c) < 2 ^ 32 /\ zlen (tbs_of c) < 2 ^ 32).
  { rewrite zlen_app, !zlen_tlv in *. lia. }
  unfold extract_spki. rewrite read_tlv_ok by (done || apply Hsum). cbn [mbind option_bind].
  rewrite read_tlv_ok by (done || apply Hsum). cbn [mbind option_bind].
  assert (Hcur : (if decide (head (tbs_of c) = Some (zb 0xa0)) then '(_, rest) ← read_tlv (tbs_of c); Some rest else Some (tbs_of c)) =
    Some (concat (c_fields c) ++ c_spki c ++ c_rest c)).
  { destruct Hsum as [_ Hs]. revert Hs. unfold tbs_of. destruct (c_version c) as [v|]; intros Hs.
    - rewrite decide_True by done. rewrite zlen_app, zlen_tlv in Hs.
      pose proof (zlen_der_len (zlen v)). pose proof (zlen_nonneg (concat (c_fields c) ++ c_spki c ++ c_rest c)).
      by rewrite read_tlv_ok by (done || lia).
    - cbn [app]. rewrite decide_False; [done|]. destruct (concat (c_fields c)) as [|x l] eqn:Hc; [|done].
      destruct (c_fields c) as [|f fs]; [done|]. apply Forall_cons_1 in Hf as [(tag & content & _ & _ & ->) _]. done. }
  rewrite Hcur. cbn [mbind option_bind]. rewrite <- Hn, skip_tlvs_ok by done. cbn [mbind option_bind].
  destruct (read_is_tlv _ (c_rest c) Hspki) as [k ->]. cbn [mbind option_bind]. f_equal. apply ztake_app_exact. rewrite zlen_app. lia.
Qed.

Lemma extract_spki_part cert spki : extract_spki cert = Some spki -> part_of spki cert /\ 2 <= zlen spki.
Proof.
  unfold extract_spki. intros ([body r1] & H1 & H)%bind_Some. apply bind_Some in H as ([tbs r2] & H2 & H).
  apply bind_Some in H as (cur & H3 & H). apply bind_Some in H as (cur2 & H4 & H). apply bind_Some in H as ([k rest] & H5 & [= <-]).
  assert (Hc : part_of cur tbs).
  { destruct (decide _); [|injection H3 as ->; exists [], []; by rewrite app_nil_r].
    apply bind_Some in H3 as ([v r] & Hr & [= <-]). by apply read_tlv_parts in Hr as [_ Hr]. }
  assert (Hcert : part_of cur2 cert).
  { eapply part_of_trans; [by eapply skip_tlvs_part|]. eapply part_of_trans; [exact Hc|].
    apply read_tlv_parts in H1 as [H1 _]. apply read_tlv_parts in H2 as [H2 _]. by eapply part_of_trans. }
  apply read_tlv_suffix in H5 as (h & Hh & ->). rewrite app_assoc, zlen_app.
  rewrite ztake_app_exact by lia. split; [|zl]. eapply part_of_trans; [|exact Hcert]. exists [], rest. by rewrite ?app_assoc.
Qed.

(** ** Properties *)

(** C25: the pinned endpoint. The credentials' key is found in either of its
    forms; then a certificate, whatever its fields and whatever follows it, is
    accepted exactly when its public key is that key; and whatever bytes are
    accepted hold the key. *)
Theorem pinned_endpoint `{B : Base64Std} (BL : Base64StdLaws B) key text :
  key_text key text ->
  exists spki, endpoint_spki text = Ok spki /\
    (forall c after, certificate_ok c ->
       verify_server_cert (verifier_of (Some spki)) (cert_bytes c ++ after) = if decide (c_spki c = key) then Ok tt else Err UnknownIssuer) /\
    (forall cert, verify_server_cert (verifier_of (Some spki)) cert = Ok tt -> part_of key cert /\ 2 <= zlen key).
Proof.
  intros (t & Ht & Hform). exists key. split; [|split].
  - destruct Hform as [->|(cr & label & label' & ls & Hcr & Hl & Hl' & Hls & ->)]; [by apply endpoint_spki_base64|].
    by eapply endpoint_spki_pem.
  - intros c after Hc. unfold verify_server_cert, verifier_of. by rewrite extract_spki_ok.
  - intros cert. cbn. destruct (extract_spki cert) as [spki|] eqn:He; [|done]. cbn. destruct (decide _) as [->|]; [|done].
    intros _. by apply extract_spki_part.
Qed.

(** ** Witnesses *)

(** A text form of two letters for a byte. *)
Fixpoint toy_letters (l : bytes) : bytes :=
  match l with [] => [] | b :: l => zb (65 + bz b / 16) :: zb (65 + bz b mod 16) :: toy_letters l end.
Fixpoint toy_unletters (l : bytes) : option bytes :=
  match l with
  | [] => Some []
  | a :: b :: l => r ← toy_unletters l; Some (zb ((bz a - 65) * 16 + (bz b - 65)) :: r)
  | _ => None
  end.

#[export] Instance toy_base64_std : Base64Std := {| b64s_encode := toy_letters; b64s_decode := toy_unletters |}.

#[export] Instance toy_base64_std_laws : Base64StdLaws toy_base64_std.
Proof.
  split.
  - intros d. induction d as [|b d IH]; [done|]. cbn in *. rewrite IH. cbn. do 2 f_equal.
    pose proof (bz_range b). rewrite !bz_zb, !(Z.mod_small _ 256) by (Z.to_euclidean_division_equations; lia).
    replace ((65 + bz b / 16 - 65) * 16 + (65 + bz b mod 16 - 65)) with (bz b) by (Z.to_euclidean_division_equations; lia). apply zb_bz.
  - intros d. induction d as [|b d IH]; [by constructor|]. cbn. pose proof (bz_range b).
    apply Forall_cons; split; [|apply Forall_cons; split; [|exact IH]]; right; left; unfold in_range; rewrite bz_zb, (Z.mod_small _ 256) by (Z.to_euclidean_division_equations; lia);
      Z.to_euclidean_division_equations; lia.
Qed.

Definition toy_spki : bytes := tlv (zb 0x30) (str "the key").
Definition toy_certificate : Certificate :=
  mkCertificate (Some (tlv (zb 2) [zb 2]))
    [tlv (zb 2) [zb 1]; tlv (zb 0x30) []; tlv (zb 0x30) (str "issuer"); tlv (zb 0x30) (zrep 200 Byte.x31); tlv (zb 0x30) (str "subject")]
    toy_spki (tlv (zb 0xa3) (str "extensions")) (str "signature").

Lemma toy_tlv tag content : Z.land (bz tag) 0x1f <> 0x1f -> zlen content < 300 -> is_tlv (tlv tag content).
Proof. intros. exists tag, content. split; [done|]. split; [lia|done]. Qed.

Lemma toy_certificate_ok : certificate_ok toy_certificate.
Proof.
  split.
  - split; [done|]. repeat constructor; (apply toy_tlv; [vm_compute; congruence|vm_compute; reflexivity]).
  - vm_compute. congruence.
  - apply toy_tlv; [vm_compute; congruence|vm_compute; reflexivity].
  - vm_compute. reflexivity.
Qed.

Definition toy_pem : bytes :=
  pem_text [Byte.x0d] (str " PUBLIC KEY-----") (str " PUBLIC KEY-----") [ztake 10 (b64s_encode toy_spki); zdrop 10 (b64s_encode toy_spki)] ++ [Byte.x0a].

Lemma pinned_endpoint_witness :
  key_text toy_spki toy_pem /\
  exists spki, endpoint_spki toy_pem = Ok spki /\
    verify_server_cert (verifier_of (Some spki)) (cert_bytes toy_certificate) = Ok tt.
Proof.
  assert (Hk : key_text toy_spki toy_pem).
  { eexists. split; [by right|]. right. exists [Byte.x0d]. do 3 eexists. split; [by right|].
    split_and!; [..|reflexivity]; try (split; [apply (bool_decide_eq_true_1 _); reflexivity|eexists; split; reflexivity]). reflexivity. }
  split; [exact Hk|]. destruct (pinned_endpoint toy_base64_std_laws toy_spki toy_pem Hk) as (spki & He & Hc & _).
  exists spki. split; [exact He|]. pose proof (Hc toy_certificate [] toy_certificate_ok) as H. rewrite app_nil_r in H. exact H.
Defined.
