(* ===== verification/Register.v ===== *)
(** * The WARP device

    [src/warp/register.rs] and the set-up in [src/warp/mod.rs]: credentials are
    read from a file or made by registering a device with two requests, and
    give, with the configuration, what the QUIC connection is made of. The
    device key ([p256]), JSON ([serde_json]) and base64 are parameters; what
    reading the file, the requests, the draws and the clock give are
    arguments. *)

From S2P Require Import Prelude Frame Text Net Warp Token Pin.

(** [p256]'s signing key: from a scalar, to and from PKCS#8, and its public
    key in DER. *)
Class DeviceKeys := {
  device_key : Type;
  key_from_slice : bytes -> option device_key;
  key_from_pkcs8 : bytes -> option device_key;
  key_to_pkcs8 : device_key -> option bytes;
  key_public_der : device_key -> option bytes
}.
Class DeviceKeysLaws (D : DeviceKeys) := {
  key_pkcs8 : forall k d, key_to_pkcs8 k = Some d -> key_from_pkcs8 d = Some k
}.

(** The service's answer to either request. *)
Record DevicePeer : Type := mkPeer { peer_public_key : bytes; peer_v4 : bytes; peer_v6 : bytes }.
Record AccountData : Type := mkAccount {
  acc_id : bytes;
  acc_token : bytes;
  acc_peers : list DevicePeer;
  acc_v4 : bytes;
  acc_v6 : bytes
}.

Class WarpJson := {
  creds_to_json : WarpCredentials -> option bytes;
  creds_from_json : bytes -> option WarpCredentials;
  account_from_json : bytes -> option AccountData
}.
Class WarpJsonLaws (J : WarpJson) := {
  creds_json : forall c t, creds_to_json c = Some t -> creds_from_json t = Some c
}.

Definition API_URL : bytes := str "https://api.cloudflareclient.com".
Definition API_VERSION : bytes := str "v0a4471".
Definition DEFAULT_MODEL : bytes := str "PC".
Definition DEFAULT_LOCALE : bytes := str "en_US".

(** A number in decimal, filled with zeros on the left. *)
Definition padded (width : Z) (n : Z) : bytes := zrep (width - zlen (dec_text n)) Byte.x30 ++ dec_text n.

Definition cf_time_string (secs : Z) : bytes :=
  let '(y, mo, d, h, mi, s) := civil_from_unix secs in
  padded 4 y ++ str "-" ++ padded 2 mo ++ str "-" ++ padded 2 d ++ str "T" ++ padded 2 h ++ str ":" ++ padded 2 mi ++
  str ":" ++ padded 2 s ++ str ".000+00:00".

Record RegisterOptions : Type := mkRegOptions { opt_model : bytes; opt_locale : bytes }.

(** A request: its method, URL, token and the fields of its body. *)
Record ApiRequest : Type := mkRequest {
  rq_method : string;
  rq_url : bytes;
  rq_token : option bytes;
  rq_body : list (string * bytes)
}.

(** What comes back: no response in time, or a status and a body. *)
Inductive ApiAnswer : Type :=
| ApiFailed (e : string)
| ApiAnswered (status : Z) (body : Res string bytes).

(** The draws of a registration: two keys' worth of random bytes, the clock,
    the scalars tried for the device key, and the two answers. *)
Record RegisterEnv : Type := mkRegEnv {
  re_wg_key : bytes;
  re_serial : bytes;
  re_now : Z;
  re_scalars : list bytes;
  re_account : ApiAnswer;
  re_enrolled : ApiAnswer
}.

(** The file: its bytes, or why it was not read. *)
Inductive FileRead : Type := FileBytes (raw : bytes) | FileError (e : ErrorKind).

Section register.
Context `{D : DeviceKeys} `{J : WarpJson} `{B : Base64Std}.

Definition signing_key (creds : WarpCredentials) : Res string device_key :=
  let? der := ok_or (b64s_decode (cr_private_key creds)) "warp: private_key is not valid base64"%string in
  ok_or (key_from_pkcs8 der) "warp: private_key is not a PKCS#8 EC key"%string.

(** [send] once the request is out; the status alone decides about success. *)
Definition send (answer : ApiAnswer) : Res string AccountData :=
  match answer with
  | ApiFailed e => Err e
  | ApiAnswered status body =>
      let? body := body in
      if negb ((200 <=? status) && (status <? 300)) then Err "warp: rejected"%string
      else ok_or (account_from_json body) "warp: cannot parse response"%string
  end.

(** The [for _ in 0..16] loop over the scalars. *)
Fixpoint generate_loop (tries : nat) (scalars : list bytes) : Res string (device_key * bytes) :=
  match tries, scalars with
  | S tries, scalar :: scalars =>
      match key_from_slice scalar with
      | None => generate_loop tries scalars
      | Some key => let? spki := ok_or (key_public_der key) "warp: encode public key"%string in Ok (key, spki)
      end
  | _, _ => Err "warp: failed to generate a device key"%string
  end.

Definition generate_device_key (scalars : list bytes) : Res string (device_key * bytes) := generate_loop 16 scalars.

Definition account_request (opts : RegisterOptions) (env : RegisterEnv) : ApiRequest :=
  mkRequest "POST" (API_URL ++ str "/" ++ API_VERSION ++ str "/reg") None
    [("key"%string, b64s_encode (re_wg_key env)); ("install_id"%string, []); ("fcm_token"%string, []);
     ("tos"%string, cf_time_string (re_now env)); ("model"%string, opt_model opts);
     ("serial_number"%string, hex_lower (re_serial env)); ("os_version"%string, []);
     ("key_type"%string, str "curve25519"); ("tunnel_type"%string, str "wireguard"); ("locale"%string, opt_locale opts)].

Definition enroll_request (id token spki : bytes) : ApiRequest :=
  mkRequest "PATCH" (API_URL ++ str "/" ++ API_VERSION ++ str "/reg/" ++ id) (Some token)
    [("key"%string, b64s_encode spki); ("key_type"%string, str "secp256r1"); ("tunnel_type"%string, str "masque")].

(** The credentials, and the requests that were sent. *)
Definition register (opts : RegisterOptions) (env : RegisterEnv) : Res string WarpCredentials * list ApiRequest :=
  let first := account_request opts env in
  match send (re_account env) with
  | Ok account =>
      if bool_decide (acc_token account = []) then (Err "warp: registration response did not contain a token"%string, [first])
      else
        match generate_device_key (re_scalars env) with
        | Ok (key, spki) =>
            match key_to_pkcs8 key with
            | None => (Err "warp: encode device key"%string, [first])
            | Some pkcs8 =>
                let sent := [first; enroll_request (acc_id account) (acc_token account) spki] in
                (let? enrolled := send (re_enrolled env) in
                 let? peer := ok_or (head (acc_peers enrolled)) "warp: enrollment response has no peers"%string in
                 if bool_decide (peer_public_key peer = []) then Err "warp: enrollment response has no peer public key"%string
                 else
                   Ok (mkCreds (acc_id account) (acc_token account) (b64s_encode pkcs8) (peer_public_key peer)
                         (acc_v4 enrolled) (acc_v6 enrolled) (strip_port (peer_v4 peer)) (strip_port (peer_v6 peer))), sent)
            end
        | Err e => (Err e, [first])
        | Panic => (Panic, [first])
        end
  | Err e => (Err e, [first])
  | Panic => (Panic, [first])
  end.

(** The credentials, the requests that were sent, and what is written to the
    file; [writable] is whether writing succeeds, which changes nothing else. *)
Definition load_or_register (file : FileRead) (opts : RegisterOptions) (env : RegisterEnv) (writable : bool)
    : Res string WarpCredentials * list ApiRequest * option bytes :=
  let loaded :=
    match file with
    | FileBytes raw => creds ← creds_from_json raw; if is_ok (signing_key creds) then Some creds else None
    | FileError _ => None
    end in
  match loaded with
  | Some creds => (Ok creds, [], None)
  | None =>
      match register opts env with
      | (Ok creds, sent) => (Ok creds, sent, if writable then creds_to_json creds else None)
      | (r, sent) => (r, sent, None)
      end
  end.

(** ** The client *)

Definition DEFAULT_SNI : bytes := str "consumer-masque-proxy.cloudflareclient.com".
Definition DEFAULT_PORT : Z := 443.
Definition CONNECT_TIMEOUT : Z := 10.
Definition KEEPALIVE : Z := 25.
Definition IDLE_TIMEOUT : Z := 60.

(** *** TLS *)

Definition QUIC_ALPN : bytes := str "h3".

(** [rcgen] and [rustls] as far as they are used: a key pair from PKCS#8, a
    self-signed certificate between two dates, and what a configuration is
    refused for. *)
Class TlsLibrary := {
  rcgen_key : Type;
  rcgen_from_pkcs8 : bytes -> option rcgen_key;
  rcgen_params_ok : bool;
  rcgen_self_signed : Z * Z * Z -> Z * Z * Z -> rcgen_key -> option bytes;
  tls13_supported : bool;
  tls_client_auth_ok : list bytes -> bytes -> bool
}.

Inductive TlsVersion : Type := TLS12 | TLS13.

(** [rustls::ClientConfig]. *)
Record TlsConfig : Type := mkTls {
  tls_versions : list TlsVersion;
  tls_verifier : Verifier;
  tls_client_chain : list bytes;
  tls_client_key : bytes;
  tls_alpn : list bytes
}.

Context `{T : TlsLibrary}.

(** The certificate and the key in DER. *)
Definition self_signed_client_cert (key : device_key) : Res string (bytes * bytes) :=
  let? key_der := ok_or (key_to_pkcs8 key) "warp: encode device key"%string in
  let? key_pair := ok_or (rcgen_from_pkcs8 key_der) "warp: rcgen rejected device key"%string in
  if negb rcgen_params_ok then Err "warp: build certificate params"%string
  else
    let? cert := ok_or (rcgen_self_signed (2020, 1, 1) (2035, 1, 1) key_pair) "warp: sign client certificate"%string in
    Ok (cert, key_der).

Definition build_tls_config (key : device_key) (endpoint_spki : option bytes) : Res string TlsConfig :=
  let? (cert_der, key_der) := self_signed_client_cert key in
  let verifier := verifier_of endpoint_spki in
  if negb tls13_supported then Err "warp: rustls does not support TLS 1.3"%string
  else if negb (tls_client_auth_ok [cert_der] key_der) then Err "warp: unusable device key for TLS client auth"%string
  else Ok (mkTls [TLS13] verifier [cert_der] key_der [QUIC_ALPN]).

(** *** QUIC *)

(** [MasqueConfig], times in seconds. *)
Record MasqueConfig : Type := mkMasque {
  mc_endpoint : IpAddr * Z;
  mc_sni : bytes;
  mc_connect_timeout : Z;
  mc_keepalive : Z;
  mc_idle_timeout : Z;
  mc_tls : TlsConfig
}.

(** [quinn::TransportConfig], the fields that are set, and [quinn::ClientConfig]. *)
Record TransportConfig : Type := mkTransport {
  tp_keep_alive_interval : option Z;
  tp_max_idle_timeout : option Z;
  tp_max_concurrent_bidi_streams : Z;
  tp_max_concurrent_uni_streams : Z;
  tp_stream_receive_window : Z;
  tp_receive_window : Z
}.
Record QuicConfig : Type := mkQuic { qc_tls : TlsConfig; qc_transport : TransportConfig }.

(** [quinn]'s checks: a timeout that can be sent, and a TLS configuration with
    the suites QUIC needs. *)
Class QuicLimits := {
  idle_timeout_ok : Z -> bool;
  quic_tls_rejected : TlsConfig -> option string
}.

Context `{QL : QuicLimits}.

Definition client_config (this : MasqueConfig) : Res string QuicConfig :=
  if negb (idle_timeout_ok (mc_idle_timeout this)) then Err "warp: invalid idle timeout"%string
  else
    let transport := mkTransport (Some (mc_keepalive this)) (Some (mc_idle_timeout this)) 4 8 (Z.shiftl 1 20) (Z.shiftl 8 20) in
    match quic_tls_rejected (mc_tls this) with
    | Some e => Err (String.append "warp: QUIC TLS config rejected: " e)
    | None => Ok (mkQuic (mc_tls this) transport)
    end.

Context `{N : IpNetworks}.

(** The state of [WarpClient] that does not change. *)
Record WarpClient : Type := mkWarpClient {
  wc_quic : QuicConfig;
  wc_masque : MasqueConfig;
  wc_bind : IpAddr;
  wc_bypass : Bypass
}.

(** [WarpClient::init]; [bind] is the error of binding the socket. *)
Definition WarpClient_init (section : WarpSection) (file : FileRead) (env : RegisterEnv) (writable : bool)
    (bind : option string) : Res string WarpClient * list ApiRequest * option bytes :=
  let opts := mkRegOptions (default DEFAULT_MODEL (ws_register_model section)) (default DEFAULT_LOCALE (ws_register_locale section)) in
  let '(creds, sent, written) := load_or_register file opts env writable in
  (let? creds := map_err (fun _ => "warp: cannot obtain credentials"%string) creds in
   let? key := signing_key creds in
   let? pin := (if ws_insecure_skip_verify section then Ok None else let? spki := endpoint_spki (cr_endpoint_pub_key creds) in Ok (Some spki)) in
   let? tls := build_tls_config key pin in
   let? addr := resolve_endpoint section creds in
   let port := default DEFAULT_PORT (ws_port section) in
   let idle_timeout := default IDLE_TIMEOUT (ws_idle_timeout_secs section) in
   let masque :=
     mkMasque (addr, port) (default DEFAULT_SNI (ws_sni section)) (default CONNECT_TIMEOUT (ws_connect_timeout_secs section))
       (default KEEPALIVE (ws_keepalive_secs section)) idle_timeout tls in
   let? _ := match bind with Some e => Err e | None => Ok tt end in
   let? quic := client_config masque in
   let? bypass := Bypass_new section in
   Ok (mkWarpClient quic masque (match addr with V4 _ => V4 0 | V6 _ => V6 0 end) bypass), sent, written).
End register.

(** ** Lemmas *)

Section laws.
Context `{D : DeviceKeys} {DL : DeviceKeysLaws D} `{J : WarpJson} `{B : Base64Std} {BL : Base64StdLaws B}.

Lemma generate_loop_ok tries : forall scalars key spki, generate_loop tries scalars = Ok (key, spki) ->
  exists scalar, scalar ∈ scalars /\ key_from_slice scalar = Some key /\ key_public_der key = Some spki.
Proof.
  induction tries as [|tries IH]; intros [|scalar scalars] key spki; cbn [generate_loop]; [done..|].
  destruct (key_from_slice scalar) as [k|] eqn:Hk.
  - destruct (key_public_der k) as [d|] eqn:Hd; cbn; [|done]. intros [= <- <-]. exists scalar. split; [by left|done].
  - intros (s & Hs & H)%IH. exists s. split; [by right|done].
Qed.

(** What a registration gives: a usable key, whose public key was enrolled
    with the token of the first answer. *)
Record registered (opts : RegisterOptions) (env : RegisterEnv) (creds : WarpCredentials) (sent : list ApiRequest) : Prop := {
  rg_key : exists key spki, signing_key creds = Ok key /\ key_public_der key = Some spki /\
    (exists scalar, scalar ∈ re_scalars env /\ key_from_slice scalar = Some key) /\
    sent = [account_request opts env; enroll_request (cr_id creds) (cr_access_token creds) spki];
  rg_token : cr_access_token creds <> [];
  rg_pin : cr_endpoint_pub_key creds <> []
}.

Lemma register_ok opts env creds sent : register opts env = (Ok creds, sent) -> registered opts env creds sent.
Proof.
  unfold register. destruct (send (re_account env)) as [account| |]; [|done..]. case_bool_decide as Ht; [done|].
  destruct (generate_device_key (re_scalars env)) as [[key spki]| |] eqn:Hg; [|done..].
  apply generate_loop_ok in Hg as (scalar & Hin & Hs & Hd). destruct (key_to_pkcs8 key) as [pkcs8|] eqn:Hk; [|done].
  destruct (send (re_enrolled env)) as [enrolled| |]; cbn [res_bind]; [|done..].
  destruct (head (acc_peers enrolled)) as [peer|]; cbn [ok_or res_bind]; [|done]. case_bool_decide as Hp; [done|].
  intros [= <- <-]. split; cbn [cr_id cr_access_token cr_endpoint_pub_key]; [|done..]. exists key, spki. split_and!; [|done|by eexists|done].
  unfold signing_key. cbn [cr_private_key]. rewrite b64s_round. cbn. by rewrite (key_pkcs8 _ _ Hk).
Qed.

(** The credentials a file holds, if they can be used. *)
Definition file_creds (file : FileRead) : option WarpCredentials :=
  match file with
  | FileBytes raw => creds ← creds_from_json raw; if is_ok (signing_key creds) then Some creds else None
  | FileError _ => None
  end.

Lemma file_creds_usable file creds : file_creds file = Some creds -> exists key, signing_key creds = Ok key.
Proof.
  unfold file_creds. destruct file as [raw|]; [|done]. intros (c & _ & H)%bind_Some.
  destruct (signing_key c) eqn:Hs; [|done..]. injection H as <-. eauto.
Qed.
End laws.

(** ** Properties *)


(** The client pins the key of its credentials unless it is told not to,
    presents a certificate of its device key, and its socket has the family of
    the endpoint. *)
Theorem warp_client_pins `{D : DeviceKeys} `{J : WarpJson} `{B : Base64Std} `{N : IpNetworks} `{T : TlsLibrary} `{QL : QuicLimits}
    section file env writable bind wc sent written :
  WarpClient_init section file env writable bind = (Ok wc, sent, written) ->
  exists creds key pin,
    load_or_register file (mkRegOptions (default DEFAULT_MODEL (ws_register_model section)) (default DEFAULT_LOCALE (ws_register_locale section)))
      env writable = (Ok creds, sent, written) /\
    signing_key creds = Ok key /\
    (if ws_insecure_skip_verify section then pin = None
     else exists spki, endpoint_spki (cr_endpoint_pub_key creds) = Ok spki /\ pin = Some spki) /\
    build_tls_config key pin = Ok (mc_tls (wc_masque wc)) /\ client_config (wc_masque wc) = Ok (wc_quic wc) /\
    same_family (wc_bind wc) (fst (mc_endpoint (wc_masque wc))) = true /\
    Bypass_new section = Ok (wc_bypass wc).
Proof.
  unfold WarpClient_init. destruct (load_or_register _ _ _ _) as [[[creds| |] s] w] eqn:Hl; cbn [map_err res_bind]; [|done..].
  intros [= H <- <-]. apply res_bind_Ok in H as (key & Hk & H). apply res_bind_Ok in H as (pin & Hpin & H).
  apply res_bind_Ok in H as (tls & Ht & H). exists creds, key, pin. split; [done|]. split; [done|].
  apply res_bind_Ok in H as (addr & _ & H). apply res_bind_Ok in H as ([] & _ & H). apply res_bind_Ok in H as (quic & Hq & H).
  apply res_bind_Ok in H as (bypass & Hb & [= <-]). split; [|split; [done|]; split; [done|]; split; [by destruct addr|done]].
  destruct (ws_insecure_skip_verify section); [by injection Hpin as <-|].
  apply res_bind_Ok in Hpin as (spki & Hs & [= <-]). by exists spki.
Qed.

(** The TLS configuration: one protocol version, the verifier of the pin, and
    a certificate made of the device key. *)
Lemma build_tls_config_ok `{D : DeviceKeys} `{T : TlsLibrary} key pin tls :
  build_tls_config key pin = Ok tls ->
  tls_versions tls = [TLS13] /\ tls_verifier tls = verifier_of pin /\ tls_alpn tls = [QUIC_ALPN] /\
  key_to_pkcs8 key = Some (tls_client_key tls) /\
  exists pair cert, rcgen_from_pkcs8 (tls_client_key tls) = Some pair /\
    rcgen_self_signed (2020, 1, 1) (2035, 1, 1) pair = Some cert /\ tls_client_chain tls = [cert].
Proof.
  unfold build_tls_config, self_signed_client_cert. intros H. apply res_bind_Ok in H as ([cert der] & Hc & H).
  destruct (negb tls13_supported); [done|]. destruct (negb (tls_client_auth_ok _ _)); [done|]. injection H as <-.
  apply res_bind_Ok in Hc as (d & Hd & Hc). apply res_bind_Ok in Hc as (pair & Hp & Hc). destruct (negb rcgen_params_ok); [done|].
  apply res_bind_Ok in Hc as (c & Hs & [= <- <-]). cbn. split_and!; try done.
  - by destruct (key_to_pkcs8 key); [injection Hd as ->|].
  - destruct (rcgen_from_pkcs8 d) as [p|] eqn:Hf; [injection Hp as ->|done]. exists pair.
    destruct (rcgen_self_signed _ _ _) as [x|] eqn:He; [injection Hs as ->|done]. by exists c.
Qed.

(** ** Witnesses *)

(** A key is its scalar; JSON is a text that names one device. *)
#[export] Instance toy_device_keys : DeviceKeys :=
  {| device_key := bytes; key_from_slice := fun s => if zlen s =? 32 then Some s else None;
     key_from_pkcs8 := fun d => Some d; key_to_pkcs8 := fun k => Some k; key_public_der := fun k => Some (str "pub" ++ k) |}.
#[export] Instance toy_device_keys_laws : DeviceKeysLaws toy_device_keys.
Proof. split. by intros k d [= <-]. Qed.

Definition toy_scalar : bytes := zrep 32 (zb 7).
Definition toy_creds : WarpCredentials :=
  mkCreds (str "id") (str "token") (b64s_encode toy_scalar) (str "AAAB") [] [] (str "162.159.198.1") [].
#[export] Instance toy_warp_json : WarpJson :=
  {| creds_to_json := fun c => if decide (cr_id c = str "id" /\ cr_access_token c = str "token" /\ cr_private_key c = b64s_encode toy_scalar /\
       cr_endpoint_pub_key c = str "AAAB" /\ cr_ipv4 c = [] /\ cr_ipv6 c = [] /\ cr_endpoint_v4 c = str "162.159.198.1" /\ cr_endpoint_v6 c = [])
       then Some (str "{device}") else None;
     creds_from_json := fun t => if decide (t = str "{device}") then Some toy_creds else None;
     account_from_json := fun t => if decide (t = str "{account}")
       then Some (mkAccount (str "id") (str "token") [mkPeer (str "AAAB") (str "162.159.198.1:443") []] [] []) else None |}.
#[export] Instance toy_warp_json_laws : WarpJsonLaws toy_warp_json.
Proof.
  split. intros [] t. cbn -[decide str].
  case_decide as H; [|done]. intros [= <-]. deex. subst. by rewrite decide_True.
Qed.

(** The first scalar is no key. *)
Definition toy_reg_env : RegisterEnv :=
  mkRegEnv (zrep 32 (zb 1)) (zrep 8 (zb 2)) 951782400 [[]; toy_scalar] (ApiAnswered 200 (Ok (str "{account}"))) (ApiAnswered 201 (Ok (str "{account}"))).
Definition toy_reg_opts : RegisterOptions := mkRegOptions DEFAULT_MODEL DEFAULT_LOCALE.

