(* ===== verification/MasqueConn.v ===== *)
(** * The WARP connection

    [MasqueConn] of [src/warp/masque.rs]: the QUIC connection to the WARP
    endpoint with its three HTTP/3 streams, the tunnels opened over it, the end
    of a tunnel's stream and the object that joins its halves; and what the two
    certificate verifiers of the connection do with signatures. QUIC ([quinn])
    and TLS ([rustls]) are parameters. *)

From S2P Require Import Prelude Cipher Frame Shaper Decoder Upstream Text Net H3 Masque Token Pin Warp Register.

Definition STREAM_QPACK_ENCODER : Z := 0x02.
Definition STREAM_QPACK_DECODER : Z := 0x03.

(** ** TLS *)

(** [rustls]'s provider of algorithms: the schemes it supports and how it
    verifies a signature of TLS 1.3. *)
Class CryptoProvider := {
  provider : Type;
  signature : Type;
  supported_schemes : provider -> list Z;
  verify_tls13 : provider -> bytes -> bytes -> signature -> Res string unit
}.

Section tls.
Context `{CP : CryptoProvider}.

(** The default provider, as it is installed before and after a builder was
    asked for. *)
Definition default_crypto_provider (before after : option provider) : Res string provider :=
  match before with
  | Some p => Ok p
  | None => match after with Some p => Ok p | None => Panic end
  end.

(** Both verifiers. *)
Definition verify_tls12_signature (v : Verifier) (message cert : bytes) (dss : signature) : Res string unit :=
  Err "Tls12NotOffered"%string.
Definition verify_tls13_signature (p : provider) (v : Verifier) (message cert : bytes) (dss : signature) : Res string unit :=
  verify_tls13 p message cert dss.
Definition supported_verify_schemes (p : provider) (v : Verifier) : list Z := supported_schemes p.
End tls.

(** ** The connection *)

Section conn.
Context `{Q : QuicSend}.

(** What connecting gives: an address that cannot be used, no answer in time,
    an error, or a connection. *)
Inductive Connecting (A : Type) : Type :=
| ConnectRefused (e : string)
| HandshakeTimedOut
| HandshakeFailed (e : string)
| HandshakeDone (c : A).

(** [quinn]'s endpoint and connections; connecting depends on the attempt.
    The outcomes of an awaited call are as in [QuicSend]. *)
Class QuicConn := {
  qconn : Type;
  q_connect : QuicConfig -> IpAddr * Z -> bytes -> nat -> Connecting qconn;
  q_peer_cert : qconn -> bytes;
  q_open_uni : qconn -> option (Res string qstream) * qconn;
  q_open_bi : qconn -> option (Res string (qstream * list ReadEvent)) * qconn;
  q_close_reason : qconn -> option string;
  q_close : Z -> bytes -> qconn -> qconn;
  q_reset : Z -> qstream -> qstream;
  write_error_text : WriteError -> string
}.

(** A connection is made only to a peer whose certificate the configured
    verifier accepts; new streams are empty; a closed connection says so. *)
Class QuicConnLaws (C : QuicConn) := {
  q_connect_verified : forall cfg addr sni n c,
    q_connect cfg addr sni n = HandshakeDone _ c -> verify_server_cert (tls_verifier (qc_tls cfg)) (q_peer_cert c) = Ok tt;
  q_open_uni_ok : forall c r c', q_open_uni c = (r, c') ->
    r <> Some Panic /\ q_peer_cert c' = q_peer_cert c /\ forall s, r = Some (Ok s) -> qsent s = [];
  q_open_bi_ok : forall c r c', q_open_bi c = (r, c') ->
    r <> Some Panic /\ q_peer_cert c' = q_peer_cert c /\ forall s rd, r = Some (Ok (s, rd)) -> qsent s = [];
  q_closed : forall code reason c, q_close_reason (q_close code reason c) <> None;
  q_reset_sent : forall code s, qsent (q_reset code s) = qsent s
}.

Context `{C : QuicConn}.

Record MasqueConn : Type := mkConn {
  mq_conn : qconn;
  mq_control : qstream;
  mq_qpack_encoder : qstream;
  mq_qpack_decoder : qstream
}.

(** An awaited call whose error gets a context; [None] is a call given up. *)
Definition await_context {A E} (context : E -> string) (r : option (Res E A)) : option (Res string A) :=
  option_map (map_err context) r.

(** One unidirectional stream and what is written on it first. *)
Definition open_uni_with (opening : string) (writing : WriteError -> string) (first : bytes) (conn : qconn)
    : option (Res string qstream) * qconn :=
  let '(r, conn) := q_open_uni conn in
  match await_context (fun _ => opening) r with
  | Some (Ok s) =>
      let '(r, s) := q_write_all first s in
      (match await_context writing r with
       | Some (Ok _) => Some (Ok s)
       | Some (Err e) => Some (Err e)
       | Some Panic => Some Panic
       | None => None
       end, conn)
  | r => (r, conn)
  end.

(** [MasqueConn::establish], the [n]th attempt. *)
Definition establish (quic : QuicConfig) (cfg : MasqueConfig) (n : nat) : option (Res string MasqueConn) :=
  match q_connect quic (mc_endpoint cfg) (mc_sni cfg) n with
  | ConnectRefused _ _ => Some (Err "warp: invalid endpoint address"%string)
  | HandshakeTimedOut _ => Some (Err "warp: QUIC handshake timed out"%string)
  | HandshakeFailed _ _ => Some (Err "warp: QUIC handshake failed"%string)
  | HandshakeDone _ conn =>
      match open_uni_with "warp: open control stream" (fun _ => "warp: send SETTINGS"%string) control_stream_bytes conn with
      | (Some (Ok control), conn) =>
          match open_uni_with "warp: open QPACK encoder" write_error_text [zb STREAM_QPACK_ENCODER] conn with
          | (Some (Ok qpack_encoder), conn) =>
              match open_uni_with "warp: open QPACK decoder" write_error_text [zb STREAM_QPACK_DECODER] conn with
              | (Some (Ok qpack_decoder), conn) => Some (Ok (mkConn conn control qpack_encoder qpack_decoder))
              | (Some (Err e), _) => Some (Err e)
              | (Some Panic, _) => Some Panic
              | (None, _) => None
              end
          | (Some (Err e), _) => Some (Err e)
          | (Some Panic, _) => Some Panic
          | (None, _) => None
          end
      | (Some (Err e), _) => Some (Err e)
      | (Some Panic, _) => Some Panic
      | (None, _) => None
      end
  end.

Definition is_usable (this : MasqueConn) : bool :=
  match q_close_reason (mq_conn this) with None => true | Some _ => false end.

Definition set_qconn (this : MasqueConn) (c : qconn) : MasqueConn :=
  mkConn c (mq_control this) (mq_qpack_encoder this) (mq_qpack_decoder this).

Definition close (this : MasqueConn) : MasqueConn := set_qconn this (q_close 0 (str "reconnect") (mq_conn this)).

(** [MasqueConn::open] from the new stream on is [open_tunnel]; [None] inside is a
    call given up, [None] outside a response head that needs more fuel. *)
Definition MasqueConn_open (authority : string) (this : MasqueConn)
    : option (option (Res string (MasqueSend * MasqueRecv))) * MasqueConn :=
  let '(r, conn) := q_open_bi (mq_conn this) in
  (match await_context (fun _ => "warp: open request stream"%string) r with
   | Some (Ok (send, recv)) => open_tunnel authority send recv
   | Some (Err e) => Some (Some (Err e))
   | Some Panic => Some (Some Panic)
   | None => Some None
   end, set_qconn this conn).

(** ** The end of a tunnel's stream *)

(** [Drop for MasqueSend]: the stream is reset unless it was finished. *)
Definition masque_drop (this : MasqueSend) : qstream :=
  if ms_finished this then ms_stream this else q_reset 0 (ms_stream this).

(** ** The two halves as one object *)

Definition DuplexIo : Type := MasqueRecv * MasqueSend.

Definition into_io (send : MasqueSend) (recv : MasqueRecv) : DuplexIo := (recv, send).

Definition duplex_poll_read (limit : Z) (this : DuplexIo) : option (Poll (Res IoError bytes) * DuplexIo) :=
  '(r, recv) ← masque_poll_read limit (fst this); Some (r, (recv, snd this)).
Definition duplex_poll_write (buf : bytes) (this : DuplexIo) : Poll (Res IoError Z) * DuplexIo :=
  let '(r, send) := masque_poll_write buf (snd this) in (r, (fst this, send)).
Definition duplex_poll_flush (this : DuplexIo) : Poll (Res IoError unit) * DuplexIo := (Ready (Ok tt), this).
Definition duplex_poll_shutdown (this : DuplexIo) : Poll (Res IoError unit) * DuplexIo :=
  let '(r, send) := masque_poll_shutdown (snd this) in (r, (fst this, send)).
End conn.

(** ** Properties *)

Section laws.
Context `{Q : QuicSend} {QL : QuicSendLaws Q} {C : QuicConn} {CL : QuicConnLaws C}.

(** A stream that is opened carries what is written on it first, and the
    connection is still the same one. *)
Lemma open_uni_with_ok opening writing first conn r conn' :
  open_uni_with opening writing first conn = (r, conn') ->
  r <> Some Panic /\ q_peer_cert conn' = q_peer_cert conn /\ forall s, r = Some (Ok s) -> qsent s = first.
Proof.
  unfold open_uni_with. destruct (q_open_uni conn) as [o c] eqn:Ho. destruct (q_open_uni_ok _ _ _ Ho) as (Hp & Hc & Hs).
  destruct o as [[s|e|]|]; cbn [await_context option_map map_err]; try (by intros [= <- <-]).
  destruct (q_write_all first s) as [w s'] eqn:Hw. destruct (q_write_all_any _ _ _ _ Hw) as [Hp' _].
  intros [= <- <-]. destruct w as [[[]|e|]|]; cbn; try (split; [done|]; split; [done|]; done).
  split; [done|]. split; [done|]. intros ? [= <-]. by rewrite (q_write_all_ok _ _ _ Hw), (Hs s eq_refl).
Qed.

(** Establishing never panics; a connection that is established has a peer
    its verifier accepts, and its three streams open as HTTP/3 says. *)
Lemma establish_ok quic cfg n :
  establish quic cfg n <> Some Panic /\
  forall mc, establish quic cfg n = Some (Ok mc) ->
    verify_server_cert (tls_verifier (qc_tls quic)) (q_peer_cert (mq_conn mc)) = Ok tt /\
    qsent (mq_control mc) = control_stream_bytes /\ qsent (mq_qpack_encoder mc) = [zb STREAM_QPACK_ENCODER] /\
    qsent (mq_qpack_decoder mc) = [zb STREAM_QPACK_DECODER].
Proof.
  unfold establish. destruct (q_connect quic (mc_endpoint cfg) (mc_sni cfg) n) as [| | |c0] eqn:Hc; try done. apply q_connect_verified in Hc.
  destruct (open_uni_with _ _ control_stream_bytes c0) as [r1 c1] eqn:H1. apply open_uni_with_ok in H1 as (P1 & C1 & S1).
  destruct r1 as [[s1|e|]|]; try done.
  destruct (open_uni_with _ _ _ c1) as [r2 c2] eqn:H2. apply open_uni_with_ok in H2 as (P2 & C2 & S2).
  destruct r2 as [[s2|e|]|]; try done.
  destruct (open_uni_with _ _ _ c2) as [r3 c3] eqn:H3. apply open_uni_with_ok in H3 as (P3 & C3 & S3).
  destruct r3 as [[s3|e|]|]; try done. split; [done|]. intros mc [= <-]. cbn. split_and!; [|by apply S1|by apply S2|by apply S3].
  by rewrite C3, C2, C1.
Qed.

(** A tunnel starts with the request for its target, over the same connection. *)
Lemma MasqueConn_open_ok authority this r this' send recv :
  MasqueConn_open authority this = (r, this') -> r = Some (Some (Ok (send, recv))) ->
  q_peer_cert (mq_conn this') = q_peer_cert (mq_conn this) /\
  qsent (ms_stream send) = frame_bytes FRAME_HEADERS (encode_connect_headers (str authority)) /\ ms_finished send = false.
Proof.
  unfold MasqueConn_open. destruct (q_open_bi (mq_conn this)) as [o c] eqn:Ho. destruct (q_open_bi_ok _ _ _ Ho) as (Hp & Hc & Hs).
  intros [= <- <-]. cbn [set_qconn mq_conn]. destruct o as [[[s rd]|e|]|]; cbn [await_context option_map map_err]; try done.
  unfold open_tunnel. rewrite (put_varint_app (put_varint [] _)), <- app_assoc. fold (varint FRAME_HEADERS).
  destruct (q_write_all _ s) as [[[[]|e|]|] s'] eqn:Hw; try done. intros H. apply bind_Some in H as ([h rd'] & _ & H).
  destruct h as [[[st pending]|e|]|]; try done. destruct (_ && _); [|done]. injection H as <- <-.
  split; [done|]. split; [|done]. cbn [MasqueSend_new ms_stream]. apply q_write_all_ok in Hw. rewrite (Hs s rd eq_refl) in Hw. exact Hw.
Qed.

(** A connection after any number of requests for tunnels. *)
Definition asked (this this' : MasqueConn) : Prop := exists authority, snd (MasqueConn_open authority this) = this'.

Lemma asked_cert this this' : rtc asked this this' -> q_peer_cert (mq_conn this') = q_peer_cert (mq_conn this).
Proof.
  induction 1 as [|x y z [authority <-] _ IH]; [done|]. rewrite IH. unfold MasqueConn_open.
  destruct (q_open_bi (mq_conn x)) as [o c] eqn:Ho. by destruct (q_open_bi_ok _ _ _ Ho) as (_ & Hc & _).
Qed.
End laws.

(** C26: what goes over WARP goes to the pinned endpoint. When the client was set
    up without turning the check off, every connection it establishes is to a
    peer that shows the key of the device's credentials; the client shows it
    a certificate of its device key and speaks TLS 1.3 and HTTP/3 only; the
    connection's three streams open as HTTP/3 says. However many tunnels were
    asked for before, a tunnel opened over it is to that peer, and starts with the
    request for its target. Establishing never panics. *)
Theorem warp_endpoint_pinned `{D : DeviceKeys} `{J : WarpJson} `{B : Base64Std} `{N : IpNetworks} `{T : TlsLibrary} `{QM : QuicLimits}
    `{Q : QuicSend} (QL : QuicSendLaws Q) `{C : !QuicConn} (CL : QuicConnLaws C) section file env writable bind wc sent written n :
  WarpClient_init section file env writable bind = (Ok wc, sent, written) -> ws_insecure_skip_verify section = false ->
  establish (wc_quic wc) (wc_masque wc) n <> Some Panic /\
  forall mc, establish (wc_quic wc) (wc_masque wc) n = Some (Ok mc) ->
    exists creds key spki tls pair cert,
      load_or_register file (mkRegOptions (default DEFAULT_MODEL (ws_register_model section)) (default DEFAULT_LOCALE (ws_register_locale section)))
        env writable = (Ok creds, sent, written) /\
      signing_key creds = Ok key /\ endpoint_spki (cr_endpoint_pub_key creds) = Ok spki /\
      qc_tls (wc_quic wc) = tls /\ tls_versions tls = [TLS13] /\ tls_alpn tls = [QUIC_ALPN] /\
      key_to_pkcs8 key = Some (tls_client_key tls) /\ rcgen_from_pkcs8 (tls_client_key tls) = Some pair /\
      rcgen_self_signed (2020, 1, 1) (2035, 1, 1) pair = Some cert /\ tls_client_chain tls = [cert] /\
      qsent (mq_control mc) = control_stream_bytes /\ qsent (mq_qpack_encoder mc) = [zb STREAM_QPACK_ENCODER] /\
      qsent (mq_qpack_decoder mc) = [zb STREAM_QPACK_DECODER] /\
      forall mc' authority mc'' send recv,
        rtc asked mc mc' -> MasqueConn_open authority mc' = (Some (Some (Ok (send, recv))), mc'') ->
        extract_spki (q_peer_cert (mq_conn mc'')) = Some spki /\
        qsent (ms_stream send) = frame_bytes FRAME_HEADERS (encode_connect_headers (str authority)).
Proof.
  intros Hinit Hpin. apply warp_client_pins in Hinit as (creds & key & pin & Hl & Hk & Hs & Ht & Hq & _). rewrite Hpin in Hs.
  destruct Hs as (spki & Hspki & ->). destruct (build_tls_config_ok _ _ _ Ht) as (Hv & Hver & Ha & Hkey & pair & cert & Hp & Hc & Hch).
  assert (Htls : qc_tls (wc_quic wc) = mc_tls (wc_masque wc)).
  { unfold client_config in Hq. destruct (negb _); [done|]. destruct (quic_tls_rejected _); [done|]. by injection Hq as <-. }
  destruct (establish_ok (wc_quic wc) (wc_masque wc) n) as [Hpanic Hest]. split; [done|].
  intros mc Hmc. destruct (Hest mc Hmc) as (Hcert & H1 & H2 & H3). exists creds, key, spki, (mc_tls (wc_masque wc)), pair, cert.
  split_and!; try done. intros mc' authority mc'' send recv Hask Hopen.
  destruct (MasqueConn_open_ok authority mc' _ _ send recv Hopen eq_refl) as (Hc'' & Hsent & _). split; [|done].
  rewrite Hc'', (asked_cert mc mc' Hask). rewrite Htls, Hver in Hcert. cbn in Hcert.
  destruct (extract_spki _) as [k|]; [|done]. cbn in Hcert. by destruct (decide (k = spki)) as [->|].
Qed.

(** ** Witness *)

(** Credentials with the key of the certificate, as a file holds them. *)
Definition conn_creds : WarpCredentials :=
  mkCreds (str "id") (str "token") (b64s_encode toy_scalar) (b64s_encode toy_spki) [] [] (str "162.159.198.1") [].
#[local] Instance conn_json : WarpJson :=
  {| creds_to_json := fun _ => None; creds_from_json := fun t => if decide (t = str "{conn}") then Some conn_creds else None;
     account_from_json := fun _ => None |}.
#[local] Instance conn_nets : IpNetworks := {| ip_net := unit; net_from_str := fun _ => None; net_contains := fun _ _ => false |}.

(** Libraries that refuse little; the server's certificate is always the same. *)
#[local] Instance conn_tls : TlsLibrary :=
  {| rcgen_key := bytes; rcgen_from_pkcs8 := Some; rcgen_params_ok := true; rcgen_self_signed := fun _ _ k => Some (str "cert" ++ k);
     tls13_supported := true; tls_client_auth_ok := fun _ _ => true |}.
#[local] Instance conn_limits : QuicLimits := {| idle_timeout_ok := fun t => t <? 2 ^ 52; quic_tls_rejected := fun _ => None |}.

#[local] Instance toy_conn : QuicConn (Q := toy_quic) :=
  {| qconn := bytes * option string;
     q_connect := fun cfg _ _ _ =>
       match verify_server_cert (tls_verifier (qc_tls cfg)) (cert_bytes toy_certificate) with
       | Ok _ => HandshakeDone _ (cert_bytes toy_certificate, None)
       | _ => HandshakeFailed _ "invalid peer certificate"
       end;
     q_peer_cert := fst;
     q_open_uni := fun c => (Some (Ok ([] : @qstream toy_quic)), c);
     q_open_bi := fun c => (Some (Ok ([] : @qstream toy_quic, [RdData warp_response])), c);
     q_close_reason := snd;
     q_close := fun _ _ c => (fst c, Some "closed"%string);
     q_reset := fun _ s => s;
     write_error_text := fun _ => "write error"%string |}.

#[local] Instance toy_conn_laws : QuicConnLaws toy_conn.
Proof.
  split; cbn -[verify_server_cert cert_bytes].
  - intros cfg addr sni n c. destruct (verify_server_cert _ _) as [[]| |] eqn:Hv; [|done..]. by intros [= <-].
  - intros c r c' [= <- <-]. split; [done|]. split; [done|]. by intros s [= <-].
  - intros c r c' [= <- <-]. split; [done|]. split; [done|]. by intros s rd [= <- <-].
  - done.
  - done.
Qed.

Definition conn_section : WarpSection :=
  mkWarpSection true None None None None None None None None None None false true [] [].

(** A connection of a client whose credentials hold the endpoint's key, and
    the second tunnel over it. *)
Lemma warp_endpoint_pinned_witness :
  exists wc sent written mc mc'' send recv,
    WarpClient_init (D := toy_device_keys) conn_section (FileBytes (str "{conn}")) toy_reg_env true None = (Ok wc, sent, written) /\
    establish (Q := toy_quic) (wc_quic wc) (wc_masque wc) 0 = Some (Ok mc) /\
    MasqueConn_open (Q := toy_quic) "a:1" (snd (MasqueConn_open (Q := toy_quic) "b:2" mc)) = (Some (Some (Ok (send, recv))), mc'') /\
    extract_spki (q_peer_cert (Q := toy_quic) (mq_conn (Q := toy_quic) mc'')) = Some toy_spki.
Proof.
  destruct (WarpClient_init (D := toy_device_keys) conn_section (FileBytes (str "{conn}")) toy_reg_env true None) as [[r sent] written] eqn:Hinit.
  assert (Hr : is_ok r = true).
  { change r with (fst (fst (r, sent, written))). rewrite <- Hinit. vm_compute. reflexivity. }
  destruct r as [wc| |]; [|discriminate|discriminate].
  destruct (warp_endpoint_pinned (D := toy_device_keys) (Q := toy_quic) toy_quic_laws (C := toy_conn) toy_conn_laws
    conn_section (FileBytes (str "{conn}")) toy_reg_env true None wc sent written 0 Hinit) as [_ H]; [reflexivity|].
  assert (Hest : match establish (Q := toy_quic) (wc_quic wc) (wc_masque wc) 0 with Some (Ok _) => true | _ => false end = true).
  { vm_compute in Hinit. injection Hinit as <- _ _. vm_compute. reflexivity. }
  destruct (establish (Q := toy_quic) (wc_quic wc) (wc_masque wc) 0) as [[mc| |]|] eqn:Hmc; [|discriminate|discriminate|discriminate].
  destruct (H mc eq_refl) as (creds & key & spki & tls & pair & cert & Hl & _ & Hs & _ & _ & _ & _ & _ & _ & _ & _ & _ & _ & Hopen).
  assert (Ho : match MasqueConn_open (Q := toy_quic) "a:1" (snd (MasqueConn_open (Q := toy_quic) "b:2" mc)) with
               | (Some (Some (Ok _)), _) => true | _ => false end = true).
  { destruct mc as [[c o] s1 s2 s3]. vm_compute. reflexivity. }
  destruct (MasqueConn_open (Q := toy_quic) "a:1" _) as [[[[[send recv]| |]|]|] mc''] eqn:Hm; [|discriminate|discriminate|discriminate|discriminate].
  exists wc, sent, written, mc, mc'', send, recv. split; [reflexivity|]. split; [exact Hmc|]. split; [exact Hm|].
  destruct (Hopen (snd (MasqueConn_open (Q := toy_quic) "b:2" mc)) "a:1"%string mc'' send recv) as [Hspki _].
  - eapply rtc_l; [by eexists|apply rtc_refl].
  - exact Hm.
  - rewrite Hspki. vm_compute in Hl. injection Hl as <- _ _. vm_compute in Hs. injection Hs as <-. reflexivity.
Defined.
