(* ===== verification/WarpUpstream.v ===== *)
(** * The two kinds of upstream

    [Upstream], [UpstreamRead] and [UpstreamWrite] of [src/server/upstream.rs]: the
    target's connection as the stream's actors hold it, a TCP socket or a
    tunnel over WARP. As a [FrameSink] it meets the upload actor's laws, so what
    [Upload] to [Duplex] show of a stream holds over WARP; and a
    reader of a tunnel sees what it could see of a socket. *)

From S2P Require Import Prelude Cipher Frame Shaper Decoder Errors Registry Upstream Upload Handlers Tunnel Service Lifecycle EndToEnd Duplex Text H3 Masque MasqueConn.

Section upstream.
Context `{S : Socket} `{Q : QuicSend}.

(** A socket's halves: what it reads and what it is written to. *)
Inductive Upstream : Type :=
| UpDirect (read : list ReadEvent) (write : socket)
| UpWarp (send : MasqueSend) (recv : MasqueRecv).

Inductive UpstreamRead : Type := ReadDirect (read : list ReadEvent) | ReadWarp (recv : MasqueRecv).
Inductive UpstreamWrite : Type := WriteDirect (write : socket) | WriteWarp (send : MasqueSend).

Definition into_split (this : Upstream) : UpstreamRead * UpstreamWrite :=
  match this with
  | UpDirect read write => (ReadDirect read, WriteDirect write)
  | UpWarp send recv => (ReadWarp recv, WriteWarp send)
  end.

(** [None] only when the fuel of [masque_poll_read] runs out. *)
Definition upstream_poll_read (limit : Z) (this : UpstreamRead) : option (Poll (Res IoError bytes) * UpstreamRead) :=
  match this with
  | ReadDirect read => let '(r, read) := poll_read limit read in Some (r, ReadDirect read)
  | ReadWarp recv => '(r, recv) ← masque_poll_read limit recv; Some (r, ReadWarp recv)
  end.

(** [None] outside only when the fuel of [masque_write_frames] runs out. *)
Definition upstream_write_frames (frames : list bytes) (this : UpstreamWrite)
    : option (option (Res IoError unit) * UpstreamWrite) :=
  match this with
  | WriteDirect write => let '(r, write) := write_tcp_frames frames write in Some (r, WriteDirect write)
  | WriteWarp send => '(r, send) ← masque_write_frames frames send; Some (r, WriteWarp send)
  end.

Definition upstream_shutdown (this : UpstreamWrite) : option (Res IoError unit) * UpstreamWrite :=
  match this with
  | WriteDirect write => let '(r, write) := sock_shutdown write in (r, WriteDirect write)
  | WriteWarp send => let '(r, send) := masque_shutdown send in (Some r, WriteWarp send)
  end.

(** What the target is sent: over WARP, what the DATA frames on the tunnel's
    stream carry. *)
Definition upstream_delivered (this : UpstreamWrite) : bytes :=
  match this with WriteDirect write => sent write | WriteWarp send => stream_data (sent_by send) end.

(** Nothing but whole frames on the stream. *)
Definition whole (sent : bytes) : Prop :=
  exists frames, Forall (fun f => 0 <= fst f < 2 ^ 62 /\ small (snd f)) frames /\ sent = frames_bytes frames.

(** The upstream as the upload actor uses it. *)
#[export] Instance upstream_sink : FrameSink := {|
  sink := UpstreamWrite;
  delivered := upstream_delivered;
  intact this := match this with WriteDirect _ => True | WriteWarp send => whole (sent_by send) end;
  write_frames frames this := default (None, this) (upstream_write_frames frames this);
  shutdown := upstream_shutdown
|}.
End upstream.

(** ** Writing *)

Lemma frames_bytes_app a b : frames_bytes (a ++ b) = frames_bytes a ++ frames_bytes b.
Proof. unfold frames_bytes. by rewrite map_app, concat_app. Qed.

Lemma data_frames_bytes ps : data_frames ps = frames_bytes (map (fun p => (FRAME_DATA, p)) ps).
Proof. unfold data_frames, frames_bytes. by rewrite map_map. Qed.

Lemma stream_data_whole sent rest : whole sent -> stream_data (sent ++ rest) = stream_data sent ++ stream_data rest.
Proof.
  intros (frames & Hf & ->). induction Hf as [|[ty p] frames [Hty Hp] _ IH]; [done|]. unfold frames_bytes in *.
  cbn [map concat fst snd] in *. rewrite <- app_assoc, !stream_data_step by done. by rewrite IH, <- app_assoc.
Qed.

Lemma stream_data_request authority rest :
  small (encode_connect_headers authority) ->
  stream_data (frame_bytes FRAME_HEADERS (encode_connect_headers authority) ++ rest) = stream_data rest.
Proof. intros Hs. by rewrite stream_data_step. Qed.

Lemma whole_data sent ps : whole sent -> Forall small ps -> whole (sent ++ data_frames ps).
Proof.
  intros (frames & Hf & ->) Hps. exists (frames ++ map (fun p => (FRAME_DATA, p)) ps).
  rewrite frames_bytes_app, data_frames_bytes. split; [|done]. apply Forall_app. split; [done|].
  rewrite Forall_map. eapply Forall_impl; [exact Hps|]. intros p Hp. split; [unfold FRAME_DATA; cbn; lia|exact Hp].
Qed.

Section laws.
Context `{S : Socket} {SL : SocketLaws S} `{Q : QuicSend} {QL : QuicSendLaws Q}.

(** The loop of [write_frames] has fuel enough, and only adds to the stream. *)
Lemma write_data_adds group total this r this' :
  write_data group total this = (r, this') -> exists more, sent_by this' = sent_by this ++ more.
Proof.
  unfold write_data, sent_by. destruct (data_header total) as [[h n]|e|]; try (by intros [= _ <-]; exists []; rewrite app_nil_r).
  destruct (q_write_all _ _) as [r1 s1] eqn:H1. destruct (q_write_all_any _ _ _ _ H1) as [_ [k Hk]].
  destruct (await_io r1) as [[]|]; try (by intros [= _ <-]; cbn; rewrite Hk; eexists).
  destruct (q_write_all_chunks _ _) as [r2 s2] eqn:H2. destruct (q_write_all_chunks_any _ _ _ _ H2) as [_ [k2 Hk2]].
  intros [= _ <-]. cbn. rewrite Hk2, Hk, <- app_assoc. by eexists.
Qed.

Lemma masque_write_frames_adds frames this :
  exists r this' more, masque_write_frames frames this = Some (r, this') /\ sent_by this' = sent_by this ++ more.
Proof.
  unfold masque_write_frames. assert (Hlen : (length frames <= length frames)%nat) by lia. revert Hlen.
  generalize (length frames) at 2 3 as fuel. intros fuel. revert frames this. induction fuel as [|fuel IH]; intros [|f fs] this Hf;
    try (exists (Some (Ok tt)), this, []; by rewrite app_nil_r); [cbn in Hf; lia|]. cbn [write_frames_loop].
  destruct (next_group f fs) as [[group total] rest] eqn:Hg. apply next_group_spec in Hg as (Hsplit & _ & Hne & _).
  assert (Hlen : (length rest <= fuel)%nat).
  { apply (f_equal length) in Hsplit. rewrite length_app in Hsplit. destruct group; [done|]. cbn in *. lia. }
  destruct (0 <? total); [|by apply IH].
  destruct (write_data group total this) as [r1 t1] eqn:Hw. apply write_data_adds in Hw as [m1 H1].
  destruct r1 as [[[]|e|]|]; try (by eexists _, _, _).
  destruct (IH rest t1 Hlen) as (r & t & m & -> & Hm). exists r, t, (m1 ++ m). by rewrite Hm, H1, app_assoc.
Qed.

(** A tunnel takes a run of frames as the interface asks. *)
Lemma warp_write_ok frames this r this' :
  whole (sent_by this) -> Forall small frames -> masque_write_frames frames this = Some (r, this') ->
  r <> Some Panic /\ sent_prefix (stream_data (sent_by this)) (concat frames) (stream_data (sent_by this')) /\
  (r = Some (Ok tt) -> stream_data (sent_by this') = stream_data (sent_by this) ++ concat frames /\ whole (sent_by this')).
Proof.
  intros Hwh Hsm Hw.
  destruct (write_frames_loop_ok (length frames) frames this ltac:(lia) Hsm) as (r1 & t1 & ps & Hl & Hp & Hc & Hps & [k Hk] & Hok).
  unfold masque_write_frames in Hw. rewrite Hl in Hw. injection Hw as -> ->. split; [exact Hp|]. split.
  - destruct (prefix_data ps (ztake k (data_frames ps)) Hps) as [tail Ht]; [by exists k|].
    rewrite Hk, stream_data_whole by done. exists (zlen (stream_data (ztake k (data_frames ps)))).
    by rewrite <- Hc, Ht, ztake_app_exact.
  - intros Hr. destruct (Hok Hr) as [-> _]. split; [|by apply whole_data].
    rewrite stream_data_whole by done. pose proof (stream_data_frames ps [] Hps) as Hd. rewrite !app_nil_r in Hd. by rewrite Hd, Hc.
Qed.

#[export] Instance upstream_sink_laws : FrameSinkLaws upstream_sink.
Proof.
  split; cbn.
  - intros fs [w|this] w' Hi Hf Hw; cbn in Hw.
    + destruct (write_tcp_frames fs w) as [r s] eqn:E. cbn in Hw. injection Hw as -> <-. split; [by apply write_tcp_frames_ok|done].
    + destruct (masque_write_frames_adds fs this) as (r & t & _ & E & _). rewrite E in Hw. cbn in Hw. injection Hw as -> <-.
      by apply (warp_write_ok _ _ _ _ Hi Hf E).
  - intros fs [w|this] r w' Hi Hf Hw; cbn in Hw.
    + destruct (write_tcp_frames fs w) as [r' s] eqn:E. cbn in Hw. injection Hw as -> <-. by eapply write_tcp_frames_any.
    + destruct (masque_write_frames_adds fs this) as (r' & t & _ & E & _). rewrite E in Hw. cbn in Hw. injection Hw as -> <-.
      by destruct (warp_write_ok _ _ _ _ Hi Hf E) as (? & ? & _).
  - intros [w|this] r w'; cbn.
    + destruct (sock_shutdown w) as [r' s] eqn:E. intros [= -> <-]. by eapply sock_shutdown_sent.
    + unfold masque_shutdown. destruct (q_finish (ms_stream this)) as [ok s] eqn:E. apply q_finish_sent in E.
      intros [= <- <-]. split; [by destruct ok|]. cbn. unfold sent_by. cbn. by rewrite E.
Qed.

(** A tunnel stays the stream's upstream, and what was sent on it stays. *)
Definition warp_after (start : bytes) (this : UpstreamWrite) : Prop :=
  exists send more, this = WriteWarp send /\ sent_by send = start ++ more.

Lemma write_warp_after start frames this : warp_after start this -> warp_after start (snd (write_frames frames this)).
Proof.
  intros (send & more & -> & Hs). cbn. destruct (masque_write_frames_adds frames send) as (r & t & m & -> & Hm). cbn.
  exists t, (more ++ m). by rewrite Hm, Hs, app_assoc.
Qed.

Lemma shutdown_warp_after start this : warp_after start this -> warp_after start (snd (shutdown this)).
Proof.
  intros (send & more & -> & Hs). cbn. unfold masque_shutdown. destruct (q_finish (ms_stream send)) as [ok s] eqn:E.
  apply q_finish_sent in E. cbn. eexists _, more. split; [done|]. unfold sent_by in *. cbn. by rewrite E.
Qed.
End laws.

(** ** Reading *)

(** A consumer reads until the end of the stream or an error; how much room it
    has next may depend on the answers so far. *)
Fixpoint drive {R} (poll : Z -> R -> option (Poll (Res IoError bytes) * R)) (room : list (Poll (Res IoError bytes)) -> Z)
    (n : nat) (answers : list (Poll (Res IoError bytes))) (this : R) : option (list (Poll (Res IoError bytes))) :=
  match n with
  | O => Some answers
  | Datatypes.S n =>
      '(r, this) ← poll (room answers) this;
      match r with
      | Ready (Ok (_ :: _)) | Pending => drive poll room n (answers ++ [r]) this
      | _ => Some (answers ++ [r])
      end
  end.

(** A read fits the buffer. *)
Lemma poll_read_fits limit rd d rd' : 0 <= limit -> poll_read limit rd = (Ready (Ok d), rd') -> zlen d <= limit.
Proof.
  intros Hl. destruct rd as [|[d0| |e] rd]; cbn [poll_read]; try done. destruct (Z.leb_spec (zlen d0) limit); intros [= <- _]; [done|].
  rewrite zlen_ztake. lia.
Qed.

Lemma recv_round_fits limit this d this' : 0 <= limit -> recv_round limit this = (Some (Ready (Ok d)), this') -> zlen d <= limit.
Proof.
  intros Hl. unfold recv_round. destruct (_ =? 0); [by intros [= <- _]|]. destruct (mr_pending this) as [|x l].
  2:{ intros [= <- _]. rewrite zlen_ztake. lia. }
  destruct (Z.ltb_spec 0 (mr_remaining this)).
  - destruct (mr_discard this); destruct (poll_read _ _) as [[[b|e|]|] s] eqn:E; try done; destruct (_ =? 0); try done.
    intros [= <- _]. apply poll_read_fits in E; lia.
  - destruct (get_frame_header _) as [[[ty len] used]|]; [done|]. destruct (mr_eof this); [by destruct (mr_header this); intros [= <- _]|].
    destruct (poll_read _ _) as [[[b|e|]|] s]; try done. destruct (_ =? 0); [|done]. by destruct (mr_header this); intros [= <- _].
Qed.

Lemma recv_loop_fits limit fuel this d this' : 0 <= limit -> recv_loop fuel limit this = Some (Ready (Ok d), this') -> zlen d <= limit.
Proof.
  intros Hl. revert this. induction fuel as [|fuel IH]; intros this; [done|]. cbn [recv_loop].
  destruct (recv_round limit this) as [[r|] t] eqn:E; [|apply IH]. intros [= -> ->]. by eapply recv_round_fits.
Qed.

Definition plain_read (limit : Z) (rd : list ReadEvent) : option (Poll (Res IoError bytes) * list ReadEvent) := Some (poll_read limit rd).

(** The answer after which a consumer stops. *)
Definition over (answers : list (Poll (Res IoError bytes))) : Prop :=
  match last answers with Some (Ready (Ok [])) | Some (Ready (Err _)) | Some (Ready Panic) => True | _ => False end.

Lemma over_snoc answers r : over (answers ++ [r]) <-> match r with Ready (Ok (_ :: _)) | Pending => False | _ => True end.
Proof. unfold over. rewrite last_snoc. by destruct r as [[[]| |]|]. Qed.

(** A consumer of a tunnel cannot tell it from a socket that delivers what the
    tunnel's DATA frames carry. *)
Lemma drive_as_socket k room n answers this :
  (forall answers, 0 < room answers) -> recv_inv k this -> ~ over answers ->
  exists script result rest,
    drive masque_poll_read room n answers this = Some result /\ drive plain_read room n answers script = Some result /\
    data_left this = input script ++ rest /\ (over result -> rest = []) /\
    (last result = Some (Ready (Ok [])) -> k = 0).
Proof.
  intros Hroom. revert answers this. induction n as [|n IH]; intros answers this Hi Ho.
  { exists [], answers, (data_left this). split_and!; try done. intros Hl. destruct Ho. unfold over. by rewrite Hl. }
  cbn [drive]. destruct (masque_poll_read_ok k (room answers) this (Hroom answers) Hi) as (r & t & Hr & Hi' & Hs).
  rewrite Hr. cbn [mbind option_bind]. unfold plain_read in *. cbn [mbind option_bind].
  destruct r as [[[|x d]|e|]|]; cbn [recv_step] in Hs; try done.
  - exists [RdData []], (answers ++ [Ready (Ok [])]), []. split; [done|]. split.
    { cbn [poll_read]. pose proof (Hroom answers). change (zlen []) with 0. by destruct (Z.leb_spec 0 (room answers)); [|lia]. }
    split; [by rewrite (proj1 Hs)|]. split; [done|]. by intros _; apply Hs.
  - destruct Hs as [Hd _]. apply recv_loop_fits in Hr as Hlen; [|pose proof (Hroom answers); lia].
    destruct (IH (answers ++ [Ready (Ok (x :: d))]) t Hi') as (script & result & rest & H1 & H2 & Hrest & Hend); [rewrite over_snoc; by intros []|].
    exists (RdData (x :: d) :: script), result, rest. split; [exact H1|]. split; [|split; [|exact Hend]].
    + cbn [poll_read]. destruct (Z.leb_spec (zlen (x :: d)) (room answers)); [|lia]. exact H2.
    + rewrite Hd, Hrest. cbn [input]. by rewrite <- app_assoc.
  - exists [RdError e], (answers ++ [Ready (Err e)]), []. split; [done|]. split; [done|]. destruct Hs as (_ & -> & _).
    split; [done|]. rewrite last_snoc. done.
  - destruct Hs as [Hd _]. destruct (IH (answers ++ [Pending]) t Hi') as (script & result & rest & H1 & H2 & Hrest & Hend);
      [rewrite over_snoc; by intros []|].
    exists (RdPending :: script), result, rest. split; [exact H1|]. split; [exact H2|]. split; [by rewrite <- Hd, Hrest|exact Hend].
Qed.

Lemma drive_warp room n answers recv :
  drive upstream_poll_read room n answers (ReadWarp recv) = drive masque_poll_read room n answers recv.
Proof.
  revert answers recv. induction n as [|n IH]; intros answers recv; [done|]. cbn [drive upstream_poll_read].
  destruct (masque_poll_read _ recv) as [[r t]|]; [|done]. cbn [mbind option_bind]. destruct r as [[[]| |]|]; try done; apply IH.
Qed.

Lemma drive_direct room n answers script :
  drive upstream_poll_read room n answers (ReadDirect script) = drive plain_read room n answers script.
Proof.
  revert answers script. induction n as [|n IH]; intros answers script; [done|]. cbn [drive upstream_poll_read]. unfold plain_read in *.
  destruct (poll_read _ script) as [r t]. cbn [mbind option_bind]. destruct r as [[[]| |]|]; try done; apply IH.
Qed.

(** A stream whose upstream is a tunnel only adds to the tunnel's stream. *)
Lemma stream_warp_after `{S : Socket} `{Q : QuicSend} {QL : QuicSendLaws Q} `{B : Base122} Cu Cd jitter_table cfg ukey stream_id
    upstream_read f start up app body now evs w :
  warp_after start up -> actors app !! stream_id = None -> honest_body Cu cfg f body -> Forall (honest_event Cu cfg f) evs ->
  stream_steps Cu Cd jitter_table cfg ukey stream_id upstream_read (stream_start cfg app up body now) evs w ->
  warp_after start (upstream (sw_upload w)).
Proof.
  intros Hup Ha Hb Hev Hs. destruct (uploads_steps (W := upstream_sink) Cu Cd jitter_table cfg ukey stream_id upstream_read f up now _ evs w
    (uploads_start (W := upstream_sink) Cu cfg stream_id f up now app body Hb Ha) Hev Hs) as [_ _ Hok].
  destruct (respects_exists w) as [wants Hw]. destruct (Hok wants Hw) as [(cmds & Hrun & _) _].
  pose proof (run_keeps (W := upstream_sink) (warp_after start) (fun fs w => write_warp_after start fs w) (fun w => shutdown_warp_after start w)
    cmds (UploadActor_new up 0 now) Hup) as H.
  by rewrite Hrun in H.
Qed.

(** ** Properties *)

(** C27: uploading over WARP. When a tunnel to the target was opened and a
    stream runs on it, whatever its requests, actors and timers do and however
    they interleave, the stream's upstream stays that tunnel; its QUIC stream
    carries the request for the target and then, in its DATA frames, a prefix of
    the sender's frames in order; and when a request was told its frames are
    uploaded, the DATA frames carry every frame up to any of those its body
    decodes to. *)
Theorem warp_upload_sent `{S : Socket} (SL : SocketLaws S) `{Q : QuicSend} (QL : QuicSendLaws Q) `{C : !QuicConn} (CL : QuicConnLaws C)
    `{B : Base122} Cu Cd jitter_table cfg ukey stream_id upstream_read f authority conn conn' send recv app body now evs w :
  small (encode_connect_headers (str authority)) ->
  MasqueConn_open authority conn = (Some (Some (Ok (send, recv))), conn') ->
  actors app !! stream_id = None -> honest_body Cu cfg f body -> Forall (honest_event Cu cfg f) evs ->
  stream_steps Cu Cd jitter_table cfg ukey stream_id upstream_read
    (stream_start cfg app (snd (into_split (UpWarp send recv))) body now) evs w ->
  exists send' wire, upstream (sw_upload w) = WriteWarp send' /\
    qsent (ms_stream send') = frame_bytes FRAME_HEADERS (encode_connect_headers (str authority)) ++ wire /\
    (exists n rest, chunk f 0 n = stream_data wire ++ rest) /\
    forall n rq k d, sw_requests w !! n = Some rq -> rq_phase rq = RqDone AnsUploaded -> body_frame Cu cfg rq k d ->
      exists rest, stream_data wire = chunk f 0 (k + 1) ++ rest.
Proof.
  intros Hsm Hopen Ha Hb Hev Hs. set (start := frame_bytes FRAME_HEADERS (encode_connect_headers (str authority))).
  destruct (MasqueConn_open_ok authority conn _ conn' send recv Hopen eq_refl) as (_ & Hsent & _). fold start in Hsent.
  assert (Hstart : forall wire, stream_data (start ++ wire) = stream_data wire) by (intros wire; by apply stream_data_request).
  assert (Hnil : stream_data start = []) by (rewrite <- (app_nil_r start), Hstart; done).
  assert (Hwhole : whole (sent_by send)).
  { exists [(FRAME_HEADERS, encode_connect_headers (str authority))]. split; [by repeat constructor|].
    unfold sent_by. rewrite Hsent. unfold frames_bytes. cbn. by rewrite app_nil_r. }
  cbn [into_split snd] in Hs.
  destruct (stream_warp_after Cu Cd jitter_table cfg ukey stream_id upstream_read f start (WriteWarp send) app body now evs w)
    as (send' & wire & Hup & Hwire); try done; [by exists send, []; rewrite app_nil_r|].
  destruct (stream_uploads (W := upstream_sink) upstream_sink_laws Cu Cd jitter_table cfg ukey stream_id upstream_read f (WriteWarp send) app body now evs w
    Hwhole Ha Hb Hev Hs) as [[n [k Hpre]] Hacked].
  exists send', wire. split; [exact Hup|]. split; [exact Hwire|]. rewrite Hup in Hpre, Hacked. cbn in Hpre, Hacked.
  rewrite Hwire, Hstart in Hpre, Hacked. unfold sent_by in Hpre, Hacked. rewrite Hsent, Hnil in Hpre, Hacked.
  split.
  - exists n, (zdrop k (chunk f 0 n)). by rewrite Hpre, app_nil_l, ztake_zdrop.
  - intros m rq j d Hm Hp [polls Hin]. exact (Hacked m rq polls j d Hm Hp Hin).
Qed.

(** C28: a tunnel over WARP reads like a socket. When the answer to the request
    for it is a 2xx status, then whatever frames come before, however the stream
    is cut into pieces, and however a reader chooses the room in its buffers
    from what it got so far, the answers it gets are those of a socket that
    delivers, in some pieces, the bytes of the DATA frames after the response:
    all of them when the reading ends, and it ends well only if the stream was
    not cut off inside a frame. *)
Theorem warp_reads_like_socket `{S : Socket} `{Q : QuicSend} (QL : QuicSendLaws Q) authority s s' rd others block status ps p k room n :
  q_write_all (frame_bytes FRAME_HEADERS (encode_connect_headers (str authority))) s = (Some (Ok tt), s') ->
  calm rd -> Forall skipped_frame others -> zlen (frame_bytes FRAME_HEADERS block) <= MAX_RESPONSE_HEAD_BUFFER ->
  decode_status block = Some (Ok status) -> 200 <= status < 300 ->
  Forall small ps -> small p -> 0 <= k < zlen (frame_bytes FRAME_DATA p) ->
  input rd = frames_bytes others ++ frame_bytes FRAME_HEADERS block ++ data_frames ps ++ ztake k (frame_bytes FRAME_DATA p) ->
  (forall answers, 0 < room answers) ->
  exists send recv script result rest,
    open_tunnel authority s rd = Some (Some (Ok (send, recv))) /\
    drive upstream_poll_read room n [] (fst (into_split (UpWarp send recv))) = Some result /\
    drive upstream_poll_read room n [] (ReadDirect script) = Some result /\
    concat ps ++ ztake (k - header_len p) p = input script ++ rest /\
    (over result -> rest = []) /\ (last result = Some (Ready (Ok [])) -> k = 0).
Proof.
  intros Hw Hc Hoth Hblock Hst Hok Hps Hp Hk Hin Hroom.
  destruct (open_tunnel_ok authority s s' rd others block status ps p k Hw Hc Hoth Hblock Hst Hps Hp Hk Hin)
    as (recv & Hi & Hd & _ & Hopen).
  destruct (Z.leb_spec 200 status), (Z.ltb_spec status 300); try lia. cbn [andb] in Hopen.
  destruct (drive_as_socket k room n [] recv Hroom Hi ltac:(by intros [])) as (script & result & rest & H1 & H2 & H3 & H4 & H5).
  exists (MasqueSend_new s'), recv, script, result, rest. cbn [into_split fst]. rewrite drive_warp, drive_direct, <- Hd. done.
Qed.

(** ** Witnesses *)

(** The stream of [Duplex]'s example over a tunnel of [MasqueConn]'s. *)
Definition warp_conn : MasqueConn (Q := toy_quic) (C := toy_conn) := mkConn (Q := toy_quic) (C := toy_conn) (str "cert", None) [] [] [].
Definition warp_opened : (MasqueSend (Q := toy_quic) * MasqueRecv) * MasqueConn (Q := toy_quic) (C := toy_conn) :=
  match MasqueConn_open (Q := toy_quic) (C := toy_conn) "a:1" warp_conn with
  | (Some (Some (Ok halves)), conn') => (halves, conn')
  | (_, conn') => ((MasqueSend_new (Q := toy_quic) [], MasqueRecv_new [] []), conn')
  end.
Definition warp_write : UpstreamWrite (S := toy_socket) (Q := toy_quic) :=
  snd (into_split (S := toy_socket) (Q := toy_quic) (UpWarp (S := toy_socket) (Q := toy_quic) (fst (fst warp_opened)) (snd (fst warp_opened)))).
Definition warp_start : StreamWorld :=
  stream_start (W := upstream_sink (S := toy_socket) (Q := toy_quic)) limited_server limited_app warp_write [Chunk (fst (fst toy_early))] 0.
Definition warp_world : StreamWorld :=
  default warp_start (stream_run (W := upstream_sink (S := toy_socket) (Q := toy_quic)) (aes_frame_cipher toy_aes) (aes_frame_cipher toy_aes)
    (fun _ => 5) limited_server [] limited_stream limited_read duplex_events warp_start).

Lemma warp_steps :
  stream_steps (W := upstream_sink (S := toy_socket) (Q := toy_quic)) (aes_frame_cipher toy_aes) (aes_frame_cipher toy_aes) (fun _ => 5)
    limited_server [] limited_stream limited_read warp_start duplex_events warp_world.
Proof.
  apply stream_run_steps.
  assert (H : is_Some (stream_run (W := upstream_sink (S := toy_socket) (Q := toy_quic)) (aes_frame_cipher toy_aes) (aes_frame_cipher toy_aes)
    (fun _ => 5) limited_server [] limited_stream limited_read duplex_events warp_start)).
  { apply not_eq_None_Some. intros E. apply (f_equal (fun o => match o with None => true | Some _ => false end)) in E.
    vm_compute in E. discriminate. }
  unfold warp_world. by destruct H as [w ->].
Qed.

Definition warp_uploaded : Request :=
  default (mkRequest KOpen [] (FrameDecoder_new [] Json 0) 0 0 RqGone) (sw_requests warp_world !! 1).

Lemma warp_upload_sent_witness :
  rq_phase warp_uploaded = RqDone AnsUploaded /\
  exists send' wire f rest, upstream (W := upstream_sink (S := toy_socket) (Q := toy_quic)) (sw_upload warp_world) = WriteWarp send' /\
    qsent (QuicSend := toy_quic) (ms_stream send') = frame_bytes FRAME_HEADERS (encode_connect_headers (str "a:1")) ++ wire /\
    stream_data wire = chunk f 0 2 ++ rest /\ stream_data wire = str "helloabc".
Proof.
  split; [vm_compute; reflexivity|]. destruct duplex_groups as (groups & Hb & Hc).
  assert (Hh : forall body, client_body toy_requests body ->
    honest_body (aes_frame_cipher toy_aes) limited_server (frame_at (concat groups)) body).
  { intros body. apply (client_body_honest (L := aes_frame_cipher_laws toy_aes) (BL := toy_base122_laws) limited_server groups); [exact Hb|exact Hc]. }
  destruct (warp_upload_sent (S := toy_socket) (toy_socket_laws) (Q := toy_quic) toy_quic_laws (C := toy_conn) toy_conn_laws
    (aes_frame_cipher toy_aes) (aes_frame_cipher toy_aes) (fun _ => 5)
    limited_server [] limited_stream limited_read (frame_at (concat groups)) "a:1" warp_conn (snd warp_opened)
    (fst (fst warp_opened)) (snd (fst warp_opened)) limited_app [Chunk (fst (fst toy_early))] 0
    duplex_events warp_world) as (send' & wire & Hup & Hwire & _ & H).
  - vm_compute. reflexivity.
  - reflexivity.
  - vm_compute. reflexivity.
  - apply Hh. exists (fst (fst toy_early)), []. split; [by left|]. cbn. by rewrite !app_nil_r.
  - eapply Forall_impl; [exact duplex_client_events|]. intros []; try done. apply Hh.
  - exact warp_steps.
  - assert (Hin : exists d, (1, d) ∈ fst (collect (C := aes_frame_cipher toy_aes) 9
      (FrameDecoder_new (rq_body warp_uploaded) Json MAX_FRAME_BUF_SIZE))).
    { eexists. vm_compute. apply list_elem_of_here. }
    destruct Hin as [d Hin]. destruct (H 1 warp_uploaded 1 d) as [rest Ht].
    + vm_compute. reflexivity.
    + vm_compute. reflexivity.
    + exists 9%nat. exact Hin.
    + exists send', wire, (frame_at (concat groups)), rest. split; [exact Hup|]. split; [exact Hwire|]. split; [exact Ht|].
      assert (Hd : stream_data (match upstream (sw_upload warp_world) with WriteWarp s => qsent (ms_stream s) | _ => [] end) = str "helloabc")
        by (vm_compute; reflexivity).
      rewrite Hup, Hwire in Hd. rewrite stream_data_request in Hd; [exact Hd|vm_compute; reflexivity].
Defined.

(** A reader with room for one more byte after every answer. *)
Definition growing (answers : list (Poll (Res IoError bytes))) : Z := 1 + zlen answers.

Lemma warp_reads_like_socket_witness :
  exists send recv result,
    open_tunnel (Q := toy_quic) "a:1" [] [RdData (ztake 7 warp_response); RdPending; RdData (zdrop 7 warp_response); RdData []]
      = Some (Some (Ok (send, recv))) /\
    drive upstream_poll_read growing 9 [] (ReadWarp recv) = Some result /\
    exists script, drive upstream_poll_read growing 9 [] (ReadDirect script) = Some result /\
      input script = str "hith".
Proof.
  destruct (warp_reads_like_socket (S := toy_socket) (Q := toy_quic) toy_quic_laws "a:1" []
    (frame_bytes FRAME_HEADERS (encode_connect_headers (str "a:1")))
    [RdData (ztake 7 warp_response); RdPending; RdData (zdrop 7 warp_response); RdData []] [(FRAME_SETTINGS, [Byte.x00])]
    (section_bytes [IndexedLine 25]) 200 [str "hi"] (str "there") 4 growing 9)
    as (send & recv & script & result & rest & Hopen & Hwarp & Hsock & Hdata & Hover & _).
  - reflexivity.
  - repeat constructor.
  - repeat constructor; vm_compute; congruence.
  - vm_compute. congruence.
  - vm_compute. reflexivity.
  - lia.
  - repeat constructor.
  - reflexivity.
  - vm_compute. split; congruence.
  - reflexivity.
  - intros answers. unfold growing. pose proof (zlen_nonneg answers). lia.
  - exists send, recv, result. split; [exact Hopen|]. split; [exact Hwarp|]. exists script. split; [exact Hsock|].
    assert (Ho : over result).
    { vm_compute in Hopen. injection Hopen as <- <-. vm_compute in Hwarp. injection Hwarp as <-. exact I. }
    rewrite (Hover Ho), app_nil_r in Hdata. rewrite <- Hdata. vm_compute. reflexivity.
Defined.
