(* ===== verification/Setup.v ===== *)
(** * The programs' set-up

    [src/client/mod.rs], [src/client/redirect.rs] and the accept loops of the
    client; [src/server/mod.rs], [build_transport] of
    [src/dns/transport.rs], and the commands of [src/bin/server.rs] that make
    keys and tokens: configurations become the states the other components
    start from. Reading and parsing the files, and starting WARP, are
    arguments. *)

From S2P Require Import Prelude Cipher Frame Shaper Text Cookie Token Crypto UploadLoop Net Bypass Connection Dns Warp Pin.

Definition MAX_IN_FLIGHT_BYTES : Z := 2 * 1024 * 1024.
Definition UPLOAD_CONCURRENCY : Z := 128.
Definition MAX_LOCAL_CONNECTIONS : Z := 1024.
Definition MAX_TUNNELS : Z := 1024.

(** ** The client *)

Record ClientProxyAuth : Type := mkProxyAuth { username : bytes; password : bytes }.

(** [client] and [redirect] sections. *)
Record ClientSection : Type := mkClientSection {
  cl_listen : bytes;
  cl_remote : bytes;
  cl_address : option bytes;
  cl_public_key : bytes;
  cl_auth : option ClientProxyAuth;
  cl_max_connections : option Z;
  cl_max_in_flight_bytes : option Z;
  cl_upload_concurrency : option Z
}.

Record RedirectSection : Type := mkRedirectSection { rd_listen : bytes; rd_target : bytes }.

(** [bypass_files] holds what reading and parsing each file gives. *)
Record ClientTopConfig : Type := mkClientTop {
  ct_client : ClientSection;
  ct_token : bytes;
  ct_traffic_shaping : TrafficConfig;
  ct_bypass_files : list (Res string BypassFile);
  ct_redirect : list RedirectSection
}.

Section client.
Context `{X : PqCrypto} `{B : Base64} `{BS : Base64Std} `{F : FstSet} `{N : NetTable}.

(** The shared state but for the master key and the handshake lock, which
    start as none and free. *)
Record SharedState : Type := mkShared {
  st_remote_str : bytes;
  st_auth_header : bytes;
  st_traffic_config : TrafficConfig;
  st_resolved_traffic : ResolvedShaperConfig;
  st_bypass : option BypassRules;
  st_server_public_key : bytes;
  st_proxy_auth : option (bytes * bytes);
  st_max_download_bytes : option Z;
  st_max_connections : Z;
  st_max_in_flight_bytes : Z;
  st_upload_concurrency : Z
}.

Definition load_bypass (files : list (Res string BypassFile)) : Res string (option BypassRules) :=
  match files with
  | [] => Ok None
  | _ =>
      let? rules := map_err (fun _ => "failed to load bypass rules"%string) (load files) in
      Ok (if is_empty rules then None else Some rules)
  end.

Definition proxy_auth_of (a : ClientProxyAuth) : bytes * bytes :=
  (str "Basic " ++ b64s_encode (username a ++ str ":" ++ password a), username a).

(** [parse_url] is [url]'s parser followed by [as_str]. *)
Definition client_build_state (parse_url : bytes -> option bytes) (cfg : ClientTopConfig) : Res string SharedState :=
  let client := ct_client cfg in
  let? _ := map_err (fun _ => "invalid traffic_shaping config"%string) (validate (ct_traffic_shaping cfg)) in
  let max_in_flight_bytes := default MAX_IN_FLIGHT_BYTES (cl_max_in_flight_bytes client) in
  let upload_concurrency := default UPLOAD_CONCURRENCY (cl_upload_concurrency client) in
  if max_in_flight_bytes <? MIN_IN_FLIGHT_BYTES then Err "max_in_flight_bytes must be at least one maximum-size encoded frame"%string
  else if upload_concurrency =? 0 then Err "upload_concurrency must be at least 1"%string
  else
    let? bypass := load_bypass (ct_bypass_files cfg) in
    let? server_public_key := map_err (fun _ => "invalid client.public_key"%string) (b64_to_public_key (cl_public_key client)) in
    let? remote_str := ok_or (parse_url (cl_remote client)) "invalid server URL"%string in
    Ok (mkShared remote_str (str "Bearer " ++ ct_token cfg) (ct_traffic_shaping cfg) (Shaper.resolve (ct_traffic_shaping cfg)) bypass
          server_public_key (option_map proxy_auth_of (cl_auth client)) (max_download_bytes (ct_traffic_shaping cfg))
          (default MAX_LOCAL_CONNECTIONS (cl_max_connections client)) max_in_flight_bytes upload_concurrency).
End client.

(** *** Redirects *)

Record RedirectRule : Type := mkRule { rule_listen : SocketAddr; rule_target : bytes }.

Definition RedirectRule_parse (section : RedirectSection) : Res string RedirectRule :=
  let? listen := ok_or (socket_addr_from_str (rd_listen section)) "invalid [[redirect]] listen address"%string in
  let target := str_trim (rd_target section) in
  let? (host, port) := ok_or (rsplit_once Byte.x3a target) "[[redirect]] target must be host:port"%string in
  if bool_decide (host = []) then Err "[[redirect]] target has an empty host"%string
  else
    let? _ := ok_or (parse_u16 port) "invalid [[redirect]] target port"%string in
    Ok (mkRule listen target).

Fixpoint parse_all_loop (sections : list RedirectSection) (rules : list RedirectRule) : Res string (list RedirectRule) :=
  match sections with
  | [] => Ok rules
  | section :: sections =>
      let? rule := RedirectRule_parse section in
      if existsb (fun r => bool_decide (rule_listen r = rule_listen rule)) rules
      then Err "duplicate [[redirect]] listen address"%string
      else parse_all_loop sections (rules ++ [rule])
  end.

Definition parse_all (sections : list RedirectSection) : Res string (list RedirectRule) := parse_all_loop sections [].

(** *** Accepting connections *)

(** The accept loops of the proxy and of every redirect share the permits of
    one semaphore. What a loop does in a round, and the end of a connection. *)
Inductive AcceptEvent : Type :=
| Accepted
| AcceptError (e : ErrorKind)
| ConnectionEnds.

Inductive AcceptOutcome : Type := Served | Rejected | Retried | BackedOff | Ended.

(** Free permits and open connections. *)
Record Admission : Type := mkAdmission { conn_permits : Z; conn_open : Z }.

Definition accept_round (ev : AcceptEvent) (a : Admission) : AcceptOutcome * Admission :=
  match ev with
  | Accepted =>
      if 0 <? conn_permits a then (Served, mkAdmission (conn_permits a - 1) (conn_open a + 1)) else (Rejected, a)
  | AcceptError (ConnectionAborted | ConnectionReset | Interrupted | WouldBlock) => (Retried, a)
  | AcceptError _ => (BackedOff, a)
  | ConnectionEnds =>
      if 0 <? conn_open a then (Ended, mkAdmission (conn_permits a + 1) (conn_open a - 1)) else (Ended, a)
  end.

Fixpoint accept_rounds (evs : list AcceptEvent) (a : Admission) : list AcceptOutcome * Admission :=
  match evs with
  | [] => ([], a)
  | ev :: evs => let '(o, a) := accept_round ev a in let '(os, a) := accept_rounds evs a in (o :: os, a)
  end.

(** ** The server *)

(** [DnsConfig::public_default]. *)
Definition public_default : DnsConfig := mkDnsConfig (mkSocketAddr (V4 (2 ^ 24 + 2 ^ 16 + 2 ^ 8 + 1)) 53 0) None default_options.

Record ServerTopConfig : Type := mkServerTop {
  sv_listen : bytes;
  sv_path : bytes;
  sv_private_key : bytes;
  sv_max_tunnels : option Z;
  sv_secret : bytes;
  sv_socks5 : option (option bytes);
  sv_dns : option DnsConfig;
  sv_warp : option WarpSection;
  sv_traffic_shaping : TrafficConfig
}.

(** A transport of DNS messages: datagrams, or a stream that is opened
    directly or over WARP, in TLS when a name is given. *)
Inductive Transport : Type :=
| TransportUdp (upstream : SocketAddr)
| TransportStream (via_warp : bool) (tls : option bytes) (upstream : SocketAddr).

Section server.
Context `{P : Aead} `{X : PqCrypto} `{B : Base64} `{N : IpNetworks}.

(** [server_name] is [rustls]'s check of a name. *)
Definition tls_server_name (server_name : bytes -> option bytes) (config : DnsConfig) : Res string bytes :=
  let? domain := ok_or (tls_domain config) "DoT requires a TLS domain"%string in
  ok_or (server_name domain) "invalid TLS domain"%string.

Definition build_transport (server_name : bytes -> option bytes) (config : DnsConfig) (warp : option Bypass) : Res string Transport :=
  let upstream := dns_upstream config in
  let via_warp := match warp with Some w => negb (bypass_contains w (sa_ip upstream)) | None => false end in
  match protocol (options config), via_warp with
  | Udp, false => Ok (TransportUdp upstream)
  | Udp, true => Ok (TransportStream true None upstream)
  | Dot, via_warp =>
      let? name := tls_server_name server_name config in
      Ok (TransportStream via_warp (Some name) upstream)
  end.

(** What the handlers start from; the maps are empty, the counter is 1. *)
Record ServerState : Type := mkServer {
  ss_token_key : LessSafeKey;
  ss_socks5_proxy : option bytes;
  ss_dns_client : option (DnsConfig * Transport);
  ss_warp : option Bypass;
  ss_client_subnet : option IpAddr;
  ss_traffic_config : TrafficConfig;
  ss_resolved_traffic : ResolvedShaperConfig;
  ss_private_key : bytes;
  ss_max_tunnels : Z
}.

(** [warp_init] starts WARP, [show] prints an address, [hkdf] derives the
    token key. *)
Definition server_build_state (warp_init : WarpSection -> Res string Bypass) (server_name : bytes -> option bytes)
    (show : IpAddr -> bytes) (hkdf : bytes -> bytes -> bytes) (config : ServerTopConfig) : Res string ServerState :=
  let? _ := map_err (fun _ => "invalid traffic_shaping config"%string) (validate (sv_traffic_shaping config)) in
  let? warp :=
    match sv_warp config with
    | Some section =>
        if ws_enabled section then
          let? w := map_err (fun _ => "warp initialization failed"%string) (warp_init section) in Ok (Some w)
        else Ok None
    | None => Ok None
    end in
  let dns_config :=
    if bool_decide (sv_dns config = None) && bool_decide (is_Some warp) then Some public_default else sv_dns config in
  let? (dns_client, client_subnet) :=
    match dns_config with
    | Some dc =>
        let? dc := init_dns show dc in
        let? transport := build_transport server_name dc warp in
        Ok (Some (dc, transport), client_subnet (options dc))
    | None => Ok (None, None)
    end in
  let? private_key := map_err (fun _ => "invalid server.private_key"%string) (b64_to_private_key (sv_private_key config)) in
  let? token_key := key_from_secret hkdf (sv_secret config) in
  Ok (mkServer token_key (match sv_socks5 config with Some p => p | None => None end) dns_client warp client_subnet
        (sv_traffic_shaping config) (Shaper.resolve (sv_traffic_shaping config)) private_key (default MAX_TUNNELS (sv_max_tunnels config))).

(** *** The commands *)

(** [gen-key]: the two lines' values. *)
Definition gen_key (random : bytes) : bytes * bytes :=
  let '(sk, pk) := generate_keypair random in (private_key_to_b64 sk, public_key_to_b64 pk).

(** [gen-token]. *)
Definition gen_token (hkdf : bytes -> bytes -> bytes) (secret : bytes) (nonce user : bytes) (exp : Z) : Res string bytes :=
  let? key := key_from_secret hkdf secret in issue key nonce (mkClaims user exp).
End server.

(** ** Lemmas *)

(** *** Bypass rules without content *)

Section bypass_rules.
Context `{F : FstSet} {FL : FstSetLaws F} `{N : NetTable} {NL : NetTableLaws N}.

(** A table that counts no networks is the new one. *)
Definition counted (t : table) : Prop := t = table_new \/ table_len t <> (0, 0).

Lemma add_cidrs_counted cidrs : forall this this', add_cidrs cidrs this = Ok this' -> counted (b_ip_table this) -> counted (b_ip_table this').
Proof.
  induction cidrs as [|c cidrs IH]; intros this this'; cbn [add_cidrs]; [by intros [= <-]|].
  intros (b & Hb & Hl)%res_bind_Ok Hc. apply (IH _ _ Hl). unfold add_cidr, table_insert_net in Hb.
  apply res_bind_Ok in Hb as ([a p] & _ & Hb). apply res_bind_Ok in Hb as (len & _ & Hb). apply res_bind_Ok in Hb as (addr & _ & Hb).
  destruct addr; (destruct (_ <=? _); [|done]); apply res_bind_Ok in Hb as (t & (n & _ & [= <-])%res_bind_Ok & [= <-]);
    right; apply table_insert_len.
Qed.

Lemma foldl_add_domain_table ds : forall this, b_ip_table (foldl add_domain this ds) = b_ip_table this.
Proof. induction ds as [|d ds IH]; intros this; cbn; [done|]. rewrite IH. unfold add_domain. by destruct (domain_to_fst_key d). Qed.

Lemma load_loop_counted files : forall this this', load_loop files this = Ok this' -> counted (b_ip_table this) -> counted (b_ip_table this').
Proof.
  induction files as [|file files IH]; intros this this'; cbn [load_loop]; [by intros [= <-]|].
  intros ([ds cs] & _ & Hl)%res_bind_Ok Hc. apply res_bind_Ok in Hl as (b & Hb & Hl). apply (IH _ _ Hl).
  eapply add_cidrs_counted; [exact Hb|]. by rewrite foldl_add_domain_table.
Qed.

(** Rules that count as empty match nothing. *)
Lemma empty_rules_match_nothing files rules target : load files = Ok rules -> is_empty rules = true -> should_bypass rules target = false.
Proof.
  unfold load. intros (b & Hl & Hb)%res_bind_Ok He. apply load_loop_counted in Hl; [|by left].
  unfold build in Hb. apply res_bind_Ok in Hb as (s & Hs & [= <-]). apply ok_or_Ok in Hs.
  unfold is_empty in He. cbn [domain_fst ip_table] in He. apply andb_true_iff in He as [Hf Ht].
  unfold should_bypass. destruct (ip_from_str _) as [ip|].
  - unfold match_ip. cbn [ip_table]. destruct Hl as [->|Hl]; [apply table_new_matches|]. exfalso. apply Hl.
    destruct (table_len _) as [v4 v6]. apply andb_true_iff in Ht as [H4%Z.eqb_eq H6%Z.eqb_eq]. by subst.
  - unfold match_domain. cbn [domain_fst]. apply (fset_build_empty _ _ Hs) in Hf. rewrite Hf in Hs.
    destruct (domain_matches s _) eqn:Hm; [|done]. exfalso. revert Hm. unfold domain_matches.
    assert (Hno : forall k, fset_contains k s = false).
    { intros k. destruct (fset_contains k s) eqn:Hk; [|done]. apply (fset_build_contains _ _ _ Hs) in Hk. by apply not_elem_of_nil in Hk. }
    assert (Hloop : forall fuel b e first buf, match_loop fuel s b e first buf = false).
    { induction fuel as [|fuel IH]; intros b' e first buf; cbn [match_loop]; [by destruct e|]. destruct e; [done|]. by rewrite Hno, IH. }
    destruct (trim_dots _) as [|x l]; [done|]. by rewrite Hloop.
Qed.
End bypass_rules.

(** *** Admission *)

Lemma accept_round_inv max ev a : 0 <= conn_permits a -> 0 <= conn_open a -> conn_permits a + conn_open a = max ->
  let a' := snd (accept_round ev a) in 0 <= conn_permits a' /\ 0 <= conn_open a' /\ conn_permits a' + conn_open a' = max.
Proof.
  intros Hp Ho Hs. destruct ev as [|e|]; cbn [accept_round].
  - destruct (Z.ltb_spec 0 (conn_permits a)); cbn; lia.
  - by destruct e.
  - destruct (Z.ltb_spec 0 (conn_open a)); cbn; lia.
Qed.

(** Connections are bounded by the permits, and one is turned away only when
    all are in use. *)
Theorem admission_bound max evs :
  0 <= max -> let a := snd (accept_rounds evs (mkAdmission max 0)) in
  0 <= conn_open a <= max /\ (fst (accept_round Accepted a) = Rejected <-> conn_open a = max).
Proof.
  intros Hm. assert (H : forall evs a, 0 <= conn_permits a -> 0 <= conn_open a -> conn_permits a + conn_open a = max ->
    let a' := snd (accept_rounds evs a) in 0 <= conn_permits a' /\ 0 <= conn_open a' /\ conn_permits a' + conn_open a' = max).
  { clear evs. induction evs as [|ev evs IH]; intros a Hp Ho Hs; [done|]. cbn [accept_rounds].
    destruct (accept_round_inv max ev a Hp Ho Hs) as (Hp' & Ho' & Hs'). destruct (accept_round ev a) as [o a1]. cbn [snd] in *.
    specialize (IH a1 Hp' Ho' Hs'). by destruct (accept_rounds evs a1). }
  specialize (H evs (mkAdmission max 0)). cbn [conn_permits conn_open] in H. specialize (H ltac:(lia) ltac:(lia) ltac:(lia)).
  cbv zeta in *. destruct H as (Hp & Ho & Hs). split; [lia|]. cbn [accept_round].
  destruct (Z.ltb_spec 0 (conn_permits (snd (accept_rounds evs (mkAdmission max 0))))); cbn [fst]; (split; [done || lia|]); intros; [lia|done].
Qed.

(** The listeners of the redirects are distinct, and their targets have a host
    and a port. *)
Theorem redirect_rules sections rules :
  parse_all sections = Ok rules ->
  NoDup (map rule_listen rules) /\ length rules = length sections /\
  Forall (fun r => exists host port n, rsplit_once Byte.x3a (rule_target r) = Some (host, port) /\ host <> [] /\ parse_u16 port = Some n /\ 0 <= n < u16_max) rules.
Proof.
  unfold parse_all. set (good r := exists host port n, rsplit_once Byte.x3a (rule_target r) = Some (host, port) /\ host <> [] /\ parse_u16 port = Some n /\ 0 <= n < u16_max).
  assert (H : forall sections acc, parse_all_loop sections acc = Ok rules -> NoDup (map rule_listen acc) -> Forall good acc ->
    NoDup (map rule_listen rules) /\ (length rules = length acc + length sections)%nat /\ Forall good rules).
  { clear sections. induction sections as [|sec sections IH]; intros acc; cbn [parse_all_loop].
    - intros [= ->] Hn Hg. split; [done|]. split; [cbn; lia|done].
    - intros (rule & Hr & H)%res_bind_Ok Hn Hg. destruct (existsb _ acc) eqn:He; [done|]. apply IH in H.
      + destruct H as (H1 & H2 & H3). split; [done|]. split; [|done]. rewrite H2, length_app. cbn. lia.
      + rewrite map_app. apply NoDup_app. split; [done|]. split; [|apply NoDup_singleton].
        intros l Hl ->%list_elem_of_singleton. apply list_elem_of_fmap in Hl as (r & Hl & Hin).
        assert (Ht : existsb (fun r => bool_decide (rule_listen r = rule_listen rule)) acc = true); [|congruence].
        apply existsb_exists. exists r. split; [by apply list_elem_of_In|]. by apply bool_decide_eq_true.
      + apply Forall_app. split; [done|]. constructor; [|done]. unfold RedirectRule_parse in Hr.
        apply res_bind_Ok in Hr as (listen & _ & Hr). apply res_bind_Ok in Hr as ([host port] & Hs%ok_or_Ok & Hr).
        case_bool_decide as Hh; [done|]. apply res_bind_Ok in Hr as (n & Hn'%ok_or_Ok & [= <-]).
        exists host, port, n. split; [done|]. split; [done|]. split; [done|]. by apply (parse_uint_range u16_max) in Hn'. }
  intros Hp. destruct (H sections [] Hp) as (H1 & H2 & H3); [constructor|constructor|]. done.
Qed.

(** *** Keys and tokens *)

Lemma fixed_32_round `{X : PqCrypto} `{B : Base64} {BL : Base64Laws B} k : zlen k = 32 ->
  decode_fixed_32 (b64_encode k) = Ok k.
Proof. intros Hk. unfold decode_fixed_32. rewrite b64_round. cbn. by rewrite Hk. Qed.

Lemma client_state_keys `{X : PqCrypto} `{B : Base64} `{BS : Base64Std} `{F : FstSet} `{N : NetTable} parse_url cfg st :
  client_build_state parse_url cfg = Ok st ->
  decode_fixed_32 (cl_public_key (ct_client cfg)) = Ok (st_server_public_key st) /\ st_auth_header st = str "Bearer " ++ ct_token cfg.
Proof.
  unfold client_build_state. intros ([] & _ & H)%res_bind_Ok. destruct (_ <? _); [done|]. destruct (_ =? 0); [done|].
  apply res_bind_Ok in H as (b & _ & H). apply res_bind_Ok in H as (pk & Hpk & H). apply res_bind_Ok in H as (u & _ & [= <-]).
  cbn. split; [|done]. unfold b64_to_public_key in Hpk. destruct (decode_fixed_32 _) as [k| |]; [|done..]. by injection Hpk as ->.
Qed.

(** The bytes a token consists of. *)
Definition token_text (l : bytes) : Prop := Forall (fun b => in_range 33 126 b = true) l.

Lemma issue_text `{P : Aead} `{B : Base64} {BL : Base64Laws B} key nonce claims token : issue key nonce claims = Ok token -> token_text token.
Proof.
  unfold issue. destruct (seal_in_place_separate_tag _ _ _) as [[ct tag]|]; [|done]. intros [= <-].
  eapply Forall_impl; [apply b64_text|]. cbn. unfold is_digit, in_range. intros b [H|[H|[H|[->| ->]]]]; [lia..|done|done].
Qed.

Lemma to_str_bearer token : token_text token -> to_str (str "Bearer " ++ token) = Some (str "Bearer " ++ token).
Proof.
  intros H. unfold to_str. rewrite forallb_app. assert (Ht : forallb (fun b => in_range 32 126 b || bool_decide (b = Byte.x09)) token = true).
  { apply forallb_forall. intros b Hb%list_elem_of_In. unfold token_text in H. rewrite Forall_forall in H. apply orb_true_iff. left.
    specialize (H b Hb). unfold in_range in *. lia. }
  by rewrite Ht.
Qed.

(** ** Properties *)

(** C34: what the client accepts. A configuration that is accepted has valid
    padding and limits with which uploading works: at least one request at a
    time, and room in flight for a whole batch and one more frame, so that a
    batch is never longer than the bytes that can ever be free. Bypass rules
    decide as the files say, also when they are dropped because they are
    empty; and what the client presents is its configured token. *)
Theorem client_setup_sound `{X : PqCrypto} `{B : Base64} `{BS : Base64Std} `{F : FstSet} (FL : FstSetLaws F) `{N : NetTable} (NL : NetTableLaws N)
    parse_url cfg st :
  client_build_state parse_url cfg = Ok st ->
  (forall n, cl_upload_concurrency (ct_client cfg) = Some n -> 0 <= n) ->
  validate (st_traffic_config st) = Ok tt /\
  1 <= st_upload_concurrency st /\ MIN_IN_FLIGHT_BYTES <= st_max_in_flight_bytes st /\
  (forall `{C : FrameCipher} initial rd start now word,
     let this := new_upload_loop (st_upload_concurrency st) (st_max_in_flight_bytes st) (st_resolved_traffic st) initial rd start now word in
     1 <= max_batch_bytes this /\
     max_batch_bytes this + max_encoded_frame_len (encoding_type (st_traffic_config st)) <= bytes_permits this) /\
  (exists rules, load (ct_bypass_files cfg) = Ok rules /\
     forall target, tunnel_mode (st_bypass st) target = if should_bypass rules target then Direct else Proxied) /\
  st_auth_header st = str "Bearer " ++ ct_token cfg.
Proof.
  unfold client_build_state. intros H Hu. apply res_bind_Ok in H as ([] & Hv & H).
  destruct (Z.ltb_spec (default MAX_IN_FLIGHT_BYTES (cl_max_in_flight_bytes (ct_client cfg))) MIN_IN_FLIGHT_BYTES) as [|Hmin]; [done|].
  destruct (Z.eqb_spec (default UPLOAD_CONCURRENCY (cl_upload_concurrency (ct_client cfg))) 0) as [|Hc]; [done|].
  apply res_bind_Ok in H as (bypass & Hb & H). apply res_bind_Ok in H as (pk & _ & H). apply res_bind_Ok in H as (url & _ & [= <-]).
  cbn [st_traffic_config st_upload_concurrency st_max_in_flight_bytes st_resolved_traffic st_bypass st_auth_header].
  split_and!; [| |done| | |done].
  - by destruct (validate _) as [[]| |].
  - destruct (cl_upload_concurrency (ct_client cfg)) as [n|]; cbn [default] in *; [|unfold UPLOAD_CONCURRENCY; lia].
    unfold id in *. specialize (Hu n eq_refl). lia.
  - intros C initial rd start now word. cbn [new_upload_loop max_batch_bytes bytes_permits]. cbv zeta. cbn [max_batch_bytes bytes_permits].
    change (cfg_encoding (Shaper.resolve (ct_traffic_shaping cfg))) with (encoding_type (ct_traffic_shaping cfg)).
    assert (Hf : 0 < max_encoded_frame_len (encoding_type (ct_traffic_shaping cfg)) <= MIN_IN_FLIGHT_BYTES - 1)
      by (destruct (encoding_type (ct_traffic_shaping cfg)); vm_compute; split; congruence).
    unfold saturating_sub. unfold MAX_BATCH_BYTES. lia.
  - unfold load_bypass in Hb. destruct (ct_bypass_files cfg) as [|f fs] eqn:Hf.
    + injection Hb as <-. destruct (fset_build_sorted [] ltac:(constructor)) as [s Hs]. exists (mkRules s table_new).
      assert (Hl : load [] = Ok (mkRules s table_new)) by (unfold load; cbn; unfold build; cbn; by rewrite Hs).
      split; [done|]. intros target. cbn. rewrite (empty_rules_match_nothing [] _ target Hl); [done|].
      unfold is_empty. cbn [domain_fst ip_table]. rewrite (proj2 (fset_build_empty _ _ Hs) eq_refl), table_new_len. done.
    + apply res_bind_Ok in Hb as (rules & Hr & [= <-]). exists rules. destruct (load (f :: fs)) as [r| |] eqn:Hl; [|done..].
      injection Hr as ->. split; [done|]. intros target. destruct (is_empty rules) eqn:He; [|done]. cbn.
      by rewrite (empty_rules_match_nothing _ _ _ Hl He).
Qed.

(** C18: the programs' keys and tokens fit. With the two keys of [gen-key] in
    the two configurations and a token of [gen-token] under the server's
    secret, the client's idea of the server's public key is the one of the
    server's private key, and the header the client sends is accepted by the
    server as the token's user until the token expires. *)
Theorem setup_agrees `{P : Aead} (L : AeadLaws P) `{X : PqCrypto} (XL : PqCryptoLaws X) `{B : Base64} (BL : Base64Laws B)
    `{BS : Base64Std} `{F : FstSet} `{NT : NetTable} `{IN : IpNetworks} `{K : TtlCache}
    parse_url warp_init server_name show hkdf random nonce user exp ccfg scfg cst sst :
  zlen random = 32 -> zlen nonce = NONCE_LEN -> (forall s i, zlen (hkdf s i) = 32) ->
  0 <= exp < u64_max -> zlen user <= 729 -> utf8_valid user = true ->
  sv_private_key scfg = fst (gen_key random) -> cl_public_key (ct_client ccfg) = snd (gen_key random) ->
  gen_token hkdf (sv_secret scfg) nonce user exp = Ok (ct_token ccfg) ->
  client_build_state parse_url ccfg = Ok cst ->
  server_build_state warp_init server_name show hkdf scfg = Ok sst ->
  st_server_public_key cst = x25519_public (ss_private_key sst) /\
  forall now c headers, now < exp -> cache_get now (ct_token ccfg) c = None ->
    header_get (str "Authorization") headers = Some (st_auth_header cst) ->
    exists c', validate_token_if_needed headers (ss_token_key sst) now c = (Ok user, c').
Proof.
  intros Hr Hn Hh He Hu Hutf Hsk Hpk Htok Hc Hs. unfold gen_key, generate_keypair in Hsk, Hpk. cbn in Hsk, Hpk.
  assert (Hss : ss_private_key sst = random /\ key_from_secret hkdf (sv_secret scfg) = Ok (ss_token_key sst)).
  { unfold server_build_state in Hs. apply res_bind_Ok in Hs as ([] & _ & Hs). apply res_bind_Ok in Hs as (warp & _ & Hs).
    apply res_bind_Ok in Hs as ([dc sn] & _ & Hs). apply res_bind_Ok in Hs as (sk & Hk & Hs). apply res_bind_Ok in Hs as (tk & Ht & [= <-]).
    cbn. split; [|done]. rewrite Hsk, fixed_32_round in Hk by done. by injection Hk. }
  destruct Hss as [-> Hkey]. unfold gen_token in Htok. rewrite Hkey in Htok. cbn [res_bind] in Htok.
  apply client_state_keys in Hc as [Hck Hca]. rewrite Hpk, fixed_32_round in Hck by (apply x25519_public_len). injection Hck as <-.
  split; [done|]. intros now c headers Hnow Hget Hhdr.
  destruct (token_roundtrip L BL (ss_token_key sst) nonce (mkClaims user exp) now) as (token & Hi & Ho); [done..|].
  rewrite Hi in Htok. injection Htok as ->.
  unfold validate_token_if_needed, validate_token_at. cbn [at_lookup at_open at_check at_insert]. rewrite Hhdr, Hca. cbn [mbind option_bind].
  rewrite to_str_bearer by (by eapply issue_text). rewrite strip_prefix_app, Hget, Ho. by eexists.
Qed.

(** How the server asks for names. With WARP there is always a resolver; and
    its messages leave as datagrams or on a direct stream only when the
    upstream is direct by the rules. *)
Theorem server_dns_policy `{P : Aead} `{X : PqCrypto} `{B : Base64} `{N : IpNetworks} warp_init server_name show hkdf config st :
  server_build_state warp_init server_name show hkdf config = Ok st ->
  (forall w, ss_warp st = Some w -> is_Some (ss_dns_client st)) /\
  forall dc t, ss_dns_client st = Some (dc, t) ->
    let via := match ss_warp st with Some w => negb (bypass_contains w (sa_ip (dns_upstream dc))) | None => false end in
    match t with
    | TransportUdp a => a = dns_upstream dc /\ protocol (options dc) = Udp /\ via = false
    | TransportStream v tls a => a = dns_upstream dc /\ v = via /\ (is_Some tls <-> protocol (options dc) = Dot)
    end.
Proof.
  intros ([] & _ & Hs)%res_bind_Ok. apply res_bind_Ok in Hs as (warp & _ & Hs). cbv zeta in Hs.
  apply res_bind_Ok in Hs as ([dns sn] & Hd & Hs). apply res_bind_Ok in Hs as (sk & _ & Hs). apply res_bind_Ok in Hs as (tk & _ & [= <-]).
  cbn [ss_warp ss_dns_client]. split.
  - intros w ->. destruct (sv_dns config) as [dc|]; cbn in Hd.
    + apply res_bind_Ok in Hd as (dc' & _ & Hd). apply res_bind_Ok in Hd as (t & _ & [= <- _]). done.
    + apply res_bind_Ok in Hd as (dc' & _ & Hd). apply res_bind_Ok in Hd as (t & _ & [= <- _]). done.
  - intros dc t ->. match type of Hd with match ?c with _ => _ end = _ => destruct c as [dc0|] end; [|done].
    apply res_bind_Ok in Hd as (dc' & _ & Hd). apply res_bind_Ok in Hd as (t' & Ht & [= -> -> _]).
    unfold build_transport in Ht. destruct (protocol (options dc)) eqn:Hp.
    + cbv zeta in Ht. match type of Ht with match ?c with _ => _ end = _ => destruct c end; injection Ht as <-; split_and!; try done; by intros [? ?].
    + cbv zeta in Ht. apply res_bind_Ok in Ht as (name & _ & [= <-]). by split_and!.
Qed.

(** ** Witnesses *)

Definition toy_gen_key : bytes * bytes := gen_key (zrep 32 (zb 5)).
Definition toy_hkdf (secret info : bytes) : bytes := zrep 32 (zb 9).

Definition toy_client_config : ClientTopConfig :=
  mkClientTop (mkClientSection (str "127.0.0.1:8080") (str "https://server.example/") None (snd toy_gen_key) (Some (mkProxyAuth (str "me") (str "pw")))
    None None (Some 4))
    (match gen_token toy_hkdf (str "secret") toy_nonce (str "alice") 2000 with Ok t => t | _ => [] end)
    toy_config [Ok ([str "intern.example"], []); Ok ([], [])] [].

Definition toy_server_config : ServerTopConfig :=
  mkServerTop (str "0.0.0.0:443") (str "/") (fst toy_gen_key) None (str "secret") None None None toy_config.

#[local] Instance toy_no_networks : IpNetworks := {| ip_net := unit; net_from_str := fun _ => None; net_contains := fun _ _ => false |}.

Definition toy_client_state := client_build_state Some toy_client_config.
Definition toy_server_state := server_build_state (fun _ => Err "no warp"%string) Some (fun _ => []) toy_hkdf toy_server_config.

Lemma client_setup_sound_witness :
  exists st, toy_client_state = Ok st /\ 1 <= st_upload_concurrency st /\
    exists rules, load (ct_bypass_files toy_client_config) = Ok rules /\
      forall target, tunnel_mode (st_bypass st) target = if should_bypass rules target then Direct else Proxied.
Proof.
  assert (H : is_ok toy_client_state = true) by (vm_compute; reflexivity).
  destruct toy_client_state as [st| |] eqn:Hst; [|discriminate|discriminate]. exists st. split; [reflexivity|].
  destruct (client_setup_sound toy_fst_laws toy_nets_laws Some toy_client_config st Hst) as (_ & Hc & _ & _ & Hb & _).
  - intros n [= <-]. lia.
  - split; [exact Hc|exact Hb].
Defined.

Definition toy_no_tokens : cache (TtlCache := toy_cache) := ∅ : gmap bytes (bytes * Z).

Lemma setup_agrees_witness :
  exists cst sst, toy_client_state = Ok cst /\ toy_server_state = Ok sst /\
    st_server_public_key cst = x25519_public (ss_private_key sst) /\
    exists c', validate_token_if_needed (P := toy_aead) (K := toy_cache) [(str "authorization", st_auth_header cst)] (ss_token_key sst) 1999 toy_no_tokens = (Ok (str "alice"), c').
Proof.
  assert (H1 : is_ok toy_client_state = true) by (vm_compute; reflexivity).
  assert (H2 : is_ok toy_server_state = true) by (vm_compute; reflexivity).
  destruct toy_client_state as [cst| |] eqn:Hc; [|discriminate|discriminate].
  destruct toy_server_state as [sst| |] eqn:Hs; [|discriminate|discriminate].
  exists cst, sst. split; [reflexivity|]. split; [reflexivity|].
  destruct (setup_agrees toy_aead_laws toy_crypto_laws toy_base64_laws (K := toy_cache) Some (fun _ => Err "no warp"%string) Some (fun _ => []) toy_hkdf
    (zrep 32 (zb 5)) toy_nonce (str "alice") 2000 toy_client_config toy_server_config cst sst) as [Hk Ht].
  - reflexivity.
  - reflexivity.
  - intros s i. reflexivity.
  - vm_compute. split; congruence.
  - vm_compute. congruence.
  - reflexivity.
  - reflexivity.
  - reflexivity.
  - vm_compute. reflexivity.
  - exact Hc.
  - exact Hs.
  - split; [exact Hk|]. apply Ht; [reflexivity|reflexivity|]. reflexivity.
Defined.
