(* ===== verification/DnsQueries.v ===== *)
(** * DNS queries over their transport

    The queries of [src/dns/client.rs] with the transport of
    [src/dns/transport.rs] they share: the permits that bound them
    ([query_upstream]), the connectors of the three kinds of stream, the
    transport's actor, and every peer that is contacted, for any number of
    queries in any order of events. [connect_single], by which the client
    reaches a resolved address, is here as well. *)

From S2P Require Import Prelude Cipher Frame Shaper Text Net Token Crypto Dns DnsTransport Warp Outgoing Setup.

(** ** Connecting *)

(** An operation under a timeout. *)
Inductive Timed : Type := TimedOk | TimedErr (e : string) | TimedOut.

Definition timed (o : Timed) (context : string) : Res string unit :=
  match o with
  | TimedOk => Ok tt
  | TimedErr e => Err e
  | TimedOut => Err context
  end.

(** Who is contacted, and the name a TLS peer has to prove. *)
Inductive Contact : Type :=
| ContactUdp (peer : SocketAddr)
| ContactTcp (peer : SocketAddr)
| ContactWarp (authority : bytes)
| TlsName (name : bytes).

(** [DnsStream]: what it runs over, and the name its peer has proved. *)
Inductive DnsStream : Type :=
| OverTcp (tls : option bytes)
| OverWarp (tunnel : nat) (tls : option bytes).

Record ConnectorEnv : Type := mkConnectorEnv {
  ce_warp1 : DialEnv;
  ce_warp2 : DialEnv;
  ce_tcp : Timed;
  ce_nodelay : option string;
  ce_tls : Timed
}.

Section connectors.
Context (show_v6 : Z -> bytes).

Definition warp_authority (upstream : SocketAddr) : bytes := authority show_v6 (sa_ip upstream) (sa_port upstream).

Definition warp_connector (upstream : SocketAddr) (env : ConnectorEnv) (w : WarpState) : Res string DnsStream * list Contact * WarpState :=
  let '(stream, w) := dial (ce_warp1 env) (ce_warp2 env) w in
  ((let? tunnel := stream in Ok (OverWarp tunnel None)), [ContactWarp (warp_authority upstream)], w).

Definition direct_dot_connector (upstream : SocketAddr) (name : bytes) (env : ConnectorEnv) : Res string DnsStream * list Contact :=
  match (let? _ := timed (ce_tcp env) "connect timeout" in done_or (ce_nodelay env) tt) with
  | Ok _ =>
      ((let? _ := timed (ce_tls env) "TLS handshake timeout" in Ok (OverTcp (Some name))), [ContactTcp upstream; TlsName name])
  | Err e => (Err e, [ContactTcp upstream])
  | Panic => (Panic, [ContactTcp upstream])
  end.

Definition warp_dot_connector (upstream : SocketAddr) (name : bytes) (env : ConnectorEnv) (w : WarpState)
    : Res string DnsStream * list Contact * WarpState :=
  let '(io, w) := dial (ce_warp1 env) (ce_warp2 env) w in
  match io with
  | Ok tunnel =>
      ((let? _ := timed (ce_tls env) "TLS handshake timeout" in Ok (OverWarp tunnel (Some name))),
       [ContactWarp (warp_authority upstream); TlsName name], w)
  | Err e => (Err e, [ContactWarp (warp_authority upstream)], w)
  | Panic => (Panic, [ContactWarp (warp_authority upstream)], w)
  end.

(** The connector [build_transport] gives to a stream transport. *)
Definition connector (t : Transport) (env : ConnectorEnv) (w : WarpState) : option (Res string DnsStream * list Contact * WarpState) :=
  match t with
  | TransportStream true None upstream => Some (warp_connector upstream env w)
  | TransportStream true (Some name) upstream => Some (warp_dot_connector upstream name env w)
  | TransportStream false (Some name) upstream => let '(r, cs) := direct_dot_connector upstream name env in Some (r, cs, w)
  | TransportStream false None _ | TransportUdp _ => None
  end.
End connectors.

(** [DnsClient::connect_single]: an address that was resolved. *)
Definition connect_single (ip : IpAddr) (port : Z) (proxy : option bytes) (connecting : Timed) (nodelay : option string)
    : Res string Outgoing * Dialled :=
  let proxy_addr := option_map socks_addr proxy in
  let error := match proxy with Some _ => "socks5 connect"%string | None => "tcp connect"%string end in
  ((let? _ := match connecting with
              | TimedOk => Ok tt
              | TimedErr _ => Err error
              | TimedOut => Err "connect timeout"%string
              end in
    match nodelay with Some _ => Err "set_nodelay"%string | None => Ok (OutDirect proxy_addr (PeerIp ip port)) end),
   DialTcp proxy_addr (PeerIp ip port)).

(** ** Queries *)

(** A query waits for its permit, then for its answer: on the stream, or as a
    datagram with its identifier. *)
Inductive QueryPhase : Type :=
| QsWaiting
| QsStream
| QsDatagram (id : Z) (data : bytes)
| QsDone (r : Res string (list IpAddr * Z)).

Record UpstreamQuery : Type := mkUpstreamQuery {
  uq_domain : bytes;
  uq_rtype : Z;
  uq_ecs : option IpAddr;
  uq_phase : QueryPhase
}.

Definition set_phase (q : UpstreamQuery) (p : QueryPhase) : UpstreamQuery :=
  mkUpstreamQuery (uq_domain q) (uq_rtype q) (uq_ecs q) p.

Record DnsQueries : Type := mkQueries {
  dq_permits : Z;
  dq_queries : gmap nat UpstreamQuery;
  dq_transport : StreamTransport;
  dq_warp : WarpState;
  dq_contacts : list Contact;
  dq_streams : list DnsStream
}.

Inductive QueryEvent : Type :=
| QOpen (n : nat) (domain : bytes) (rtype : Z) (ecs : option IpAddr)
| QAcquire (n : nat) (id : Z) (draws : list Z)
| QConnect (env : ConnectorEnv)
| QTransport (ev : TransportEvent)
| QReceived (n : nat) (received : Res string bytes)
| QAnswered (n : nat).

Section queries.
Context `{W : DnsWire} (show_v6 : Z -> bytes) (opts : DnsOptions) (transport : Transport).

Definition queries_new (w : WarpState) : DnsQueries := mkQueries (max_concurrent_queries opts) ∅ transport_new w [] [].

Definition set_query (s : DnsQueries) (n : nat) (q : UpstreamQuery) : DnsQueries :=
  mkQueries (dq_permits s) (<[n := q]> (dq_queries s)) (dq_transport s) (dq_warp s) (dq_contacts s) (dq_streams s).
Definition set_permits (s : DnsQueries) (p : Z) : DnsQueries :=
  mkQueries p (dq_queries s) (dq_transport s) (dq_warp s) (dq_contacts s) (dq_streams s).
Definition set_transport (s : DnsQueries) (t : StreamTransport) : DnsQueries :=
  mkQueries (dq_permits s) (dq_queries s) t (dq_warp s) (dq_contacts s) (dq_streams s).
Definition add_contacts (s : DnsQueries) (cs : list Contact) (w : WarpState) (streams : list DnsStream) : DnsQueries :=
  mkQueries (dq_permits s) (dq_queries s) (dq_transport s) w (dq_contacts s ++ cs) (dq_streams s ++ streams).

(** The end of [query_upstream] with what the transport gave; its permit is
    returned. *)
Definition query_done (s : DnsQueries) (n : nat) (q : UpstreamQuery) (sent : Res string (bytes * Z)) : DnsQueries :=
  set_permits
    (set_query s n (set_phase q (QsDone (let? (resp, id) := sent in parse_response opts resp id (uq_rtype q) (uq_domain q)))))
    (dq_permits s + 1).

(** [query_upstream] from its permit to the wait for an answer. *)
Definition query_send (s : DnsQueries) (n : nat) (q : UpstreamQuery) (id : Z) (draws : list Z) : option DnsQueries :=
  let s := set_permits s (dq_permits s - 1) in
  match build_query (uq_domain q) (uq_rtype q) (uq_ecs q) 0 with
  | Ok query =>
      match transport with
      | TransportUdp upstream =>
          Some (match udp_send id query (Err "UDP upstream timeout"%string) with
                | (Panic, _) => query_done s n q Panic
                | (_, sent) => add_contacts (set_query s n (set_phase q (QsDatagram id query))) (map (fun _ => ContactUdp upstream) sent) (dq_warp s) []
                end)
      | TransportStream _ _ _ =>
          t ← transport_step (TSend n draws query) (dq_transport s);
          Some (set_transport (set_query s n (set_phase q QsStream)) t)
      end
  | Err e => Some (query_done s n q (Err e))
  | Panic => Some (query_done s n q Panic)
  end.

Definition query_step (ev : QueryEvent) (s : DnsQueries) : option DnsQueries :=
  match ev with
  | QOpen n domain rtype ecs =>
      match dq_queries s !! n with
      | Some _ => None
      | None => Some (set_query s n (mkUpstreamQuery domain rtype ecs QsWaiting))
      end
  | QAcquire n id draws =>
      q ← dq_queries s !! n;
      match uq_phase q with
      | QsWaiting => if 0 <? dq_permits s then query_send s n q id draws else None
      | _ => None
      end
  | QConnect env =>
      '(r, cs, w) ← connector show_v6 transport env (dq_warp s);
      t ← transport_step (TConnect (let? _ := r in Ok tt)) (dq_transport s);
      Some (set_transport (add_contacts s cs w (match r with Ok stream => [stream] | _ => [] end)) t)
  | QTransport ev =>
      match ev with
      | TSend _ _ _ | TConnect _ => None
      | _ => t ← transport_step ev (dq_transport s); Some (set_transport s t)
      end
  | QReceived n received =>
      q ← dq_queries s !! n;
      match uq_phase q with
      | QsDatagram id data => Some (query_done s n q (fst (udp_send id data received)))
      | _ => None
      end
  | QAnswered n =>
      q ← dq_queries s !! n;
      match uq_phase q with
      | QsStream =>
          if bool_decide (n ∈ map fst (entering (dq_transport s))) then None
          else '(_, (_, r)) ← list_find (fun a => fst a = n) (answers (dq_transport s)); Some (query_done s n q r)
      | _ => None
      end
  end.

Fixpoint query_run (evs : list QueryEvent) (s : DnsQueries) : option DnsQueries :=
  match evs with
  | [] => Some s
  | ev :: evs => s ← query_step ev s; query_run evs s
  end.
End queries.

(** ** Specification *)

Definition busy (q : UpstreamQuery) : bool := match uq_phase q with QsStream | QsDatagram _ _ => true | _ => false end.

(** The queries that hold a permit. *)
Definition in_flight (s : DnsQueries) : gmap nat UpstreamQuery := filter (fun p => busy (snd p) = true) (dq_queries s).

Definition is_stream (t : Transport) : bool := match t with TransportStream _ _ _ => true | TransportUdp _ => false end.

(** A sender that waits or was answered. *)
Definition known (t : StreamTransport) (n : nat) : Prop := is_Some (waiting t !! n) \/ n ∈ map fst (answers t).

(** Who may be contacted: the upstream alone, over the kind of connection the
    transport stands for, and with the name it was given. *)
Definition contact_allowed (show_v6 : Z -> bytes) (t : Transport) (c : Contact) : Prop :=
  match t, c with
  | TransportUdp upstream, ContactUdp peer => peer = upstream
  | TransportStream false _ upstream, ContactTcp peer => peer = upstream
  | TransportStream true _ upstream, ContactWarp auth => auth = warp_authority show_v6 upstream
  | TransportStream _ tls _, TlsName name => tls = Some name
  | _, _ => False
  end.

(** A stream that was opened is of that kind, and its peer proved the name. *)
Definition stream_allowed (t : Transport) (s : DnsStream) : Prop :=
  match t, s with
  | TransportStream true tls _, OverWarp _ proved => proved = tls
  | TransportStream false tls _, OverTcp proved => proved = tls
  | _, _ => False
  end.

(** ** Lemmas *)

(** *** The transport *)

(** A step that gives answers and takes no query. *)
Definition settles (t t' : StreamTransport) : Prop :=
  forall n, (is_Some (waiting t' !! n) -> is_Some (waiting t !! n)) /\ (known t' n <-> known t n).

Lemma settles_refl t : settles t t.
Proof. by intros n. Qed.
Lemma settles_trans t1 t2 t3 : settles t1 t2 -> settles t2 t3 -> settles t1 t3.
Proof. intros H1 H2 n. destruct (H1 n), (H2 n). split; [by auto|]. by transitivity (known t2 n). Qed.

(** A sender leaves the map of those who wait with an answer. *)
Lemma settles_give t n id r : waiting t !! n = Some id -> settles t (give id n r t).
Proof.
  intros Hn m. unfold known. cbn. rewrite map_app, elem_of_app. cbn. rewrite list_elem_of_singleton.
  destruct (decide (m = n)) as [->|Hne].
  - rewrite lookup_delete_eq, Hn. split; [by intros []|]. split; [by left; eexists|by right; right].
  - rewrite lookup_delete_ne by done. split; [done|]. split; [intros [?|[?|?]]; by auto|intros [?|?]; by auto].
Qed.

Lemma settles_answer id r t : transport_inv t -> settles t (answer id r t).
Proof.
  intros Hi. unfold answer. destruct (pending t !! id) as [n|] eqn:Hn; [|apply settles_refl].
  apply settles_give. by apply (ti_inverse t Hi).
Qed.

Lemma settles_set_conn t c : settles t (set_conn t c).
Proof. by intros n. Qed.
Lemma settles_set_channel t e q x : settles t (set_channel t e q x).
Proof. by intros n. Qed.

Lemma settles_drain e t : transport_inv t -> settles t (drain e t).
Proof.
  unfold drain. generalize (map fst (map_to_list (pending t))) as ids. intros ids. revert t.
  induction ids as [|id ids IH]; intros t Hi; [apply settles_refl|]. cbn [foldl].
  eapply settles_trans; [by apply settles_answer|]. apply IH. by apply answer_inv.
Qed.

(** What is not an answer leaves the channel alone, and an answer as well. *)
Lemma answer_channel id r t :
  entering (answer id r t) = entering t /\ queue (answer id r t) = queue t /\ serving (answer id r t) = serving t.
Proof. unfold answer. by destruct (pending t !! id). Qed.

Lemma drain_channel e t :
  entering (drain e t) = entering t /\ queue (drain e t) = queue t /\ serving (drain e t) = serving t.
Proof.
  unfold drain. generalize (map fst (map_to_list (pending t))) as ids. intros ids. revert t.
  induction ids as [|id ids IH]; intros t; [done|]. cbn [foldl]. destruct (IH (answer id (Err e) t)) as (-> & -> & ->). apply answer_channel.
Qed.

Definition sends (ev : TransportEvent) : bool := match ev with TSend _ _ _ => true | _ => false end.

(** The senders that wait for room. *)
Definition at_door (t : StreamTransport) : list nat := map fst (entering t).

(** They wait once, and the channel holds what it can hold. *)
Record channel_inv (t : StreamTransport) : Prop := {
  ch_once : NoDup (at_door t);
  ch_known : forall n, n ∈ at_door t -> known t n;
  ch_room : (length (queue t) <= TRANSPORT_CHANNEL)%nat
}.

(** A step without a new query gives answers, and lets senders in at most. *)
Record goes_on (t t' : StreamTransport) : Prop := {
  go_settles : settles t t';
  go_door : sublist (at_door t') (at_door t);
  go_room : (length (queue t) <= TRANSPORT_CHANNEL)%nat -> (length (queue t') <= TRANSPORT_CHANNEL)%nat
}.

Lemma goes_on_channel t t' : channel_inv t -> goes_on t t' -> channel_inv t'.
Proof.
  intros [Ho Hk Hr] [Hs Hd Hq]. split; [by eapply sublist_NoDup| |by apply Hq]. intros n Hn. apply Hs, Hk.
  by eapply elem_of_sublist.
Qed.

Lemma goes_on_same t t' :
  settles t t' -> entering t' = entering t -> queue t' = queue t -> goes_on t t'.
Proof. intros Hs He Hq. split; [done|unfold at_door; by rewrite He|by rewrite Hq]. Qed.

Lemma goes_on_answer id r t x : transport_inv t -> goes_on t (answer id r (set_channel t (entering t) (queue t) x)).
Proof.
  intros Hi. destruct (answer_channel id r (set_channel t (entering t) (queue t) x)) as (He & Hq & _). apply goes_on_same; [|done..].
  eapply settles_trans; [apply settles_set_channel|]. apply settles_answer. by apply set_channel_inv.
Qed.

Lemma goes_on_drain e t x : transport_inv t -> goes_on t (drain e (set_channel t (entering t) (queue t) x)).
Proof.
  intros Hi. destruct (drain_channel e (set_channel t (entering t) (queue t) x)) as (He & Hq & _). apply goes_on_same; [|done..].
  eapply settles_trans; [apply settles_set_channel|]. apply settles_drain. by apply set_channel_inv.
Qed.

Lemma goes_on_conn t t' c : goes_on t t' -> goes_on t (set_conn t' c).
Proof. by intros []. Qed.
Lemma goes_on_before t t' c : goes_on (set_conn t c) t' -> goes_on t t'.
Proof. by intros []. Qed.

Lemma transport_step_goes ev t t' : transport_inv t -> sends ev = false -> transport_step ev t = Some t' -> goes_on t t'.
Proof.
  intros Hi Hs. destruct ev as [n draws data|n| |connected|written|b| | |n]; [done|..]; cbn [transport_step].
  - destruct (list_find _ _) as [[i [m message]]|] eqn:Hf; cbn [mbind option_bind]; [|done]. case_decide as Hroom; [|done].
    intros [= <-]. split; [apply settles_set_channel| |].
    + unfold at_door. cbn. apply (fmap_sublist (fun e : nat * (bytes * Z) => e.1)), sublist_delete.
    + intros _. cbn. rewrite length_app. cbn. lia.
  - destruct (serving t); [done|]. destruct (queue t) as [|message q] eqn:Hq; [done|]. intros [= <-].
    split; [apply settles_set_channel|done|]. rewrite Hq. cbn. lia.
  - destruct (serving t) as [[data id]|]; [|done]. destruct (conn t); [done|].
    destruct connected as [[]|e|]; [| |done]; intros [= <-]; [by apply goes_on_same|]. by apply goes_on_answer.
  - destruct (serving t) as [[data id]|]; [|done]. destruct (conn t) as [[out arrived]|]; [|done].
    destruct written; intros [= <-]; apply goes_on_conn; [by apply goes_on_same|by apply goes_on_drain].
  - destruct (conn t) as [[out arrived]|]; [|done]. intros [= <-]. by apply goes_on_same.
  - destruct (conn t) as [[out arrived]|]; [|done]. destruct (reader_round arrived) as [[msg rest]|]; cbn [mbind option_bind]; [|done].
    destruct msg as [buf|]; intros [= <-]; [|by apply goes_on_same]. destruct (2 <=? zlen buf); [|by apply goes_on_same].
    apply (goes_on_before t _ (Some (out, rest))). apply (goes_on_answer _ _ (set_conn t (Some (out, rest))) (serving t)). by apply set_conn_inv.
  - destruct (serving t) eqn:Hx; [done|]. destruct (conn t); [|done]. intros [= <-]. apply (goes_on_before t _ None).
    apply (goes_on_drain _ (set_conn t None) (serving t)). by apply set_conn_inv.
  - destruct (waiting t !! n) as [id|] eqn:Hw; [|done]. case_bool_decide; [done|]. intros [= <-]. apply goes_on_same; [by apply settles_give|done..].
Qed.

(** *** The queries *)

Definition held (q : UpstreamQuery) : nat := if busy q then 1 else 0.

Lemma in_flight_insert (m : gmap nat UpstreamQuery) n q' :
  (size (filter (fun p => busy (snd p) = true) (<[n := q']> m)) + from_option held 0 (m !! n) =
   size (filter (fun p => busy (snd p) = true) m) + held q')%nat.
Proof.
  assert (Hl : filter (fun p => busy (snd p) = true) m !! n = match m !! n with Some q => if busy q then Some q else None | None => None end).
  { rewrite map_lookup_filter. destruct (m !! n) as [q|]; cbn; [|done]. case_guard as Hb; cbn in *; destruct (busy q); done. }
  unfold held at 2. destruct (busy q') eqn:Hq.
  - rewrite map_filter_insert_True by done. rewrite map_size_insert, Hl. unfold held.
    destruct (m !! n) as [q|]; cbn; [destruct (busy q)|]; unfold id; cbn; lia.
  - rewrite map_filter_insert_False by (cbn; by rewrite Hq). rewrite map_filter_delete, map_size_delete, Hl. unfold held.
    destruct (m !! n) as [q|]; cbn; [|unfold id; lia]. destruct (busy q) eqn:Hb; [|unfold id; lia].
    assert (size (filter (fun p => busy (snd p) = true) m) <> 0%nat).
    { apply map_size_ne_0_lookup. exists n, q. done. }
    lia.
Qed.

Section inv.
Context `{W : DnsWire} (show_v6 : Z -> bytes) (opts : DnsOptions) (transport : Transport).

Record queries_inv (s : DnsQueries) : Prop := {
  qi_transport : transport_inv (dq_transport s);
  qi_channel : channel_inv (dq_transport s);
  qi_permits : 0 <= dq_permits s /\ dq_permits s + Z.of_nat (size (in_flight s)) = max_concurrent_queries opts;
  qi_known : forall n, known (dq_transport s) n ->
    exists q, dq_queries s !! n = Some q /\ (uq_phase q = QsStream \/ exists r, uq_phase q = QsDone r);
  qi_waiting : forall n, is_Some (waiting (dq_transport s) !! n) -> exists q, dq_queries s !! n = Some q /\ uq_phase q = QsStream;
  qi_door : forall n, n ∈ at_door (dq_transport s) ->
    is_stream transport = true /\ exists q, dq_queries s !! n = Some q /\ uq_phase q = QsStream;
  qi_stream : forall n q, dq_queries s !! n = Some q -> uq_phase q = QsStream -> known (dq_transport s) n;
  qi_done : forall n q a, dq_queries s !! n = Some q -> uq_phase q = QsDone (Ok a) ->
    exists resp id, parse_response opts resp id (uq_rtype q) (uq_domain q) = Ok a;
  qi_contacts : Forall (contact_allowed show_v6 transport) (dq_contacts s);
  qi_streams : Forall (stream_allowed transport) (dq_streams s)
}.

Lemma queries_new_inv w : 0 <= max_concurrent_queries opts -> queries_inv (queries_new opts w).
Proof.
  intros Hm. split; cbn; try done.
  - apply transport_new_inv.
  - split; cbn; [constructor| |unfold TRANSPORT_CHANNEL; lia]. intros n Hn. by apply elem_of_nil in Hn.
  - split; [done|]. unfold in_flight. cbn. rewrite map_filter_empty, map_size_empty. lia.
  - intros n [[? H]|H]; [done|]. cbn in H. by apply elem_of_nil in H.
  - intros n [? H]. done.
  - intros n Hn. by apply elem_of_nil in Hn.
Qed.

(** One query changes, with its permit and its place in the transport. *)
Lemma set_inv s n q' t p :
  queries_inv s -> transport_inv t -> channel_inv t ->
  (forall m, m <> n -> (is_Some (waiting t !! m) <-> is_Some (waiting (dq_transport s) !! m)) /\
                       (known t m <-> known (dq_transport s) m) /\ (m ∈ at_door t -> m ∈ at_door (dq_transport s))) ->
  (n ∈ at_door t -> is_stream transport = true /\ uq_phase q' = QsStream) ->
  0 <= p -> p + Z.of_nat (held q') = dq_permits s + Z.of_nat (from_option held 0%nat (dq_queries s !! n)) ->
  (known t n -> uq_phase q' = QsStream \/ exists r, uq_phase q' = QsDone r) ->
  (is_Some (waiting t !! n) -> uq_phase q' = QsStream) -> (uq_phase q' = QsStream -> known t n) ->
  (forall a, uq_phase q' = QsDone (Ok a) -> exists resp id, parse_response opts resp id (uq_rtype q') (uq_domain q') = Ok a) ->
  queries_inv (set_permits (set_transport (set_query s n q') t) p).
Proof.
  intros [It Ich [Ip Ipe] Ik Iw Io Is Id Ic Ist] Ht Hch Ho Hdoor Hp Hpe Hk Hw Hs Hd.
  pose proof (in_flight_insert (dq_queries s) n q') as Hsize.
  split; cbn; try done.
  - split; [done|]. unfold in_flight in *. cbn. lia.
  - intros m Hm. destruct (decide (m = n)) as [->|Hne]; [exists q'; rewrite lookup_insert_eq; by auto|].
    rewrite lookup_insert_ne by done. by apply Ik, (Ho m Hne).
  - intros m Hm. destruct (decide (m = n)) as [->|Hne]; [exists q'; rewrite lookup_insert_eq; by auto|].
    rewrite lookup_insert_ne by done. by apply Iw, (Ho m Hne).
  - intros m Hm. destruct (decide (m = n)) as [->|Hne]; [destruct (Hdoor Hm); split; [done|]; exists q'; by rewrite lookup_insert_eq|].
    rewrite lookup_insert_ne by done. by apply Io, (Ho m Hne).
  - intros m q Hm Hq. destruct (decide (m = n)) as [->|Hne]; [rewrite lookup_insert_eq in Hm; injection Hm as <-; by auto|].
    rewrite lookup_insert_ne in Hm by done. apply (Ho m Hne). by eapply Is.
  - intros m q a Hm Hq. destruct (decide (m = n)) as [->|Hne]; [rewrite lookup_insert_eq in Hm; injection Hm as <-; by auto|].
    rewrite lookup_insert_ne in Hm by done. by eapply Id.
Qed.

(** The transport goes on by itself. *)
Lemma set_transport_inv s t :
  queries_inv s -> transport_inv t -> goes_on (dq_transport s) t -> queries_inv (set_transport s t).
Proof.
  intros [It Ich Ip Ik Iw Io Is Id Ic Ist] Ht Hg. pose proof (goes_on_channel _ _ Ich Hg) as Hch. destruct Hg as [Hs Hd _]. split; cbn; try done.
  - intros n Hn. by apply Ik, Hs.
  - intros n Hn. by apply Iw, Hs.
  - intros n Hn. apply Io. by eapply elem_of_sublist.
  - intros n q Hq Hp. apply Hs. by eapply Is.
Qed.

Lemma add_contacts_inv s cs w streams :
  queries_inv s -> Forall (contact_allowed show_v6 transport) cs -> Forall (stream_allowed transport) streams ->
  queries_inv (add_contacts s cs w streams).
Proof. intros [It Ich Ip Ik Iw Io Is Id Ic Ist] Hc Hs. split; cbn; try done; by apply Forall_app. Qed.

(** A query ends and returns the permit it holds. *)
Lemma query_done_inv s n q sent :
  queries_inv s -> dq_queries s !! n = Some q -> busy q = true -> waiting (dq_transport s) !! n = None ->
  n ∉ at_door (dq_transport s) -> queries_inv (query_done opts s n q sent).
Proof.
  intros Hi Hq Hb Hw Hd. apply (set_inv s n (set_phase q (QsDone _)) (dq_transport s) (dq_permits s + 1)); try done.
  - apply Hi.
  - apply Hi.
  - pose proof (qi_permits s Hi). lia.
  - rewrite Hq. cbn. unfold held. rewrite Hb. cbn. lia.
  - intros _. right. by eexists.
  - rewrite Hw. by intros [].
  - cbn. intros a H. injection H as H. apply res_bind_Ok in H as ([resp id] & _ & Hp). by exists resp, id.
Qed.

Lemma send_spec n draws data t t' :
  transport_step (TSend n draws data) t = Some t' ->
  (exists id, waiting t' = <[n := id]> (waiting t)) /\ answers t' = answers t /\ at_door t' = at_door t ++ [n] /\ queue t' = queue t.
Proof.
  cbn [transport_step]. destruct (waiting t !! n); [done|]. case_bool_decide; [done|]. unfold assign_id_and_register.
  destruct (pick_id draws (pending t)) as [id|]; cbn [mbind option_bind]; [|done]. intros [= <-]. unfold at_door. cbn. rewrite map_app. eauto.
Qed.

Lemma waiting_unknown s n q :
  queries_inv s -> dq_queries s !! n = Some q -> uq_phase q = QsWaiting -> ~ known (dq_transport s) n.
Proof. intros Hi Hq Hp Hk. destruct (qi_known s Hi n Hk) as (q2 & Hq2 & [H|[r H]]); rewrite Hq in Hq2; injection Hq2 as <-; congruence. Qed.

Lemma query_send_inv s n q id draws s' :
  queries_inv s -> dq_queries s !! n = Some q -> uq_phase q = QsWaiting -> 0 < dq_permits s ->
  query_send opts transport s n q id draws = Some s' -> queries_inv s'.
Proof.
  intros Hi Hq Hp Hpos. pose proof (waiting_unknown s n q Hi Hq Hp) as Hunk. assert (Hbusy : busy q = false) by (unfold busy; by rewrite Hp).
  assert (Hdoor : n ∉ at_door (dq_transport s)) by (intros Hin; by apply Hunk, (ch_known _ (qi_channel s Hi))).
  assert (Hset : forall p', ~ (p' = QsStream) -> (forall a, p' <> QsDone (Ok a)) ->
     let d := dq_permits s - Z.of_nat (held (set_phase q p')) in queries_inv (set_permits (set_query s n (set_phase q p')) d)).
  { intros p' Hns Hnd. apply (set_inv s n (set_phase q p') (dq_transport s)); try done.
    - apply Hi.
    - apply Hi.
    - unfold held. destruct (busy (set_phase q p')); lia.
    - rewrite Hq. cbn [from_option]. unfold held at 3. rewrite Hbusy. lia.
    - intros Hw. by destruct Hunk; left.
    - intros a Ha. by destruct (Hnd a). }
  assert (Hfail : forall r, is_ok r = false -> queries_inv (query_done opts (set_permits s (dq_permits s - 1)) n q r)).
  { intros r Hr. unfold query_done. cbn [dq_permits set_permits].
    replace (dq_permits s - 1 + 1) with (dq_permits s - Z.of_nat (held (set_phase q (QsDone (let? (resp, id) := r in
      parse_response opts resp id (uq_rtype q) (uq_domain q)))))) by (unfold held; cbn; lia).
    apply (Hset (QsDone _)); [done|]. intros a Ha. by destruct r. }
  unfold query_send. destruct (build_query _ _ _ _) as [query|e|]; [|by intros [= <-]; apply Hfail..].
  destruct transport as [upstream|via tls upstream] eqn:Ht.
  - destruct (udp_send id query _) as [[r|e|] sent] eqn:Hu; intros [= <-]; [| |by apply Hfail];
      (apply add_contacts_inv; [|apply Forall_forall; intros c Hc; apply list_elem_of_fmap in Hc as (b & -> & _); by rewrite Ht|by constructor]);
      apply (Hset (QsDatagram id query)); done.
  - destruct (transport_step _ _) as [t|] eqn:Hs; cbn [mbind option_bind]; [|done]. intros [= <-].
    apply transport_step_inv in Hs as Hti; [|apply Hi]. apply send_spec in Hs as ([i Hw] & Ha & He & Hqu).
    apply (set_inv s n (set_phase q QsStream) t (dq_permits s - 1)); try done.
    + destruct (qi_channel s Hi) as [Ho Hk Hr]. split; rewrite ?He, ?Hqu; [|intros m Hm|done].
      * apply NoDup_app. split; [done|]. split; [|apply NoDup_singleton]. intros m Hm ->%list_elem_of_singleton. done.
      * unfold known. rewrite Hw, Ha. destruct (decide (m = n)) as [->|Hne]; [left; rewrite lookup_insert_eq; by eexists|].
        rewrite lookup_insert_ne by done. apply Hk. apply elem_of_app in Hm as [|Hm%list_elem_of_singleton]; done.
    + intros m Hm. unfold known. rewrite Hw, Ha, He, lookup_insert_ne by done. split; [done|]. split; [done|].
      by intros [|?%list_elem_of_singleton]%elem_of_app.
    + intros _. split; [by rewrite Ht|done].
    + lia.
    + rewrite Hq. cbn. unfold held. rewrite Hbusy. cbn. lia.
    + by left.
    + intros _. left. rewrite Hw, lookup_insert_eq. by eexists.
Qed.

(** What a connector contacts and opens. *)
Lemma connector_allowed env w r cs w' :
  connector show_v6 transport env w = Some (r, cs, w') ->
  Forall (contact_allowed show_v6 transport) cs /\ forall stream, r = Ok stream -> stream_allowed transport stream.
Proof.
  destruct transport as [|[] [name|] upstream]; cbn [connector]; [done|..|done].
  - unfold warp_dot_connector. destruct (dial _ _ w) as [[tunnel|e|] w2]; intros [= <- <- <-]; (split; [by repeat constructor|]); [|done..].
    by intros stream ([] & _ & [= <-])%res_bind_Ok.
  - unfold warp_connector. destruct (dial _ _ w) as [io w2]; intros [= <- <- <-]; (split; [by repeat constructor|]).
    by intros stream (tunnel & _ & [= <-])%res_bind_Ok.
  - unfold direct_dot_connector. destruct (res_bind _ _); intros [= <- <- <-]; (split; [by repeat constructor|]); [|done..].
    by intros stream ([] & _ & [= <-])%res_bind_Ok.
Qed.

Lemma query_step_inv ev s s' : queries_inv s -> query_step show_v6 opts transport ev s = Some s' -> queries_inv s'.
Proof.
  intros Hi. assert (Hmove : forall tev s t, queries_inv s -> sends tev = false -> transport_step tev (dq_transport s) = Some t -> queries_inv (set_transport s t)).
  { intros tev s1 t H1 Hs Ht. apply set_transport_inv; [done|by eapply transport_step_inv, Ht; apply H1|by eapply transport_step_goes, Ht; [apply H1|]]. }
  destruct ev as [n domain rtype ecs|n id draws|env|tev|n received|n]; cbn [query_step].
  - destruct (dq_queries s !! n) eqn:Hq; [done|]. intros [= <-].
    assert (Hunk : ~ known (dq_transport s) n) by (intros (q & Hk & _)%(qi_known s Hi); congruence).
    apply (set_inv s n _ (dq_transport s) (dq_permits s)); try done; [apply Hi..|by intros Hd%(ch_known _ (qi_channel s Hi))|apply (qi_permits s Hi)|by rewrite Hq|].
    intros Hw. destruct Hunk. by left.
  - destruct (dq_queries s !! n) as [q|] eqn:Hq; cbn [mbind option_bind]; [|done].
    destruct (uq_phase q) eqn:Hp; try done. destruct (Z.ltb_spec 0 (dq_permits s)); [|done]. by apply query_send_inv.
  - destruct (connector show_v6 transport env (dq_warp s)) as [[[r cs] w]|] eqn:Hc; cbn [mbind option_bind]; [|done].
    apply connector_allowed in Hc as [Hcs Hst].
    destruct (transport_step _ _) as [t|] eqn:Ht; cbn [mbind option_bind]; [|done]. intros [= <-].
    apply (Hmove (TConnect (let? _ := r in Ok tt))); [|done|exact Ht]. apply add_contacts_inv; [done..|].
    destruct r; [|constructor..]. constructor; [by apply Hst|constructor].
  - destruct tev; try done; (destruct (transport_step _ _) as [t|] eqn:Ht; cbn [mbind option_bind]; [|done]); intros [= <-];
      (eapply Hmove; [done| |eassumption]; done).
  - destruct (dq_queries s !! n) as [q|] eqn:Hq; cbn [mbind option_bind]; [|done]. destruct (uq_phase q) eqn:Hp; try done.
    intros [= <-]. apply query_done_inv; [done..|unfold busy; by rewrite Hp| |].
    + destruct (waiting _ !! n) eqn:Hw; [|done]. destruct (qi_waiting s Hi n) as (q2 & Hq2 & H); [by eexists|]. congruence.
    + intros Hd. destruct (qi_door s Hi n Hd) as (_ & q2 & Hq2 & H). congruence.
  - destruct (dq_queries s !! n) as [q|] eqn:Hq; cbn [mbind option_bind]; [|done]. destruct (uq_phase q) eqn:Hp; try done.
    case_bool_decide as Hd; [done|].
    destruct (list_find _ _) as [[i [m r]]|] eqn:Hf; cbn [mbind option_bind]; [|done]. intros [= <-].
    apply list_find_Some in Hf as (Hf & Hm & _). cbn in Hm. subst m. apply query_done_inv; [done..|unfold busy; by rewrite Hp| |done].
    apply (ti_answered _ (qi_transport s Hi)). apply list_elem_of_fmap. exists (n, r). split; [done|]. by eapply list_elem_of_lookup_2.
Qed.

Lemma query_run_inv evs : forall s s', queries_inv s -> query_run show_v6 opts transport evs s = Some s' -> queries_inv s'.
Proof.
  induction evs as [|ev evs IH]; intros s s' Hi; cbn [query_run]; [by intros [= <-]|].
  destruct (query_step _ _ _ ev s) as [s1|] eqn:Hs; cbn [mbind option_bind]; [|done]. apply IH. by eapply query_step_inv.
Qed.

Lemma query_run_app evs1 evs2 s :
  query_run show_v6 opts transport (evs1 ++ evs2) s = (s1 ← query_run show_v6 opts transport evs1 s; query_run show_v6 opts transport evs2 s1).
Proof.
  revert s. induction evs1 as [|ev evs1 IH]; intros s; [done|]. cbn [app query_run]. destruct (query_step _ _ _ ev s); [|done]. apply IH.
Qed.

(** *** Every query ends *)

(** What happens although the network is silent: permits, timeouts, messages
    that go through the channel, results taken, and the actor's attempt to
    connect that ends as [env] says. *)
Definition local (env : ConnectorEnv) (ev : QueryEvent) : Prop :=
  match ev with
  | QAcquire _ _ _ | QAnswered _ | QTransport (TTimeout _ | TEnter _ | TTake | TWrite false) => True
  | QReceived _ (Err _) => True
  | QConnect e => e = env
  | _ => False
  end.

(** An attempt to connect that does not panic. *)
Definition calm_dial (d : DialEnv) : Prop := de_establish d <> Panic /\ de_open d <> Panic.
Definition calm (env : ConnectorEnv) : Prop := calm_dial (ce_warp1 env) /\ calm_dial (ce_warp2 env).

Lemma connection_calm d w : calm_dial d -> fst (connection d w) <> Panic.
Proof.
  intros [He _]. unfold connection. destruct (cached w) as [c|]; [destruct (de_usable d); [done|]|];
    cbn; (destruct (de_cached_then d); [destruct (de_usable_then d); [done|]|]; by destruct (de_establish d)).
Qed.

Lemma dial_calm d1 d2 w : calm_dial d1 -> calm_dial d2 -> fst (dial d1 d2 w) <> Panic.
Proof.
  intros H1 H2. unfold dial. cbn [dial_loop].
  pose proof (connection_calm d1 w H1) as C1. destruct (connection d1 w) as [[c|e|] w1]; [|done..]. destruct H1 as [_ O1].
  destruct (de_open d1) as [x|e|]; [done| |done]. destruct (negb (negb (de_usable_after d1))); [done|].
  generalize (if negb (de_usable_after d1) then invalidate c (mkWarp (de_cached_after d1) (closed w1) (established w1))
    else mkWarp (de_cached_after d1) (closed w1) (established w1)) as w2. intros w2.
  pose proof (connection_calm d2 w2 H2) as C2. destruct (connection d2 w2) as [[c2|e2|] w3]; [|done..]. destruct H2 as [_ O2].
  destruct (de_open d2) as [x|e2|]; [done| |done]. by destruct (negb (negb (de_usable_after d2))).
Qed.

Lemma timed_calm o context : timed o context <> Panic.
Proof. by destruct o. Qed.

(** The transports of a configuration have a connector, and it returns. *)
Lemma connector_returns `{N : IpNetworks} server_name dc warp env w :
  build_transport server_name dc warp = Ok transport -> is_stream transport = true -> calm env ->
  exists r cs w', connector show_v6 transport env w = Some (r, cs, w') /\ r <> Panic.
Proof.
  intros Hb Hs [C1 C2]. pose proof (dial_calm _ _ w C1 C2) as Hd.
  assert (Hkind : match transport with TransportStream false None _ => False | _ => True end).
  { revert Hb. unfold build_transport. destruct (protocol (options dc)); cbv zeta.
    - destruct (match warp with Some _ => _ | None => _ end); by intros [= <-].
    - destruct (match warp with Some _ => _ | None => _ end); by intros (name & _ & [= <-])%res_bind_Ok. }
  pose proof (timed_calm (ce_tls env) "TLS handshake timeout") as Htls.
  destruct transport as [|[] [name|] upstream]; cbn [connector]; [done|..|done].
  - unfold warp_dot_connector. destruct (dial _ _ w) as [[tunnel|e|] w2]; [|do 3 eexists; by split|done].
    do 3 eexists. split; [reflexivity|]. by destruct (timed (ce_tls env) _).
  - unfold warp_connector. destruct (dial _ _ w) as [[tunnel|e|] w2]; do 3 eexists; by split.
  - unfold direct_dot_connector. pose proof (timed_calm (ce_tcp env) "connect timeout") as Htcp.
    destruct (timed (ce_tcp env) _) as [[]|e|]; cbn [res_bind]; [|do 3 eexists; by split|done].
    destruct (ce_nodelay env); cbn [done_or]; [do 3 eexists; by split|]. do 3 eexists. split; [reflexivity|]. by destruct (timed (ce_tls env) _).
Qed.

Definition ended (s : DnsQueries) (n : nat) : Prop := exists q r, dq_queries s !! n = Some q /\ uq_phase q = QsDone r.

(** The queries are the same, and those that ended stay as they are. *)
Definition keeps (s s' : DnsQueries) : Prop :=
  dom (dq_queries s') = dom (dq_queries s) /\
  forall m q r, dq_queries s !! m = Some q -> uq_phase q = QsDone r -> dq_queries s' !! m = Some q.

Lemma keeps_refl s : keeps s s.
Proof. by split. Qed.
Lemma keeps_trans s1 s2 s3 : keeps s1 s2 -> keeps s2 s3 -> keeps s1 s3.
Proof. intros [D1 K1] [D2 K2]. split; [by rewrite D2|]. intros m q r Hq Hp. eapply K2; [by eapply K1|done]. Qed.
Lemma keeps_ended s s' n : keeps s s' -> ended s n -> ended s' n.
Proof. intros [_ K] (q & r & Hq & Hp). exists q, r. split; [by eapply K|done]. Qed.

Lemma keeps_insert s s' n q q' :
  dq_queries s !! n = Some q -> (forall r, uq_phase q <> QsDone r) -> dq_queries s' = <[n := q']> (dq_queries s) -> keeps s s'.
Proof.
  intros Hq Hn Hs. split.
  - rewrite Hs, dom_insert_L. assert (n ∈ dom (dq_queries s)) by (apply elem_of_dom; by eexists). by apply subseteq_union_1_L, singleton_subseteq_l.
  - intros m qm r Hm Hp. rewrite Hs. rewrite lookup_insert_ne; [done|]. intros ->. rewrite Hq in Hm. injection Hm as ->. by apply (Hn r).
Qed.

Lemma keeps_same s s' : dq_queries s' = dq_queries s -> keeps s s'.
Proof. intros Hq. split; [by rewrite Hq|]. intros m q r Hm _. by rewrite Hq. Qed.

Section ends.
Context (env : ConnectorEnv).
Context (returns : forall w, is_stream transport = true -> exists r cs w', connector show_v6 transport env w = Some (r, cs, w') /\ r <> Panic).

(** Some events lead from [s] to a state that satisfies [Q]. *)
Definition leads (k : nat) (s : DnsQueries) (Q : DnsQueries -> Prop) : Prop :=
  exists evs s', query_run show_v6 opts transport evs s = Some s' /\ Forall (local env) evs /\ (length evs <= k)%nat /\
    queries_inv s' /\ keeps s s' /\ Q s'.

Lemma leads_here k s (Q : DnsQueries -> Prop) : queries_inv s -> Q s -> leads k s Q.
Proof. intros Hi HQ. exists [], s. split; [done|]. split; [done|]. split; [cbn; lia|]. split; [done|]. split; [apply keeps_refl|done]. Qed.

Lemma leads_mono k1 k2 s (Q R : DnsQueries -> Prop) : (k1 <= k2)%nat -> (forall s', Q s' -> R s') -> leads k1 s Q -> leads k2 s R.
Proof.
  intros Hk HR (evs & s' & H1 & H2 & H3 & H4 & H5 & H6). exists evs, s'. repeat (split; [done|]). split; [lia|]. repeat (split; [done|]). by apply HR.
Qed.

Lemma leads_then k1 k2 s (Q R : DnsQueries -> Prop) :
  leads k1 s Q -> (forall s', queries_inv s' -> keeps s s' -> Q s' -> leads k2 s' R) -> leads (k1 + k2) s R.
Proof.
  intros (evs1 & s1 & H1 & L1 & N1 & I1 & K1 & HQ) Hnext. destruct (Hnext s1 I1 K1 HQ) as (evs2 & s2 & H2 & L2 & N2 & I2 & K2 & HR).
  exists (evs1 ++ evs2), s2. rewrite query_run_app, H1, length_app. split; [done|]. split; [by apply Forall_app|]. split; [lia|].
  split; [done|]. split; [by eapply keeps_trans|done].
Qed.

Lemma leads_step ev s s' (Q : DnsQueries -> Prop) :
  queries_inv s -> local env ev -> query_step show_v6 opts transport ev s = Some s' -> keeps s s' -> Q s' -> leads 1 s Q.
Proof.
  intros Hi Hl Hs Hk HQ. exists [ev], s'. cbn [query_run]. rewrite Hs. split; [done|]. split; [by constructor|]. split; [cbn; lia|].
  split; [by eapply query_step_inv|done].
Qed.

(** No sender waits for room. *)
Definition quiet (s : DnsQueries) : Prop := at_door (dq_transport s) = [].

(** Only the transport has changed. *)
Definition same (s s' : DnsQueries) : Prop := dq_queries s' = dq_queries s /\ dq_permits s' = dq_permits s.

Lemma same_refl s : same s s.
Proof. by split. Qed.
Lemma same_trans s1 s2 s3 : same s1 s2 -> same s2 s3 -> same s1 s3.
Proof. intros [H1 H2] [H3 H4]. split; congruence. Qed.
Lemma same_keeps s s' : same s s' -> keeps s s'.
Proof. intros [H _]. by apply keeps_same. Qed.

(** The transport moves by itself. *)
Lemma leads_transport tev s t (Q : DnsQueries -> Prop) :
  queries_inv s -> local env (QTransport tev) -> transport_step tev (dq_transport s) = Some t -> Q (set_transport s t) -> leads 1 s Q.
Proof.
  intros Hi Hl Hs HQ. apply (leads_step (QTransport tev) s (set_transport s t)); [done|done| |by apply keeps_same|done].
  destruct tev; try done; cbn [query_step]; by rewrite Hs.
Qed.

(** The actor becomes free: it writes, or gives the connection up. *)
Lemma actor_writes s x c :
  queries_inv s -> serving (dq_transport s) = Some x -> conn (dq_transport s) = Some c ->
  leads 1 s (fun s' => same s s' /\ serving (dq_transport s') = None /\ entering (dq_transport s') = entering (dq_transport s) /\
    queue (dq_transport s') = queue (dq_transport s)).
Proof.
  intros Hi Hx Hc. destruct x as [data id], c as [out arrived]. eapply (leads_transport (TWrite false)); [done|done| |].
  - cbn [transport_step]. by rewrite Hx, Hc.
  - split; [by split|]. cbn. destruct (drain_channel "write failed, connection reset" (served (dq_transport s))) as (-> & -> & ->). done.
Qed.

Lemma actor_frees s :
  queries_inv s -> is_stream transport = true ->
  leads 2 s (fun s' => same s s' /\ serving (dq_transport s') = None /\ entering (dq_transport s') = entering (dq_transport s) /\
    queue (dq_transport s') = queue (dq_transport s)).
Proof.
  intros Hi Hst. destruct (serving (dq_transport s)) as [[data id]|] eqn:Hx; [|by apply leads_here; [|split; [apply same_refl|]]].
  destruct (conn (dq_transport s)) as [c|] eqn:Hc; [eapply (leads_mono 1); [lia|intros s' H; exact H|by eapply actor_writes]|].
  destruct (returns (dq_warp s) Hst) as (r & cs & w & Hconn & Hr).
  assert (Hstep : forall t, transport_step (TConnect (let? _ := r in Ok tt)) (dq_transport s) = Some t ->
    query_step show_v6 opts transport (QConnect env) s =
    Some (set_transport (add_contacts s cs w (match r with Ok stream => [stream] | _ => [] end)) t)).
  { intros t Ht. cbn [query_step]. rewrite Hconn. cbn [mbind option_bind]. by rewrite Ht. }
  destruct r as [stream|e|]; [| |by destruct Hr]; cbn [transport_step res_bind] in Hstep; rewrite Hx, Hc in Hstep.
  - apply (leads_then 1 1 s (fun s' => same s s' /\ serving (dq_transport s') = Some (data, id) /\ conn (dq_transport s') = Some ([], []) /\
      entering (dq_transport s') = entering (dq_transport s) /\ queue (dq_transport s') = queue (dq_transport s))).
    + eapply (leads_step (QConnect env)); [done|done|by apply Hstep|by apply keeps_same|]. by split_and!.
    + intros s' Hi' _ (Hsame & Hx' & Hc' & He & Hq). eapply (leads_mono 1); [lia| |by eapply actor_writes].
      cbn. intros s2 (Hs2 & H1 & H2 & H3). split; [by eapply same_trans|]. by rewrite H2, H3.
  - eapply (leads_mono 1); [lia|intros s' H; exact H|]. eapply (leads_step (QConnect env)); [done|done|by apply Hstep|by apply keeps_same|].
    split; [by split|]. cbn. by destruct (answer_channel id (Err (String.append "connect failed: " e)) (served (dq_transport s))) as (-> & -> & ->).
Qed.

(** The first sender at the door gets in, at the latest when the actor has
    received a message. *)
Lemma enters s n x rest :
  queries_inv s -> entering (dq_transport s) = (n, x) :: rest -> (length (queue (dq_transport s)) < TRANSPORT_CHANNEL)%nat ->
  leads 1 s (fun s' => same s s' /\ entering (dq_transport s') = rest).
Proof.
  intros Hi He Hq. eapply (leads_transport (TEnter n)); [done|done| |].
  - cbn [transport_step]. rewrite He. cbn [list_find fst]. rewrite decide_True by done. cbn [mbind option_bind].
    rewrite decide_True by lia. reflexivity.
  - by split.
Qed.

Lemma let_in s n x rest :
  queries_inv s -> entering (dq_transport s) = (n, x) :: rest ->
  leads 4 s (fun s' => same s s' /\ entering (dq_transport s') = rest).
Proof.
  intros Hi He. assert (Hst : is_stream transport = true) by (apply (qi_door s Hi n); unfold at_door; rewrite He; by left).
  pose proof (ch_room _ (qi_channel s Hi)) as Hroom.
  destruct (decide (length (queue (dq_transport s)) < TRANSPORT_CHANNEL)%nat) as [Hq|Hq].
  { eapply (leads_mono 1); [lia|intros s' H; exact H|by eapply enters]. }
  eapply (leads_then 2 2); [by apply actor_frees|]. cbn. intros s1 Hi1 _ (Hs1 & Hx1 & He1 & Hq1).
  destruct (queue (dq_transport s1)) as [|message q] eqn:Hq1'; [rewrite <- Hq1 in Hq; cbn in Hq; unfold TRANSPORT_CHANNEL in Hq; lia|].
  assert (Hlen : (length q < TRANSPORT_CHANNEL)%nat) by (rewrite <- Hq1 in Hroom; cbn in Hroom; lia).
  apply (leads_then 1 1 s1 (fun s' => same s1 s' /\ entering (dq_transport s') = (n, x) :: rest /\ queue (dq_transport s') = q)).
  - eapply (leads_transport TTake); [done|done| |].
    + cbn [transport_step]. by rewrite Hx1, Hq1'.
    + split; [by split|]. by rewrite <- He, <- He1.
  - intros s2 Hi2 _ (Hs2 & He2 & Hq2). eapply (leads_mono 1); [lia| |eapply enters; [done|exact He2|by rewrite Hq2]].
    cbn. intros s3 (Hs3 & He3). split; [|done]. by do 2 (eapply same_trans; [eassumption|]).
Qed.

Lemma door_empties k : forall s, queries_inv s -> length (at_door (dq_transport s)) = k -> leads (4 * k) s (fun s' => same s s' /\ quiet s').
Proof.
  unfold quiet, at_door. induction k as [|k IH]; intros s Hi Hk.
  - apply leads_here; [done|]. split; [apply same_refl|]. by apply length_zero_iff_nil.
  - destruct (entering (dq_transport s)) as [|[n x] rest] eqn:He; [done|]. replace (4 * S k)%nat with (4 + 4 * k)%nat by lia.
    eapply leads_then; [by eapply let_in|]. cbn. intros s1 Hi1 _ [Hs1 He1].
    eapply (leads_mono (4 * k)); [lia| |apply (IH s1); [done|]]; [|by rewrite He1; injection Hk].
    cbn. intros s2 [Hs2 H2]. split; [by eapply same_trans|done].
Qed.

(** A query that was answered takes its answer. *)
Lemma take_answer s n q :
  queries_inv s -> quiet s -> dq_queries s !! n = Some q -> uq_phase q = QsStream -> n ∈ map fst (answers (dq_transport s)) ->
  leads 1 s (fun s' => ended s' n /\ dq_permits s' = dq_permits s + 1 /\ quiet s').
Proof.
  intros Hi Hqu Hq Hp Hin. apply list_elem_of_fmap in Hin as ([m r] & -> & Hin). cbn [fst] in *.
  destruct (list_find_elem_of (fun a : nat * Res string (bytes * Z) => fst a = m) (answers (dq_transport s)) (m, r) Hin eq_refl) as [[i [m' r']] Hf].
  eapply (leads_step (QAnswered m)); [done|done| | |].
  - cbn [query_step]. rewrite Hq. cbn [mbind option_bind]. rewrite Hp, bool_decide_eq_false_2; [by rewrite Hf|].
    unfold quiet, at_door in Hqu. rewrite Hqu. apply not_elem_of_nil.
  - eapply (keeps_insert _ _ m q); [done|by rewrite Hp|reflexivity].
  - split; [|done]. eexists _, _. cbn. rewrite lookup_insert_eq. by split.
Qed.

(** A query in flight ends when the network stays silent. *)
Lemma busy_ends s n q :
  queries_inv s -> quiet s -> dq_queries s !! n = Some q -> busy q = true ->
  leads 2 s (fun s' => ended s' n /\ dq_permits s' = dq_permits s + 1 /\ quiet s').
Proof.
  intros Hi Hqu Hq Hb. unfold busy in Hb. destruct (uq_phase q) as [| |id data|] eqn:Hp; try done.
  - destruct (qi_stream s Hi n q Hq Hp) as [[id Hw]|Ha].
    + set (t := give id n (Err "DNS query timeout"%string) (dq_transport s)).
      apply (leads_then 1 1 s (fun s' => same s s' /\ dq_transport s' = t)).
      * apply (leads_transport (TTimeout n) s t); [done|done| |by split].
        cbn [transport_step]. rewrite Hw, bool_decide_eq_false_2; [done|].
        unfold quiet, at_door in Hqu. rewrite Hqu. apply not_elem_of_nil.
      * intros s' Hi' _ ([Hq' Hp'] & Ht). rewrite <- Hp'. apply (take_answer s' n q); [done|unfold quiet; by rewrite Ht|by rewrite Hq'|done|].
        rewrite Ht. cbn. rewrite map_app, elem_of_app. right. cbn. by apply list_elem_of_singleton.
    + eapply (leads_mono 1); [lia| |by apply (take_answer s n q)]. done.
  - eapply (leads_mono 1); [lia|by intros s' H; exact H|].
    apply (leads_step (QReceived n (Err "UDP upstream timeout"%string)) s
      (query_done opts s n q (fst (udp_send id data (Err "UDP upstream timeout"%string))))); try done.
    + cbn [query_step]. rewrite Hq. cbn [mbind option_bind]. by rewrite Hp.
    + eapply (keeps_insert _ _ n q); [done|by rewrite Hp|reflexivity].
    + split; [|done]. eexists _, _. cbn. rewrite lookup_insert_eq. by split.
Qed.

(** Some identifier is free while there are fewer queries than identifiers. *)
Lemma free_id s :
  queries_inv s -> (size (in_flight s) < Z.to_nat 65536)%nat -> exists c, 0 <= c < 65536 /\ pending (dq_transport s) !! c = None.
Proof.
  intros Hi Hsize. set (used := map snd (map_to_list (waiting (dq_transport s)))).
  assert (Hused : (length used <= size (in_flight s))%nat).
  { unfold used. rewrite length_map, length_map_to_list, <- !size_dom. apply subseteq_size. intros n Hn.
    apply elem_of_dom in Hn. apply (qi_waiting s Hi) in Hn as (q & Hq & Hp). apply elem_of_dom. exists q. unfold in_flight.
    apply map_lookup_filter_Some. split; [done|]. unfold busy. cbn. by rewrite Hp. }
  destruct (decide (Forall (fun c => c ∈ used) (seqZ 0 65536))) as [Hall|Hnot].
  - exfalso. rewrite Forall_forall in Hall. pose proof (submseteq_length _ _ (NoDup_submseteq _ _ (NoDup_seqZ 0 65536) Hall)) as Hl.
    rewrite length_seqZ in Hl. lia.
  - apply not_Forall_Exists in Hnot; [|apply _]. apply Exists_exists in Hnot as (c & Hc & Hn). apply elem_of_seqZ in Hc. exists c. split; [lia|].
    destruct (pending (dq_transport s) !! c) as [n|] eqn:Hp; [|done]. destruct Hn. apply (ti_inverse _ (qi_transport s Hi)) in Hp.
    apply list_elem_of_fmap. exists (n, c). split; [done|]. by apply elem_of_map_to_list.
Qed.

Lemma permits_bound s : queries_inv s -> (Z.of_nat (size (in_flight s)) <= max_concurrent_queries opts).
Proof. intros Hi. pose proof (qi_permits s Hi). lia. Qed.

(** A query that waits gets a free permit and is sent, or fails at once. *)
Lemma sends_now s n q :
  queries_inv s -> max_concurrent_queries opts < 65536 -> dq_queries s !! n = Some q -> uq_phase q = QsWaiting -> 0 < dq_permits s ->
  leads 1 s (fun s' => (exists q', dq_queries s' !! n = Some q' /\ uq_phase q' <> QsWaiting) /\
    (length (at_door (dq_transport s')) <= length (at_door (dq_transport s)) + 1)%nat).
Proof.
  intros Hi Hmax Hq Hp Hpos. destruct (free_id s Hi) as (c & _ & Hc); [pose proof (permits_bound s Hi); lia|].
  assert (Hsend : exists s' p, query_send opts transport s n q c [c] = Some s' /\
    dq_queries s' = <[n := set_phase q p]> (dq_queries s) /\ p <> QsWaiting /\
    (length (at_door (dq_transport s')) <= length (at_door (dq_transport s)) + 1)%nat).
  { unfold query_send. destruct (build_query _ _ _ _) as [query|e|]; [|do 2 eexists; split_and!; [reflexivity|reflexivity|done|cbn; lia]..].
    destruct transport as [upstream|via tls upstream].
    - destruct (udp_send c query _) as [[r|e|] sent]; do 2 eexists; (split_and!; [reflexivity|reflexivity|done|cbn; lia]).
    - assert (Hw : waiting (dq_transport s) !! n = None /\ ~ n ∈ map fst (answers (dq_transport s))).
      { pose proof (waiting_unknown s n q Hi Hq Hp) as Hu. split; [|intros H; apply Hu; by right].
        destruct (waiting (dq_transport s) !! n) eqn:Hw; [|done]. destruct Hu. left. by eexists. }
      destruct Hw as [Hw Hn]. cbn [transport_step set_permits dq_transport]. rewrite Hw, bool_decide_eq_false_2 by done.
      unfold assign_id_and_register. cbn [pick_id]. rewrite Hc. cbn [mbind option_bind]. do 2 eexists. split; [reflexivity|].
      split; [done|]. split; [done|]. unfold at_door. cbn. rewrite map_app, length_app. cbn. lia. }
  destruct Hsend as (s' & p & Hs & Hqs & Hpn & Hd). apply (leads_step (QAcquire n c [c]) s s'); [done|done| | |].
  - cbn [query_step]. rewrite Hq. cbn [mbind option_bind]. rewrite Hp. destruct (Z.ltb_spec 0 (dq_permits s)); [done|lia].
  - eapply (keeps_insert _ _ n q); [done|by rewrite Hp|done].
  - split; [|done]. exists (set_phase q p). rewrite Hqs, lookup_insert_eq. by split.
Qed.

Lemma acquires s n q :
  queries_inv s -> quiet s -> max_concurrent_queries opts < 65536 -> dq_queries s !! n = Some q -> uq_phase q = QsWaiting -> 0 < dq_permits s ->
  leads 5 s (fun s' => (exists q', dq_queries s' !! n = Some q' /\ uq_phase q' <> QsWaiting) /\ quiet s').
Proof.
  intros Hi Hqu Hmax Hq Hp Hpos. eapply (leads_then 1 4); [by eapply sends_now|]. cbn. intros s1 Hi1 _ ((q1 & Hq1 & Hp1) & Hd).
  rewrite Hqu in Hd. cbn in Hd. eapply (leads_mono (4 * length (at_door (dq_transport s1)))); [lia| |by apply door_empties].
  cbn. intros s2 [[Hs2 _] H2]. split; [|done]. exists q1. by rewrite Hs2.
Qed.

Lemma phase_cases p : p = QsWaiting \/ p <> QsWaiting.
Proof. destruct p; [by left|by right..]. Qed.

(** A query that holds a permit, or has ended. *)
Lemma started_ends k s n q :
  (2 <= k)%nat -> queries_inv s -> quiet s -> dq_queries s !! n = Some q -> uq_phase q <> QsWaiting ->
  leads k s (fun s' => ended s' n /\ quiet s').
Proof.
  intros Hk Hi Hqu Hq Hw. destruct (busy q) eqn:Hb.
  - eapply (leads_mono 2); [done| |by apply (busy_ends s n q)]. by intros s' (? & _ & ?).
  - apply leads_here; [done|]. split; [|done]. unfold busy in Hb. destruct (uq_phase q) eqn:Hp; try done. by exists q, r.
Qed.

Lemma waiting_ends s n q :
  queries_inv s -> quiet s -> max_concurrent_queries opts < 65536 -> dq_queries s !! n = Some q -> uq_phase q = QsWaiting -> 0 < dq_permits s ->
  leads 7 s (fun s' => ended s' n /\ quiet s').
Proof.
  intros Hi Hqu Hmax Hq Hp Hpos. eapply (leads_then 5 2); [by eapply acquires; [..|exact Hp|]|].
  cbn. intros s' Hi' _ ((q' & Hq' & Hp') & Hqu'). by eapply started_ends.
Qed.

Lemma ends_one s n q :
  queries_inv s -> quiet s -> 1 <= max_concurrent_queries opts < 65536 -> dq_queries s !! n = Some q ->
  leads 9 s (fun s' => ended s' n /\ quiet s').
Proof.
  intros Hi Hqu Hmax Hq. destruct (phase_cases (uq_phase q)) as [Hp|Hp]; [|by eapply started_ends; [lia|..]].
  destruct (decide (0 < dq_permits s)) as [Hpos|Hneg].
  { eapply (leads_mono 7); [lia| |apply (waiting_ends s n q); try done; lia]. done. }
  pose proof (qi_permits s Hi) as [? ?]. assert (Hne : size (in_flight s) <> 0%nat) by lia.
  apply map_size_ne_0_lookup in Hne as (m & qm & Hm). apply map_lookup_filter_Some in Hm as [Hm Hb]. cbn in Hb.
  eapply (leads_then 2 7); [by eapply (busy_ends s m qm)|]. intros s' Hi' [Hdom Hk] (_ & Hperm & Hqu').
  assert (exists q', dq_queries s' !! n = Some q') as [q' Hq'].
  { apply elem_of_dom. rewrite Hdom. apply elem_of_dom. by eexists. }
  destruct (phase_cases (uq_phase q')) as [Hp'|Hp']; [apply (waiting_ends s' n q'); try done; lia|by eapply started_ends; [lia|..]].
Qed.

Lemma ends_all l : forall s, queries_inv s -> quiet s -> 1 <= max_concurrent_queries opts < 65536 ->
  Forall (fun n => is_Some (dq_queries s !! n)) l -> leads (9 * length l) s (fun s' => Forall (ended s') l).
Proof.
  induction l as [|n l IH]; intros s Hi Hqu Hmax Hl; [by apply leads_here|]. apply Forall_cons_1 in Hl as [[q Hq] Hl].
  replace (9 * length (n :: l))%nat with (9 + 9 * length l)%nat by (cbn [length]; lia).
  eapply leads_then; [by eapply ends_one|]. intros s1 Hi1 Hk1 [Hn Hqu1].
  destruct (IH s1 Hi1 Hqu1 Hmax) as (evs & s2 & H1 & H2 & H3 & H4 & H5 & H6); cycle 1.
  - exists evs, s2. repeat (split; [done|]). constructor; [by eapply keeps_ended|done].
  - eapply Forall_impl; [exact Hl|]. intros m Hm%elem_of_dom. apply elem_of_dom. destruct Hk1 as [Hd _]. by rewrite Hd.
Qed.

(** Senders at the door are queries of the resolver. *)
Lemma door_size s : queries_inv s -> (length (at_door (dq_transport s)) <= size (dq_queries s))%nat.
Proof.
  intros Hi. rewrite <- (size_list_to_set (C := gset nat)) by apply (ch_once _ (qi_channel s Hi)). rewrite <- size_dom.
  apply subseteq_size. intros n Hn%elem_of_list_to_set. apply (qi_door s Hi) in Hn as (_ & q & Hq & _). apply elem_of_dom. by eexists.
Qed.

Lemma all_end s :
  queries_inv s -> 1 <= max_concurrent_queries opts < 65536 ->
  leads (13 * size (dq_queries s)) s (fun s' => Forall (ended s') (map fst (map_to_list (dq_queries s)))).
Proof.
  intros Hi Hmax. pose proof (door_size s Hi) as Hd.
  eapply (leads_mono (4 * length (at_door (dq_transport s)) + 9 * size (dq_queries s))); [lia|intros s' H; exact H|].
  eapply leads_then; [by apply door_empties|]. cbn. intros s1 Hi1 _ [[Hs1 _] Hqu1].
  eapply (leads_mono (9 * length (map fst (map_to_list (dq_queries s))))); [by rewrite length_map, length_map_to_list|intros s' H; exact H|].
  apply ends_all; try done. rewrite Hs1. apply Forall_forall. intros n Hn.
  apply list_elem_of_fmap in Hn as ([m q] & -> & Hm). apply elem_of_map_to_list in Hm. by eexists.
Qed.
End ends.

(** *** An attempt to connect that does not end *)

(** The actor connects, the channel is full, and [n] waits for room. *)
Record shut_out (s : DnsQueries) (n : nat) : Prop := {
  so_dials : is_Some (serving (dq_transport s)) /\ conn (dq_transport s) = None;
  so_full : length (queue (dq_transport s)) = TRANSPORT_CHANNEL;
  so_door : n ∈ at_door (dq_transport s)
}.

Definition connects (ev : QueryEvent) : bool := match ev with QConnect _ => true | _ => false end.

Lemma transport_shut_out ev s n t :
  shut_out s n -> match ev with TConnect _ => False | _ => True end -> transport_step ev (dq_transport s) = Some t ->
  forall s', dq_transport s' = t -> shut_out s' n.
Proof.
  intros [[[x Hx] Hc] Hf Hd] Hev Hs s' Hs'. destruct ev as [m draws data|m| |connected|written|b| | |m]; [|..|]; cbn [transport_step] in Hs.
  - destruct (waiting (dq_transport s) !! m); [done|]. case_bool_decide; [done|].
    apply bind_Some in Hs as ([[id data'] p] & _ & [= <-]). split; rewrite Hs'; cbn; [by split; [eexists|]|done|].
    unfold at_door in *. cbn. rewrite map_app. by apply elem_of_app; left.
  - apply bind_Some in Hs as ([i [m' message]] & _ & Hs). rewrite Hf in Hs. case_decide; [|done]. lia.
  - by rewrite Hx in Hs.
  - done.
  - destruct x as [data id]. by rewrite Hx, Hc in Hs.
  - by rewrite Hc in Hs.
  - by rewrite Hc in Hs.
  - by rewrite Hx in Hs.
  - destruct (waiting (dq_transport s) !! m); [|done]. case_bool_decide; [done|]. injection Hs as <-.
    split; rewrite Hs'; cbn; [by split; [eexists|]|done|done].
Qed.

Lemma step_shut_out ev s s' n :
  shut_out s n -> connects ev = false -> query_step show_v6 opts transport ev s = Some s' -> shut_out s' n.
Proof.
  intros Ho Hev Hs. assert (Hsame : dq_transport s' = dq_transport s -> shut_out s' n) by (intros Ht; destruct Ho; by split; rewrite Ht).
  destruct ev as [m domain rtype ecs|m id draws|e|tev|m received|m]; cbn [query_step] in Hs; [| |done|..].
  - destruct (dq_queries s !! m); [done|]. injection Hs as <-. by apply Hsame.
  - apply bind_Some in Hs as (q & _ & Hs). destruct (uq_phase q); try done. destruct (0 <? dq_permits s); [|done].
    unfold query_send in Hs. destruct (build_query _ _ _ _) as [query|err|]; [|by injection Hs as <-; apply Hsame..].
    destruct transport; [injection Hs as <-; apply Hsame; by destruct (udp_send _ _ _) as [[]]|].
    apply bind_Some in Hs as (t & Ht & [= <-]). by eapply (transport_shut_out _ s); [..|exact Ht|].
  - destruct tev; try done; apply bind_Some in Hs as (t & Ht & [= <-]); by eapply (transport_shut_out _ s); [..|exact Ht|].
  - apply bind_Some in Hs as (q & _ & Hs). destruct (uq_phase q); try done. injection Hs as <-. by apply Hsame.
  - apply bind_Some in Hs as (q & _ & Hs). destruct (uq_phase q); try done. case_bool_decide; [done|].
    apply bind_Some in Hs as ([i [m' r]] & _ & [= <-]). by apply Hsame.
Qed.

(** It does so as long as the attempt lasts. *)
Lemma run_shut_out evs : forall s s' n,
  queries_inv s -> shut_out s n -> forallb (fun ev => negb (connects ev)) evs = true -> query_run show_v6 opts transport evs s = Some s' ->
  exists q, dq_queries s' !! n = Some q /\ uq_phase q = QsStream.
Proof.
  induction evs as [|ev evs IH]; intros s s' n Hi Ho Hev; cbn [query_run].
  - intros [= <-]. by apply (qi_door s Hi), Ho.
  - cbn [forallb] in Hev. apply andb_prop in Hev as [Hev Hevs]. apply negb_true_iff in Hev.
    destruct (query_step _ _ _ ev s) as [s1|] eqn:Hs; cbn [mbind option_bind]; [|done]. apply IH; [by eapply query_step_inv|by eapply step_shut_out|done].
Qed.
End inv.

(** The resolver of a server uses the transport of its configuration. *)
Lemma server_transport `{P : Aead} `{X : PqCrypto} `{B : Base64} `{N : IpNetworks} warp_init server_name show hkdf config st dc t :
  server_build_state warp_init server_name show hkdf config = Ok st -> ss_dns_client st = Some (dc, t) ->
  build_transport server_name dc (ss_warp st) = Ok t.
Proof.
  intros ([] & _ & Hs)%res_bind_Ok. apply res_bind_Ok in Hs as (warp & _ & Hs). cbv zeta in Hs.
  apply res_bind_Ok in Hs as ([dns sn] & Hd & Hs). apply res_bind_Ok in Hs as (sk & _ & Hs). apply res_bind_Ok in Hs as (tk & _ & [= <-]).
  cbn [ss_warp ss_dns_client]. intros ->. match type of Hd with match ?c with _ => _ end = _ => destruct c as [dc0|] end; [|done].
  apply res_bind_Ok in Hd as (dc' & _ & Hd). by apply res_bind_Ok in Hd as (t' & Ht & [= -> -> _]).
Qed.

(** ** Properties *)

(** C24: whom the resolver of a server talks to. For any queries, in any order,
    whatever the network, the timeouts and the WARP connection do, the resolver
    contacts only the configured upstream: over WARP alone, if the server has
    WARP and its rules do not exclude that address, and otherwise by datagrams or
    by TLS over TCP, as the protocol says; a TLS peer has to prove the configured
    name. No more queries are on their way than configured, each permit is
    with one of them or free, and addresses are taken only from a response
    that passed the checks for its own query. *)
Theorem dns_upstream_only `{P : Aead} `{X : PqCrypto} `{B : Base64} `{N : IpNetworks} `{W : DnsWire}
    warp_init server_name show hkdf config st dc t show_v6 evs w s :
  server_build_state warp_init server_name show hkdf config = Ok st -> ss_dns_client st = Some (dc, t) ->
  0 <= max_concurrent_queries (options dc) ->
  query_run show_v6 (options dc) t evs (queries_new (options dc) w) = Some s ->
  let via := match ss_warp st with Some b => negb (bypass_contains b (sa_ip (dns_upstream dc))) | None => false end in
  (forall c, c ∈ dq_contacts s ->
     match c with
     | ContactUdp peer => via = false /\ protocol (options dc) = Udp /\ peer = dns_upstream dc
     | ContactTcp peer => via = false /\ protocol (options dc) = Dot /\ peer = dns_upstream dc
     | ContactWarp auth => via = true /\ auth = authority show_v6 (sa_ip (dns_upstream dc)) (sa_port (dns_upstream dc))
     | TlsName name => protocol (options dc) = Dot /\ exists domain, tls_domain dc = Some domain /\ server_name domain = Some name
     end) /\
  (forall stream, stream ∈ dq_streams s ->
     match stream with
     | OverTcp proved => via = false /\ is_Some proved
     | OverWarp _ proved => via = true /\ (is_Some proved <-> protocol (options dc) = Dot)
     end) /\
  0 <= dq_permits s /\ dq_permits s + Z.of_nat (size (in_flight s)) = max_concurrent_queries (options dc) /\
  (forall n q a, dq_queries s !! n = Some q -> uq_phase q = QsDone (Ok a) ->
     exists resp id, parse_response (options dc) resp id (uq_rtype q) (uq_domain q) = Ok a).
Proof.
  intros Hst Hdns Hmax Hrun. cbv zeta. pose proof (server_transport _ _ _ _ _ _ _ _ Hst Hdns) as Ht.
  destruct (query_run_inv show_v6 (options dc) t evs _ s (queries_new_inv show_v6 (options dc) t w Hmax) Hrun) as [_ _ [Hp Hpe] _ _ _ _ Hd Hc Hs].
  unfold build_transport in Ht. rewrite Forall_forall in Hc. rewrite Forall_forall in Hs. set (via := match ss_warp st with Some _ => _ | None => _ end) in *.
  assert (Hkind : match t with
    | TransportUdp a => a = dns_upstream dc /\ protocol (options dc) = Udp /\ via = false
    | TransportStream v tls a => a = dns_upstream dc /\ v = via /\
        (protocol (options dc) = Udp /\ via = true /\ tls = None \/
         protocol (options dc) = Dot /\ exists domain name, tls_domain dc = Some domain /\ server_name domain = Some name /\ tls = Some name)
    end).
  { destruct (protocol (options dc)); cbv zeta in Ht.
    - destruct via; injection Ht as <-; [|done]. split; [done|]. split; [done|]. by left.
    - apply res_bind_Ok in Ht as (name & Hn & [= <-]). split; [done|]. split; [done|]. right. split; [done|]. unfold tls_server_name in Hn.
      destruct (tls_domain dc) as [domain|]; [|done]. cbn in Hn. exists domain, name. split; [done|]. by destruct (server_name domain); [injection Hn as ->|]. }
  split; [|split; [|by split_and!]].
  - intros c Hin. specialize (Hc c Hin). destruct t as [a|v tls a].
    + destruct Hkind as (-> & Hu & Hv). by destruct c.
    + destruct Hkind as (-> & -> & [(Hu & Hv & ->)|(Hu & domain & name & Hdom & Hsn & ->)]); destruct via, c; cbn in Hc; try done;
        (split; [done|]; injection Hc as <-; by exists domain).
  - intros stream Hin. specialize (Hs stream Hin). destruct t as [a|v tls a]; [done|].
    destruct Hkind as (-> & -> & [(Hu & Hv & ->)|(Hu & domain & name & Hdom & Hsn & ->)]); destruct via, stream; cbn in Hs; subst; try done.
    + split; [done|]. split; [by intros []|congruence].
Qed.


(** A limit of zero is accepted as well, and then no query is ever sent. *)
Lemma zero_queries_stall `{W : DnsWire} show_v6 opts t evs w s n q :
  max_concurrent_queries opts = 0 -> query_run show_v6 opts t evs (queries_new opts w) = Some s ->
  dq_queries s !! n = Some q -> uq_phase q = QsWaiting.
Proof.
  intros Hmax. assert (Hrun : forall evs s0, dq_permits s0 = 0 -> map_Forall (fun _ q => uq_phase q = QsWaiting) (dq_queries s0) ->
    query_run show_v6 opts t evs s0 = Some s -> map_Forall (fun _ q => uq_phase q = QsWaiting) (dq_queries s)).
  { clear evs. induction evs as [|ev evs IH]; intros s0 Hp Hq; cbn [query_run]; [by intros [= <-]|].
    destruct (query_step show_v6 opts t ev s0) as [s1|] eqn:Hs; cbn [mbind option_bind]; [|done].
    assert (Hsame : dq_permits s1 = 0 /\ map_Forall (fun _ q => uq_phase q = QsWaiting) (dq_queries s1)); [|destruct Hsame; by apply (IH s1)].
    destruct ev as [m domain rtype ecs|m id draws|env|tev|m received|m]; cbn [query_step] in Hs.
    - destruct (dq_queries s0 !! m) eqn:Hm; [done|]. injection Hs as <-. split; [done|]. cbn. by apply map_Forall_insert_2.
    - apply bind_Some in Hs as (qm & _ & Hs). destruct (uq_phase qm); try done. rewrite Hp in Hs. done.
    - apply bind_Some in Hs as ([[r cs] w1] & _ & Hs). apply bind_Some in Hs as (t1 & _ & [= <-]). by split.
    - destruct tev; try done; apply bind_Some in Hs as (t1 & _ & [= <-]); by split.
    - apply bind_Some in Hs as (qm & Hm & Hs). apply Hq in Hm. by rewrite Hm in Hs.
    - apply bind_Some in Hs as (qm & Hm & Hs). apply Hq in Hm. by rewrite Hm in Hs. }
  intros Hr Hn. eapply (Hrun evs); [| |exact Hr|exact Hn]; [done|]. apply map_Forall_empty.
Qed.

(** ** Witnesses *)

(** A server with WARP, whose resolver speaks TLS. *)
Definition dot_options : DnsOptions := mkDnsOptions Dot false 1024 None 30 3600 3600 300 250 2.
Definition dot_config : DnsConfig := mkDnsConfig (mkSocketAddr (V4 (8 * 2 ^ 24 + 8)) 853 0) (Some (str "dns.example")) dot_options.
Definition warp_section : WarpSection :=
  mkWarpSection true None None None None None None None None None None false true [] [].
Definition dot_server : ServerTopConfig :=
  mkServerTop (str "0.0.0.0:443") (str "/") (fst toy_gen_key) None (str "secret") None (Some dot_config) (Some warp_section) toy_config.
Definition dot_state := server_build_state (N := toy_networks) (fun _ => Ok toy_bypass) Some (fun _ => []) toy_hkdf dot_server.

Definition dot_env : ConnectorEnv := mkConnectorEnv (toy_dial (Ok 7%nat)) (toy_dial (Ok 7%nat)) TimedOk None TimedOk.
Definition warp_up : WarpState := mkWarp (Some O) [] [].

(** Three queries under a limit of two; the first is answered, the third then
    takes its permit. *)
Definition dot_events : list QueryEvent :=
  [QOpen 0 (str "example.com") RTYPE_A None; QOpen 1 (str "other.example") RTYPE_A None; QOpen 2 (str "third.example") RTYPE_A None;
   QAcquire 0 0 [7]; QTransport (TEnter 0); QAcquire 1 0 [7; 9]; QTransport (TEnter 1); QTransport TTake; QConnect dot_env;
   QTransport (TWrite true); QTransport TTake; QTransport (TWrite true); QTransport (TArrive (dns_frame toy_response));
   QTransport TRead; QAnswered 0; QAcquire 2 0 [11]; QTransport (TEnter 2)].
Definition dot_run : option DnsQueries :=
  query_run (fun _ => str "::") dot_options (TransportStream true (Some (str "dns.example")) (dns_upstream dot_config)) dot_events
    (queries_new dot_options warp_up).

Lemma dns_upstream_only_witness :
  exists s, dot_run = Some s /\ dq_contacts s = [ContactWarp (str "8.0.0.8:853"); TlsName (str "dns.example")] /\
    (forall peer, ~ ContactTcp peer ∈ dq_contacts s) /\ dq_permits s = 0 /\
    exists q, dq_queries s !! 0%nat = Some q /\ uq_phase q = QsDone (Ok ([V4 16909060], 30)).
Proof.
  assert (H : match dot_run with Some s => dq_contacts s = [ContactWarp (str "8.0.0.8:853"); TlsName (str "dns.example")] /\
    dq_permits s = 0 /\ option_map uq_phase (dq_queries s !! 0%nat) = Some (QsDone (Ok ([V4 16909060], 30))) | None => False end)
    by (vm_compute; split_and!; reflexivity).
  destruct dot_run as [s|] eqn:Hrun; [|destruct H]. destruct H as (Hc & Hp & Hq). exists s. split; [reflexivity|]. split; [exact Hc|].
  assert (Hok : match dot_state with Ok st => ss_dns_client st = Some (dot_config, TransportStream true (Some (str "dns.example")) (dns_upstream dot_config)) | _ => False end)
    by (vm_compute; reflexivity).
  assert (Hwarp : match dot_state with
    | Ok st => match ss_warp st with Some b => negb (bypass_contains b (sa_ip (dns_upstream dot_config))) | None => false end
    | _ => false end = true) by (vm_compute; reflexivity).
  destruct dot_state as [st| |] eqn:Hst; [|destruct Hok|destruct Hok].
  destruct (dns_upstream_only (N := toy_networks) (fun _ => Ok toy_bypass) Some (fun _ => []) toy_hkdf dot_server st dot_config
    (TransportStream true (Some (str "dns.example")) (dns_upstream dot_config)) (fun _ => str "::") dot_events warp_up s Hst Hok)
    as [Hall _].
  - vm_compute. congruence.
  - exact Hrun.
  - split; [|split; [exact Hp|]].
    + intros peer Hin. destruct (Hall _ Hin) as [Hvia _]. cbv zeta in Hvia. congruence.
    + destruct (dq_queries s !! 0%nat) as [q|]; [|discriminate]. exists q. split; [reflexivity|]. injection Hq as Hq. exact Hq.
Defined.

(** Thirty-four queries while the actor connects for the first, through WARP:
    the last waits for room. *)
Definition many_options : DnsOptions := mkDnsOptions Dot false 1024 None 30 3600 3600 300 250 64.
Definition many_config : DnsConfig := mkDnsConfig (mkSocketAddr (V4 (8 * 2 ^ 24 + 8)) 853 0) (Some (str "dns.example")) many_options.
Definition many_transport : Transport := TransportStream true (Some (str "dns.example")) (dns_upstream many_config).
Definition dialling_events : list QueryEvent :=
  [QOpen 0 (str "example.com") RTYPE_A None; QAcquire 0 0 [0]; QTransport (TEnter 0); QTransport TTake] ++
  concat (map (fun n => [QOpen n (str "example.com") RTYPE_A None; QAcquire n 0 [Z.of_nat n]; QTransport (TEnter n)]) (List.seq 1 32)) ++
  [QOpen 33 (str "example.com") RTYPE_A None; QAcquire 33 0 [33]].
Definition dialling_run : option DnsQueries :=
  query_run (fun _ => str "::") many_options many_transport dialling_events (queries_new many_options warp_up).

