(* ===== verification/ClientTunnel.v ===== *)
(** * A tunnel at the client

    What [try_pq_connect] of [src/client/handshake.rs] starts once the server
    has accepted the request for a tunnel: the two loops, each under its own
    key, and their race ([src/client/utils.rs]); with [full_handshake] and the
    address override of [src/client/state.rs]. *)

From S2P Require Import Prelude Cipher Frame Shaper Decoder Upstream Cookie Token Crypto Handlers Handshake UploadLoop Download Net Bypass Proxy Connection Session Exchange Pin Setup.

(** ** Name resolution *)

(** [ManualResolver::resolve]; [lookup_host] is the system's resolver. *)
Definition set_port (s : SocketAddr) (port : Z) : SocketAddr := mkSocketAddr (sa_ip s) port (sa_scope s).

Definition ManualResolver_resolve (lookup_host : bytes -> Res IoError (list SocketAddr)) (target_addr : bytes)
    : Res IoError (list SocketAddr) :=
  let lookup_str := target_addr ++ str ":0" in
  let? addrs := lookup_host lookup_str in
  Ok (map (fun s => set_port s 0) addrs).

(** ** The two loops *)

Section tunnel.
Context `{P : Aead} `{B64 : Base64} `{X : PqCrypto} `{B122 : Base122} `{S : Socket} `{F : FstSet} `{N : NetTable}.

Record TunnelTasks : Type := mkTunnelTasks {
  tt_upload_cipher : FrameCipher;
  tt_download_cipher : FrameCipher;
  tt_upload : UploadLoop;
  tt_phase : DlPhase;
  tt_download : DownloadLoop
}.

(** [rd] is the local socket's reading half, [write_half] its writing half,
    [response] the body of the server's answer. *)
Definition start_tunnel (state : SharedState) (ticket : PqSessionTicket) (stream_id remaining_payload : bytes) (frames_sent : Z)
    (rd : list ReadEvent) (now word : Z) (response : list DlEvent) (write_half : socket) : Res string TunnelTasks :=
  let '(upload_key, download_key, _) := derive_connection_keys (ticket_master ticket) stream_id in
  let? upload_cipher := cipher_of upload_key in
  let? download_cipher := cipher_of download_key in
  let? upload_actor := UploadLoopActor_new (st_upload_concurrency state) (st_max_in_flight_bytes state) (st_resolved_traffic state)
    remaining_payload rd frames_sent now word in
  let (phase, download_actor) := DownloadLoopActor_new response write_half (encoding_type (st_traffic_config state))
    (st_max_download_bytes state) in
  Ok (mkTunnelTasks upload_cipher download_cipher upload_actor phase download_actor).

(** How the upload task ends, [None] while it waits. *)
Definition upload_end (r : BatchStep) : option UploadEnd :=
  match r with
  | UNext UDone => Some (UploadDone (Ok tt))
  | UFailed m => Some (UploadDone (Err m))
  | UPanicked => Some UploadPanicked
  | _ => None
  end.

(** The end of [try_pq_connect], from how the loops end and which is first. *)
Definition tunnel_result (upload_first : bool) (upload : BatchStep) (download : option (Res string unit))
    : option (Res string unit) :=
  if upload_first
  then u ← upload_end upload; race_upload_download (UploadFirst u) download (Some "download failed"%string)
  else d ← download; race_upload_download (DownloadFirst d) None (Some "download failed"%string).

(** [full_handshake] up to its tunnel: the handshake and one request under the
    new session; [None] when it waits for an answer's body that stopped. *)
Definition full_handshake (traffic : TrafficConfig) (server_pk : bytes) (hello_draws : ClientDraws)
    (hello_answer : bytes -> bytes -> Answer) (target_host initial_payload : bytes) (draws : ConnectDraws)
    (connect_answer : bytes -> bytes -> Answer) : option ConnectResult :=
  r ← perform_pq_handshake traffic server_pk hello_draws hello_answer;
  match r with
  | Ok ticket => fst <$> try_pq_connect traffic ticket target_host initial_payload draws connect_answer true
  | Err e => Some (ConnectError e)
  | Panic => Some ConnectPanic
  end.
End tunnel.

(** ** Specification *)

(** The key of the way down. *)
Definition download_key_of `{P : Aead} `{X : PqCrypto} (ticket : PqSessionTicket) (stream_id : bytes) : bytes :=
  snd (fst (derive_connection_keys (ticket_master ticket) stream_id)).

Definition limits_ok `{X : PqCrypto} `{F : FstSet} `{N : NetTable} (state : SharedState) : Prop :=
  validate (st_traffic_config state) = Ok tt /\ config_unsigned (st_traffic_config state) /\
  1 <= st_upload_concurrency state /\ 1 <= st_max_in_flight_bytes state /\
  st_resolved_traffic state = Shaper.resolve (st_traffic_config state).

(** ** Lemmas *)

(** An accepted configuration is one with which uploading works. *)
Lemma client_limits `{X : PqCrypto} `{B : Base64} `{BS : Base64Std} `{F : FstSet} `{N : NetTable} parse_url cfg state :
  client_build_state parse_url cfg = Ok state -> (forall n, cl_upload_concurrency (ct_client cfg) = Some n -> 0 <= n) ->
  validate (st_traffic_config state) = Ok tt /\ 1 <= st_upload_concurrency state /\ 1 <= st_max_in_flight_bytes state /\
  st_resolved_traffic state = Shaper.resolve (st_traffic_config state).
Proof.
  unfold client_build_state. intros H Hu. apply res_bind_Ok in H as ([] & Hv & H).
  destruct (Z.ltb_spec (default MAX_IN_FLIGHT_BYTES (cl_max_in_flight_bytes (ct_client cfg))) MIN_IN_FLIGHT_BYTES) as [|Hmin]; [done|].
  destruct (Z.eqb_spec (default UPLOAD_CONCURRENCY (cl_upload_concurrency (ct_client cfg))) 0) as [|Hc]; [done|].
  apply res_bind_Ok in H as (bypass & _ & H). apply res_bind_Ok in H as (pk & _ & H). apply res_bind_Ok in H as (url & _ & [= <-]).
  cbn [st_traffic_config st_upload_concurrency st_max_in_flight_bytes st_resolved_traffic].
  split_and!; [by destruct (validate _) as [[]| |]| | |done].
  - destruct (cl_upload_concurrency (ct_client cfg)) as [n|]; cbn [default] in *; [|unfold UPLOAD_CONCURRENCY; lia].
    unfold id in *. specialize (Hu n eq_refl). lia.
  - unfold MIN_IN_FLIGHT_BYTES in Hmin. unfold UPLOAD_CONCURRENCY in *. lia.
Qed.

(** Limits that a semaphore can have. *)
Lemma upload_loop_made conc maxif config initial rd start now word :
  conc <= MAX_PERMITS -> maxif <= MAX_PERMITS ->
  UploadLoopActor_new conc maxif config initial rd start now word = Ok (new_upload_loop conc maxif config initial rd start now word).
Proof. intros Hc Hm. unfold UploadLoopActor_new, semaphore_new. by rewrite !(proj2 (Z.leb_le _ _)). Qed.

(** The result of a tunnel is good only if no direction that ended was bad. *)
Lemma tunnel_result_ok upload_first upload download :
  tunnel_result upload_first upload download = Some (Ok tt) ->
  download = Some (Ok tt) /\ (upload_first = true -> upload = UNext UDone).
Proof.
  destruct upload_first; cbn.
  - destruct upload as [[]|m| | | |]; cbn; done.
  - destruct download as [[[]|e|]|]; cbn; done.
Qed.

Section carries.
Context `{P : Aead} {L : AeadLaws P} `{B64 : Base64} {BL : Base64Laws B64} `{X : PqCrypto} {XL : PqCryptoLaws X}.
Context `{B122 : Base122} {B122L : Base122Laws B122} `{S : Socket} {SL : SocketLaws S} `{F : FstSet} `{N : NetTable}.

(** The request of a tunnel, and the upload loop it leaves its payload to. *)
Lemma upload_side jitter_table state ticket target payload draws rd now word envs drain :
  limits_ok state -> connect_draws_ok draws -> zlen target <= seal_limit -> zlen (payload ++ input rd) < u64_max ->
  Forall batch_env_ok envs ->
  exists ac cookie early remaining datas,
    AesFrameCipher_new (upload_key_of ticket (cn_stream_id draws)) = Ok ac /\
    connect_request (st_traffic_config state) ticket target payload draws = Ok (cookie, early, remaining, zlen datas) /\
    frames_from (C := aes_frame_cipher ac) (encoding_type (st_traffic_config state)) 0 datas early /\
    let '(r, this) := upload_loop_run (C := aes_frame_cipher ac) jitter_table envs drain (UBatching [])
      (new_upload_loop (st_upload_concurrency state) (st_max_in_flight_bytes state) (st_resolved_traffic state) remaining rd
         (zlen datas) now word) in
    r <> UPanicked /\ exists groups rest,
      bodies_from (C := aes_frame_cipher ac) (encoding_type (st_traffic_config state)) (zlen datas) groups (posted this) /\
      payload ++ input rd = concat datas ++ concat (concat groups) ++ rest /\ (r = UNext UDone -> rest = []).
Proof.
  intros (Hv & Hu & Hc & Hm & Hres) (Hlen & Hn1 & Hn2 & Hns & Hd) Ht Hmax Henv. unfold upload_key_of, connect_request.
  destruct (session_cookie_ok ticket target (cn_stream_id draws) (cn_nonce1 draws) (cn_nonce2 draws) Hn1 Hn2 Ht Hlen) as (et & es & Hck & _).
  pose proof (derive_connection_keys_len (ticket_master ticket) (cn_stream_id draws)) as Hk.
  destruct (derive_connection_keys (ticket_master ticket) (cn_stream_id draws)) as [[uk dk] tk]. destruct Hk as (Huk & _ & _). cbn [fst].
  destruct (AesFrameCipher_new_ok uk Huk) as [ac Hac].
  destruct (upload_loop_frames (C := aes_frame_cipher ac) jitter_table (st_traffic_config state) (cn_nonces draws) (cn_draw draws) payload
    MAX_RAW_PAYLOAD (st_upload_concurrency state) (st_max_in_flight_bytes state) rd now word envs drain Hv Hu Hns Hd
    ltac:(vm_compute; congruence) Hmax Hc Hm Henv) as (early & remaining & n & datas & He & Hf & -> & Hrun).
  exists ac. eexists _, early, remaining, datas. split; [done|].
  unfold cipher_of. rewrite Hac. cbn [res_bind]. rewrite Hck. cbn [res_bind]. rewrite He. split; [reflexivity|]. split; [done|].
  rewrite Hres. destruct (upload_loop_run _ _ _ _ _) as [r this]. destruct Hrun as (Hp & groups & rest & _ & H).
  split; [done|]. by exists groups, rest.
Qed.
End carries.

(** ** Properties *)

(** C6: what a tunnel of the client carries. Under an accepted configuration,
    with limits that a semaphore can have, the request for the tunnel is made and its two loops start, each under its
    own key of the stream. The early data and the posted bodies then carry,
    in frames numbered from zero, a prefix of the local connection's payload and
    input, and all of it when the tunnel ends well with its upload finished
    first; the local connection is sent a prefix of what the bodies from the
    server carry. When nothing of the way down fails, all of it is sent, and the
    tunnel ends well unless an upload failed first. No loop panics. *)
Theorem client_tunnel `{P : Aead} (L : AeadLaws P) `{B64 : Base64} (BL : Base64Laws B64) `{BS : Base64Std} `{X : PqCrypto} (XL : PqCryptoLaws X)
    `{B122 : Base122} (B122L : Base122Laws B122) `{S : Socket} (SL : SocketLaws S) `{F : FstSet} `{N : NetTable}
    parse_url cfg state jitter_table ticket target payload draws rd now word envs drain dc resp resps renvs groups s :
  client_build_state parse_url cfg = Ok state -> (forall n, cl_upload_concurrency (ct_client cfg) = Some n -> 0 <= n) ->
  st_upload_concurrency state <= MAX_PERMITS -> st_max_in_flight_bytes state <= MAX_PERMITS ->
  config_unsigned (st_traffic_config state) -> connect_draws_ok draws -> zlen target <= seal_limit ->
  zlen (payload ++ input rd) < u64_max -> Forall batch_env_ok envs ->
  cipher_of (download_key_of ticket (cn_stream_id draws)) = Ok dc ->
  bodies_from (C := dc) (encoding_type (st_traffic_config state)) 0 groups (map dl_bytes (resp :: resps)) ->
  Forall (fun d => d <> []) (concat groups) -> zlen (concat groups) < u64_max ->
  cut_for (st_max_download_bytes state) (map dl_bytes (resp :: resps)) -> Forall2 rotation_may renvs resps ->
  exists cookie early remaining datas tasks,
    connect_request (st_traffic_config state) ticket target payload draws = Ok (cookie, early, remaining, zlen datas) /\
    start_tunnel state ticket (cn_stream_id draws) remaining (zlen datas) rd now word resp s = Ok tasks /\
    cipher_of (upload_key_of ticket (cn_stream_id draws)) = Ok (tt_upload_cipher tasks) /\
    frames_from (C := tt_upload_cipher tasks) (encoding_type (st_traffic_config state)) 0 datas early /\
    let '(u, up) := upload_loop_run (C := tt_upload_cipher tasks) jitter_table envs drain (UBatching []) (tt_upload tasks) in
    let '(d, down) := download_run (C := tt_download_cipher tasks) renvs (tt_phase tasks) (tt_download tasks) in
    u <> UPanicked /\ d <> Some Panic /\
    (exists ugroups rest,
       bodies_from (C := tt_upload_cipher tasks) (encoding_type (st_traffic_config state)) (zlen datas) ugroups (posted up) /\
       payload ++ input rd = concat datas ++ concat (concat ugroups) ++ rest /\
       (tunnel_result true u d = Some (Ok tt) -> rest = [])) /\
    (exists tail, sent s ++ concat (concat groups) = sent (write_half down) ++ tail) /\
    (progressing -> Forall no_read_error (resp :: resps) -> Forall2 rotation_gives renvs resps ->
       sent (write_half down) = sent s ++ concat (concat groups) /\
       tunnel_result false u d = Some (Ok tt) /\ (u = UNext UDone -> tunnel_result true u d = Some (Ok tt))).
Proof.
  intros Hst Hcn Hperm1 Hperm2 Hun Hdraws Ht Hmax Henv Hdc Hb Hne Hlen Hcut Hrot.
  destruct (client_limits parse_url cfg state Hst Hcn) as (Hv & Hc & Hm & Hres).
  destruct (upload_side jitter_table state ticket target payload draws rd now word envs drain) as
    (ac & cookie & early & remaining & datas & Hac & Hreq & Hf & Hup); try done.
  unfold start_tunnel, download_key_of, upload_key_of, cipher_of in *.
  destruct (derive_connection_keys (ticket_master ticket) (cn_stream_id draws)) as [[uk dk] tk]. cbn [fst snd] in *.
  rewrite Hac. cbn [res_bind]. rewrite Hdc. cbn [res_bind].
  destruct (AesFrameCipher_new dk) as [dac| |]; cbn [res_bind] in Hdc; [|done..]. injection Hdc as <-.
  pose proof (download_delivers (aes_frame_cipher_laws dac) B122L SL (encoding_type (st_traffic_config state)) (st_max_download_bytes state)
    s resp resps renvs groups Hb Hne Hlen Hcut Hrot) as Hdown.
  destruct (DownloadLoopActor_new resp s _ _) as [phase this]. eexists cookie, early, remaining, datas, _.
  split; [exact Hreq|]. split; [rewrite upload_loop_made by done; reflexivity|]. cbn [tt_upload_cipher tt_download_cipher tt_upload tt_phase tt_download].
  split; [done|]. split; [done|].
  destruct (upload_loop_run _ _ _ _ _) as [u up]. destruct (download_run _ _ _) as [d down].
  destruct Hup as (Hu & ug & rest & Hug & Hsplit & Hrest). destruct Hdown as (_ & Hp & Htail & Hall).
  split; [done|]. split; [done|]. split; [|split; [done|]].
  - exists ug, rest. split; [done|]. split; [done|]. intros Hr. apply Hrest. by apply (tunnel_result_ok true u d).
  - intros H1 H2 H3. destruct (Hall H1 H2 H3) as [-> ->]. split; [done|]. split; [done|]. by intros ->.
Qed.

(** ** Witness *)

(** A tunnel that carries what is given first and read, and one frame back in
    two pieces. *)
Lemma client_tunnel_witness :
  exists state dc w datas remaining tasks,
    toy_client_state = Ok state /\
    start_tunnel (S := eager_socket) state toy_ticket (cn_stream_id toy_connect_draws) remaining (zlen datas) toy_reader 0 7
      [DlChunk (ztake 9 w); DlFlushTimer; DlChunk (zdrop 9 w)] (str ">") = Ok tasks /\
    is_frame (C := dc) Json 0 (str "hello") w /\
    let '(u, up) := upload_loop_run (C := tt_upload_cipher tasks) (fun _ => 5) [toy_batch] [(O, JoinOk)] (UBatching []) (tt_upload tasks) in
    let '(d, down) := download_run (C := tt_download_cipher tasks) (S := eager_socket) [] (tt_phase tasks) (tt_download tasks) in
    (exists ugroups rest, str "helloabc" = concat datas ++ concat (concat ugroups) ++ rest) /\
    sent (write_half down) = str ">hello" /\ tunnel_result false u d = Some (Ok tt).
Proof.
  assert (H : is_ok toy_client_state = true) by (vm_compute; reflexivity).
  assert (Ht : match toy_client_state with Ok st => st_traffic_config st = toy_config /\ st_max_download_bytes st = None | _ => True end)
    by (vm_compute; split; reflexivity).
  assert (Hperm : match toy_client_state with Ok st => st_upload_concurrency st <= MAX_PERMITS /\ st_max_in_flight_bytes st <= MAX_PERMITS | _ => True end)
    by (vm_compute; split; discriminate).
  destruct toy_client_state as [state| |] eqn:Hst; [|discriminate|discriminate]. destruct Ht as [Ht Hd].
  assert (Hk : zlen (download_key_of (P := toy_aead) toy_ticket (cn_stream_id toy_connect_draws)) = 32) by (vm_compute; reflexivity).
  destruct (AesFrameCipher_new_ok (P := toy_aead) _ Hk) as [ac Hac].
  destruct (encode_frame_is_frame (C := aes_frame_cipher ac) (L := aes_frame_cipher_laws ac) toy_nonce toy_draw (str "hello") 0 0 (0, 0) Json
    eq_refl toy_draw_ok) as (w & _ & Hw); [cbn; lia|vm_compute; split; congruence|vm_compute; congruence|].
  destruct (client_tunnel (P := toy_aead) toy_aead_laws toy_base64_laws toy_crypto_laws toy_base122_laws (S := eager_socket) eager_socket_laws
    Some toy_client_config state (fun _ => 5) toy_ticket (str "example.org:443") (str "hello") toy_connect_draws toy_reader 0 7 [toy_batch]
    [(O, JoinOk)] (aes_frame_cipher ac) [DlChunk (ztake 9 w); DlFlushTimer; DlChunk (zdrop 9 w)] [] [] [[str "hello"]] (str ">"))
    as (cookie & early & remaining & datas & tasks & _ & Hstart & _ & _ & Hrun).
  - exact Hst.
  - intros n [= <-]. lia.
  - exact (proj1 Hperm).
  - exact (proj2 Hperm).
  - rewrite Ht. apply toy_config_ok.
  - apply toy_connect_draws_ok.
  - vm_compute. congruence.
  - reflexivity.
  - apply toy_batch_ok.
  - unfold cipher_of. rewrite Hac. reflexivity.
  - rewrite Ht. split; [|exact I]. exists w, []. cbn. rewrite !app_nil_r, ztake_zdrop. split; [reflexivity|]. split; [exact Hw|reflexivity].
  - repeat constructor. discriminate.
  - reflexivity.
  - rewrite Hd. cbn [map cut_for]. unfold should_rotate. apply andb_false_r.
  - constructor.
  - exists state, (aes_frame_cipher ac), w, datas, remaining, tasks. split; [reflexivity|]. split; [exact Hstart|]. split; [exact Hw|].
    destruct (upload_loop_run _ _ _ _ _) as [u up]. destruct (download_run _ _ _) as [d down].
    destruct Hrun as (_ & _ & (ug & rest & _ & Hsplit & _) & _ & Hall).
    destruct Hall as (Hsent & Hres & _); [apply eager_progressing|repeat constructor; discriminate|constructor|].
    split; [exists ug, rest; exact Hsplit|]. split; [exact Hsent|exact Hres].
Defined.
