(* ===== verification/Programs.v ===== *)
(** * The two programs

    How the programs start ([src/bin/client.rs], [src/bin/server.rs],
    [run_server] and [build_router] of [src/server/mod.rs], [spawn] and [serve]
    of [src/client/redirect.rs]), as the actions they take in order up to the
    first error, and the choices of the log set-up ([src/log/mod.rs]). Files,
    command lines, TOML, sockets and the two HTTP libraries are parameters. *)

From S2P Require Import Prelude Cipher Frame Shaper Text Token Crypto Net Bypass Connection Dns Warp Pin Session Exchange Setup ClientTunnel.

(** ** The log file *)

Definition slash : byte := Byte.x2f.
Definition dot : byte := Byte.x2e.

(** The end of a path, reversed, without separators and empty components. *)
Fixpoint trim_rev (r : bytes) : bytes :=
  match r with
  | [] => []
  | c :: r1 =>
      if decide (c = slash) then trim_rev r1
      else if decide (c = dot) then
        match r1 with
        | d :: r2 => if decide (d = slash) then trim_rev r1 else r
        | [] => r
        end
      else r
  end.

(** The last component, reversed, and what is before it. *)
Fixpoint take_component (r : bytes) : bytes * bytes :=
  match r with
  | c :: r1 => if decide (c = slash) then ([], r) else let (name, rest) := take_component r1 in (c :: name, rest)
  | [] => ([], [])
  end.

(** [Path::parent] and [Path::file_name] on Unix. *)
Definition path_parent (p : bytes) : option bytes :=
  match trim_rev (reverse p) with
  | [] => None
  | r =>
      let '(_, rest) := take_component r in
      Some (match rest, trim_rev rest with
            | [], _ => []
            | _, [] => [slash]
            | _, t => reverse t
            end)
  end.

Definition file_name (p : bytes) : option bytes :=
  match trim_rev (reverse p) with
  | [] => None
  | r => let name := reverse (fst (take_component r)) in
         if bool_decide (name = str "..") || bool_decide (name = str ".") then None else Some name
  end.

(** [Path::file_stem] and [Path::extension]: a name that starts with its only
    dot has no extension. *)
Definition split_name (name : bytes) : bytes * option bytes :=
  match rsplit_once dot name with
  | Some ([], _) | None => (name, None)
  | Some (stem, ext) => (stem, Some ext)
  end.
Definition file_stem (p : bytes) : option bytes := option_map (fun n => fst (split_name n)) (file_name p).
Definition extension (p : bytes) : option bytes := n ← file_name p; snd (split_name n).

Definition DEFAULT_LOG_LEVEL : bytes := str "info".
Definition DEFAULT_MAX_BACKUPS : Z := 7.
Definition DEFAULT_LOG_EXTENSION : bytes := str "log".
Definition NON_BLOCKING_BUFFER_LINES : Z := 1024.

Record LogConfig : Type := mkLog { lg_file_path : option bytes; lg_level : bytes; lg_max_backups : Z }.
Definition LogConfig_default : LogConfig := mkLog None DEFAULT_LOG_LEVEL DEFAULT_MAX_BACKUPS.

(** A daily file appender: directory, prefix, suffix, files kept, lines held. *)
Record FileWriter : Type := mkWriter {
  fw_directory : bytes;
  fw_prefix : bytes;
  fw_suffix : bytes;
  fw_max_files : Z;
  fw_buffered_lines : Z
}.

(** [creatable]: the appender can be made in that directory. *)
Definition build_file_writer (creatable : bytes -> bool) (path : bytes) (max_backups : Z) : Res string FileWriter :=
  let directory := match path_parent path with Some [] | None => str "." | Some d => d end in
  let file_stem := default (str "httproxy") (file_stem path) in
  let file_extension := default DEFAULT_LOG_EXTENSION (extension path) in
  if creatable directory then Ok (mkWriter directory file_stem file_extension max_backups NON_BLOCKING_BUFFER_LINES) else Panic.

(** [EnvFilter]: the directives of the environment, if they parse, otherwise
    the configured level, otherwise [info]. *)
Definition log_filter (parses : bytes -> bool) (env : option bytes) (level : bytes) : bytes :=
  match env with
  | Some e => if parses e then e else if parses level then level else str "info"
  | None => if parses level then level else str "info"
  end.

(** The filter, and where lines go: a file, or the standard output in colour. *)
Definition init_tracing (parses creatable : bytes -> bool) (env : option bytes) (cfg : LogConfig)
    : Res string (bytes * option FileWriter) :=
  let filter := log_filter parses env (lg_level cfg) in
  match lg_file_path cfg with
  | Some path => let? w := build_file_writer creatable path (lg_max_backups cfg) in Ok (filter, Some w)
  | None => Ok (filter, None)
  end.

(** ** Actions *)

Inductive Action : Type :=
| Trace (filter : bytes) (writer : option FileWriter)
| BindTcp (addr : SocketAddr)
| RemoveSocket (path : bytes)
| BindUnix (path : bytes)
| SocketMode (mode : Z)
| StartJanitors
| AcceptRedirects (rule : RedirectRule)
| AcceptProxy (host_addr : bytes)
| ServeHttp (path : bytes)
| PrintToken (token : bytes)
| PrintKeys (private_key public_key : bytes).

(** What was done, and how it ended so far. *)
Definition Run (A : Type) : Type := list Action * Res string A.
Definition run_ret {A} (a : A) : Run A := ([], Ok a).
Definition run_fail {A} (r : Res string A) : Run A := ([], r).
Definition run_do (a : Action) : Run unit := ([a], Ok tt).
Definition run_bind {A B} (m : Run A) (k : A -> Run B) : Run B :=
  match m with
  | (acts, Ok a) => let (more, r) := k a in (acts ++ more, r)
  | (acts, Err e) => (acts, Err e)
  | (acts, Panic) => (acts, Panic)
  end.
Notation "'do!' x <- m 'in' k" := (run_bind m (fun x => k)) (at level 10, x name, m at level 200, k at level 200, only parsing).

(** ** The client *)

(** The files, parsers and sockets: [bind] says whether an address can be
    bound, [http] whether the HTTP client can be built. *)
Record System : Type := mkSystem {
  sy_parses : bytes -> bool;
  sy_creatable : bytes -> bool;
  sy_env : option bytes;
  sy_bind : SocketAddr -> bool;
  sy_exists : bytes -> bool;
  sy_remove : bytes -> bool;
  sy_bind_unix : bytes -> bool;
  sy_chmod : bytes -> bool;
  sy_http : bool
}.

Definition bind_tcp (sys : System) (addr : SocketAddr) (e : string) : Run unit :=
  if sy_bind sys addr then run_do (BindTcp addr) else run_fail (Err e).

Definition start_tracing (sys : System) (log : option LogConfig) : Run unit :=
  match init_tracing (sy_parses sys) (sy_creatable sys) (sy_env sys) (default LogConfig_default log) with
  | Ok (filter, writer) => run_do (Trace filter writer)
  | Err e => run_fail (Err e)
  | Panic => run_fail Panic
  end.

(** [redirect::spawn] up to its loop, whose rounds are [accept_round]. *)
Definition redirect_spawn (sys : System) (rule : RedirectRule) : Run unit :=
  do! _ <- bind_tcp sys (rule_listen rule) "[[redirect]] bind failed" in
  run_do (AcceptRedirects rule).

Fixpoint spawn_all (sys : System) (rules : list RedirectRule) : Run unit :=
  match rules with
  | [] => run_ret tt
  | rule :: rules => do! _ <- redirect_spawn sys rule in spawn_all sys rules
  end.

Section client.
Context `{X : PqCrypto} `{B : Base64} `{BS : Base64Std} `{F : FstSet} `{N : NetTable}.

(** [redirect::serve]: the mode of the connection and its first payload. *)
Definition redirect_serve (state : SharedState) (target : bytes) : TunnelMode * bytes :=
  (tunnel_mode (st_bypass state) target, []).

(** [parse_url] gives the text of a URL, [url_host] its host; the host is
    what the requests' names resolve to. *)
Definition client_main (sys : System) (parse_url url_host : bytes -> option bytes)
    (config : Res string (ClientTopConfig * option LogConfig)) : Run (SharedState * Z) :=
  do! cfg <- run_fail config in
  let (config, log) := cfg in
  do! _ <- start_tracing sys log in
  do! state <- run_fail (client_build_state parse_url config) in
  do! addr <- run_fail (ok_or (socket_addr_from_str (cl_listen (ct_client config))) "invalid socket address syntax"%string) in
  do! _ <- bind_tcp sys addr "bind" in
  do! domain <- run_fail (ok_or (url_host (st_remote_str state)) "No domain in remote URL"%string) in
  let final_addr := default domain (cl_address (ct_client config)) in
  do! _ <- run_fail (if sy_http sys then Ok tt else Err "http client"%string) in
  do! rules <- run_fail (parse_all (ct_redirect config)) in
  do! _ <- spawn_all sys rules in
  do! _ <- run_do (AcceptProxy final_addr) in
  run_ret (state, st_max_connections state).
End client.

(** ** The server *)

Inductive Command : Type := GenToken (secret user : bytes) (exp : Z) | GenKey.

(** A path of a Unix socket, or an address. *)
Definition run_server (sys : System) (path listen : bytes) : Run unit :=
  if bool_decide (slash ∈ listen) || bool_decide (is_Some (strip_suffix (str ".sock") listen)) then
    do! _ <- (if sy_exists sys listen
              then if sy_remove sys listen then run_do (RemoveSocket listen) else run_fail (Err "remove_file"%string)
              else run_ret tt) in
    do! _ <- (if sy_bind_unix sys listen then run_do (BindUnix listen) else run_fail (Err "bind"%string)) in
    do! _ <- (if sy_chmod sys listen then run_do (SocketMode (6 * 64 + 6 * 8 + 6)) else run_fail (Err "set_permissions"%string)) in
    run_do (ServeHttp path)
  else
    do! addr <- run_fail (ok_or (socket_addr_from_str listen) "invalid bind address"%string) in
    do! _ <- bind_tcp sys addr "bind" in
    run_do (ServeHttp path).

Section server.
Context `{P : Aead} `{X : PqCrypto} `{B : Base64} `{N : IpNetworks}.

(** [build_state] is [server_build_state] with its surroundings; [nonce] and
    [random] are the draws of the two commands. *)
Definition server_main (sys : System) (hkdf : bytes -> bytes -> bytes) (nonce random : bytes) (cmd : option Command)
    (config : Res string (ServerTopConfig * option LogConfig)) (build_state : ServerTopConfig -> Res string ServerState) : Run unit :=
  match cmd with
  | Some (GenToken secret user exp) =>
      do! token <- run_fail (gen_token hkdf secret nonce user exp) in
      run_do (PrintToken token)
  | Some GenKey => let (sk, pk) := gen_key random in run_do (PrintKeys sk pk)
  | None =>
      do! cfg <- run_fail config in
      let (config, log) := cfg in
      do! _ <- start_tracing sys log in
      do! state <- run_fail (build_state config) in
      do! _ <- run_do StartJanitors in
      run_server sys (sv_path config) (sv_listen config)
  end.
End server.

(** ** Properties *)

(** *** The log file *)

Lemma trim_rev_name name rest :
  name <> [] -> slash ∉ name -> name <> [dot] -> trim_rev (reverse name ++ slash :: rest) = reverse name ++ slash :: rest.
Proof.
  intros Hne Hs Hd. destruct name as [|c name _] using rev_ind; [done|]. rewrite reverse_snoc. cbn [app trim_rev].
  rewrite decide_False by set_solver. destruct (decide (c = dot)) as [->|]; [|done].
  destruct name as [|d name _] using rev_ind; [done|]. rewrite reverse_snoc. cbn [app]. rewrite decide_False by set_solver. done.
Qed.

Lemma take_component_name name rest : slash ∉ name -> take_component (name ++ slash :: rest) = (name, slash :: rest).
Proof.
  induction name as [|c name IH]; intros Hs; cbn [app take_component]; [by rewrite decide_True|].
  rewrite decide_False by set_solver. rewrite IH by set_solver. done.
Qed.

(** A file in a directory is split into the two; the name's last dot separates
    its suffix. *)
Theorem log_file_split dir stem ext :
  slash ∉ stem -> slash ∉ ext -> dot ∉ ext -> stem <> [] -> ext <> [] -> trim_rev (reverse dir) = reverse dir -> dir <> [] ->
  let path := dir ++ [slash] ++ stem ++ [dot] ++ ext in
  path_parent path = Some dir /\ file_stem path = Some stem /\ extension path = Some ext.
Proof.
  intros Hs He Hd Hsn Hen Hdir Hne. cbv zeta. set (name := stem ++ [dot] ++ ext).
  assert (Hname : slash ∉ name) by (unfold name; set_solver). assert (Hlong : (3 <= length name)%nat).
  { unfold name. rewrite !length_app. destruct stem, ext; cbn; try done; lia. }
  assert (Hr : reverse (dir ++ [slash] ++ name) = reverse name ++ slash :: reverse dir).
  { rewrite app_assoc, reverse_app, reverse_snoc. done. }
  assert (Ht : trim_rev (reverse (dir ++ [slash] ++ name)) = reverse name ++ slash :: reverse dir).
  { rewrite Hr. apply trim_rev_name; [|done|]; intros H; rewrite H in Hlong; cbn in Hlong; lia. }
  assert (Hf : file_name (dir ++ [slash] ++ name) = Some name).
  { unfold file_name. rewrite Ht. destruct (reverse name ++ slash :: reverse dir) eqn:Hx; [by destruct (reverse name)|]. rewrite <- Hx.
    rewrite take_component_name by (by rewrite elem_of_reverse). cbn [fst]. rewrite reverse_involutive.
    rewrite !bool_decide_eq_false_2; [done|intros H; rewrite H in Hlong; cbn in Hlong; lia..]. }
  assert (Hsplit : split_name name = (stem, Some ext)).
  { unfold split_name, name. cbn [app]. rewrite rsplit_once_app by done. by destruct stem. }
  split; [|unfold file_stem, extension; rewrite Hf; cbn; rewrite Hsplit; done].
  unfold path_parent. rewrite Ht. destruct (reverse name ++ slash :: reverse dir) eqn:Hx; [by destruct (reverse name)|]. rewrite <- Hx.
  rewrite take_component_name by (by rewrite elem_of_reverse). cbn [trim_rev]. rewrite decide_True, Hdir by done.
  destruct (reverse dir) as [|y k] eqn:Hrd; [|by rewrite <- Hrd, reverse_involutive].
  by apply (f_equal reverse) in Hrd; rewrite reverse_involutive in Hrd.
Qed.

Example log_files :
  map (fun p => (path_parent p, file_stem p, extension p))
    [str "app.log"; str "/var/log/app"; str "/app.log"; str "logs//app.tar.gz/"; str ".hidden"; str "./app.log"; str ".."; str ""] =
  [(Some [], Some (str "app"), Some (str "log")); (Some (str "/var/log"), Some (str "app"), None); (Some (str "/"), Some (str "app"), Some (str "log"));
   (Some (str "logs"), Some (str "app.tar"), Some (str "gz")); (Some [], Some (str ".hidden"), None); (Some (str "."), Some (str "app"), Some (str "log"));
   (Some [], None, None); (None, None, None)].
Proof. by vm_compute. Qed.

(** *** Starting *)

Lemma run_bind_Ok {A B} (m : Run A) (k : A -> Run B) acts b :
  run_bind m k = (acts, Ok b) -> exists acts1 a acts2, m = (acts1, Ok a) /\ k a = (acts2, Ok b) /\ acts = acts1 ++ acts2.
Proof.
  destruct m as [acts1 [a|e|]]; cbn; [|done..]. destruct (k a) as [acts2 r] eqn:Hk. intros [= <- ->]. by exists acts1, a, acts2.
Qed.

Lemma spawn_all_Ok sys rules acts :
  spawn_all sys rules = (acts, Ok tt) -> acts = concat (map (fun r => [BindTcp (rule_listen r); AcceptRedirects r]) rules).
Proof.
  revert acts. induction rules as [|rule rules IH]; intros acts; cbn [spawn_all]; [by intros [= <-]|].
  intros (a1 & [] & a2 & H1 & H2 & ->)%run_bind_Ok. apply IH in H2 as ->. unfold redirect_spawn, bind_tcp in H1.
  destruct (sy_bind sys _); [|done]. cbn in H1. by injection H1 as <-.
Qed.

(** A client that runs was configured, has bound the proxy's address and those
    of its redirects, each once, in this order, and nothing else, and takes
    connections last. *)
Theorem client_starts `{X : PqCrypto} `{B : Base64} `{BS : Base64Std} `{F : FstSet} `{N : NetTable}
    sys parse_url url_host config acts state n :
  client_main sys parse_url url_host config = (acts, Ok (state, n)) ->
  exists cfg log filter writer addr rules host,
    config = Ok (cfg, log) /\ client_build_state parse_url cfg = Ok state /\ n = st_max_connections state /\
    socket_addr_from_str (cl_listen (ct_client cfg)) = Some addr /\ parse_all (ct_redirect cfg) = Ok rules /\
    (host = default host (cl_address (ct_client cfg))) /\
    acts = [Trace filter writer; BindTcp addr] ++ concat (map (fun r => [BindTcp (rule_listen r); AcceptRedirects r]) rules) ++ [AcceptProxy host].
Proof.
  unfold client_main. intros (a1 & [cfg log] & a2 & H1 & H2 & ->)%run_bind_Ok. injection H1 as <- ->.
  apply run_bind_Ok in H2 as (a3 & [] & a4 & H3 & H4 & ->). unfold start_tracing in H3.
  destruct (init_tracing _ _ _ _) as [[filter writer]| |]; [|done..]. injection H3 as <-.
  apply run_bind_Ok in H4 as (a5 & st & a6 & H5 & H6 & ->). injection H5 as <- Hst.
  apply run_bind_Ok in H6 as (a7 & addr & a8 & H7 & H8 & ->). injection H7 as <- Haddr.
  apply run_bind_Ok in H8 as (a9 & [] & a10 & H9 & H10 & ->). unfold bind_tcp in H9. destruct (sy_bind sys addr); [|done]. injection H9 as <-.
  apply run_bind_Ok in H10 as (a11 & domain & a12 & H11 & H12 & ->). injection H11 as <- _.
  apply run_bind_Ok in H12 as (a13 & [] & a14 & H13 & H14 & ->). injection H13 as <- _.
  apply run_bind_Ok in H14 as (a15 & rules & a16 & H15 & H16 & ->). injection H15 as <- Hrules.
  apply run_bind_Ok in H16 as (a17 & [] & a18 & H17 & H18 & ->). apply spawn_all_Ok in H17 as ->.
  apply run_bind_Ok in H18 as (a19 & [] & a20 & H19 & H20 & ->). injection H19 as <-. injection H20 as <- <- <-.
  exists cfg, log, filter, writer, addr, rules, (default domain (cl_address (ct_client cfg))).
  split; [done|]. split; [done|]. split; [done|]. split; [by destruct (socket_addr_from_str _); [injection Haddr as ->|]|].
  split; [done|]. split; [by destruct (cl_address _)|]. rewrite app_nil_r. done.
Qed.

(** A server that serves has built its state and started the janitors first,
    and listens on the configured path or address. *)
Theorem server_starts `{P : Aead} `{X : PqCrypto} `{B : Base64} `{N : IpNetworks} sys hkdf nonce random config build_state acts path :
  server_main sys hkdf nonce random None config build_state = (acts, Ok tt) -> ServeHttp path ∈ acts ->
  exists cfg log st filter writer more,
    config = Ok (cfg, log) /\ build_state cfg = Ok st /\ path = sv_path cfg /\ acts = [Trace filter writer; StartJanitors] ++ more /\
    (BindUnix (sv_listen cfg) ∈ more \/ exists addr, socket_addr_from_str (sv_listen cfg) = Some addr /\ BindTcp addr ∈ more).
Proof.
  unfold server_main. intros (a1 & [cfg log] & a2 & H1 & H2 & ->)%run_bind_Ok Hin. injection H1 as <- ->.
  apply run_bind_Ok in H2 as (a3 & [] & a4 & H3 & H4 & ->). unfold start_tracing in H3.
  destruct (init_tracing _ _ _ _) as [[filter writer]| |]; [|done..]. injection H3 as <-.
  apply run_bind_Ok in H4 as (a5 & st & a6 & H5 & H6 & ->). injection H5 as <- Hst.
  apply run_bind_Ok in H6 as (a7 & [] & a8 & H7 & H8 & ->). injection H7 as <-.
  exists cfg, log, st, filter, writer, a8. split; [done|]. split; [done|]. cbn [app] in Hin.
  assert (Hin8 : ServeHttp path ∈ a8) by (repeat (apply elem_of_cons in Hin as [Hin|Hin]; [done|]); exact Hin). clear Hin.
  unfold run_server in H8. destruct (_ || _).
  - apply run_bind_Ok in H8 as (b1 & [] & b2 & K1 & K2 & ->). apply run_bind_Ok in K2 as (b3 & [] & b4 & K3 & K4 & ->).
    destruct (sy_bind_unix sys _); [|done]. injection K3 as <-. apply run_bind_Ok in K4 as (b5 & [] & b6 & K5 & K6 & ->). injection K6 as <-.
    assert (Hb1 : ServeHttp path ∉ b1).
    { destruct (sy_exists sys _); [destruct (sy_remove sys _); [|done]|]; injection K1 as <-; set_solver. }
    assert (Hb5 : ServeHttp path ∉ b5) by (destruct (sy_chmod sys _); [|done]; injection K5 as <-; set_solver).
    split; [set_solver|]. split; [done|]. left. set_solver.
  - apply run_bind_Ok in H8 as (b1 & addr & b2 & K1 & K2 & ->). injection K1 as <- Ha. apply run_bind_Ok in K2 as (b3 & [] & b4 & K3 & K4 & ->).
    unfold bind_tcp in K3. destruct (sy_bind sys addr); [|done]. injection K3 as <-. injection K4 as <-.
    split; [set_solver|]. split; [done|]. right. exists addr. split; [|set_solver].
    by destruct (socket_addr_from_str _); [injection Ha as ->|].
Qed.
