(* ===== verification/Config.v ===== *)
(** * The configuration files

    [src/config/mod.rs] and the sections it names in [src/shaper/mod.rs],
    [src/bypass/mod.rs], [src/log/mod.rs], [src/dns/config.rs] and
    [src/warp/mod.rs]: how a document becomes a configuration. Each structure is
    read as its declaration and its [serde] attributes say ([deny_unknown_fields],
    [default], [flatten], [rename]); the values of a document, and how the text
    becomes one, are the class [Documents]. A section that is written as an
    array and not as a table is outside the model. *)

From S2P Require Import Prelude Cipher Frame Shaper Text Token Crypto Net Bypass Connection Dns Warp Pin Setup Programs.

(** ** Documents *)

(** [toml] or [serde_json]: a value, and what it is read as. A fixed array has two
    elements; a variant is the name of a case without data. *)
Class Documents := {
  doc : Type;
  from_text : bytes -> option doc;
  as_table : doc -> option (list (bytes * doc));
  as_array : doc -> option (list doc);
  as_pair : doc -> option (doc * doc);
  as_string : doc -> option bytes;
  as_variant : doc -> option bytes;
  as_bool : doc -> option bool;
  as_integer : doc -> option Z;
  is_null : doc -> bool
}.

Section decode.
Context `{D : Documents}.

Abbreviation Table := (list (bytes * doc)).

Fixpoint lookup_key (k : bytes) (t : Table) : option doc :=
  match t with
  | [] => None
  | (k', d) :: t => if decide (k' = k) then Some d else lookup_key k t
  end.

(** ** Values *)

Definition wrong_type : string := "invalid type".

Definition de_string (d : doc) : Res string bytes := ok_or (as_string d) wrong_type.
Definition de_bool (d : doc) : Res string bool := ok_or (as_bool d) wrong_type.
(** An unsigned integer of a width. *)
Definition de_uint (max : Z) (d : doc) : Res string Z :=
  let? n := ok_or (as_integer d) wrong_type in
  if (0 <=? n) && (n <? max) then Ok n else Err "invalid value"%string.
Definition de_usize : doc -> Res string Z := de_uint u64_max.

Fixpoint de_each {A} (de : doc -> Res string A) (l : list doc) : Res string (list A) :=
  match l with
  | [] => Ok []
  | d :: l => let? x := de d in let? xs := de_each de l in Ok (x :: xs)
  end.
Definition de_vec {A} (de : doc -> Res string A) (d : doc) : Res string (list A) :=
  let? l := ok_or (as_array d) wrong_type in de_each de l.
Definition de_option {A} (de : doc -> Res string A) (d : doc) : Res string (option A) :=
  if is_null d then Ok None else let? x := de d in Ok (Some x).
(** [\[usize; 2\]]. *)
Definition de_range (d : doc) : Res string (Z * Z) :=
  let? (a, b) := ok_or (as_pair d) wrong_type in
  let? lo := de_usize a in let? hi := de_usize b in Ok (lo, hi).

(** ** Structures *)

(** A field is not given twice, and with [deny_unknown_fields] it is one of the
    structure's. *)
Fixpoint fields_ok (deny : bool) (known : list bytes) (seen : list bytes) (t : Table) : Res string unit :=
  match t with
  | [] => Ok tt
  | (k, _) :: t =>
      if bool_decide (k ∈ known) then
        if bool_decide (k ∈ seen) then Err "duplicate field"%string else fields_ok deny known (k :: seen) t
      else if deny then Err "unknown field"%string else fields_ok deny known seen t
  end.

Definition de_struct {A} (deny : bool) (known : list string) (fields : Table -> Res string A) (d : doc) : Res string A :=
  let? t := ok_or (as_table d) wrong_type in
  let? _ := fields_ok deny (map str known) [] t in
  fields t.

Definition required {A} (k : string) (de : doc -> Res string A) (t : Table) : Res string A :=
  match lookup_key (str k) t with Some d => de d | None => Err "missing field"%string end.
(** [#\[serde(default)\]], or with a function. *)
Definition defaulted {A} (k : string) (de : doc -> Res string A) (v : A) (t : Table) : Res string A :=
  match lookup_key (str k) t with Some d => de d | None => Ok v end.
(** A field of type [Option], with or without [#\[serde(default)\]]. *)
Definition optional {A} (k : string) (de : doc -> Res string A) (t : Table) : Res string (option A) :=
  defaulted k (de_option de) None t.

(** ** [src/shaper/mod.rs] *)

Definition de_padding : doc -> Res string PaddingConfig :=
  de_struct true ["padding_threshold"; "padding_range"] (fun t =>
    let? threshold := required "padding_threshold" de_usize t in
    let? range := required "padding_range" de_range t in
    Ok (mkPadding threshold range)).

Definition de_stage : doc -> Res string StageConfig :=
  de_struct true ["count"; "count_range"; "padding_threshold"; "padding_range"] (fun t =>
    let? count := optional "count" de_usize t in
    let? count_range := optional "count_range" de_range t in
    let? threshold := required "padding_threshold" de_usize t in
    let? range := required "padding_range" de_range t in
    Ok (mkStageConfig count count_range threshold range)).

Definition de_encoding (d : doc) : Res string EncodingType :=
  let? v := ok_or (as_variant d) wrong_type in
  if decide (v = str "json") then Ok Json else if decide (v = str "binary") then Ok Binary else Err "unknown variant"%string.

(** [EncodingType::default]. *)
Definition EncodingType_default : EncodingType := Binary.

Definition de_traffic : doc -> Res string TrafficConfig :=
  de_struct true ["global"; "stages"; "encoding_type"; "max_download_bytes"] (fun t =>
    let? global := required "global" de_padding t in
    let? stages := defaulted "stages" (de_vec de_stage) [] t in
    let? encoding := defaulted "encoding_type" de_encoding EncodingType_default t in
    let? max_download_bytes := optional "max_download_bytes" (de_uint u64_max) t in
    Ok (mkTraffic global stages encoding max_download_bytes)).

(** ** [src/bypass/mod.rs]

    The paths of the rule files, and the content of one. *)

Definition de_bypass : doc -> Res string (list bytes) :=
  de_struct false ["bypass_files"] (defaulted "bypass_files" (de_vec de_string) []).

Definition de_bypass_file : doc -> Res string BypassFile :=
  de_struct false ["domain_suffix"; "ip_cidr"] (fun t =>
    let? domain_suffix := defaulted "domain_suffix" (de_vec de_string) [] t in
    let? ip_cidr := defaulted "ip_cidr" (de_vec de_string) [] t in
    Ok (domain_suffix, ip_cidr)).

(** ** [src/log/mod.rs] *)

Definition de_log : doc -> Res string LogConfig :=
  de_struct false ["file_path"; "level"; "max_backups"] (fun t =>
    let? file_path := defaulted "file_path" (de_option de_string) (lg_file_path LogConfig_default) t in
    let? level := defaulted "level" de_string (lg_level LogConfig_default) t in
    let? max_backups := defaulted "max_backups" de_usize (lg_max_backups LogConfig_default) t in
    Ok (mkLog file_path level max_backups)).

(** ** [src/dns/config.rs] *)

Definition de_protocol (d : doc) : Res string Protocol :=
  let? v := ok_or (as_variant d) wrong_type in
  if decide (v = str "udp") then Ok Udp else if decide (v = str "dot") then Ok Dot else Err "unknown variant"%string.

Definition deserialize_upstream (d : doc) : Res string SocketAddr :=
  let? s := de_string d in ok_or (socket_addr_from_str s) "invalid socket address syntax"%string.

Definition de_ip (d : doc) : Res string IpAddr :=
  let? s := de_string d in ok_or (ip_from_str s) "invalid IP address syntax"%string.

Definition dns_option_keys : list string :=
  ["protocol"; "prefer_ipv6"; "cache_size"; "client_subnet"; "min_ttl"; "max_ttl"; "swr_ttl"; "empty_ttl";
   "happy_eyeballs_delay_ms"; "max_concurrent_queries"].

(** The options are read from the table's other fields ([flatten]). *)
Definition de_dns_options (t : Table) : Res string DnsOptions :=
  let? _ := fields_ok false (map str dns_option_keys) [] t in
  let u64 (k : string) (v : DnsOptions -> Z) := defaulted k (de_uint u64_max) (v default_options) t in
  let? proto := defaulted "protocol" de_protocol (protocol default_options) t in
  let? prefer := defaulted "prefer_ipv6" de_bool (prefer_ipv6 default_options) t in
  let? cache := u64 "cache_size" cache_size in
  let? subnet := defaulted "client_subnet" (de_option de_ip) (client_subnet default_options) t in
  let? min := u64 "min_ttl" min_ttl in
  let? max := u64 "max_ttl" max_ttl in
  let? swr := u64 "swr_ttl" swr_ttl in
  let? empty := u64 "empty_ttl" empty_ttl in
  let? delay := u64 "happy_eyeballs_delay_ms" happy_eyeballs_delay_ms in
  let? queries := defaulted "max_concurrent_queries" de_usize (max_concurrent_queries default_options) t in
  Ok (mkDnsOptions proto prefer cache subnet min max swr empty delay queries).

Definition de_dns : doc -> Res string DnsConfig :=
  de_struct false ["upstream"; "tls_domain"] (fun t =>
    let? upstream := required "upstream" deserialize_upstream t in
    let? tls_domain := optional "tls_domain" de_string t in
    let? options := de_dns_options (filter (fun e => fst e <> str "upstream" /\ fst e <> str "tls_domain") t) in
    Ok (mkDnsConfig upstream tls_domain options)).

(** ** [src/warp/mod.rs] *)

Definition yes : bool := true.

Definition de_warp : doc -> Res string WarpSection :=
  de_struct true ["enabled"; "config_path"; "endpoint"; "endpoint_v6"; "port"; "sni"; "connect_timeout_secs"; "keepalive_secs";
      "idle_timeout_secs"; "register_model"; "register_locale"; "insecure_skip_verify"; "bypass_private"; "bypass_cidrs"; "bypass_suffixes"] (fun t =>
    let? enabled := defaulted "enabled" de_bool yes t in
    let? config_path := optional "config_path" de_string t in
    let? endpoint := optional "endpoint" de_string t in
    let? endpoint_v6 := optional "endpoint_v6" de_string t in
    let? port := optional "port" (de_uint u16_max) t in
    let? sni := optional "sni" de_string t in
    let? connect_timeout_secs := optional "connect_timeout_secs" (de_uint u64_max) t in
    let? keepalive_secs := optional "keepalive_secs" (de_uint u64_max) t in
    let? idle_timeout_secs := optional "idle_timeout_secs" (de_uint u64_max) t in
    let? register_model := optional "register_model" de_string t in
    let? register_locale := optional "register_locale" de_string t in
    let? insecure_skip_verify := defaulted "insecure_skip_verify" de_bool false t in
    let? bypass_private := defaulted "bypass_private" de_bool yes t in
    let? bypass_cidrs := defaulted "bypass_cidrs" (de_vec de_string) [] t in
    let? bypass_suffixes := defaulted "bypass_suffixes" (de_vec de_string) [] t in
    Ok (mkWarpSection enabled config_path endpoint endpoint_v6 port sni connect_timeout_secs keepalive_secs idle_timeout_secs
      register_model register_locale insecure_skip_verify bypass_private bypass_cidrs bypass_suffixes)).

(** ** [src/config/mod.rs] *)

(** [AuthSection] and [ClientAuthSection]. *)
Definition de_auth : doc -> Res string bytes := de_struct true ["secret"] (required "secret" de_string).
Definition de_client_auth : doc -> Res string bytes := de_struct true ["token"] (required "token" de_string).
(** [ProxySection]. *)
Definition de_proxy : doc -> Res string (option bytes) := de_struct true ["socks5"] (optional "socks5" de_string).

(** [ServerSection]: listen, path, private key, and the limit of tunnels. *)
Definition de_server_section : doc -> Res string (bytes * bytes * bytes * option Z) :=
  de_struct true ["listen"; "path"; "private_key"; "max_tunnels"] (fun t =>
    let? listen := required "listen" de_string t in
    let? path := required "path" de_string t in
    let? private_key := required "private_key" de_string t in
    let? max_tunnels := optional "max_tunnels" de_usize t in
    Ok (listen, path, private_key, max_tunnels)).

Definition de_proxy_auth : doc -> Res string ClientProxyAuth :=
  de_struct true ["username"; "password"] (fun t =>
    let? username := required "username" de_string t in
    let? password := required "password" de_string t in
    Ok (mkProxyAuth username password)).

Definition de_client_section : doc -> Res string ClientSection :=
  de_struct true ["listen"; "remote"; "address"; "public_key"; "auth"; "max_connections"; "max_in_flight_bytes"; "upload_concurrency"] (fun t =>
    let? listen := required "listen" de_string t in
    let? remote := required "remote" de_string t in
    let? address := optional "address" de_string t in
    let? public_key := required "public_key" de_string t in
    let? auth := optional "auth" de_proxy_auth t in
    let? max_connections := optional "max_connections" de_usize t in
    let? max_in_flight_bytes := optional "max_in_flight_bytes" de_usize t in
    let? upload_concurrency := optional "upload_concurrency" de_usize t in
    Ok (mkClientSection listen remote address public_key auth max_connections max_in_flight_bytes upload_concurrency)).

Definition de_redirect : doc -> Res string RedirectSection :=
  de_struct true ["listen"; "target"] (fun t =>
    let? listen := required "listen" de_string t in
    let? target := required "target" de_string t in
    Ok (mkRedirectSection listen target)).

Definition de_server_config : doc -> Res string (ServerTopConfig * option LogConfig) :=
  de_struct true ["server"; "auth"; "proxy"; "log"; "dns"; "warp"; "traffic_shaping"] (fun t =>
    let? (listen, path, private_key, max_tunnels) := required "server" de_server_section t in
    let? secret := required "auth" de_auth t in
    let? proxy := optional "proxy" de_proxy t in
    let? log := optional "log" de_log t in
    let? dns := optional "dns" de_dns t in
    let? warp := optional "warp" de_warp t in
    let? traffic_shaping := required "traffic_shaping" de_traffic t in
    Ok (mkServerTop listen path private_key max_tunnels secret proxy dns warp traffic_shaping, log)).

(** [load_file] reads one rule file: the loading of the rules, which comes
    later, starts with it. *)
Definition de_client_config (load_file : bytes -> Res string BypassFile) : doc -> Res string (ClientTopConfig * option LogConfig) :=
  de_struct true ["client"; "auth"; "log"; "traffic_shaping"; "bypass"; "redirect"] (fun t =>
    let? client := required "client" de_client_section t in
    let? token := required "auth" de_client_auth t in
    let? log := optional "log" de_log t in
    let? traffic_shaping := required "traffic_shaping" de_traffic t in
    let? bypass_files := defaulted "bypass" de_bypass [] t in
    let? redirect := defaulted "redirect" (de_vec de_redirect) [] t in
    Ok (mkClientTop client token traffic_shaping (map load_file bypass_files) redirect, log)).

(** [toml::from_str] after [fs::read_to_string]. *)
Definition config_from {A} (de : doc -> Res string A) (file : Res string bytes) : Res string A :=
  let? text := file in
  let? d := ok_or (from_text text) "TOML parse error"%string in
  de d.
End decode.

(** The rule file at [path], in JSON. *)
Definition read_bypass_file (J : Documents) (read : bytes -> Res string bytes) (path : bytes) : Res string BypassFile :=
  let? content := read path in
  let? d := ok_or (from_text content) "parse bypass file"%string in
  de_bypass_file d.

(** ** The programs, from their files *)

(** [main] of [src/bin/client.rs] and [src/bin/server.rs]: [read] reads files, [path] is the
    configuration's. *)
Definition run_client `{X : PqCrypto} `{B : Base64} `{BS : Base64Std} `{F : FstSet} `{N : NetTable} (T J : Documents) (sys : System)
    (parse_url url_host : bytes -> option bytes) (read : bytes -> Res string bytes) (path : bytes) : Run (SharedState * Z) :=
  client_main sys parse_url url_host (config_from (de_client_config (read_bypass_file J read)) (read path)).

Definition run_server_program `{P : Aead} `{X : PqCrypto} `{B : Base64} `{N : IpNetworks} (T : Documents) (sys : System) (hkdf : bytes -> bytes -> bytes)
    (nonce random : bytes) (cmd : option Command) (read : bytes -> Res string bytes) (path : bytes)
    (build_state : ServerTopConfig -> Res string ServerState) : Run unit :=
  server_main sys hkdf nonce random cmd (config_from de_server_config (read path)) build_state.

(** ** Specification: the tables of settings *)

Inductive Need : Type := Required | Defaulted | Optional.

(** What a setting holds: of a table, its settings and whether it has no
    others. *)
Inductive Kind : Type :=
| KString
| KBool
| KUint (max : Z)
| KRange
| KOneOf (names : list string)
| KSocketAddr
| KIpAddr
| KArray (elem : Kind)
| KTable (strict : bool) (fields : list (string * Need * Kind)).

Section schema.
Context `{D : Documents}.
Abbreviation Table := (list (bytes * doc)).

Definition uint_ok (max : Z) (d : doc) : bool :=
  match as_integer d with Some n => (0 <=? n) && (n <? max) | None => false end.

(** Only the table's own settings, if it is strict, and none of them twice. *)
Definition keys_ok (strict : bool) (known : list string) (t : Table) : bool :=
  (negb strict || forallb (fun e => bool_decide (fst e ∈ map str known)) t) &&
  bool_decide (NoDup (filter (fun k => k ∈ map str known) (map fst t))).

Fixpoint conforms (k : Kind) (d : doc) : bool :=
  match k with
  | KString => bool_decide (is_Some (as_string d))
  | KBool => bool_decide (is_Some (as_bool d))
  | KUint max => uint_ok max d
  | KRange => match as_pair d with Some (a, b) => uint_ok u64_max a && uint_ok u64_max b | None => false end
  | KOneOf names => match as_variant d with Some v => bool_decide (v ∈ map str names) | None => false end
  | KSocketAddr => bool_decide (is_Some (as_string d ≫= socket_addr_from_str))
  | KIpAddr => bool_decide (is_Some (as_string d ≫= ip_from_str))
  | KArray elem => match as_array d with Some l => forallb (conforms elem) l | None => false end
  | KTable strict fields =>
      match as_table d with
      | Some t =>
          keys_ok strict (map (fun f => fst (fst f)) fields) t &&
          forallb (fun f : string * Need * Kind => let '(name, need, kind) := f in
            match lookup_key (str name) t with
            | Some d => match need with Optional => is_null d || conforms kind d | _ => conforms kind d end
            | None => match need with Required => false | _ => true end
            end) fields
      | None => false
      end
  end.
End schema.

Definition KUsize : Kind := KUint u64_max.
Definition KPadding : list (string * Need * Kind) := [("padding_threshold", Required, KUsize); ("padding_range", Required, KRange)].
Definition traffic_schema : Kind := KTable true
  [("global", Required, KTable true KPadding);
   ("stages", Defaulted, KArray (KTable true ([("count", Optional, KUsize); ("count_range", Optional, KRange)] ++ KPadding)));
   ("encoding_type", Defaulted, KOneOf ["json"; "binary"]);
   ("max_download_bytes", Optional, KUsize)].
Definition log_schema : Kind := KTable false [("file_path", Optional, KString); ("level", Defaulted, KString); ("max_backups", Defaulted, KUsize)].
Definition dns_schema : Kind := KTable false
  [("upstream", Required, KSocketAddr); ("tls_domain", Optional, KString); ("protocol", Defaulted, KOneOf ["udp"; "dot"]);
   ("prefer_ipv6", Defaulted, KBool); ("cache_size", Defaulted, KUsize); ("client_subnet", Optional, KIpAddr);
   ("min_ttl", Defaulted, KUsize); ("max_ttl", Defaulted, KUsize); ("swr_ttl", Defaulted, KUsize); ("empty_ttl", Defaulted, KUsize);
   ("happy_eyeballs_delay_ms", Defaulted, KUsize); ("max_concurrent_queries", Defaulted, KUsize)].
Definition warp_schema : Kind := KTable true
  [("enabled", Defaulted, KBool); ("config_path", Optional, KString); ("endpoint", Optional, KString); ("endpoint_v6", Optional, KString);
   ("port", Optional, KUint u16_max); ("sni", Optional, KString); ("connect_timeout_secs", Optional, KUsize);
   ("keepalive_secs", Optional, KUsize); ("idle_timeout_secs", Optional, KUsize); ("register_model", Optional, KString);
   ("register_locale", Optional, KString); ("insecure_skip_verify", Defaulted, KBool); ("bypass_private", Defaulted, KBool);
   ("bypass_cidrs", Defaulted, KArray KString); ("bypass_suffixes", Defaulted, KArray KString)].
Definition server_schema : Kind := KTable true
  [("server", Required, KTable true [("listen", Required, KString); ("path", Required, KString); ("private_key", Required, KString);
     ("max_tunnels", Optional, KUsize)]);
   ("auth", Required, KTable true [("secret", Required, KString)]);
   ("proxy", Optional, KTable true [("socks5", Optional, KString)]);
   ("log", Optional, log_schema); ("dns", Optional, dns_schema); ("warp", Optional, warp_schema);
   ("traffic_shaping", Required, traffic_schema)].
Definition client_schema : Kind := KTable true
  [("client", Required, KTable true [("listen", Required, KString); ("remote", Required, KString); ("address", Optional, KString);
     ("public_key", Required, KString);
     ("auth", Optional, KTable true [("username", Required, KString); ("password", Required, KString)]);
     ("max_connections", Optional, KUsize); ("max_in_flight_bytes", Optional, KUsize); ("upload_concurrency", Optional, KUsize)]);
   ("auth", Required, KTable true [("token", Required, KString)]);
   ("log", Optional, log_schema); ("traffic_shaping", Required, traffic_schema);
   ("bypass", Defaulted, KTable false [("bypass_files", Defaulted, KArray KString)]);
   ("redirect", Defaulted, KArray (KTable true [("listen", Required, KString); ("target", Required, KString)]))].

(** ** Lemmas *)

Section accepted.
Context `{D : Documents}.
Abbreviation Table := (list (bytes * doc)).

Lemma is_ok_bind {E A B} (r : Res E A) (k : A -> Res E B) b :
  (forall x, is_ok (k x) = b) -> is_ok (res_bind r k) = is_ok r && b.
Proof. intros Hk. destruct r; cbn; [apply Hk|done|done]. Qed.

Lemma is_ok_ok_or {E A} (o : option A) (e : E) : is_ok (ok_or o e) = bool_decide (is_Some o).
Proof. destruct o; cbn [ok_or is_ok]; symmetry; [by apply bool_decide_true|apply bool_decide_false; by intros []]. Qed.

Lemma is_ok_uint max d : is_ok (de_uint max d) = uint_ok max d.
Proof. unfold de_uint, uint_ok. destruct (as_integer d) as [n|]; [|done]. cbn. by destruct (_ && _). Qed.

Lemma is_ok_range d : is_ok (de_range d) = conforms KRange d.
Proof.
  unfold de_range, de_usize. cbn [conforms]. destruct (as_pair d) as [[a b]|]; [|done]. cbn [ok_or res_bind].
  rewrite (is_ok_bind _ _ (uint_ok u64_max b)); [by rewrite is_ok_uint|]. intros lo.
  rewrite (is_ok_bind _ _ true) by done. by rewrite is_ok_uint, andb_true_r.
Qed.

Lemma is_ok_each {A} (de : doc -> Res string A) (ok : doc -> bool) l :
  (forall d, is_ok (de d) = ok d) -> is_ok (de_each de l) = forallb ok l.
Proof.
  intros H. induction l as [|d l IH]; [done|]. cbn [de_each forallb]. rewrite <- H, <- IH.
  destruct (de d); cbn; [by destruct (de_each de l)|done..].
Qed.

Lemma is_ok_vec {A} (de : doc -> Res string A) k d :
  (forall d, is_ok (de d) = conforms k d) -> is_ok (de_vec de d) = conforms (KArray k) d.
Proof. intros H. unfold de_vec. cbn [conforms]. destruct (as_array d); [|done]. cbn. by apply is_ok_each. Qed.

Lemma is_ok_option {A} (de : doc -> Res string A) d : is_ok (de_option de d) = is_null d || is_ok (de d).
Proof. unfold de_option. destruct (is_null d); [done|]. by destruct (de d). Qed.

(** A table's own settings, each at most once. *)
Lemma is_ok_fields deny known seen t :
  NoDup seen -> is_ok (fields_ok deny known seen t) =
  (negb deny || forallb (fun e => bool_decide (fst e ∈ known)) t) &&
  bool_decide (NoDup (seen ++ filter (fun k => k ∈ known) (map fst t))).
Proof.
  revert seen. induction t as [|[k d] t IH]; intros seen Hn; cbn [fields_ok forallb map fst].
  - rewrite orb_true_r. symmetry. apply bool_decide_true. by rewrite app_nil_r.
  - rewrite filter_cons. destruct (bool_decide_reflect (k ∈ known)) as [Hk|Hk].
    + rewrite decide_True by done. destruct (bool_decide_reflect (k ∈ seen)) as [Hs|Hs].
      * symmetry. apply andb_false_iff. right. apply bool_decide_false. intros H. apply NoDup_app in H as (_ & H & _).
        apply (H k Hs). by left.
      * rewrite IH by (by constructor). cbn [andb]. f_equal. apply bool_decide_ext. cbn [app]. by rewrite Permutation_middle.
    + rewrite decide_False by done. destruct deny; cbn [negb orb andb is_ok]; [done|]. by rewrite IH.
Qed.

Lemma is_ok_keys deny known t : is_ok (fields_ok deny (map str known) [] t) = keys_ok deny known t.
Proof. rewrite is_ok_fields; [done|constructor]. Qed.

Lemma is_ok_struct {A} deny known (fields : Table -> Res string A) d ok :
  (forall t, is_ok (fields t) = ok t) ->
  is_ok (de_struct deny known fields d) = match as_table d with Some t => keys_ok deny known t && ok t | None => false end.
Proof.
  intros H. unfold de_struct. destruct (as_table d) as [t|]; [|done]. cbn [ok_or res_bind]. rewrite <- is_ok_keys, <- (H t).
  by destruct (fields_ok _ _ _ _).
Qed.

(** What a setting asks of a table. *)
Definition setting_ok (t : Table) (f : string * Need * Kind) : bool :=
  let '(name, need, kind) := f in
  match lookup_key (str name) t with
  | Some d => match need with Optional => is_null d || conforms kind d | _ => conforms kind d end
  | None => match need with Required => false | _ => true end
  end.

Lemma is_ok_required {A} name (de : doc -> Res string A) k t :
  (forall d, is_ok (de d) = conforms k d) -> is_ok (required name de t) = setting_ok t (name, Required, k).
Proof. intros H. unfold required. cbn. by destruct (lookup_key (str name) t). Qed.

Lemma is_ok_defaulted {A} name (de : doc -> Res string A) v k t :
  (forall d, is_ok (de d) = conforms k d) -> is_ok (defaulted name de v t) = setting_ok t (name, Defaulted, k).
Proof. intros H. unfold defaulted. cbn. by destruct (lookup_key (str name) t). Qed.

Lemma is_ok_optional {A} name (de : doc -> Res string A) k t :
  (forall d, is_ok (de d) = conforms k d) -> is_ok (optional name de t) = setting_ok t (name, Optional, k).
Proof.
  intros H. unfold optional, defaulted. cbn. destruct (lookup_key (str name) t); [|done]. by rewrite is_ok_option, H.
Qed.

(** *** The sections *)

Lemma bind_accepts {E A B} (r : Res E A) (k : A -> Res E B) b b' :
  is_ok r = b -> (forall x, is_ok (k x) = b') -> is_ok (res_bind r k) = b && b'.
Proof. intros <-. apply is_ok_bind. Qed.

Lemma table_accepts {A} strict fields (de : Table -> Res string A) d :
  (forall t, is_ok (de t) = forallb (setting_ok t) fields) ->
  is_ok (de_struct strict (map (fun f => fst (fst f)) fields) de d) = conforms (KTable strict fields) d.
Proof. intros H. by rewrite (is_ok_struct _ _ _ _ _ H). Qed.

Lemma string_accepts d : is_ok (de_string d) = conforms KString d.
Proof. apply is_ok_ok_or. Qed.
Lemma bool_accepts d : is_ok (de_bool d) = conforms KBool d.
Proof. apply is_ok_ok_or. Qed.
Lemma usize_accepts d : is_ok (de_usize d) = conforms (KUint u64_max) d.
Proof. apply is_ok_uint. Qed.
Lemma uint_accepts max d : is_ok (de_uint max d) = conforms (KUint max) d.
Proof. apply is_ok_uint. Qed.

Lemma encoding_accepts d : is_ok (de_encoding d) = conforms (KOneOf ["json"; "binary"]) d.
Proof.
  unfold de_encoding. cbn [conforms map]. destruct (as_variant d) as [v|]; [|done]. cbn [ok_or res_bind].
  repeat (destruct (decide _); [by rewrite bool_decide_true by set_solver|]). by rewrite bool_decide_false by set_solver.
Qed.
Lemma protocol_accepts d : is_ok (de_protocol d) = conforms (KOneOf ["udp"; "dot"]) d.
Proof.
  unfold de_protocol. cbn [conforms map]. destruct (as_variant d) as [v|]; [|done]. cbn [ok_or res_bind].
  repeat (destruct (decide _); [by rewrite bool_decide_true by set_solver|]). by rewrite bool_decide_false by set_solver.
Qed.
Lemma upstream_accepts d : is_ok (deserialize_upstream d) = conforms KSocketAddr d.
Proof. unfold deserialize_upstream, de_string. cbn [conforms]. destruct (as_string d); [|done]. apply is_ok_ok_or. Qed.
Lemma ip_accepts d : is_ok (de_ip d) = conforms KIpAddr d.
Proof. unfold de_ip, de_string. cbn [conforms]. destruct (as_string d); [|done]. apply is_ok_ok_or. Qed.
End accepted.

Create HintDb accepts.
#[export] Hint Resolve string_accepts bool_accepts usize_accepts uint_accepts is_ok_range encoding_accepts protocol_accepts
  upstream_accepts ip_accepts is_ok_vec is_ok_required is_ok_defaulted is_ok_optional : accepts.

(** A section setting by setting. *)
Ltac accepts_fields := intros t; cbn [forallb]; repeat (apply bind_accepts; [solve [eauto with accepts]|intros;
  repeat match goal with |- is_ok (let (_, _) := ?x in _) = _ => destruct x end]);
  rewrite ?andb_true_r; try solve [eauto with accepts]; try done.
Ltac accepts_section :=
  intros d; lazymatch goal with |- _ = conforms ?k _ =>
    let k' := eval hnf in k in lazymatch k' with KTable ?s ?f => refine (table_accepts s f _ d _) end end;
  accepts_fields.

Section sections.
Context `{D : Documents}.
Abbreviation Table := (list (bytes * doc)).

Lemma padding_accepts : forall d, is_ok (de_padding d) = conforms (KTable true KPadding) d.
Proof. accepts_section. Qed.
Lemma stage_accepts : forall d, is_ok (de_stage d) =
  conforms (KTable true ([("count", Optional, KUsize); ("count_range", Optional, KRange)] ++ KPadding)) d.
Proof. accepts_section. Qed.
#[local] Hint Resolve padding_accepts stage_accepts : accepts.
Lemma traffic_accepts : forall d, is_ok (de_traffic d) = conforms traffic_schema d.
Proof. accepts_section. Qed.
#[local] Hint Resolve traffic_accepts : accepts.

Lemma bypass_accepts : forall d, is_ok (de_bypass d) = conforms (KTable false [("bypass_files", Defaulted, KArray KString)]) d.
Proof. accepts_section. Qed.
Lemma log_accepts : forall d, is_ok (de_log d) = conforms log_schema d.
Proof. accepts_section. Qed.
Lemma warp_accepts : forall d, is_ok (de_warp d) = conforms warp_schema d.
Proof. accepts_section. Qed.
Lemma auth_accepts : forall d, is_ok (de_auth d) = conforms (KTable true [("secret", Required, KString)]) d.
Proof. accepts_section. Qed.
Lemma client_auth_accepts : forall d, is_ok (de_client_auth d) = conforms (KTable true [("token", Required, KString)]) d.
Proof. accepts_section. Qed.
Lemma proxy_accepts : forall d, is_ok (de_proxy d) = conforms (KTable true [("socks5", Optional, KString)]) d.
Proof. accepts_section. Qed.
Lemma proxy_auth_accepts : forall d, is_ok (de_proxy_auth d) =
  conforms (KTable true [("username", Required, KString); ("password", Required, KString)]) d.
Proof. accepts_section. Qed.
Lemma redirect_accepts : forall d, is_ok (de_redirect d) =
  conforms (KTable true [("listen", Required, KString); ("target", Required, KString)]) d.
Proof. accepts_section. Qed.
Lemma server_section_accepts : forall d, is_ok (de_server_section d) =
  conforms (KTable true [("listen", Required, KString); ("path", Required, KString); ("private_key", Required, KString);
    ("max_tunnels", Optional, KUsize)]) d.
Proof. accepts_section. Qed.
#[local] Hint Resolve proxy_auth_accepts : accepts.
Lemma client_section_accepts : forall d, is_ok (de_client_section d) =
  conforms (KTable true [("listen", Required, KString); ("remote", Required, KString); ("address", Optional, KString);
    ("public_key", Required, KString); ("auth", Optional, KTable true [("username", Required, KString); ("password", Required, KString)]);
    ("max_connections", Optional, KUsize); ("max_in_flight_bytes", Optional, KUsize); ("upload_concurrency", Optional, KUsize)]) d.
Proof. accepts_section. Qed.

(** The resolver's options are the fields of its table that are not the
    resolver's own. *)
Lemma lookup_key_filter (P : bytes * doc -> Prop) `{forall e, Decision (P e)} k t :
  (forall d, P (k, d)) -> lookup_key k (filter P t) = lookup_key k t.
Proof.
  intros HP. induction t as [|[k' d] t IH]; [done|]. rewrite filter_cons. cbn [lookup_key]. destruct (decide (P (k', d))) as [|Hn].
  - cbn [lookup_key]. by rewrite IH.
  - rewrite IH. rewrite (decide_False (P := k' = k)); [done|]. intros ->. by apply Hn.
Qed.

Lemma NoDup_split (a b : list bytes) ks :
  (forall k, k ∈ a -> k ∉ b) ->
  NoDup (filter (fun k => k ∈ a ++ b) ks) <->
  NoDup (filter (fun k => k ∈ a) ks) /\ NoDup (filter (fun k => k ∈ b) (filter (fun k => k ∉ a) ks)).
Proof.
  intros Hd. induction ks as [|k ks IH]; [split; [by intros _; split; constructor|constructor]|].
  assert (Hin : forall x, x ∈ filter (fun k => k ∈ b) (filter (fun k => k ∉ a) ks) <-> x ∈ b /\ x ∉ a /\ x ∈ ks)
    by (intros x; by rewrite !list_elem_of_filter).
  rewrite !(filter_cons _ k). destruct (decide (k ∈ a)) as [Ha|Ha].
  - rewrite decide_True by (apply elem_of_app; by left). rewrite (decide_False (P := k ∉ a)) by (intros H; by apply H).
    rewrite !NoDup_cons, IH, !list_elem_of_filter, elem_of_app. tauto.
  - rewrite (decide_True (P := k ∉ a)) by done. rewrite filter_cons. destruct (decide (k ∈ b)) as [Hb|Hb].
    + rewrite decide_True by (apply elem_of_app; by right). rewrite !NoDup_cons, IH, Hin, list_elem_of_filter, elem_of_app. tauto.
    + rewrite decide_False by (by intros [?|?]%elem_of_app). exact IH.
Qed.

Definition dns_own : list (string * Need * Kind) := [("upstream", Required, KSocketAddr); ("tls_domain", Optional, KString)].
Definition dns_option_fields : list (string * Need * Kind) := drop 2 (match dns_schema with KTable _ fs => fs | _ => [] end).

Lemma dns_options_accepts t : is_ok (de_dns_options t) = keys_ok false dns_option_keys t && forallb (setting_ok t) dns_option_fields.
Proof.
  unfold de_dns_options. apply bind_accepts; [apply is_ok_keys|]. intros _. revert t. unfold dns_option_fields, dns_schema. cbn [drop].
  accepts_fields.
Qed.

Lemma forallb_same {A} (p q : A -> bool) l : Forall (fun x => p x = q x) l -> forallb p l = forallb q l.
Proof. induction 1 as [|x l Hx _ IH]; [done|]. cbn. by rewrite Hx, IH. Qed.

Lemma setting_ok_ext t t' f : lookup_key (str (fst (fst f))) t = lookup_key (str (fst (fst f))) t' -> setting_ok t f = setting_ok t' f.
Proof. destruct f as [[name need] kind]. cbn [fst]. unfold setting_ok. by intros ->. Qed.

Lemma dns_accepts d : is_ok (de_dns d) = conforms dns_schema d.
Proof.
  set (rest := fun t : Table => filter (fun e => fst e <> str "upstream" /\ fst e <> str "tls_domain") t).
  unfold de_dns. rewrite (is_ok_struct _ _ _ _ (fun t => forallb (setting_ok t) dns_own &&
    (keys_ok false dns_option_keys (rest t) && forallb (setting_ok (rest t)) dns_option_fields))).
  2:{ intros t. cbn [forallb dns_own]. rewrite andb_true_r, <- andb_assoc.
      apply bind_accepts; [eauto with accepts|intros up]. apply bind_accepts; [eauto with accepts|intros tls].
      rewrite (is_ok_bind _ _ true) by done. rewrite andb_true_r. apply dns_options_accepts. }
  cbn [conforms dns_schema]. destruct (as_table d) as [t|]; [|done].
  change (forallb _ (("upstream", Required, KSocketAddr) :: ?l)) with (forallb (setting_ok t) (dns_own ++ dns_option_fields)).
  rewrite forallb_app.
  assert (Hset : forallb (setting_ok (rest t)) dns_option_fields = forallb (setting_ok t) dns_option_fields).
  { apply forallb_same. repeat (constructor; [apply setting_ok_ext, lookup_key_filter; by intros d'|]). constructor. }
  rewrite Hset. clear Hset.
  assert (Hkeys : keys_ok false (map (fun f => fst (fst f)) (dns_own ++ dns_option_fields)) t =
    keys_ok false ["upstream"; "tls_domain"] t && keys_ok false dns_option_keys (rest t)).
  { unfold keys_ok. cbn [negb orb andb]. rewrite <- bool_decide_and. apply bool_decide_ext.
    change (map str (map _ (dns_own ++ dns_option_fields))) with (map str ["upstream"; "tls_domain"] ++ map str dns_option_keys).
    rewrite NoDup_split by (intros k Hk Hk'; set_solver).
    assert (Hr : map fst (rest t) = filter (fun k => k ∉ map str ["upstream"; "tls_domain"]) (map fst t)); [|by rewrite Hr].
    unfold rest. induction t as [|[k x] t IH]; [done|]. cbn [map fst]. rewrite !filter_cons. cbn [fst].
    destruct (decide (k <> str "upstream" /\ k <> str "tls_domain")) as [Hk|Hk].
    - rewrite decide_True by set_solver. cbn [map fst]. by rewrite IH.
    - rewrite decide_False by set_solver. exact IH. }
  match goal with |- _ = ?b && _ => change b with (keys_ok false (map (fun f => fst (fst f)) (dns_own ++ dns_option_fields)) t) end.
  rewrite Hkeys. destruct (keys_ok false ["upstream"; "tls_domain"] t), (forallb (setting_ok t) dns_own), (keys_ok _ _ (rest t)); reflexivity.
Qed.
#[local] Hint Resolve bypass_accepts log_accepts warp_accepts auth_accepts client_auth_accepts proxy_accepts redirect_accepts
  server_section_accepts client_section_accepts dns_accepts : accepts.

Lemma server_config_accepts : forall d, is_ok (de_server_config d) = conforms server_schema d.
Proof. accepts_section. Qed.
Lemma client_config_accepts load_file : forall d, is_ok (de_client_config load_file d) = conforms client_schema d.
Proof. accepts_section. Qed.
End sections.

(** ** Specification: what the settings are *)

Section values.
Context `{D : Documents}.
Abbreviation Table := (list (bytes * doc)).

(** What a value of a document is, as a relation. *)
Definition is_string (d : doc) (s : bytes) : Prop := as_string d = Some s.
Definition is_bool (d : doc) (b : bool) : Prop := as_bool d = Some b.
Definition is_int (d : doc) (n : Z) : Prop := as_integer d = Some n.
Definition is_range (d : doc) (r : Z * Z) : Prop := exists a b, as_pair d = Some (a, b) /\ is_int a (fst r) /\ is_int b (snd r).
Definition is_array {A} (R : doc -> A -> Prop) (d : doc) (l : list A) : Prop := exists ds, as_array d = Some ds /\ Forall2 R ds l.
Definition is_encoding (d : doc) (e : EncodingType) : Prop :=
  as_variant d = Some (str match e with Json => "json" | Binary => "binary" end).
Definition is_protocol (d : doc) (p : Protocol) : Prop := as_variant d = Some (str match p with Udp => "udp" | Dot => "dot" end).
Definition is_socket_addr (d : doc) (a : SocketAddr) : Prop := exists s, is_string d s /\ socket_addr_from_str s = Some a.
Definition is_ip (d : doc) (i : IpAddr) : Prop := exists s, is_string d s /\ ip_from_str s = Some i.

(** The setting [k] of the table [d]: it is there; it is there or has a
    default; or it may be left out. *)
Definition setting (d : doc) (k : string) : option doc := t ← as_table d; lookup_key (str k) t.

Definition set_to {A} (R : doc -> A -> Prop) (d : doc) (k : string) (x : A) : Prop :=
  exists s, setting d k = Some s /\ R s x.
Definition set_or {A} (R : doc -> A -> Prop) (v : A) (d : doc) (k : string) (x : A) : Prop :=
  match setting d k with Some s => R s x | None => x = v end.
Definition set_opt {A} (R : doc -> A -> Prop) (d : doc) (k : string) (o : option A) : Prop :=
  match o with
  | Some x => exists s, setting d k = Some s /\ is_null s = false /\ R s x
  | None => forall s, setting d k = Some s -> is_null s = true
  end.

Record padding_is (d : doc) (p : PaddingConfig) : Prop := {
  pad_threshold : set_to is_int d "padding_threshold" (padding_threshold p);
  pad_range : set_to is_range d "padding_range" (padding_range p)
}.

Record stage_is (d : doc) (s : StageConfig) : Prop := {
  stage_count : set_opt is_int d "count" (count s);
  stage_count_range : set_opt is_range d "count_range" (count_range s);
  stage_threshold : set_to is_int d "padding_threshold" (stage_padding_threshold s);
  stage_range : set_to is_range d "padding_range" (stage_padding_range s)
}.

Record traffic_is (d : doc) (t : TrafficConfig) : Prop := {
  traffic_global : set_to padding_is d "global" (global t);
  traffic_stages : set_or (is_array stage_is) [] d "stages" (stage_configs t);
  traffic_encoding : set_or is_encoding Binary d "encoding_type" (encoding_type t);
  traffic_max_download : set_opt is_int d "max_download_bytes" (max_download_bytes t)
}.

Record log_is (d : doc) (l : LogConfig) : Prop := {
  log_file : set_opt is_string d "file_path" (lg_file_path l);
  log_level : set_or is_string (str "info") d "level" (lg_level l);
  log_backups : set_or is_int 7 d "max_backups" (lg_max_backups l)
}.

Record dns_is (d : doc) (c : DnsConfig) : Prop := {
  dns_is_upstream : set_to is_socket_addr d "upstream" (dns_upstream c);
  dns_is_tls_domain : set_opt is_string d "tls_domain" (tls_domain c);
  dns_is_protocol : set_or is_protocol Udp d "protocol" (protocol (options c));
  dns_is_prefer_ipv6 : set_or is_bool false d "prefer_ipv6" (prefer_ipv6 (options c));
  dns_is_cache_size : set_or is_int 1024 d "cache_size" (cache_size (options c));
  dns_is_client_subnet : set_opt is_ip d "client_subnet" (client_subnet (options c));
  dns_is_min_ttl : set_or is_int 30 d "min_ttl" (min_ttl (options c));
  dns_is_max_ttl : set_or is_int 3600 d "max_ttl" (max_ttl (options c));
  dns_is_swr_ttl : set_or is_int 3600 d "swr_ttl" (swr_ttl (options c));
  dns_is_empty_ttl : set_or is_int 300 d "empty_ttl" (empty_ttl (options c));
  dns_is_delay : set_or is_int 250 d "happy_eyeballs_delay_ms" (happy_eyeballs_delay_ms (options c));
  dns_is_queries : set_or is_int 1024 d "max_concurrent_queries" (max_concurrent_queries (options c))
}.

Record warp_is (d : doc) (w : WarpSection) : Prop := {
  warp_enabled : set_or is_bool true d "enabled" (ws_enabled w);
  warp_config_path : set_opt is_string d "config_path" (ws_config_path w);
  warp_endpoint : set_opt is_string d "endpoint" (ws_endpoint w);
  warp_endpoint_v6 : set_opt is_string d "endpoint_v6" (ws_endpoint_v6 w);
  warp_port : set_opt is_int d "port" (ws_port w);
  warp_sni : set_opt is_string d "sni" (ws_sni w);
  warp_connect_timeout : set_opt is_int d "connect_timeout_secs" (ws_connect_timeout_secs w);
  warp_keepalive : set_opt is_int d "keepalive_secs" (ws_keepalive_secs w);
  warp_idle_timeout : set_opt is_int d "idle_timeout_secs" (ws_idle_timeout_secs w);
  warp_register_model : set_opt is_string d "register_model" (ws_register_model w);
  warp_register_locale : set_opt is_string d "register_locale" (ws_register_locale w);
  warp_insecure : set_or is_bool false d "insecure_skip_verify" (ws_insecure_skip_verify w);
  warp_bypass_private : set_or is_bool true d "bypass_private" (ws_bypass_private w);
  warp_bypass_cidrs : set_or (is_array is_string) [] d "bypass_cidrs" (ws_bypass_cidrs w);
  warp_bypass_suffixes : set_or (is_array is_string) [] d "bypass_suffixes" (ws_bypass_suffixes w)
}.

Record proxy_auth_is (d : doc) (a : ClientProxyAuth) : Prop := {
  auth_username : set_to is_string d "username" (username a);
  auth_password : set_to is_string d "password" (password a)
}.

Record client_section_is (d : doc) (c : ClientSection) : Prop := {
  client_listen : set_to is_string d "listen" (cl_listen c);
  client_remote : set_to is_string d "remote" (cl_remote c);
  client_address : set_opt is_string d "address" (cl_address c);
  client_public_key : set_to is_string d "public_key" (cl_public_key c);
  client_auth : set_opt proxy_auth_is d "auth" (cl_auth c);
  client_max_connections : set_opt is_int d "max_connections" (cl_max_connections c);
  client_max_in_flight : set_opt is_int d "max_in_flight_bytes" (cl_max_in_flight_bytes c);
  client_concurrency : set_opt is_int d "upload_concurrency" (cl_upload_concurrency c)
}.

Record redirect_is (d : doc) (r : RedirectSection) : Prop := {
  redirect_listen : set_to is_string d "listen" (rd_listen r);
  redirect_target : set_to is_string d "target" (rd_target r)
}.

(** A section of one setting. *)
Definition holds {A} (R : doc -> string -> A -> Prop) (k : string) (d : doc) (x : A) : Prop := R d k x.

Record client_config_is (load_file : bytes -> Res string BypassFile) (d : doc) (c : ClientTopConfig) (log : option LogConfig) : Prop := {
  ccfg_client : set_to client_section_is d "client" (ct_client c);
  ccfg_token : set_to (holds (set_to is_string) "token") d "auth" (ct_token c);
  ccfg_traffic : set_to traffic_is d "traffic_shaping" (ct_traffic_shaping c);
  ccfg_bypass : exists paths, ct_bypass_files c = map load_file paths /\
    set_or (holds (set_or (is_array is_string) []) "bypass_files") [] d "bypass" paths;
  ccfg_redirect : set_or (is_array redirect_is) [] d "redirect" (ct_redirect c);
  ccfg_log : set_opt log_is d "log" log
}.

Record server_section_is (d : doc) (c : ServerTopConfig) : Prop := {
  server_listen : set_to is_string d "listen" (sv_listen c);
  server_path : set_to is_string d "path" (sv_path c);
  server_private_key : set_to is_string d "private_key" (sv_private_key c);
  server_max_tunnels : set_opt is_int d "max_tunnels" (sv_max_tunnels c)
}.

Record server_config_is (d : doc) (c : ServerTopConfig) (log : option LogConfig) : Prop := {
  scfg_server : set_to server_section_is d "server" c;
  scfg_secret : set_to (holds (set_to is_string) "secret") d "auth" (sv_secret c);
  scfg_proxy : set_opt (holds (set_opt is_string) "socks5") d "proxy" (sv_socks5 c);
  scfg_log : set_opt log_is d "log" log;
  scfg_dns : set_opt dns_is d "dns" (sv_dns c);
  scfg_warp : set_opt warp_is d "warp" (sv_warp c);
  scfg_traffic : set_to traffic_is d "traffic_shaping" (sv_traffic_shaping c)
}.

Record bypass_file_is (d : doc) (f : BypassFile) : Prop := {
  file_suffixes : set_or (is_array is_string) [] d "domain_suffix" (fst f);
  file_cidrs : set_or (is_array is_string) [] d "ip_cidr" (snd f)
}.

(** ** Lemmas: reading gives what is set *)

(** [de] reads what [R] says. *)
Definition reads {A} (de : doc -> Res string A) (R : doc -> A -> Prop) : Prop := forall d x, de d = Ok x -> R d x.

(** The settings of the table [d] are those of [t]. *)
Definition table_of (d : doc) (t : Table) : Prop := forall k, setting d k = lookup_key (str k) t.

Lemma struct_reads {A} deny known (fields : Table -> Res string A) R :
  (forall d t x, table_of d t -> fields t = Ok x -> R d x) -> reads (de_struct deny known fields) R.
Proof.
  intros H d x. unfold de_struct. intros (t & Ht%ok_or_Ok & Hx)%res_bind_Ok. apply res_bind_Ok in Hx as (_ & _ & Hx).
  eapply H; [|exact Hx]. intros k. unfold setting. by rewrite Ht.
Qed.

Lemma required_reads {A} k (de : doc -> Res string A) R d t x :
  table_of d t -> reads de R -> required k de t = Ok x -> set_to R d k x.
Proof.
  intros Ht Hr. unfold required, set_to. rewrite (Ht k). destruct (lookup_key (str k) t) as [s|]; [|done].
  intros H. exists s. split; [done|]. by apply Hr.
Qed.

Lemma defaulted_reads {A} k (de : doc -> Res string A) R v d t x :
  table_of d t -> reads de R -> defaulted k de v t = Ok x -> set_or R v d k x.
Proof.
  intros Ht Hr. unfold defaulted, set_or. rewrite (Ht k). destruct (lookup_key (str k) t); [apply Hr|by intros [= <-]].
Qed.

Lemma optional_reads {A} k (de : doc -> Res string A) R d t o :
  table_of d t -> reads de R -> optional k de t = Ok o -> set_opt R d k o.
Proof.
  intros Ht Hr. unfold optional, defaulted, de_option, set_opt. rewrite (Ht k).
  destruct (lookup_key (str k) t) as [s|]; [|by intros [= <-]].
  destruct (is_null s) eqn:Hn; [by intros [= <-] s' [= <-]|]. intros (x & Hx & [= <-])%res_bind_Ok. exists s.
  split; [done|]. split; [done|]. by apply Hr.
Qed.

Lemma string_reads : reads de_string is_string.
Proof. intros d s. apply ok_or_Ok. Qed.
Lemma bool_reads : reads de_bool is_bool.
Proof. intros d s. apply ok_or_Ok. Qed.
Lemma uint_reads max : reads (de_uint max) is_int.
Proof. intros d n (m & Hm%ok_or_Ok & H)%res_bind_Ok. destruct (_ && _); [|done]. by injection H as ->. Qed.
Lemma usize_reads : reads de_usize is_int.
Proof. apply uint_reads. Qed.

Lemma range_reads : reads de_range is_range.
Proof.
  intros d r ([a b] & Hp%ok_or_Ok & H)%res_bind_Ok. apply res_bind_Ok in H as (lo & Hlo%usize_reads & H).
  apply res_bind_Ok in H as (hi & Hhi%usize_reads & [= <-]). by exists a, b.
Qed.

Lemma vec_reads {A} (de : doc -> Res string A) R : reads de R -> reads (de_vec de) (is_array R).
Proof.
  intros Hr d l (ds & Hd%ok_or_Ok & H)%res_bind_Ok. exists ds. split; [done|]. clear Hd. revert l H.
  induction ds as [|x ds IH]; intros l; cbn [de_each]; [by intros [= <-]|].
  intros (y & Hy%Hr & H)%res_bind_Ok. apply res_bind_Ok in H as (ys & Hys%IH & [= <-]). by constructor.
Qed.

Lemma encoding_reads : reads de_encoding is_encoding.
Proof.
  intros d e (v & Hv%ok_or_Ok & H)%res_bind_Ok. unfold is_encoding. rewrite Hv.
  repeat (destruct (decide _) as [->|]; [by injection H as <-|]). done.
Qed.
Lemma protocol_reads : reads de_protocol is_protocol.
Proof.
  intros d e (v & Hv%ok_or_Ok & H)%res_bind_Ok. unfold is_protocol. rewrite Hv.
  repeat (destruct (decide _) as [->|]; [by injection H as <-|]). done.
Qed.
Lemma upstream_reads : reads deserialize_upstream is_socket_addr.
Proof. intros d a (s & Hs%string_reads & H%ok_or_Ok)%res_bind_Ok. by exists s. Qed.
Lemma ip_reads : reads de_ip is_ip.
Proof. intros d a (s & Hs%string_reads & H%ok_or_Ok)%res_bind_Ok. by exists s. Qed.
End values.

Create HintDb reads.
#[export] Hint Resolve string_reads bool_reads uint_reads usize_reads range_reads vec_reads encoding_reads protocol_reads
  upstream_reads ip_reads required_reads defaulted_reads optional_reads : reads.

(** A section setting by setting; [H] is what the section reads. *)
Ltac settings H :=
  repeat (let x := fresh "x" in let E := fresh "E" in apply res_bind_Ok in H as (x & E & H));
  injection H as <-.
Ltac reads_section :=
  apply struct_reads; let H := fresh "H" in intros ? ? ? ? H; settings H; constructor;
  cbn [fst snd padding_threshold padding_range count count_range stage_padding_threshold stage_padding_range global stage_configs
    encoding_type max_download_bytes lg_file_path lg_level lg_max_backups username password rd_listen rd_target];
  eauto with reads.

Section sections_values.
Context `{D : Documents}.

Lemma padding_reads : reads de_padding padding_is.
Proof. reads_section. Qed.
Lemma stage_reads : reads de_stage stage_is.
Proof. reads_section. Qed.
#[local] Hint Resolve padding_reads stage_reads : reads.
Lemma traffic_reads : reads de_traffic traffic_is.
Proof. reads_section. Qed.
Lemma log_reads : reads de_log log_is.
Proof. reads_section. Qed.
Lemma warp_reads : reads de_warp warp_is.
Proof. reads_section. Qed.
Lemma proxy_auth_reads : reads de_proxy_auth proxy_auth_is.
Proof. reads_section. Qed.
Lemma redirect_reads : reads de_redirect redirect_is.
Proof. reads_section. Qed.
Lemma bypass_file_reads : reads de_bypass_file bypass_file_is.
Proof. reads_section. Qed.
#[local] Hint Resolve traffic_reads log_reads warp_reads proxy_auth_reads redirect_reads : reads.
Lemma client_section_reads : reads de_client_section client_section_is.
Proof. reads_section. Qed.

(** A section of one setting. *)
Lemma one_required_reads {A} k (de : doc -> Res string A) R :
  reads de R -> reads (de_struct true [k] (required k de)) (holds (set_to R) k).
Proof. intros Hr. apply struct_reads. intros d t x Ht. by apply required_reads. Qed.

Lemma proxy_reads : reads de_proxy (holds (set_opt is_string) "socks5").
Proof. apply struct_reads. intros d t x Ht. apply optional_reads; [done|apply string_reads]. Qed.

Lemma bypass_reads : reads de_bypass (holds (set_or (is_array is_string) []) "bypass_files").
Proof. apply struct_reads. intros d t x Ht. apply defaulted_reads; eauto with reads. Qed.
#[local] Hint Resolve client_section_reads one_required_reads proxy_reads bypass_reads : reads.

Lemma defaulted_same {A} t t' k (de : doc -> Res string A) v x :
  defaulted k de v t' = Ok x -> lookup_key (str k) t = lookup_key (str k) t' -> defaulted k de v t = Ok x.
Proof. unfold defaulted. by intros H ->. Qed.

(** The resolver's options are read from the table without its own two
    settings, which is no difference to any of them. *)
Lemma dns_reads : reads de_dns dns_is.
Proof.
  apply struct_reads. intros d t c Ht H. apply res_bind_Ok in H as (up & Hup & H).
  apply res_bind_Ok in H as (tls & Htls & H). apply res_bind_Ok in H as (opts & H & [= <-]).
  set (rest := filter (fun e : bytes * doc => fst e <> str "upstream" /\ fst e <> str "tls_domain") t) in H.
  assert (Hrest : forall k, str k <> str "upstream" -> str k <> str "tls_domain" -> lookup_key (str k) t = lookup_key (str k) rest)
    by (intros k H1 H2; symmetry; by apply lookup_key_filter).
  clearbody rest. unfold de_dns_options in H. cbv zeta in H. apply res_bind_Ok in H as (_ & _ & H). settings H.
  repeat match goal with E : defaulted _ _ _ rest = Ok _ |- _ => apply (defaulted_same t) in E; [|by apply Hrest] end.
  constructor; cbn [dns_upstream tls_domain options protocol prefer_ipv6 cache_size client_subnet min_ttl max_ttl swr_ttl empty_ttl
    happy_eyeballs_delay_ms max_concurrent_queries]; eauto with reads.
Qed.
#[local] Hint Resolve dns_reads : reads.

Lemma client_config_reads load_file d c log : de_client_config load_file d = Ok (c, log) -> client_config_is load_file d c log.
Proof.
  intros H. apply (struct_reads _ _ _ (fun d x => client_config_is load_file d (fst x) (snd x))) in H; [exact H|].
  clear. intros d t x Ht H. settings H. constructor; cbn [fst snd ct_client ct_token ct_traffic_shaping ct_bypass_files ct_redirect];
    eauto with reads.
Qed.

Lemma server_section_reads : reads de_server_section (fun d x =>
  forall c, (sv_listen c, sv_path c, sv_private_key c, sv_max_tunnels c) = x -> server_section_is d c).
Proof.
  apply struct_reads. intros d t x Ht H c. settings H. intros [= Hl Hp Hk Hm]. constructor; rewrite ?Hl, ?Hp, ?Hk, ?Hm; eauto with reads.
Qed.

Lemma server_config_reads d c log : de_server_config d = Ok (c, log) -> server_config_is d c log.
Proof.
  intros H. apply (struct_reads _ _ _ (fun d x => server_config_is d (fst x) (snd x))) in H; [exact H|].
  clear. intros d t x Ht H. apply res_bind_Ok in H as ([[[listen path] key] max] & Hsv & H).
  pose proof (required_reads _ _ _ _ _ _ Ht server_section_reads Hsv) as (s & Hs & Hsec). settings H.
  constructor; cbn [fst snd sv_secret sv_socks5 sv_dns sv_warp sv_traffic_shaping]; eauto with reads.
  exists s. split; [exact Hs|]. by apply Hsec.
Qed.

End sections_values.

(** ** Properties *)

(** C19: reading the files. A file is accepted exactly when it is readable, it is
    a document, and the document has the settings the tables list and, where the
    structure is strict, no others; each setting of each section, nested ones
    included, then has the value the document gives it under its name, or its
    default when the document gives none. A rule file that is read has the
    suffixes and networks its document lists. *)
Theorem config_read (T : Documents) load_file file :
  (is_ok (config_from (de_client_config load_file) file) = true <->
     exists text d, file = Ok text /\ from_text text = Some d /\ conforms client_schema d = true) /\
  (is_ok (config_from de_server_config file) = true <->
     exists text d, file = Ok text /\ from_text text = Some d /\ conforms server_schema d = true) /\
  (forall text d, file = Ok text -> from_text text = Some d ->
    (forall c log, config_from (de_client_config load_file) file = Ok (c, log) -> client_config_is load_file d c log) /\
    (forall c log, config_from de_server_config file = Ok (c, log) -> server_config_is d c log)) /\
  forall (J : Documents) read path rules, read_bypass_file J read path = Ok rules ->
    exists content d, read path = Ok content /\ from_text (Documents := J) content = Some d /\ bypass_file_is d rules.
Proof.
  assert (Hacc : forall A (de : doc -> Res string A) schema, (forall d, is_ok (de d) = conforms schema d) ->
    is_ok (config_from de file) = true <-> exists text d, file = Ok text /\ from_text text = Some d /\ conforms schema d = true).
  { intros A de schema H. unfold config_from. destruct file as [text|e|]; cbn [res_bind]; [|by split; [|intros (? & ? & ? & _)]..].
    destruct (from_text text) as [d|] eqn:Hd; cbn [ok_or res_bind].
    - rewrite H. split; [by intros Hc; exists text, d|]. intros (? & d' & [= <-] & Hd' & Hc). rewrite Hd in Hd'. by injection Hd' as <-.
    - split; [done|]. intros (? & ? & [= <-] & Hd' & _). congruence. }
  split; [apply Hacc, client_config_accepts|]. split; [apply Hacc, server_config_accepts|]. split.
  - intros text d -> Hd. unfold config_from. cbn [res_bind]. rewrite Hd. cbn [ok_or res_bind].
    split; intros c log H; [by apply client_config_reads|by apply server_config_reads].
  - intros J read path rules H. unfold read_bypass_file in H. apply res_bind_Ok in H as (content & Hc & H). apply res_bind_Ok in H as (d & Hd%ok_or_Ok & H%bypass_file_reads).
    by exists content, d.
Qed.

(** The three structures that are not strict take no notice of settings they do
    not have. *)
Lemma unknown_settings_ignored `{D : Documents} d t :
  as_table d = Some t -> Forall (fun e => fst e ∉ map str ["file_path"; "level"; "max_backups"]) t ->
  de_log d = Ok LogConfig_default.
Proof.
  intros Ht Hk. unfold de_log, de_struct. rewrite Ht. cbn [ok_or res_bind].
  assert (Hf : forall seen, fields_ok false (map str ["file_path"; "level"; "max_backups"]) seen t = Ok tt).
  { clear Ht. induction Hk as [|[k x] t' Hx _ IH]; intros seen; [done|]. cbn [fields_ok]. rewrite bool_decide_false by exact Hx. apply IH. }
  assert (Hl : forall k, k ∈ map str ["file_path"; "level"; "max_backups"] -> lookup_key k t = None).
  { intros k Hin. clear -Hk Hin. induction Hk as [|[k' x] t' Hx _ IH]; [done|]. cbn [lookup_key]. rewrite decide_False; [done|].
    intros ->. by apply Hx. }
  rewrite Hf. cbn [res_bind]. unfold defaulted. by rewrite !Hl by set_solver.
Qed.

(** ** Witnesses *)

(** Values as trees. *)
Inductive Value : Type :=
| VString (s : bytes)
| VInteger (n : Z)
| VBoolean (b : bool)
| VArray (l : list Value)
| VTable (t : list (bytes * Value)).

(** A parser that knows one text. *)
Definition value_documents (text : bytes) (v : Value) : Documents := {|
  doc := Value;
  from_text t := if decide (t = text) then Some v else None;
  as_table d := match d with VTable t => Some t | _ => None end;
  as_array d := match d with VArray l => Some l | _ => None end;
  as_pair d := match d with VArray [a; b] => Some (a, b) | _ => None end;
  as_string d := match d with VString s => Some s | _ => None end;
  as_variant d := match d with VString s => Some s | _ => None end;
  as_bool d := match d with VBoolean b => Some b | _ => None end;
  as_integer d := match d with VInteger n => Some n | _ => None end;
  is_null d := false
|}.

Definition vtable (t : list (string * Value)) : Value := VTable (map (fun e => (str (fst e), snd e)) t).
Definition vstr (s : string) : Value := VString (str s).

Definition padding_value : Value :=
  vtable [("global", vtable [("padding_range", VArray [VInteger 0; VInteger 100]); ("padding_threshold", VInteger 50)])].
Definition server_value (more : list (string * Value)) : Value :=
  vtable ([("server", vtable [("listen", vstr "127.0.0.1:3000"); ("path", vstr "/secret"); ("private_key", vstr "AAAA")]);
    ("auth", vtable [("secret", vstr "key")]); ("traffic_shaping", padding_value)] ++ more).

Definition dns_server : Value :=
  server_value [("warp", vtable [("enabled", VBoolean true); ("keepalive_secs", VInteger 20)]);
    ("dns", vtable [("upstream", vstr "9.9.9.9:53"); ("min_ttl", VInteger 60); ("swr_ttl", VInteger 10)])].

(** The values the theorem gives for a file with the resolver's and WARP's
    sections. *)
Lemma config_read_witness :
  let T := value_documents (str "[server] ...") dns_server in
  exists c log, config_from (D := T) de_server_config (Ok (str "[server] ...")) = Ok (c, log) /\ sv_path c = str "/secret" /\ log = None /\
    (exists w, sv_warp c = Some w /\ ws_keepalive_secs w = Some 20 /\ ws_idle_timeout_secs w = None) /\
    (exists r, sv_dns c = Some r /\ min_ttl (options r) = 60 /\ max_ttl (options r) = 3600 /\ swr_ttl (options r) = 10).
Proof.
  set (T := value_documents _ _). cbv zeta.
  destruct (config_read T (fun _ => Err "none"%string) (Ok (str "[server] ..."))) as (_ & [_ Hok] & Hvalues & _).
  assert (Hc : is_ok (config_from (D := T) de_server_config (Ok (str "[server] ..."))) = true).
  { apply Hok. exists (str "[server] ..."), dns_server. split; [reflexivity|]. split; vm_compute; reflexivity. }
  destruct (config_from (D := T) de_server_config _) as [[c log]| |] eqn:Hr; [|discriminate|discriminate].
  exists c, log. split; [reflexivity|].
  destruct (Hvalues (str "[server] ...") dns_server eq_refl eq_refl) as [_ Hs]. specialize (Hs c log eq_refl).
  destruct Hs as [(s & Hss & [_ (p & Hp & Hpath) _ _]) _ _ Hlog Hdns Hwarp _]. injection Hss as <-. injection Hp as <-. injection Hpath as <-.
  split; [reflexivity|]. split.
  { destruct log; [|reflexivity]. destruct Hlog as (? & Hl & _). discriminate Hl. }
  split.
  - destruct (sv_warp c) as [w|]; [|specialize (Hwarp _ eq_refl); discriminate Hwarp]. exists w. split; [reflexivity|].
    destruct Hwarp as (? & Hw & _ & [_ _ _ _ _ _ _ Hk Hi _ _ _ _ _ _]). injection Hw as <-. split.
    + destruct (ws_keepalive_secs w) as [n|]; [|specialize (Hk _ eq_refl); discriminate Hk]. destruct Hk as (? & Hk & _ & Hn).
      injection Hk as <-. injection Hn as <-. reflexivity.
    + destruct (ws_idle_timeout_secs w); [|reflexivity]. destruct Hi as (? & Hi & _). discriminate Hi.
  - destruct (sv_dns c) as [r|]; [|specialize (Hdns _ eq_refl); discriminate Hdns]. exists r. split; [reflexivity|].
    destruct Hdns as (? & Hd & _ & [_ _ _ _ _ _ Hmin Hmax Hswr _ _ _]). injection Hd as <-.
    injection Hmin as <-. injection Hswr as <-. split; [reflexivity|]. split; [exact Hmax|reflexivity].
Defined.
