(* ===== verification/Testing.v ===== *)
(** * Running the repository's unit tests

    What the translated tests share: the assertions of a test body as boolean
    combinators, and the text of the literals. A test function of the source
    is a definition of type [bool]; [unwrap] is the source's [unwrap] and
    fails the test on an error, a panic or [None]. The tests that tamper with a
    ciphertext or use a second key need a cipher that notices, an instance of
    the [Aead] laws whose tag depends on all bytes. *)

From S2P Require Import Prelude Cipher Frame Text Cookie Errors Token Crypto.

Definition unwrap {E A} (r : Res E A) (k : A -> bool) : bool :=
  match r with Ok a => k a | Err _ | Panic => false end.
Definition unwrap_some {A} (o : option A) (k : A -> bool) : bool :=
  match o with Some a => k a | None => false end.
Definition is_err {E A} (r : Res E A) : bool := match r with Err _ => true | _ => false end.
Definition is_panic {E A} (r : Res E A) : bool := match r with Panic => true | _ => false end.
Definition is_some {A} (o : option A) : bool := match o with Some _ => true | None => false end.
Definition is_none {A} (o : option A) : bool := negb (is_some o).

(** [assert!]s in sequence. *)
Definition asserts : list bool -> bool := forallb id.

Definition assert_eq {A} `{EqDecision A} (a b : A) : bool := bool_decide (a = b).
Definition assert_ne {A} `{EqDecision A} (a b : A) : bool := negb (assert_eq a b).

Definition starts_with (p l : bytes) : bool := assert_eq (ztake (zlen p) l) p.
Definition ends_with (p l : bytes) : bool := starts_with (reverse p) (reverse l).
Fixpoint contains (p l : bytes) : bool :=
  starts_with p l || match l with [] => false | _ :: l => contains p l end.

(** Lines of a request, each ended by CR LF. *)
Definition head_text (ls : list string) : bytes :=
  concat (map (fun l => str l ++ [Byte.x0d; Byte.x0a]) ls) ++ [Byte.x0d; Byte.x0a].

(** [(0..n).map(|i| (i % m) as u8)]. *)
Fixpoint counting_from (n : nat) (i m : Z) : bytes :=
  match n with O => [] | S n => zb (i mod m) :: counting_from n (i + 1) m end.
Definition counting (n m : Z) : bytes := counting_from (Z.to_nat n) 0 m.

(** ** Parameters that detect changes *)

(** The cipher masks its text; the tag holds the first bytes of the key, and
    the sum of nonce and plaintext modulo [2^16]. *)
Definition mask (b : byte) : byte := zb (Z.lxor (bz b) 165).

Definition sum_of (l : bytes) : Z := foldl (fun acc b => acc + bz b) 0 l.

Definition sum_tag (k n pt : bytes) : bytes := ztake 14 (k ++ zrep 14 Byte.x00) ++ be_bytes 2 (sum_of (n ++ pt) mod 65536).

#[export] Instance sum_aead : Aead := {|
  LessSafeKey := bytes;
  unbound_key k := if zlen k =? 32 then Some k else None;
  try_assume_unique_for_key n := if zlen n =? 12 then Some n else None;
  seal_in_place_separate_tag k n pt := Some (map mask pt, sum_tag k n pt);
  open_in_place k n buf :=
    let m := zlen buf - 16 in
    let pt := map mask (ztake m buf) in
    if (0 <=? m) && bool_decide (zdrop m buf = sum_tag k n pt) then Some (pt ++ zdrop m buf, m) else None
|}.

Lemma mask_mask b : mask (mask b) = b.
Proof. by destruct b. Qed.

Lemma map_mask_mask l : map mask (map mask l) = l.
Proof. induction l as [|b l IH]; [done|]. cbn. by rewrite mask_mask, IH. Qed.

Lemma zlen_map_mask l : zlen (map mask l) = zlen l.
Proof. unfold zlen. by rewrite length_map. Qed.

Lemma sum_tag_len k n pt : zlen (sum_tag k n pt) = 16.
Proof. unfold sum_tag. zl. Qed.

#[export] Instance sum_aead_laws : AeadLaws sum_aead.
Proof.
  split; cbn.
  - intros k ->. by eexists.
  - intros n ->. done.
  - eauto.
  - intros ? ? ? ? ? [= <- <-]. by rewrite sum_tag_len, zlen_map_mask.
  - intros k n pt ct tag [= <- <-]. exists (sum_tag k n pt).
    rewrite zlen_app, sum_tag_len, zlen_map_mask. replace (zlen pt + 16 - 16) with (zlen pt) by lia.
    rewrite zdrop_app_exact, ztake_app_exact, map_mask_mask, bool_decide_true by (by rewrite ?zlen_map_mask).
    pose proof (zlen_nonneg pt). by destruct (Z.leb_spec 0 (zlen pt)); [|lia].
  - intros k n buf buf' m H. repeat case_hyp H; simplify_eq.
    apply andb_prop in E as [?%Z.leb_le _]. unfold TAG_LEN. rewrite zlen_app, zlen_map_mask. zl.
Qed.

(** [AesFrameCipher::new] under this primitive. *)
Definition sum_aes (k : bytes) : AesFrameCipher := mkAes (P := sum_aead) k k.
Definition test_nonce : bytes := zrep 12 Byte.x01.
Definition test_draw (lo hi : Z) : Z := (lo + hi) / 2.

(** [v\[i\] ^= m], for an index in range. *)
Definition xor_at (m i : Z) (v : bytes) : bytes :=
  ztake i v ++ map (fun b => zb (Z.lxor (bz b) m)) (ztake 1 (zdrop i v)) ++ zdrop (i + 1) v.
Definition flip : Z -> bytes -> bytes := xor_at 255.

(** A base64 decoder that refuses foreign characters and impossible lengths. *)
Definition letter64 (b : byte) : bool :=
  is_digit b || in_range 65 90 b || in_range 97 122 b || bool_decide (b = Byte.x2d) || bool_decide (b = Byte.x5f).

#[export] Instance strict_base64 : Base64 := {|
  b64_encode := b64_encode (Base64 := toy_base64);
  b64_decode t := if forallb letter64 t && negb (zlen t mod 4 =? 1) then b64_decode (Base64 := toy_base64) t else None
|}.

Lemma letter64_text b : Toy64.text64 b -> letter64 b = true.
Proof.
  unfold Toy64.text64, letter64. rewrite !orb_true_iff, !bool_decide_eq_true. tauto.
Qed.

#[export] Instance strict_base64_laws : Base64Laws strict_base64.
Proof.
  split; [|apply (b64_len (B := toy_base64))|apply (b64_text (B := toy_base64))].
  intros d. change (b64_encode d) with (b64_encode (Base64 := toy_base64) d). unfold b64_decode at 1, strict_base64.
  assert (Ht : forallb letter64 (b64_encode (Base64 := toy_base64) d) = true).
  { apply forallb_forall. intros b Hb%list_elem_of_In. apply letter64_text.
    pose proof (b64_text (B := toy_base64) d) as Hf. rewrite Forall_forall in Hf. by apply Hf. }
  rewrite Ht. cbn [andb].
  assert (Hm : zlen (b64_encode (Base64 := toy_base64) d) mod 4 <> 1).
  { rewrite (b64_len (B := toy_base64)). pose proof (Z.div_mod (zlen d) 3 ltac:(lia)). pose proof (Z.mod_pos_bound (zlen d) 3 ltac:(lia)).
    set (q := zlen d / 3) in *. set (r := zlen d mod 3) in *.
    replace ((4 * zlen d + 2) / 3) with (q * 4 + (4 * r + 2) / 3) by (rewrite H at 1; replace (4 * (3 * q + r) + 2) with (4 * r + 2 + q * 4 * 3) by lia; rewrite Z.div_add by lia; lia).
    rewrite Z.add_comm, Z.mod_add by lia. assert (r = 0 \/ r = 1 \/ r = 2) as [-> | [-> | ->]] by lia; vm_compute; congruence. }
  apply Z.eqb_neq in Hm. rewrite Hm. apply (b64_round (B := toy_base64)).
Qed.

(** Key material whose bytes all depend on all of the input; an ML-KEM that
    checks the length of a ciphertext. *)
#[export] Instance sum_crypto : PqCrypto := {|
  hkdf_expand salt ikm info n := map zb (map (fun i => (sum_of (default [] salt ++ ikm ++ info) + i) mod 256) (seqZ 0 n));
  x25519_public := x25519_public (PqCrypto := toy_crypto);
  x25519 := x25519 (PqCrypto := toy_crypto);
  mlkem_generate := mlkem_generate (PqCrypto := toy_crypto);
  mlkem_import := mlkem_import (PqCrypto := toy_crypto);
  mlkem_encaps := mlkem_encaps (PqCrypto := toy_crypto);
  mlkem_decaps sk ct := if zlen ct =? 1088 then mlkem_decaps (PqCrypto := toy_crypto) sk ct else None
|}.

#[export] Instance sum_crypto_laws : PqCryptoLaws sum_crypto.
Proof.
  destruct toy_crypto_laws as [_ Hpub Hagree Htot Hpk Hkem]. split; [|done..|].
  - intros salt ikm info n Hn. unfold hkdf_expand, sum_crypto, zlen. rewrite !length_map, length_seqZ. lia.
  - intros seed sk pk r Hg. destruct (Hkem seed sk pk r Hg) as (ct & ss & He & Hl & Hd). exists ct, ss.
    split; [exact He|]. split; [exact Hl|]. unfold mlkem_decaps at 1, sum_crypto. by rewrite Hl.
Qed.
