(* ===== verification/TestsShaper.v ===== *)
(** * The unit tests of ciphers, frames, shaper, decoder and buffer pool

    The tests of [src/crypto/cipher.rs], [src/shaper/mod.rs],
    [src/shaper/bufpool.rs] and [src/server/stream.rs], run on the model with
    the small base122 of [Frame] and, where a test tampers with a frame, the
    cipher of [Testing]; the others, which seal tens of kilobytes, use the
    cheaper one of [Cipher]. A reader that is a cursor is a script with all
    its bytes and the end; a stream of chunks is the decoder's script. Tests
    about addresses and capacities of frame buffers, and about the random
    generator of the jitter table, have no counterpart. *)

From S2P Require Import Prelude Cipher Frame Shaper Decoder Pool Testing.

Module cipher_tests.

Definition random_key (seed : Z) : bytes := zrep 32 (zb seed).

Definition encrypt_decrypt_roundtrip : bool :=
  let key := random_key 9 in
  let plain := str "hello world test frame data" in
  unwrap (encrypt_bytes test_nonce key plain) (fun ct =>
  unwrap (decrypt_bytes key ct) (fun pt =>
  unwrap (AesFrameCipher_new key) (fun cipher =>
  unwrap (aes_encrypt cipher test_nonce plain) (fun frame_ct =>
  unwrap (aes_decrypt cipher frame_ct) (fun frame_pt => asserts
    [assert_eq pt plain; assert_eq frame_pt plain]))))).

Definition decrypt_garbage_fails : bool := is_err (decrypt_bytes (random_key 9) (str "too-short")).

Definition tampered_ciphertext_fails_decryption : bool :=
  unwrap (AesFrameCipher_new (random_key 9)) (fun cipher =>
  unwrap (aes_encrypt cipher test_nonce (str "authenticated data")) (fun ct =>
    let mid := zlen ct / 2 in
    is_err (aes_decrypt cipher (flip mid ct)))).

Definition wrong_key_fails_decryption : bool :=
  let key1 := random_key 9 in
  let key2 := random_key 10 in
  unwrap (AesFrameCipher_new key1) (fun c1 =>
  unwrap (AesFrameCipher_new key2) (fun c2 =>
  unwrap (aes_encrypt c1 test_nonce (str "secret data")) (fun ct =>
    is_err (aes_decrypt c2 ct)))).

Definition encrypt_into_matches_encrypt : bool :=
  let plain := str "in-place frame payload" in
  unwrap (AesFrameCipher_new (random_key 9)) (fun cipher =>
  unwrap (aes_encrypt_into cipher test_nonce plain []) (fun out =>
  unwrap (aes_decrypt_into cipher out []) (fun pt => asserts
    [assert_eq (zlen out) (NONCE_LEN + zlen plain + TAG_LEN); assert_eq pt plain]))).

Example cipher_tests_pass : asserts
  [encrypt_decrypt_roundtrip; decrypt_garbage_fails; tampered_ciphertext_fails_decryption; wrong_key_fails_decryption;
   encrypt_into_matches_encrypt] = true.
Proof. vm_compute. reflexivity. Qed.
End cipher_tests.

Module shaper_tests.

Definition test_config : TrafficConfig := {|
  encoding_type := Binary;
  global := mkPadding 16384 (0, 16);
  stage_configs := [];
  max_download_bytes := None
|}.

(** A [while] loop over [decode_frame] until the buffer is empty: the frames'
    numbers and data. *)
Fixpoint decode_all {C : FrameCipher} (fuel : nat) (src json_scratch : bytes) (enc : EncodingType) : option (list (Z * bytes)) :=
  match fuel with
  | O => None
  | S fuel =>
      if zlen src =? 0 then Some []
      else
        match decode_frame src json_scratch enc with
        | (Ok (Some frame), src, json_scratch) =>
            let '(seq, data, json_scratch) := frame_data frame json_scratch in
            rest ← decode_all fuel src json_scratch enc; Some ((seq, data) :: rest)
        | _ => None
        end
  end.

#[local] Instance test_cipher : FrameCipher := aes_frame_cipher toy_aes.

(** A test's call of [encode_frame]. *)
Definition frame_of (data : bytes) (seq threshold : Z) (range : Z * Z) (enc : EncodingType) : Res IoError bytes :=
  encode_frame test_nonce test_draw data seq threshold range enc.

Definition encode_decode_roundtrip_binary : bool :=
  let data := str "hello proxy frame" in
  let config := test_config in
  unwrap (frame_of data 7 (padding_threshold (global config)) (padding_range (global config)) (encoding_type config)) (fun frame =>
    let '(r, buf) := decode_from_buffer frame Binary in
    unwrap r (fun o => unwrap_some o (fun '(seq, decoded) => asserts
      [assert_eq seq 7; assert_eq decoded data; assert_eq buf []]))).

Definition decode_incomplete_returns_none : bool :=
  let buf := be_bytes 2 100 ++ [Byte.xaa] in
  let '(result, _, _) := decode_frame buf [] Binary in
  unwrap result is_none.

Definition decode_too_long_rejected : bool :=
  let buf := be_bytes 2 (as_u16 (MAX_RAW_PAYLOAD + 1000)) ++ zrep (MAX_RAW_PAYLOAD + 1000) Byte.x00 in
  let '(result, _, _) := decode_frame buf [] Binary in
  is_err result.

Definition extract_frame_valid : bool :=
  let payload := zrep 8 Byte.x00 ++ be_bytes 2 3 ++ str "abc" in
  unwrap (extract_frame_range payload) (fun '(seq, start, end_) => asserts
    [assert_eq seq 0; assert_eq (slice start end_ payload) (str "abc")]).

Definition extract_frame_too_short : bool := is_err (extract_frame_range (str "short")).

(** A JSON line with one field. *)
Definition quoted (b : bytes) : bytes := [Byte.x22] ++ b ++ [Byte.x22].
Definition json_line (field : string) (value : bytes) : bytes :=
  str "{" ++ quoted (str field) ++ str ":" ++ quoted value ++ str "}".

Definition parse_json_payload_valid : bool :=
  let enc := encode_into (str "hello") [] in
  unwrap (parse_json_payload_into (json_line "data" enc) []) (fun '(out, n) => assert_eq (ztake n out) (str "hello")).

Definition parse_json_payload_missing_field : bool :=
  is_err (parse_json_payload_into (json_line "other" (str "x")) []).

Definition messages : list bytes := [str "first"; str "second"; str "third"].

Definition decode_frame_roundtrips_multiple_frames : bool :=
  let frames := imap (fun i msg => frame_of msg (Z.of_nat i) 16384 (0, 0) Binary) messages in
  forallb is_ok frames &&
  let combined := concat (map (fun f => match f with Ok f => f | _ => [] end) frames) in
  unwrap_some (decode_all 4 combined [] Binary) (fun got =>
    assert_eq got (imap (fun i msg => (Z.of_nat i, msg)) messages)).

Definition decode_frame_json_roundtrip : bool :=
  unwrap (frame_of (str "json payload") 3 16384 (0, 0) Json) (fun frame =>
    let '(r, src, json_scratch) := decode_frame frame [] Json in
    unwrap r (fun o =>
      match o with
      | Some (InJsonScratch seq start end_) => asserts
          [assert_eq seq 3; assert_eq (slice start end_ json_scratch) (str "json payload"); assert_eq src []]
      | _ => false
      end)).

(** A cursor as the shaper's reader, one environment per poll and a jitter
    table of a single value. *)
Definition cursor_of (data : bytes) : list ReadEvent := [RdData data; RdData []].
Definition table (_ : Z) : Z := 5.
Definition env (elapsed : bool) : PollEnv := mkEnv test_nonce test_draw 100 (fun _ => elapsed).

Definition shaper_over (rd : list ReadEvent) (config : TrafficConfig) (start_seq : Z) : TrafficShaper :=
  with_seq rd (resolve config) start_seq 0 0.

(** Frames until the end of the stream: their numbers and the output. *)
Definition seal_all (shaper : TrafficShaper) : option (list Z * bytes) :=
  match run_shaper table (replicate 12 (env false)) shaper [] with
  | Some (seqs, out, true, _) => Some (seqs, out)
  | _ => None
  end.

Definition json_config : TrafficConfig := mkTraffic (global test_config) [] Json None.

Fixpoint line_lengths (fuel : nat) (src : bytes) : option (list Z) :=
  match fuel with
  | O => None
  | S fuel =>
      if zlen src =? 0 then Some []
      else
        newline ← memchr Byte.x0a src;
        let line_len := newline + 1 in
        rest ← line_lengths fuel (zdrop line_len src); Some (line_len :: rest)
  end.

Definition json_frames_fit_single_h2_data_frame : bool :=
  let data := zrep (64 * 1024) Byte.xaa in
  unwrap_some (seal_all (shaper_over (cursor_of data) json_config 0)) (fun '(_, out) =>
  unwrap_some (line_lengths 12 out) (fun lens => asserts
    [forallb (fun line_len => line_len <=? 16384) lens;
     4 <=? zlen lens;
     unwrap_some (decode_all 12 out [] Json) (fun got => assert_eq (concat (map snd got)) data)])).

Definition poll_seal_into_produces_valid_frames : bool :=
  let data := zrep 40000 Byte.xab in
  unwrap_some (seal_all (shaper_over (cursor_of data) test_config 0)) (fun '(seqs, out) => asserts
    [assert_eq seqs [0; 1; 2];
     unwrap_some (decode_all 12 out [] Binary) (fun got => asserts
       [assert_eq (map fst got) seqs; assert_eq (concat (map snd got)) data])]).

(** Items of [poll_next] until the stream ends. *)
Fixpoint next_all (fuel : nat) (shaper : TrafficShaper) : option (list (Z * bytes)) :=
  match fuel with
  | O => None
  | S fuel =>
      match poll_next table (env false) shaper with
      | Some (Ready (Ok (Some item)), shaper) => rest ← next_all fuel shaper; Some (item :: rest)
      | Some (Ready (Ok None), _) => Some []
      | _ => None
      end
  end.

Definition poll_seal_into_cipher_matches_stream_output : bool :=
  let data := zrep 33000 Byte.x5c in
  unwrap_some (next_all 12 (shaper_over (cursor_of data) test_config 0)) (fun items =>
  unwrap_some (mapM (fun '(_, bytes) => decode_all 2 bytes [] Binary) items) (fun frames =>
  unwrap_some (seal_all (shaper_over (cursor_of data) test_config 0)) (fun '(seqs, out) =>
  unwrap_some (decode_all 12 out [] Binary) (fun sealed =>
    let stream_payload := concat (map snd (concat frames)) in
    let seal_payload := concat (map snd sealed) in asserts
    [assert_eq seqs (map fst items); assert_eq seal_payload stream_payload; assert_eq seal_payload data])))).

(** The trait's provided methods, over a random key. *)
Definition seal_in_place_default_impl_produces_valid_frames : bool :=
  let vec_cipher := boxed_cipher (mkAes (P := toy_aead) (zrep 32 (zb 77)) (zrep 32 (zb 77))) in
  let data := zrep 20000 Byte.x3d in
  match run_shaper (C := vec_cipher) table (replicate 12 (env false)) (shaper_over (cursor_of data) test_config 0) [] with
  | Some (seqs, out, true, _) =>
      unwrap_some (decode_all (C := vec_cipher) 12 out [] Binary) (fun got => asserts
        [assert_eq (map fst got) seqs; assert_eq (concat (map snd got)) data])
  | _ => false
  end.

Definition encode_frame_rejects_oversized_payload : bool :=
  let big := zrep (MAX_RAW_PAYLOAD + 1) Byte.x00 in asserts
  [is_err (frame_of big 0 0 (0, 0) Binary); is_err (frame_of big 0 0 (0, 0) Json)].

Definition encode_frame_json_padding_stays_within_line_limit : bool :=
  let raw := zrep 1000 Byte.x42 in
  unwrap (frame_of raw 0 100000 (0, 100000) Json) (fun frame =>
  unwrap_some (memchr Byte.x0a frame) (fun line_len => line_len <=? MAX_JSON_LINE_LEN)).

Definition poll_seal_into_eof_returns_none : bool :=
  match poll_fill_and_seal table (env false) (shaper_over [RdData []] test_config 0) [] with
  | Some (Ready (Ok None), _) => true
  | _ => false
  end.

Definition poll_seal_into_respects_start_seq : bool :=
  match poll_fill_and_seal table (env false) (shaper_over (cursor_of (zrep 1000 Byte.x55)) test_config 42) [] with
  | Some (Ready (Ok (Some (seq, out))), _) => asserts
      [assert_eq seq 42;
       unwrap_some (decode_all 2 out [] Binary) (fun got => assert_eq (map fst got) [42])]
  | _ => false
  end.

Definition poll_seal_into_pending_then_data : bool :=
  let shaper := shaper_over [RdPending; RdData (zrep READ_HIGH_WATER Byte.x33)] test_config 0 in
  match poll_fill_and_seal table (env false) shaper [] with
  | Some (Pending, shaper) =>
      match poll_fill_and_seal table (env false) shaper [] with
      | Some (Ready (Ok (Some (_, out))), _) => negb (zlen out =? 0)
      | _ => false
      end
  | _ => false
  end.

Definition stages_config : TrafficConfig := {|
  global := mkPadding 10000 (0, 0);
  stage_configs :=
    [mkStageConfig (Some 1) None 10000 (100, 100);
     mkStageConfig None (Some (2, 3)) 10000 (200, 200)];
  encoding_type := Binary;
  max_download_bytes := None
|}.

(** The bytes of a round, then a poll that waits for the flush timer. *)
Fixpoint sizes_of_rounds (rounds : nat) (shaper : TrafficShaper) : option (list Z) :=
  match rounds with
  | O => Some []
  | S rounds =>
      match poll_fill_and_seal table (env false) shaper [] with
      | Some (Pending, shaper) =>
          match poll_fill_and_seal table (env true) shaper [] with
          | Some (Ready (Ok (Some (_, out))), shaper) => rest ← sizes_of_rounds rounds shaper; Some (zlen out :: rest)
          | _ => None
          end
      | _ => None
      end
  end.

Definition stages_progress_and_fall_back_to_global : bool :=
  let rounds := concat (replicate 4 [RdData (zrep 1000 Byte.x44); RdPending; RdPending]) in
  let overhead := 2 + NONCE_LEN + HEADER_LEN + TAG_LEN in
  unwrap_some (sizes_of_rounds 4 (shaper_over rounds stages_config 0)) (fun sizes =>
    assert_eq sizes [overhead + 1000 + 100; overhead + 1000 + 200; overhead + 1000 + 200; overhead + 1000]).

Definition decode_frame_json_rejects_malformed_lines : bool :=
  let rejected src := is_err (fst (fst (decode_frame src [] Json))) in
  let open_data := str "{" ++ quoted (str "data") ++ str ":" ++ [Byte.x22] in
  let long := open_data ++ zrep (MAX_JSON_LINE_LEN + 2 - zlen open_data) Byte.x78 in
  let unclosed := open_data ++ str "abc" ++ [Byte.x0a] in asserts
  [rejected [Byte.x0a]; rejected long; rejected unclosed].

Example shaper_tests_pass : asserts
  [encode_decode_roundtrip_binary; decode_incomplete_returns_none; decode_too_long_rejected; extract_frame_valid;
   extract_frame_too_short; parse_json_payload_valid; parse_json_payload_missing_field; decode_frame_roundtrips_multiple_frames;
   decode_frame_json_roundtrip; encode_frame_rejects_oversized_payload; encode_frame_json_padding_stays_within_line_limit;
   decode_frame_json_rejects_malformed_lines] = true.
Proof. vm_compute. reflexivity. Qed.

Example polling_tests_pass : asserts
  [json_frames_fit_single_h2_data_frame; poll_seal_into_produces_valid_frames; poll_seal_into_cipher_matches_stream_output;
   seal_in_place_default_impl_produces_valid_frames; poll_seal_into_eof_returns_none; poll_seal_into_respects_start_seq;
   poll_seal_into_pending_then_data; stages_progress_and_fall_back_to_global] = true.
Proof. vm_compute. reflexivity. Qed.
End shaper_tests.

Module decoder_tests.

#[local] Instance test_cipher : FrameCipher := aes_frame_cipher (sum_aes (zrep 32 (zb 7))).

(** [make_frame]; its [unwrap] is the test's. *)
Definition make_frame_as (enc : EncodingType) (data : bytes) (seq : Z) (k : bytes -> bool) : bool :=
  unwrap (encode_frame test_nonce test_draw data seq 16384 (0, 0) enc) k.
Definition make_frame : bytes -> Z -> (bytes -> bool) -> bool := make_frame_as Binary.

Definition decoder_of (byte_stream : list BodyEvent) : FrameDecoder := FrameDecoder_new byte_stream Binary 18781.

(** [decoder.next().await] of a stream that is never pending. *)
Definition next (decoder : FrameDecoder) (k : option (Res IoError (Z * bytes)) -> FrameDecoder -> bool) : bool :=
  match decoder_poll_next decoder with
  | Some (Ready item, decoder) => k item decoder
  | _ => false
  end.

Definition next_item (decoder : FrameDecoder) (k : Z -> bytes -> FrameDecoder -> bool) : bool :=
  next decoder (fun item decoder => unwrap_some item (fun r => unwrap r (fun '(seq, data) => k seq data decoder))).

(** [unwrap().unwrap_err()]. *)
Definition next_err (decoder : FrameDecoder) (k : IoError -> bool) : bool :=
  next decoder (fun item _ => match item with Some (Err e) => k e | _ => false end).

Definition next_none (decoder : FrameDecoder) : bool := next decoder (fun item _ => is_none item).

Definition single_frame_decoded : bool :=
  make_frame (str "hello") 0 (fun frame =>
    next_item (decoder_of [Chunk frame]) (fun seq data decoder => asserts
      [assert_eq seq 0; assert_eq data (str "hello"); next_none decoder])).

Definition partial_then_complete : bool :=
  make_frame (str "world") 1 (fun frame =>
    let split_at := zlen frame / 2 in
    next_item (decoder_of [Chunk (slice 0 split_at frame); Chunk (zdrop split_at frame)]) (fun seq data decoder => asserts
      [assert_eq seq 1; assert_eq data (str "world"); next_none decoder])).

Definition multiple_frames_in_one_chunk : bool :=
  make_frame (str "first") 0 (fun f0 => make_frame (str "second") 1 (fun f1 =>
    next_item (decoder_of [Chunk (f0 ++ f1)]) (fun seq0 d0 decoder =>
    next_item decoder (fun seq1 d1 decoder => asserts
      [assert_eq seq0 0; assert_eq d0 (str "first"); assert_eq seq1 1; assert_eq d1 (str "second"); next_none decoder])))).

Definition trailing_data_errors : bool := next_err (decoder_of [Chunk (str "abcde")]) (fun _ => true).

Definition empty_stream_yields_none : bool := next_none (decoder_of []).

Definition decode_error_propagates : bool :=
  next_err (decoder_of [Chunk (be_bytes 2 50000 ++ zrep 50000 Byte.x00)]) (fun _ => true).

Definition max_buf_size_enforced : bool :=
  let chunk := be_bytes 2 1000 ++ zrep 200 Byte.x00 in
  next_err (FrameDecoder_new [Chunk chunk; Chunk chunk; Chunk chunk] Binary 512) (fun e =>
    contains (str "buffer exceeded") (str (msg e))).

Definition encrypted_frames_decoded_with_scratch : bool :=
  make_frame (str "encrypted hello") 0 (fun frame =>
    next_item (decoder_of [Chunk frame]) (fun seq data _ => asserts
      [assert_eq seq 0; assert_eq data (str "encrypted hello")])).

Definition tampered_frame_fails_decoding : bool :=
  make_frame (str "authentic") 0 (fun frame =>
    let mid := zlen frame / 2 in
    next_err (decoder_of [Chunk (flip mid frame)]) (fun _ => true)).

Definition json_encoded_frames_decoded : bool :=
  let data := str "json payload data" in
  make_frame_as Json data 7 (fun frame =>
    next_item (FrameDecoder_new [Chunk frame] Json 18781) (fun seq decoded decoder => asserts
      [assert_eq seq 7; assert_eq decoded data; next_none decoder])).

Definition trailing_partial_frame_after_eos_errors : bool :=
  make_frame (str "complete") 0 (fun frame =>
    let full := frame ++ map zb [1; 2] in
    next_item (decoder_of [Chunk full]) (fun seq data decoder => asserts
      [assert_eq seq 0; assert_eq data (str "complete");
       next_err decoder (fun err => assert_eq (kind err) InvalidData)])).

Definition inner_stream_error_propagates : bool :=
  next_err (decoder_of [BodyError (mkIoError BrokenPipe "upstream read failed")]) (fun err =>
    assert_eq (kind err) BrokenPipe).

Example decoder_tests_pass : asserts
  [single_frame_decoded; partial_then_complete; multiple_frames_in_one_chunk; trailing_data_errors; empty_stream_yields_none;
   decode_error_propagates; max_buf_size_enforced; encrypted_frames_decoded_with_scratch; tampered_frame_fails_decoding;
   json_encoded_frames_decoded; trailing_partial_frame_after_eos_errors; inner_stream_error_propagates] = true.
Proof. vm_compute. reflexivity. Qed.
End decoder_tests.

Module pool_tests.

(** A buffer is its capacity; the tests give different ones to the buffers
    they tell apart. A fresh buffer has the capacity asked for. *)
Definition take_buf (min_capacity : Z) (free : Free) : Z * Free := pool_take id min_capacity free.

Definition reuse_returns_the_same_allocation : bool :=
  let '(first, free) := take_buf (16 * 1024) Free_new in
  let '(second, _) := take_buf (8 * 1024) (pool_put first free) in
  asserts [second =? first; 16 * 1024 <=? second].

Definition take_prefers_the_smallest_fitting_buffer : bool :=
  let '(small, free) := take_buf (4 * 1024) Free_new in
  let '(large, free) := take_buf (1024 * 1024) free in
  let '(picked, _) := take_buf (2 * 1024) (pool_put small (pool_put large free)) in
  picked =? small.

Definition oversized_requests_allocate_fresh : bool := MAX_BUFFER <? fst (take_buf (MAX_BUFFER + 1) Free_new).

(** The pool holds nothing that could be given back. *)
Definition oversized_buffers_are_not_pooled : bool := assert_eq (bufs (pool_put (MAX_BUFFER + 1) Free_new)) [].

Example pool_tests_pass : asserts
  [reuse_returns_the_same_allocation; take_prefers_the_smallest_fitting_buffer; oversized_requests_allocate_fresh;
   oversized_buffers_are_not_pooled] = true.
Proof. vm_compute. reflexivity. Qed.
End pool_tests.
