(* ===== verification/TestsClient.v ===== *)
(** * The client's unit tests

    The tests of [src/bypass/mod.rs], [src/client/proxy.rs],
    [src/client/redirect.rs], [src/client/state.rs], [src/client/utils.rs],
    [src/client/mod.rs] and [src/client/actor/connection.rs], run on the model. The parsers of request heads
    and URLs, the transducer and the network table are the small instances of
    their files. *)

From S2P Require Import Prelude Cipher Frame Shaper Decoder Upstream Text Cookie Token Crypto UploadLoop Net Bypass Proxy Connection Handshake Session Pin Setup Testing.

Module bypass_tests.

Definition make_rules (domains cidrs : list string) : Res string BypassRules :=
  let b := foldl (fun b d => add_domain b (str d)) BypassRulesBuilder_new domains in
  let? b := add_cidrs (map str cidrs) b in
  build b.

Definition ip (s : string) (k : IpAddr -> bool) : bool := unwrap_some (ip_from_str (str s)) k.

Definition domain_exact_match : bool :=
  unwrap (make_rules ["example.com"%string] []) (fun r => asserts
    [match_domain r (str "example.com");
     match_domain r (str "sub.example.com");
     match_domain r (str "deep.sub.example.com");
     negb (match_domain r (str "notexample.com"));
     negb (match_domain r (str "com"))]).

Definition domain_tld_wildcard : bool :=
  unwrap (make_rules ["com"%string] []) (fun r => asserts
    [match_domain r (str "anything.com");
     match_domain r (str "a.b.c.com");
     negb (match_domain r (str "anything.net"))]).

Definition domain_case_insensitive : bool :=
  unwrap (make_rules ["Example.COM"%string] []) (fun r => asserts
    [match_domain r (str "example.com");
     match_domain r (str "Sub.Example.Com");
     negb (match_domain r (str "other.net"))]).

Definition domain_dedup : bool :=
  unwrap (make_rules ["example.com"; "example.com"; ".example.com"]%string []) (fun r => asserts
    [match_domain r (str "example.com");
     match_domain r (str "sub.example.com")]).

Definition ip_exact : bool :=
  unwrap (make_rules [] ["1.1.1.1/32"%string]) (fun r => asserts
    [ip "1.1.1.1" (match_ip r);
     ip "1.1.1.2" (fun a => negb (match_ip r a))]).

Definition ip_subnet : bool :=
  unwrap (make_rules [] ["8.8.8.0/24"%string]) (fun r => asserts
    [ip "8.8.8.1" (match_ip r);
     ip "8.8.8.254" (match_ip r);
     ip "8.8.9.1" (fun a => negb (match_ip r a))]).

Definition ip_default_route : bool :=
  unwrap (make_rules [] ["0.0.0.0/0"%string]) (fun r => asserts
    [match_ip r (V4 (be_val (map zb [1; 2; 3; 4])));
     match_ip r (V4 (be_val (map zb [255; 255; 255; 255])))]).

Definition ipv6_cidr : bool :=
  unwrap (make_rules [] ["2001:db8::/32"%string]) (fun r => asserts
    [ip "2001:db8::1" (match_ip r);
     ip "2001:db9::1" (fun a => negb (match_ip r a))]).

Definition should_bypass_host_port : bool :=
  unwrap (make_rules ["example.com"%string] ["1.1.1.1/32"%string]) (fun r => asserts
    [should_bypass r (str "example.com:443");
     should_bypass r (str "sub.example.com:80");
     should_bypass r (str "1.1.1.1:53");
     negb (should_bypass r (str "other.com:443"));
     negb (should_bypass r (str "1.1.1.2:53"))]).

Definition should_bypass_ipv6_bracket : bool :=
  unwrap (make_rules [] ["::1/128"%string]) (fun r => asserts
    [should_bypass r (str "[::1]:80");
     negb (should_bypass r (str "[::2]:80"))]).

Definition extract_host_cases : bool := asserts
  [assert_eq (extract_host (str "example.com:443")) (str "example.com");
   assert_eq (extract_host (str "[::1]:80")) (str "::1");
   assert_eq (extract_host (str "1.2.3.4:80")) (str "1.2.3.4");
   assert_eq (extract_host (str "example.com")) (str "example.com")].

Example bypass_tests_pass : asserts
  [domain_exact_match; domain_tld_wildcard; domain_case_insensitive; domain_dedup; ip_exact; ip_subnet; ip_default_route;
   ipv6_cidr; should_bypass_host_port; should_bypass_ipv6_bracket; extract_host_cases] = true.
Proof. vm_compute. reflexivity. Qed.
End bypass_tests.

Module redirect_tests.

Definition section (listen target : string) : RedirectSection := mkRedirectSection (str listen) (str target).

Definition parse_accepts_valid_rule : bool :=
  unwrap (RedirectRule_parse (section "127.0.0.1:2222" "172.16.0.207:22")) (fun rule => asserts
    [assert_eq (Some (rule_listen rule)) (socket_addr_from_str (str "127.0.0.1:2222"));
     assert_eq (rule_target rule) (str "172.16.0.207:22")]).

Definition parse_accepts_hostname_target : bool :=
  unwrap (RedirectRule_parse (section "127.0.0.1:0" " example.com:443 ")) (fun rule =>
    assert_eq (rule_target rule) (str "example.com:443")).

Definition parse_rejects_bad_listen : bool := asserts
  [is_err (RedirectRule_parse (section "127.0.0.1" "example.com:443"));
   is_err (RedirectRule_parse (section "not-an-addr" "example.com:443"))].

Definition parse_rejects_bad_target : bool := asserts
  [is_err (RedirectRule_parse (section "127.0.0.1:0" "example.com"));
   is_err (RedirectRule_parse (section "127.0.0.1:0" ":443"));
   is_err (RedirectRule_parse (section "127.0.0.1:0" "example.com:70000"))].

Definition parse_all_rejects_duplicate_listen : bool :=
  let rules := [section "127.0.0.1:2222" "a:1"; section "127.0.0.1:2222" "b:2"] in
  is_err (parse_all rules).

Example redirect_tests_pass : asserts
  [parse_accepts_valid_rule; parse_accepts_hostname_target; parse_rejects_bad_listen; parse_rejects_bad_target;
   parse_all_rejects_duplicate_listen] = true.
Proof. vm_compute. reflexivity. Qed.
End redirect_tests.

Module proxy_tests.

Definition resolve_connect_host : bool :=
  unwrap (resolve_target_host (str "CONNECT") (str "example.com:443")) (fun target =>
    assert_eq target (str "example.com:443")).

Definition resolve_http_url : bool :=
  unwrap (resolve_target_host (str "GET") (str "http://example.com/path")) (fun target =>
    assert_eq target (str "example.com:80")).

Definition resolve_connect_no_port_fails : bool :=
  is_err (resolve_target_host (str "CONNECT") (str "example.com")).

Definition rewrite_absolute_to_origin : bool :=
  let buf := head_text ["GET http://example.com/path HTTP/1.1"; "Host: example.com"]%string in
  unwrap (rewrite_absolute_url buf (str "GET") (str "http://example.com/path")) (fun result => asserts
    [utf8_valid result;
     starts_with (str "GET /path HTTP/1.1" ++ crlf) result;
     contains (str "Host: example.com") result]).

Definition rewrite_with_query_string : bool :=
  let buf := head_text ["GET http://example.com/search?q=rust&lang=en HTTP/1.1"; "Host: example.com"]%string in
  unwrap (rewrite_absolute_url buf (str "GET") (str "http://example.com/search?q=rust&lang=en")) (fun result => asserts
    [utf8_valid result;
     starts_with (str "GET /search?q=rust&lang=en HTTP/1.1" ++ crlf) result]).

Definition rewrite_root_path : bool :=
  let buf := head_text ["GET http://example.com/ HTTP/1.1"; "Host: example.com"]%string in
  unwrap (rewrite_absolute_url buf (str "GET") (str "http://example.com/")) (fun result => asserts
    [utf8_valid result;
     starts_with (str "GET / HTTP/1.1" ++ crlf) result]).

Definition rewrite_strips_port : bool :=
  let buf := head_text ["GET http://example.com:8080/path HTTP/1.1"; "Host: example.com:8080"]%string in
  unwrap (rewrite_absolute_url buf (str "GET") (str "http://example.com:8080/path")) (fun result => asserts
    [utf8_valid result;
     starts_with (str "GET /path HTTP/1.1" ++ crlf) result;
     contains (str "Host: example.com:8080") result]).

Definition rewrite_already_origin_form_noop : bool :=
  let original := head_text ["GET /path HTTP/1.1"; "Host: example.com"]%string in
  unwrap (rewrite_absolute_url original (str "GET") (str "/path")) (fun buf => assert_eq buf original).

Definition quoted (s : string) : bytes := [Byte.x22] ++ str s ++ [Byte.x22].

Definition rewrite_post_body_intact : bool :=
  let body := str "{" ++ quoted "key" ++ str ":" ++ quoted "value" ++ str "}" in
  let request := str "POST http://example.com/api HTTP/1.1" ++ crlf ++ str "Host: example.com" ++ crlf ++
    str "Content-Type: application/json" ++ crlf ++ str "Content-Length: " ++ dec_text (zlen body) ++ crlf ++ crlf ++ body in
  unwrap (rewrite_absolute_url request (str "POST") (str "http://example.com/api")) (fun result => asserts
    [utf8_valid result;
     starts_with (str "POST /api HTTP/1.1" ++ crlf) result;
     ends_with body result;
     contains (str "Content-Length: " ++ dec_text (zlen body)) result]).

Definition resolve_connect_ipv6_brackets_stripped : bool :=
  unwrap (resolve_target_host (str "CONNECT") (str "[::1]:443")) (fun t => asserts
    [assert_eq t (str "::1:443");
     is_err (resolve_target_host (str "CONNECT") (str "[::1]"))]).

Definition resolve_request_returns_origin_form : bool :=
  unwrap (resolve_request (str "GET") (str "http://example.com:8080/a/b?q=1&r=2")) (fun '(host, path) => asserts
    [assert_eq host (str "example.com:8080");
     assert_eq path (Some (str "/a/b?q=1&r=2"));
     unwrap (resolve_request (str "CONNECT") (str "example.com:443")) (fun '(host, path) => asserts
       [assert_eq host (str "example.com:443");
        is_none path])]).

Definition resolve_request_drops_fragment : bool :=
  unwrap (resolve_request (str "GET") (str "http://example.com/a#frag")) (fun '(_, path) =>
    assert_eq path (Some (str "/a"))).

Definition resolve_request_defaults_empty_path_to_slash : bool :=
  unwrap (resolve_request (str "GET") (str "http://example.com")) (fun '(_, path) =>
    assert_eq path (Some (str "/"))).

Definition parse_proxy_request_reports_auth : bool :=
  let expected := str "Basic dXNlcjpwYXNz" in
  let ok := head_text ["GET http://example.com/ HTTP/1.1"; "Proxy-Authorization: Basic dXNlcjpwYXNz"]%string in
  let bad := head_text ["GET http://example.com/ HTTP/1.1"; "Proxy-Authorization: Basic AAA"]%string in
  unwrap (parse_proxy_request [CData ok; CEof] [] (Some expected)) (fun '(req, buf, _) => asserts
    [assert_eq (pr_method req) (str "GET");
     assert_eq (pr_target req) (str "http://example.com/");
     pr_authorized req;
     assert_eq (ztake (pr_header_len req) buf) ok]) &&
  unwrap (parse_proxy_request [CData bad; CEof] [] (Some expected)) (fun '(req, _, _) => negb (pr_authorized req)) &&
  unwrap (parse_proxy_request [CData bad; CEof] [] None) (fun '(req, _, _) => pr_authorized req).

(** The test's reader gives at most eight bytes at a time. *)
Fixpoint choppy (fuel : nat) (raw : bytes) : list ClientRead :=
  match fuel with
  | O => []
  | S fuel =>
      match raw with
      | [] => [CEof]
      | _ => CData (ztake 8 raw) :: choppy fuel (zdrop 8 raw)
      end
  end.

Definition parse_proxy_request_handles_split_reads : bool :=
  let raw := head_text ["GET http://example.com/very/long/path HTTP/1.1"; "Host: example.com"]%string in
  unwrap (parse_proxy_request (choppy (S (length raw)) raw) [] None) (fun '(req, buf, _) => asserts
    [assert_eq (pr_target req) (str "http://example.com/very/long/path");
     assert_eq (ztake (pr_header_len req) buf) raw]).

Definition strip_proxy_headers_drops_credentials : bool :=
  let raw := head_text ["GET http://example.com/path HTTP/1.1"; "Host: example.com"; "Proxy-Authorization: Basic dXNlcjpwYXNz";
    "Proxy-Connection: keep-alive"; "Accept: */*"]%string in
  unwrap (strip_proxy_headers raw (zlen raw)) (fun '(new_len, buf) =>
    let head := ztake new_len buf in asserts
    [utf8_valid head;
     negb (contains (str "proxy-authorization") (to_ascii_lowercase head));
     negb (contains (str "proxy-connection") (to_ascii_lowercase head));
     contains (str "Host: example.com" ++ crlf) head;
     contains (str "Accept: */*" ++ crlf) head;
     ends_with (crlf ++ crlf) head;
     assert_eq new_len (zlen buf)]).

Definition strip_proxy_headers_keeps_body : bool :=
  let head := head_text ["POST http://example.com/ HTTP/1.1"; "Host: x"; "Proxy-Authorization: Basic YQ=="; "Content-Length: 4"]%string in
  unwrap (strip_proxy_headers (head ++ str "body") (zlen head)) (fun '(new_len, buf) => asserts
    [negb (contains (str "proxy-authorization") (to_ascii_lowercase (ztake new_len buf)));
     ends_with (str "body") buf;
     assert_eq (zlen buf - new_len) 4]).

Definition strip_proxy_headers_is_noop_without_them : bool :=
  let raw := head_text ["GET http://example.com/ HTTP/1.1"; "Host: example.com"]%string in
  unwrap (strip_proxy_headers raw (zlen raw)) (fun '(new_len, buf) => asserts
    [assert_eq new_len (zlen raw);
     assert_eq buf raw]).

Definition strip_proxy_headers_drops_folded_continuation : bool :=
  let raw := head_text ["GET http://example.com/ HTTP/1.1"; "Proxy-Authorization: Basic"; " dXNlcjpwYXNz"; "Host: x"]%string in
  unwrap (strip_proxy_headers raw (zlen raw)) (fun '(new_len, buf) =>
    let head := ztake new_len buf in asserts
    [utf8_valid head;
     negb (contains (str "proxy-authorization") (to_ascii_lowercase head));
     negb (contains (str "dXNlcjpwYXNz") head);
     contains (str "Host: x" ++ crlf) head]).

Example proxy_tests_pass : asserts
  [resolve_connect_host; resolve_http_url; resolve_connect_no_port_fails; rewrite_absolute_to_origin; rewrite_with_query_string;
   rewrite_root_path; rewrite_strips_port; rewrite_already_origin_form_noop; rewrite_post_body_intact;
   resolve_connect_ipv6_brackets_stripped; resolve_request_returns_origin_form; resolve_request_drops_fragment;
   resolve_request_defaults_empty_path_to_slash; parse_proxy_request_reports_auth; parse_proxy_request_handles_split_reads;
   strip_proxy_headers_drops_credentials; strip_proxy_headers_keeps_body; strip_proxy_headers_is_noop_without_them;
   strip_proxy_headers_drops_folded_continuation] = true.
Proof. vm_compute. reflexivity. Qed.
End proxy_tests.

Module state_tests.

Definition now : Z := 1700000000.
Definition entry (sid : string) : InitialMasterEntry := (str sid, zrep 32 (zb 7), now).

Definition load_ticket_returns_none_when_empty : bool := is_none (fst (load_and_validate_ticket now None)).

Definition load_ticket_returns_some_when_fresh : bool :=
  unwrap_some (fst (load_and_validate_ticket now (Some (entry "sid-1")))) (fun ticket => asserts
    [assert_eq (Handshake.ticket_session ticket) (str "sid-1"); assert_eq (Handshake.ticket_master ticket) (zrep 32 (zb 7))]).

Definition ticket_is_valid_boundary : bool :=
  let now := 10000 in asserts
  [ticket_is_valid now now;
   ticket_is_valid (now - 1) now;
   ticket_is_valid (now - MASTER_RESUME_WINDOW_SECS + 1) now;
   negb (ticket_is_valid (now - MASTER_RESUME_WINDOW_SECS) now);
   negb (ticket_is_valid 0 now);
   ticket_is_valid (now + 100) now].

Definition invalidate_matching_session_clears : bool :=
  is_none (invalidate_stale_master (str "sid-2") (Some (entry "sid-2"))).

Definition invalidate_non_matching_session_keeps : bool :=
  is_some (invalidate_stale_master (str "other-sid") (Some (entry "sid-3"))).

Example state_tests_pass : asserts
  [load_ticket_returns_none_when_empty; load_ticket_returns_some_when_fresh; ticket_is_valid_boundary;
   invalidate_matching_session_clears; invalidate_non_matching_session_keeps] = true.
Proof. vm_compute. reflexivity. Qed.
End state_tests.

Module utils_tests.

#[local] Instance test_cipher : FrameCipher := aes_frame_cipher toy_aes.

Definition build_cookie_contains_session : bool :=
  let buf := build_tunnel_cookie test_draw [] (str "abc:def:ghi") in asserts
  [starts_with (str "session=abc:def:ghi; ") buf; 25 <? zlen buf].

Definition encode_zero_payload : bool :=
  let config := mkTraffic (mkPadding 16384 (0, 0)) [] Binary None in
  unwrap_some (encode_initial_payload (fun _ => test_nonce) test_draw [] MAX_RAW_PAYLOAD config) (fun r =>
  unwrap r (fun '(body, remaining, seq) => asserts [assert_eq body []; assert_eq remaining []; assert_eq seq 0])).

Definition is_silent_reset : bool := is_silent_error (RootIo ConnectionReset).

Definition is_not_silent_other : bool := negb (is_silent_error (RootIo Other)).

(** The [while let] loop: how many frames, and their data. *)
Fixpoint decode_loop (fuel : nat) (src json_scratch : bytes) : option (Z * bytes) :=
  match fuel with
  | O => None
  | S fuel =>
      match decode_frame src json_scratch Json with
      | (Ok (Some frame), src, json_scratch) =>
          let '(_, data, json_scratch) := frame_data frame json_scratch in
          '(count, decoded) ← decode_loop fuel src json_scratch; Some (1 + count, data ++ decoded)
      | (Ok None, _, _) => Some (0, [])
      | _ => None
      end
  end.

Definition encode_initial_payload_json_chunks_roundtrip : bool :=
  let cfg := mkTraffic (mkPadding 0 (0, 0)) [] Json None in
  let data := counting 30000 251 in
  unwrap_some (encode_initial_payload (fun _ => test_nonce) test_draw data (u64_max - 1) cfg) (fun r =>
  unwrap r (fun '(body, remaining, seq) =>
  unwrap_some (decode_loop 12 body []) (fun '(count, decoded) => asserts
    [assert_eq remaining []; assert_eq count seq; assert_eq decoded data]))).

Definition h2_reset_error_is_silent : bool := asserts
  [is_silent_error (RootH2 false false (Some CANCEL)); negb (is_silent_error (RootH2 false false (Some CONNECT_ERROR)))].

Example utils_tests_pass : asserts
  [build_cookie_contains_session; encode_zero_payload; is_silent_reset; is_not_silent_other;
   encode_initial_payload_json_chunks_roundtrip; h2_reset_error_is_silent] = true.
Proof. vm_compute. reflexivity. Qed.
End utils_tests.

Module client_tests.

(** [minimal_client_cfg]; the key is 43 letters A. *)
Definition minimal_client_cfg (max_in_flight_bytes upload_concurrency : option Z) : ClientTopConfig :=
  mkClientTop (mkClientSection (str "127.0.0.1:8080") (str "https://example.com/secret") None (zrep 43 Byte.x41) None None
      max_in_flight_bytes upload_concurrency)
    (str "tok") (mkTraffic (mkPadding 50 (0, 100)) [] Binary None) [] [].

Definition build_state (cfg : ClientTopConfig) : Res string SharedState := client_build_state Some cfg.

Definition build_state_rejects_tiny_in_flight : bool := is_err (build_state (minimal_client_cfg (Some 1024) None)).

Definition build_state_rejects_zero_concurrency : bool := is_err (build_state (minimal_client_cfg None (Some 0))).

Definition build_state_accepts_defaults : bool :=
  unwrap (build_state (minimal_client_cfg None None)) (fun state => asserts
    [st_max_in_flight_bytes state =? MAX_IN_FLIGHT_BYTES; st_upload_concurrency state =? UPLOAD_CONCURRENCY;
     st_max_connections state =? MAX_LOCAL_CONNECTIONS]).

Definition build_state_accepts_bounded_config : bool :=
  unwrap (build_state (minimal_client_cfg (Some (256 * 1024)) (Some 4))) (fun state => asserts
    [st_max_in_flight_bytes state =? 256 * 1024; st_upload_concurrency state =? 4]).

Example client_tests_pass : asserts
  [build_state_rejects_tiny_in_flight; build_state_rejects_zero_concurrency; build_state_accepts_defaults;
   build_state_accepts_bounded_config] = true.
Proof. vm_compute. reflexivity. Qed.
End client_tests.

Module connection_tests.

(** The client's side of a socket pair, and the peer of an outgoing one. *)
Definition open_socket : @socket toy_socket := ([], []).

(** [ClientConnectionActor::run] up to the tunnel, and what the client read. *)
Definition run_actor (reader : list ClientRead) (proxy_auth : option bytes) : ConnEnd * bytes :=
  let '(r, s) := run (S := toy_socket) reader proxy_auth open_socket in (r, fst s).

Definition bypass_loopback : Res string BypassRules := bypass_tests.make_rules [] ["127.0.0.1/32"%string].

(** The target is connected to directly, and echoes all it receives. *)
Definition through_echo (target_host payload : bytes) (reader : list ClientRead) (k : bytes -> bool) : bool :=
  unwrap bypass_loopback (fun rules =>
    match tunnel_mode (Some rules) target_host with
    | Direct =>
        let echo := [CData (payload ++ read_data reader); CEof] in
        unwrap_some (handle_bypass_direct (S := toy_socket) (Ok (echo, open_socket)) payload reader open_socket) (fun r =>
        unwrap r (fun '((up, remote), (down, local)) =>
          assert_eq (fst remote) (payload ++ read_data reader) && k (fst local)))
    | Proxied => false
    end).

Definition test_auth : option bytes := Some (str "Basic dXNlcjpwYXNz").

Definition auth_challenge_closes_connection_then_reconnect_succeeds : bool :=
  let without := head_text ["GET http://127.0.0.1:4000/ HTTP/1.1"; "Host: x"]%string in
  let '(joined, head) := run_actor [CData without; CEof] test_auth in
  starts_with (str "HTTP/1.1 407") head && contains (str "connection: close") (to_ascii_lowercase head) &&
  match joined with ConnRejected => true | _ => false end &&
  let with_auth := head_text ["GET http://127.0.0.1:4000/ HTTP/1.1"; "Host: x"; "Proxy-Authorization: Basic dXNlcjpwYXNz"]%string in
  match fst (run_actor [CData with_auth; CEof] (Some (str "Basic dXNlcjpwYXNz"))) with
  | ConnOpens target payload reader => through_echo target payload reader (fun echoed => asserts
      [contains (str "GET / ") echoed; contains (str "Host: x") echoed;
       negb (contains (str "proxy-authorization") (to_ascii_lowercase echoed))])
  | _ => false
  end.

Definition connect_early_data_buffered_and_forwarded : bool :=
  let req := head_text ["CONNECT 127.0.0.1:4000 HTTP/1.1"; "Host: x"]%string in
  let '(r, head) := run_actor [CData req; CData (str "early-data-bytes"); CElapsed; CData (str "post-window-bytes"); CEof] None in
  starts_with (str "HTTP/1.1 200") head &&
  match r with
  | ConnOpens target payload reader => through_echo target payload reader (fun echoed => asserts
      [contains (str "early-data-bytes") echoed; contains (str "post-window-bytes") echoed])
  | _ => false
  end.

Definition request_parse_timeout_errors : bool :=
  let partial := str "GET / HTTP/1.1" ++ crlf ++ str "Host: x" ++ crlf in
  match fst (run_actor [CData partial; CElapsed] None) with
  | ConnFailed err => contains (str "parse timeout") (str err)
  | _ => false
  end.

Definition unauthenticated_connections_do_not_linger : bool :=
  let req := head_text ["GET http://example.com/ HTTP/1.1"; "Host: x"]%string in
  forallb (fun _ =>
    let '(result, sink) := run_actor [CData req; CEof] test_auth in
    starts_with (str "HTTP/1.1 407") sink && match result with ConnRejected => true | _ => false end) (seqZ 0 3).

Example connection_tests_pass : asserts
  [auth_challenge_closes_connection_then_reconnect_succeeds; connect_early_data_buffered_and_forwarded;
   request_parse_timeout_errors; unauthenticated_connections_do_not_linger] = true.
Proof. vm_compute. reflexivity. Qed.
End connection_tests.
