(* ===== verification/TestsServer.v ===== *)
(** * The unit tests of keys, tokens, registry, janitor, cookies and handlers

    The tests of [src/crypto/handshake.rs], [src/crypto/keys.rs],
    [src/server/token.rs], [src/server/stream_registry.rs],
    [src/server/janitor.rs], [src/server/utils.rs], [src/server/mod.rs],
    [src/server/handlers.rs], [src/server/upstream.rs] and
    [src/error/mod.rs], run on the model with the instances of [Testing].
    Random values are fixed ones; the clock is [test_now]. *)

From S2P Require Import Prelude Cipher Frame Shaper Decoder Errors Upstream Upload Text Cookie Token Registry Crypto Handlers Handshake Net Dns Warp Outgoing Setup Testing.

Definition test_now : Z := 1700000000.

Module handshake_tests.

(** [v[0] ^= 0x01]. *)
Definition touch (v : bytes) : bytes := xor_at 1 0 v.

Definition derive_handshake_key_domain_separated : bool :=
  let shared := zrep 32 Byte.xaa in
  assert_ne (derive_handshake_key shared) (derive_handshake_key (touch shared)).

Definition derive_initial_master_domain_separated : bool :=
  let ml := zrep 32 Byte.x11 in
  let x2 := zrep 32 Byte.x22 in
  assert_ne (derive_initial_master ml x2) (derive_initial_master (touch ml) x2).

Definition connection_keys_domain_separated : bool :=
  let master := zrep 32 Byte.xbb in
  let nonce := zrep 16 Byte.xcc in
  let '(up1, dn1, tg1) := derive_connection_keys master nonce in
  let '(up2, dn2, tg2) := derive_connection_keys (touch master) nonce in
  asserts [assert_ne up1 up2; assert_ne dn1 dn2; assert_ne tg1 tg2].

Definition connection_keys_different_for_different_nonces : bool :=
  let master := zrep 32 Byte.xbb in
  let '(up1, _, _) := derive_connection_keys master (zrep 16 Byte.xcc) in
  let '(up2, _, _) := derive_connection_keys master (zrep 16 Byte.xdd) in
  assert_ne up1 up2.

Example handshake_tests_pass : asserts
  [derive_handshake_key_domain_separated; derive_initial_master_domain_separated; connection_keys_domain_separated;
   connection_keys_different_for_different_nonces] = true.
Proof. vm_compute. reflexivity. Qed.
End handshake_tests.

Module keys_tests.

Definition random (seed : Z) : bytes := zrep 32 (zb seed).

Definition keypair_roundtrip : bool :=
  let '(sk, pk) := generate_keypair (random 5) in
  let b64_pk := public_key_to_b64 pk in
  let b64_sk := private_key_to_b64 sk in
  unwrap (b64_to_public_key b64_pk) (fun pk2 =>
  unwrap (b64_to_private_key b64_sk) (fun sk2 => asserts
    [assert_eq (zlen b64_pk) 43; assert_eq (zlen b64_sk) 43; assert_eq pk pk2; assert_eq sk sk2])).

Definition diffie_hellman_agreement : bool :=
  let '(a_sk, a_pk) := generate_keypair (random 5) in
  let '(b_sk, b_pk) := generate_keypair (random 6) in
  assert_eq (diffie_hellman a_sk b_pk) (diffie_hellman b_sk a_pk).

Definition mlkem_roundtrip : bool :=
  unwrap (generate_mlkem_keypair (random 7)) (fun '(sk, pk) =>
  unwrap (bytes_to_encapsulation_key pk) (fun pk2 =>
  unwrap (mlkem_encapsulate pk2 (random 8)) (fun '(ct, ss_enc) =>
  unwrap (mlkem_decapsulate sk ct) (fun ss_dec => asserts
    [assert_eq (zlen pk) 1184; assert_eq (zlen ct) 1088; assert_eq ss_enc ss_dec])))).

Definition mlkem_rejects_bad_public_key : bool := is_err (bytes_to_encapsulation_key (zrep 17 Byte.x00)).

Definition mlkem_rejects_bad_ciphertext : bool :=
  unwrap (generate_mlkem_keypair (random 7)) (fun '(sk, _) => is_err (mlkem_decapsulate sk (zrep 17 Byte.x00))).

Definition b64_invalid_length_rejected : bool := asserts
  [is_err (b64_to_public_key (str "abc")); is_err (b64_to_private_key (str "abc"))].

Example keys_tests_pass : asserts
  [keypair_roundtrip; diffie_hellman_agreement; mlkem_roundtrip; mlkem_rejects_bad_public_key; mlkem_rejects_bad_ciphertext;
   b64_invalid_length_rejected] = true.
Proof. vm_compute. reflexivity. Qed.
End keys_tests.

(** Keys derived from the secret's text. *)
Definition test_hkdf (secret info : bytes) : bytes := pad_to 32 (secret ++ info).

Module token_tests.

Definition key (k : LessSafeKey -> bool) : bool := unwrap (key_from_secret test_hkdf (str "test-secret")) k.
Definition claims (sub : string) (exp : Z) : Claims := mkClaims (str sub) exp.

(** The message [open] fails with. *)
Definition open_err (key : LessSafeKey) (token : bytes) (e : string) : bool :=
  match open key test_now token with Err m => bool_decide (m = e) | _ => false end.

Definition issued (key : LessSafeKey) (c : Claims) (k : bytes -> bool) : bool := unwrap (issue key test_nonce c) k.

Definition roundtrip : bool :=
  let exp' := test_now + 3600 in
  key (fun key => issued key (claims "alice" exp') (fun token =>
    unwrap (open key test_now token) (fun parsed => asserts
      [assert_eq (sub parsed) (str "alice"); assert_eq (exp parsed) exp']))).

Definition subject_is_not_visible_in_the_token : bool :=
  key (fun key => issued key (claims "alice" (test_now + 60)) (fun token =>
    unwrap_some (b64_decode token) (fun raw => asserts
      [negb (contains (str "alice") raw); negb (contains (str "alice") token)]))).

Definition token_is_shorter_than_jwt : bool :=
  key (fun key => issued key (claims "admin" 4102444800) (fun token => asserts
    [zlen token <=? 64; negb (contains (str ".") token); negb (contains (str "=") token)])).

Definition nonces_differ_between_tokens : bool :=
  key (fun key =>
    unwrap (issue key (zrep 12 Byte.x01) (claims "alice" (test_now + 3600))) (fun a =>
    unwrap (issue key (zrep 12 Byte.x02) (claims "alice" (test_now + 3600))) (fun b => assert_ne a b))).

Definition wrong_key_rejected : bool :=
  key (fun key => issued key (claims "alice" (test_now + 60)) (fun token =>
    unwrap (key_from_secret test_hkdf (str "other-secret")) (fun other => open_err other token "bad tag"))).

Definition expired_rejected : bool :=
  key (fun key => issued key (claims "alice" test_now) (fun token => open_err key token "expired")).

Definition tampered_rejected : bool :=
  key (fun key => forallb (fun byte =>
    issued key (claims "alice" (test_now + 3600)) (fun token =>
      unwrap_some (b64_decode token) (fun raw =>
        let forged := b64_encode (xor_at 1 byte raw) in
        open_err key forged "bad tag"))) [NONCE_LEN; NONCE_LEN + 1; NONCE_LEN + BODY_LEN]).

Definition truncated_rejected : bool :=
  key (fun key => issued key (claims "alice" (test_now + 60)) (fun token =>
    unwrap_some (b64_decode token) (fun raw =>
      let cut := b64_encode (ztake (zlen raw - 1) raw) in
      open_err key cut "bad tag"))).

Definition malformed_rejected : bool :=
  key (fun k =>
    let long := zrep (MAX_TOKEN_LEN + 1) Byte.x41 in asserts
    [open_err k [] "token too short";
     open_err k (str "!!!!") "invalid encoding";
     open_err k (str "AAAA") "token too short";
     open_err k long "token too long"]).

Definition bad_payload_length_rejected : bool :=
  key (fun k =>
    let body := [VERSION] ++ be_bytes 8 (test_now + 60) ++ be_bytes 2 99 ++ str "alice" in
    unwrap_some (seal_in_place_separate_tag k test_nonce body) (fun '(ct, tag) =>
      let token := b64_encode (test_nonce ++ ct ++ tag) in
      open_err k token "bad payload length")).

Example token_tests_pass : asserts
  [roundtrip; subject_is_not_visible_in_the_token; token_is_shorter_than_jwt; nonces_differ_between_tokens; wrong_key_rejected;
   expired_rejected; tampered_rejected; truncated_rejected; malformed_rejected; bad_payload_length_rejected] = true.
Proof. vm_compute. reflexivity. Qed.
End token_tests.

Module registry_tests.

Definition dummy_ts : Z := 1700000000.

Definition uuid (n : Z) : bytes := zrep 16 (zb n).
Definition s1 : bytes := uuid 1.
Definition s2 : bytes := uuid 2.

Definition query_eqb (a b : StreamQueryResult) : bool :=
  match a, b with QFresh, QFresh | QActive, QActive | QConsumed, QConsumed => true | _, _ => false end.

Definition fresh_register_succeeds : bool :=
  let '(ok, reg) := register s1 dummy_ts StreamRegistry_new in
  asserts [ok; query_eqb (check s1 reg) QActive].

Definition duplicate_register_rejected : bool :=
  let '(first, reg) := register s1 dummy_ts StreamRegistry_new in
  asserts [first; negb (fst (register s1 dummy_ts reg))].

Definition consumed_stream_reports_consumed : bool :=
  let '(_, reg) := register s1 dummy_ts StreamRegistry_new in
  query_eqb (check s1 (mark_consumed s1 reg)) QConsumed.

Definition fresh_stream_returns_fresh : bool := query_eqb (check s2 StreamRegistry_new) QFresh.

Definition remove_consumed_before_removes_expired : bool :=
  let '(_, reg) := register s1 100 StreamRegistry_new in
  let reg := mark_consumed s1 reg in
  let '(_, reg) := register s2 200 reg in
  let '(removed, reg) := remove_consumed_before 150 reg in
  asserts [assert_eq removed 1; query_eqb (check s1 reg) QFresh; query_eqb (check s2 reg) QActive].

Definition remove_consumed_before_keeps_recent : bool :=
  let '(_, reg) := register s1 1000 StreamRegistry_new in
  let reg := mark_consumed s1 reg in
  let '(removed, reg) := remove_consumed_before 900 reg in
  asserts [assert_eq removed 0; query_eqb (check s1 reg) QConsumed].

Definition concurrent_streams_independent : bool :=
  let '(ok1, reg) := register s1 dummy_ts StreamRegistry_new in
  let '(ok2, reg) := register s2 dummy_ts reg in
  let reg := mark_consumed s1 reg in
  asserts [ok1; ok2; query_eqb (check s1 reg) QConsumed; query_eqb (check s2 reg) QActive].

(** The tasks' registrations, which the map serialises in some order. *)
Definition concurrent_registrations_different_ids : bool :=
  let '(success, _) := foldl (fun '(n, reg) i =>
    let '(ok, reg) := register (uuid i) dummy_ts reg in ((if ok : bool then n + 1 else n), reg)) (0, StreamRegistry_new) (seqZ 0 16) in
  assert_eq success 16.

(** Both orders of the two tasks. *)
Definition concurrent_register_and_consume_race : bool :=
  let '(ok, reg) := register s1 dummy_ts StreamRegistry_new in asserts
  [ok;
   negb (fst (register s1 dummy_ts reg));
   negb (fst (register s1 dummy_ts (mark_consumed s1 reg)))].

Example registry_tests_pass : asserts
  [fresh_register_succeeds; duplicate_register_rejected; consumed_stream_reports_consumed; fresh_stream_returns_fresh;
   remove_consumed_before_removes_expired; remove_consumed_before_keeps_recent; concurrent_streams_independent;
   concurrent_registrations_different_ids; concurrent_register_and_consume_race] = true.
Proof. vm_compute. reflexivity. Qed.
End registry_tests.

Module janitor_tests.

Definition now : Z := 10000.
Definition master (created : Z) : MasterStoreEntry := (str "u", zrep 32 Byte.x00, created).

Definition prune_expired_masters_removes_old_keeps_fresh : bool :=
  let store : MasterStore := <[str "fresh" := master now]> (<[str "old" := master (now - 2000)]> ∅) in
  let '(pruned, store) := prune_expired_masters now store in
  asserts [assert_eq pruned 1; is_none (store !! str "old"); is_some (store !! str "fresh")].

Definition prune_expired_masters_boundary : bool :=
  let store : MasterStore := <[str "boundary" := master (now - MASTER_EXPIRY)]> ∅ in
  assert_eq (fst (prune_expired_masters now store)) 1.

(** Two actors, the receiver of the first one gone. *)
Definition prune_dead_actors_removes_closed_channels : bool :=
  let handle := mkHandle (zrep 32 (zb 7)) Binary in
  let actors : gmap bytes (SessionHandle * bool) := <[str "2" := (handle, false)]> (<[str "1" := (handle, true)]> ∅) in
  let '(pruned, actors) := prune_dead_actors snd actors in
  asserts [assert_eq pruned 1; assert_eq (size actors) 1%nat].

Example janitor_tests_pass : asserts
  [prune_expired_masters_removes_old_keeps_fresh; prune_expired_masters_boundary; prune_dead_actors_removes_closed_channels] = true.
Proof. vm_compute. reflexivity. Qed.
End janitor_tests.

Module cookie_tests.

Definition extract_cookie_basic : bool :=
  let headers := [(str "cookie", str "session=abc123; other=val")] in asserts
  [assert_eq (extract_cookie_value headers (str "session")) (Some (str "abc123"));
   assert_eq (extract_cookie_value headers (str "other")) (Some (str "val"));
   assert_eq (extract_cookie_value headers (str "missing")) None].

Definition extract_cookie_no_cookie_header : bool := assert_eq (extract_cookie_value [] (str "session")) None.

Definition random_padding_length : bool :=
  forallb (fun i =>
    let p := random_padding (fun lo hi => lo + i mod (hi - lo + 1)) in
    asserts [30 <=? zlen p; zlen p <=? zlen PADDING_POOL]) (seqZ 0 100).

Example cookie_tests_pass : asserts [extract_cookie_basic; extract_cookie_no_cookie_header; random_padding_length] = true.
Proof. vm_compute. reflexivity. Qed.
End cookie_tests.

Module error_tests.

(** The error's [source], which is not modelled, is left out. *)
Definition error_display_and_source : bool := asserts
  [contains (str "boom") (str (display (EIo (mkIoError Other "boom"))));
   String.eqb (display (EProtocol "bad frame")) "protocol error: bad frame"].

Definition app_error_constructors : bool := asserts
  [status (bad_request "x") =? 400;
   status (bad_gateway "x") =? 502;
   status (gateway_timeout "x") =? 504;
   status (request_timeout "x") =? 408;
   status (unauthorized "x") =? 401;
   status (not_found "x") =? 404;
   status (internal "x") =? 500;
   status (payload_too_large "x") =? 413;
   status (precondition_required "x") =? 428;
   status (service_unavailable "x") =? 503].

Definition app_error_from_std_error : bool := status (server_error_of_io (mkIoError Other "oops")) =? 500.

Example error_tests_pass : asserts [error_display_and_source; app_error_constructors; app_error_from_std_error] = true.
Proof. vm_compute. reflexivity. Qed.
End error_tests.

Module server_tests.

#[local] Instance no_networks : IpNetworks := {| ip_net := unit; net_from_str := fun _ => None; net_contains := fun _ _ => false |}.

Definition server_config (listen path secret : string) (padding : PaddingConfig) : ServerTopConfig :=
  mkServerTop (str listen) (str path) (private_key_to_b64 (fst (generate_keypair (zrep 32 (zb 5))))) None (str secret)
    None None None (mkTraffic padding [] Binary None).

Definition built (cfg : ServerTopConfig) : Res string ServerState :=
  server_build_state (fun _ => Err "no warp"%string) Some (fun _ => []) test_hkdf cfg.

Definition build_state_with_minimal_config : bool :=
  unwrap (built (server_config "0.0.0.0:0" "/t" "test-key" (mkPadding 100 (0, 50)))) (fun state =>
    let peer := snd (generate_keypair (zrep 32 (zb 6))) in
    let shared := diffie_hellman (ss_private_key state) peer in
    asserts [is_none (ss_dns_client state); assert_ne shared (zrep 32 Byte.x00)]).

Example server_tests_pass : asserts [build_state_with_minimal_config] = true.
Proof. vm_compute. reflexivity. Qed.
End server_tests.

Module upstream_tests.

(** The peer of a socket pair reads what the socket has sent. *)
Definition direct_write_preserves_frame_order : bool :=
  let frames := map (fun i => zrep 32 (zb i)) (seqZ 0 MAX_WRITE_IOV) in
  let '(r, s) := write_tcp_frames (S := toy_socket) frames ([], []) in
  match r with
  | Some r => unwrap r (fun _ =>
      forallb (fun i => assert_eq (slice (i * 32) (i * 32 + 32) (fst s)) (zrep 32 (zb i))) (seqZ 0 (zlen frames)))
  | None => false
  end.

Example upstream_tests_pass : asserts [direct_write_preserves_frame_order] = true.
Proof. vm_compute. reflexivity. Qed.
End upstream_tests.

Module handlers_tests.

(** A server with empty maps, its token key and its cache. *)
Definition test_state (k : ServerConfig -> LessSafeKey -> AppState -> bool) : bool :=
  unwrap (server_tests.built (server_tests.server_config "127.0.0.1:0" "/secret" "test-secret" (mkPadding 0 (0, 0)))) (fun ss =>
    k (mkServerConfig (ss_private_key ss) (ss_traffic_config ss)) (ss_token_key ss)
      (mkState ∅ StreamRegistry_new ∅ (ss_max_tunnels ss))).

Definition empty_cache : cache (TtlCache := toy_cache) := ∅.

Definition token_with_exp (exp : Z) (k : bytes -> bool) : bool :=
  unwrap (key_from_secret test_hkdf (str "test-secret")) (fun key =>
    unwrap (issue key test_nonce (mkClaims (str "user") exp)) k).

Definition valid_token : (bytes -> bool) -> bool := token_with_exp 4102444800.

Definition bearer (token : bytes) : HeaderMap := [(str "authorization", str "Bearer " ++ token)].

Definition check_token (headers : HeaderMap) (key : LessSafeKey) : cache -> Res ServerError bytes * cache :=
  validate_token_if_needed (K := toy_cache) headers key test_now.

Definition valid_token_is_cached_and_reused : bool :=
  test_state (fun _ key _ => valid_token (fun token =>
    let headers := bearer token in
    let '(first, c) := check_token headers key empty_cache in
    unwrap first (fun first =>
    unwrap_some (cache_get test_now token c) (fun cached =>
    let '(second, _) := check_token headers key c in
    unwrap second (fun second => asserts
      [assert_eq first (str "user"); assert_eq cached (str "user"); assert_eq first second]))))).

Definition invalid_tokens_are_never_cached : bool :=
  test_state (fun _ key _ =>
    let headers := bearer (str "not-a-token") in
    let '(r, c) := check_token headers key empty_cache in
    asserts [is_err r; is_none (cache_get test_now (str "not-a-token") c)]).

Definition token_close_to_expiry_is_not_cached : bool :=
  test_state (fun _ key _ => token_with_exp (test_now + 5) (fun token =>
    let headers := bearer token in
    let '(r, c) := check_token headers key empty_cache in
    asserts [is_ok r; is_none (cache_get test_now token c)])).

(** [dispatch] of a request with an empty body; the status of its error. *)
Definition draws : ServerDraws :=
  mkServerDraws (zrep 32 (zb 1)) (zrep 32 (zb 2)) (zrep 16 (zb 3)) test_nonce test_draw.

Definition dispatch_err (headers : HeaderMap) (status' : Z) : bool :=
  test_state (fun cfg key st =>
    let '(r, _, _, _) := dispatch_request (K := toy_cache) cfg key headers (BodyBytes [])
      (mkSetupEnv (fun _ _ => ConnectTimeout) [] 1 (fun _ => true) test_draw)
      (mkUploadEnv [] 1 (fun _ => true) ContNone EosOk 0 test_draw)
      test_now test_now test_now draws st empty_cache in
    match r with Err e => status e =? status' | _ => false end).

Definition dispatch_rejects_without_cookies_or_target : bool := dispatch_err [] 400.

Definition dispatch_rejects_malformed_stream_cookie : bool := dispatch_err [(str "cookie", str "stream=not-a-uuid")] 428.

Definition dispatch_rejects_unknown_stream : bool :=
  dispatch_err [(str "cookie", str "stream=" ++ uuid_hyphenated (zrep 16 (zb 9)))] 428.

Definition handshake_headers (token : bytes) : HeaderMap :=
  [(str "cookie", str "eph_pk_a=AAAAAAAAAAAAAAAAAAAAAAAAAAAAAAAAAAAAAAAAAAA"); (str "authorization", str "Bearer " ++ token)].

Definition dispatch_rejects_bad_token_with_handshake_cookie : bool := dispatch_err (handshake_headers (str "invalid-token")) 401.

Definition dispatch_rejects_plaintext_tunnel : bool :=
  valid_token (fun token =>
    dispatch_err [(str "x-target", str "127.0.0.1:1"); (str "authorization", str "Bearer " ++ token)] 400).

Definition dispatch_rejects_malformed_session_cookie : bool := dispatch_err [(str "cookie", str "session=abc")] 428.

Definition dispatch_rejects_expired_token_on_handshake_path : bool :=
  token_with_exp 1 (fun token => dispatch_err (handshake_headers token) 401).

Example handlers_tests_pass : asserts
  [valid_token_is_cached_and_reused; invalid_tokens_are_never_cached; token_close_to_expiry_is_not_cached;
   dispatch_rejects_without_cookies_or_target; dispatch_rejects_malformed_stream_cookie; dispatch_rejects_unknown_stream;
   dispatch_rejects_bad_token_with_handshake_cookie; dispatch_rejects_plaintext_tunnel;
   dispatch_rejects_malformed_session_cookie; dispatch_rejects_expired_token_on_handshake_path] = true.
Proof. vm_compute. reflexivity. Qed.
End handlers_tests.
