(* ===== verification/TestsActors.v ===== *)
(** * The unit tests of the actors

    The tests of [src/server/actor/upload.rs], [src/server/actor/tunnel.rs],
    [src/client/actor/download_loop.rs] and [src/client/actor/upload_loop.rs],
    run on the model. What a test sends down a channel, what its sockets do
    and the time it lets pass are the events of the actor's run, in the order
    of the test; a socket pair is the scripted socket of [Upstream]. *)

From S2P Require Import Prelude Cipher Frame Shaper Decoder Errors Upstream Upload UploadLoop Tunnel Download Testing.

#[local] Instance test_cipher : FrameCipher := aes_frame_cipher toy_aes.

(** The test tables and environments of the shaper. *)
Definition table (_ : Z) : Z := 5.
Definition env (elapsed : bool) : PollEnv := mkEnv test_nonce test_draw 100 (fun _ => elapsed).
Definition plain_config : ResolvedShaperConfig := resolve (mkTraffic (mkPadding 0 (0, 0)) [] Binary None).

Module upload_tests.

#[local] Existing Instance toy_socket.
#[local] Instance up : FrameSink := tcp_sink toy_socket.

(** The run over the commands, sent at time 0, and then what else happens. *)
Definition run_cmds (s : socket) (initial_seq : Z) (cmds : list UploadCmd) (after : list UploadEvent) : bool * UploadActor :=
  run (map (EvCmd 0) cmds ++ after) (UploadActor_new s initial_seq 0).

(** A socket that takes everything. *)
Definition tcp_pair : socket := ([], []).

(** [ack_rx.await]: answered well, answered with an error, dropped. *)
Definition ack_of (a : Z) (this : UploadActor) : option (Res ServerError unit) :=
  snd <$> List.find (fun '(b, _) => b =? a) (answered this).
Definition acked_ok (a : Z) (this : UploadActor) : bool := unwrap_some (ack_of a this) is_ok.
Definition acked_err (a : Z) (this : UploadActor) : bool := unwrap_some (ack_of a this) is_err.
Definition ack_dropped (a : Z) (this : UploadActor) : bool := is_none (ack_of a this).

Definition frames_delivered_in_order : bool :=
  let '(stopped, this) := run_cmds tcp_pair 0
    [CmdFrame 0 (str "hello"); CmdFrame 1 (str "world"); CmdEos 1 100] [EvChannelClosed] in
  asserts [stopped; acked_ok 100 this].

Definition reorder_buffer_drains_on_consecutive_arrival : bool :=
  let '(stopped, this) := run_cmds tcp_pair 0
    [CmdFrame 2 (str "c"); CmdFrame 0 (str "a"); CmdFrame 1 (str "b"); CmdEos 2 100] [EvChannelClosed] in
  asserts [stopped; acked_ok 100 this].

Definition eos_acked_immediately_when_next_seq_exceeds_max : bool :=
  let '(stopped, this) := run_cmds tcp_pair 5 [CmdEos 3 100] [EvChannelClosed] in
  asserts [stopped; acked_ok 100 this].

Definition shutdown_drains_and_acks_waiters : bool :=
  let '(stopped, this) := run_cmds tcp_pair 0 [CmdFrame 5 (str "far"); CmdEos 5 100; CmdShutdown] [] in
  asserts [stopped; acked_err 100 this].

Definition channel_close_acks_waiters_with_error : bool :=
  let '(stopped, this) := run_cmds tcp_pair 0 [CmdEos 5 100] [EvChannelClosed] in
  asserts [stopped; acked_err 100 this].

Definition upstream_write_error_acks_eos_with_error : bool :=
  let broken := ([], [WriteFails (mkIoError BrokenPipe "closed")]) in
  let '(stopped, this) := run_cmds broken 0
    (CmdEos 2 100 :: map (fun seq => CmdFrame seq (str "hello")) (seqZ 0 3)) [EvChannelClosed] in
  asserts [stopped; acked_err 100 this].

Definition big : bytes := zrep (MAX_PENDING_BYTES + 1) Byte.x00.

Definition reorder_buffer_overflow_aborts_upload : bool :=
  let r := run_cmds tcp_pair 0 [CmdFrame 1 big; CmdEos 1 100] [EvChannelClosed] in
  asserts [fst r; ack_dropped 100 (snd r)].

Definition large_gap_fill_keeps_order_across_write_runs : bool :=
  let total := MAX_WRITE_IOV * 3 + 5 in
  let frame_of seq := zrep 64 (zb (seq mod 256)) in
  let '(_, this) := run_cmds tcp_pair 0
    (map (fun seq => CmdFrame seq (frame_of seq)) (seqZ 1 (total - 1)) ++ [CmdFrame 0 (zrep 64 Byte.x00)]) [] in
  let got := fst (upstream this) in asserts
  [assert_eq (zlen got) (total * 64);
   forallb (fun seq => assert_eq (znth got (seq * 64)) (Some (zb (seq mod 256)))) (seqZ 0 total)].

Definition stale_and_duplicate_frames_discarded : bool :=
  let '(stopped, this) := run_cmds tcp_pair 0
    [CmdFrame 0 (str "a"); CmdFrame 0 (str "stale"); CmdFrame 3 (str "d"); CmdFrame 3 (str "dup"); CmdEos 3 100;
     CmdFrame 1 (str "b"); CmdFrame 2 (str "c")] [EvChannelClosed] in
  asserts [stopped; acked_ok 100 this].

(** The actor is gone before the end of stream is sent. *)
Definition reorder_timeout_shuts_down_actor : bool :=
  fst (run_cmds tcp_pair 0 [CmdFrame 5 (str "gap")] [EvTimer (MAX_REORDER_SECS + 1)]).

Example upload_tests_pass : asserts
  [frames_delivered_in_order; reorder_buffer_drains_on_consecutive_arrival; eos_acked_immediately_when_next_seq_exceeds_max;
   shutdown_drains_and_acks_waiters; channel_close_acks_waiters_with_error; upstream_write_error_acks_eos_with_error;
   large_gap_fill_keeps_order_across_write_runs; stale_and_duplicate_frames_discarded;
   reorder_timeout_shuts_down_actor] = true.
Proof. vm_compute. reflexivity. Qed.

(** Two megabytes are too many to compute with: the length decides. *)
Example reorder_buffer_overflow_passes : reorder_buffer_overflow_aborts_upload = true.
Proof.
  unfold reorder_buffer_overflow_aborts_upload.
  assert (Hb : zlen big = MAX_PENDING_BYTES + 1) by (unfold big; rewrite zlen_zrep; done).
  revert Hb. generalize big as b. intros b Hb.
  unfold run_cmds. cbn [map app run run_step dispatch]. unfold handle_frame. cbn [phase UploadActor_new].
  rewrite lookup_empty, Hb. by vm_compute.
Qed.
End upload_tests.

Module tunnel_tests.

(** The segment's body, polled until it ends: how much it carries. Where the
    test awaits data, the flush timer fires at the second poll. *)
Fixpoint drain_segment (fuel : nat) (segment : Segment) (actor : TunnelActor) : option (Z * Segment * TunnelActor) :=
  match fuel with
  | O => None
  | S fuel =>
      match segment_poll table (env (Nat.even fuel)) 0 segment actor with
      | (Ready (Some (Ok data)), segment, actor) =>
          '(total, segment, actor) ← drain_segment fuel segment actor; Some (zlen data + total, segment, actor)
      | (Ready None, segment, actor) => Some (0, segment, actor)
      | (Pending, segment, actor) => drain_segment fuel segment actor
      | _ => None
      end
  end.

(** One item of the body. *)
Definition first_chunk_len (segment : Segment) (actor : TunnelActor) : option Z :=
  match segment_poll table (env true) 0 segment actor with
  | (Ready (Some (Ok data)), _, _) => Some (zlen data)
  | _ => None
  end.

Definition new_rotating_actor (max_download_bytes : Z) : TunnelActor := TunnelActor_new (Some max_download_bytes) 0.

Definition connected (upstream : list ReadEvent) (actor : TunnelActor) : TunnelActor :=
  on_upstream_connected upstream plain_config 0 0 0 actor.

Definition with_segment (actor : TunnelActor) (k : Segment -> TunnelActor -> bool) : bool :=
  let '(segment, actor) := take_segment actor in unwrap_some segment (fun segment => k segment actor).

(** A round of [run]; the requesters named are gone. *)
Definition round (gone : list Z) (ev : TunnelEvent) (actor : TunnelActor) (k : list Reply -> TunnelActor -> bool) : bool :=
  unwrap_some (tunnel_round (fun reply => existsb (Z.eqb reply) gone) ev actor) (fun '(rs, actor) => k rs actor).

(** The segment a requester was answered with. *)
Definition replied (reply : Z) (rs : list Reply) (k : Segment -> bool) : bool :=
  unwrap_some (List.find (fun r => fst r =? reply) rs) (fun r => unwrap_some (snd r) k).

(** The first segment, which the limit ends, is read and dropped. *)
Definition drained_first (actor : TunnelActor) (segment : Segment) (k : Z -> TunnelActor -> bool) : bool :=
  unwrap_some (drain_segment 12 segment actor) (fun '(sent, segment, actor) => k sent (segment_drop segment actor)).

Definition two_writes : list ReadEvent :=
  [RdData (zrep 2000 Byte.x00); RdPending; RdPending; RdData (zrep 500 Byte.x00); RdPending; RdPending].

Definition segment_stops_at_rotation_limit_and_keeps_shaper : bool :=
  with_segment (connected two_writes (new_rotating_actor 1000)) (fun first actor =>
  drained_first actor first (fun sent actor =>
  round [] EvSegmentDone actor (fun _ actor =>
  round [] (EvContinue 0 77) actor (fun rs actor =>
  replied 77 rs (fun second =>
    asserts [1000 <=? sent; unwrap_some (first_chunk_len second actor) (fun n => 0 <? n)]))))).

Definition prefetched_continue_is_queued_and_served : bool :=
  with_segment (connected two_writes (new_rotating_actor 1000)) (fun first actor =>
  round [] (EvContinue 0 77) actor (fun _ actor =>
  drained_first actor first (fun sent actor =>
  round [] EvSegmentDone actor (fun rs actor =>
  replied 77 rs (fun second =>
    asserts [1000 <=? sent; unwrap_some (first_chunk_len second actor) (fun n => 0 <? n)]))))).

Definition continue_in_direct_mode_returns_none : bool :=
  let actor := connected [RdPending] (TunnelActor_new None 0) in
  round [] (EvContinue 0 77) actor (fun rs _ =>
    unwrap_some (List.find (fun r => fst r =? 77) rs) (fun r => is_none (snd r))).

Definition abandoned_continue_skips_segment_restart : bool :=
  with_segment (connected two_writes (new_rotating_actor 1000)) (fun first actor =>
  round [77] (EvContinue 0 77) actor (fun _ actor =>
  drained_first actor first (fun _ actor =>
  round [77] EvSegmentDone actor (fun rs actor =>
  is_none (List.find (fun r => fst r =? 77) rs) &&
  round [77] (EvContinue 0 78) actor (fun rs actor =>
  replied 78 rs (fun second =>
    unwrap_some (first_chunk_len second actor) (fun n => 0 <? n))))))).

Definition dropped_segment_ends_the_tunnel : bool :=
  with_segment (connected [RdData (zrep 100 Byte.x00); RdPending] (new_rotating_actor (u64_max - 1))) (fun segment actor =>
  round [] EvSegmentDone (segment_drop segment actor) (fun _ actor =>
    bool_decide (t_phase actor = TClosed))).

Definition rotation_staleness_timeout_closes_tunnel : bool :=
  with_segment (connected two_writes (new_rotating_actor 1000)) (fun segment actor =>
  drained_first actor segment (fun total actor =>
  round [] EvSegmentDone actor (fun _ actor =>
  round [] EvRotationStale actor (fun _ actor =>
    asserts [1000 <=? total; bool_decide (t_phase actor = TClosed)])))).

Example tunnel_tests_pass : asserts
  [segment_stops_at_rotation_limit_and_keeps_shaper; prefetched_continue_is_queued_and_served;
   continue_in_direct_mode_returns_none; abandoned_continue_skips_segment_restart; dropped_segment_ends_the_tunnel;
   rotation_staleness_timeout_closes_tunnel] = true.
Proof. vm_compute. reflexivity. Qed.
End tunnel_tests.

Module download_tests.

Definition queued (bufs : DecodeBuffers) : bytes := concat (db_pending bufs).

Definition frame_by (cipher : FrameCipher) (data : bytes) (seq : Z) (k : bytes -> bool) : bool :=
  unwrap (encode_frame (C := cipher) test_nonce test_draw data seq 0 (0, 0) Binary) k.
Definition frame : bytes -> Z -> (bytes -> bool) -> bool := frame_by test_cipher.

(** [ingest] of a chunk that succeeds. *)
Definition ingest_ok (chunk : bytes) (expected_seq : Z) (bufs : DecodeBuffers) (k : DecodeBuffers -> Z -> bool) : bool :=
  unwrap_some (ingest chunk Binary expected_seq bufs) (fun '(r, bufs, expected_seq) => unwrap r (fun _ => k bufs expected_seq)).

Definition ingest_err (chunk : bytes) (expected_seq : Z) (bufs : DecodeBuffers) (k : DecodeBuffers -> Z -> bool) : bool :=
  unwrap_some (ingest chunk Binary expected_seq bufs) (fun '(r, bufs, expected_seq) => is_err r && k bufs expected_seq).

Definition ingest_accepts_frames_in_order : bool :=
  frame (str "abc") 0 (fun f0 => frame (str "de") 1 (fun f1 =>
  ingest_ok f0 0 DecodeBuffers_new (fun bufs expected_seq =>
  ingest_ok f1 expected_seq bufs (fun bufs expected_seq => asserts
    [assert_eq (queued bufs) (str "abcde"); db_pending_bytes bufs =? 5; expected_seq =? 2; assert_eq (db_input bufs) []])))).

Definition ingest_handles_split_frames : bool :=
  frame (str "hello world") 0 (fun raw =>
    let split := zlen raw / 2 in
    ingest_ok (ztake split raw) 0 DecodeBuffers_new (fun bufs expected_seq =>
    negb (db_has_pending bufs) && assert_ne (db_input bufs) [] &&
    ingest_ok (zdrop split raw) expected_seq bufs (fun bufs _ => asserts
      [assert_eq (queued bufs) (str "hello world"); assert_eq (db_input bufs) []]))).

Definition ingest_queues_decrypted_frames_without_copy : bool :=
  let plain := counting 2048 251 in
  frame plain 0 (fun raw => ingest_ok raw 0 DecodeBuffers_new (fun bufs _ => asserts
    [assert_eq (queued bufs) plain; assert_eq (db_input bufs) []])).

Definition ingest_rejects_out_of_order : bool :=
  frame (str "x") 5 (fun raw => ingest_err raw 0 DecodeBuffers_new (fun bufs expected_seq => asserts
    [negb (db_has_pending bufs); expected_seq =? 0])).

Definition ingest_rejects_undecryptable_frame : bool :=
  let other := aes_frame_cipher (mkAes (P := toy_aead) (zrep 32 (zb 9)) (zrep 32 (zb 9))) in
  frame_by other (str "secret") 0 (fun raw => ingest_err raw 0 DecodeBuffers_new (fun _ _ => true)).

Definition consume_walks_partial_chunks : bool :=
  let '(pending, pending_bytes) := consume 4 [str "aaa"; str "bbb"; str "ccc"] 9 in
  let '(pending', pending_bytes') := consume 5 pending pending_bytes in asserts
  [pending_bytes =? 5; assert_eq pending [str "bb"; str "ccc"];
   pending_bytes' =? 0; assert_eq pending' []; negb (db_has_pending (mkBuffers [] [] pending' pending_bytes'))].

(** One frame after the other, each consumed at once. *)
Fixpoint ingest_rounds (rounds : nat) (i : Z) (bufs : DecodeBuffers) : bool :=
  match rounds with
  | O => i =? 8
  | S rounds =>
      frame (zrep 1024 Byte.xaa) i (fun raw => ingest_ok raw i bufs (fun bufs expected_seq =>
        let '(pending, pending_bytes) := consume (db_pending_bytes bufs) (db_pending bufs) (db_pending_bytes bufs) in
        let bufs := mkBuffers (db_input bufs) (db_scratch bufs) pending pending_bytes in
        assert_eq (db_input bufs) [] && negb (db_has_pending bufs) && ingest_rounds rounds expected_seq bufs))
  end.

Definition ingest_leaves_no_state_behind_across_chunks : bool := ingest_rounds 8 0 DecodeBuffers_new.

Definition flush_times_out_when_local_socket_stalls : bool :=
  let bufs := mkBuffers [] [] [str "blocked"] 7 in
  match flush (S := toy_socket) bufs ([], [Stall]) with
  | Some (Err err, bufs, _) => asserts [contains (str "stalled") (str err); db_pending_bytes bufs =? 7]
  | _ => false
  end.

Example download_tests_pass : asserts
  [ingest_accepts_frames_in_order; ingest_handles_split_frames; ingest_queues_decrypted_frames_without_copy;
   ingest_rejects_out_of_order; ingest_rejects_undecryptable_frame; consume_walks_partial_chunks;
   ingest_leaves_no_state_behind_across_chunks; flush_times_out_when_local_socket_stalls] = true.
Proof. vm_compute. reflexivity. Qed.
End download_tests.

Module upload_loop_tests.

(** The loop over [decode_frame] until it wants more. *)
Fixpoint decode_received (fuel : nat) (src json_scratch : bytes) : option (list (Z * bytes)) :=
  match fuel with
  | O => None
  | S fuel =>
      match decode_frame src json_scratch Binary with
      | (Ok (Some (Owned seq data)), src, json_scratch) =>
          rest ← decode_received fuel src json_scratch; Some ((seq, data) :: rest)
      | (Ok None, _, _) => Some []
      | _ => None
      end
  end.

(** Rounds in which the next frame is awaited; a request ends, as [answer]
    says, when the actor needs its permits or waits for the last ones. *)
Definition rounds (answer : JoinResult) : list BatchEnv :=
  replicate 8 (mkBatchEnv [SelSeal (env false); SelSeal (env true)] (fun _ => env false) [(O, answer)] [(O, answer)] []).

Definition run_loop (initial : bytes) (rd : list ReadEvent) (start_seq : Z) (answer : JoinResult) : BatchStep * UploadLoop :=
  upload_loop_run table (rounds answer) (replicate 8 (O, answer)) (UBatching [])
    (new_upload_loop 4 (64 * 1024) plain_config initial rd start_seq 0 0).

Definition ended (r : BatchStep * UploadLoop) : bool := match fst r with UNext UDone => true | _ => false end.
Definition received (r : BatchStep * UploadLoop) : bytes := concat (posted (snd r)).

Definition run_uploads_all_data_with_contiguous_seqs : bool :=
  let initial := counting 40000 251 in
  let extra := counting 20000 253 in
  let r := run_loop initial [RdData extra; RdData []] 0 JoinOk in asserts
  [ended r; assert_ne (received r) [];
   unwrap_some (decode_received 12 (received r) []) (fun got => assert_eq (concat (map snd got)) (initial ++ extra))].

Definition run_starts_seq_from_configured_value : bool :=
  let r := run_loop (zrep 40000 Byte.xab) [RdData []] 7 JoinOk in
  ended r &&
  unwrap_some (decode_received 12 (received r) []) (fun got =>
    negb (zlen got =? 0) && assert_eq (map fst got) (seqZ 7 (zlen got))).

Definition upload_failure_propagates_error : bool :=
  match fst (run_loop (zrep 30000 Byte.xcd) [RdData []] 0 JoinErr) with
  | UFailed m => contains (str "upload POST failed") (str m)
  | _ => false
  end.

Definition empty_input_sends_no_requests : bool :=
  let r := run_loop [] [RdData []] 5 JoinOk in
  asserts [ended r; assert_eq (received r) []].

Example upload_loop_tests_pass : asserts
  [run_uploads_all_data_with_contiguous_seqs; run_starts_seq_from_configured_value; upload_failure_propagates_error;
   empty_input_sends_no_requests] = true.
Proof. vm_compute. reflexivity. Qed.
End upload_loop_tests.
