(* ===== verification/TestsNet.v ===== *)
(** * The unit tests of DNS, WARP and the configuration

    The tests of [src/dns/client.rs], [src/dns/config.rs],
    [src/dns/transport.rs], [src/config/mod.rs], [src/warp/h3.rs], [src/warp/mod.rs],
    [src/warp/register.rs] and [src/warp/masque.rs], run on the model. A DNS
    message the test builds is what the message parser gives; a TOML text is
    the document it stands for. Tests that only exercise the libraries'
    builders, and those that need a QUIC server, have no
    counterpart. *)

From S2P Require Import Prelude Frame Shaper Text Net Bypass Dns DnsTransport Warp Pin Register H3 Setup Programs Config Testing.

Module dns_tests.

(** [make_response_for]: a message with one question and A records. *)
Definition make_response_for (id : Z) (tc : bool) (rcode ttl : Z) (a_ips : list Z) (qname : string) (qtype : Z) : DnsMessage :=
  mkMessage id tc rcode (Some (str qname, qtype)) (Some (map (fun a => mkRecord RTYPE_A ttl (Some a) None) a_ips)).

Definition make_response (id : Z) (tc : bool) (rcode ttl : Z) (a_ips : list Z) : DnsMessage :=
  make_response_for id tc rcode ttl a_ips "example.com" RTYPE_A.

(** The parser that reads the test's bytes. *)
Definition wire_of (m : DnsMessage) : DnsWire := {| wire_build := fun _ => Ok []; wire_parse := fun _ => Some m |}.

Definition parse_as (opts : DnsOptions) (m : DnsMessage) (id qtype : Z) : Res string (list IpAddr * Z) :=
  parse_response (W := wire_of m) opts [] id qtype (str "example.com").
Definition parse : DnsMessage -> Z -> Z -> Res string (list IpAddr * Z) := parse_as default_options.

Definition quad (a b c d : Z) : Z := be_val (map zb [a; b; c; d]).
Definition RCODE_SERVFAIL : Z := 2.

Definition parse_response_accepts_valid_a_record : bool :=
  let m := make_response 1 false RCODE_NOERROR 120 [quad 1 2 3 4] in
  unwrap (parse m 1 RTYPE_A) (fun '(ips, ttl) => asserts [assert_eq ips [V4 (quad 1 2 3 4)]; ttl =? 120]).

Definition parse_response_rejects_truncated : bool :=
  is_err (parse (make_response 2 true RCODE_NOERROR 120 []) 2 RTYPE_A).

Definition parse_response_rejects_id_mismatch : bool :=
  is_err (parse (make_response 3 false RCODE_NOERROR 120 []) 99 RTYPE_A).

Definition parse_response_nxdomain_returns_empty_with_empty_ttl : bool :=
  unwrap (parse (make_response 4 false RCODE_NXDOMAIN 120 []) 4 RTYPE_A) (fun '(ips, ttl) => asserts
    [assert_eq ips []; ttl =? empty_ttl default_options]).

Definition parse_response_rejects_error_rcode : bool :=
  is_err (parse (make_response 5 false RCODE_SERVFAIL 120 []) 5 RTYPE_A).

Definition parse_response_clamps_ttl : bool :=
  unwrap (parse (make_response 6 false RCODE_NOERROR 10 [quad 9 9 9 9]) 6 RTYPE_A) (fun '(_, ttl) => ttl =? min_ttl default_options) &&
  unwrap (parse (make_response 7 false RCODE_NOERROR 999999 [quad 9 9 9 9]) 7 RTYPE_A) (fun '(_, ttl) => ttl =? max_ttl default_options).

(** [DnsOptions::default] with other bounds. *)
Definition bounds (min_ttl max_ttl : Z) : DnsOptions := mkDnsOptions Udp false 1024 None min_ttl max_ttl 3600 300 250 1024.

Definition parse_response_safe_when_ttl_bounds_inverted : bool :=
  unwrap (parse_as (bounds 5000 100) (make_response 8 false RCODE_NOERROR 60 [quad 9 9 9 9]) 8 RTYPE_A) (fun '(_, ttl) => ttl =? 100).

Definition parse_response_rejects_question_name_mismatch : bool :=
  is_err (parse (make_response_for 9 false RCODE_NOERROR 120 [quad 1 2 3 4] "evil.com" RTYPE_A) 9 RTYPE_A).

Definition parse_response_rejects_question_type_mismatch : bool :=
  is_err (parse (make_response_for 10 false RCODE_NOERROR 120 [quad 1 2 3 4] "example.com" RTYPE_AAAA) 10 RTYPE_A).

Definition parse_response_rejects_missing_question : bool :=
  let m := mkMessage 11 false RCODE_NOERROR None (Some [mkRecord RTYPE_A 120 (Some (quad 1 2 3 4)) None]) in
  is_err (parse m 11 RTYPE_A).

Definition init_dns_rejects_inverted_ttl_bounds : bool :=
  unwrap_some (socket_addr_from_str (str "127.0.0.1:1")) (fun upstream =>
    is_err (init_dns (fun _ => []) (mkDnsConfig upstream None (bounds 5000 100)))).

Definition parse_response_extracts_aaaa_records : bool :=
  unwrap_some (ip_from_str (str "2001:db8::1")) (fun v6 =>
    let m := mkMessage 10 false RCODE_NOERROR (Some (str "example.com", RTYPE_AAAA))
      (Some [mkRecord RTYPE_AAAA 300 None (Some (ip_bits v6))]) in
    unwrap (parse m 10 RTYPE_AAAA) (fun '(ips, ttl) => asserts [assert_eq ips [v6]; ttl =? 300])).

Definition localhost6 : IpAddr := V6 1.
Definition prefer_v6 : DnsOptions := mkDnsOptions Udp true 1024 None 30 3600 3600 300 250 1024.

Definition interleave_prefers_ipv4_by_default : bool :=
  let a := V4 (quad 1 1 1 1) in
  let b := V4 (quad 2 2 2 2) in
  assert_eq (interleave_ips default_options [a; b] [localhost6]) [a; localhost6; b].

Definition interleave_prefers_ipv6_when_configured : bool :=
  let r := interleave_ips prefer_v6 [V4 (quad 1 1 1 1)] [localhost6; localhost6] in
  asserts [zlen r =? 3; assert_eq (znth r 0) (Some localhost6)].

Definition interleave_exhausts_one_side : bool :=
  zlen (interleave_ips default_options [V4 (quad 1 1 1 1)] [localhost6; localhost6]) =? 3.

Example dns_tests_pass : asserts
  [parse_response_accepts_valid_a_record; parse_response_rejects_truncated; parse_response_rejects_id_mismatch;
   parse_response_nxdomain_returns_empty_with_empty_ttl; parse_response_rejects_error_rcode; parse_response_clamps_ttl;
   parse_response_safe_when_ttl_bounds_inverted; parse_response_rejects_question_name_mismatch;
   parse_response_rejects_question_type_mismatch; parse_response_rejects_missing_question; init_dns_rejects_inverted_ttl_bounds;
   parse_response_extracts_aaaa_records; interleave_prefers_ipv4_by_default; interleave_prefers_ipv6_when_configured;
   interleave_exhausts_one_side] = true.
Proof. vm_compute. reflexivity. Qed.
End dns_tests.

Module config_tests.

(** [toml::from_str] of a document. *)
Definition from_value {A} (de : forall D : Documents, doc -> Res string A) (v : Value) : Res string A :=
  de (value_documents [] v) v.

Definition dns_value (more : list (string * Value)) : Value := vtable (("upstream", vstr "8.8.8.8:53") :: more).
Definition de_dns_of : Value -> Res string DnsConfig := from_value (@de_dns).

Definition upstream_parsed_from_string : bool :=
  unwrap (de_dns_of (dns_value [])) (fun cfg => asserts
    [assert_eq (Some (dns_upstream cfg)) (socket_addr_from_str (str "8.8.8.8:53")); is_none (tls_domain cfg)]).

Definition defaults_applied : bool :=
  unwrap (de_dns_of (dns_value [])) (fun cfg =>
    let options := options cfg in asserts
    [bool_decide (protocol options = Udp); negb (prefer_ipv6 options); cache_size options =? 1024; min_ttl options =? 30;
     max_ttl options =? 3600; empty_ttl options =? 300; max_concurrent_queries options =? 1024]).

Definition explicit_fields_override_defaults : bool :=
  unwrap (de_dns_of (vtable [("upstream", vstr "1.1.1.1:853"); ("protocol", vstr "dot"); ("cache_size", VInteger 64)])) (fun cfg =>
    asserts [bool_decide (protocol (options cfg) = Dot); cache_size (options cfg) =? 64]).

Definition invalid_upstream_rejected : bool := is_err (de_dns_of (vtable [("upstream", vstr "not-an-address")])).

Definition key43 : Value := VString (zrep 43 Byte.x41).
Definition shaping : string * Value :=
  ("traffic_shaping"%string, vtable [("global", vtable [("padding_range", VArray [VInteger 0; VInteger 100]); ("padding_threshold", VInteger 50)])]).

Definition server_doc (server : list (string * Value)) (more : list (string * Value)) : Value :=
  vtable ([("server", vtable ([("listen", vstr "127.0.0.1:3000"); ("path", vstr "/secret")] ++ server));
           ("auth", vtable [("secret", vstr "key")]); shaping] ++ more).

Definition client_doc (client : list (string * Value)) (more : list (string * Value)) : Value :=
  vtable ([("client", vtable ([("listen", vstr "127.0.0.1:8080"); ("remote", vstr "https://example.com/secret")] ++ client));
           ("auth", vtable [("token", vstr "mytoken")]); shaping] ++ more).

Definition de_server_of : Value -> Res string (ServerTopConfig * option LogConfig) := from_value (@de_server_config).
Definition de_client_of : Value -> Res string (ClientTopConfig * option LogConfig) :=
  from_value (fun D => de_client_config (D := D) (fun _ => Err "no file"%string)).

Definition parse_minimal_server_config : bool :=
  unwrap (de_server_of (server_doc [("private_key", key43)] [])) (fun '(cfg, _) => asserts
    [assert_eq (sv_listen cfg) (str "127.0.0.1:3000"); assert_eq (sv_path cfg) (str "/secret"); is_none (sv_socks5 cfg)]).

Definition parse_server_warp_section : bool :=
  let warp := vtable [("enabled", VBoolean true); ("endpoint", vstr "162.159.192.1"); ("bypass_suffixes", VArray [vstr "corp.local"])] in
  unwrap (de_server_of (server_doc [("private_key", key43)] [("warp", warp)])) (fun '(cfg, _) =>
    unwrap_some (sv_warp cfg) (fun warp => asserts
      [ws_enabled warp; ws_bypass_private warp; is_none (ws_port warp); assert_eq (ws_endpoint warp) (Some (str "162.159.192.1"));
       assert_eq (ws_bypass_suffixes warp) [str "corp.local"]])).

Definition server_warp_section_rejects_unknown_keys : bool :=
  is_err (de_server_of (server_doc [("private_key", key43)] [("warp", vtable [("enable", VBoolean true)])])).

Definition parse_minimal_client_config : bool :=
  unwrap (de_client_of (client_doc [("public_key", key43)] [])) (fun '(cfg, _) => asserts
    [assert_eq (cl_listen (ct_client cfg)) (str "127.0.0.1:8080"); assert_eq (ct_token cfg) (str "mytoken")]).

Definition parse_client_redirect_rules : bool :=
  let redirect listen target := vtable [("listen", vstr listen); ("target", vstr target)] in
  unwrap (de_client_of (client_doc [("public_key", key43)]
      [("redirect", VArray [redirect "127.0.0.1:2222" "172.16.0.207:22"; redirect "127.0.0.1:2223" "example.com:443"])])) (fun '(cfg, _) =>
    match ct_redirect cfg with
    | [first; second] => asserts
        [assert_eq (rd_listen first) (str "127.0.0.1:2222"); assert_eq (rd_target first) (str "172.16.0.207:22");
         assert_eq (rd_target second) (str "example.com:443")]
    | _ => false
    end).

Definition server_config_requires_private_key : bool := is_err (de_server_of (server_doc [] [])).
Definition client_config_requires_public_key : bool := is_err (de_client_of (client_doc [] [])).

Example config_tests_pass : asserts
  [upstream_parsed_from_string; defaults_applied; explicit_fields_override_defaults; invalid_upstream_rejected;
   parse_minimal_server_config; parse_server_warp_section; server_warp_section_rejects_unknown_keys; parse_minimal_client_config;
   parse_client_redirect_rules; server_config_requires_private_key; client_config_requires_public_key] = true.
Proof. vm_compute. reflexivity. Qed.
End config_tests.

Module h3_tests.

Definition varint_roundtrip_all_widths : bool :=
  forallb (fun value =>
    let buf := put_varint [] value in
    assert_eq (zlen buf) (varint_len value) &&
    unwrap_some (get_varint buf) (fun got => assert_eq got (value, zlen buf)) &&
    unwrap (put_varint_slice (zrep 8 Byte.x00) value) (fun '(slice, n) => asserts [n =? zlen buf; assert_eq (ztake n slice) buf]))
    [0; 1; 63; 64; 16383; 16384; 1073741823; 2 ^ 30].

Definition varint_rejects_truncated : bool := asserts [is_none (get_varint []); is_none (get_varint [Byte.x40])].

Definition frame_header_parses_type_and_length : bool :=
  let buf := put_varint (put_varint [] FRAME_HEADERS) 300 in
  unwrap_some (get_frame_header buf) (fun h => assert_eq h (FRAME_HEADERS, 300, zlen buf)).

Definition connect_headers_have_expected_bytes : bool :=
  let block := encode_connect_headers (str "example.com:443") in asserts
  [assert_eq (ztake 5 block) (map zb [0; 0; 0xCF; 0x50; 15]);
   assert_eq (slice 5 20 block) (str "example.com:443");
   zlen block =? 20].

Definition connect_headers_encode_long_authority : bool :=
  let authority := zrep 200 Byte.x61 in
  let block := encode_connect_headers authority in asserts
  [assert_eq (slice 4 6 block) (map zb [0x7F; 200 - 127]);
   assert_eq (slice 6 (6 + 200) block) authority].

(** [decode_status] of a block, whose loop ends. *)
Definition decode (block : bytes) (k : Res string Z -> bool) : bool := unwrap_some (decode_status block) k.
Definition decodes_to (block : bytes) (code : Z) : bool := decode block (fun r => unwrap r (Z.eqb code)).
Definition rejected (block : bytes) : bool := decode block is_err.

Definition decode_status_from_static_index : bool :=
  forallb (fun '(index, expected) => decodes_to (map zb [0; 0; Z.lor INDEXED_STATIC (STATIC_STATUS_FIRST + index)]) expected)
    (imap (fun i expected => (Z.of_nat i, expected)) STATIC_STATUS_VALUES).

(** A literal name and a value. *)
Definition literal_status (value : string) : bytes :=
  put_string (put_int (map zb [0; 0]) 0x20 3 7 ++ str ":status") (str value).

Definition decode_status_from_literal_name : bool := decodes_to (literal_status "403") 403.

Definition decode_status_skips_unrelated_fields : bool :=
  decodes_to (put_int (map zb [0; 0]) INDEXED_STATIC 6 32 ++ [zb (Z.lor INDEXED_STATIC 25)]) 200.

Definition decode_status_rejects_dynamic_table : bool := asserts
  [rejected (map zb [1; 0; Z.lor INDEXED_STATIC 25]); rejected (map zb [0; 0; Z.lor 0x80 25])].

Definition decode_status_rejects_malformed_value : bool := rejected (literal_status "2x0").

Definition decode_status_errors_when_absent : bool := rejected (map zb [0; 0; Z.lor INDEXED_STATIC 32]).

Definition control_stream_declares_zero_dynamic_table : bool :=
  let bytes := control_stream_bytes in
  unwrap_some (get_varint bytes) (fun '(stream_type, used) =>
  unwrap_some (get_frame_header (zdrop used bytes)) (fun '(frame_type, len, header) =>
    let payload := slice (used + header) (used + header + len) bytes in
    unwrap_some (get_varint payload) (fun '(id, n) =>
    unwrap_some (get_varint (zdrop n payload)) (fun '(capacity, _) => asserts
      [stream_type =? STREAM_CONTROL; frame_type =? FRAME_SETTINGS; zlen payload =? 9; id =? SETTINGS_QPACK_MAX_TABLE_CAPACITY;
       capacity =? 0])))).

Example h3_tests_pass : asserts
  [varint_roundtrip_all_widths; varint_rejects_truncated; frame_header_parses_type_and_length; connect_headers_have_expected_bytes;
   connect_headers_encode_long_authority; decode_status_from_static_index; decode_status_from_literal_name;
   decode_status_skips_unrelated_fields; decode_status_rejects_dynamic_table; decode_status_rejects_malformed_value;
   decode_status_errors_when_absent; control_stream_declares_zero_dynamic_table] = true.
Proof. vm_compute. reflexivity. Qed.
End h3_tests.

Module warp_tests.

(** Networks as an address and a length. *)
#[local] Instance networks_by_prefix : IpNetworks := {|
  ip_net := IpAddr * Z;
  net_from_str := fun s => '(a, l) ← split_once Byte.x2f s; ip ← ip_from_str a; len ← parse_u16 l; Some (ip, len);
  net_contains := fun '(net, len) ip => in_network net len ip
|}.

Definition bypass (private : bool) (cidrs : list string) (suffixes : list string) (k : Bypass -> bool) : bool :=
  unwrap (parse_networks (map str cidrs) []) (fun networks => k (mkBypass private networks (map str suffixes))).

Definition direct (b : Bypass) (host : string) : bool :=
  match ip_from_str (bare_host (str host)) with
  | Some ip => bypass_contains b ip
  | None => name_is_direct b (str host)
  end.

Definition private_targets_are_direct : bool :=
  bypass true [] [] (fun b => forallb (direct b)
    ["127.0.0.1"; "10.1.2.3"; "172.16.0.7"; "192.168.1.1"; "169.254.1.1"; "100.64.0.1"; "::1"; "fd00::1"; "fe80::1";
     "localhost"; "[::1]"]%string).

Definition public_targets_go_through_warp : bool :=
  bypass true [] [] (fun b => forallb (fun host => negb (direct b host)) ["1.1.1.1"; "2606:4700::1111"; "example.com"; "8.8.8.8"]%string).

Definition bypass_private_can_be_disabled : bool :=
  bypass false [] [] (fun b => asserts [negb (direct b "10.0.0.1"); direct b "localhost"]).

Definition bypass_suffixes_match_only_full_labels : bool :=
  bypass true [] ["corp.local"%string] (fun b => asserts
    [direct b "db.corp.local"; direct b "CORP.LOCAL"; negb (direct b "evilcorp.local"); negb (direct b "corp.local.example.com")]).

Definition extra_cidrs_are_honoured : bool :=
  bypass false ["203.0.113.0/24"%string] [] (fun b => asserts [direct b "203.0.113.9"; negb (direct b "203.0.114.9")]).

Definition ipv4_mapped_addresses_are_classified_by_their_v4_form : bool :=
  bypass true [] [] (fun b => asserts [direct b "::ffff:10.0.0.1"; negb (direct b "::ffff:1.1.1.1")]).

(** The standard library prints the IPv6 address. *)
Definition authority_is_always_ip_literal : bool :=
  let show _ := str "2606:4700::1" in
  let authority_of s port := from_option (fun ip => authority show ip port) [] (ip_from_str (str s)) in asserts
  [assert_eq (authority_of "1.1.1.1"%string 80) (str "1.1.1.1:80");
   assert_eq (authority_of "2606:4700::1"%string 443) (str "[2606:4700::1]:443")].

Definition creds (v4 v6 : string) : WarpCredentials :=
  mkCreds (str "id") (str "t") (str "x") (str "y") [] [] (str v4) (str v6).

Definition section_with (endpoint endpoint_v6 : option string) : WarpSection :=
  mkWarpSection true None (str <$> endpoint) (str <$> endpoint_v6) None None None None None None None false true [] [].

Definition endpoint_is (section : WarpSection) (c : WarpCredentials) (s : string) : bool :=
  unwrap (resolve_endpoint section c) (fun ip => assert_eq (Some ip) (ip_from_str (str s))).

Definition endpoint_prefers_config_then_credentials : bool := asserts
  [endpoint_is (section_with None None) (creds "162.159.192.7" "") "162.159.192.7";
   endpoint_is (section_with (Some "162.159.192.9"%string) None) (creds "162.159.192.7" "") "162.159.192.9";
   endpoint_is (section_with None None) (creds "162.159.192.7" "2606:4700:d0::1") "162.159.192.7";
   endpoint_is (section_with None (Some "2606:4700:d0::9"%string)) (creds "162.159.192.7" "2606:4700:d0::1") "2606:4700:d0::9";
   endpoint_is (section_with None None) (creds "" "") "162.159.192.1"].

Example warp_tests_pass : asserts
  [private_targets_are_direct; public_targets_go_through_warp; bypass_private_can_be_disabled;
   bypass_suffixes_match_only_full_labels; extra_cidrs_are_honoured; ipv4_mapped_addresses_are_classified_by_their_v4_form;
   authority_is_always_ip_literal; endpoint_prefers_config_then_credentials] = true.
Proof. vm_compute. reflexivity. Qed.
End warp_tests.

Module register_tests.

Definition time_string_matches_cloudflare_format : bool := assert_eq (civil_from_unix 1793602800) (2026, 11, 2, 7, 0, 0).

Definition hex_encoding_is_lowercase_and_padded : bool := assert_eq (hex_lower (map zb [0x0a; 0xff; 0x00])) (str "0aff00").

Definition strip_port_handles_v4_and_v6 : bool :=
  forallb (fun '(addr, host) => assert_eq (strip_port (str addr)) (str host))
    [("162.159.192.1:500", "162.159.192.1"); ("162.159.192.1", "162.159.192.1"); ("[2606:4700::1]:500", "[2606:4700::1]");
     ("[2606:4700:103::2]", "[2606:4700:103::2]"); ("2606:4700:103::2", "2606:4700:103::2")]%string.

(** Pieces of 64 characters. *)
Fixpoint chunks (fuel : nat) (l : bytes) : list bytes :=
  match fuel, l with
  | S fuel, _ :: _ => ztake 64 l :: chunks fuel (zdrop 64 l)
  | _, _ => []
  end.

Definition endpoint_spki_accepts_pem_and_raw_base64 : bool :=
  unwrap (generate_device_key [zrep 32 (zb 7)]) (fun '(_, spki) =>
    let body := b64s_encode spki in
    let pem := str "-----BEGIN PUBLIC KEY-----" ++ [Byte.x0a] ++ concat (map (fun c => c ++ [Byte.x0a]) (chunks (length body) body)) ++
      str "-----END PUBLIC KEY-----" ++ [Byte.x0a] in
    unwrap (endpoint_spki body) (fun raw => unwrap (endpoint_spki pem) (fun of_pem => asserts
      [assert_eq raw spki; assert_eq of_pem spki]))).

Definition generated_key_roundtrips_through_credentials : bool :=
  unwrap (generate_device_key [zrep 32 (zb 7)]) (fun '(key, spki) =>
    unwrap_some (key_to_pkcs8 key) (fun der =>
    let creds := mkCreds (str "id") (str "token") (b64s_encode der) (b64s_encode spki) (str "172.16.0.2")
      (str "2606:4700:110:8a36::2") (str "162.159.192.1") [] in
    unwrap (signing_key creds) (fun restored =>
    unwrap (endpoint_spki (cr_endpoint_pub_key creds)) (fun pinned => asserts
      [assert_eq (key_public_der restored) (Some spki); assert_eq pinned spki])))).

Example register_tests_pass : asserts
  [time_string_matches_cloudflare_format; hex_encoding_is_lowercase_and_padded; strip_port_handles_v4_and_v6;
   endpoint_spki_accepts_pem_and_raw_base64; generated_key_roundtrips_through_credentials] = true.
Proof. vm_compute. reflexivity. Qed.
End register_tests.

Module masque_tests.

Definition spki_extraction_rejects_garbage : bool := asserts [is_none (extract_spki (str "not a certificate")); is_none (extract_spki [])].

Definition der_length_handles_long_form : bool := asserts
  [assert_eq (read_der_len (map zb [0x05])) (Some (5, 1));
   assert_eq (read_der_len (map zb [0x81; 0x80])) (Some (128, 2));
   assert_eq (read_der_len (map zb [0x82; 0x01; 0x00])) (Some (256, 3));
   assert_eq (read_der_len (map zb [0x85; 0; 0; 0; 0; 0])) None].

Example masque_tests_pass : asserts [spki_extraction_rejects_garbage; der_length_handles_long_form] = true.
Proof. vm_compute. reflexivity. Qed.
End masque_tests.

Module transport_tests.

(** The server echoes the header, with the answer's flags, and the rest; a
    query of [send] has an identifier drawn for it. *)
Definition udp_echo (query : bytes) : bytes := ztake 2 query ++ map zb [0x81; 0x80; 0; 0; 0; 0; 0; 0; 0; 0] ++ zdrop 12 query.

Definition udp_transport_roundtrip : bool :=
  let query := zrep 12 Byte.x00 in
  let id := 0x1234 in
  match snd (udp_send id query (Err "unknown"%string)) with
  | [sent] =>
      unwrap (fst (udp_send id query (Ok (udp_echo sent)))) (fun '(resp, got) => asserts
        [assert_eq (ztake 2 resp) (ztake 2 sent); got =? be_val (ztake 2 sent)])
  | _ => false
  end.

(** Nothing arrives in time. *)
Definition udp_transport_times_out_when_no_reply : bool :=
  is_err (fst (udp_send 7 (zrep 12 Byte.x00) (Err "DNS query timeout"%string))).

(** What the transport has written is read by its length and echoed. *)
Definition stream_transport_uses_length_prefixed_framing : bool :=
  unwrap_some (transport_run [TSend 0 [0x1234] (zrep 12 Byte.x00); TEnter 0; TTake; TConnect (Ok tt); TWrite true] transport_new) (fun t =>
  unwrap_some (conn t) (fun '(written, _) =>
    let len := be_val (ztake 2 written) in
    let msg := slice 2 (2 + len) written in
    unwrap_some (transport_run [TArrive (ztake 2 written); TArrive msg; TRead] t) (fun t =>
      match answers t with
      | [(_, Ok (resp, id))] => asserts [id =? be_val (ztake 2 msg); assert_eq resp msg; len =? 12]
      | _ => false
      end))).

Definition stream_transport_reports_connect_failure : bool :=
  unwrap_some (transport_run [TSend 0 [0x1234] (zrep 12 Byte.x00); TEnter 0; TTake; TConnect (Err "refused"%string)] transport_new) (fun t =>
    match answers t with [(_, r)] => is_err r | _ => false end).

Example transport_tests_pass : asserts
  [udp_transport_roundtrip; udp_transport_times_out_when_no_reply; stream_transport_uses_length_prefixed_framing;
   stream_transport_reports_connect_failure] = true.
Proof. vm_compute. reflexivity. Qed.
End transport_tests.
